(* ===== verification/_CoqProject ===== *)
-Q . S2P
Prelude.v
CryptoInternal.v
Cbs.v
Cbb.v
CbbSpec.v
Asn1SetOf.v
Oid.v
Ber.v
BerSpec.v
Unicode.v
Asn1Compat.v
Base64.v
Base64Spec.v
Base64Theorems.v
Md32.v
HashSpec.v
Sha2Spec.v
Fips180.v
Sha256.v
Sha1.v
Md5.v
Md4.v
Sha512.v
Sha512X86.v
BytestringTheorems.v
CodecTheorems.v
HashTheorems.v
Modes.v
ModesSpec.v
ModesTheorems.v
Cbc.v
CbcSpec.v
CbcTheorems.v
Poly1305.v
Poly1305Spec.v
Poly1305Theorems.v
Stack.v
StackSpec.v
StackTheorems.v
Lhash.v
LhashSpec.v
LhashTheorems.v
Buf.v
Bio.v
BioPair.v
BioPairSpec.v
BioPairQueue.v
BioPairNew.v
BioPairTheorems.v
BioMem.v
BioMemSpec.v
BioMemTheorems.v
Evp.v
EvpSpec.v
Hmac.v
HmacSpec.v
Kdf.v
KdfTheorems.v
TlsCbc.v
TlsCbcSpec.v
TlsCbcTheorems.v
Cipher.v
CipherSpec.v
CipherModes.v
CipherModesSpec.v
CipherTheorems.v
