(* ===== verification/Prelude.v ===== *)
(** Verification library for the C code vendored in this repository.

    The repository is an iOS radio player; its C code is the set of pods under
    src/Main/Pods. The development models the part of them that carries logic
    of its own and that everything else rests on: the core of BoringSSL,
    src/Main/Pods/BoringSSL-GRPC/src/crypto. Paths below are relative to that
    directory. The target is the 64-bit little-endian one of the devices:
    [size_t] and [crypto_word_t] have 64 bits.

    * How the code is modelled

    A [w]-bit unsigned integer is a [Z] and every operation that can leave its
    range is wrapped ([u8] .. [u64]); bytes are lists of [Z]. A function that
    updates objects through pointers is a computation of the error-state monad
    [M] below: over the bytes left to read ([CBS]), over a heap of structs and
    a shared buffer ([CBB]), over the items and the bucket array of a hash
    table, over an array of pointers, over one memory in which input and output
    may overlap ([Cbc]). Where 0 or NULL is a result the code handles, it is a
    result of the model; where the monad fails in a pointer-level model
    ([Stack], [Lhash], [Cbc], the BIOs, [Evp] and its clients), the failure is
    undefined behaviour or a failed assertion, and the theorems say that it does
    not happen. The blocks that [Stack], [Lhash], the BIO pairs and [Evp]
    allocate are counted or are objects of the heap, so that one that is lost or
    freed twice shows. An allocator is an argument
    ([CryptoInternal.Malloc]) that may refuse; what the code relies on of the C
    library (the size of the block that malloc returns, qsort sorts) is stated
    as a class of laws with an instance. Asserts that the code documents
    its preconditions with are not executed in the byte-string and hash parts.

    * The parts, and the files that model them

    - Words and memory (internal.h, mem.c): [CryptoInternal]. Constant-time
      masks, byte order, rotations, [CRYPTO_memcmp], allocation.
    - Byte strings and DER (bytestring): [Cbs] is the reader cbs.c, [Cbb] the
      writer cbb.c with its heap of nested builders, [CbbSpec] the abstract
      stack of open frames that the writer refines, [Asn1SetOf] the order of a
      SET OF, [Oid] object identifiers as text, [Ber] the conversion ber.c and [BerSpec]
      the relation between a BER element and its DER encoding,
      [Unicode] unicode.c, [Asn1Compat] asn1_compat.c. Their properties are in
      [BytestringTheorems] and [CodecTheorems].
    - Base64 (base64/base64.c): [Base64], [Base64Spec], [Base64Theorems].
    - Hashes (fipsmodule/digest/md32_common.h, sha, md5, md4): [Md32] is the
      collector, proved against the interface [BlockFunction] that the block
      functions of [Sha256], [Sha1], [Md5] and [Md4] implement; [Sha512] and
      [Sha512X86] are sha512.c with both of its block functions. [HashSpec] and
      [Sha2Spec] hold what the standards and the rounds of the code share;
      [Fips180] states FIPS 180-4's SHA-2 without anything of the code, its
      constants computed from the roots of the primes. [HashTheorems] has the
      results.
    - Modes of operation (fipsmodule/modes): [Modes], [ModesSpec] and
      [ModesTheorems] for ctr.c, ofb.c and cfb.c; [Cbc], [CbcSpec] and
      [CbcTheorems] for cbc.c. The block cipher is a parameter, as in the code.
    - Poly1305 (poly1305/poly1305.c): [Poly1305], [Poly1305Spec],
      [Poly1305Theorems].
    - Containers: [Stack], [StackSpec] and [StackTheorems] for stack/stack.c;
      [Lhash], [LhashSpec] and [LhashTheorems] for lhash/lhash.c.
    - Byte streams (buf/buf.c, bio): [Buf] is the growable buffer, [Bio] bio.c
      with the heap of BIOs, the dispatch through a table of methods
      ([BioMethods]), reference counts and chains; [BioPair] pair.c and [BioMem]
      bio_mem.c are the two tables. [BioPairSpec] treats the ring buffers,
      [BioPairQueue] the calls, [BioPairNew] the allocation of a pair,
      [BioPairTheorems] the results; [BioMemSpec] and [BioMemTheorems] the same
      for memory BIOs.
    - Digests and what is built on them: [Evp] is the digest layer (digest.c,
      digests.c) over the hash files, with its allocations and error queue in a
      state [evp_world]; [Hmac] is hmac.c, [Kdf] hkdf.c and pbkdf.c. [EvpSpec] and
      [HmacSpec] prove that each table of functions computes its hash,
      [KdfTheorems] the three standards.
    - Ciphers: [Cipher] is cipher.c over a table of functions, the interface
      [CipherMethod] of [CipherSpec]; [CipherModes] (e_null.c, the CBC and ECB
      functions of e_aes.c) and [CipherModesSpec] implement it;
      [CipherTheorems] has the result. [TlsCbc], [TlsCbcSpec] and
      [TlsCbcTheorems] are tls_cbc.c.


    A definition has the name of the C function, macro or struct; a name that
    Rocq or another file uses gets a suffix or its file's prefix.

    * What the theorems show

    - Bytestring: the DER reader accepts exactly the DER encodings, the BER
      reader extends it; flushing a builder refines closing the frames of the
      abstract stack and its overflow error is sticky; what is built is read
      back; integers and object identifiers are accepted exactly in canonical
      form; a SET OF is sorted; BER is converted to DER at every depth, except
      for the nested elements that [cbs_find_ber] overlooks.
    - Base64: one-shot and streamed coding are inverse, however the input is
      cut, and the table-free characters are the alphabet.
    - Hashes: a message fed in any pieces has the digest of the standard.
    - Modes: calls that go on where the last one stopped give the standard's
      mode, and decryption gives the message back, also in place and with
      overlapping buffers.
    - Poly1305: tags are those of RFC 8439, except on the accumulators whose
      last carry is lost, which are characterised and shown to exist.
    - Containers: sequences of calls behave as on a finite map and on a list,
      with no access outside of the memory, whatever the allocator refuses.
    - Byte streams: a BIO pair behaves as two bounded queues, loses no byte and
      leaks no block, and a transfer over it ends; a memory BIO is a byte string.
    - HMAC, HKDF, PBKDF2: the RFCs, with every allocation refused or granted, and
      what is allocated is freed.
    - Ciphers: data fed in any pieces is encrypted as one padded message, and
      decrypted back; a text is refused exactly if its padding is bad. The
      functions of tls_cbc.c, which work with masks on secret lengths, compute
      the padding check, the MAC and the HMAC digest that they stand for.


    * Fuel

    A loop whose recursion is not structural has fuel: the bytes of the input
    for the parsers and ber.c, the blocks of the input for the hashes and
    modes, the elements for the bisection and the chains. The theorems
    state results, not partial correctness, so they show that the fuel given
    by the definitions is enough.
    The loops of the ring buffers have two iterations of fuel, which is what
    the assertions of the code allow; the loops over BIOs have the number of BIOs
    in the heap, those that read and write whole objects a unit per byte.


    * What is not modelled

    - The weak symbols [OPENSSL_memory_alloc], [_free], [_get_size] of mem.c,
      which nothing in the repository defines; error queues, except where a
      part says that it keeps one; threads and locks.
    - Assembly and vector code: the block functions written in assembly, the
      NEON code of poly1305 and the branches that select them. The portable
      code is the model. Alignment of the Poly1305 state is not modelled.
    - In [Cbc] the chaining value is an array of its own, not part of the
      memory that input and output share. Lengths are below 2^64.
    - The block ciphers, big numbers and curves, X.509 and TLS of BoringSSL
      are parts of their own; gRPC, abseil, leveldb and Firestore are C++; upb
      is generated. The application itself is Swift. *)

From Stdlib Require Export ZArith Lia.
From stdpp Require Export prelude list numbers gmap sorting.

#[global] Open Scope Z_scope.

Create HintDb words.
Create Rewrite HintDb blen.

(** * Machine integers

    A [w]-bit unsigned C integer is a [Z] in [0, 2^w); every definition
    that can leave the range wraps explicitly. *)

Definition wrap (w z : Z) : Z := z mod 2 ^ w.

Abbreviation u8 := (wrap 8).
Abbreviation u16 := (wrap 16).
Abbreviation u32 := (wrap 32).
Abbreviation u64 := (wrap 64).

(** [in_word w z]: [z] is the value of a [w]-bit unsigned integer. *)
Definition in_word (w z : Z) : Prop := 0 <= z < 2 ^ w.

Abbreviation is_byte := (in_word 8).
Abbreviation bytes := (Forall is_byte).

#[export] Instance in_word_dec w z : Decision (in_word w z).
Proof. unfold in_word. apply _. Defined.

(** Length of a byte string as a [size_t]. *)
Definition blen {A} (l : list A) : Z := Z.of_nat (length l).

(** * Tactics *)

(** Case on the boolean comparisons of the goal and discharge with [lia]. *)
Ltac zcases :=
  repeat match goal with
  | |- context [?a <? ?b] => destruct (Z.ltb_spec a b)
  | |- context [?a <=? ?b] => destruct (Z.leb_spec a b)
  | |- context [?a =? ?b] => destruct (Z.eqb_spec a b)
  end.

(** The same in a hypothesis. *)
Ltac zcases_in H :=
  repeat match type of H with
  | context [?a <? ?b] => destruct (Z.ltb_spec a b)
  | context [?a <=? ?b] => destruct (Z.leb_spec a b)
  | context [?a =? ?b] => destruct (Z.eqb_spec a b)
  end.

(** [zdiv]: linear arithmetic with [/] and [mod] by constants. *)
Ltac zdiv := Z.to_euclidean_division_equations; lia.

(** Powers of two met in the word sizes, as literals. *)
Ltac pow2 :=
  change (2 ^ 0) with 1 in *; change (2 ^ 1) with 2 in *;
  change (2 ^ 2) with 4 in *; change (2 ^ 3) with 8 in *;
  change (2 ^ 4) with 16 in *; change (2 ^ 5) with 32 in *;
  change (2 ^ 6) with 64 in *; change (2 ^ 7) with 128 in *;
  change (2 ^ 8) with 256 in *; change (2 ^ 12) with 4096 in *;
  change (2 ^ 14) with 16384 in *;
  change (2 ^ 16) with 65536 in *; change (2 ^ 18) with 262144 in *;
  change (2 ^ 24) with 16777216 in *;
  change (2 ^ 29) with 536870912 in *;
  change (2 ^ 31) with 2147483648 in *;
  change (2 ^ 32) with 4294967296 in *;
  change (2 ^ 56) with 72057594037927936 in *;
  change (2 ^ 57) with 144115188075855872 in *;
  change (2 ^ 63) with 9223372036854775808 in *;
  change (2 ^ 64) with 18446744073709551616 in *.

(** * Arithmetic of words *)

Lemma wrap_range w z : 0 <= w -> in_word w (wrap w z).
Proof. intros. apply Z.mod_pos_bound, Z.pow_pos_nonneg; lia. Qed.

Lemma wrap_small w z : in_word w z -> wrap w z = z.
Proof. apply Z.mod_small. Qed.

Lemma wrap_wrap w z : 0 <= w -> wrap w (wrap w z) = wrap w z.
Proof. intros. by apply wrap_small, wrap_range. Qed.

Lemma wrap_add_l w a b : 0 <= w -> wrap w (wrap w a + b) = wrap w (a + b).
Proof. intros. apply Z.add_mod_idemp_l, Z.pow_nonzero; lia. Qed.

Lemma wrap_add_r w a b : 0 <= w -> wrap w (a + wrap w b) = wrap w (a + b).
Proof. intros. apply Z.add_mod_idemp_r, Z.pow_nonzero; lia. Qed.

(** Equality modulo [2 ^ w]: sums, differences and products respect it, so an
    inner [wrap] can be rewritten away. *)
Definition eqm (w a b : Z) : Prop := wrap w a = wrap w b.

#[export] Instance eqm_equiv w : Equivalence (eqm w).
Proof. split; unfold eqm; [by intros a | by intros a b | by intros a b c -> ->]. Qed.

#[export] Instance eqm_add w : Proper (eqm w ==> eqm w ==> eqm w) Z.add.
Proof. intros a b H c d K. unfold eqm, wrap in *. by rewrite Zplus_mod, H, K, <-Zplus_mod. Qed.

#[export] Instance eqm_sub w : Proper (eqm w ==> eqm w ==> eqm w) Z.sub.
Proof. intros a b H c d K. unfold eqm, wrap in *. by rewrite Zminus_mod, H, K, <-Zminus_mod. Qed.

#[export] Instance eqm_mul w : Proper (eqm w ==> eqm w ==> eqm w) Z.mul.
Proof. intros a b H c d K. unfold eqm, wrap in *. by rewrite Zmult_mod, H, K, <-Zmult_mod. Qed.

Lemma eqm_wrap w a : eqm w (wrap w a) a.
Proof. apply Zmod_mod. Qed.

(** Sums of wrapped sums: one wrap outside is enough. *)
Ltac wrap_sum :=
  rewrite ?wrap_wrap by lia;
  lazymatch goal with |- wrap ?w ?a = wrap ?w ?b => change (eqm w a b) end;
  rewrite ?eqm_wrap; apply (f_equal (wrap _)); lia.

Lemma in_word_le w w' z : w <= w' -> in_word w z -> in_word w' z.
Proof. unfold in_word; intros. pose proof (Z.pow_le_mono_r 2 w w'). lia. Qed.

Lemma in_word_0 w : 0 <= w -> in_word w 0.
Proof. split; [lia|]. by apply Z.pow_pos_nonneg. Qed.

Lemma testbit_wrap w z i :
  0 <= w -> 0 <= i -> Z.testbit (wrap w z) i = (i <? w) && Z.testbit z i.
Proof.
  intros. unfold wrap. zcases; simpl.
  - by apply Z.mod_pow2_bits_low.
  - apply Z.mod_pow2_bits_high. lia.
Qed.

Lemma testbit_high w z i : in_word w z -> 0 <= w <= i -> Z.testbit z i = false.
Proof.
  intros [??] ?. rewrite <-(Z.mod_small z (2 ^ w)) by lia.
  apply Z.mod_pow2_bits_high. lia.
Qed.

Lemma in_word_testbit w z :
  0 <= w -> 0 <= z -> (forall i, w <= i -> Z.testbit z i = false) -> in_word w z.
Proof.
  intros Hw Hz Hb. assert (z = wrap w z) as ->; [|by apply wrap_range].
  apply Z.bits_inj'. intros i Hi. rewrite testbit_wrap by lia.
  zcases; simpl; [done|]. by apply Hb.
Qed.

Lemma lor_range w a b : 0 <= w -> in_word w a -> in_word w b -> in_word w (Z.lor a b).
Proof.
  intros ? Ha Hb. apply in_word_testbit; [done| |].
  - apply Z.lor_nonneg. unfold in_word in *. lia.
  - intros. by rewrite Z.lor_spec, !(testbit_high w) by (done || lia).
Qed.

Lemma lxor_range w a b : 0 <= w -> in_word w a -> in_word w b -> in_word w (Z.lxor a b).
Proof.
  intros ? Ha Hb. apply in_word_testbit; [done| |].
  - apply Z.lxor_nonneg. unfold in_word in *. lia.
  - intros. by rewrite Z.lxor_spec, !(testbit_high w) by (done || lia).
Qed.

Lemma land_range w a b : 0 <= w -> in_word w a -> 0 <= b -> in_word w (Z.land a b).
Proof.
  intros ? Ha Hb. apply in_word_testbit; [done| |].
  - apply Z.land_nonneg. unfold in_word in *. lia.
  - intros. by rewrite Z.land_spec, (testbit_high w a) by (done || lia).
Qed.

(** Appending low bits: a disjoint [|] is a sum. *)
Lemma lor_shiftl_low n a b : in_word n b -> 0 <= n ->
  Z.lor (Z.shiftl a n) b = a * 2 ^ n + b.
Proof.
  intros Hb Hn. rewrite <-Z.shiftl_mul_pow2 by lia.
  rewrite Z.add_nocarry_lxor; [rewrite <-Z.lxor_lor; [done|]|];
  apply Z.bits_inj'; intros i Hi; rewrite Z.land_spec, Z.shiftl_spec, Z.bits_0 by lia;
  (destruct (decide (i < n)); [rewrite (Z.testbit_neg_r a) by lia; done|];
   rewrite (testbit_high n b) by (done || lia); apply andb_false_r).
Qed.

Lemma land_ones_wrap n a : 0 <= n -> Z.land a (Z.ones n) = wrap n a.
Proof. intros. by apply Z.land_ones. Qed.

#[export] Hint Resolve wrap_range lor_range lxor_range land_range : words.

(** * Byte strings *)

Lemma blen_nonneg {A} (l : list A) : 0 <= blen l.
Proof. unfold blen. lia. Qed.

Lemma blen_app {A} (l k : list A) : blen (l ++ k) = blen l + blen k.
Proof. unfold blen. rewrite length_app. lia. Qed.

Lemma blen_cons {A} (x : A) l : blen (x :: l) = 1 + blen l.
Proof. unfold blen. simpl. lia. Qed.

Lemma blen_nil {A} : blen (@nil A) = 0.
Proof. done. Qed.

Lemma to_nat_blen {A} (l : list A) : Z.to_nat (blen l) = length l.
Proof. unfold blen. lia. Qed.

Lemma blen_take {A} n (l : list A) : 0 <= n <= blen l -> blen (take (Z.to_nat n) l) = n.
Proof. unfold blen. rewrite length_take. lia. Qed.

Lemma blen_drop {A} n (l : list A) : 0 <= n <= blen l -> blen (drop (Z.to_nat n) l) = blen l - n.
Proof. unfold blen. rewrite length_drop. lia. Qed.

Lemma blen_replicate {A} n (x : A) : 0 <= n -> blen (replicate (Z.to_nat n) x) = n.
Proof. intros. unfold blen. rewrite length_replicate. lia. Qed.

Lemma take_blen_app {A} (l k : list A) : take (Z.to_nat (blen l)) (l ++ k) = l.
Proof. rewrite to_nat_blen. by rewrite take_app_length. Qed.

Lemma drop_blen_app {A} (l k : list A) : drop (Z.to_nat (blen l)) (l ++ k) = k.
Proof. rewrite to_nat_blen. by rewrite drop_app_length. Qed.

Lemma blen_inv_nil {A} (l : list A) : blen l = 0 -> l = [].
Proof. destruct l; [done|]. rewrite blen_cons. pose proof (blen_nonneg l). lia. Qed.

#[export] Hint Rewrite @blen_app @blen_cons @blen_nil : blen.

(** A goal about [blen]s, by linear arithmetic. *)
Ltac blia :=
  autorewrite with blen in *;
  repeat match goal with
  | |- context [blen ?l] => pose proof (blen_nonneg l); generalize dependent (blen l); intros
  | H : context [blen ?l] |- _ => pose proof (blen_nonneg l); generalize dependent (blen l); intros
  end; lia.

Lemma bytes_app l k : bytes (l ++ k) <-> bytes l /\ bytes k.
Proof. apply Forall_app. Qed.

Lemma bytes_take n l : bytes l -> bytes (take n l).
Proof. apply Forall_take. Qed.

Lemma bytes_drop n l : bytes l -> bytes (drop n l).
Proof. apply Forall_drop. Qed.

Lemma bytes_replicate n b : is_byte b -> bytes (replicate n b).
Proof. intros. by apply Forall_replicate. Qed.

Lemma u8_byte z : is_byte (u8 z).
Proof. apply wrap_range. lia. Qed.

#[export] Hint Resolve u8_byte bytes_take bytes_drop bytes_replicate : words.

(** A statement about all bytes, by evaluation over the 256 of them. *)
Definition all_bytes : list Z := Eval vm_compute in seqZ 0 256.

Lemma forall_bytes (P : Z -> bool) :
  forallb P all_bytes = true -> forall b, is_byte b -> P b = true.
Proof.
  intros H b [Hb Hb']. rewrite forallb_forall in H. apply H.
  assert (all_bytes = seqZ 0 256) as -> by (vm_compute; done).
  apply list_elem_of_In, elem_of_seqZ. change (2 ^ 8) with 256 in Hb'. lia.
Qed.

(** [write_at off bs buf]: memory [buf] with the bytes [bs] stored at offset
    [off] ([memcpy] into the middle of a buffer). *)
Definition write_at (off : Z) (bs buf : list Z) : list Z :=
  take (Z.to_nat off) buf ++ bs ++ drop (Z.to_nat (off + blen bs)) buf.

Lemma blen_write_at off bs buf :
  0 <= off -> off + blen bs <= blen buf -> blen (write_at off bs buf) = blen buf.
Proof.
  intros. unfold write_at. rewrite !blen_app, blen_take, blen_drop; blia.
Qed.

Lemma write_at_app pre mid bs post :
  blen mid = blen bs -> write_at (blen pre) bs (pre ++ mid ++ post) = pre ++ bs ++ post.
Proof.
  intros Hm. unfold write_at. rewrite take_blen_app. do 2 f_equal.
  rewrite <-Hm, <-blen_app, app_assoc. by rewrite drop_blen_app.
Qed.

(** * Big- and little-endian integers *)

Definition be_val (l : list Z) : Z := fold_left (fun a b => a * 256 + b) l 0.

Fixpoint be_bytes (n : nat) (v : Z) : list Z :=
  match n with
  | O => []
  | S n => be_bytes n (v / 256) ++ [v mod 256]
  end.

Lemma fold_be_val l a :
  fold_left (fun a b => a * 256 + b) l a = a * 256 ^ blen l + be_val l.
Proof.
  unfold be_val. revert a. induction l as [|b l IH]; intros a; simpl.
  - rewrite blen_nil. lia.
  - rewrite IH, (IH (0 * 256 + b)), blen_cons, Z.pow_add_r by blia. lia.
Qed.

Lemma be_val_app l k : be_val (l ++ k) = be_val l * 256 ^ blen k + be_val k.
Proof. unfold be_val at 1. rewrite fold_left_app. apply fold_be_val. Qed.

Lemma be_val_cons b l : be_val (b :: l) = b * 256 ^ blen l + be_val l.
Proof. apply (be_val_app [b] l). Qed.

Lemma be_val_snoc l b : be_val (l ++ [b]) = be_val l * 256 + b.
Proof. rewrite be_val_app. reflexivity. Qed.

Lemma be_val_bound l : bytes l -> 0 <= be_val l < 256 ^ blen l.
Proof.
  induction l as [|b l IH]; intros Hl; [done|].
  apply Forall_cons in Hl as [[??] ?]. pow2.
  rewrite be_val_cons, blen_cons, Z.pow_add_r by blia. specialize (IH ltac:(done)). nia.
Qed.

Lemma length_be_bytes n v : length (be_bytes n v) = n.
Proof. revert v. induction n; intros; simpl; [done|]. rewrite length_app, IHn. simpl. lia. Qed.

Lemma blen_be_bytes n v : blen (be_bytes n v) = Z.of_nat n.
Proof. unfold blen. by rewrite length_be_bytes. Qed.

Lemma bytes_be_bytes n v : bytes (be_bytes n v).
Proof.
  revert v. induction n; intros; simpl; [done|]. apply bytes_app. split; [done|].
  constructor; [|done]. apply u8_byte.
Qed.

Lemma be_val_be_bytes n v : be_val (be_bytes n v) = v mod 256 ^ Z.of_nat n.
Proof.
  revert v. induction n as [|n IH]; intros v; simpl be_bytes.
  - rewrite Z.mod_1_r. done.
  - rewrite be_val_snoc, IH, Nat2Z.inj_succ, Z.pow_succ_r by lia.
    rewrite Z.rem_mul_r by (try apply Z.pow_nonzero; lia). lia.
Qed.

Lemma be_bytes_be_val l : bytes l -> be_bytes (length l) (be_val l) = l.
Proof.
  induction l as [|b l IH] using rev_ind; intros Hl; [done|].
  apply bytes_app in Hl as [Hl Hb]. apply Forall_cons in Hb as [[? Hb] _].
  rewrite length_app, Nat.add_comm. simpl. rewrite be_val_snoc. pow2.
  replace ((be_val l * 256 + b) / 256) with (be_val l) by zdiv.
  replace ((be_val l * 256 + b) mod 256) with b by zdiv.
  by rewrite IH.
Qed.

Lemma be_val_inj l k : bytes l -> bytes k -> length l = length k ->
  be_val l = be_val k -> l = k.
Proof. intros ? ? Hn Hv. rewrite <-(be_bytes_be_val l), <-(be_bytes_be_val k) by done. congruence. Qed.

(** Two fields side by side. *)
Lemma be_bytes_split n m hi lo :
  0 <= lo < 256 ^ Z.of_nat m -> be_bytes (n + m) (hi * 256 ^ Z.of_nat m + lo) = be_bytes n hi ++ be_bytes m lo.
Proof.
  intros Hlo. assert (0 < 256 ^ Z.of_nat n) by (apply Z.pow_pos_nonneg; lia).
  assert (0 < 256 ^ Z.of_nat m) by (apply Z.pow_pos_nonneg; lia). apply be_val_inj.
  - apply bytes_be_bytes.
  - apply bytes_app. auto using bytes_be_bytes.
  - by rewrite length_app, !length_be_bytes.
  - rewrite be_val_app, !be_val_be_bytes, blen_be_bytes, Nat2Z.inj_add, Z.pow_add_r by lia.
    set (A := 256 ^ Z.of_nat n) in *. set (B := 256 ^ Z.of_nat m) in *.
    rewrite (Z.mul_comm A), Z.rem_mul_r by lia.
    assert ((hi * B + lo) mod B = lo) as ->
      by (rewrite Z.add_comm, Z.mod_add by lia; by apply Z.mod_small).
    assert ((hi * B + lo) / B = hi) as ->
      by (rewrite Z.div_add_l, Z.div_small by lia; lia).
    rewrite (Z.mod_small lo) by lia. lia.
Qed.

Lemma be_bytes_mod n v : be_bytes n (v mod 256 ^ Z.of_nat n) = be_bytes n v.
Proof.
  apply be_val_inj; [apply bytes_be_bytes..|by rewrite !length_be_bytes|].
  rewrite !be_val_be_bytes. apply Z.mod_mod. apply Z.pow_nonzero; lia.
Qed.

(** Little-endian values are big-endian values of the reversed string. *)
Definition le_val (l : list Z) : Z := be_val (rev l).
Definition le_bytes (n : nat) (v : Z) : list Z := rev (be_bytes n v).

(** * The error-state monad

    A C function that returns 1 on success and 0 on error, and updates an
    object through a pointer, is a function from the object's state to an
    optional result and the new state. The state is kept on failure: what a
    failing call has already consumed or written is visible to its caller. *)

Definition M (S A : Type) : Type := S -> option A * S.

#[export] Instance M_ret S : MRet (M S) := fun A a s => (Some a, s).
#[export] Instance M_bind S : MBind (M S) := fun A B k m s =>
  match m s with
  | (Some a, s') => k a s'
  | (None, s') => (None, s')
  end.

Definition mfail {S A} : M S A := fun s => (None, s).
Definition massert {S} (b : bool) : M S unit := if b then mret tt else mfail.
Definition mget {S} : M S S := fun s => (Some s, s).
Definition mput {S} (s : S) : M S unit := fun _ => (Some tt, s).
Definition mmodify {S} (f : S -> S) : M S unit := fun s => (Some tt, f s).

(** Run a computation on a local copy of an object; the caller's state is not
    touched. *)
Definition on_copy {S T A} (t : T) (m : M T A) : M S (A * T) := fun s =>
  match m t with
  | (Some a, t') => (Some (a, t'), s)
  | (None, _) => (None, s)
  end.

Section Monad.
Context {S : Type}.

Lemma bind_ok {A B} (m : M S A) (k : A -> M S B) s a s' :
  m s = (Some a, s') -> (m ≫= k) s = k a s'.
Proof. intros H. unfold mbind, M_bind. by rewrite H. Qed.

Lemma bind_err {A B} (m : M S A) (k : A -> M S B) s s' :
  m s = (None, s') -> (m ≫= k) s = (None, s').
Proof. intros H. unfold mbind, M_bind. by rewrite H. Qed.

Lemma bind_Some {A B} (m : M S A) (k : A -> M S B) s r s' :
  (m ≫= k) s = (Some r, s') <-> exists a s1, m s = (Some a, s1) /\ k a s1 = (Some r, s').
Proof.
  unfold mbind, M_bind. split.
  - destruct (m s) as [[a|] s1]; [eauto|done].
  - intros (a & s1 & -> & Hk). done.
Qed.

Lemma bind_ret {A B} (a : A) (k : A -> M S B) : (mret a ≫= k) = k a.
Proof. done. Qed.

Lemma ret_Some {A} (a b : A) (s s' : S) :
  mret (M:=M S) a s = (Some b, s') <-> a = b /\ s = s'.
Proof. unfold mret, M_ret. split; [intros [=]; done|intros [-> ->]; done]. Qed.

Lemma massert_Some b (s s' : S) u :
  massert b s = (Some u, s') <-> b = true /\ s' = s.
Proof. destruct b, u; unfold massert, mfail; [rewrite ret_Some|]; naive_solver. Qed.

Lemma massert_bind {B} b (k : unit -> M S B) s :
  (massert b ≫= k) s = if b then k tt s else (None, s).
Proof. by destruct b. Qed.

Lemma mfail_Some {A} (a : A) (s s' : S) : mfail s = (Some a, s') <-> False.
Proof. unfold mfail. naive_solver. Qed.

Lemma on_copy_Some {T A} (t : T) (m : M T A) (s s' : S) a t' :
  on_copy t m s = (Some (a, t'), s') <-> m t = (Some a, t') /\ s' = s.
Proof. unfold on_copy. destruct (m t) as [[?|] ?]; naive_solver. Qed.

Lemma mget_Some (a s s' : S) : mget s = (Some a, s') <-> a = s /\ s' = s.
Proof. unfold mget. naive_solver. Qed.

Lemma on_copy_bind {T A B} (t : T) (m : M T A) (k : A * T -> M S B) s :
  (on_copy t m ≫= k) s =
  match m t with (Some a, t') => k (a, t') s | (None, _) => (None, s) end.
Proof. unfold mbind, M_bind, on_copy. by destruct (m t) as [[?|] ?]. Qed.
End Monad.

(** Invert the successful runs of the context, step by step. *)
Ltac minv_step :=
  match goal with
  | H : (_ ≫= _) _ = (Some _, _) |- _ =>
      let a := fresh "a" in let s := fresh "s" in let E := fresh "E" in
      apply bind_Some in H as (a & s & E & H)
  | H : mret _ _ = (Some _, _) |- _ => apply ret_Some in H as [? ?]
  | H : massert _ _ = (Some _, _) |- _ => apply massert_Some in H as [? ?]
  | H : mfail _ = (Some _, _) |- _ => by apply mfail_Some in H
  | H : on_copy _ _ _ = (Some (_, _), _) |- _ => apply on_copy_Some in H as [H ?]
  | H : mget _ = (Some _, _) |- _ => apply mget_Some in H as [? ?]
  | p : _ * _ |- _ => destruct p
  | u : unit |- _ => destruct u
  | H : ?x = ?y |- _ => is_var x; subst x
  | H : ?x = ?y |- _ => is_var y; subst y
  end; cbn beta iota zeta in *.
Ltac minvs := repeat minv_step.

(** Replay a run whose steps are known from the hypotheses. *)
Ltac mrun_step :=
  match goal with
  | |- context [(massert ?b ≫= ?k) ?s] => rewrite (massert_bind b k s)
  | |- context [(on_copy ?t ?m ≫= ?k) ?s] => rewrite (on_copy_bind t m k s)
  | H : ?m ?s = (Some _, _) |- context [(?m ≫= ?k) ?s] => rewrite (bind_ok m k s _ _ H)
  | H : ?m ?s = (Some _, _) |- context [?m ?s] => rewrite H
  | H : ?b = true |- context [if ?b then _ else _] => rewrite H
  | H : ?b = false |- context [if ?b then _ else _] => rewrite H
  | H : ?b = false |- context [negb (?b && ?c)] => rewrite H
  end; cbn beta iota zeta; cbn [negb andb].
Ltac mrun := repeat mrun_step.

(** * Bits of concrete-width words *)

Lemma forall_below n (P : Z -> Prop) :
  Forall P (seqZ 0 n) -> forall i, 0 <= i < n -> P i.
Proof. rewrite Forall_forall. intros H i Hi. apply H, elem_of_seqZ. lia. Qed.

Lemma word_eq_bits w a b :
  0 <= w -> in_word w a -> in_word w b ->
  Forall (fun i => Z.testbit a i = Z.testbit b i) (seqZ 0 w) -> a = b.
Proof.
  intros Hw Ha Hb H. apply Z.bits_inj'. intros i Hi.
  destruct (decide (i < w)).
  - revert i Hi l. intros. by apply (forall_below w _ H).
  - by rewrite !(testbit_high w) by (done || lia).
Qed.

(** Unfold the bits of an expression at a literal index. *)
Ltac bit_step :=
  first
  [ rewrite Z.lor_spec | rewrite Z.lxor_spec | rewrite Z.land_spec
  | rewrite testbit_wrap by lia | rewrite Z.shiftr_spec by lia
  | rewrite Z.shiftl_spec by lia | rewrite Z.lnot_spec by lia ].

(** Evaluate the literal indices, comparisons and constants. *)
Ltac bit_lits :=
  repeat match goal with
  | |- context [Z.testbit ?x ?i] =>
      let i' := eval vm_compute in i in
      progress change (Z.testbit x i) with (Z.testbit x i')
  | |- context [?a <? ?b] =>
      let v := eval vm_compute in (a <? b) in
      lazymatch v with true => idtac | false => idtac end;
      change (a <? b) with v
  | |- context [Z.testbit (Zpos ?x) ?i] =>
      let v := eval vm_compute in (Z.testbit (Zpos x) i) in
      change (Z.testbit (Zpos x) i) with v
  end; cbn iota; cbn [andb].

Ltac bits_at :=
  bit_lits; repeat (bit_step; bit_lits);
  rewrite ?(Z.testbit_neg_r _ (Z.neg _)) by lia;
  rewrite ?andb_false_r, ?andb_true_r, ?orb_false_r, ?orb_false_l, ?xorb_false_r, ?xorb_false_l.

(** Bits above the width of a byte are zero. *)
Ltac byte_bits :=
  repeat match goal with
  | |- context [Z.testbit ?x ?i] => rewrite (testbit_high 8 x i) by (done || lia)
  end;
  rewrite ?andb_false_r, ?orb_false_r, ?orb_false_l, ?xorb_false_r, ?xorb_false_l.

(** Equality of two [w]-bit words, one literal bit at a time; [tac] closes the
    goal of each bit. *)
Ltac word_bits w tac :=
  apply (word_eq_bits w); [lia| | |
    let l := eval vm_compute in (seqZ 0 w) in
    change (seqZ 0 w) with l; repeat (apply Forall_cons_2; [tac|]); apply Forall_nil_2].

(** Two splits of one list: the longer prefix extends the shorter. *)
Lemma app_split {A} (l1 r1 l2 r2 : list A) :
  l1 ++ r1 = l2 ++ r2 -> blen l2 <= blen l1 -> exists k, l1 = l2 ++ k /\ r2 = k ++ r1.
Proof.
  intros H Hle. exists (drop (length l2) l1). unfold blen in Hle.
  assert (take (length l2) l1 = l2) as Ht.
  { rewrite <-(take_app_le l1 r1) by lia. rewrite H. by rewrite take_app_length. }
  split; [rewrite <-Ht at 1; by rewrite take_drop|].
  apply (app_inv_head l2). rewrite <-H. rewrite <-(take_drop (length l2) l1) at 1.
  by rewrite Ht, <-app_assoc.
Qed.

Lemma blen_singleton {A} (x : A) : blen [x] = 1.
Proof. done. Qed.
