(* ===== verification/CryptoInternal.v ===== *)
(** crypto/internal.h and crypto/mem.c: constant-time word arithmetic, byte
    swaps, loads and stores, rotations, and the memory helpers. The model is
    the 64-bit little-endian target: [crypto_word_t] and [size_t] have 64
    bits. *)

From S2P Require Import Prelude.

(** * Constant-time masks (internal.h) *)

Definition CONSTTIME_TRUE_W : Z := 2 ^ 64 - 1.
Definition CONSTTIME_FALSE_W : Z := 0.
Definition CONSTTIME_TRUE_8 : Z := 0xff.
Definition CONSTTIME_FALSE_8 : Z := 0.

(** An optimisation barrier: the identity on values. *)
Definition value_barrier_w (a : Z) : Z := a.

Definition constant_time_msb_w (a : Z) : Z := u64 (0 - Z.shiftr a 63).

Definition constant_time_lt_w (a b : Z) : Z :=
  constant_time_msb_w
    (Z.lxor a (Z.lor (Z.lxor a b) (Z.lxor (u64 (a - b)) a))).

Definition constant_time_lt_8 (a b : Z) : Z := u8 (constant_time_lt_w a b).

Definition constant_time_ge_w (a b : Z) : Z := u64 (Z.lnot (constant_time_lt_w a b)).

Definition constant_time_ge_8 (a b : Z) : Z := u8 (constant_time_ge_w a b).

Definition constant_time_is_zero_w (a : Z) : Z :=
  constant_time_msb_w (Z.land (u64 (Z.lnot a)) (u64 (a - 1))).

Definition constant_time_is_zero_8 (a : Z) : Z := u8 (constant_time_is_zero_w a).

Definition constant_time_eq_w (a b : Z) : Z := constant_time_is_zero_w (Z.lxor a b).

Definition constant_time_eq_8 (a b : Z) : Z := u8 (constant_time_eq_w a b).

(** The [int] arguments are converted to [crypto_word_t] modulo 2^64. *)
Definition constant_time_eq_int (a b : Z) : Z := constant_time_eq_w (u64 a) (u64 b).

Definition constant_time_eq_int_8 (a b : Z) : Z := constant_time_eq_8 (u64 a) (u64 b).

Definition constant_time_select_w (mask a b : Z) : Z :=
  Z.lor (Z.land (value_barrier_w mask) a)
        (Z.land (value_barrier_w (u64 (Z.lnot mask))) b).

Definition constant_time_select_8 (mask a b : Z) : Z :=
  u8 (constant_time_select_w mask a b).

(** Conversion of a 64-bit word to [int]. *)
Definition s32 (z : Z) : Z := wrap 32 (z + 2 ^ 31) - 2 ^ 31.

(** Two's complement reading of a 64-bit word. *)
Definition s64 (z : Z) : Z := wrap 64 (z + 2 ^ 63) - 2 ^ 63.

Definition constant_time_select_int (mask a b : Z) : Z :=
  s32 (constant_time_select_w mask (u64 a) (u64 b)).

(** * Endianness conversions (internal.h, the portable branch) *)

Definition CRYPTO_bswap2 (x : Z) : Z :=
  u16 (Z.lor (Z.shiftr x 8) (Z.shiftl x 8)).

Definition CRYPTO_bswap4 (x : Z) : Z :=
  let x := Z.lor (Z.shiftr x 16) (u32 (Z.shiftl x 16)) in
  Z.lor (Z.shiftr (Z.land x 0xff00ff00) 8) (u32 (Z.shiftl (Z.land x 0x00ff00ff) 8)).

Definition CRYPTO_bswap8 (x : Z) : Z :=
  Z.lor (CRYPTO_bswap4 (u32 (Z.shiftr x 32)))
        (u64 (Z.shiftl (CRYPTO_bswap4 (u32 x)) 32)).

(** * Loads and stores (internal.h), on a little-endian machine *)

Definition CRYPTO_load_u32_le (i : list Z) : Z := le_val (take 4 i).
Definition CRYPTO_store_u32_le (v : Z) : list Z := le_bytes 4 v.
Definition CRYPTO_load_u32_be (i : list Z) : Z := CRYPTO_bswap4 (le_val (take 4 i)).
Definition CRYPTO_store_u32_be (v : Z) : list Z := le_bytes 4 (CRYPTO_bswap4 v).
Definition CRYPTO_load_word_le (i : list Z) : Z := le_val (take 8 i).
Definition CRYPTO_store_word_le (v : Z) : list Z := le_bytes 8 v.
Definition CRYPTO_load_u64_be (i : list Z) : Z := CRYPTO_bswap8 (le_val (take 8 i)).
Definition CRYPTO_store_u64_be (v : Z) : list Z := le_bytes 8 (CRYPTO_bswap8 v).

(** * Rotations (internal.h) *)

Definition CRYPTO_rotl_u32 (value shift : Z) : Z :=
  Z.lor (u32 (Z.shiftl value shift)) (Z.shiftr value (Z.land (- shift) 31)).
Definition CRYPTO_rotr_u32 (value shift : Z) : Z :=
  Z.lor (Z.shiftr value shift) (u32 (Z.shiftl value (Z.land (- shift) 31))).
Definition CRYPTO_rotl_u64 (value shift : Z) : Z :=
  Z.lor (u64 (Z.shiftl value shift)) (Z.shiftr value (Z.land (- shift) 63)).
Definition CRYPTO_rotr_u64 (value shift : Z) : Z :=
  Z.lor (Z.shiftr value shift) (u64 (Z.shiftl value (Z.land (- shift) 63))).

(** * Comparisons of memory *)

(** The loop of [CRYPTO_memcmp], on two buffers of the same length. *)
Definition CRYPTO_memcmp (a b : list Z) : Z :=
  fold_left (fun x ab => Z.lor x (Z.lxor ab.1 ab.2)) (zip a b) 0.

(** The C library's [memcmp]: the difference of the first bytes that differ. *)
Fixpoint memcmp (a b : list Z) : Z :=
  match a, b with
  | x :: a, y :: b => if x =? y then memcmp a b else x - y
  | _, _ => 0
  end.

Definition OPENSSL_memcmp (a b : list Z) (n : Z) : Z :=
  if n =? 0 then 0 else memcmp (take (Z.to_nat n) a) (take (Z.to_nat n) b).

(** [memchr]: the index of the first [c]; [None] is the NULL result. *)
Fixpoint memchr (s : list Z) (c : Z) : option nat :=
  match s with
  | [] => None
  | x :: s => if x =? c then Some O else S <$> memchr s c
  end.

Definition OPENSSL_memchr (s : list Z) (c n : Z) : option nat :=
  if n =? 0 then None else memchr (take (Z.to_nat n) s) c.

(** * Allocation (mem.c)

    [malloc n] is the C library's allocator: [None] for NULL, otherwise the
    uninitialised contents of a fresh block of [n] bytes. *)

Class Malloc := malloc : Z -> option (list Z).

(** A block has the size that was asked for; contents are bytes. *)
Class MallocLaws (m : Malloc) : Prop := {
  malloc_len : forall n b, malloc n = Some b -> blen b = n;
  malloc_bytes : forall n b, malloc n = Some b -> bytes b
}.

Definition OPENSSL_MALLOC_PREFIX : Z := 8.

Section Alloc.
Context {m : Malloc}.

Definition OPENSSL_malloc (size : Z) : option (list Z) :=
  if u64 (size + OPENSSL_MALLOC_PREFIX) <? size then None
  else drop (Z.to_nat OPENSSL_MALLOC_PREFIX) <$>
         malloc (u64 (size + OPENSSL_MALLOC_PREFIX)).

(** [orig] is NULL or a block with its contents; the block's stored size is
    its length. *)
Definition OPENSSL_realloc (orig : option (list Z)) (new_size : Z) : option (list Z) :=
  match orig with
  | None => OPENSSL_malloc new_size
  | Some old =>
      ret ← OPENSSL_malloc new_size;
      let to_copy := if blen old <? new_size then blen old else new_size in
      Some (write_at 0 (take (Z.to_nat to_copy) old) ret)
  end.

Definition OPENSSL_memdup (data : list Z) : option (list Z) :=
  if blen data =? 0 then None
  else ret ← OPENSSL_malloc (blen data); Some (write_at 0 data ret).
End Alloc.

(** Index of the first NUL among the first [len] characters, or [len]. *)
Fixpoint OPENSSL_strnlen (s : list Z) : Z :=
  match s with
  | [] => 0
  | c :: s => if c =? 0 then 0 else 1 + OPENSSL_strnlen s
  end.

Definition OPENSSL_strndup `{Malloc} (str : list Z) : option (list Z) :=
  let size := OPENSSL_strnlen str in
  let alloc_size := u64 (size + 1) in
  if alloc_size <? size then None
  else
    ret ← OPENSSL_malloc alloc_size;
    Some (write_at size [0] (write_at 0 (take (Z.to_nat size) str) ret)).

(** FNV-1a. *)
Definition OPENSSL_hash32 (s : list Z) : Z :=
  fold_left (fun h c => u32 (Z.lxor h c * 16777619)) s 2166136261.

(** * Constant-time masks: correctness *)

(** The mask a C boolean turns into. *)
Definition mask_w (b : bool) : Z := if b then CONSTTIME_TRUE_W else CONSTTIME_FALSE_W.
Definition mask_8 (b : bool) : Z := if b then CONSTTIME_TRUE_8 else CONSTTIME_FALSE_8.

Lemma mask_w_range b : in_word 64 (mask_w b).
Proof. by destruct b. Qed.

Lemma u8_mask_w b : u8 (mask_w b) = mask_8 b.
Proof. by destruct b. Qed.

Lemma shiftr_msb a : in_word 64 a -> Z.shiftr a 63 = Z.b2z (Z.testbit a 63).
Proof.
  intros Ha. rewrite Z.shiftr_div_pow2 by lia. unfold in_word in Ha.
  rewrite Z.testbit_eqb by lia. pow2. zcases; simpl; zdiv.
Qed.

Lemma constant_time_msb_w_spec a :
  in_word 64 a -> constant_time_msb_w a = mask_w (Z.testbit a 63).
Proof.
  intros Ha. unfold constant_time_msb_w. rewrite shiftr_msb by done.
  by destruct (Z.testbit a 63).
Qed.

(** The top bit of a word is its comparison with 2^63. *)
Lemma testbit_63 a : in_word 64 a -> Z.testbit a 63 = (2 ^ 63 <=? a).
Proof.
  intros Ha. rewrite Z.testbit_eqb by lia. unfold in_word in Ha. pow2.
  zcases; zdiv.
Qed.

Lemma constant_time_lt_w_spec a b :
  in_word 64 a -> in_word 64 b -> constant_time_lt_w a b = mask_w (a <? b).
Proof.
  intros Ha Hb. unfold constant_time_lt_w.
  assert (in_word 64 (u64 (a - b))) as Hd by auto with words lia.
  rewrite constant_time_msb_w_spec by (repeat apply lxor_range || apply lor_range; done || lia).
  f_equal. rewrite !Z.lxor_spec, !Z.lor_spec, !Z.lxor_spec, !testbit_63 by done.
  unfold wrap, in_word in *. pow2. zcases; simpl; zdiv.
Qed.

Lemma constant_time_ge_w_spec a b :
  in_word 64 a -> in_word 64 b -> constant_time_ge_w a b = mask_w (b <=? a).
Proof.
  intros. unfold constant_time_ge_w. rewrite constant_time_lt_w_spec by done.
  zcases; try lia; done.
Qed.

Lemma constant_time_is_zero_w_spec a :
  in_word 64 a -> constant_time_is_zero_w a = mask_w (a =? 0).
Proof.
  intros Ha. unfold constant_time_is_zero_w.
  assert (in_word 64 (u64 (Z.lnot a))) as H1 by auto with words lia.
  assert (in_word 64 (u64 (a - 1))) as H2 by auto with words lia.
  rewrite constant_time_msb_w_spec by (apply land_range; [lia|done|apply H2]).
  f_equal. rewrite Z.land_spec, !testbit_63 by done.
  unfold Z.lnot, wrap, in_word in *. pow2. zcases; simpl; zdiv.
Qed.

Lemma constant_time_eq_w_spec a b :
  in_word 64 a -> in_word 64 b -> constant_time_eq_w a b = mask_w (a =? b).
Proof.
  intros. unfold constant_time_eq_w.
  rewrite constant_time_is_zero_w_spec by auto with words lia.
  f_equal. destruct (Z.eqb_spec (Z.lxor a b) 0) as [He|He], (Z.eqb_spec a b); try done.
  - by apply Z.lxor_eq in He.
  - subst. by rewrite Z.lxor_nilpotent in He.
Qed.

Lemma constant_time_eq_8_spec a b :
  in_word 64 a -> in_word 64 b -> constant_time_eq_8 a b = mask_8 (a =? b).
Proof. intros. unfold constant_time_eq_8. by rewrite constant_time_eq_w_spec, u8_mask_w. Qed.

Lemma land_all_ones_64 a : in_word 64 a -> Z.land CONSTTIME_TRUE_W a = a.
Proof.
  intros. rewrite Z.land_comm. change CONSTTIME_TRUE_W with (Z.ones 64).
  rewrite land_ones_wrap by lia. by apply wrap_small.
Qed.

Lemma constant_time_select_w_spec c a b :
  in_word 64 a -> in_word 64 b ->
  constant_time_select_w (mask_w c) a b = if c then a else b.
Proof.
  intros. unfold constant_time_select_w, value_barrier_w. destruct c; simpl.
  - change (u64 (Z.lnot _)) with 0. rewrite Z.lor_0_r. by apply land_all_ones_64.
  - change (u64 (Z.lnot _)) with CONSTTIME_TRUE_W. by rewrite Z.lor_0_l, land_all_ones_64.
Qed.

Lemma land_all_ones_8 a : is_byte a -> Z.land 0xff a = a.
Proof.
  intros. rewrite Z.land_comm. change 0xff with (Z.ones 8).
  rewrite land_ones_wrap by lia. by apply wrap_small.
Qed.

(** An 8-bit mask leaves the high bits of [~mask] set; the result is
    truncated to a byte. *)
Lemma constant_time_select_8_spec c a b :
  is_byte a -> is_byte b ->
  constant_time_select_8 (mask_8 c) a b = if c then a else b.
Proof.
  intros Ha Hb. unfold constant_time_select_8, constant_time_select_w, value_barrier_w.
  destruct c; unfold mask_8, CONSTTIME_TRUE_8, CONSTTIME_FALSE_8.
  - change (u64 (Z.lnot 0xff)) with (Z.shiftl (Z.ones 56) 8).
    rewrite land_all_ones_8 by done.
    replace (Z.land _ b) with 0; [rewrite Z.lor_0_r; by apply wrap_small|].
    apply Z.bits_inj'. intros i Hi. rewrite Z.bits_0, Z.land_spec.
    destruct (decide (i < 8)).
    + rewrite Z.shiftl_spec_low by lia. done.
    + rewrite (testbit_high 8 b) by (done || lia). by rewrite andb_false_r.
  - rewrite Z.land_0_l, Z.lor_0_l. change (u64 (Z.lnot 0)) with CONSTTIME_TRUE_W.
    rewrite land_all_ones_64 by (apply (in_word_le 8); [lia|done]). by apply wrap_small.
Qed.

(** * [CRYPTO_memcmp] decides equality *)

Lemma fold_memcmp_zero l x :
  0 <= x -> Forall (fun ab => 0 <= Z.lxor ab.1 ab.2) l ->
  fold_left (fun x ab => Z.lor x (Z.lxor ab.1 ab.2)) l x = 0 <->
  x = 0 /\ Forall (fun ab : Z * Z => ab.1 = ab.2) l.
Proof.
  revert x. induction l as [|[a b] l IH]; intros x Hx Hl; simpl; [naive_solver|].
  apply Forall_cons in Hl as [Hab Hl]. simpl in Hab.
  rewrite IH by (done || by apply Z.lor_nonneg). rewrite Z.lor_eq_0_iff, Z.lxor_eq_0_iff.
  rewrite Forall_cons. simpl. naive_solver.
Qed.

Lemma CRYPTO_memcmp_eq a b :
  bytes a -> bytes b -> length a = length b -> CRYPTO_memcmp a b = 0 <-> a = b.
Proof.
  intros Ha Hb Hlen. unfold CRYPTO_memcmp. rewrite fold_memcmp_zero; [|done|].
  - split; [|intros ->; split; [done|]].
    + intros [_ H]. revert b Hb Hlen H. induction a as [|x a IH]; intros [|y b]; try done.
      simpl. intros. apply Forall_cons in Ha as [??]. decompose_Forall_hyps. f_equal. auto.
    + clear. induction b; simpl; constructor; auto.
  - clear Hlen. revert b Hb. induction Ha as [|x a [??] Ha IH]; intros b Hb; [done|].
    destruct Hb as [|y b [??] Hb]; simpl; [done|]. constructor; [|auto].
    simpl. apply Z.lxor_nonneg. lia.
Qed.

(** * Byte swaps reverse the byte string *)

Lemma in_word_shiftr w z n : 0 <= n -> in_word w z -> in_word w (Z.shiftr z n).
Proof.
  intros ? [??]. rewrite Z.shiftr_div_pow2 by done. split.
  - apply Z.div_pos; [done|]. by apply Z.pow_pos_nonneg.
  - apply Z.le_lt_trans with z; [|done]. apply Z.div_le_upper_bound; [by apply Z.pow_pos_nonneg|].
    pose proof (Z.pow_pos_nonneg 2 n). nia.
Qed.
#[export] Hint Resolve in_word_shiftr : words.

Lemma be_val_word l : bytes l -> in_word (8 * blen l) (be_val l).
Proof. intros. unfold in_word. rewrite Z.pow_mul_r by blia. by apply be_val_bound. Qed.

(** The bits of a byte string read as an integer. *)
Lemma testbit_be_val_snoc l b i : is_byte b -> 0 <= i ->
  Z.testbit (be_val (l ++ [b])) i =
  if i <? 8 then Z.testbit b i else Z.testbit (be_val l) (i - 8).
Proof.
  intros Hb Hi. rewrite be_val_snoc. change 256 with (2 ^ 8).
  rewrite <-lor_shiftl_low by (done || lia). rewrite Z.lor_spec, Z.shiftl_spec by done.
  zcases.
  - by rewrite Z.testbit_neg_r by lia.
  - by rewrite (testbit_high 8 b), orb_false_r by (done || lia).
Qed.

Lemma testbit_be_val_4 a b c d i : bytes [a; b; c; d] -> 0 <= i ->
  Z.testbit (be_val [a; b; c; d]) i =
  if i <? 8 then Z.testbit d i else if i <? 16 then Z.testbit c (i - 8)
  else if i <? 24 then Z.testbit b (i - 16) else Z.testbit a (i - 24).
Proof.
  intros H Hi. decompose_Forall_hyps.
  change [a; b; c; d] with ([a; b; c] ++ [d]). rewrite testbit_be_val_snoc by done.
  destruct (Z.ltb_spec i 8); [done|].
  change [a; b; c] with ([a; b] ++ [c]). rewrite testbit_be_val_snoc by (done || lia).
  replace (i - 8 <? 8) with (i <? 16) by (zcases; lia). destruct (Z.ltb_spec i 16); [done|].
  change [a; b] with ([a] ++ [b]). rewrite testbit_be_val_snoc by (done || lia).
  replace (i - 8 - 8 <? 8) with (i <? 24) by (zcases; lia).
  replace (i - 8 - 8) with (i - 16) by lia. destruct (Z.ltb_spec i 24); [done|].
  change (be_val [a]) with (0 * 256 + a). f_equal; lia.
Qed.

Lemma land_const_range w a c : 0 <= w -> 0 <= a -> in_word w c -> in_word w (Z.land a c).
Proof. intros. rewrite Z.land_comm. by apply land_range. Qed.

Lemma CRYPTO_bswap4_range x : 0 <= x -> in_word 32 (CRYPTO_bswap4 x).
Proof.
  intros. unfold CRYPTO_bswap4. apply lor_range; [lia| |apply wrap_range; lia].
  apply in_word_shiftr; [lia|]. apply land_const_range; [lia| |done].
  apply Z.lor_nonneg. split; [by apply Z.shiftr_nonneg|]. apply wrap_range. lia.
Qed.

Lemma CRYPTO_bswap4_spec a b c d :
  bytes [a; b; c; d] -> CRYPTO_bswap4 (be_val [d; c; b; a]) = be_val [a; b; c; d].
Proof.
  intros H. assert (bytes [d; c; b; a]) as H' by (decompose_Forall_hyps; auto).
  pose proof H as Hb. rewrite !Forall_cons in Hb. destruct_and! Hb.
  word_bits 32 ltac:(unfold CRYPTO_bswap4; bits_at;
    rewrite ?testbit_be_val_4 by (done || lia); bit_lits; byte_bits; done).
  - apply CRYPTO_bswap4_range, be_val_bound. done.
  - by apply (be_val_word [a; b; c; d]).
Qed.

Lemma CRYPTO_bswap2_spec a b :
  bytes [a; b] -> CRYPTO_bswap2 (be_val [b; a]) = be_val [a; b].
Proof.
  intros H. rewrite !Forall_cons in H. destruct H as ([??] & [??] & _).
  change (be_val [b; a]) with ((0 * 256 + b) * 256 + a).
  change (be_val [a; b]) with ((0 * 256 + a) * 256 + b).
  unfold CRYPTO_bswap2. rewrite Z.lor_comm, Z.shiftr_div_pow2 by lia. pow2.
  replace (((0 * 256 + b) * 256 + a) / 256) with b by zdiv.
  rewrite lor_shiftl_low by (done || lia). unfold wrap. pow2. zdiv.
Qed.

(** [CRYPTO_bswap4] on any four-byte string. *)
Lemma CRYPTO_bswap4_rev l :
  bytes l -> length l = 4%nat -> CRYPTO_bswap4 (be_val (rev l)) = be_val l.
Proof.
  intros Hl Hn. destruct l as [|a [|b [|c [|d [|]]]]]; try done.
  by apply CRYPTO_bswap4_spec.
Qed.

Lemma bytes_rev l : bytes (rev l) <-> bytes l.
Proof. rewrite !Forall_forall. setoid_rewrite list_elem_of_In. by setoid_rewrite <-in_rev. Qed.

Lemma CRYPTO_bswap8_rev l :
  bytes l -> length l = 8%nat -> CRYPTO_bswap8 (be_val (rev l)) = be_val l.
Proof.
  intros Hl Hn. rewrite <-(take_drop 4 l) in *.
  assert (length (take 4 l) = 4%nat) as H1 by (rewrite length_take; rewrite length_app in Hn; rewrite length_take, length_drop in Hn; lia).
  assert (length (drop 4 l) = 4%nat) as H2 by (rewrite length_drop; rewrite length_app in Hn; rewrite length_take, length_drop in Hn; lia).
  generalize dependent (take 4 l). generalize dependent (drop 4 l). clear l. intros k Hk l Hl Hn Hl4.
  apply bytes_app in Hl as [Hl Hk'].
  rewrite rev_app_distr. unfold CRYPTO_bswap8.
  assert (be_val (rev k ++ rev l) = be_val (rev k) * 2 ^ 32 + be_val (rev l)) as He.
  { rewrite be_val_app. unfold blen. rewrite length_rev, Hl4. done. }
  assert (0 <= be_val (rev l) < 2 ^ 32) as Hr.
  { pose proof (be_val_bound (rev l) ltac:(by apply bytes_rev)) as Hb.
    unfold blen in Hb. by rewrite length_rev, Hl4 in Hb. }
  assert (0 <= be_val (rev k) < 2 ^ 32) as Hr'.
  { pose proof (be_val_bound (rev k) ltac:(by apply bytes_rev)) as Hb.
    unfold blen in Hb. by rewrite length_rev, Hk in Hb. }
  rewrite He, Z.shiftr_div_pow2 by lia. unfold wrap.
  replace ((be_val (rev k) * 2 ^ 32 + be_val (rev l)) / 2 ^ 32) with (be_val (rev k)) by zdiv.
  replace ((be_val (rev k) * 2 ^ 32 + be_val (rev l)) mod 2 ^ 32) with (be_val (rev l)) by zdiv.
  rewrite (Z.mod_small (be_val (rev k))) by done.
  rewrite !CRYPTO_bswap4_rev by done. rewrite Z.lor_comm, be_val_app.
  assert (in_word 32 (be_val l) /\ in_word 32 (be_val k)) as [Wl Wk].
  { split; [pose proof (be_val_word l) as W|pose proof (be_val_word k) as W];
    unfold blen in W; rewrite ?Hk, ?Hl4 in W; auto. }
  rewrite Z.mod_small, lor_shiftl_low by (done || lia || (rewrite Z.shiftl_mul_pow2 by lia; unfold in_word in *; pow2; lia)).
  unfold blen. by rewrite Hk.
Qed.

(** Big-endian loads and stores are the big-endian codec. *)
Lemma CRYPTO_load_u32_be_spec l :
  bytes l -> length l = 4%nat -> CRYPTO_load_u32_be l = be_val l.
Proof.
  intros. unfold CRYPTO_load_u32_be. rewrite take_ge by lia. by apply CRYPTO_bswap4_rev.
Qed.

Lemma CRYPTO_store_u32_be_spec v : in_word 32 v -> CRYPTO_store_u32_be v = be_bytes 4 v.
Proof.
  intros Hv. unfold CRYPTO_store_u32_be, le_bytes.
  assert (v = be_val (be_bytes 4 v)) as Hv'.
  { rewrite be_val_be_bytes. symmetry. by apply Z.mod_small. }
  pose proof (bytes_be_bytes 4 v) as Hb. pose proof (length_be_bytes 4 v) as Hn.
  set (l := be_bytes 4 v) in *. clearbody l. subst v.
  rewrite <-(rev_involutive l) at 1. rewrite CRYPTO_bswap4_rev; [|by apply bytes_rev|by rewrite length_rev].
  rewrite <-Hn at 1. rewrite <-length_rev, be_bytes_be_val by (by apply bytes_rev). apply rev_involutive.
Qed.

Lemma CRYPTO_store_u64_be_spec v : in_word 64 v -> CRYPTO_store_u64_be v = be_bytes 8 v.
Proof.
  intros Hv. unfold CRYPTO_store_u64_be, le_bytes.
  assert (v = be_val (be_bytes 8 v)) as Hv'.
  { rewrite be_val_be_bytes. symmetry. by apply Z.mod_small. }
  pose proof (bytes_be_bytes 8 v) as Hb. pose proof (length_be_bytes 8 v) as Hn.
  set (l := be_bytes 8 v) in *. clearbody l. subst v.
  rewrite <-(rev_involutive l) at 1. rewrite CRYPTO_bswap8_rev; [|by apply bytes_rev|by rewrite length_rev].
  rewrite <-Hn at 1. rewrite <-length_rev, be_bytes_be_val by (by apply bytes_rev). apply rev_involutive.
Qed.

(** * Allocation that succeeds *)

(** The allocator grants every request below 2^63 bytes. *)
Class MallocTotal (m : Malloc) : Prop := {
  malloc_total_laws :: MallocLaws m;
  malloc_total : forall n, 0 <= n < 2 ^ 63 -> is_Some (malloc n)
}.

(** An allocator that hands out zeroed memory. *)
Definition zero_malloc : Malloc := fun n =>
  if (0 <=? n) && (n <? 2 ^ 63) then Some (replicate (Z.to_nat n) 0) else None.

#[export] Instance zero_malloc_total : MallocTotal zero_malloc.
Proof.
  split; [split|]; unfold malloc, zero_malloc.
  - intros n b. destruct (Z.leb_spec 0 n); [|done]. destruct (_ <? _); [|done].
    intros [= <-]. unfold blen. rewrite length_replicate. lia.
  - intros n b. destruct (_ && _); [|done]. intros [= <-]. by apply bytes_replicate.
  - intros n Hn. rewrite (proj2 (Z.leb_le 0 n)), (proj2 (Z.ltb_lt n _)) by lia. simpl. eauto.
Qed.

(** * Allocations one by one *)

(** The allocator that serves each request, so that any of them may be refused. *)
Class Mallocs := nth_malloc : nat -> Malloc.
Class MallocsLaws (ms : Mallocs) : Prop := nth_malloc_laws :: forall i, MallocLaws (nth_malloc i).

(** Whether request [i] is granted. *)
Definition granted `{Mallocs} (i : nat) (n : Z) : bool := bool_decide (is_Some (@OPENSSL_malloc (nth_malloc i) n)).
Definition any_refused `{Mallocs} : Prop := exists i k, granted i k = false.

Lemma granted_Some `{Mallocs} i n b : @OPENSSL_malloc (nth_malloc i) n = Some b -> granted i n = true.
Proof. intros E. apply bool_decide_eq_true_2. by rewrite E. Qed.

Lemma granted_None `{Mallocs} i n : @OPENSSL_malloc (nth_malloc i) n = None -> granted i n = false.
Proof. intros E. apply bool_decide_eq_false_2. rewrite E. by intros []. Qed.

Definition zero_mallocs : Mallocs := fun _ => zero_malloc.
#[export] Instance zero_mallocs_laws : MallocsLaws zero_mallocs.
Proof. intros i. apply zero_malloc_total. Qed.

Section AllocLemmas.
Context {m : Malloc}.

Lemma OPENSSL_malloc_Some `{!MallocLaws m} n b :
  0 <= n -> OPENSSL_malloc n = Some b -> blen b = n.
Proof.
  unfold OPENSSL_malloc, OPENSSL_MALLOC_PREFIX. intros Hn.
  destruct (Z.ltb_spec (u64 (n + 8)) n) as [|Hle]; [done|].
  destruct (malloc (u64 (n + 8))) as [blk|] eqn:E; [|done]. intros [= <-].
  apply malloc_len in E.
  assert (u64 (n + 8) = n + 8) as Hw.
  { unfold wrap in *. pow2. destruct (Z.lt_ge_cases (n + 8) 18446744073709551616); zdiv. }
  rewrite blen_drop; lia.
Qed.

Lemma OPENSSL_malloc_total `{!MallocTotal m} n :
  0 <= n < 2 ^ 62 -> exists b, OPENSSL_malloc n = Some b /\ blen b = n.
Proof.
  intros Hn. assert (is_Some (OPENSSL_malloc n)) as [b Hb].
  { unfold OPENSSL_malloc, OPENSSL_MALLOC_PREFIX. change (2 ^ 62) with 4611686018427387904 in Hn.
    rewrite wrap_small by (unfold in_word; pow2; lia).
    rewrite (proj2 (Z.ltb_ge _ _)) by lia.
    destruct (malloc_total (n + 8)) as [b ->]; [pow2; lia|]. simpl. eauto. }
  exists b. split; [done|]. apply OPENSSL_malloc_Some in Hb; [done|lia].
Qed.

Lemma OPENSSL_realloc_Some `{!MallocLaws m} old n b :
  0 <= n -> OPENSSL_realloc (Some old) n = Some b ->
  blen b = n /\ forall k, 0 <= k <= blen old -> k <= n -> take (Z.to_nat k) b = take (Z.to_nat k) old.
Proof.
  intros Hn. simpl. destruct (OPENSSL_malloc n) as [blk|] eqn:E; [|done].
  apply OPENSSL_malloc_Some in E; [|done]. simpl. intros [= <-].
  set (c := if blen old <? n then blen old else n).
  assert (0 <= c <= n /\ c <= blen old) as [Hc Hc'].
  { unfold c. pose proof (blen_nonneg old). zcases; lia. }
  assert (blen (take (Z.to_nat c) old) = c) as Ht by (apply blen_take; lia).
  split; [rewrite blen_write_at; lia|]. intros k Hk Hkn.
  assert (k <= c) by (unfold c; zcases; lia).
  unfold write_at. change (take (Z.to_nat 0) blk) with (@nil Z). rewrite app_nil_l.
  rewrite take_app_le by (unfold blen in Ht; lia).
  rewrite take_take. f_equal. lia.
Qed.
End AllocLemmas.
