(* ===== verification/Cbs.v ===== *)
(** crypto/bytestring/cbs.c: the [CBS] reader and its DER/BER header parser.

    A [CBS] is the byte string it still has to read: the pointer [cbs->data]
    together with [cbs->len]. A function that takes a [CBS *] and returns 1 or
    0 is a computation of the error-state monad over the remaining bytes; what
    it has consumed when it fails stays consumed, as in C. Out-parameters are
    results (they are meaningful only after a success); the optional ones that
    the code compares with NULL are always returned. *)

From S2P Require Import Prelude CryptoInternal.

Abbreviation CBS := (list Z).

(** * Tags (include/openssl/bytestring.h) *)

Definition CBS_ASN1_TAG_SHIFT : Z := 24.
Definition CBS_ASN1_CONSTRUCTED : Z := Z.shiftl 0x20 24.
Definition CBS_ASN1_TAG_NUMBER_MASK : Z := Z.shiftl 1 29 - 1.
Definition CBS_ASN1_BOOLEAN : Z := 0x1.
Definition CBS_ASN1_INTEGER : Z := 0x2.
Definition CBS_ASN1_OCTETSTRING : Z := 0x4.

(** * Reading bytes *)

Definition CBS_init (data : list Z) : CBS := data.
Definition CBS_data (cbs : CBS) : list Z := cbs.
Definition CBS_len (cbs : CBS) : Z := blen cbs.

Definition cbs_get (n : Z) : M CBS (list Z) := fun cbs =>
  if blen cbs <? n then (None, cbs)
  else (Some (take (Z.to_nat n) cbs), drop (Z.to_nat n) cbs).

Definition CBS_skip (len : Z) : M CBS unit := _ ← cbs_get len; mret tt.

(** Result, [*out_ptr] and [*out_len] of [CBS_stow]. *)
Definition CBS_stow `{Malloc} (cbs : CBS) : bool * option (list Z) * Z :=
  if blen cbs =? 0 then (true, None, 0)
  else match OPENSSL_memdup cbs with
       | None => (false, None, 0)
       | Some p => (true, Some p, blen cbs)
       end.

Definition CBS_strdup `{Malloc} (cbs : CBS) : option (list Z) := OPENSSL_strndup cbs.

Definition CBS_contains_zero_byte (cbs : CBS) : bool :=
  bool_decide (is_Some (OPENSSL_memchr cbs 0 (blen cbs))).

Definition CBS_mem_equal (cbs data : list Z) : bool :=
  if negb (blen data =? blen cbs) then false
  else CRYPTO_memcmp cbs data =? 0.

Definition cbs_get_u (len : Z) : M CBS Z :=
  data ← cbs_get len;
  mret (fold_left (fun result b => Z.lor (u64 (Z.shiftl result 8)) b) data 0).

Definition CBS_get_u8 : M CBS Z := fun cbs =>
  match cbs_get 1 cbs with
  | (Some v, cbs) => (head v, cbs)
  | (None, cbs) => (None, cbs)
  end.

Definition CBS_get_u16 : M CBS Z := v ← cbs_get_u 2; mret (u16 v).
Definition CBS_get_u16le : M CBS Z := out ← CBS_get_u16; mret (CRYPTO_bswap2 out).
Definition CBS_get_u24 : M CBS Z := v ← cbs_get_u 3; mret (u32 v).
Definition CBS_get_u32 : M CBS Z := v ← cbs_get_u 4; mret (u32 v).
Definition CBS_get_u32le : M CBS Z := out ← CBS_get_u32; mret (CRYPTO_bswap4 out).
Definition CBS_get_u64 : M CBS Z := cbs_get_u 8.
Definition CBS_get_u64le : M CBS Z := out ← cbs_get_u 8; mret (CRYPTO_bswap8 out).

Definition CBS_get_last_u8 : M CBS Z := fun cbs =>
  if blen cbs =? 0 then (None, cbs)
  else (cbs !! (length cbs - 1)%nat, take (length cbs - 1) cbs).

Definition CBS_get_bytes (len : Z) : M CBS CBS := cbs_get len.
Definition CBS_copy_bytes (len : Z) : M CBS (list Z) := cbs_get len.

Definition cbs_get_length_prefixed (len_len : Z) : M CBS CBS :=
  len ← cbs_get_u len_len; CBS_get_bytes len.

Definition CBS_get_u8_length_prefixed : M CBS CBS := cbs_get_length_prefixed 1.
Definition CBS_get_u16_length_prefixed : M CBS CBS := cbs_get_length_prefixed 2.
Definition CBS_get_u24_length_prefixed : M CBS CBS := cbs_get_length_prefixed 3.

Definition CBS_get_until_first (c : Z) : M CBS CBS := fun cbs =>
  match OPENSSL_memchr (CBS_data cbs) c (CBS_len cbs) with
  | None => (None, cbs)
  | Some split => CBS_get_bytes (Z.of_nat split) cbs
  end.

(** * DER and BER headers *)

(** The [do]-[while] loop; [v] is the value read so far. It consumes one byte
    per iteration. *)
Fixpoint parse_base128_loop (v : Z) (cbs : CBS) : option Z * CBS :=
  match cbs with
  | [] => (None, [])
  | b :: cbs =>
      if negb (Z.shiftr v (64 - 7) =? 0) then (None, cbs)
      else if (v =? 0) && (b =? 0x80) then (None, cbs)
      else
        let v := Z.lor (u64 (Z.shiftl v 7)) (Z.land b 0x7f) in
        if negb (Z.land b 0x80 =? 0) then parse_base128_loop v cbs
        else (Some v, cbs)
  end.

Definition parse_base128_integer : M CBS Z := parse_base128_loop 0.

Definition parse_asn1_tag : M CBS Z :=
  tag_byte ← CBS_get_u8;
  let tag := u32 (Z.shiftl (Z.land tag_byte 0xe0) CBS_ASN1_TAG_SHIFT) in
  let tag_number := Z.land tag_byte 0x1f in
  tag_number ←
    (if tag_number =? 0x1f then
       v ← parse_base128_integer;
       _ ← massert (negb ((CBS_ASN1_TAG_NUMBER_MASK <? v) || (v <? 0x1f)));
       mret (u32 v)
     else mret tag_number);
  mret (Z.lor tag tag_number).

(** What [cbs_get_any_asn1_element] stores through its out-parameters. *)
Record asn1_element := AsnElement {
  ae_out : CBS;
  ae_tag : Z;
  ae_header_len : Z;
  ae_ber_found : bool
}.

#[export] Instance asn1_element_eq_dec : EqDecision asn1_element.
Proof. solve_decision. Defined.

Definition cbs_get_any_asn1_element (ber_ok : bool) : M CBS asn1_element :=
  cbs ← mget;
  '(tag, header) ← on_copy cbs parse_asn1_tag;
  '(length_byte, header) ← on_copy header CBS_get_u8;
  let header_len := CBS_len cbs - CBS_len header in
  if Z.land length_byte 0x80 =? 0 then
    (* short form *)
    out ← CBS_get_bytes (length_byte + header_len);
    mret (AsnElement out tag header_len false)
  else
    let num_bytes := Z.land length_byte 0x7f in
    if ber_ok && negb (Z.land tag CBS_ASN1_CONSTRUCTED =? 0) && (num_bytes =? 0) then
      (* indefinite length *)
      out ← CBS_get_bytes header_len;
      mret (AsnElement out tag header_len true)
    else
      _ ← massert (negb ((num_bytes =? 0) || (4 <? num_bytes)));
      '(len64, header) ← on_copy header (cbs_get_u num_bytes);
      _ ← massert (negb ((len64 <? 128) && negb ber_ok));
      _ ← massert (negb ((Z.shiftr len64 ((num_bytes - 1) * 8) =? 0) && negb ber_ok));
      let ber_found := (len64 <? 128) || (Z.shiftr len64 ((num_bytes - 1) * 8) =? 0) in
      let len := len64 in
      _ ← massert (negb (u64 (len + header_len + num_bytes) <? len));
      let len := u64 (len + (header_len + num_bytes)) in
      out ← CBS_get_bytes len;
      mret (AsnElement out tag (header_len + num_bytes) ber_found).

Definition CBS_get_any_asn1_element : M CBS asn1_element := cbs_get_any_asn1_element false.
Definition CBS_get_any_ber_asn1_element : M CBS asn1_element := cbs_get_any_asn1_element true.

(** The contents and the tag of the next element. *)
Definition CBS_get_any_asn1 : M CBS (CBS * Z) :=
  e ← CBS_get_any_asn1_element;
  '(_, out) ← on_copy (ae_out e) (CBS_skip (ae_header_len e));
  mret (out, ae_tag e).

Definition cbs_get_asn1 (tag_value : Z) (skip_header : bool) : M CBS CBS :=
  e ← CBS_get_any_asn1_element;
  _ ← massert (ae_tag e =? tag_value);
  if skip_header then
    '(_, out) ← on_copy (ae_out e) (CBS_skip (ae_header_len e));
    mret out
  else mret (ae_out e).

Definition CBS_get_asn1 (tag_value : Z) : M CBS CBS := cbs_get_asn1 tag_value true.
Definition CBS_get_asn1_element (tag_value : Z) : M CBS CBS := cbs_get_asn1 tag_value false.

Definition CBS_peek_asn1_tag (cbs : CBS) (tag_value : Z) : bool :=
  if CBS_len cbs <? 1 then false
  else match parse_asn1_tag cbs with
       | (Some actual_tag, _) => tag_value =? actual_tag
       | (None, _) => false
       end.

(** * INTEGER, BOOLEAN, BIT STRING *)

(** [Some is_negative] when the body of an INTEGER is valid. *)
Definition CBS_is_valid_asn1_integer (cbs : CBS) : option bool :=
  match CBS_get_u8 cbs with
  | (None, _) => None
  | (Some first_byte, copy) =>
      let is_negative := negb (Z.land first_byte 0x80 =? 0) in
      match CBS_get_u8 copy with
      | (None, _) => Some is_negative
      | (Some second_byte, _) =>
          if ((first_byte =? 0x00) && (Z.land second_byte 0x80 =? 0)) ||
             ((first_byte =? 0xff) && negb (Z.land second_byte 0x80 =? 0))
          then None else Some is_negative
      end
  end.

Definition CBS_is_unsigned_asn1_integer (cbs : CBS) : bool :=
  match CBS_is_valid_asn1_integer cbs with
  | Some is_negative => negb is_negative
  | None => false
  end.

(** The accumulation loop of [CBS_get_asn1_uint64]. *)
Fixpoint asn1_uint64_loop (out : Z) (data : list Z) : option Z :=
  match data with
  | [] => Some out
  | b :: data =>
      if negb (Z.shiftr out 56 =? 0) then None
      else asn1_uint64_loop (Z.lor (u64 (Z.shiftl out 8)) b) data
  end.

Definition lift_option {S A} (o : option A) : M S A := fun s => (o, s).

Definition CBS_get_asn1_uint64 : M CBS Z :=
  body ← CBS_get_asn1 CBS_ASN1_INTEGER;
  _ ← massert (CBS_is_unsigned_asn1_integer body);
  lift_option (asn1_uint64_loop 0 (CBS_data body)).

(** The [union] holds the eight bytes of the result in memory order. *)
Definition CBS_get_asn1_int64 : M CBS Z :=
  body ← CBS_get_asn1 CBS_ASN1_INTEGER;
  is_negative ← lift_option (CBS_is_valid_asn1_integer body);
  _ ← massert (negb (8 <? CBS_len body));
  let u := replicate 8 (if is_negative : bool then 0xff else 0) in
  let u := write_at 0 (rev (CBS_data body)) u in
  mret (s64 (le_val u)).

Definition CBS_get_asn1_bool : M CBS bool :=
  body ← CBS_get_asn1 CBS_ASN1_BOOLEAN;
  _ ← massert (CBS_len body =? 1);
  value ← lift_option (head (CBS_data body));
  _ ← massert (negb (negb (value =? 0) && negb (value =? 0xff)));
  mret (negb (value =? 0)).

(** [None] when the element is absent. *)
Definition CBS_get_optional_asn1 (tag : Z) : M CBS (option CBS) :=
  cbs ← mget;
  if CBS_peek_asn1_tag cbs tag then out ← CBS_get_asn1 tag; mret (Some out)
  else mret None.

Definition CBS_get_optional_asn1_octet_string (tag : Z) : M CBS (CBS * bool) :=
  child ← CBS_get_optional_asn1 tag;
  match child with
  | Some child =>
      '(out, child) ← on_copy child (CBS_get_asn1 CBS_ASN1_OCTETSTRING);
      _ ← massert (CBS_len child =? 0);
      mret (out, true)
  | None => mret (CBS_init [], false)
  end.

Definition CBS_get_optional_asn1_uint64 (tag default_value : Z) : M CBS Z :=
  child ← CBS_get_optional_asn1 tag;
  match child with
  | Some child =>
      '(out, child) ← on_copy child CBS_get_asn1_uint64;
      _ ← massert (CBS_len child =? 0);
      mret out
  | None => mret default_value
  end.

Definition CBS_get_optional_asn1_bool (tag default_value : Z) : M CBS Z :=
  child ← CBS_get_optional_asn1 tag;
  match child with
  | Some child =>
      '(child2, child) ← on_copy child (CBS_get_asn1 CBS_ASN1_BOOLEAN);
      _ ← massert (CBS_len child2 =? 1);
      _ ← massert (CBS_len child =? 0);
      boolean ← lift_option (head (CBS_data child2));
      if boolean =? 0 then mret 0
      else if boolean =? 0xff then mret 1
      else mfail
  | None => mret default_value
  end.

Definition CBS_is_valid_asn1_bitstring (cbs : CBS) : bool :=
  match CBS_get_u8 cbs with
  | (None, _) => false
  | (Some num_unused_bits, input) =>
      if 7 <? num_unused_bits then false
      else if num_unused_bits =? 0 then true
      else match CBS_get_last_u8 input with
           | (None, _) => false
           | (Some l, _) => Z.land l (Z.shiftl 1 num_unused_bits - 1) =? 0
           end
  end.

Definition CBS_asn1_bitstring_has_bit (cbs : CBS) (bit : Z) : bool :=
  if negb (CBS_is_valid_asn1_bitstring cbs) then false
  else
    let byte_num := u32 (Z.shiftr bit 3 + 1) in
    let bit_num := 7 - Z.land bit 7 in
    (byte_num <? CBS_len cbs) &&
    match CBS_data cbs !! Z.to_nat byte_num with
    | Some b => negb (Z.land b (Z.shiftl 1 bit_num) =? 0)
    | None => false
    end.

(** * Reading bytes: characterisations *)

Lemma cbs_get_Some n s d r :
  0 <= n -> cbs_get n s = (Some d, r) <-> s = d ++ r /\ blen d = n.
Proof.
  intros Hn. unfold cbs_get. split.
  - destruct (Z.ltb_spec (blen s) n); [done|]. intros [= <- <-].
    by rewrite take_drop, blen_take by lia.
  - intros [-> <-]. rewrite take_blen_app, drop_blen_app.
    zcases; [|done]. autorewrite with blen in *. pose proof (blen_nonneg r). lia.
Qed.

Lemma cbs_get_app d r : cbs_get (blen d) (d ++ r) = (Some d, r).
Proof. apply cbs_get_Some; [apply blen_nonneg|done]. Qed.

Lemma cbs_get_None n s r : cbs_get n s = (None, r) <-> blen s < n /\ r = s.
Proof. unfold cbs_get. zcases; naive_solver lia. Qed.

Lemma CBS_get_u8_cons b s : CBS_get_u8 (b :: s) = (Some b, s).
Proof. unfold CBS_get_u8. change (b :: s) with ([b] ++ s). by rewrite (cbs_get_app [b]). Qed.

Lemma CBS_get_u8_nil : CBS_get_u8 [] = (None, []).
Proof. reflexivity. Qed.

Lemma CBS_get_u8_Some s b r : CBS_get_u8 s = (Some b, r) <-> s = b :: r.
Proof.
  destruct s as [|c s]; [rewrite CBS_get_u8_nil; naive_solver|].
  rewrite CBS_get_u8_cons. naive_solver.
Qed.

Lemma CBS_skip_app d r : CBS_skip (blen d) (d ++ r) = (Some tt, r).
Proof. unfold CBS_skip. by rewrite (bind_ok _ _ _ _ _ (cbs_get_app d r)). Qed.

(** The accumulation loop of [cbs_get_u] is the big-endian value as long as it
    fits 64 bits. *)
Lemma be_loop_val data acc :
  bytes data -> 0 <= acc -> acc * 256 ^ blen data + be_val data < 2 ^ 64 ->
  fold_left (fun result b => Z.lor (u64 (Z.shiftl result 8)) b) data acc
  = acc * 256 ^ blen data + be_val data.
Proof.
  revert acc. induction data as [|b data IH]; intros acc Hd Ha Hlt; simpl fold_left.
  - rewrite blen_nil. unfold be_val. simpl. lia.
  - apply Forall_cons in Hd as [Hb Hd]. pose proof (be_val_bound data Hd) as Hv.
    rewrite be_val_cons, blen_cons, Z.pow_add_r in * by blia.
    assert (0 < 256 ^ blen data) as Hp by (apply Z.pow_pos_nonneg; blia).
    assert (acc * 256 + b < 2 ^ 64) as Hsmall by (unfold in_word in Hb; nia).
    assert (u64 (Z.shiftl acc 8) = Z.shiftl acc 8) as ->.
    { rewrite Z.shiftl_mul_pow2 by lia. apply wrap_small. unfold in_word in *. lia. }
    rewrite lor_shiftl_low by (done || lia). change (2 ^ 8) with 256 in *.
    rewrite IH; [nia|done|unfold in_word in Hb; nia|nia].
Qed.

Lemma cbs_get_u_Some len s v r :
  0 <= len <= 8 -> bytes s ->
  cbs_get_u len s = (Some v, r) <->
  exists d, s = d ++ r /\ blen d = len /\ v = be_val d.
Proof.
  intros Hlen Hs. unfold cbs_get_u. rewrite bind_Some. setoid_rewrite ret_Some.
  assert (forall d r', s = d ++ r' -> blen d = len ->
    fold_left (fun result b => Z.lor (u64 (Z.shiftl result 8)) b) d 0 = be_val d) as Hl.
  { intros d r' -> Hd. apply bytes_app in Hs as [Hs _]. rewrite be_loop_val; [done|done|done|].
    pose proof (be_val_bound d Hs). rewrite Hd in *.
    pose proof (Z.pow_le_mono_r 256 len 8). change (256 ^ 8) with (2 ^ 64) in *. lia. }
  split.
  - intros (d & s1 & Hg & <- & <-). apply cbs_get_Some in Hg as [-> Hd]; [|lia].
    exists d. split_and!; [done|done|]. by eapply Hl.
  - intros (d & -> & Hd & ->). exists d, r. rewrite cbs_get_Some by lia.
    split_and!; [done|done| |done]. by eapply Hl.
Qed.

Lemma cbs_get_u_be d r : bytes d -> bytes r -> blen d <= 8 ->
  cbs_get_u (blen d) (d ++ r) = (Some (be_val d), r).
Proof.
  intros. apply cbs_get_u_Some; [pose proof (blen_nonneg d); lia|by apply bytes_app|eauto].
Qed.

Lemma cbs_get_u_None len s r :
  0 <= len -> cbs_get_u len s = (None, r) -> blen s < len /\ r = s.
Proof.
  intros. unfold cbs_get_u, mbind, M_bind in H0.
  destruct (cbs_get len s) as [[?|] ?] eqn:E; [done|]. simplify_eq. by apply cbs_get_None.
Qed.

(** * Base-128 integers *)

(** Digit [i] of [v] with its continuation bit, and the digits [n-1 .. 0]. *)
Definition base128_byte (v : Z) (i : nat) : Z :=
  let b := Z.land (Z.shiftr v (7 * Z.of_nat i)) 0x7f in
  match i with O => b | S _ => Z.lor b 0x80 end.

Fixpoint base128_digits (v : Z) (n : nat) : list Z :=
  match n with
  | O => []
  | S i => base128_byte v i :: base128_digits v i
  end.

(** The number of digits: the loop [while (copy > 0)], at least one. *)
Fixpoint base128_count (fuel : nat) (copy : Z) : nat :=
  match fuel with
  | O => 0
  | S fuel => if 0 <? copy then S (base128_count fuel (Z.shiftr copy 7)) else 0
  end.

Definition base128_len (v : Z) : nat :=
  match base128_count 10 v with O => 1 | n => n end.

(** The minimal base-128 encoding of a 64-bit integer. *)
Definition base128 (v : Z) : list Z := base128_digits v (base128_len v).

Lemma land_7f z : Z.land z 0x7f = z mod 128.
Proof. change 0x7f with (Z.ones 7). by rewrite Z.land_ones by lia. Qed.

Lemma base128_byte_eq v i : 
  base128_byte v i = (v / 2 ^ (7 * Z.of_nat i)) mod 128 + match i with O => 0 | S _ => 128 end.
Proof.
  unfold base128_byte. rewrite land_7f, Z.shiftr_div_pow2 by lia.
  destruct i as [|i]; [lia|].
  generalize (v / 2 ^ (7 * Z.of_nat (S i))). intros z.
  assert (in_word 7 (z mod 128)) as Hz by (unfold in_word; pow2; zdiv).
  set (d := z mod 128) in *. clearbody d.
  rewrite Z.lor_comm. change (Z.lor 0x80 d) with (Z.lor (Z.shiftl 1 7) d).
  rewrite lor_shiftl_low by (done || lia). pow2. lia.
Qed.

Lemma base128_byte_byte v i : is_byte (base128_byte v i).
Proof. rewrite base128_byte_eq. unfold in_word. pow2. destruct i; zdiv. Qed.

Lemma bytes_base128_digits v n : bytes (base128_digits v n).
Proof. induction n; simpl; constructor; auto using base128_byte_byte. Qed.

Lemma length_base128_digits v n : length (base128_digits v n) = n.
Proof. induction n; simpl; congruence. Qed.

(** Tests the parser makes on a byte, as comparisons. *)
Lemma byte_cont_bit : forall b, is_byte b -> (Z.land b 0x80 =? 0) = (b <? 128).
Proof.
  assert (forall b, is_byte b -> Bool.eqb (Z.land b 0x80 =? 0) (b <? 128) = true) as H.
  { apply forall_bytes. vm_compute. done. }
  intros b Hb. by apply Bool.eqb_prop, H.
Qed.

Lemma base128_count_spec fuel v :
  0 <= v < 2 ^ (7 * Z.of_nat fuel) ->
  v < 2 ^ (7 * Z.of_nat (base128_count fuel v)) /\
  (forall n, base128_count fuel v = S n -> 2 ^ (7 * Z.of_nat n) <= v).
Proof.
  revert v. induction fuel as [|fuel IH]; intros v Hv; simpl base128_count.
  - split; [apply Hv|naive_solver].
  - destruct (Z.ltb_spec 0 v);
      [|split; [change (7 * Z.of_nat 0) with 0; lia|naive_solver]].
    rewrite Z.shiftr_div_pow2 in * by lia.
    assert (0 <= v / 2 ^ 7 < 2 ^ (7 * Z.of_nat fuel)) as Hd.
    { replace (7 * Z.of_nat (S fuel)) with (7 * Z.of_nat fuel + 7) in Hv by lia.
      rewrite Z.pow_add_r in Hv by lia. split; [apply Z.div_pos; lia|].
      apply Z.div_lt_upper_bound; lia. }
    destruct (IH _ Hd) as [IH1 IH2]. split.
    + replace (7 * Z.of_nat (S _)) with (7 + 7 * Z.of_nat (base128_count fuel (v / 2 ^ 7))) by lia.
      rewrite Z.pow_add_r by lia. pow2. zdiv.
    + intros n [= <-]. destruct (base128_count fuel (v / 2 ^ 7)) as [|n].
      { change (7 * Z.of_nat 0) with 0. pow2. lia. }
      specialize (IH2 n eq_refl).
      replace (7 * Z.of_nat (S n)) with (7 + 7 * Z.of_nat n) by lia.
      rewrite Z.pow_add_r by lia. pow2. zdiv.
Qed.

(** [base128_len v] is the unique minimal number of digits. *)
Definition base128_minimal (v : Z) (n : nat) : Prop :=
  (0 < n)%nat /\ v < 2 ^ (7 * Z.of_nat n) /\ ((1 < n)%nat -> 2 ^ (7 * (Z.of_nat n - 1)) <= v).

Lemma base128_len_minimal v : in_word 64 v -> base128_minimal v (base128_len v).
Proof.
  intros Hv. assert (0 <= v < 2 ^ (7 * Z.of_nat 10)) as Hv'.
  { split; [apply Hv|]. apply Z.lt_trans with (2 ^ 64); [apply Hv|done]. }
  destruct (base128_count_spec 10 v Hv') as [H1 H2]. unfold base128_len, base128_minimal.
  destruct (base128_count 10 v) as [|n].
  - split_and!; [lia| |lia]. change (7 * Z.of_nat 1) with 7. pow2. lia.
  - split_and!; [lia|done|]. intros. specialize (H2 n eq_refl).
    by replace (7 * (Z.of_nat (S n) - 1)) with (7 * Z.of_nat n) by lia.
Qed.

Lemma base128_minimal_unique v n m :
  0 <= v -> base128_minimal v n -> base128_minimal v m -> n = m.
Proof.
  intros Hv (Hn & Hvn & Hn') (Hm & Hvm & Hm').
  assert (forall a b : nat, (0 < a)%nat -> (a < b)%nat -> v < 2 ^ (7 * Z.of_nat a) ->
    ((1 < b)%nat -> 2 ^ (7 * (Z.of_nat b - 1)) <= v) -> False) as Hlt.
  { intros a b ? ? Ha Hb. specialize (Hb ltac:(lia)).
    pose proof (Z.pow_le_mono_r 2 (7 * Z.of_nat a) (7 * (Z.of_nat b - 1)) ltac:(lia) ltac:(lia)). lia. }
  destruct (decide (n = m)); [done|]. exfalso.
  destruct (decide (n < m)%nat); [by eapply (Hlt n m)|eapply (Hlt m n); (done || lia)].
Qed.

(** One step of the parser on a digit of [v]. *)
Lemma parse_base128_step v n s :
  in_word 64 v -> v / 2 ^ (7 * Z.of_nat (S n)) < 2 ^ 57 ->
  (v / 2 ^ (7 * Z.of_nat (S n)) = 0 -> (0 < n)%nat -> v / 2 ^ (7 * Z.of_nat n) <> 0) ->
  parse_base128_loop (v / 2 ^ (7 * Z.of_nat (S n))) (base128_byte v n :: s) =
  match n with
  | O => (Some v, s)
  | S _ => parse_base128_loop (v / 2 ^ (7 * Z.of_nat n)) s
  end.
Proof.
  intros Hv Hacc Hmin. set (acc := v / 2 ^ (7 * Z.of_nat (S n))) in *.
  assert (acc = v / 2 ^ (7 * Z.of_nat n) / 128) as Hd.
  { unfold acc. change 128 with (2 ^ 7). rewrite Z.div_div by (try apply Z.pow_nonzero; lia).
    rewrite <-Z.pow_add_r by lia. do 2 f_equal. lia. }
  assert (0 <= v / 2 ^ (7 * Z.of_nat n)) as Hq by (apply Z.div_pos; [apply Hv|apply Z.pow_pos_nonneg; lia]).
  assert (0 <= acc) as Hacc0 by (rewrite Hd; apply Z.div_pos; lia).
  assert (0 < n \/ n = 0)%nat as [Hn|Hn] by lia; cbn [parse_base128_loop];
  rewrite byte_cont_bit, land_7f, Z.shiftr_div_pow2, base128_byte_eq by (lia || auto using base128_byte_byte);
  change (64 - 7) with 57;
  replace (acc / 2 ^ 57) with 0 by (symmetry; apply Z.div_small; lia); cbn [negb];
  change (0 =? 0) with true; cbn [negb].
  - destruct n as [|n]; [lia|]. set (q := v / 2 ^ (7 * Z.of_nat (S n))) in *.
    assert ((acc =? 0) && (q mod 128 + 128 =? 0x80) = false) as ->.
    { destruct (Z.eqb_spec acc 0) as [Ha|]; [|done]. specialize (Hmin Ha Hn).
      simpl. apply Z.eqb_neq. zdiv. }
    replace (q mod 128 + 128 <? 128) with false by (zcases; [zdiv|done]). cbn [negb].
    f_equal. rewrite wrap_small by (rewrite Z.shiftl_mul_pow2 by lia; unfold in_word; pow2; zdiv).
    rewrite lor_shiftl_low by (unfold in_word; pow2; zdiv || lia). pow2. zdiv.
  - subst n. change (7 * Z.of_nat 0) with 0 in *. rewrite Z.pow_0_r, Z.div_1_r, Z.add_0_r in *.
    assert ((acc =? 0) && (v mod 128 =? 0x80) = false) as ->.
    { apply andb_false_iff. right. apply Z.eqb_neq. zdiv. }
    replace (v mod 128 <? 128) with true by (zcases; [done|zdiv]). cbn [negb].
    do 2 f_equal. rewrite wrap_small by (rewrite Z.shiftl_mul_pow2 by lia; unfold in_word; pow2; zdiv).
    rewrite lor_shiftl_low by (unfold in_word; pow2; zdiv || lia). pow2. zdiv.
Qed.

Lemma base128_acc_small v n : in_word 64 v -> v / 2 ^ (7 * Z.of_nat (S n)) < 2 ^ 57.
Proof.
  intros [??]. apply Z.div_lt_upper_bound; [apply Z.pow_pos_nonneg; lia|].
  pose proof (Z.pow_le_mono_r 2 7 (7 * Z.of_nat (S n)) ltac:(lia) ltac:(lia)). pow2. lia.
Qed.

Lemma parse_base128_digits v n r :
  in_word 64 v ->
  (v / 2 ^ (7 * Z.of_nat (S n)) = 0 -> (0 < n)%nat -> v / 2 ^ (7 * Z.of_nat n) <> 0) ->
  parse_base128_loop (v / 2 ^ (7 * Z.of_nat (S n))) (base128_digits v (S n) ++ r) = (Some v, r).
Proof.
  intros Hv. induction n as [|n IH]; intros Hmin.
  - apply (parse_base128_step v 0 r); auto using base128_acc_small.
  - change (base128_digits v (S (S n)) ++ r) with (base128_byte v (S n) :: (base128_digits v (S n) ++ r)).
    rewrite parse_base128_step by auto using base128_acc_small.
    apply IH. intros Hz ?. exfalso.
    apply Hmin; [|lia|done]. replace (7 * Z.of_nat (S (S n))) with (7 * Z.of_nat (S n) + 7) by lia.
    rewrite Z.pow_add_r, <-Z.div_div by (try apply Z.pow_nonzero; lia). by rewrite Hz.
Qed.

Lemma parse_base128_loop_Some acc s v r :
  bytes s -> 0 <= acc -> parse_base128_loop acc s = (Some v, r) ->
  exists n, s = base128_digits v (S n) ++ r /\ in_word 64 v /\
    v / 2 ^ (7 * Z.of_nat (S n)) = acc /\
    (acc = 0 -> (0 < n)%nat -> v / 2 ^ (7 * Z.of_nat n) <> 0).
Proof.
  revert acc. induction s as [|b s IH]; intros acc Hs Ha H; [done|].
  apply Forall_cons in Hs as [Hb Hs]. cbn [parse_base128_loop] in H.
  rewrite byte_cont_bit, land_7f, Z.shiftr_div_pow2 in H by (done || lia).
  change (64 - 7) with 57 in H.
  destruct (Z.eqb_spec (acc / 2 ^ 57) 0) as [Hacc|]; cbn [negb] in H; [|done].
  assert (acc < 2 ^ 57) as Hacc' by (pow2; zdiv). clear Hacc.
  destruct ((acc =? 0) && (b =? 0x80)) eqn:Hmin; [done|].
  assert (acc = 0 -> b <> 128) as Hmin'.
  { intros -> ->. done. }
  unfold in_word in Hb. pow2.
  assert (Z.lor (u64 (Z.shiftl acc 7)) (b mod 128) = acc * 128 + b mod 128) as Hv1.
  { rewrite wrap_small by (rewrite Z.shiftl_mul_pow2 by lia; unfold in_word; pow2; zdiv).
    rewrite lor_shiftl_low by (unfold in_word; pow2; zdiv || lia). pow2. done. }
  rewrite Hv1 in H. destruct (Z.ltb_spec b 128); cbn [negb] in H.
  - injection H as Hv <-. rewrite (Z.mod_small b) in Hv by lia.
    exists 0%nat. change (7 * Z.of_nat 1) with 7. pow2. split_and!.
    + change (base128_digits v 1 ++ s) with (base128_byte v 0 :: s). f_equal.
      rewrite base128_byte_eq. change (7 * Z.of_nat 0) with 0. pow2. zdiv.
    + unfold in_word. pow2. lia.
    + zdiv.
    + lia.
  - destruct (IH (acc * 128 + b mod 128)) as (n & -> & Hv & Hq & _); [done|zdiv|done|].
    exists (S n). split_and!.
    + change (base128_digits v (S (S n))) with (base128_byte v (S n) :: base128_digits v (S n)).
      cbn [app]. f_equal. rewrite base128_byte_eq, Hq. zdiv.
    + done.
    + replace (7 * Z.of_nat (S (S n))) with (7 * Z.of_nat (S n) + 7) by lia.
      rewrite Z.pow_add_r, <-Z.div_div, Hq by (try apply Z.pow_nonzero; lia). pow2. zdiv.
    + intros Hz _. rewrite Hq. specialize (Hmin' Hz). zdiv.
Qed.

Lemma div_pow_zero v n : 0 <= v -> v / 2 ^ (7 * Z.of_nat n) = 0 <-> v < 2 ^ (7 * Z.of_nat n).
Proof.
  intros. assert (0 < 2 ^ (7 * Z.of_nat n)) by (apply Z.pow_pos_nonneg; lia).
  split; [|intros; by apply Z.div_small]. intros Hz.
  destruct (Z.lt_ge_cases v (2 ^ (7 * Z.of_nat n))); [done|].
  pose proof (Z.div_str_pos v (2 ^ (7 * Z.of_nat n))). lia.
Qed.

(** The digits of a minimal length are accepted, and only those. *)
Lemma parse_base128_integer_Some s v r :
  bytes s ->
  parse_base128_integer s = (Some v, r) <-> in_word 64 v /\ s = base128 v ++ r.
Proof.
  intros Hs. unfold parse_base128_integer. split.
  - intros H. apply parse_base128_loop_Some in H as (n & -> & Hv & Hq & Hmin); [|done|lia].
    split; [done|]. unfold base128. do 2 f_equal.
    apply (base128_minimal_unique v); [apply Hv| |by apply base128_len_minimal].
    split_and!; [lia|by apply div_pow_zero; [apply Hv|]|]. intros.
    specialize (Hmin ltac:(done) ltac:(lia)). rewrite div_pow_zero in Hmin by apply Hv.
    replace (7 * (Z.of_nat (S n) - 1)) with (7 * Z.of_nat n) by lia. lia.
  - intros [Hv ->]. unfold base128.
    destruct (base128_len_minimal v Hv) as (Hn & Hlt & Hle).
    destruct (base128_len v) as [|n]; [lia|].
    assert (v / 2 ^ (7 * Z.of_nat (S n)) = 0) as Hz by (apply div_pow_zero; [apply Hv|done]).
    rewrite <-Hz at 1. apply parse_base128_digits; [done|].
    intros _ ? Hzn. apply div_pow_zero in Hzn; [|apply Hv].
    specialize (Hle ltac:(lia)).
    replace (7 * (Z.of_nat (S n) - 1)) with (7 * Z.of_nat n) in Hle by lia. lia.
Qed.

Lemma bytes_base128 v : bytes (base128 v).
Proof. apply bytes_base128_digits. Qed.

Lemma blen_base128 v : in_word 64 v -> 1 <= blen (base128 v) <= 10.
Proof.
  intros Hv. unfold base128, blen. rewrite length_base128_digits.
  destruct (base128_len_minimal v Hv) as (Hn & _ & Hle).
  assert (base128_len v <= 10)%nat; [|lia].
  unfold base128_len. assert (forall f c, (base128_count f c <= f)%nat) as Hc.
  { induction f; intros c; simpl; [lia|]. destruct (0 <? c); [|lia]. specialize (IHf (Z.shiftr c 7)). lia. }
  specialize (Hc 10%nat v). destruct (base128_count 10 v); lia.
Qed.

(** * ASN.1 tags *)

(** The identifier octets of a tag: low form for numbers up to 30, otherwise
    the high form. *)
Definition asn1_tag_bytes (tag : Z) : list Z :=
  let tag_bits := Z.land (u8 (Z.shiftr tag CBS_ASN1_TAG_SHIFT)) 0xe0 in
  let tag_number := Z.land tag CBS_ASN1_TAG_NUMBER_MASK in
  if 0x1f <=? tag_number then u8 (Z.lor tag_bits 0x1f) :: base128 tag_number
  else [u8 (Z.lor tag_bits tag_number)].

Lemma byte_land_e0 : forall b, is_byte b -> Z.land b 0xe0 = Z.shiftl (b / 32) 5.
Proof.
  assert (forall b, is_byte b -> (Z.land b 0xe0 =? Z.shiftl (b / 32) 5) = true) as H.
  { apply forall_bytes. vm_compute. done. }
  intros b Hb. by apply Z.eqb_eq, H.
Qed.

Lemma land_1f z : Z.land z 0x1f = z mod 32.
Proof. change 0x1f with (Z.ones 5). by rewrite Z.land_ones by lia. Qed.

Lemma land_tag_number z : Z.land z CBS_ASN1_TAG_NUMBER_MASK = z mod 2 ^ 29.
Proof. change CBS_ASN1_TAG_NUMBER_MASK with (Z.ones 29). by rewrite Z.land_ones by lia. Qed.

(** The identifier octets in terms of class bits and number. *)
Lemma asn1_tag_bytes_eq tag :
  in_word 32 tag ->
  asn1_tag_bytes tag =
  if 0x1f <=? tag mod 2 ^ 29 then (32 * (tag / 2 ^ 29) + 31) :: base128 (tag mod 2 ^ 29)
  else [32 * (tag / 2 ^ 29) + tag mod 2 ^ 29].
Proof.
  intros Ht. unfold asn1_tag_bytes, CBS_ASN1_TAG_SHIFT.
  rewrite land_tag_number, Z.shiftr_div_pow2, byte_land_e0 by (lia || apply u8_byte).
  assert (u8 (tag / 2 ^ 24) / 32 = tag / 2 ^ 29) as ->.
  { unfold wrap, in_word in *. pow2. zdiv. }
  assert (0 <= tag / 2 ^ 29 < 8) as Hc by (unfold in_word in *; pow2; zdiv).
  destruct (Z.leb_spec 0x1f (tag mod 2 ^ 29)).
  - rewrite lor_shiftl_low by (done || lia). rewrite wrap_small by (unfold in_word; pow2; lia).
    f_equal. pow2. lia.
  - assert (0 <= tag mod 2 ^ 29) by (apply Z.mod_pos_bound; lia).
    rewrite lor_shiftl_low by (lia || (unfold in_word; change (2 ^ 5) with 32; lia)).
    change (2 ^ 5) with 32. rewrite wrap_small by (unfold in_word; change (2 ^ 8) with 256; lia).
    f_equal. lia.
Qed.

Lemma bytes_asn1_tag_bytes tag : bytes (asn1_tag_bytes tag).
Proof.
  unfold asn1_tag_bytes. case_match; repeat constructor; try apply wrap_range; try lia.
  apply bytes_base128.
Qed.

Lemma blen_asn1_tag_bytes tag : 1 <= blen (asn1_tag_bytes tag) <= 11.
Proof.
  unfold asn1_tag_bytes. case_match; rewrite blen_cons; [|done].
  rewrite land_tag_number. pose proof (blen_base128 (tag mod 2 ^ 29)) as H1.
  assert (in_word 64 (tag mod 2 ^ 29)) as Hw; [|specialize (H1 Hw); lia].
  apply (in_word_le 29); [lia|]. by apply Z.mod_pos_bound.
Qed.

(** [parse_asn1_tag] reads exactly the identifier octets of a 32-bit tag. *)
Lemma parse_asn1_tag_Some s tag r :
  bytes s ->
  parse_asn1_tag s = (Some tag, r) <-> in_word 32 tag /\ s = asn1_tag_bytes tag ++ r.
Proof.
  intros Hs. destruct s as [|b s].
  { split; [done|]. intros [_ H]. pose proof (blen_asn1_tag_bytes tag).
    destruct (asn1_tag_bytes tag); [rewrite blen_nil in *; lia|done]. }
  apply Forall_cons in Hs as [Hb Hs]. pose proof Hb as [??]. change (2 ^ 8) with 256 in *.
  unfold parse_asn1_tag. rewrite (bind_ok _ _ _ _ _ (CBS_get_u8_cons b s)).
  rewrite byte_land_e0, land_1f, Z.shiftl_shiftl by (done || lia).
  change (5 + CBS_ASN1_TAG_SHIFT) with 29.
  assert (0 <= b / 32 < 8) as Hc by zdiv.
  assert (u32 (Z.shiftl (b / 32) 29) = Z.shiftl (b / 32) 29) as ->.
  { apply wrap_small. rewrite Z.shiftl_mul_pow2 by lia. unfold in_word. pow2. zdiv. }
  assert (forall c n, 0 <= c < 8 -> 0 <= n < 2 ^ 29 ->
    in_word 32 (c * 2 ^ 29 + n) /\ (c * 2 ^ 29 + n) / 2 ^ 29 = c /\ (c * 2 ^ 29 + n) mod 2 ^ 29 = n) as Hsplit.
  { intros. unfold in_word. pow2. split; [lia|]. zdiv. }
  destruct (Z.eqb_spec (b mod 32) 0x1f) as [Hn|Hn].
  - rewrite bind_Some. setoid_rewrite bind_Some. setoid_rewrite bind_Some.
    setoid_rewrite massert_Some. setoid_rewrite ret_Some.
    change CBS_ASN1_TAG_NUMBER_MASK with (2 ^ 29 - 1). split.
    + intros (n & s1 & (v & s2 & Hv & ? & ? & (Hok & ->) & <- & ->) & <- & ->).
      apply parse_base128_integer_Some in Hv as [Hv ->]; [|done].
      apply negb_true_iff, orb_false_iff in Hok as [H1 H2].
      apply Z.ltb_ge in H1, H2.
      rewrite (wrap_small 32 v) by (unfold in_word; pow2; lia).
      rewrite lor_shiftl_low by (lia || (unfold in_word; lia)).
      destruct (Hsplit (b / 32) v) as (? & Hd & Hm); [done|lia|]. split; [done|].
      rewrite asn1_tag_bytes_eq, Hd, Hm by done. rewrite (proj2 (Z.leb_le _ _) H2).
      simpl. f_equal. zdiv.
    + intros [Htag Heq]. rewrite asn1_tag_bytes_eq in Heq by done.
      set (n := tag mod 2 ^ 29) in *.
      assert (0 <= n < 2 ^ 29) as Hnr by (apply Z.mod_pos_bound; lia).
      assert (0 <= tag / 2 ^ 29 < 8) by (unfold in_word in *; pow2; zdiv).
      destruct (Z.leb_spec 0x1f n); [|exfalso; injection Heq as ? ?; zdiv].
      injection Heq as Hbe ->. exists n, r. split.
      * exists n, r. rewrite parse_base128_integer_Some by done.
        assert (in_word 64 n) by (unfold in_word; pow2; lia).
        split; [done|]. exists tt, r. split; [split; [|done]|split; [|done]].
        -- apply negb_true_iff, orb_false_iff. rewrite !Z.ltb_ge. lia.
        -- apply wrap_small. unfold in_word. pow2. lia.
      * split; [|done]. rewrite lor_shiftl_low by (lia || done).
        replace (b / 32) with (tag / 2 ^ 29) by zdiv. unfold n. pow2. zdiv.
  - rewrite bind_ret, ret_Some. assert (0 <= b mod 32 < 32) by zdiv.
    rewrite lor_shiftl_low by (lia || (unfold in_word; pow2; lia)).
    destruct (Hsplit (b / 32) (b mod 32)) as (Ht & Hd & Hm); [done|pow2; lia|].
    split.
    + intros [<- <-]. split; [done|]. rewrite asn1_tag_bytes_eq, Hd, Hm by done.
      rewrite (proj2 (Z.leb_gt _ _)) by lia. simpl. f_equal. zdiv.
    + intros [Htag Heq]. rewrite asn1_tag_bytes_eq in Heq by done.
      destruct (Z.leb_spec 0x1f (tag mod 2 ^ 29)); injection Heq as Hbe Hr; [exfalso; subst b; zdiv|].
      split; [|done]. assert (0 <= tag mod 2 ^ 29) by (apply Z.mod_pos_bound; lia).
      replace (b / 32) with (tag / 2 ^ 29) by zdiv. replace (b mod 32) with (tag mod 2 ^ 29) by zdiv.
      pow2. zdiv.
Qed.

(** * DER lengths *)

(** The minimal length octets, for lengths below 2^32. *)
Definition asn1_len_bytes (len : Z) : list Z :=
  if 0xffffff <? len then 0x84 :: be_bytes 4 len
  else if 0xffff <? len then 0x83 :: be_bytes 3 len
  else if 0xff <? len then 0x82 :: be_bytes 2 len
  else if 0x7f <? len then 0x81 :: be_bytes 1 len
  else [len].

(** A whole element: identifier, length and contents octets. *)
Definition asn1_header (tag len : Z) : list Z := asn1_tag_bytes tag ++ asn1_len_bytes len.
Definition asn1_bytes (tag : Z) (body : list Z) : list Z := asn1_header tag (blen body) ++ body.

Lemma bytes_asn1_len_bytes len : 0 <= len -> bytes (asn1_len_bytes len).
Proof.
  intros. unfold asn1_len_bytes. zcases; (apply Forall_cons; split;
    [unfold in_word; pow2; lia|apply bytes_be_bytes || done]).
Qed.

Lemma bytes_asn1_header tag len : 0 <= len -> bytes (asn1_header tag len).
Proof. intros. apply bytes_app. auto using bytes_asn1_tag_bytes, bytes_asn1_len_bytes. Qed.

Lemma bytes_asn1_bytes tag body : bytes (asn1_bytes tag body) <-> bytes body.
Proof.
  unfold asn1_bytes. rewrite bytes_app. pose proof (bytes_asn1_header tag (blen body) (blen_nonneg body)). naive_solver.
Qed.

Lemma blen_asn1_len_bytes len : 1 <= blen (asn1_len_bytes len) <= 5.
Proof. unfold asn1_len_bytes. zcases; rewrite ?blen_cons, ?blen_be_bytes, ?blen_nil; lia. Qed.

Lemma blen_asn1_header tag len : 2 <= blen (asn1_header tag len) <= 16.
Proof.
  unfold asn1_header. rewrite blen_app.
  pose proof (blen_asn1_tag_bytes tag). pose proof (blen_asn1_len_bytes len). lia.
Qed.

(** Long-form length octets that pass the parser's two minimality tests. *)
Lemma asn1_len_bytes_long d :
  bytes d -> 1 <= blen d <= 4 -> 128 <= be_val d ->
  Z.shiftr (be_val d) ((blen d - 1) * 8) <> 0 ->
  asn1_len_bytes (be_val d) = (128 + blen d) :: d.
Proof.
  intros Hd Hn Hv Hs. pose proof (be_val_bound d Hd) as Hb.
  rewrite Z.shiftr_div_pow2 in Hs by lia.
  pose proof (be_bytes_be_val d Hd) as He. unfold asn1_len_bytes, blen in *.
  assert (length d = 1 \/ length d = 2 \/ length d = 3 \/ length d = 4)%nat as [E|[E|[E|E]]] by lia;
  rewrite E in *; cbn [Z.of_nat Pos.of_succ_nat Pos.succ] in *;
  change (256 ^ 1) with 256 in *; change (256 ^ 2) with 65536 in *;
  change (256 ^ 3) with 16777216 in *; change (256 ^ 4) with 4294967296 in *;
  change ((2 - 1) * 8) with 8 in *; change ((3 - 1) * 8) with 16 in *;
  change ((4 - 1) * 8) with 24 in *; pow2; zcases;
  try (rewrite He; reflexivity); exfalso; zdiv.
Qed.

(** The parser's tests on minimal long-form octets. *)
Lemma asn1_len_bytes_cases len :
  0 <= len < 2 ^ 32 ->
  (len < 128 /\ asn1_len_bytes len = [len]) \/
  (exists d, bytes d /\ 1 <= blen d <= 4 /\ be_val d = len /\ 128 <= len /\
    Z.shiftr len ((blen d - 1) * 8) <> 0 /\ asn1_len_bytes len = (128 + blen d) :: d).
Proof.
  intros Hlen. unfold asn1_len_bytes.
  assert (forall k : nat, (1 <= k <= 4)%nat -> 128 <= len -> len < 256 ^ Z.of_nat k ->
    256 ^ (Z.of_nat k - 1) <= len ->
    exists d, bytes d /\ 1 <= blen d <= 4 /\ be_val d = len /\ 128 <= len /\
    Z.shiftr len ((blen d - 1) * 8) <> 0 /\ (128 + Z.of_nat k) :: be_bytes k len = (128 + blen d) :: d) as Hk.
  { intros k Hk ? ? ?. exists (be_bytes k len). rewrite blen_be_bytes, be_val_be_bytes.
    split_and!; try lia; [apply bytes_be_bytes|apply Z.mod_small; lia| |done].
    rewrite Z.shiftr_div_pow2 by lia. rewrite Z.mul_comm, Z.pow_mul_r by lia.
    change (2 ^ 8) with 256. intros Hz.
    pose proof (Z.div_str_pos len (256 ^ (Z.of_nat k - 1))
      ltac:(split; [apply Z.pow_pos_nonneg; lia|done])). lia. }
  change (2 ^ 32) with 4294967296 in *.
  zcases; [right; apply (Hk 4%nat)|right; apply (Hk 3%nat)|right; apply (Hk 2%nat)
          |right; apply (Hk 1%nat)|left; split; [lia|done]]; try lia;
  cbn; lia.
Qed.

(** * Elements *)

(** The part of [cbs_get_any_asn1_element] after the tag and the first length
    octet. *)
Lemma cbs_get_any_asn1_element_unfold ber_ok s tag lb h :
  is_byte lb -> parse_asn1_tag s = (Some tag, lb :: h) ->
  cbs_get_any_asn1_element ber_ok s =
  (let header_len := blen s - blen h in
   if lb <? 128 then
     out ← cbs_get (lb + header_len); mret (AsnElement out tag header_len false)
   else if ber_ok && negb (Z.land tag CBS_ASN1_CONSTRUCTED =? 0) && (lb mod 128 =? 0) then
     out ← cbs_get header_len; mret (AsnElement out tag header_len true)
   else
     _ ← massert (negb ((lb mod 128 =? 0) || (4 <? lb mod 128)));
     '(len, _) ← on_copy h (cbs_get_u (lb mod 128));
     _ ← massert (negb ((len <? 128) && negb ber_ok));
     _ ← massert (negb ((Z.shiftr len ((lb mod 128 - 1) * 8) =? 0) && negb ber_ok));
     _ ← massert (negb (u64 (len + header_len + lb mod 128) <? len));
     out ← cbs_get (u64 (len + (header_len + lb mod 128)));
     mret (AsnElement out tag (header_len + lb mod 128)
       ((len <? 128) || (Z.shiftr len ((lb mod 128 - 1) * 8) =? 0)))) s.
Proof.
  intros Hlb Ht. unfold cbs_get_any_asn1_element.
  rewrite (bind_ok _ _ s s s) by done.
  rewrite on_copy_bind, Ht, on_copy_bind, CBS_get_u8_cons.
  rewrite byte_cont_bit, land_7f by done. unfold CBS_len.
  destruct (lb <? 128); [done|]. destruct (ber_ok && _ && _); [done|].
  rewrite !massert_bind. destruct (negb _); [|done].
  rewrite !on_copy_bind. by destruct (cbs_get_u _ h) as [[?|] ?].
Qed.

Lemma cbs_get_any_asn1_element_tag_err ber_ok s h :
  parse_asn1_tag s = (None, h) -> cbs_get_any_asn1_element ber_ok s = (None, s).
Proof.
  intros Ht. unfold cbs_get_any_asn1_element.
  rewrite (bind_ok _ _ s s s) by done. by rewrite on_copy_bind, Ht.
Qed.

Lemma cbs_get_any_asn1_element_len_err ber_ok s tag :
  parse_asn1_tag s = (Some tag, []) -> cbs_get_any_asn1_element ber_ok s = (None, s).
Proof.
  intros Ht. unfold cbs_get_any_asn1_element.
  rewrite (bind_ok _ _ s s s) by done. by rewrite on_copy_bind, Ht, on_copy_bind, CBS_get_u8_nil.
Qed.

(** Every run looks at a tag and a first length octet. *)
Lemma cbs_get_any_asn1_element_inv ber_ok s e r :
  bytes s -> cbs_get_any_asn1_element ber_ok s = (Some e, r) ->
  exists tag lb h, is_byte lb /\ bytes h /\ in_word 32 tag /\
    s = asn1_tag_bytes tag ++ lb :: h /\ parse_asn1_tag s = (Some tag, lb :: h).
Proof.
  intros Hs H. destruct (parse_asn1_tag s) as [[tag|] h] eqn:Ht;
    [|by erewrite cbs_get_any_asn1_element_tag_err in H].
  destruct h as [|lb h]; [by erewrite cbs_get_any_asn1_element_len_err in H|].
  pose proof Ht as [Htag ->]%parse_asn1_tag_Some; [|done].
  apply bytes_app in Hs as [_ [??]%Forall_cons]. eauto 10.
Qed.

(** A successful read takes a prefix that extends the header already seen. *)
Lemma cbs_get_extends n hdr rest s out r :
  s = hdr ++ rest -> blen hdr <= n -> cbs_get n s = (Some out, r) ->
  exists body, out = hdr ++ body /\ rest = body ++ r /\ blen body = n - blen hdr.
Proof.
  intros -> Hle H. pose proof (blen_nonneg hdr). apply cbs_get_Some in H as [Heq Hn]; [|lia].
  symmetry in Heq. apply app_split in Heq as (body & -> & ->); [|lia].
  exists body. rewrite blen_app in Hn. split_and!; try done. lia.
Qed.

Lemma cbs_get_prefix hdr body r n :
  n = blen hdr + blen body ->
  cbs_get n (hdr ++ body ++ r) = (Some (hdr ++ body), r).
Proof. intros ->. rewrite app_assoc, <-blen_app. apply cbs_get_app. Qed.

(** Minimal encodings are read back, whether or not BER is allowed. *)
Lemma cbs_get_any_asn1_element_short ber_ok tag body r :
  in_word 32 tag -> bytes body -> bytes r -> blen body < 128 ->
  let hdr := asn1_tag_bytes tag ++ [blen body] in
  cbs_get_any_asn1_element ber_ok (hdr ++ body ++ r) =
  (Some (AsnElement (hdr ++ body) tag (blen hdr) false), r).
Proof.
  intros Htag Hb Hr Hl hdr. pose proof (blen_nonneg body).
  assert (bytes hdr) as Hh.
  { apply bytes_app. split; [apply bytes_asn1_tag_bytes|].
    repeat constructor; [lia|pow2; lia]. }
  unfold hdr at 1. rewrite <-app_assoc.
  erewrite cbs_get_any_asn1_element_unfold;
    [|by apply bytes_app in Hh as [_ [? _]%Forall_cons]
     |apply parse_asn1_tag_Some; [apply bytes_app; split; [apply bytes_asn1_tag_bytes|]|done];
      apply bytes_app in Hh as [_ Hh]; by rewrite !bytes_app].
  cbv zeta. rewrite (proj2 (Z.ltb_lt _ _)) by lia. rewrite app_assoc. fold hdr.
  erewrite bind_ok; [|apply cbs_get_prefix; unfold hdr; autorewrite with blen; lia].
  unfold mret, M_ret. do 3 f_equal. unfold hdr. autorewrite with blen. lia.
Qed.

Lemma cbs_get_any_asn1_element_long ber_ok tag d body r :
  in_word 32 tag -> bytes body -> bytes r -> bytes d -> 1 <= blen d <= 4 ->
  be_val d = blen body -> 128 <= blen body ->
  Z.shiftr (blen body) ((blen d - 1) * 8) <> 0 ->
  let hdr := asn1_tag_bytes tag ++ (128 + blen d) :: d in
  cbs_get_any_asn1_element ber_ok (hdr ++ body ++ r) =
  (Some (AsnElement (hdr ++ body) tag (blen hdr) false), r).
Proof.
  intros Htag Hb Hr Hd Hdl Hdv Hl Hsh hdr.
  pose proof (blen_asn1_tag_bytes tag) as Htl.
  pose proof (be_val_bound d Hd) as Hbv.
  assert (256 ^ blen d <= 256 ^ 4) as Hp by (apply Z.pow_le_mono_r; lia).
  change (256 ^ 4) with 4294967296 in Hp.
  assert (is_byte (128 + blen d)) as Hlb by (unfold in_word; pow2; lia).
  assert (bytes (((128 + blen d) :: d) ++ body ++ r)) as Hrest
    by (rewrite !bytes_app, Forall_cons; done).
  unfold hdr at 1. rewrite <-app_assoc.
  erewrite cbs_get_any_asn1_element_unfold;
    [|exact Hlb|apply parse_asn1_tag_Some; [rewrite bytes_app; split; [apply bytes_asn1_tag_bytes|done]|done]].
  cbv zeta. rewrite (proj2 (Z.ltb_ge _ _)) by lia.
  replace ((128 + blen d) mod 128) with (blen d) by zdiv.
  rewrite (proj2 (Z.eqb_neq (blen d) 0)) by lia. rewrite andb_false_r.
  rewrite massert_bind, (proj2 (Z.ltb_ge 4 _)) by lia. cbn [negb orb].
  rewrite on_copy_bind.
  rewrite cbs_get_u_be by (rewrite ?bytes_app; done || lia). rewrite Hdv.
  rewrite (proj2 (Z.ltb_ge _ 128)), (proj2 (Z.eqb_neq _ _)) by done.
  rewrite !massert_bind. cbn [negb andb orb].
  autorewrite with blen.
  rewrite wrap_small, (proj2 (Z.ltb_ge _ _)) by (unfold in_word; pow2; lia). cbn [negb].
  replace (asn1_tag_bytes tag ++ _) with (hdr ++ body ++ r) by (unfold hdr; by rewrite <-app_assoc).
  erewrite bind_ok; [|apply cbs_get_prefix; unfold hdr; autorewrite with blen;
    rewrite wrap_small by (unfold in_word; pow2; lia); lia].
  unfold mret, M_ret. do 3 f_equal. unfold hdr. autorewrite with blen. lia.
Qed.

Lemma cbs_get_any_asn1_element_minimal ber_ok tag body r :
  in_word 32 tag -> bytes body -> bytes r -> blen body < 2 ^ 32 ->
  cbs_get_any_asn1_element ber_ok (asn1_bytes tag body ++ r) =
  (Some (AsnElement (asn1_bytes tag body) tag (blen (asn1_header tag (blen body))) false), r).
Proof.
  intros Htag Hb Hr Hlen. unfold asn1_bytes, asn1_header. rewrite <-(app_assoc _ body r).
  destruct (asn1_len_bytes_cases (blen body)) as [[Hl ->]|(d & ? & ? & ? & ? & ? & ->)];
    [pose proof (blen_nonneg body); lia| |].
  - by apply cbs_get_any_asn1_element_short.
  - by apply cbs_get_any_asn1_element_long.
Qed.

(** DER: the elements read are exactly the encodings of a tag and contents
    shorter than 2^32 bytes. *)
Lemma CBS_get_any_asn1_element_Some s e r :
  bytes s ->
  CBS_get_any_asn1_element s = (Some e, r) <->
  exists tag body, in_word 32 tag /\ blen body < 2 ^ 32 /\
    e = AsnElement (asn1_bytes tag body) tag (blen (asn1_header tag (blen body))) false /\
    s = asn1_bytes tag body ++ r.
Proof.
  intros Hs. unfold CBS_get_any_asn1_element, asn1_bytes, asn1_header. split.
  - intros H. pose proof H as (tag & lb & h & Hlb & Hh & Htag & -> & Ht)%cbs_get_any_asn1_element_inv; [|done].
    erewrite cbs_get_any_asn1_element_unfold in H by done. cbv zeta in H.
    autorewrite with blen in H.
    replace (blen (asn1_tag_bytes tag) + (1 + blen h) - blen h)
      with (blen (asn1_tag_bytes tag) + 1) in H by lia.
    set (hdr := asn1_tag_bytes tag) in *.
    destruct (Z.ltb_spec lb 128) as [Hl|Hl].
    + minvs.
      apply (cbs_get_extends _ (hdr ++ [lb]) h) in E as (body & -> & -> & Hbody);
        [|by rewrite <-app_assoc|rewrite blen_app, blen_singleton; unfold in_word in Hlb; lia].
      rewrite blen_app, blen_singleton in Hbody. assert (blen body = lb) as Hb by lia.
      exists tag, body. rewrite Hb.
      assert (asn1_len_bytes lb = [lb]) as Hlen.
      { unfold asn1_len_bytes. unfold in_word in Hlb. zcases; lia || done. }
      rewrite Hlen, blen_app, blen_singleton, <-!app_assoc. split_and!; try done.
      pow2. lia.
    + cbn [andb] in H. minvs.
      unfold in_word in Hlb. pow2.
      rewrite ?andb_true_r, ?negb_true_iff, ?orb_false_iff in *.
      destruct_and!. rewrite !Z.ltb_ge, !Z.eqb_neq in *.
      apply cbs_get_u_Some in E0 as (d & -> & Hd & ->); [|zdiv|done].
      apply bytes_app in Hh as [Hbd Hbh].
      assert (lb = 128 + blen d) as Hlbd by zdiv. rewrite <-Hd in *.
      pose proof (asn1_len_bytes_long d Hbd ltac:(zdiv) ltac:(done) ltac:(done)) as Hlen.
      pose proof (be_val_bound d Hbd) as Hbv.
      assert (256 ^ blen d <= 2 ^ 32) as Hp.
      { change (2 ^ 32) with (256 ^ 4). apply Z.pow_le_mono_r; zdiv. }
      pose proof (blen_asn1_tag_bytes tag) as Htl. fold hdr in Htl. pow2.
      rewrite wrap_small in E3 by (unfold in_word; pow2; zdiv).
      apply (cbs_get_extends _ (hdr ++ lb :: d) l) in E3 as (body & -> & -> & Hbody);
        [|by rewrite <-app_assoc|rewrite blen_app, blen_cons; lia].
      rewrite blen_app, blen_cons in Hbody. assert (blen body = be_val d) as Hb by lia.
      exists tag, body. rewrite Hb, Hlen, <-Hlbd, blen_app, blen_cons, <-!app_assoc.
      split_and!; try done; [lia|].
      f_equal; [fold hdr; lia|]. apply orb_false_iff. rewrite Z.ltb_ge, Z.eqb_neq. done.
  - intros (tag & body & Htag & Hlen & -> & ->).
    apply bytes_app in Hs as [Hs Hr]. apply bytes_app in Hs as [_ Hb].
    by apply cbs_get_any_asn1_element_minimal.
Qed.

(** * Tagged reads *)

Lemma asn1_bytes_inj t b r t' b' r' :
  in_word 32 t -> in_word 32 t' -> blen b < 2 ^ 32 -> blen b' < 2 ^ 32 ->
  bytes (asn1_bytes t b ++ r) ->
  asn1_bytes t b ++ r = asn1_bytes t' b' ++ r' -> t = t' /\ b = b' /\ r = r'.
Proof.
  intros Ht Ht' Hb Hb' Hs Heq.
  assert (CBS_get_any_asn1_element (asn1_bytes t b ++ r) =
    (Some (AsnElement (asn1_bytes t b) t (blen (asn1_header t (blen b))) false), r)) as H1
    by (apply CBS_get_any_asn1_element_Some; eauto 10).
  assert (CBS_get_any_asn1_element (asn1_bytes t b ++ r) =
    (Some (AsnElement (asn1_bytes t' b') t' (blen (asn1_header t' (blen b'))) false), r')) as H2
    by (apply CBS_get_any_asn1_element_Some; [done|rewrite Heq in *; eauto 10]).
  rewrite H1 in H2. injection H2 as Ho -> Hh ->. split_and!; try done.
  unfold asn1_bytes in Ho. apply app_inj_1 in Ho; [naive_solver|]. by apply Nat2Z.inj.
Qed.

Lemma CBS_get_any_asn1_Some s body tag r :
  bytes s ->
  CBS_get_any_asn1 s = (Some (body, tag), r) <->
  in_word 32 tag /\ blen body < 2 ^ 32 /\ s = asn1_bytes tag body ++ r.
Proof.
  intros Hs. unfold CBS_get_any_asn1. rewrite bind_Some.
  setoid_rewrite CBS_get_any_asn1_element_Some; [|done]. split.
  - intros (e & s1 & (t & b & Ht & Hb & -> & ->) & H). rewrite on_copy_bind in H.
    cbn in H. unfold asn1_bytes at 1 in H. rewrite CBS_skip_app in H.
    apply ret_Some in H as [[= -> ->] ->]. done.
  - intros (Ht & Hb & ->). eexists _, _. split; [eauto 10|].
    rewrite on_copy_bind. cbn. unfold asn1_bytes at 1. by rewrite CBS_skip_app.
Qed.

(** [CBS_get_asn1] reads the contents of exactly the elements with the tag it
    was given. *)
Lemma CBS_get_asn1_Some tag s body r :
  bytes s ->
  CBS_get_asn1 tag s = (Some body, r) <->
  in_word 32 tag /\ blen body < 2 ^ 32 /\ s = asn1_bytes tag body ++ r.
Proof.
  intros Hs. unfold CBS_get_asn1, cbs_get_asn1. rewrite bind_Some.
  setoid_rewrite CBS_get_any_asn1_element_Some; [|done]. split.
  - intros (e & s1 & (t & b & Ht & Hb & -> & ->) & H).
    rewrite massert_bind in H. cbn in H. destruct (Z.eqb_spec t tag) as [->|]; [|done].
    rewrite on_copy_bind in H. unfold asn1_bytes at 1 in H. rewrite CBS_skip_app in H.
    apply ret_Some in H as [-> ->]. done.
  - intros (Ht & Hb & ->). eexists _, _. split; [eauto 10|].
    rewrite massert_bind. cbn. rewrite Z.eqb_refl, on_copy_bind.
    unfold asn1_bytes at 1. by rewrite CBS_skip_app.
Qed.

Lemma CBS_get_asn1_bytes tag body r :
  in_word 32 tag -> bytes body -> bytes r -> blen body < 2 ^ 32 ->
  CBS_get_asn1 tag (asn1_bytes tag body ++ r) = (Some body, r).
Proof.
  intros. apply CBS_get_asn1_Some; [|done].
  apply bytes_app. split; [by apply bytes_asn1_bytes|done].
Qed.

(** On another element it fails, having consumed the element. *)
Lemma CBS_get_asn1_mismatch tag t body r :
  bytes body -> bytes r -> in_word 32 t -> blen body < 2 ^ 32 -> tag <> t ->
  CBS_get_asn1 tag (asn1_bytes t body ++ r) = (None, r).
Proof.
  intros Hb Hr Ht Hl Hne. unfold CBS_get_asn1, cbs_get_asn1, CBS_get_any_asn1_element.
  erewrite bind_ok; [|by apply cbs_get_any_asn1_element_minimal].
  rewrite massert_bind. cbn. by rewrite (proj2 (Z.eqb_neq _ _)).
Qed.

Lemma CBS_peek_asn1_tag_true s tag :
  bytes s ->
  CBS_peek_asn1_tag s tag = true <-> in_word 32 tag /\ exists r, s = asn1_tag_bytes tag ++ r.
Proof.
  intros Hs. unfold CBS_peek_asn1_tag, CBS_len. split.
  - destruct (Z.ltb_spec (blen s) 1); [done|].
    destruct (parse_asn1_tag s) as [[t|] r] eqn:E; [|done].
    intros ->%Z.eqb_eq. apply parse_asn1_tag_Some in E as [??]; eauto.
  - intros [Ht [r ->]]. pose proof (blen_asn1_tag_bytes tag).
    rewrite (proj2 (Z.ltb_ge _ _)) by (rewrite blen_app; pose proof (blen_nonneg r); lia).
    assert (parse_asn1_tag (asn1_tag_bytes tag ++ r) = (Some tag, r)) as ->
      by by apply parse_asn1_tag_Some. apply Z.eqb_refl.
Qed.

(** The BER reader accepts every DER element and reports nothing; what it
    accepts without reporting BER is DER. *)
Lemma CBS_get_any_ber_asn1_element_der s e r :
  bytes s ->
  CBS_get_any_asn1_element s = (Some e, r) <->
  CBS_get_any_ber_asn1_element s = (Some e, r) /\ ae_ber_found e = false.
Proof.
  intros Hs. split.
  - intros H. pose proof H as (t & b & Ht & Hb & -> & ->)%CBS_get_any_asn1_element_Some; [|done].
    apply bytes_app in Hs as [?%bytes_asn1_bytes ?]. split; [|done].
    by apply cbs_get_any_asn1_element_minimal.
  - intros [H Hf]. pose proof H as (tag & lb & h & Hlb & Hh & Htag & -> & Ht)%cbs_get_any_asn1_element_inv; [|done].
    unfold CBS_get_any_ber_asn1_element, CBS_get_any_asn1_element in *.
    erewrite cbs_get_any_asn1_element_unfold in H |- * by done. cbv zeta in *.
    destruct (lb <? 128); [done|]. cbn [andb] in *.
    destruct (negb _ && _); [minvs; done|]. minvs. cbn [ae_ber_found] in Hf.
    apply orb_false_iff in Hf as [Hf1 Hf2]. by mrun.
Qed.

(** * Unsigned integers *)

Fixpoint strip_zeros (l : list Z) : list Z :=
  match l with
  | b :: l' => if b =? 0 then strip_zeros l' else l
  | [] => []
  end.

(** The minimal contents octets of a non-negative integer below 2^64. *)
Definition asn1_uint64_body (v : Z) : list Z :=
  match strip_zeros (be_bytes 8 v) with
  | [] => [0]
  | b :: l => if 128 <=? b then 0 :: b :: l else b :: l
  end.

Lemma be_val_strip l : be_val (strip_zeros l) = be_val l.
Proof.
  induction l as [|b l IH]; simpl; [done|].
  destruct (Z.eqb_spec b 0) as [->|]; [|done]. rewrite IH, be_val_cons. lia.
Qed.

Lemma length_strip l : (length (strip_zeros l) <= length l)%nat.
Proof. induction l; simpl; [done|]. case_match; simpl; lia. Qed.

Lemma bytes_strip l : bytes l -> bytes (strip_zeros l).
Proof. induction 1; simpl; [done|]. case_match; [done|by constructor]. Qed.

Lemma head_strip l b l' : strip_zeros l = b :: l' -> b <> 0.
Proof.
  induction l as [|c l IH]; simpl; [done|]. destruct (Z.eqb_spec c 0); [done|]. naive_solver.
Qed.

Lemma be_val_head_pos b l : bytes (b :: l) -> b <> 0 ->
  256 ^ blen l <= be_val (b :: l).
Proof.
  intros [[??] Hl]%Forall_cons ?. rewrite be_val_cons. pose proof (be_val_bound l Hl).
  assert (0 < 256 ^ blen l) by (apply Z.pow_pos_nonneg; pose proof (blen_nonneg l); lia). nia.
Qed.

(** Two byte strings without leading zeros and with one value are equal. *)
Lemma no_leading_zero_inj l k :
  bytes l -> bytes k -> (forall b l', l = b :: l' -> b <> 0) ->
  (forall b l', k = b :: l' -> b <> 0) -> be_val l = be_val k -> l = k.
Proof.
  intros Hl Hk Hl0 Hk0 Hv. apply be_val_inj; [done|done| |done].
  assert (forall p q, bytes p -> bytes q -> (forall b l', q = b :: l' -> b <> 0) ->
    be_val p = be_val q -> (length p < length q)%nat -> False) as Hlt.
  { intros p [|b q] Hp Hq Hq0 Hpq Hlen; simpl in Hlen; [lia|].
    pose proof (be_val_head_pos b q Hq ltac:(naive_solver)). pose proof (be_val_bound p Hp).
    pose proof (Z.pow_le_mono_r 256 (blen p) (blen q) ltac:(lia) ltac:(unfold blen; lia)). lia. }
  destruct (Nat.lt_trichotomy (length l) (length k)) as [?|[?|?]]; [|done|];
    exfalso; eauto.
Qed.

Lemma strip_be_bytes_8 l :
  bytes l -> be_val l < 2 ^ 64 -> strip_zeros (be_bytes 8 (be_val l)) = strip_zeros l.
Proof.
  intros Hl Hv. pose proof (be_val_bound l Hl).
  apply no_leading_zero_inj; eauto using bytes_strip, bytes_be_bytes, head_strip.
  rewrite !be_val_strip, be_val_be_bytes. apply Z.mod_small.
  change (256 ^ Z.of_nat 8) with (2 ^ 64). lia.
Qed.

Lemma asn1_uint64_loop_Some data acc v :
  bytes data -> in_word 64 acc ->
  asn1_uint64_loop acc data = Some v <->
  v = acc * 256 ^ blen data + be_val data /\ v < 2 ^ 64.
Proof.
  revert acc. induction data as [|b data IH]; intros acc Hd [Ha Ha']; cbn [asn1_uint64_loop].
  - rewrite blen_nil. unfold be_val. simpl. split; [intros [= <-]; lia|intros [-> ?]; f_equal; lia].
  - apply Forall_cons in Hd as [Hb Hd]. pose proof (be_val_bound data Hd) as Hv.
    rewrite be_val_cons, blen_cons, Z.pow_add_r, Z.shiftr_div_pow2 by (pose proof (blen_nonneg data); lia).
    assert (0 < 256 ^ blen data) as Hp by (apply Z.pow_pos_nonneg; pose proof (blen_nonneg data); lia).
    unfold in_word in Hb. change (256 ^ 1) with 256. change (2 ^ 8) with 256 in Hb.
    destruct (Z.eqb_spec (acc / 2 ^ 56) 0) as [Hz|Hz]; cbn [negb].
    + assert (acc < 2 ^ 56) as Hacc by (pow2; zdiv). change (2 ^ 56) with 72057594037927936 in *.
      rewrite wrap_small by (rewrite Z.shiftl_mul_pow2 by lia; unfold in_word; pow2; lia).
      rewrite lor_shiftl_low by (unfold in_word; pow2; lia). change (2 ^ 8) with 256.
      rewrite IH by (done || unfold in_word; pow2; lia).
      replace (acc * (256 * 256 ^ blen data) + (b * 256 ^ blen data + be_val data))
        with ((acc * 256 + b) * 256 ^ blen data + be_val data) by ring. done.
    + split; [done|]. intros [-> Hs]. exfalso.
      assert (2 ^ 56 <= acc) by (pow2; zdiv). pow2. nia.
Qed.

(** A valid, non-negative INTEGER body is the minimal encoding of its value. *)
Lemma CBS_is_unsigned_asn1_integer_true body :
  bytes body -> be_val body < 2 ^ 64 ->
  CBS_is_unsigned_asn1_integer body = true <-> body = asn1_uint64_body (be_val body).
Proof.
  intros Hb Hv. unfold asn1_uint64_body. rewrite strip_be_bytes_8 by done.
  unfold CBS_is_unsigned_asn1_integer, CBS_is_valid_asn1_integer.
  destruct body as [|b1 [|b2 l]]; rewrite ?CBS_get_u8_nil, ?CBS_get_u8_cons; [done|..];
    rewrite !byte_cont_bit by (decompose_Forall_hyps; done).
  - simpl. destruct (Z.eqb_spec b1 0) as [->|]; [done|].
    rewrite negb_involutive. zcases; split; try done; lia.
  - cbn [strip_zeros]. apply Forall_cons in Hb as [[??] [[??] ?]%Forall_cons]. pow2.
    destruct (Z.eqb_spec b1 0) as [->|]; cbn [andb orb].
    + destruct (Z.ltb_spec b2 128); cbn [negb andb orb].
      * split; [done|]. destruct (Z.eqb_spec b2 0) as [->|].
        -- destruct (strip_zeros l) as [|c k] eqn:E; [done|]. apply head_strip in E.
           case_match; intros [=]; lia.
        -- zcases; [lia|]. naive_solver.
      * destruct (Z.eqb_spec b2 0); [lia|]. by rewrite (proj2 (Z.leb_le 128 b2)) by lia.
    + destruct (Z.ltb_spec b1 128); cbn [negb].
      * rewrite (proj2 (Z.leb_gt 128 b1)), (proj2 (Z.eqb_neq b1 255)) by lia. done.
      * rewrite (proj2 (Z.leb_le 128 b1)) by lia.
        split; [|by intros [=]; lia].
        destruct (_ && _); done.
Qed.

Lemma asn1_uint64_body_spec v :
  in_word 64 v ->
  bytes (asn1_uint64_body v) /\ be_val (asn1_uint64_body v) = v /\
  1 <= blen (asn1_uint64_body v) <= 9.
Proof.
  intros Hv. unfold asn1_uint64_body.
  assert (be_val (strip_zeros (be_bytes 8 v)) = v) as Hval.
  { rewrite be_val_strip, be_val_be_bytes. by apply Z.mod_small. }
  pose proof (bytes_strip _ (bytes_be_bytes 8 v)) as Hb.
  assert (blen (strip_zeros (be_bytes 8 v)) <= 8) as Hlen.
  { pose proof (length_strip (be_bytes 8 v)) as Hs. rewrite length_be_bytes in Hs. unfold blen. lia. }
  destruct (strip_zeros (be_bytes 8 v)) as [|b l]; rewrite ?blen_cons in *.
  - split_and!; [by apply Forall_singleton|by subst|rewrite blen_nil; lia|rewrite blen_nil; lia].
  - pose proof (blen_nonneg l). case_match; rewrite ?blen_cons; split_and!; try done; try lia.
    by constructor.
Qed.

Lemma asn1_uint64_body_word v :
  in_word 64 v -> bytes (asn1_uint64_body v) /\ blen (asn1_uint64_body v) < 2 ^ 32.
Proof. intros (?&?&?)%asn1_uint64_body_spec. split; [done|]. pow2. lia. Qed.

Lemma CBS_get_asn1_uint64_Some s v r :
  bytes s ->
  CBS_get_asn1_uint64 s = (Some v, r) <->
  in_word 64 v /\ s = asn1_bytes CBS_ASN1_INTEGER (asn1_uint64_body v) ++ r.
Proof.
  intros Hs. unfold CBS_get_asn1_uint64, CBS_data. split.
  - intros H. minv_step. pose proof E as (_ & Hl & ->)%CBS_get_asn1_Some; [|done].
    apply bytes_app in Hs as [Hb%bytes_asn1_bytes Hr]. rewrite massert_bind in H.
    destruct (CBS_is_unsigned_asn1_integer a) eqn:Hu; [|done].
    unfold lift_option in H. injection H as H ->.
    apply asn1_uint64_loop_Some in H as [-> Hv]; [|done|by apply in_word_0].
    rewrite Z.mul_0_l, Z.add_0_l in *. pose proof (be_val_bound a Hb).
    split; [split; [apply H|done]|]. do 2 f_equal. by apply CBS_is_unsigned_asn1_integer_true.
  - intros [Hv ->]. destruct (asn1_uint64_body_word v Hv) as [Hb Hl].
    destruct (asn1_uint64_body_spec v Hv) as (_ & Hval & _).
    apply bytes_app in Hs as [_ Hr].
    erewrite bind_ok; [|by apply CBS_get_asn1_bytes].
    rewrite massert_bind.
    assert (CBS_is_unsigned_asn1_integer (asn1_uint64_body v) = true) as ->.
    { apply CBS_is_unsigned_asn1_integer_true; rewrite ?Hval; [done|apply Hv|done]. }
    unfold lift_option. f_equal. apply asn1_uint64_loop_Some; [done|by apply in_word_0|].
    rewrite Hval. split; [lia|apply Hv].
Qed.

(** * Signed integers *)

(** Two's complement value of a non-empty byte string. *)
Definition be_sval (l : list Z) : Z :=
  match l with
  | [] => 0
  | b :: _ => if b <? 128 then be_val l else be_val l - 256 ^ blen l
  end.

(** Drop leading 0xff bytes that only repeat the sign. *)
Fixpoint strip_ff (l : list Z) : list Z :=
  match l with
  | b :: (c :: _) as l' => if (b =? 0xff) && (128 <=? c) then strip_ff l' else l
  | _ => l
  end.

(** The minimal contents octets of a signed 64-bit integer. *)
Definition asn1_int64_body (v : Z) : list Z :=
  if 0 <=? v then asn1_uint64_body v else strip_ff (be_bytes 8 (u64 v)).

(** A string whose first octet has the sign bit. *)
Definition neg_head (l : list Z) : Prop := exists b k, l = b :: k /\ 128 <= b.

Lemma be_sval_neg l : neg_head l -> be_sval l = be_val l - 256 ^ blen l.
Proof. intros (b & k & -> & Hb). unfold be_sval. by rewrite (proj2 (Z.ltb_ge b 128)). Qed.

Lemma strip_ff_length l : (length (strip_ff l) <= length l)%nat.
Proof.
  induction l as [|b [|c l] IH]; [done..|].
  change (strip_ff (b :: c :: l)) with
    (if (b =? 0xff) && (128 <=? c) then strip_ff (c :: l) else b :: c :: l).
  case_match; [|done]. etrans; [apply IH|simpl; lia].
Qed.

Lemma strip_ff_spec l :
  bytes l -> neg_head l ->
  bytes (strip_ff l) /\ neg_head (strip_ff l) /\ be_sval (strip_ff l) = be_sval l /\
  strip_ff (strip_ff l) = strip_ff l.
Proof.
  induction l as [|b [|c l] IH]; intros Hl Hn; [done..|]. cbn [strip_ff] in *.
  destruct ((b =? 255) && (128 <=? c)) eqn:E.
  - apply andb_true_iff in E as [->%Z.eqb_eq Hc%Z.leb_le].
    apply Forall_cons in Hl as [_ Hl].
    destruct IH as (?&?&Hs&?); [done|by exists c, l|]. split_and!; try done.
    rewrite Hs. unfold be_sval. rewrite (proj2 (Z.ltb_ge c 128)), (proj2 (Z.ltb_ge 255 128)) by lia.
    rewrite (be_val_cons 255), (blen_cons 255), Z.pow_add_r by (pose proof (blen_nonneg (c :: l)); lia). lia.
  - split_and!; try done. cbn [strip_ff]. by rewrite E.
Qed.

Lemma CBS_is_valid_asn1_integer_neg body :
  bytes body ->
  CBS_is_valid_asn1_integer body = Some true <-> neg_head body /\ strip_ff body = body.
Proof.
  intros Hb. unfold CBS_is_valid_asn1_integer, neg_head.
  destruct body as [|b1 [|b2 l]]; rewrite ?CBS_get_u8_nil, ?CBS_get_u8_cons; [naive_solver|..];
    rewrite !byte_cont_bit by (decompose_Forall_hyps; done).
  - cbn [strip_ff]. destruct (Z.ltb_spec b1 128); cbn [negb]; split; try done; [intros [(?&?&[= <- <-]&?) _]; lia|eauto].
  - cbn [strip_ff]. destruct (Z.ltb_spec b1 128); cbn [negb].
    { split; [by case_match|]. intros [(?&?&[= <- <-]&?) _]; lia. }
    rewrite (proj2 (Z.eqb_neq b1 0)) by lia. cbn [andb orb].
    replace (negb (b2 <? 128)) with (128 <=? b2) by (zcases; done || lia).
    destruct ((b1 =? 255) && (128 <=? b2)).
    + split; [done|]. intros [_ He]. apply (f_equal length) in He.
      pose proof (strip_ff_length (b2 :: l)). simpl in *. lia.
    + split; [eauto 10|done].
Qed.

Lemma CBS_is_valid_asn1_integer_nonneg body :
  CBS_is_valid_asn1_integer body = Some false <-> CBS_is_unsigned_asn1_integer body = true.
Proof.
  unfold CBS_is_unsigned_asn1_integer. destruct (CBS_is_valid_asn1_integer body) as [[]|]; naive_solver.
Qed.

(** Sign extension to eight octets keeps the signed value. *)
Lemma be_val_replicate_ff k : be_val (replicate k 255) = 256 ^ Z.of_nat k - 1.
Proof.
  induction k as [|k IH]; [done|]. cbn [replicate].
  rewrite be_val_cons, IH. unfold blen. rewrite length_replicate, Nat2Z.inj_succ, Z.pow_succ_r by lia. lia.
Qed.

Lemma be_val_replicate_0 k : be_val (replicate k 0) = 0.
Proof. induction k as [|k IH]; [done|]. cbn [replicate]. rewrite be_val_cons, IH. lia. Qed.

Lemma int64_union body f :
  blen body <= 8 ->
  le_val (write_at 0 (rev body) (replicate 8 f)) =
  be_val (replicate (8 - length body) f ++ body).
Proof.
  intros Hl. unfold le_val, write_at. change (take (Z.to_nat 0) (replicate 8 f)) with (@nil Z).
  rewrite app_nil_l, rev_app_distr, rev_involutive. do 2 f_equal.
  unfold blen in *. rewrite length_rev, Z.add_0_l, Nat2Z.id, drop_replicate.
  rewrite rev_alt. apply reverse_replicate.
Qed.

Lemma pow_256_split n : 0 <= n <= 8 -> 256 ^ (8 - n) * 256 ^ n = 2 ^ 64.
Proof. intros. rewrite <-Z.pow_add_r by lia. by replace (8 - n + n) with 8 by lia. Qed.

Lemma be_sval_int64 body (neg : bool) :
  bytes body -> 1 <= blen body <= 8 ->
  match body with [] => False | b :: _ => neg = (128 <=? b) end ->
  s64 (be_val (replicate (8 - length body) (if neg then 255 else 0) ++ body)) = be_sval body /\
  - 2 ^ 63 <= be_sval body < 2 ^ 63.
Proof.
  intros Hb Hl Hneg. rewrite be_val_app. pose proof (be_val_bound body Hb) as Hv.
  pose proof (pow_256_split (blen body) ltac:(lia)) as Hp.
  assert (0 < 256 ^ blen body) by (apply Z.pow_pos_nonneg; lia).
  assert (256 ^ blen body <= 2 ^ 64) as Hle
    by (change (2 ^ 64) with (256 ^ 8); apply Z.pow_le_mono_r; lia).
  destruct body as [|b l]; [done|]. unfold be_sval.
  pose proof Hb as [[??] Hbl]%Forall_cons. change (2 ^ 8) with 256 in *.
  pose proof (be_val_bound l Hbl) as Hvl. pose proof (blen_nonneg l).
  assert (256 ^ blen (b :: l) = 256 * 256 ^ blen l) as Hs by (rewrite blen_cons, Z.pow_add_r by lia; done).
  assert (128 * 256 ^ blen l <= 2 ^ 63) by (pow2; lia).
  assert (be_val (b :: l) = b * 256 ^ blen l + be_val l) as Hbv by apply be_val_cons.
  unfold s64, wrap. destruct (Z.leb_spec 128 b); subst neg; cbn iota.
  - rewrite (proj2 (Z.ltb_ge b 128)) by lia. rewrite be_val_replicate_ff.
    replace (Z.of_nat (8 - length (b :: l))) with (8 - blen (b :: l)) by (unfold blen in *; lia).
    assert (- 2 ^ 63 <= be_val (b :: l) - 256 ^ blen (b :: l) < 0) by (pow2; nia).
    split; [|pow2; lia].
    replace ((256 ^ (8 - blen (b :: l)) - 1) * 256 ^ blen (b :: l) + be_val (b :: l) + 2 ^ 63)
      with (1 * 2 ^ 64 + (be_val (b :: l) - 256 ^ blen (b :: l) + 2 ^ 63)) by (rewrite <-Hp; ring).
    rewrite Z.add_comm, Z_mod_plus_full, Z.mod_small by (pow2; lia). lia.
  - rewrite (proj2 (Z.ltb_lt b 128)) by lia. rewrite be_val_replicate_0.
    assert (0 <= be_val (b :: l) < 2 ^ 63) by (pow2; nia).
    split; [|pow2; lia]. rewrite Z.mod_small by (pow2; lia). lia.
Qed.

(** A negative value is the sign-extended reading of its minimal octets. *)
Lemma be_bytes_8_neg body :
  bytes body -> blen body <= 8 -> neg_head body ->
  be_bytes 8 (u64 (be_sval body)) = replicate (8 - length body) 255 ++ body.
Proof.
  intros Hb Hl Hn.
  pose proof (be_val_bound body Hb) as Hv. pose proof (pow_256_split (blen body) ltac:(pose proof (blen_nonneg body); lia)) as Hp.
  assert (bytes (replicate (8 - length body) 255 ++ body)) as Hbb
    by (apply bytes_app; split; [by apply bytes_replicate|done]).
  assert (length (replicate (8 - length body) 255 ++ body) = 8%nat) as Hlen
    by (rewrite length_app, length_replicate; unfold blen in Hl; lia).
  rewrite <-(be_bytes_be_val (replicate _ _ ++ body)), Hlen by done. f_equal.
  rewrite be_val_app, be_val_replicate_ff.
  replace (Z.of_nat (8 - length body)) with (8 - blen body) by (unfold blen in *; lia).
  rewrite be_sval_neg by done. unfold wrap. replace ((256 ^ (8 - blen body) - 1) * 256 ^ blen body + be_val body)
    with (2 ^ 64 + (be_val body - 256 ^ blen body)) by (rewrite <-Hp; ring).
  symmetry. apply Z.mod_unique with (-1); [|ring]. left.
  assert (256 ^ blen body <= 2 ^ 64)
    by (change (2 ^ 64) with (256 ^ 8); apply Z.pow_le_mono_r; lia). lia.
Qed.

Lemma strip_ff_replicate n body :
  neg_head body -> strip_ff (replicate n 255 ++ body) = strip_ff body.
Proof.
  intros (b & k & -> & Hn). induction n as [|n IH]; [done|].
  rewrite <-IH. destruct n; cbn [replicate app strip_ff];
    rewrite (proj2 (Z.leb_le 128 _)) by lia; done.
Qed.

(** Valid bodies of at most eight octets are the encodings of their values. *)
Lemma asn1_int64_body_canonical body neg :
  bytes body -> blen body <= 8 -> CBS_is_valid_asn1_integer body = Some neg ->
  1 <= blen body /\ match body with [] => False | b :: _ => neg = (128 <=? b) end /\
  body = asn1_int64_body (be_sval body).
Proof.
  intros Hb Hl Hval. pose proof (be_val_bound body Hb) as Hbv.
  unfold asn1_int64_body. destruct neg.
  - apply CBS_is_valid_asn1_integer_neg in Hval as [Hn Hs]; [|done].
    pose proof (be_bytes_8_neg body Hb Hl Hn) as He.
    destruct Hn as (b & k & -> & Hb128).
    destruct (be_sval_int64 (b :: k) true) as [_ Hr]; [done|rewrite blen_cons in *; pose proof (blen_nonneg k); lia| |].
    { by rewrite (proj2 (Z.leb_le 128 b)). }
    split_and!; [rewrite blen_cons; pose proof (blen_nonneg k); lia|by rewrite (proj2 (Z.leb_le 128 b))|].
    assert (be_sval (b :: k) < 0) as Hneg.
    { unfold be_sval. rewrite (proj2 (Z.ltb_ge b 128)) by lia. lia. }
    rewrite (proj2 (Z.leb_gt 0 _)) by done. rewrite He, strip_ff_replicate by (eexists _, _; done). done.
  - apply CBS_is_valid_asn1_integer_nonneg in Hval.
    assert (be_val body < 2 ^ 64) as Hv.
    { pose proof (Z.pow_le_mono_r 256 (blen body) 8). change (256 ^ 8) with (2 ^ 64) in *. lia. }
    pose proof (proj1 (CBS_is_unsigned_asn1_integer_true body Hb Hv) Hval) as He.
    destruct body as [|b k]; [done|].
    assert (b < 128) as Hb128.
    { unfold CBS_is_unsigned_asn1_integer, CBS_is_valid_asn1_integer in Hval.
      rewrite CBS_get_u8_cons, byte_cont_bit in Hval by by decompose_Forall_hyps.
      destruct (Z.ltb_spec b 128); [done|]. destruct (CBS_get_u8 k) as [[?|] ?]; [|done].
      by destruct (_ || _). }
    rewrite blen_cons. split_and!; [pose proof (blen_nonneg k); lia|zcases; lia || done|].
    unfold be_sval. rewrite (proj2 (Z.ltb_lt b 128)) by lia. by rewrite (proj2 (Z.leb_le 0 _)) by lia.
Qed.

Lemma asn1_int64_body_spec v :
  - 2 ^ 63 <= v < 2 ^ 63 ->
  let body := asn1_int64_body v in
  bytes body /\ blen body <= 8 /\ be_sval body = v /\
  exists neg, CBS_is_valid_asn1_integer body = Some neg.
Proof.
  intros Hv body. unfold body, asn1_int64_body. destruct (Z.leb_spec 0 v).
  - assert (in_word 64 v) as Hw by (unfold in_word; pow2; lia).
    destruct (asn1_uint64_body_spec v Hw) as (Hb & Hbv & Hl).
    assert (CBS_is_unsigned_asn1_integer (asn1_uint64_body v) = true) as Hu
      by (apply CBS_is_unsigned_asn1_integer_true; rewrite ?Hbv; [done|apply Hw|done]).
    destruct (asn1_uint64_body v) as [|b k] eqn:E; [done|].
    assert (b < 128) as Hb128.
    { revert E. unfold asn1_uint64_body. destruct (strip_zeros _) as [|c l]; [by intros [= <- <-]|].
      destruct (Z.leb_spec 128 c); by intros [= <- <-]. }
    assert (blen (b :: k) <= 8) as Hl8.
    { rewrite blen_cons in *. destruct (Z.le_gt_cases (1 + blen k) 8); [done|]. exfalso.
      assert (blen k = 8) as Hk by lia. revert E. unfold asn1_uint64_body.
      destruct (strip_zeros (be_bytes 8 v)) as [|c l] eqn:Es; [intros [= <- <-]; done|].
      pose proof (length_strip (be_bytes 8 v)) as Hs. rewrite Es, length_be_bytes in Hs. destruct (Z.leb_spec 128 c); intros [= <- <-].
      - pose proof (be_val_bound l) as Hbl. pose proof (be_val_strip (be_bytes 8 v)) as Hvs.
        rewrite Es, be_val_be_bytes, Z.mod_small, be_val_cons in Hvs by apply Hw.
        apply Forall_cons in Hb as [_ [_ ?]%Forall_cons]. specialize (Hbl ltac:(done)).
        rewrite blen_cons in Hk. replace (blen l) with 7 in * by lia.
        change (256 ^ 7) with 72057594037927936 in *. pow2. lia.
      - simpl in Hs. unfold blen in Hk. lia. }
    split_and!; [done|done| |exists false; by apply CBS_is_valid_asn1_integer_nonneg].
    unfold be_sval. by rewrite (proj2 (Z.ltb_lt b 128)).
  - set (w := u64 v). assert (w = v + 2 ^ 64) as Hw.
    { unfold w, wrap. symmetry. apply Z.mod_unique with (-1); [left|]; pow2; lia. }
    assert (be_val (be_bytes 8 w) = w) as Hbv
      by (rewrite be_val_be_bytes; apply Z.mod_small; change (256 ^ Z.of_nat 8) with (2 ^ 64); pow2; lia).
    pose proof (bytes_be_bytes 8 w) as Hb. pose proof (length_be_bytes 8 w) as Hl.
    destruct (be_bytes 8 w) as [|b k]; [done|].
    assert (128 <= b) as Hb128.
    { rewrite be_val_cons in Hbv. apply Forall_cons in Hb as [_ Hk%be_val_bound].
      replace (blen k) with 7 in * by (unfold blen; simpl in Hl; lia).
      change (256 ^ 7) with 72057594037927936 in *. pow2. lia. }
    destruct (strip_ff_spec (b :: k)) as (Hsb & Hsn & Hsv & Hss); [done|by exists b, k|].
    pose proof (strip_ff_length (b :: k)). split_and!; [done|unfold blen; lia| |].
    + rewrite Hsv. unfold be_sval. rewrite (proj2 (Z.ltb_ge b 128)), Hbv by done.
      unfold blen. rewrite Hl. change (256 ^ Z.of_nat 8) with (2 ^ 64). lia.
    + exists true. by apply CBS_is_valid_asn1_integer_neg.
Qed.

Lemma CBS_get_asn1_int64_Some s v r :
  bytes s ->
  CBS_get_asn1_int64 s = (Some v, r) <->
  - 2 ^ 63 <= v < 2 ^ 63 /\ s = asn1_bytes CBS_ASN1_INTEGER (asn1_int64_body v) ++ r.
Proof.
  intros Hs. unfold CBS_get_asn1_int64, CBS_data, CBS_len. split.
  - intros H. apply bind_Some in H as (a & s1 & E & H).
    pose proof E as (_ & Hl & ->)%CBS_get_asn1_Some; [|done].
    apply bytes_app in Hs as [Hb%bytes_asn1_bytes Hr].
    apply bind_Some in H as (neg & s2 & Hn & H). injection Hn as Hn <-.
    rewrite massert_bind in H. destruct (Z.ltb_spec 8 (blen a)); [done|].
    apply ret_Some in H as [<- <-]. rewrite int64_union by done.
    destruct (asn1_int64_body_canonical a neg) as (Hl1 & Hm & Hc); [done|done|done|].
    destruct (be_sval_int64 a neg) as [-> Hrange]; [done|done|by destruct a|].
    split; [done|]. by rewrite <-Hc.
  - intros [Hv ->]. destruct (asn1_int64_body_spec v Hv) as (Hb & Hl & Hsv & neg & Hn).
    apply bytes_app in Hs as [_ Hr].
    erewrite bind_ok; [|apply CBS_get_asn1_bytes; [done|done|done|pow2; lia]].
    erewrite bind_ok; [|unfold lift_option; by rewrite Hn].
    rewrite massert_bind, (proj2 (Z.ltb_ge 8 _)) by done.
    destruct (asn1_int64_body_canonical _ neg Hb Hl Hn) as (Hl1 & Hm & _).
    unfold mret, M_ret. rewrite int64_union by done.
    destruct (be_sval_int64 (asn1_int64_body v) neg) as [-> _]; [done|done|by destruct (asn1_int64_body v)|].
    by rewrite Hsv.
Qed.
