(* ===== verification/Cbb.v ===== *)
(** crypto/bytestring/cbb.c: the [CBB] writer.

    All [CBB] objects of one tree (a top-level [CBB] and its pending children)
    write to one [cbb_buffer_st] and point at each other, so the model keeps
    the store: a heap holds the shared buffer and the [CBB] structs by
    address. [cbb->base] is either NULL or the shared buffer, [cbb->child] is
    an address. A struct that lives on the C stack of a function of the source
    is given the next unused address. Functions run in the error-state monad
    over the heap; the [error] flag and everything a failing call has written
    stay in the heap. *)

From S2P Require Import Prelude CryptoInternal Cbs.

Abbreviation loc := nat.

Record cbb_buffer_st := Buffer {
  buf : list Z;         (* all [cap] bytes of the block, initialised or not *)
  len : Z;
  cap : Z;
  can_resize : bool;
  error : bool
}.

Record cbb_st := Cbb {
  base : bool;          (* [cbb->base != NULL] *)
  child : option loc;
  offset : Z;
  pending_len_len : Z;
  pending_is_asn1 : bool;
  is_child : bool
}.

Record heap := Heap {
  buffer : option cbb_buffer_st;   (* [None] before init and after free *)
  cbbs : gmap loc cbb_st;
  next_loc : loc
}.

Definition set_buf (x : list Z) (b : cbb_buffer_st) : cbb_buffer_st :=
  Buffer x (len b) (cap b) (can_resize b) (error b).
Definition set_len (n : Z) (b : cbb_buffer_st) : cbb_buffer_st :=
  Buffer (buf b) n (cap b) (can_resize b) (error b).
Definition set_error (b : cbb_buffer_st) : cbb_buffer_st :=
  Buffer (buf b) (len b) (cap b) (can_resize b) true.

Definition set_base_null (c : cbb_st) : cbb_st :=
  Cbb false (child c) (offset c) (pending_len_len c) (pending_is_asn1 c) (is_child c).
Definition set_child (x : option loc) (c : cbb_st) : cbb_st :=
  Cbb (base c) x (offset c) (pending_len_len c) (pending_is_asn1 c) (is_child c).

Definition set_buffer (b : option cbb_buffer_st) (h : heap) : heap :=
  Heap b (cbbs h) (next_loc h).
Definition set_cbb (p : loc) (c : cbb_st) (h : heap) : heap :=
  Heap (buffer h) (<[p := c]> (cbbs h)) (next_loc h).

(** * Access to the heap *)

Definition get_cbb (p : loc) : M heap cbb_st := fun h => (cbbs h !! p, h).
Definition put_cbb (p : loc) (c : cbb_st) : M heap unit := fun h => (Some tt, set_cbb p c h).
Definition new_cbb : M heap loc := fun h =>
  (Some (next_loc h), Heap (buffer h) (cbbs h) (S (next_loc h))).

Definition get_buffer : M heap cbb_buffer_st := fun h => (buffer h, h).

(** Run an operation on the shared buffer; its effect is kept on failure. *)
Definition on_buffer {A} (m : M cbb_buffer_st A) : M heap A := fun h =>
  match buffer h with
  | None => (None, h)
  | Some b => let '(r, b) := m b in (r, set_buffer (Some b) h)
  end.

(** The result of a call as a truth value, for a C condition. *)
Definition mtry {S} (m : M S unit) : M S bool := fun s =>
  match m s with
  | (Some _, s) => (Some true, s)
  | (None, s) => (Some false, s)
  end.

(** * The shared buffer *)

Section Cbb.
Context {m : Malloc}.

Definition cbb_buffer_err {A} : M cbb_buffer_st A := fun b => (None, set_error b).

(** The result is the offset [base->len] of the reserved space. *)
Definition cbb_buffer_reserve (n : Z) : M cbb_buffer_st Z := fun b =>
  let newlen := u64 (len b + n) in
  if newlen <? len b then cbb_buffer_err b
  else if cap b <? newlen then
    let newcap := u64 (cap b * 2) in
    if negb (can_resize b) then cbb_buffer_err b
    else
      let newcap := if (newcap <? cap b) || (newcap <? newlen) then newlen else newcap in
      match OPENSSL_realloc (Some (buf b)) newcap with
      | None => cbb_buffer_err b
      | Some newbuf =>
          (Some (len b), Buffer newbuf (len b) newcap (can_resize b) (error b))
      end
  else (Some (len b), b).

Definition cbb_buffer_add (n : Z) : M cbb_buffer_st Z :=
  out ← cbb_buffer_reserve n;
  _ ← mmodify (fun b => set_len (u64 (len b + n)) b);
  mret out.

(** The store loops [for (i = n - 1; i < n; i--) { buf[off + i] = v; v >>= 8; }]:
    the memory after the loop and what is left of [v]. *)
Fixpoint store_u (n : nat) (off v : Z) (mem : list Z) : list Z * Z :=
  match n with
  | O => (mem, v)
  | S i => store_u i off (Z.shiftr v 8) (write_at (off + Z.of_nat i) [u8 v] mem)
  end.

Definition cbb_buffer_add_u (v len_len : Z) : M cbb_buffer_st unit :=
  if len_len =? 0 then mret tt
  else
    out ← cbb_buffer_add len_len;
    b ← mget;
    let '(mem, v) := store_u (Z.to_nat len_len) out v (buf b) in
    _ ← mput (set_buf mem b);
    if negb (v =? 0) then cbb_buffer_err else mret tt.

(** * Flushing pending length prefixes *)

(** Length of the length octets and the first of them, for a DER length. *)
Definition asn1_len_len (n : Z) : Z * Z :=
  if 0xffffff <? n then (5, Z.lor 0x80 4)
  else if 0xffff <? n then (4, Z.lor 0x80 3)
  else if 0xff <? n then (3, Z.lor 0x80 2)
  else if 0x7f <? n then (2, Z.lor 0x80 1)
  else (1, u8 n).

Definition flush_err : M heap unit :=
  _ ← on_buffer (mmodify set_error); mfail.

(** The [pending_is_asn1] branch of [CBB_flush]: make room for the length
    octets, store the first; the result is what is left to store as [len]. *)
Definition flush_asn1 (c : loc) (child_start n : Z) : M heap Z :=
  if 0xfffffffe <? n then mfail
  else
    let '(len_len, initial_length_byte) := asn1_len_len n in
    let n := if len_len =? 1 then 0 else n in
    _ ← (if negb (len_len =? 1) then
           let extra_bytes := len_len - 1 in
           _ ← on_buffer (cbb_buffer_add extra_bytes);
           on_buffer (mmodify (fun b =>
             set_buf (write_at (child_start + extra_bytes)
               (take (Z.to_nat n) (drop (Z.to_nat child_start) (buf b))) (buf b)) b))
         else mret tt);
    ch ← get_cbb c;
    _ ← on_buffer (mmodify (fun b =>
          set_buf (write_at (offset ch) [initial_length_byte] (buf b)) b));
    _ ← put_cbb c (Cbb (base ch) (child ch) (u64 (offset ch + 1)) (len_len - 1)
                     (pending_is_asn1 ch) (is_child ch));
    mret n.

(** Write the length [n] of the contents of [c] into its prefix. *)
Definition flush_write_len (c : loc) (child_start n : Z) : M heap unit :=
  ch ← get_cbb c;
  n ← (if pending_is_asn1 ch then flush_asn1 c child_start n else mret n);
  ch ← get_cbb c;
  b ← get_buffer;
  let '(mem, n) := store_u (Z.to_nat (pending_len_len ch)) (offset ch) n (buf b) in
  _ ← on_buffer (mmodify (set_buf mem));
  massert (n =? 0).

(** [fuel] bounds the length of the chain of [child] pointers. *)
Fixpoint cbb_flush (fuel : nat) (p : loc) : M heap unit :=
  match fuel with
  | O => mfail
  | S fuel =>
      cbb ← get_cbb p;
      _ ← massert (base cbb);
      b ← get_buffer;
      _ ← massert (negb (error b));
      match child cbb with
      | None => mret tt
      | Some c =>
          ch ← get_cbb c;
          if pending_len_len ch =? 0 then mret tt
          else
            let child_start := u64 (offset ch + pending_len_len ch) in
            ok ← mtry (cbb_flush fuel c);
            if negb ok then flush_err
            else
              ch ← get_cbb c;
              b ← get_buffer;
              if (child_start <? offset ch) || (len b <? child_start) then flush_err
              else
                let n := len b - child_start in
                ok ← mtry (flush_write_len c child_start n);
                if negb ok then flush_err
                else
                  ch ← get_cbb c;
                  _ ← put_cbb c (set_base_null ch);
                  cbb ← get_cbb p;
                  put_cbb p (set_child None cbb)
      end
  end.

(** A chain of distinct structs is no longer than the heap. *)
Definition CBB_flush (p : loc) : M heap unit := fun h =>
  cbb_flush (S (size (cbbs h))) p h.

(** * Life cycle *)

Definition CBB_zero (p : loc) : M heap unit :=
  put_cbb p (Cbb false None 0 0 false false).

Definition cbb_init (p : loc) (mem : list Z) (capacity : Z) : M heap unit :=
  _ ← mmodify (set_buffer (Some (Buffer mem 0 capacity true false)));
  cbb ← get_cbb p;
  put_cbb p (Cbb true (child cbb) (offset cbb) (pending_len_len cbb)
               (pending_is_asn1 cbb) false).

(** The allocation of the [cbb_buffer_st] itself is a request for
    [sizeof(struct cbb_buffer_st)], 32 bytes. *)
Definition CBB_init (p : loc) (initial_capacity : Z) : M heap unit :=
  _ ← CBB_zero p;
  let mem := OPENSSL_malloc initial_capacity in
  _ ← massert (negb ((0 <? initial_capacity) && bool_decide (mem = None)));
  _ ← massert (bool_decide (is_Some (OPENSSL_malloc 32)));
  cbb_init p (default [] mem) initial_capacity.

Definition CBB_init_fixed (p : loc) (mem : list Z) : M heap unit :=
  _ ← CBB_zero p;
  _ ← massert (bool_decide (is_Some (OPENSSL_malloc 32)));
  _ ← cbb_init p mem (blen mem);
  on_buffer (mmodify (fun b => Buffer (buf b) (len b) (cap b) false (error b))).

Definition CBB_cleanup (p : loc) : M heap unit :=
  cbb ← get_cbb p;
  if is_child cbb then mret tt
  else
    _ ← (if base cbb then mmodify (set_buffer None) else mret tt);
    put_cbb p (set_base_null cbb).

(** The buffer and the length handed to the caller. [out_null] tells whether
    one of the two output pointers is NULL. *)
Definition CBB_finish (p : loc) (out_null : bool) : M heap (list Z * Z) :=
  cbb ← get_cbb p;
  _ ← massert (negb (is_child cbb));
  _ ← CBB_flush p;
  b ← get_buffer;
  _ ← massert (negb (can_resize b && out_null));
  let out := (buf b, len b) in
  _ ← on_buffer (mmodify (set_buf []));
  _ ← CBB_cleanup p;
  mret out.

(** The offset [CBB_data] points at, and the number of bytes there. *)
Definition CBB_data (p : loc) : M heap Z :=
  cbb ← get_cbb p; mret (offset cbb + pending_len_len cbb).

Definition CBB_len (p : loc) : M heap Z :=
  cbb ← get_cbb p;
  b ← get_buffer;
  mret (len b - offset cbb - pending_len_len cbb).

(** * Appending *)

(** The [base == NULL] test of [cbb_buffer_reserve]. *)
Definition with_base {A} (p : loc) (o : M cbb_buffer_st A) : M heap A :=
  cbb ← get_cbb p;
  _ ← massert (base cbb);
  on_buffer o.

Definition base_len (p : loc) : M heap Z :=
  cbb ← get_cbb p;
  _ ← massert (base cbb);
  b ← get_buffer;
  mret (len b).

(** Initialise the child [out_contents] of [p] and link it. *)
Definition link_child (p out_contents : loc) (off len_len : Z) (is_asn1 : bool) : M heap unit :=
  cbb ← get_cbb p;
  _ ← put_cbb out_contents (Cbb (base cbb) None off len_len is_asn1 true);
  cbb ← get_cbb p;
  put_cbb p (set_child (Some out_contents) cbb).

Definition cbb_add_length_prefixed (p out_contents : loc) (len_len : Z) : M heap unit :=
  _ ← CBB_flush p;
  off ← base_len p;
  prefix_bytes ← with_base p (cbb_buffer_add len_len);
  _ ← on_buffer (mmodify (fun b =>
        set_buf (write_at prefix_bytes (replicate (Z.to_nat len_len) 0) (buf b)) b));
  link_child p out_contents off len_len false.

Definition CBB_add_u8_length_prefixed (p out_contents : loc) : M heap unit :=
  cbb_add_length_prefixed p out_contents 1.
Definition CBB_add_u16_length_prefixed (p out_contents : loc) : M heap unit :=
  cbb_add_length_prefixed p out_contents 2.
Definition CBB_add_u24_length_prefixed (p out_contents : loc) : M heap unit :=
  cbb_add_length_prefixed p out_contents 3.

(** [CBB_add_u8], [CBB_add_u16], ...: flush, then append [n] big-endian
    bytes. *)
Definition cbb_add_u (p : loc) (value n : Z) : M heap unit :=
  _ ← CBB_flush p;
  with_base p (cbb_buffer_add_u value n).

Definition CBB_add_u8 (p : loc) (value : Z) : M heap unit := cbb_add_u p value 1.
Definition CBB_add_u16 (p : loc) (value : Z) : M heap unit := cbb_add_u p value 2.
Definition CBB_add_u16le (p : loc) (value : Z) : M heap unit :=
  CBB_add_u16 p (CRYPTO_bswap2 value).
Definition CBB_add_u24 (p : loc) (value : Z) : M heap unit := cbb_add_u p value 3.
Definition CBB_add_u32 (p : loc) (value : Z) : M heap unit := cbb_add_u p value 4.
Definition CBB_add_u32le (p : loc) (value : Z) : M heap unit :=
  CBB_add_u32 p (CRYPTO_bswap4 value).
Definition CBB_add_u64 (p : loc) (value : Z) : M heap unit := cbb_add_u p value 8.
Definition CBB_add_u64le (p : loc) (value : Z) : M heap unit :=
  CBB_add_u64 p (CRYPTO_bswap8 value).

Definition CBB_add_bytes (p : loc) (data : list Z) : M heap unit :=
  _ ← CBB_flush p;
  dest ← with_base p (cbb_buffer_add (blen data));
  on_buffer (mmodify (fun b => set_buf (write_at dest data (buf b)) b)).

(** The offset of the appended space. *)
Definition CBB_add_space (p : loc) (n : Z) : M heap Z :=
  _ ← CBB_flush p;
  with_base p (cbb_buffer_add n).

Definition CBB_add_zeros (p : loc) (n : Z) : M heap unit :=
  out ← CBB_add_space p n;
  on_buffer (mmodify (fun b =>
    set_buf (write_at out (replicate (Z.to_nat n) 0) (buf b)) b)).

Definition CBB_reserve (p : loc) (n : Z) : M heap Z :=
  _ ← CBB_flush p;
  with_base p (cbb_buffer_reserve n).

Definition CBB_did_write (p : loc) (n : Z) : M heap unit :=
  cbb ← get_cbb p;
  b ← get_buffer;
  let newlen := u64 (len b + n) in
  _ ← massert (negb (negb (bool_decide (child cbb = None)) ||
                     (newlen <? len b) || (cap b <? newlen)));
  on_buffer (mmodify (set_len newlen)).

Definition CBB_discard_child (p : loc) : M heap unit :=
  cbb ← get_cbb p;
  match child cbb with
  | None => mret tt
  | Some c =>
      ch ← get_cbb c;
      _ ← on_buffer (mmodify (set_len (offset ch)));
      _ ← put_cbb c (set_base_null ch);
      put_cbb p (set_child None cbb)
  end.

(** * ASN.1 *)

Fixpoint mfor {A} (l : list A) (f : A -> M heap unit) : M heap unit :=
  match l with
  | [] => mret tt
  | x :: l => _ ← f x; mfor l f
  end.

(** [for (i = len_len - 1; i < len_len; i--)]. *)
Definition add_base128_integer (p : loc) (v : Z) : M heap unit :=
  mfor (rev (seq 0 (base128_len v))) (fun i => CBB_add_u8 p (base128_byte v i)).

Definition CBB_add_asn1 (p out_contents : loc) (tag : Z) : M heap unit :=
  _ ← CBB_flush p;
  let tag_bits := Z.land (u8 (Z.shiftr tag CBS_ASN1_TAG_SHIFT)) 0xe0 in
  let tag_number := Z.land tag CBS_ASN1_TAG_NUMBER_MASK in
  _ ← (if 0x1f <=? tag_number then
         _ ← CBB_add_u8 p (u8 (Z.lor tag_bits 0x1f));
         add_base128_integer p tag_number
       else CBB_add_u8 p (u8 (Z.lor tag_bits tag_number)));
  off ← base_len p;
  _ ← CBB_add_u8 p 0;
  link_child p out_contents off 1 true.

(** The loop over the eight bytes of [value], most significant first;
    [started] tells whether a byte has been written. *)
Fixpoint asn1_uint64_bytes (child : loc) (started : bool) (l : list Z) : M heap bool :=
  match l with
  | [] => mret started
  | byte :: l =>
      if negb started && (byte =? 0) then asn1_uint64_bytes child started l
      else
        _ ← (if negb started && negb (Z.land byte 0x80 =? 0) then CBB_add_u8 child 0
             else mret tt);
        _ ← CBB_add_u8 child byte;
        asn1_uint64_bytes child true l
  end.

Definition CBB_add_asn1_uint64 (p : loc) (value : Z) : M heap unit :=
  child ← new_cbb;
  _ ← CBB_add_asn1 p child CBS_ASN1_INTEGER;
  started ← asn1_uint64_bytes child false
    (map (fun i => Z.land (Z.shiftr value (8 * (7 - i))) 0xff) (seqZ 0 8));
  _ ← (if negb started : bool then CBB_add_u8 child 0 else mret tt);
  CBB_flush p.

(** [start]: index of the first byte to write, in memory order [u]. *)
Fixpoint int64_start (u : list Z) (start : nat) : nat :=
  match start with
  | O => O
  | S start' =>
      if (nth start u 0 =? 0xff) && negb (Z.land (nth start' u 0) 0x80 =? 0)
      then int64_start u start' else start
  end.

Definition CBB_add_asn1_int64 (p : loc) (value : Z) : M heap unit :=
  if 0 <=? value then CBB_add_asn1_uint64 p value
  else
    let u := le_bytes 8 (u64 value) in
    let start := int64_start u 7 in
    child ← new_cbb;
    _ ← CBB_add_asn1 p child CBS_ASN1_INTEGER;
    _ ← mfor (rev (seq 0 (S start))) (fun i => CBB_add_u8 child (nth i u 0));
    CBB_flush p.

Definition CBB_add_asn1_octet_string (p : loc) (data : list Z) : M heap unit :=
  child ← new_cbb;
  _ ← CBB_add_asn1 p child CBS_ASN1_OCTETSTRING;
  _ ← CBB_add_bytes child data;
  CBB_flush p.

Definition CBB_add_asn1_bool (p : loc) (value : Z) : M heap unit :=
  child ← new_cbb;
  _ ← CBB_add_asn1 p child CBS_ASN1_BOOLEAN;
  _ ← CBB_add_u8 child (if negb (value =? 0) then 0xff else 0);
  CBB_flush p.
End Cbb.

(** * The buffer invariant *)

Definition contents (b : cbb_buffer_st) : list Z := take (Z.to_nat (len b)) (buf b).

(** [buf] has [cap] bytes, of which the first [len] are in use. *)
Definition buffer_ok (b : cbb_buffer_st) : Prop :=
  blen (buf b) = cap b /\ 0 <= len b <= cap b /\ cap b < 2 ^ 64.

(** The buffer can be made to hold [n] bytes. *)
Definition room {m : Malloc} (b : cbb_buffer_st) (n : Z) : Prop :=
  n < 2 ^ 61 /\ (n <= cap b \/ (can_resize b = true /\ MallocTotal m)).

(** What an operation that only appends preserves. *)
Definition grows {m : Malloc} (b b' : cbb_buffer_st) : Prop :=
  buffer_ok b' /\ error b' = error b /\ can_resize b' = can_resize b /\
  forall n, room b n -> room b' n.

Lemma blen_contents b : buffer_ok b -> blen (contents b) = len b.
Proof. intros (? & ? & _). unfold contents. rewrite blen_take; lia. Qed.

Section Buffer.
Context {m : Malloc}.

Lemma room_le b n k : room b n -> k <= n -> room b k.
Proof. intros [? [?|?]] ?; split; (lia || (left; lia) || by right). Qed.

Lemma grows_refl b : buffer_ok b -> grows b b.
Proof. by intros. Qed.

Lemma grows_trans b c d : grows b c -> grows c d -> grows b d.
Proof. intros (?&?&?&?) (?&?&?&?). split_and!; [done|congruence|congruence|auto]. Qed.

Lemma cbb_buffer_reserve_ok b n :
  buffer_ok b -> 0 <= n -> room b (len b + n) ->
  exists b', cbb_buffer_reserve n b = (Some (len b), b') /\ grows b b' /\
    len b' = len b /\ contents b' = contents b /\ len b + n <= cap b'.
Proof.
  intros Hok Hn [Hlt Hroom]. pose proof Hok as (Hbuf & Hl & Hc).
  change (2 ^ 61) with 2305843009213693952 in Hlt.
  unfold cbb_buffer_reserve. rewrite (wrap_small 64 (len b + n)) by (unfold in_word; pow2; lia).
  rewrite (proj2 (Z.ltb_ge _ _)) by lia.
  destruct (Z.ltb_spec (cap b) (len b + n)) as [Hcap|Hcap];
    [|exists b; split_and!; auto using grows_refl].
  destruct Hroom as [?|[Hres Htot]]; [lia|]. rewrite Hres. cbn [negb].
  rewrite (wrap_small 64 (cap b * 2)) by (unfold in_word; pow2; lia).
  set (newcap := if (_ || _)%bool then _ else _).
  assert (len b + n <= newcap < 2 ^ 62) as Hnew.
  { change (2 ^ 62) with 4611686018427387904. unfold newcap.
    destruct (Z.ltb_spec (cap b * 2) (cap b)), (Z.ltb_spec (cap b * 2) (len b + n)); simpl; lia. }
  assert (exists nb, OPENSSL_realloc (Some (buf b)) newcap = Some nb) as [nb Hnb].
  { simpl. destruct (OPENSSL_malloc_total newcap) as (? & -> & _); [lia|]. simpl. eauto. }
  rewrite Hnb. apply OPENSSL_realloc_Some in Hnb as [Hnl Hnt]; [|lia].
  assert (newcap < 2 ^ 64) by (apply Z.lt_trans with (2 ^ 62); [lia|done]).
  eexists. split; [done|]. split_and!; [|done| |cbn; lia].
  - unfold grows, buffer_ok. cbn. split_and!; try done; try lia.
    intros k [? Hk]. split; [done|]. cbn. destruct Hk as [Hk|Hk]; [|right; naive_solver].
    left. unfold newcap. destruct (Z.ltb_spec (cap b * 2) (cap b)), (Z.ltb_spec (cap b * 2) (len b + n)); simpl; lia.
  - unfold contents. cbn. apply Hnt; lia.
Qed.

Lemma cbb_buffer_add_ok b n :
  buffer_ok b -> 0 <= n -> room b (len b + n) ->
  exists b', cbb_buffer_add n b = (Some (len b), b') /\ grows b b' /\
    len b' = len b + n /\ take (Z.to_nat (len b)) (buf b') = contents b.
Proof.
  intros Hok Hn Hroom. destruct (cbb_buffer_reserve_ok b n) as (b' & Hr & Hg & Hl & Hc & Hcap); [done..|].
  unfold cbb_buffer_add. rewrite (bind_ok _ _ _ _ _ Hr). unfold mbind, M_bind, mmodify, mret, M_ret.
  destruct Hroom as [Hlt _]. destruct Hok as (_ & ? & _). destruct Hg as ((? & ? & ?) & He & Hcr & Hro).
  change (2 ^ 61) with 2305843009213693952 in Hlt.
  rewrite Hl, wrap_small by (unfold in_word; pow2; lia).
  eexists. split; [done|]. split_and!; [|done|].
  - unfold grows, buffer_ok. cbn. split_and!; done || lia.
  - cbn. unfold contents in Hc. by rewrite Hl in Hc.
Qed.

Lemma store_u_spec n off v mem :
  0 <= off -> off + Z.of_nat n <= blen mem ->
  store_u n off v mem = (write_at off (be_bytes n v) mem, v / 256 ^ Z.of_nat n).
Proof.
  revert v mem. induction n as [|n IH]; intros v mem Ho Hl; cbn [store_u be_bytes].
  - rewrite Z.div_1_r. f_equal. unfold write_at. rewrite blen_nil, Z.add_0_r. cbn [app].
    by rewrite take_drop.
  - rewrite Nat2Z.inj_succ in *. assert (blen (write_at (off + Z.of_nat n) [u8 v] mem) = blen mem) as Hw
      by (apply blen_write_at; rewrite ?blen_singleton; lia).
    rewrite IH by lia. rewrite Z.shiftr_div_pow2 by lia. change (2 ^ 8) with 256.
    rewrite Z.div_div, <-Z.pow_succ_r by (try apply Z.pow_pos_nonneg; lia). f_equal.
    set (d := be_bytes n (v / 256)). assert (blen d = Z.of_nat n) as Hd by apply blen_be_bytes.
    unfold write_at. rewrite Hd, blen_app, blen_singleton, Hd, blen_singleton.
    assert (blen (take (Z.to_nat (off + Z.of_nat n)) mem) = off + Z.of_nat n) as Ht by (apply blen_take; lia).
    rewrite take_app_le by (unfold blen in Ht; lia).
    rewrite take_take, Nat.min_l by lia. rewrite <-!app_assoc. do 2 f_equal.
    rewrite <-Ht at 1. rewrite drop_blen_app. cbn [app].
    replace (off + Z.of_nat n + 1) with (off + (Z.of_nat n + 1)) by lia.
    replace (u8 v) with (v mod 256) by done. done.
Qed.
End Buffer.

(** * The abstract builder

    The state of a tree of [CBB]s is the stack of its open frames, the
    top-level one first: the address of the struct, the pending length prefix
    and the bytes written after it. *)

Inductive kind := KRoot | KLen (n : nat) | KAsn1.

Definition klen (k : kind) : Z :=
  match k with KRoot => 0 | KLen n => Z.of_nat n | KAsn1 => 1 end.
Definition kind_asn1 (k : kind) : bool := match k with KAsn1 => true | _ => false end.
Definition kind_child (k : kind) : bool := match k with KRoot => false | _ => true end.

(** A pending prefix has between one and eight bytes. *)
Definition kind_pending (k : kind) : Prop :=
  match k with KRoot => False | KLen n => (1 <= n <= 8)%nat | KAsn1 => True end.

Definition frame : Type := loc * kind * list Z.

Definition frame_loc (f : frame) : loc := f.1.1.

(** The bytes of one frame with its prefix written out; [None] when the
    contents are too long for the prefix. *)
Definition close (k : kind) (body : list Z) : option (list Z) :=
  match k with
  | KRoot => Some body
  | KLen n =>
      if blen body <? 256 ^ Z.of_nat n then Some (be_bytes n (blen body) ++ body) else None
  | KAsn1 =>
      if blen body <=? 0xfffffffe then Some (asn1_len_bytes (blen body) ++ body) else None
  end.

(** Close the frames of a stack, innermost first. *)
Fixpoint collapse (st : list frame) : option (list Z) :=
  match st with
  | [] => Some []
  | (_, k, bs) :: st => inner ← collapse st; close k (bs ++ inner)
  end.

(** The buffer contents: prefixes are still zero. *)
Fixpoint flat (st : list frame) : list Z :=
  match st with
  | [] => []
  | (_, k, bs) :: st => replicate (Z.to_nat (klen k)) 0 ++ bs ++ flat st
  end.

(** The structs of a stack that starts at offset [pos]: each one points at the
    next. *)
Fixpoint frames_ok (cs : gmap loc cbb_st) (pos : Z) (st : list frame) : Prop :=
  match st with
  | [] => True
  | (p, k, bs) :: st =>
      cs !! p = Some (Cbb true (frame_loc <$> head st) pos (klen k) (kind_asn1 k) (kind_child k)) /\
      match st with [] => True | (_, k', _) :: _ => kind_pending k' end /\
      frames_ok cs (pos + klen k + blen bs) st
  end.

Lemma klen_nonneg k : 0 <= klen k.
Proof. destruct k; simpl; lia. Qed.

(** Closing a frame never loses bytes. *)
Lemma close_blen k body out : close k body = Some out -> klen k + blen body <= blen out.
Proof.
  destruct k; simpl; [naive_solver lia|..]; case_match; intros [= <-]; rewrite blen_app.
  - rewrite blen_be_bytes. lia.
  - pose proof (blen_asn1_len_bytes (blen body)). lia.
Qed.

Lemma buf_contents b : buf b = contents b ++ drop (Z.to_nat (len b)) (buf b).
Proof. unfold contents. by rewrite take_drop. Qed.

Lemma contents_app b x y : buf b = x ++ y -> blen x = len b -> contents b = x.
Proof. intros Hb Hx. unfold contents. by rewrite Hb, <-Hx, take_blen_app. Qed.

(** A store inside the bytes in use. *)
Lemma buffer_write b pre mid post bs :
  buffer_ok b -> contents b = pre ++ mid ++ post -> blen mid = blen bs ->
  let b' := set_buf (write_at (blen pre) bs (buf b)) b in
  buffer_ok b' /\ contents b' = pre ++ bs ++ post.
Proof.
  intros Hok Hc Hm b'. pose proof (blen_contents b Hok) as Hl. destruct Hok as (Hb & ? & ?).
  rewrite Hc, !blen_app in Hl.
  assert (buf b' = (pre ++ bs ++ post) ++ drop (Z.to_nat (len b)) (buf b)) as Hb'.
  { simpl. rewrite (buf_contents b) at 1. rewrite Hc, <-!app_assoc. by apply write_at_app. }
  pose proof (blen_nonneg pre). pose proof (blen_nonneg post). pose proof (blen_nonneg bs). split.
  - unfold buffer_ok. cbn. rewrite blen_write_at; [done|lia|lia].
  - apply (contents_app _ _ _ Hb'). cbn. rewrite !blen_app. lia.
Qed.

Section Flush.
Context {m : Malloc}.

Lemma grows_set_buf b x : buffer_ok (set_buf x b) -> grows b (set_buf x b).
Proof. by intros. Qed.

Lemma grows_write b pre mid post bs :
  buffer_ok b -> contents b = pre ++ mid ++ post -> blen mid = blen bs ->
  let b' := set_buf (write_at (blen pre) bs (buf b)) b in
  grows b b' /\ contents b' = pre ++ bs ++ post.
Proof. intros Hok Hc Hm b'. destruct (buffer_write b pre mid post bs Hok Hc Hm). by split; [apply grows_set_buf|]. Qed.

Lemma on_buffer_bind {A B} (o : M cbb_buffer_st A) (k : A -> M heap B) h b :
  buffer h = Some b ->
  (on_buffer o ≫= k) h =
  match o b with
  | (Some a, b') => k a (set_buffer (Some b') h)
  | (None, b') => (None, set_buffer (Some b') h)
  end.
Proof. intros Hb. unfold mbind, M_bind, on_buffer. rewrite Hb. by destruct (o b) as [[?|] ?]. Qed.

Lemma get_cbb_bind {B} p (k : cbb_st -> M heap B) h c :
  cbbs h !! p = Some c -> (get_cbb p ≫= k) h = k c h.
Proof. intros Hc. unfold mbind, M_bind, get_cbb. by rewrite Hc. Qed.

Lemma get_buffer_bind {B} (k : cbb_buffer_st -> M heap B) h b :
  buffer h = Some b -> (get_buffer ≫= k) h = k b h.
Proof. intros Hc. unfold mbind, M_bind, get_buffer. by rewrite Hc. Qed.

Lemma put_cbb_bind {B} p c (k : unit -> M heap B) h :
  (put_cbb p c ≫= k) h = k tt (set_cbb p c h).
Proof. done. Qed.
End Flush.

Section FlushWrite.
Context {m : Malloc}.

Lemma store_u_write b pre mid post n v :
  buffer_ok b -> contents b = pre ++ mid ++ post -> blen mid = Z.of_nat n ->
  exists b', store_u n (blen pre) v (buf b) = (buf b', v / 256 ^ Z.of_nat n) /\
    b' = set_buf (buf b') b /\ grows b b' /\ contents b' = pre ++ be_bytes n v ++ post.
Proof.
  intros Hok Hc Hm. pose proof (blen_contents b Hok) as Hl. pose proof Hok as (Hb & ? & ?).
  rewrite Hc, !blen_app in Hl. pose proof (blen_nonneg pre). pose proof (blen_nonneg post).
  rewrite store_u_spec by lia.
  destruct (grows_write b pre mid post (be_bytes n v)) as [Hg Hc']; [done|done|by rewrite blen_be_bytes|].
  by eexists (set_buf _ b).
Qed.

(** The tail of [flush_write_len]: store the [n] length bytes. *)
Lemma flush_store_ok h b c cc pre mid post n v :
  buffer h = Some b -> buffer_ok b -> cbbs h !! c = Some cc ->
  offset cc = blen pre -> pending_len_len cc = Z.of_nat n ->
  contents b = pre ++ mid ++ post -> blen mid = Z.of_nat n -> 0 <= v < 256 ^ Z.of_nat n ->
  exists b', (ch ← get_cbb c;
    b ← get_buffer;
    let '(mem, n) := store_u (Z.to_nat (pending_len_len ch)) (offset ch) v (buf b) in
    _ ← on_buffer (mmodify (set_buf mem));
    massert (n =? 0)) h = (Some tt, set_buffer (Some b') h) /\
    grows b b' /\ contents b' = pre ++ be_bytes n v ++ post.
Proof.
  intros Hb Hok Hcc Ho Hp Hc Hm Hv.
  rewrite (get_cbb_bind _ _ _ _ Hcc), (get_buffer_bind _ _ _ Hb), Ho, Hp, Nat2Z.id.
  destruct (store_u_write b pre mid post n v) as (b' & -> & He & Hg & Hc'); [done..|].
  rewrite (on_buffer_bind _ _ _ _ Hb). unfold mmodify. rewrite <-He.
  rewrite Z.div_small by done. by eexists.
Qed.

Lemma asn1_len_len_cases n :
  0 <= n <= 0xfffffffe ->
  (n < 128 /\ asn1_len_len n = (1, n) /\ asn1_len_bytes n = [n]) \/
  (exists k i : Z, asn1_len_len n = (k + 1, i) /\ 1 <= k <= 4 /\ n < 256 ^ k /\
     asn1_len_bytes n = i :: be_bytes (Z.to_nat k) n).
Proof.
  intros Hn. unfold asn1_len_len, asn1_len_bytes.
  destruct (Z.ltb_spec 0xffffff n); [right; exists 4, 0x84; split_and!; (done || lia)|].
  destruct (Z.ltb_spec 0xffff n); [right; exists 3, 0x83; split_and!; (done || lia)|].
  destruct (Z.ltb_spec 0xff n); [right; exists 2, 0x82; split_and!; (done || lia)|].
  destruct (Z.ltb_spec 0x7f n); [right; exists 1, 0x81; split_and!; (done || lia)|].
  left. split_and!; [lia| |done]. f_equal. apply wrap_small. unfold in_word. pow2. lia.
Qed.

(** Growing the buffer by [k] and moving the contents along. *)
Lemma buffer_make_gap b k pre body :
  buffer_ok b -> contents b = pre ++ [0] ++ body -> 0 <= k ->
  room b (blen pre + (1 + k) + blen body) ->
  exists b1 gap, cbb_buffer_add k b = (Some (len b), b1) /\
    let b2 := set_buf (write_at (blen pre + 1 + k)
      (take (Z.to_nat (blen body)) (drop (Z.to_nat (blen pre + 1)) (buf b1))) (buf b1)) b1 in
    grows b b2 /\ contents b2 = pre ++ [0] ++ gap ++ body /\ blen gap = k.
Proof.
  intros Hok Hc Hk Hroom. pose proof (blen_nonneg body). pose proof (blen_nonneg pre).
  pose proof (blen_contents b Hok) as Hl. rewrite Hc, !blen_app, blen_singleton in Hl.
  destruct (cbb_buffer_add_ok b k) as (b1 & Ha & Hg1 & Hl1 & Ht1); [done|lia|apply (room_le _ _ _ Hroom); lia|].
  pose proof (blen_contents b1 ltac:(apply Hg1)) as Hlc1.
  set (junk := drop (Z.to_nat (len b)) (contents b1)).
  assert (contents b1 = pre ++ [0] ++ body ++ junk) as Hc1.
  { rewrite <-(take_drop (Z.to_nat (len b)) (contents b1)). fold junk.
    replace (take (Z.to_nat (len b)) (contents b1)) with (contents b); [by rewrite Hc, <-!app_assoc|].
    rewrite <-Ht1. unfold contents at 1. rewrite take_take. f_equal. lia. }
  assert (blen junk = k) as Hj by (rewrite Hc1, !blen_app, blen_singleton in Hlc1; lia).
  assert (take (Z.to_nat (blen body)) (drop (Z.to_nat (blen pre + 1)) (buf b1)) = body) as Hbody.
  { rewrite (buf_contents b1), Hc1, <-!app_assoc, (app_assoc pre [0]).
    replace (blen pre + 1) with (blen (pre ++ [0])) by (by rewrite blen_app, blen_singleton).
    by rewrite drop_blen_app, take_blen_app. }
  set (gap := take (Z.to_nat k) (body ++ junk)).
  assert (blen gap = k) as Hgap by (apply blen_take; rewrite blen_app; lia).
  exists b1, gap. split; [done|]. rewrite Hbody. intros b2.
  destruct (grows_write b1 (pre ++ [0] ++ gap) (drop (Z.to_nat k) (body ++ junk)) [] body) as [Hg2 Hc2];
    [apply Hg1|unfold gap; by rewrite app_nil_r, <-!app_assoc, take_drop
    |rewrite blen_drop; rewrite blen_app; lia|].
  assert (blen (pre ++ [0] ++ gap) = blen pre + 1 + k) as He
    by (rewrite !blen_app, blen_singleton; lia).
  rewrite He in Hg2, Hc2.
  split_and!; [by eapply grows_trans|unfold b2; by rewrite Hc2, app_nil_r, <-!app_assoc|done].
Qed.

(** [flush_asn1] moves the contents and stores the first length octet; the
    gap for the other octets is left to [store_u]. *)
Lemma flush_asn1_ok h b c pre body :
  buffer h = Some b -> buffer_ok b ->
  cbbs h !! c = Some (Cbb true None (blen pre) 1 true true) ->
  contents b = pre ++ [0] ++ body -> blen body <= 0xfffffffe ->
  room b (blen pre + blen (asn1_len_bytes (blen body)) + blen body) ->
  exists b' (k i n : Z) gap,
    flush_asn1 c (blen pre + 1) (blen body) h =
      (Some n, Heap (Some b') (<[c := Cbb true None (blen pre + 1) k true true]> (cbbs h)) (next_loc h)) /\
    grows b b' /\ contents b' = (pre ++ [i]) ++ gap ++ body /\ blen gap = k /\ 0 <= k <= 4 /\
    0 <= n < 256 ^ k /\ i :: be_bytes (Z.to_nat k) n = asn1_len_bytes (blen body).
Proof.
  intros Hb Hok Hcc Hc Hlen Hroom. pose proof (blen_nonneg body). pose proof (blen_nonneg pre).
  assert (blen pre + 1 < 2 ^ 61) as Hpos.
  { destruct Hroom as [? _]. pose proof (blen_asn1_len_bytes (blen body)). lia. }
  assert (u64 (blen pre + 1) = blen pre + 1) as Hw
    by (apply wrap_small; change (2 ^ 61) with 2305843009213693952 in *; unfold in_word; pow2; lia).
  unfold flush_asn1. rewrite (proj2 (Z.ltb_ge _ _)) by lia.
  destruct (asn1_len_len_cases (blen body)) as [(Hs & -> & Hlb)|(k & i & -> & Hk & Hn & Hlb)]; [lia|..].
  - cbn [Z.eqb Pos.eqb negb]. rewrite bind_ret, (get_cbb_bind _ _ _ _ Hcc). cbn [offset].
    destruct (grows_write b pre [0] body [blen body]) as [Hg Hc']; [done|done|done|].
    rewrite (on_buffer_bind _ _ _ _ Hb). unfold mmodify. rewrite put_cbb_bind. cbn. rewrite Hw.
    eexists _, 0, (blen body), 0, []. split_and!; try done. by rewrite Hc', <-app_assoc.
  - rewrite (proj2 (Z.eqb_neq (k + 1) 1)) by lia. cbn [negb].
    replace (k + 1 - 1) with k by lia. rewrite Hlb, blen_cons, blen_be_bytes, Z2Nat.id in Hroom by lia.
    destruct (buffer_make_gap b k pre body) as (b1 & gap & Ha & Hg & Hc2 & Hgap); [done..|lia|done|].
    set (b2 := set_buf _ b1) in *.
    assert ((_ ← on_buffer (cbb_buffer_add k);
             on_buffer (mmodify (fun b => set_buf (write_at (blen pre + 1 + k)
               (take (Z.to_nat (blen body)) (drop (Z.to_nat (blen pre + 1)) (buf b))) (buf b)) b))) h
            = (Some tt, set_buffer (Some b2) h)) as Hmove.
    { rewrite (on_buffer_bind _ _ _ _ Hb), Ha. done. }
    rewrite (bind_ok _ _ _ _ _ Hmove), (get_cbb_bind c _ (set_buffer (Some b2) h) _ Hcc). cbn [offset].
    destruct (grows_write b2 pre [0] (gap ++ body) [i]) as [Hg3 Hc3]; [apply Hg|done|done|].
    rewrite (on_buffer_bind _ _ _ b2) by done. unfold mmodify. rewrite put_cbb_bind.
    cbn. rewrite Hw. eexists _, k, i, (blen body), gap.
    split_and!; try done; try lia; [exact (grows_trans _ _ _ Hg Hg3)|etrans; [exact Hc3|by rewrite <-app_assoc]].
Qed.
End FlushWrite.

Section FlushChain.
Context {m : Malloc}.

(** Writing the length of a closed frame turns its placeholder and contents
    into the bytes [close] describes. *)
Lemma flush_write_len_ok h b c pre k body out :
  buffer h = Some b -> buffer_ok b -> kind_pending k ->
  cbbs h !! c = Some (Cbb true None (blen pre) (klen k) (kind_asn1 k) true) ->
  contents b = pre ++ replicate (Z.to_nat (klen k)) 0 ++ body ->
  close k body = Some out -> room b (blen pre + blen out) ->
  exists b' c', flush_write_len c (blen pre + klen k) (blen body) h =
      (Some tt, Heap (Some b') (<[c := c']> (cbbs h)) (next_loc h)) /\
    grows b b' /\ contents b' = pre ++ out.
Proof.
  intros Hb Hok Hk Hcc Hc Hcl Hroom. unfold flush_write_len.
  rewrite (get_cbb_bind _ _ _ _ Hcc). destruct k as [|n|]; simpl in Hk, Hcl; [done|..].
  - destruct (Z.ltb_spec (blen body) (256 ^ Z.of_nat n)) as [Hn|]; [|done]. injection Hcl as <-.
    cbn [pending_is_asn1 kind_asn1]. rewrite bind_ret.
    destruct (flush_store_ok h b c _ pre (replicate (Z.to_nat (klen (KLen n))) 0) body n (blen body) Hb Hok Hcc)
      as (b' & -> & Hg & Hc'); [done|done|done|apply (blen_replicate (Z.of_nat n)); lia|pose proof (blen_nonneg body); lia|].
    eexists b', _. split; [|done]. unfold set_buffer. do 2 f_equal. symmetry. by apply insert_id.
  - destruct (Z.leb_spec (blen body) 0xfffffffe) as [Hn|]; [|done]. injection Hcl as <-.
    cbn [pending_is_asn1 kind_asn1]. rewrite blen_app, Z.add_assoc in Hroom.
    destruct (flush_asn1_ok h b c pre body) as (b1 & k & i & n & gap & Hf & Hg1 & Hc1 & Hgap & Hk4 & Hnk & Hlb); [done..|].
    rewrite (bind_ok _ _ _ _ _ Hf).
    destruct (flush_store_ok (Heap (Some b1) (<[c := Cbb true None (blen pre + 1) k true true]> (cbbs h)) (next_loc h))
      b1 c (Cbb true None (blen pre + 1) k true true) (pre ++ [i]) gap body (Z.to_nat k) n) as (b' & -> & Hg & Hc');
      rewrite ?Z2Nat.id by lia; try done; [apply Hg1|apply lookup_insert_eq|by rewrite blen_app|].
    eexists b', _. split_and!; [done|by eapply grows_trans|].
    rewrite Hc', <-Hlb. by rewrite <-!app_assoc.
Qed.

(** The locations of a stack. *)
Definition locs (st : list frame) : list loc := map frame_loc st.

(** [closed cs cs' p dead]: [cs'] is [cs] where the structs [dead] have lost
    their base and nothing outside [p] and [dead] has changed. *)
Definition closed (cs cs' : gmap loc cbb_st) (p : loc) (dead : list loc) : Prop :=
  (forall q, q ∈ dead -> exists c, cs' !! q = Some c /\ base c = false) /\
  (forall q, q ∉ dead -> q <> p -> cs' !! q = cs !! q) /\
  dom cs' = dom cs.

Lemma frames_ok_lookup cs pos f st :
  frames_ok cs pos (f :: st) ->
  cs !! frame_loc f = Some (Cbb true (frame_loc <$> head st) pos (klen f.1.2)
                              (kind_asn1 f.1.2) (kind_child f.1.2)).
Proof. destruct f as [[p k] bs]. simpl. naive_solver. Qed.

Lemma frames_ok_singleton cs p k bs pos :
  frames_ok cs pos [(p, k, bs)] <->
  cs !! p = Some (Cbb true None pos (klen k) (kind_asn1 k) (kind_child k)).
Proof. simpl. naive_solver. Qed.

(** The base case of [CBB_flush]: no child is pending. *)
Lemma cbb_flush_nil fuel p h b c :
  buffer h = Some b -> error b = false -> cbbs h !! p = Some c ->
  base c = true -> child c = None -> cbb_flush (S fuel) p h = (Some tt, h).
Proof.
  intros Hb He Hp Hbase Hch. cbn [cbb_flush].
  rewrite (get_cbb_bind _ _ _ _ Hp), massert_bind, Hbase, (get_buffer_bind _ _ _ Hb), massert_bind, He.
  cbn. by rewrite Hch.
Qed.

(** One level of [CBB_flush], the child's own flush being [h1]. *)
Lemma cbb_flush_cons fuel p h b cc q h1 b1 pos k len' :
  buffer h = Some b -> error b = false -> cbbs h !! p = Some cc -> base cc = true ->
  child cc = Some q ->
  (exists ch, cbbs h !! q = Some ch /\ pending_len_len ch = klen k /\ offset ch = pos) ->
  kind_pending k -> 0 <= pos -> pos + klen k <= len' -> len' < 2 ^ 61 ->
  cbb_flush fuel q h = (Some tt, h1) ->
  buffer h1 = Some b1 -> len b1 = len' ->
  cbbs h1 !! q = Some (Cbb true None pos (klen k) (kind_asn1 k) true) ->
  cbb_flush (S fuel) p h =
  match mtry (flush_write_len q (pos + klen k) (len' - (pos + klen k))) h1 with
  | (Some true, h2) =>
      (ch ← get_cbb q; _ ← put_cbb q (set_base_null ch);
       cbb ← get_cbb p; put_cbb p (set_child None cbb)) h2
  | (_, h2) => flush_err h2
  end.
Proof.
  intros Hb He Hp Hbase Hch (ch & Hq & Hpl & Ho) Hk Hpos Hlen Hlt Hrec Hb1 Hl1 Hq1. cbn [cbb_flush].
  rewrite (get_cbb_bind _ _ _ _ Hp), massert_bind, Hbase, (get_buffer_bind _ _ _ Hb), massert_bind, He.
  cbn [negb]. rewrite Hch, (get_cbb_bind _ _ _ _ Hq), Hpl, Ho.
  assert (0 < klen k <= 8) as Hkl by (destruct k; simpl in *; lia).
  rewrite (proj2 (Z.eqb_neq (klen k) 0)) by lia.
  change (2 ^ 61) with 2305843009213693952 in *.
  rewrite wrap_small by (unfold in_word; pow2; lia).
  rewrite (bind_ok _ _ h true h1) by (unfold mtry; by rewrite Hrec).
  cbn [negb]. rewrite (get_cbb_bind _ _ _ _ Hq1), (get_buffer_bind _ _ _ Hb1). cbn [offset].
  rewrite (proj2 (Z.ltb_ge _ _)), (proj2 (Z.ltb_ge _ _)) by lia. cbn [orb]. rewrite Hl1.
  unfold mbind at 1, M_bind at 1. unfold mtry at 1.
  destruct (flush_write_len q (pos + klen k) (len' - (pos + klen k)) h1) as [[[]|] h2] eqn:Ef;
    unfold mtry; rewrite Ef; done.
Qed.
End FlushChain.

Section FlushMain.
Context {m : Malloc}.

Lemma flat_single p k bs : flat [(p, k, bs)] = replicate (Z.to_nat (klen k)) 0 ++ bs.
Proof. simpl. by rewrite app_nil_r. Qed.

Lemma blen_flat_single p k bs : blen (flat [(p, k, bs)]) = klen k + blen bs.
Proof. rewrite flat_single, blen_app, blen_replicate by apply klen_nonneg. done. Qed.

Definition flush_post (p : loc) (k : kind) (bs pre : list Z) (dead : list loc)
    (b : cbb_buffer_st) (h h' : heap) : Prop :=
  exists b', buffer h' = Some b' /\ grows b b' /\ next_loc h' = next_loc h /\
    contents b' = pre ++ flat [(p, k, bs)] /\
    frames_ok (cbbs h') (blen pre) [(p, k, bs)] /\
    closed (cbbs h) (cbbs h') p dead.

Lemma cbb_flush_ok st fuel p k bs pre h b inner :
  buffer h = Some b -> buffer_ok b -> error b = false ->
  contents b = pre ++ flat ((p, k, bs) :: st) ->
  frames_ok (cbbs h) (blen pre) ((p, k, bs) :: st) ->
  NoDup (locs ((p, k, bs) :: st)) -> (length st < fuel)%nat ->
  collapse st = Some inner ->
  room b (blen pre + klen k + blen (bs ++ inner)) ->
  exists h', cbb_flush fuel p h = (Some tt, h') /\
    flush_post p k (bs ++ inner) pre (locs st) b h h'.
Proof.
  revert fuel p k bs pre h b inner. induction st as [|[[q kq] bq] st IH];
    intros fuel p k bs pre h b inner Hb Hok He Hc Hfr Hnd Hfuel Hcol Hroom;
    (destruct fuel as [|fuel]; [simpl in Hfuel; lia|]).
  - injection Hcol as <-. rewrite app_nil_r in *.
    rewrite frames_ok_singleton in Hfr.
    exists h. split; [by eapply cbb_flush_nil|].
    exists b. split_and!; [done|by apply grows_refl|done|done|by rewrite frames_ok_singleton|].
    split_and!; [by intros ? ?%elem_of_nil|done|done].
  - simpl in Hcol. destruct (collapse st) as [in2|] eqn:Ecol; [|done]. simpl in Hcol.
    pose proof (close_blen _ _ _ Hcol) as Hcl.
    destruct Hfr as (Hp & Hkq & Hfr). cbn [frame_loc head fmap option_fmap option_map fst] in Hp.
    set (pre' := pre ++ replicate (Z.to_nat (klen k)) 0 ++ bs).
    assert (blen pre' = blen pre + klen k + blen bs) as Hpre'.
    { unfold pre'. rewrite !blen_app, blen_replicate by apply klen_nonneg. lia. }
    assert (contents b = pre' ++ flat ((q, kq, bq) :: st)) as Hc'
      by (rewrite Hc; unfold pre'; by rewrite <-!app_assoc).
    apply NoDup_cons in Hnd as [Hnp Hnd]. rewrite blen_app in Hroom.
    destruct (IH fuel q kq bq pre' h b in2) as (h1 & Hf1 & b1 & Hb1 & Hg1 & Hn1 & Hc1 & Hfr1 & Hdead & Hsame & Hdom);
      [done|done|done|done|by rewrite Hpre'|done|simpl in Hfuel; lia|done|apply (room_le _ _ _ Hroom); lia|].
    rewrite frames_ok_singleton in Hfr1.
    pose proof (frames_ok_lookup _ _ _ _ Hfr) as Hq. cbn in Hq.
    assert (kind_child kq = true) as Hkc by (by destruct kq). rewrite Hkc in *.
    assert (len b1 = blen pre' + klen kq + blen (bq ++ in2)) as Hl1.
    { rewrite <-(blen_contents b1) by apply Hg1. rewrite Hc1, blen_app, blen_flat_single. lia. }
    destruct (flush_write_len_ok h1 b1 q pre' kq (bq ++ in2) inner) as (b2 & c2 & Hw & Hg2 & Hc2);
      [done|apply Hg1|done|done|by rewrite Hc1, flat_single|done
      |apply Hg1, (room_le _ _ _ Hroom); lia|].
    rewrite <-Hpre' in Hq. pose proof (blen_nonneg pre'). pose proof (blen_nonneg (bq ++ in2)).
    erewrite (cbb_flush_cons fuel p h b _ q h1 b1 (blen pre') kq (len b1));
      [|done|done|exact Hp|done|done|by eexists|done|done|lia
       |destruct Hroom as [? _]; lia|done|done|done|done].
    replace (len b1 - (blen pre' + klen kq)) with (blen (bq ++ in2)) by lia.
    unfold mtry. rewrite Hw. set (h2 := Heap _ _ _).
    assert (q <> p) as Hqp by (intros ->; apply Hnp; simpl; left).
    assert (cbbs h2 !! q = Some c2) as Hq2 by apply lookup_insert_eq.
    assert (cbbs h1 !! p = cbbs h !! p) as Hp1.
    { apply Hsame; [|done]. intros Hin. apply Hnp. by right. }
    assert (cbbs (set_cbb q (set_base_null c2) h2) !! p =
      Some (Cbb true (Some q) (blen pre) (klen k) (kind_asn1 k) (kind_child k))) as Hp2.
    { cbn. rewrite !lookup_insert_ne by done. by rewrite Hp1. }
    rewrite (get_cbb_bind _ _ _ _ Hq2), put_cbb_bind, (get_cbb_bind _ _ _ _ Hp2).
    eexists. split; [reflexivity|]. exists b2.
    split; [done|]. split; [by eapply grows_trans|]. split; [done|].
    split; [rewrite Hc2, flat_single; unfold pre'; by rewrite <-!app_assoc|].
    split; [rewrite frames_ok_singleton; apply lookup_insert_eq|].
    change (locs ((q, kq, bq) :: st)) with (q :: locs st).
    change (frame_loc (p, k, bs) ∉ q :: locs st) in Hnp.
    split; [|split]; cbn [cbbs set_cbb h2].
    + intros x [->|Hx]%elem_of_cons.
        { exists (set_base_null c2). by rewrite lookup_insert_ne, lookup_insert_eq by done. }
        destruct (decide (x = q)) as [->|].
        { exists (set_base_null c2). by rewrite lookup_insert_ne, lookup_insert_eq by done. }
        destruct (Hdead x Hx) as (cx & Hcx & ?). exists cx.
        assert (x <> p) by (intros ->; apply Hnp; by right).
        by rewrite !lookup_insert_ne by done.
    + intros x Hx Hxp. rewrite not_elem_of_cons in Hx. destruct Hx as [Hxq Hx].
        rewrite !lookup_insert_ne by (done || by intros <-). by apply Hsame.
    + rewrite !dom_insert_L, <-Hdom.
        assert (p ∈ dom (cbbs h1)) by (rewrite Hdom; by apply elem_of_dom_2 in Hp).
        assert (q ∈ dom (cbbs h1)) by (by apply elem_of_dom_2 in Hfr1).
        set_solver.
Qed.
End FlushMain.

(** * The heap represents an abstract stack *)

(** [rep h b st]: heap [h], whose shared buffer is [b], represents the open
    frames [st]. *)
Record rep (h : heap) (b : cbb_buffer_st) (st : list frame) : Prop := Rep {
  rep_buffer : buffer h = Some b;
  rep_ok : buffer_ok b;
  rep_no_error : error b = false;
  rep_contents : contents b = flat st;
  rep_frames : frames_ok (cbbs h) 0 st;
  rep_nodup : NoDup (locs st);
  rep_next : forall q, q ∈ dom (cbbs h) -> (q < next_loc h)%nat
}.

Section Rep.
Context {m : Malloc}.

Lemma flat_app st1 st2 : flat (st1 ++ st2) = flat st1 ++ flat st2.
Proof. induction st1 as [|[[p k] bs] st1 IH]; simpl; [done|]. by rewrite IH, <-!app_assoc. Qed.

Lemma locs_app st1 st2 : locs (st1 ++ st2) = locs st1 ++ locs st2.
Proof. apply map_app. Qed.

(** The part of the stack above a frame sits at the end of what is below. *)
Lemma frames_ok_split cs pos st1 f st2 :
  frames_ok cs pos (st1 ++ f :: st2) -> frames_ok cs (pos + blen (flat st1)) (f :: st2).
Proof.
  revert pos. induction st1 as [|[[p k] bs] st1 IH]; intros pos H.
  - cbn [app flat] in *. by rewrite blen_nil, Z.add_0_r.
  - destruct H as (_ & _ & H). apply IH in H. cbn [flat].
    rewrite !blen_app, blen_replicate by apply klen_nonneg.
    by replace (pos + (klen k + (blen bs + blen (flat st1)))) with (pos + klen k + blen bs + blen (flat st1)) by lia.
Qed.

(** Replacing the top of the stack by frames that start with the same struct
    and the same prefix. *)
Lemma frames_ok_replace cs cs' pos st1 p k bs st2 bs' st2' :
  frames_ok cs pos (st1 ++ (p, k, bs) :: st2) ->
  frames_ok cs' (pos + blen (flat st1)) ((p, k, bs') :: st2') ->
  (forall q, q ∈ locs st1 -> cs' !! q = cs !! q) ->
  frames_ok cs' pos (st1 ++ (p, k, bs') :: st2').
Proof.
  revert pos. induction st1 as [|[[q kq] bq] st1 IH]; intros pos H H' Hsame.
  - cbn [app flat] in *. by rewrite blen_nil, Z.add_0_r in H'.
  - destruct H as (Hq & Hk & H). cbn [app frames_ok]. split_and!.
    + rewrite Hsame by (simpl; left). rewrite Hq. by destruct st1.
    + by destruct st1 as [|[[??]?]?].
    + apply IH; [done| |intros x Hx; apply Hsame; by right].
      cbn [flat] in H'. rewrite !blen_app, blen_replicate in H' by apply klen_nonneg.
      by replace (pos + klen kq + blen bq + blen (flat st1))
        with (pos + (klen kq + (blen bq + blen (flat st1)))) by lia.
Qed.

Lemma frames_ok_dom cs pos st p : frames_ok cs pos st -> p ∈ locs st -> p ∈ dom cs.
Proof.
  revert pos. induction st as [|[[q k] bs] st IH]; intros pos H Hp; [by apply elem_of_nil in Hp|].
  destruct H as (Hq & _ & H). apply elem_of_cons in Hp as [->|Hp]; [by apply elem_of_dom_2 in Hq|eauto].
Qed.

Lemma locs_length_size cs pos st :
  frames_ok cs pos st -> NoDup (locs st) -> (length st <= size cs)%nat.
Proof.
  intros Hf Hnd. rewrite <-size_dom, <-(length_map frame_loc st).
  rewrite <-(size_list_to_set (C:=gset loc)) by done. apply subseteq_size.
  intros x Hx%elem_of_list_to_set. by eapply frames_ok_dom.
Qed.

(** [CBB_flush] collapses the frames above the struct it is called on. *)
Lemma CBB_flush_rep h b st1 p k bs st2 inner :
  rep h b (st1 ++ (p, k, bs) :: st2) -> collapse st2 = Some inner ->
  room b (blen (flat st1) + klen k + blen (bs ++ inner)) ->
  exists h' b', CBB_flush p h = (Some tt, h') /\ rep h' b' (st1 ++ [(p, k, bs ++ inner)]) /\
    grows b b' /\ next_loc h' = next_loc h /\ dom (cbbs h') = dom (cbbs h) /\
    (forall q, q ∈ locs st2 -> exists c, cbbs h' !! q = Some c /\ base c = false).
Proof.
  intros [Hb Hok He Hc Hf Hnd Hnx] Hcol Hroom. rewrite flat_app in Hc.
  pose proof (frames_ok_split _ _ _ _ _ Hf) as Hf2. rewrite Z.add_0_l in Hf2.
  rewrite locs_app in Hnd. apply NoDup_app in Hnd as (Hnd1 & Hdisj & Hnd2).
  pose proof (locs_length_size _ _ _ Hf2 Hnd2) as Hsz.
  destruct (cbb_flush_ok st2 (S (size (cbbs h))) p k bs (flat st1) h b inner)
    as (h' & Hrun & b' & Hb' & Hg & Hn & Hc' & Hf' & Hdead & Hsame & Hdom);
    [try done..|].
  { cbn [length] in Hsz. unfold frame in *. lia. }
  exists h', b'. split_and!; try done. split.
  - done.
  - apply Hg.
  - destruct Hg as (_ & -> & _). done.
  - by rewrite flat_app.
  - eapply frames_ok_replace; [done|by rewrite Z.add_0_l|]. intros q Hq.
    specialize (Hdisj q Hq). change (q ∉ p :: locs st2) in Hdisj.
    apply not_elem_of_cons in Hdisj as [??]. by apply Hsame.
  - rewrite locs_app. apply NoDup_app. split_and!; [done| |by apply NoDup_singleton].
    intros q Hq. specialize (Hdisj q Hq). change (q ∉ p :: locs st2) in Hdisj.
    apply not_elem_of_cons in Hdisj as [??]. change (q ∉ [p]). by rewrite list_elem_of_singleton.
  - intros q. rewrite Hdom, Hn. apply Hnx.
Qed.

(** On the innermost frame it does nothing. *)
Lemma CBB_flush_top h b st1 p k bs :
  rep h b (st1 ++ [(p, k, bs)]) -> CBB_flush p h = (Some tt, h).
Proof.
  intros [Hb Hok He Hc Hf Hnd Hnx]. apply frames_ok_split in Hf as [Hp _].
  unfold CBB_flush. by eapply cbb_flush_nil.
Qed.

(** A function that starts by flushing behaves as on the flushed heap. *)
Lemma flush_first {A} (k : M heap A) p h h' b st1 kd bs :
  CBB_flush p h = (Some tt, h') -> rep h' b (st1 ++ [(p, kd, bs)]) ->
  (_ ← CBB_flush p; k) h = (_ ← CBB_flush p; k) h'.
Proof.
  intros H1 H2. rewrite (bind_ok _ _ _ _ _ H1).
  by rewrite (bind_ok _ _ _ _ _ (CBB_flush_top _ _ _ _ _ _ H2)).
Qed.
End Rep.
