(* ===== verification/CbbSpec.v ===== *)
(** What the [CBB] operations do to the abstract stack of open frames, as
    specifications that compose, and the DER writers built from them. *)

From S2P Require Import Prelude CryptoInternal Cbs Cbb.

(** [builds N o n st r n' st']: when the buffer can hold [N] bytes, running [o]
    on a heap that represents the stack [st] and whose next unused address is
    [n] succeeds with result [r], and the new heap represents [st']. *)
Definition builds {m : Malloc} (N : Z) {A} (o : M heap A) (n : loc) (st : list frame)
    (r : A) (n' : loc) (st' : list frame) : Prop :=
  forall h b, rep h b st -> next_loc h = n -> room b N ->
  exists h' b', o h = (Some r, h') /\ rep h' b' st' /\ next_loc h' = n' /\ grows b b'.

Section Builds.
Context {m : Malloc} (N : Z).

Lemma builds_bind {A B} (o : M heap A) (k : A -> M heap B) n st a n1 st1 r n' st' :
  builds N o n st a n1 st1 -> builds N (k a) n1 st1 r n' st' ->
  builds N (o ≫= k) n st r n' st'.
Proof.
  intros Ho Hk h b Hr Hn Hroom.
  destruct (Ho h b Hr Hn Hroom) as (h1 & b1 & E1 & Hr1 & Hn1 & Hg1).
  destruct (Hk h1 b1 Hr1 Hn1) as (h2 & b2 & E2 & Hr2 & Hn2 & Hg2); [by apply Hg1|].
  exists h2, b2. rewrite (bind_ok _ _ _ _ _ E1). split_and!; [done..|by eapply grows_trans].
Qed.

Lemma builds_ret {A} (a : A) n st : builds N (mret a) n st a n st.
Proof. intros h b Hr Hn _. exists h, b. split_and!; [done..|]. apply grows_refl, Hr. Qed.

Lemma builds_new n st : builds N new_cbb n st n (S n) st.
Proof.
  intros h b [] <- _. exists (Heap (buffer h) (cbbs h) (S (next_loc h))), b.
  split_and!; [done| |done|by apply grows_refl]. split; try done. cbn. intros q Hq.
  apply Nat.lt_lt_succ_r. auto.
Qed.

Lemma builds_flush n st1 p k bs st2 inner :
  collapse st2 = Some inner -> blen (flat (st1 ++ [(p, k, bs ++ inner)])) <= N ->
  builds N (CBB_flush p) n (st1 ++ (p, k, bs) :: st2) tt n (st1 ++ [(p, k, bs ++ inner)]).
Proof.
  intros Hc HN h b Hr Hn Hroom.
  rewrite flat_app, blen_app, blen_flat_single in HN.
  destruct (CBB_flush_rep h b st1 p k bs st2 inner) as (h' & b' & ? & ? & ? & ? & _);
    [done|done|eapply room_le; [done|lia]|].
  exists h', b'. split_and!; [done..|congruence|done].
Qed.

(** On the innermost frame, [CBB_flush] does nothing. *)
Lemma builds_flush_top n st p k bs :
  builds N (CBB_flush p) n (st ++ [(p, k, bs)]) tt n (st ++ [(p, k, bs)]).
Proof.
  intros h b Hr Hn _. exists h, b. rewrite (CBB_flush_top h b st p k bs Hr).
  split_and!; [done..|apply grows_refl, Hr].
Qed.

(** An operation that starts by flushing may be run with children pending. *)
Lemma builds_flushed {A} (k : M heap A) n st1 p kd bs st2 inner r n' st' :
  collapse st2 = Some inner -> blen (flat (st1 ++ [(p, kd, bs ++ inner)])) <= N ->
  builds N (_ ← CBB_flush p; k) n (st1 ++ [(p, kd, bs ++ inner)]) r n' st' ->
  builds N (_ ← CBB_flush p; k) n (st1 ++ (p, kd, bs) :: st2) r n' st'.
Proof.
  intros Hc HN Hk h b Hr Hn Hroom.
  destruct (builds_flush n st1 p kd bs st2 inner Hc HN h b Hr Hn Hroom) as (h1 & b1 & E1 & Hr1 & Hn1 & Hg1).
  destruct (Hk h1 b1 Hr1 Hn1) as (h2 & b2 & E2 & Hr2 & Hn2 & Hg2); [by apply Hg1|].
  exists h2, b2. rewrite (flush_first _ _ _ _ _ _ _ _ E1 Hr1).
  split_and!; [done..|by eapply grows_trans].
Qed.

(** ** The innermost frame grows *)

(** Writing the buffer keeps the structs; the top frame takes the new bytes. *)
Lemma rep_append h b b' st p k bs d :
  rep h b (st ++ [(p, k, bs)]) -> grows b b' -> contents b' = contents b ++ d ->
  rep (set_buffer (Some b') h) b' (st ++ [(p, k, bs ++ d)]).
Proof.
  intros [Hb Hok He Hc Hf Hnd Hnx] Hg Hc'. split; try done.
  - apply Hg.
  - destruct Hg as (_ & -> & _). done.
  - rewrite Hc', Hc, !flat_app, !flat_single. by rewrite <-!app_assoc.
  - eapply frames_ok_replace; [done| |done].
    apply frames_ok_split in Hf. by rewrite frames_ok_singleton in *.
  - by rewrite locs_app in *.
Qed.

Lemma with_base_bind {A B} p (o : M cbb_buffer_st A) (k : A -> M heap B) h b c :
  cbbs h !! p = Some c -> base c = true -> buffer h = Some b ->
  (with_base p o ≫= k) h =
  match o b with
  | (Some a, b') => k a (set_buffer (Some b') h)
  | (None, b') => (None, set_buffer (Some b') h)
  end.
Proof.
  intros Hp Hc Hb. unfold with_base. rewrite <-(on_buffer_bind _ _ _ _ Hb).
  unfold mbind at 1, M_bind at 1. by rewrite (get_cbb_bind _ _ _ _ Hp), massert_bind, Hc.
Qed.

Lemma rep_top_cbb h b st p k bs :
  rep h b (st ++ [(p, k, bs)]) ->
  cbbs h !! p = Some (Cbb true None (blen (flat st)) (klen k) (kind_asn1 k) (kind_child k)).
Proof.
  intros [_ _ _ _ Hf _ _]. apply frames_ok_split in Hf.
  rewrite Z.add_0_l in Hf. by rewrite frames_ok_singleton in Hf.
Qed.

Lemma rep_len h b st : rep h b st -> len b = blen (flat st).
Proof. intros [_ Hok _ Hc _ _ _]. by rewrite <-(blen_contents b Hok), Hc. Qed.

(** [cbb_buffer_add] then a store of as many bytes. *)
Lemma buffer_append_ok b d :
  buffer_ok b -> room b (len b + blen d) ->
  exists b1, cbb_buffer_add (blen d) b = (Some (len b), b1) /\ grows b b1 /\
    let b2 := set_buf (write_at (len b) d (buf b1)) b1 in
    grows b b2 /\ contents b2 = contents b ++ d.
Proof.
  intros Hok Hroom. pose proof (blen_nonneg d) as Hd.
  destruct (cbb_buffer_add_ok b (blen d) Hok Hd Hroom) as (b1 & Ha & Hg & Hl & Ht).
  exists b1. split; [done|]. split; [done|].
  pose proof (blen_contents b Hok) as Hcl.
  set (junk := drop (Z.to_nat (len b)) (contents b1)).
  assert (contents b1 = contents b ++ junk ++ []) as Hc1.
  { rewrite app_nil_r, <-Ht, <-(take_drop (Z.to_nat (len b)) (contents b1)). f_equal.
    unfold contents. rewrite take_take. f_equal. destruct Hok. lia. }
  destruct (grows_write b1 (contents b) junk [] d) as [Hg2 Hc2]; [apply Hg|done| |].
  { rewrite <-(blen_contents b1), Hc1, !blen_app, blen_nil in Hl by apply Hg. lia. }
  rewrite Hcl, app_nil_r in *. split; [by eapply grows_trans|done].
Qed.

Lemma flat_top_blen st p k bs : blen (flat (st ++ [(p, k, bs)])) = blen (flat st) + klen k + blen bs.
Proof. rewrite flat_app, blen_app, blen_flat_single. lia. Qed.

Lemma builds_add_u n st p k bs v w :
  0 <= w -> 0 <= v < 256 ^ w ->
  blen (flat (st ++ [(p, k, bs)])) + w <= N ->
  builds N (cbb_add_u p v w) n (st ++ [(p, k, bs)]) tt n
    (st ++ [(p, k, bs ++ be_bytes (Z.to_nat w) v)]).
Proof.
  intros Hw Hv HN h b Hr Hn Hroom. unfold cbb_add_u.
  rewrite (bind_ok _ _ _ _ _ (CBB_flush_top h b st p k bs Hr)).
  pose proof (rep_top_cbb _ _ _ _ _ _ Hr) as Hp. pose proof (rep_len _ _ _ Hr) as Hlen.
  unfold with_base. rewrite (get_cbb_bind _ _ _ _ Hp), massert_bind. cbn [base].
  unfold on_buffer. rewrite (rep_buffer _ _ _ Hr). unfold cbb_buffer_add_u.
  destruct (Z.eqb_spec w 0) as [->|Hw0].
  { exists h, b. cbn. rewrite app_nil_r. split_and!; [|done..|apply grows_refl, Hr].
    destruct h; cbn. f_equal. rewrite <-(rep_buffer _ _ _ Hr). done. }
  set (d := be_bytes (Z.to_nat w) v).
  assert (blen d = w) as Hd by (unfold d; rewrite blen_be_bytes; lia).
  destruct (buffer_append_ok b d) as (b1 & Ha & Hg1 & Hg & Hc); [apply Hr|eapply room_le; [done|lia]|].
  rewrite Hd in Ha. rewrite (bind_ok _ _ _ _ _ Ha). unfold mget, mput, mbind at 1, M_bind at 1.
  assert (blen (buf b1) = blen (write_at (len b) d (buf b1))) as Hbl.
  { destruct Hg as ((Hx & _) & _). destruct Hg1 as ((Hy & _) & _). cbn in Hx. lia. }
  rewrite store_u_spec, Z2Nat.id by
    (first [lia | destruct (rep_ok _ _ _ Hr) as (? & ? & ?);
      pose proof (blen_contents _ (proj1 Hg)) as Hcl; rewrite Hc, blen_app, blen_contents in Hcl by apply Hr;
      destruct Hg as ((? & ? & ?) & _); destruct Hg1 as ((? & ? & ?) & _); cbn in *; lia]).
  fold d. rewrite Z.div_small by done. cbn.
  eexists _, _. split; [reflexivity|]. split_and!; [by apply rep_append with b|done|done].
Qed.

Lemma builds_add_u8 n st p k bs v :
  is_byte v -> blen (flat (st ++ [(p, k, bs)])) + 1 <= N ->
  builds N (CBB_add_u8 p v) n (st ++ [(p, k, bs)]) tt n (st ++ [(p, k, bs ++ [v])]).
Proof.
  intros Hv HN. pose proof (builds_add_u n st p k bs v 1) as H.
  assert (be_bytes (Z.to_nat 1) v = [v]) as E.
  { change (be_bytes (Z.to_nat 1) v) with [v mod 2 ^ 8]. by rewrite Z.mod_small. }
  rewrite E in H. apply H; [lia|exact Hv|done].
Qed.

(** A loop of [CBB_add_u8]. *)
Lemma builds_mfor {A} (l : list A) (f : A -> Z) n st p k bs :
  Forall (fun x => is_byte (f x)) l -> blen (flat (st ++ [(p, k, bs)])) + blen l <= N ->
  builds N (mfor l (fun x => CBB_add_u8 p (f x))) n (st ++ [(p, k, bs)]) tt n
    (st ++ [(p, k, bs ++ map f l)]).
Proof.
  revert bs. induction l as [|x l IH]; intros bs Hl HN; cbn [mfor map].
  - rewrite app_nil_r. apply builds_ret.
  - apply Forall_cons in Hl as [Hx Hl]. rewrite blen_cons, flat_top_blen in HN.
    pose proof (blen_nonneg l).
    eapply builds_bind; [apply builds_add_u8; [done|rewrite flat_top_blen; lia]|].
    change (f x :: map f l) with ([f x] ++ map f l). rewrite app_assoc.
    apply IH; [done|]. rewrite flat_top_blen, blen_app, blen_singleton. lia.
Qed.

Lemma builds_add_bytes n st p k bs d :
  blen (flat (st ++ [(p, k, bs)])) + blen d <= N ->
  builds N (CBB_add_bytes p d) n (st ++ [(p, k, bs)]) tt n (st ++ [(p, k, bs ++ d)]).
Proof.
  intros HN h b Hr Hn Hroom. unfold CBB_add_bytes.
  rewrite (bind_ok _ _ _ _ _ (CBB_flush_top h b st p k bs Hr)).
  pose proof (rep_top_cbb _ _ _ _ _ _ Hr) as Hp. pose proof (rep_len _ _ _ Hr) as Hlen.
  rewrite (with_base_bind _ _ _ _ _ _ Hp eq_refl (rep_buffer _ _ _ Hr)).
  destruct (buffer_append_ok b d) as (b1 & Ha & Hg1 & Hg & Hc); [apply Hr|eapply room_le; [done|lia]|].
  rewrite Ha. set (b2 := set_buf _ b1) in *. exists (set_buffer (Some b2) h), b2.
  split_and!; [done|by apply rep_append with b|done|done].
Qed.

Lemma rev_seq_S n : rev (seq 0 (S n)) = n :: rev (seq 0 n).
Proof. rewrite seq_S, rev_app_distr. done. Qed.

Lemma base128_digits_map v n : base128_digits v n = map (base128_byte v) (rev (seq 0 n)).
Proof. induction n as [|n IH]; [done|]. rewrite rev_seq_S. cbn. by rewrite IH. Qed.

Lemma builds_add_base128 n st p k bs v :
  blen (flat (st ++ [(p, k, bs)])) + blen (base128 v) <= N ->
  builds N (add_base128_integer p v) n (st ++ [(p, k, bs)]) tt n
    (st ++ [(p, k, bs ++ base128 v)]).
Proof.
  intros HN. unfold base128 in *. rewrite base128_digits_map in *. apply builds_mfor.
  - apply Forall_true. intros. apply base128_byte_byte.
  - revert HN. unfold blen. rewrite length_map. done.
Qed.

(** ** Opening a child *)

(** Linking the fresh struct [c], whose placeholder the buffer already has. *)
Lemma builds_link n st p k bs c kc off :
  off = blen (flat (st ++ [(p, k, bs)])) ->
  kind_pending kc -> c ∉ locs (st ++ [(p, k, bs)]) -> (c < n)%nat ->
  builds N (link_child p c off (klen kc) (kind_asn1 kc)) n
    (st ++ [(p, k, bs ++ replicate (Z.to_nat (klen kc)) 0)]) tt n
    (st ++ [(p, k, bs); (c, kc, [])]).
Proof.
  intros -> Hkc Hc Hcn h b Hr Hn _. unfold link_child.
  pose proof (rep_top_cbb _ _ _ _ _ _ Hr) as Hp.
  rewrite locs_app, not_elem_of_app in Hc. destruct Hc as [Hc1 Hc2].
  change (c ∉ [p]) in Hc2. rewrite list_elem_of_singleton in Hc2.
  rewrite (get_cbb_bind _ _ _ _ Hp), put_cbb_bind. cbn [base].
  set (cc := Cbb true None (blen (flat (st ++ [(p, k, bs)]))) (klen kc) (kind_asn1 kc) true).
  rewrite (get_cbb_bind p _ _ (Cbb true None (blen (flat st)) (klen k) (kind_asn1 k) (kind_child k)))
    by (cbn; by rewrite lookup_insert_ne by congruence).
  eexists _, b. split; [reflexivity|]. destruct Hr as [Hb Hok He Hct Hf Hnd Hnx].
  split_and!; [|done|by apply grows_refl]. split; try done; cbn [buffer cbbs next_loc set_cbb].
  - rewrite Hct, !flat_app. cbn [flat]. by rewrite !app_nil_r.
  - eapply frames_ok_replace; [exact Hf| |].
    + cbn [frames_ok]. rewrite lookup_insert_eq. split_and!; try done.
      rewrite lookup_insert_ne, lookup_insert_eq by congruence. unfold cc.
      rewrite flat_app, blen_app, blen_flat_single, Z.add_assoc. by destruct kc.
    + intros q Hq. rewrite locs_app in Hnd. apply NoDup_app in Hnd as (_ & Hd & _).
      specialize (Hd q Hq). change (q ∉ [p]) in Hd. rewrite list_elem_of_singleton in Hd.
      rewrite !lookup_insert_ne; [done|by intros <-|by intros <-].
  - rewrite locs_app in *. apply NoDup_app in Hnd as (Hnd & Hd & _).
    change (NoDup (locs st ++ [p; c])). apply NoDup_app. split_and!; [done| |].
    + intros q Hq. specialize (Hd q Hq). change (q ∉ [p]) in Hd.
      rewrite list_elem_of_singleton in Hd. rewrite !not_elem_of_cons.
      split_and!; [done|by intros ->|by apply not_elem_of_nil].
    + apply NoDup_cons. rewrite list_elem_of_singleton. split; [congruence|by apply NoDup_singleton].
  - intros q. rewrite !dom_insert_L, !elem_of_union, !elem_of_singleton.
    assert (p ∈ dom (cbbs h)) by (by apply elem_of_dom_2 in Hp).
    intros [->|[->|?]]; auto. by rewrite Hn.
Qed.

Lemma builds_base_len n st p k bs :
  builds N (base_len p) n (st ++ [(p, k, bs)]) (blen (flat (st ++ [(p, k, bs)]))) n
    (st ++ [(p, k, bs)]).
Proof.
  intros h b Hr Hn _. pose proof (rep_top_cbb _ _ _ _ _ _ Hr) as Hp. unfold base_len.
  rewrite (get_cbb_bind _ _ _ _ Hp), massert_bind. cbn [base].
  rewrite (get_buffer_bind _ _ _ (rep_buffer _ _ _ Hr)).
  exists h, b. rewrite <-(rep_len _ _ _ Hr). split_and!; [done..|apply grows_refl, Hr].
Qed.

Lemma builds_add_length_prefixed n st p k bs c w :
  (1 <= w <= 8)%nat -> c ∉ locs (st ++ [(p, k, bs)]) -> (c < n)%nat ->
  blen (flat (st ++ [(p, k, bs)])) + Z.of_nat w <= N ->
  builds N (cbb_add_length_prefixed p c (Z.of_nat w)) n (st ++ [(p, k, bs)]) tt n
    (st ++ [(p, k, bs); (c, KLen w, [])]).
Proof.
  intros Hw Hc Hcn HN. unfold cbb_add_length_prefixed.
  eapply builds_bind; [apply builds_flush_top|]. eapply builds_bind; [apply builds_base_len|].
  intros h b Hr Hn Hroom.
  pose proof (rep_top_cbb _ _ _ _ _ _ Hr) as Hp. pose proof (rep_len _ _ _ Hr) as Hlen.
  rewrite (with_base_bind _ _ _ _ _ _ Hp eq_refl (rep_buffer _ _ _ Hr)).
  set (d := replicate (Z.to_nat (Z.of_nat w)) 0).
  assert (blen d = Z.of_nat w) as Hd by (apply blen_replicate; lia).
  destruct (buffer_append_ok b d) as (b1 & Ha & Hg1 & Hg & Hct);
    [apply Hr|eapply room_le; [done|lia]|].
  rewrite Hd in Ha. rewrite Ha, (on_buffer_bind _ _ _ b1) by done. unfold mmodify.
  set (b2 := set_buf _ b1) in *.
  destruct (builds_link n st p k bs c (KLen w) _ eq_refl Hw Hc Hcn
    (set_buffer (Some b2) h) b2) as (h' & b' & E & Hr' & Hn' & Hg'); try done.
  - by apply rep_append with b.
  - by apply Hg.
  - exists h', b'. split_and!; [exact E|done|done|by eapply grows_trans].
Qed.

Lemma builds_add_asn1 n st p k bs c tag :
  c ∉ locs (st ++ [(p, k, bs)]) -> (c < n)%nat ->
  blen (flat (st ++ [(p, k, bs)])) + blen (asn1_tag_bytes tag) + 1 <= N ->
  builds N (CBB_add_asn1 p c tag) n (st ++ [(p, k, bs)]) tt n
    (st ++ [(p, k, bs ++ asn1_tag_bytes tag); (c, KAsn1, [])]).
Proof.
  intros Hc Hcn HN. unfold CBB_add_asn1.
  eapply builds_bind; [apply builds_flush_top|].
  rewrite flat_top_blen in HN. pose proof (blen_asn1_tag_bytes tag) as Ht.
  eapply builds_bind with (n1 := n) (st1 := st ++ [(p, k, bs ++ asn1_tag_bytes tag)]).
  { unfold asn1_tag_bytes in *. destruct (_ <=? _).
    - eapply builds_bind; [apply builds_add_u8; [apply u8_byte|rewrite flat_top_blen; lia]|].
      change (?x :: base128 ?y) with ([x] ++ base128 y). rewrite (app_assoc bs [_]).
      apply builds_add_base128. rewrite flat_top_blen, blen_app, blen_singleton.
      rewrite blen_cons in HN. lia.
    - apply builds_add_u8; [apply u8_byte|rewrite flat_top_blen; lia]. }
  eapply builds_bind; [apply builds_base_len|].
  eapply builds_bind; [apply builds_add_u8; [done|rewrite flat_top_blen, blen_app; lia]|].
  apply (builds_link n st p k _ c KAsn1); [done|done| |done].
  by rewrite locs_app in *.
Qed.

(** ** Whole elements *)

Lemma rep_fresh h b st : rep h b st -> next_loc h ∉ locs st.
Proof.
  intros [_ _ _ _ Hf _ Hnx] Hin. specialize (Hnx _ (frames_ok_dom _ _ _ _ Hf Hin)). lia.
Qed.

Lemma blen_asn1_bytes tag d :
  blen (asn1_bytes tag d) = blen (asn1_tag_bytes tag) + blen (asn1_len_bytes (blen d)) + blen d.
Proof. unfold asn1_bytes, asn1_header. rewrite !blen_app. lia. Qed.

(** The pattern of the [CBB_add_asn1_*] functions: a child on the C stack, its
    contents, a flush of the parent. *)
Lemma builds_element (body : loc -> M heap unit) tag d n st p k bs :
  blen d <= 0xfffffffe ->
  blen (flat (st ++ [(p, k, bs ++ asn1_bytes tag d)])) <= N ->
  (forall st', blen (flat st') + 1 + blen d <= N ->
     builds N (body n) (S n) (st' ++ [(n, KAsn1, [])]) tt (S n) (st' ++ [(n, KAsn1, d)])) ->
  builds N (child ← new_cbb; _ ← CBB_add_asn1 p child tag; _ ← body child; CBB_flush p) n
    (st ++ [(p, k, bs)]) tt (S n) (st ++ [(p, k, bs ++ asn1_bytes tag d)]).
Proof.
  intros Hd HN Hbody h b Hr Hn. pose proof (rep_fresh _ _ _ Hr) as Hfr. rewrite Hn in Hfr.
  revert h b Hr Hn Hfr. intros h b Hr Hn Hfr. revert h b Hr Hn.
  assert (1 <= blen (asn1_len_bytes (blen d))) as Hl by apply blen_asn1_len_bytes.
  rewrite flat_top_blen, blen_app, blen_asn1_bytes in HN. pose proof (blen_nonneg d).
  eapply builds_bind; [apply builds_new|].
  eapply builds_bind; [apply builds_add_asn1; [done|lia|rewrite flat_top_blen; lia]|].
  rewrite (app_assoc st [_] [_] : st ++ [_; _] = _).
  eapply builds_bind; [apply Hbody; rewrite flat_top_blen, blen_app; lia|].
  rewrite <-app_assoc. unfold asn1_bytes, asn1_header. rewrite <-(app_assoc (asn1_tag_bytes tag)), (app_assoc bs).
  apply builds_flush.
  - cbn. rewrite app_nil_r. by rewrite (proj2 (Z.leb_le _ _)).
  - rewrite flat_top_blen, !blen_app. lia.
Qed.

Lemma builds_octet_string n st p k bs data :
  blen data <= 0xfffffffe ->
  blen (flat (st ++ [(p, k, bs ++ asn1_bytes CBS_ASN1_OCTETSTRING data)])) <= N ->
  builds N (CBB_add_asn1_octet_string p data) n (st ++ [(p, k, bs)]) tt (S n)
    (st ++ [(p, k, bs ++ asn1_bytes CBS_ASN1_OCTETSTRING data)]).
Proof.
  intros Hd HN. apply (builds_element (fun c => CBB_add_bytes c data)); [done|done|].
  intros st' HN'. apply builds_add_bytes. rewrite flat_top_blen. cbn [klen]. rewrite blen_nil. lia.
Qed.

Lemma builds_bool n st p k bs value :
  let d := [if negb (value =? 0) then 0xff else 0] in
  blen (flat (st ++ [(p, k, bs ++ asn1_bytes CBS_ASN1_BOOLEAN d)])) <= N ->
  builds N (CBB_add_asn1_bool p value) n (st ++ [(p, k, bs)]) tt (S n)
    (st ++ [(p, k, bs ++ asn1_bytes CBS_ASN1_BOOLEAN d)]).
Proof.
  intros d HN. apply (builds_element (fun c => CBB_add_u8 c _)); [done|done|].
  intros st' HN'. apply (builds_add_u8 (S n) st' n KAsn1 []).
  - by case_match.
  - rewrite flat_top_blen. cbn [klen]. rewrite blen_nil. change (blen d) with 1 in HN'. lia.
Qed.

(** The byte loop of [CBB_add_asn1_uint64]. *)
Lemma builds_uint64_started n st c k bs l :
  bytes l -> blen (flat (st ++ [(c, k, bs)])) + blen l <= N ->
  builds N (asn1_uint64_bytes c true l) n (st ++ [(c, k, bs)]) true n (st ++ [(c, k, bs ++ l)]).
Proof.
  revert bs. induction l as [|x l IH]; intros bs Hl HN; cbn [asn1_uint64_bytes].
  - rewrite app_nil_r. apply builds_ret.
  - apply Forall_cons in Hl as [Hx Hl]. rewrite blen_cons, flat_top_blen in HN.
    pose proof (blen_nonneg l). cbn [negb andb]. eapply builds_bind; [apply builds_ret|].
    eapply builds_bind; [apply builds_add_u8; [done|rewrite flat_top_blen; lia]|].
    rewrite (cons_middle x bs l : bs ++ x :: l = _), app_assoc.
    apply IH; [done|]. rewrite flat_top_blen, blen_app, blen_singleton. lia.
Qed.

Definition padded (l : list Z) : list Z :=
  match l with [] => [] | b :: _ => if 128 <=? b then 0 :: l else l end.

Lemma builds_uint64_skip n st c k l :
  bytes l -> blen (flat (st ++ [(c, k, [])])) + blen (padded (strip_zeros l)) <= N ->
  builds N (asn1_uint64_bytes c false l) n (st ++ [(c, k, [])])
    (bool_decide (strip_zeros l <> [])) n (st ++ [(c, k, padded (strip_zeros l))]).
Proof.
  induction l as [|x l IH]; intros Hl HN; cbn [asn1_uint64_bytes strip_zeros] in *; [apply builds_ret|].
  apply Forall_cons in Hl as [Hx Hl]. destruct (Z.eqb_spec x 0) as [->|Hx0]; [by apply IH|].
  rewrite bool_decide_true by done. cbn [negb andb]. rewrite byte_cont_bit by done.
  pose proof (blen_nonneg l). rewrite flat_top_blen, blen_nil in HN.
  cbn [padded] in *. destruct (Z.ltb_spec x 128) as [Hlt|Hge].
  - rewrite (proj2 (Z.leb_gt _ _)) in * by lia. rewrite blen_cons in HN. cbn [negb].
    eapply builds_bind; [apply builds_ret|].
    eapply builds_bind; [apply builds_add_u8; [done|rewrite flat_top_blen, blen_nil; lia]|].
    apply (builds_uint64_started n st c k [x] l); [done|].
    rewrite flat_top_blen, blen_singleton. lia.
  - rewrite (proj2 (Z.leb_le _ _)) in * by lia. rewrite !blen_cons in HN. cbn [negb].
    eapply builds_bind; [apply builds_add_u8; [done|rewrite flat_top_blen, blen_nil; lia]|].
    eapply builds_bind; [apply builds_add_u8; [done|rewrite flat_top_blen, blen_app, blen_nil, blen_singleton; lia]|].
    apply (builds_uint64_started n st c k [0; x] l); [done|].
    rewrite flat_top_blen, !blen_cons, blen_nil. lia.
Qed.

Lemma builds_ext {A} (o o' : M heap A) n st r n' st' :
  (forall h, o' h = o h) -> builds N o n st r n' st' -> builds N o' n st r n' st'.
Proof. intros He Ho h b Hr Hn Hroom. rewrite He. eauto. Qed.

Lemma bind_ext_run {S A B} (o : M S A) (k k' : A -> M S B) s :
  (forall a s', k a s' = k' a s') -> (o ≫= k) s = (o ≫= k') s.
Proof. intros He. unfold mbind, M_bind. destruct (o s) as [[?|] ?]; auto. Qed.

Lemma bind_assoc {S A B C} (o : M S A) (k : A -> M S B) (j : B -> M S C) s :
  (o ≫= (fun a => k a ≫= j)) s = ((o ≫= k) ≫= j) s.
Proof. unfold mbind, M_bind. by destruct (o s) as [[?|] ?]. Qed.

Lemma be_bytes_8_shifts v :
  map (fun i => Z.land (Z.shiftr v (8 * (7 - i))) 0xff) (seqZ 0 8) = be_bytes 8 v.
Proof.
  change (seqZ 0 8) with [0; 1; 2; 3; 4; 5; 6; 7]. cbn [map be_bytes app].
  repeat match goal with |- context [Z.land ?x 0xff] =>
    change (Z.land x 0xff) with (Z.land x (Z.ones 8)); rewrite (Z.land_ones x 8) by lia end.
  rewrite !Z.shiftr_div_pow2 by lia. rewrite !Z.div_div by lia.
  change (2 ^ (8 * (7 - 7))) with 1. rewrite Z.div_1_r. reflexivity.
Qed.

Lemma builds_uint64 n st p k bs v :
  in_word 64 v ->
  blen (flat (st ++ [(p, k, bs ++ asn1_bytes CBS_ASN1_INTEGER (asn1_uint64_body v))])) <= N ->
  builds N (CBB_add_asn1_uint64 p v) n (st ++ [(p, k, bs)]) tt (S n)
    (st ++ [(p, k, bs ++ asn1_bytes CBS_ASN1_INTEGER (asn1_uint64_body v))]).
Proof.
  intros Hv HN. destruct (asn1_uint64_body_spec v Hv) as (_ & _ & Hlen).
  unfold CBB_add_asn1_uint64. rewrite be_bytes_8_shifts.
  eapply builds_ext; [|apply (builds_element (fun c => started ← asn1_uint64_bytes c false (be_bytes 8 v);
    if negb started : bool then CBB_add_u8 c 0 else mret tt)); [lia|done|]].
  { intros h. apply bind_ext_run. intros c h1. apply bind_ext_run. intros [] h2. apply bind_assoc. }
  intros st' HN'. unfold asn1_uint64_body in HN' |- *.
  assert (bytes (be_bytes 8 v)) as Hb by apply bytes_be_bytes.
  set (l := be_bytes 8 v) in *. clearbody l.
  eapply builds_bind; [apply (builds_uint64_skip (S n) st' n KAsn1 l Hb)|].
  - rewrite flat_top_blen, blen_nil. cbn [klen]. unfold padded.
    destruct (strip_zeros l) as [|x l'] eqn:E; [|lia].
    rewrite (@blen_nil Z), blen_singleton in *. lia.
  - destruct (strip_zeros l) as [|x l'] eqn:E.
    + rewrite bool_decide_false by naive_solver. cbn [negb].
      apply (builds_add_u8 (S n) st' n KAsn1 [] 0); [done|].
      rewrite flat_top_blen, blen_nil. cbn [klen]. change (blen [0]) with 1 in HN'. lia.
    + rewrite bool_decide_true by done. cbn [negb padded]. apply builds_ret.
Qed.

Lemma nth_rev_seq (u : list Z) k :
  (k <= length u)%nat -> map (fun i => nth i u 0) (rev (seq 0 k)) = rev (take k u).
Proof.
  induction k as [|k IH]; intros Hk; [done|].
  rewrite rev_seq_S. cbn [map]. rewrite IH by lia.
  rewrite (take_S_r u k (nth k u 0)), rev_app_distr; [done|].
  destruct (nth_lookup_or_length u k 0); [done|lia].
Qed.

Lemma int64_start_spec u s :
  bytes u -> (s < length u)%nat ->
  rev (take (S (int64_start u s)) u) = strip_ff (rev (take (S s) u)) /\
  (int64_start u s <= s)%nat.
Proof.
  intros Hu. induction s as [|s IH]; intros Hs; cbn [int64_start].
  - rewrite (take_S_r u 0 (nth 0 u 0)); [done|]. by destruct u; [simpl in Hs; lia|].
  - rewrite <-(nth_rev_seq u (S (S s))), <-(nth_rev_seq u (S s)) in * by lia.
    rewrite !rev_seq_S in *. cbn [map strip_ff].
    assert (is_byte (nth s u 0)) as Hb.
    { apply (Forall_nth _ 0 u); [done|lia]. }
    rewrite byte_cont_bit, <-Z.leb_antisym by done.
    destruct (_ && _) eqn:E.
    + destruct IH as [IH1 IH2]; [lia|]. split; [exact IH1|lia].
    + split; [|done]. rewrite <-nth_rev_seq by lia. by rewrite !rev_seq_S.
Qed.

Lemma builds_int64 n st p k bs v :
  - 2 ^ 63 <= v < 2 ^ 63 ->
  blen (flat (st ++ [(p, k, bs ++ asn1_bytes CBS_ASN1_INTEGER (asn1_int64_body v))])) <= N ->
  builds N (CBB_add_asn1_int64 p v) n (st ++ [(p, k, bs)]) tt (S n)
    (st ++ [(p, k, bs ++ asn1_bytes CBS_ASN1_INTEGER (asn1_int64_body v))]).
Proof.
  intros Hv HN. destruct (asn1_int64_body_spec v Hv) as (_ & Hlen & _).
  unfold CBB_add_asn1_int64, asn1_int64_body in *. destruct (Z.leb_spec 0 v).
  { apply builds_uint64; [|done]. unfold in_word. pow2. lia. }
  set (u := le_bytes 8 (u64 v)) in *.
  assert (length u = 8)%nat as Hlu by (unfold u, le_bytes; by rewrite length_rev, length_be_bytes).
  assert (bytes u) as Hu by (unfold u, le_bytes; apply Forall_rev, bytes_be_bytes).
  destruct (int64_start_spec u 7) as [Hst Hle]; [done|lia|].
  rewrite (take_ge u 8) in Hst by lia.
  assert (rev u = be_bytes 8 (u64 v)) as Hr by apply rev_involutive. rewrite Hr in Hst.
  rewrite <-Hst in *.
  apply (builds_element (fun c => mfor (rev (seq 0 (S (int64_start u 7)))) (fun i => CBB_add_u8 c (nth i u 0))));
    [lia|done|]. intros st' HN'. rewrite <-nth_rev_seq in * by lia.
  apply (builds_mfor _ (fun i => nth i u 0) (S n) st' n KAsn1 []).
  - rewrite Forall_forall. intros i Hi. apply (Forall_nth _ 0 u); [done|].
    apply list_elem_of_In, in_rev, in_seq in Hi. lia.
  - rewrite flat_top_blen, blen_nil. unfold blen in *. rewrite length_map in HN'. cbn [klen]. lia.
Qed.

(** ** Life cycle *)

Lemma CBB_init_rep p capacity h :
  MallocTotal m -> 0 <= capacity < 2 ^ 60 -> (p < next_loc h)%nat ->
  (forall q, q ∈ dom (cbbs h) -> (q < next_loc h)%nat) ->
  exists h' b, CBB_init p capacity h = (Some tt, h') /\ rep h' b [(p, KRoot, [])] /\
    next_loc h' = next_loc h /\ can_resize b = true.
Proof.
  intros Ht Hc Hp Hnx. unfold CBB_init, CBB_zero. rewrite put_cbb_bind.
  destruct (OPENSSL_malloc_total 32) as (x & -> & _); [pow2; lia|].
  assert (exists mem, OPENSSL_malloc capacity = mem /\ blen (default [] mem) = capacity /\
    negb ((0 <? capacity) && bool_decide (mem = None)) = true) as (mem & -> & Hl & Hm).
  { destruct (OPENSSL_malloc_total capacity) as (y & -> & Hy).
    { change (2 ^ 60) with 1152921504606846976 in Hc. change (2 ^ 62) with 4611686018427387904. lia. }
    exists (Some y). split_and!; [done|exact Hy|]. by rewrite bool_decide_false, andb_false_r by done. }
  rewrite massert_bind, Hm. cbn [bool_decide]. rewrite massert_bind, bool_decide_true by done.
  unfold cbb_init. eexists _, (Buffer (default [] mem) 0 capacity true false).
  split.
  { unfold mbind at 1, M_bind at 1, mmodify. rewrite (get_cbb_bind p _ _ (Cbb false None 0 0 false false))
      by apply lookup_insert_eq. reflexivity. }
  split_and!; [|done|done]. change (2 ^ 60) with 1152921504606846976 in Hc. split; cbn.
  - done.
  - unfold buffer_ok. cbn. pow2. lia.
  - done.
  - done.
  - by rewrite lookup_insert_eq.
  - apply NoDup_singleton.
  - intros q. rewrite !dom_insert_L, !elem_of_union, !elem_of_singleton.
    intros [->|[->|?]]; auto.
Qed.

(** [CBB_finish] hands over what the open frames collapse to. *)
Lemma CBB_finish_rep h b p bs st inner :
  rep h b ((p, KRoot, bs) :: st) -> collapse st = Some inner ->
  room b (blen (bs ++ inner)) ->
  exists h' mem, CBB_finish p false h = (Some (mem, blen (bs ++ inner)), h') /\
    take (Z.to_nat (blen (bs ++ inner))) mem = bs ++ inner /\
    buffer h' = None.
Proof.
  intros Hr Hc Hroom. pose proof (frames_ok_lookup _ _ _ _ (rep_frames _ _ _ Hr)) as Hp.
  cbn in Hp. unfold CBB_finish. rewrite (get_cbb_bind _ _ _ _ Hp), massert_bind. cbn [is_child negb].
  destruct (CBB_flush_rep h b [] p KRoot bs st inner Hr Hc) as (h1 & b1 & E & Hr1 & _);
    [done|].
  rewrite (bind_ok _ _ _ _ _ E), (get_buffer_bind _ _ _ (rep_buffer _ _ _ Hr1)).
  rewrite massert_bind, andb_false_r. cbn [negb]. rewrite (on_buffer_bind _ _ _ _ (rep_buffer _ _ _ Hr1)).
  unfold mmodify, CBB_cleanup. pose proof (rep_top_cbb h1 b1 [] p KRoot _ Hr1) as Hp1.
  pose proof (rep_len _ _ _ Hr1) as Hl. pose proof (rep_contents _ _ _ Hr1) as Hct.
  cbn [app] in Hl, Hct. rewrite blen_flat_single in Hl. rewrite flat_single in Hct. cbn in Hl, Hct.
  assert (blen (bs ++ inner) = len b1) as -> by lia.
  eexists _, (buf b1). split; [|split].
  - unfold mbind at 1, M_bind at 1. rewrite (get_cbb_bind p _ (set_buffer _ h1) _ Hp1). reflexivity.
  - exact Hct.
  - reflexivity.
Qed.

(** ** Failures *)

(** Upper bound of what a stack collapses to. *)
Fixpoint cost (st : list frame) : Z :=
  match st with
  | [] => 0
  | (_, k, bs) :: st => klen k + 5 + blen bs + cost st
  end.

Lemma cost_nonneg st : 0 <= cost st.
Proof.
  induction st as [|[[p k] bs] st IH]; cbn; [done|].
  pose proof (klen_nonneg k). pose proof (blen_nonneg bs). lia.
Qed.

Lemma collapse_cost st out : collapse st = Some out -> blen out <= cost st.
Proof.
  revert out. induction st as [|[[p k] bs] st IH]; intros out H; cbn in *; [by simplify_eq|].
  destruct (collapse st) as [inner|]; [|done]. cbn in H. specialize (IH _ eq_refl).
  assert (blen out <= klen k + 5 + blen (bs ++ inner)); [|rewrite blen_app in *; lia].
  pose proof (blen_nonneg (bs ++ inner)).
  destruct k; cbn in H; [simplify_eq; cbn; lia|case_match; simplify_eq..];
    rewrite blen_app, ?blen_be_bytes; cbn; [lia|].
  pose proof (blen_asn1_len_bytes (blen (bs ++ inner))). lia.
Qed.

Lemma flush_err_run h b :
  buffer h = Some b -> exists b', flush_err h = (None, set_buffer (Some b') h) /\ error b' = true.
Proof. intros Hb. unfold flush_err. rewrite (on_buffer_bind _ _ _ _ Hb). by eexists. Qed.

(** A prefix too short for the contents is detected once its bytes are
    written. *)
Lemma flush_write_len_overflow h b c pre k body :
  buffer h = Some b -> buffer_ok b -> kind_pending k ->
  cbbs h !! c = Some (Cbb true None (blen pre) (klen k) (kind_asn1 k) true) ->
  contents b = pre ++ replicate (Z.to_nat (klen k)) 0 ++ body -> close k body = None ->
  exists h' b', flush_write_len c (blen pre + klen k) (blen body) h = (None, h') /\ buffer h' = Some b'.
Proof.
  intros Hb Hok Hk Hc Hct Hcl. pose proof (blen_nonneg body). unfold flush_write_len.
  rewrite (get_cbb_bind _ _ _ _ Hc). destruct k as [|n|]; cbn in Hk, Hcl; [done|..].
  - destruct (Z.ltb_spec (blen body) (256 ^ Z.of_nat n)) as [|Hn]; [done|].
    cbn [pending_is_asn1 kind_asn1]. rewrite bind_ret, (get_cbb_bind _ _ _ _ Hc), (get_buffer_bind _ _ _ Hb).
    cbn [pending_len_len offset klen]. rewrite Nat2Z.id.
    destruct (store_u_write b pre (replicate (Z.to_nat (klen (KLen n))) 0) body n (blen body)) as (b' & -> & _);
      [done..|apply (blen_replicate (Z.of_nat n)); lia|].
    rewrite (on_buffer_bind _ _ _ _ Hb). unfold mmodify, massert.
    rewrite (proj2 (Z.eqb_neq _ 0)); [by eexists _, _|].
    assert (0 < 256 ^ Z.of_nat n) by (apply Z.pow_pos_nonneg; lia).
    pose proof (Z.div_str_pos (blen body) (256 ^ Z.of_nat n)). lia.
  - destruct (Z.leb_spec (blen body) 0xfffffffe) as [|Hn]; [done|].
    cbn [pending_is_asn1 kind_asn1]. unfold flush_asn1.
    rewrite (proj2 (Z.ltb_lt _ _)) by lia. by eexists _, _.
Qed.

Lemma cbb_flush_overflow st fuel p k bs pre h b :
  buffer h = Some b -> buffer_ok b -> error b = false ->
  contents b = pre ++ flat ((p, k, bs) :: st) ->
  frames_ok (cbbs h) (blen pre) ((p, k, bs) :: st) ->
  NoDup (locs ((p, k, bs) :: st)) -> (length st < fuel)%nat ->
  collapse st = None -> room b (blen pre + cost ((p, k, bs) :: st)) ->
  exists h' b', cbb_flush fuel p h = (None, h') /\ buffer h' = Some b' /\ error b' = true.
Proof.
  revert fuel p k bs pre. induction st as [|[[q kq] bq] st IH];
    intros fuel p k bs pre Hb Hok He Hc Hf Hnd Hfuel Hcol Hroom; [done|].
  destruct fuel as [|fuel]; [cbn in Hfuel; lia|].
  destruct Hf as (Hp & Hkq & Hf). set (pre' := pre ++ replicate (Z.to_nat (klen k)) 0 ++ bs).
  assert (blen pre' = blen pre + klen k + blen bs) as Hpre'.
  { unfold pre'. rewrite !blen_app, blen_replicate by apply klen_nonneg. lia. }
  assert (contents b = pre' ++ flat ((q, kq, bq) :: st)) as Hc'
    by (rewrite Hc; unfold pre'; by rewrite <-!app_assoc).
  apply NoDup_cons in Hnd as [Hnp Hnd]. rewrite <-Hpre' in Hf.
  pose proof (frames_ok_lookup _ _ _ _ Hf) as Hq. cbn in Hq.
  assert (kind_child kq = true) as Hkc by (by destruct kq). rewrite Hkc in Hq.
  cbn [cost] in Hroom. assert (0 < klen kq <= 8) as Hkl by (destruct kq; simpl in *; lia).
  pose proof (blen_nonneg pre'). pose proof (blen_nonneg bq). pose proof (cost_nonneg st).
  assert (u64 (blen pre' + klen kq) = blen pre' + klen kq) as Hw.
  { apply wrap_small. destruct Hroom as [Hlt _]. change (2 ^ 61) with 2305843009213693952 in Hlt.
    unfold in_word. pow2. lia. }
  cbn [cbb_flush]. rewrite (get_cbb_bind _ _ _ _ Hp), massert_bind. cbn [base].
  rewrite (get_buffer_bind _ _ _ Hb), massert_bind, He. cbn [negb child frame_loc head fmap option_fmap option_map fst].
  rewrite (get_cbb_bind _ _ _ _ Hq). cbn [pending_len_len offset].
  rewrite (proj2 (Z.eqb_neq _ 0)), Hw by lia.
  cbn [collapse] in Hcol. destruct (collapse st) as [in2|] eqn:Ecol; cbn in Hcol.
  - destruct (cbb_flush_ok st fuel q kq bq pre' h b in2) as (h1 & Hf1 & b1 & Hb1 & Hg1 & Hn1 & Hc1 & Hfr1 & _);
      [done..|simpl in Hfuel; lia|done|
       eapply room_le; [done|apply collapse_cost in Ecol; rewrite blen_app; lia]|].
    rewrite frames_ok_singleton, Hkc in Hfr1.
    rewrite (bind_ok _ _ h true h1) by (unfold mtry; by rewrite Hf1).
    cbn [negb]. rewrite (get_cbb_bind _ _ _ _ Hfr1), (get_buffer_bind _ _ _ Hb1). cbn [offset].
    assert (len b1 = blen pre' + klen kq + blen (bq ++ in2)) as Hl1.
    { rewrite <-(blen_contents b1) by apply Hg1. rewrite Hc1, blen_app, blen_flat_single. lia. }
    pose proof (blen_nonneg (bq ++ in2)). rewrite !(proj2 (Z.ltb_ge _ _)), Hl1 by lia. cbn [orb].
    replace (_ + blen (bq ++ in2) - _) with (blen (bq ++ in2)) by lia.
    destruct (flush_write_len_overflow h1 b1 q pre' kq (bq ++ in2)) as (h2 & b2 & Hw2 & Hb2);
      [done|apply Hg1|done|done|by rewrite Hc1, flat_single|done|].
    rewrite (bind_ok _ _ h1 false h2) by (unfold mtry; by rewrite Hw2). cbn [negb].
    destruct (flush_err_run h2 b2 Hb2) as (b3 & -> & ?). by eexists _, b3.
  - destruct (IH fuel q kq bq pre') as (h1 & b1 & Hf1 & Hb1 & He1);
      [done..|simpl in Hfuel; lia|done|eapply room_le; [done|cbn [cost]; lia]|].
    rewrite (bind_ok _ _ h false h1) by (unfold mtry; by rewrite Hf1). cbn [negb].
    destruct (flush_err_run h1 b1 Hb1) as (b3 & -> & ?). by eexists _, b3.
Qed.
End Builds.
