(* ===== verification/Asn1SetOf.v ===== *)
(** [CBB_flush_asn1_set_of] (crypto/bytestring/cbb.c): DER orders the elements
    of a SET OF by their encodings. [qsort] of the C library is a sort by the
    comparison function; the elements the comparison takes as equal are the
    same bytes, so every sort gives the same list ([qsort_determined]). *)

From S2P Require Import Prelude CryptoInternal Cbs Cbb CbbSpec.

(** The sign of the result is all [qsort] looks at. *)
Definition compare_set_of_element (a b : CBS) : Z :=
  let a_len := CBS_len a in
  let b_len := CBS_len b in
  let min_len := if a_len <? b_len then a_len else b_len in
  let ret := OPENSSL_memcmp (CBS_data a) (CBS_data b) min_len in
  if negb (ret =? 0) then ret
  else if a_len =? b_len then 0
  else if a_len <? b_len then -1 else 1.

Definition set_of_le (a b : CBS) : Prop := compare_set_of_element a b <= 0.

#[export] Instance set_of_le_dec a b : Decision (set_of_le a b).
Proof. unfold set_of_le. apply _. Defined.

Definition qsort (l : list CBS) : list CBS := merge_sort set_of_le l.

Section SetOf.
Context {m : Malloc}.

(** The first loop: the number of elements. Every element consumes at least two
    bytes, so [fuel] is the number of bytes. *)
Fixpoint count_children (fuel : nat) (cbs : CBS) : option Z :=
  if CBS_len cbs =? 0 then Some 0
  else match fuel with
       | O => None
       | S fuel =>
           match CBS_get_any_asn1_element cbs with
           | (Some _, cbs) => Z.succ <$> count_children fuel cbs
           | (None, _) => None
           end
       end.

(** The second loop: the elements themselves. *)
Fixpoint get_children (n : nat) (cbs : CBS) : option (list CBS) :=
  match n with
  | O => Some []
  | S n =>
      match CBS_get_any_asn1_element cbs with
      | (Some e, cbs) => cons (ae_out e) <$> get_children n cbs
      | (None, _) => None
      end
  end.

Definition CBB_flush_asn1_set_of (p : loc) : M heap unit :=
  _ ← CBB_flush p;
  off ← CBB_data p;
  buf_len ← CBB_len p;
  b ← get_buffer;
  let cbs := take (Z.to_nat buf_len) (drop (Z.to_nat off) (buf b)) in
  num_children ← lift_option (count_children (length cbs) cbs);
  if num_children <? 2 then mret tt
  else
    _ ← massert (negb ((2 ^ 64 - 1) / 16 <? num_children));
    let copy := OPENSSL_memdup cbs in
    _ ← massert (negb (bool_decide (copy = None) ||
                       bool_decide (OPENSSL_malloc (num_children * 16) = None)));
    children ← lift_option (get_children (Z.to_nat num_children) (default [] copy));
    let children := qsort children in
    cbb ← get_cbb p;
    _ ← on_buffer (mmodify (set_len (offset cbb + pending_len_len cbb)));
    mfor children (fun c => CBB_add_bytes p c).
End SetOf.

(** * The order *)

(** Lexicographic comparison of byte strings. *)
Fixpoint lex (a b : list Z) : comparison :=
  match a, b with
  | [], [] => Eq
  | [], _ :: _ => Lt
  | _ :: _, [] => Gt
  | x :: a, y :: b => match x ?= y with Eq => lex a b | c => c end
  end.

Lemma compare_set_of_lex a b :
  match lex a b with
  | Eq => compare_set_of_element a b = 0
  | Lt => compare_set_of_element a b < 0
  | Gt => 0 < compare_set_of_element a b
  end.
Proof.
  assert (forall a b, match lex a b with
    | Eq => memcmp (take (length a `min` length b) a) (take (length a `min` length b) b) = 0 /\ length a = length b
    | Lt => memcmp (take (length a `min` length b) a) (take (length a `min` length b) b) < 0 \/
       memcmp (take (length a `min` length b) a) (take (length a `min` length b) b) = 0 /\ (length a < length b)%nat
    | Gt => 0 < memcmp (take (length a `min` length b) a) (take (length a `min` length b) b) \/
       memcmp (take (length a `min` length b) a) (take (length a `min` length b) b) = 0 /\ (length b < length a)%nat
    end) as H.
  { clear. induction a as [|x a IH]; intros [|y b]; cbn; [lia|right; split; [done|lia]..|].
    specialize (IH b). destruct (Z.compare_spec x y) as [->|Hlt|Hgt].
    - rewrite Z.eqb_refl. destruct (lex a b); lia.
    - rewrite (proj2 (Z.eqb_neq x y)) by lia. lia.
    - rewrite (proj2 (Z.eqb_neq x y)) by lia. lia. }
  specialize (H a b). unfold compare_set_of_element, CBS_len, CBS_data, OPENSSL_memcmp.
  set (n := if blen a <? blen b then blen a else blen b).
  assert (Z.to_nat n = length a `min` length b)%nat as Hn.
  { unfold n, blen. zcases; lia. }
  rewrite Hn. set (c := memcmp _ _) in *.
  assert ((if n =? 0 then 0 else c) = c) as ->.
  { destruct (Z.eqb_spec n 0) as [E|]; [|done]. rewrite E in Hn. change (Z.to_nat 0) with 0%nat in Hn.
    unfold c. by rewrite <-Hn, !take_0. }
  destruct (lex a b), (Z.eqb_spec c 0); cbn [negb]; unfold blen; zcases; lia.
Qed.

Lemma set_of_le_lex a b : set_of_le a b <-> lex a b <> Gt.
Proof.
  unfold set_of_le. pose proof (compare_set_of_lex a b). destruct (lex a b); split; (lia || done).
Qed.

(** Ascending in the order of X.690, 11.6, on the encodings. *)
Definition ascending (l : list CBS) : Prop := Sorted (fun a b => lex a b <> Gt) l.

Lemma ascending_sorted l : ascending l <-> Sorted set_of_le l.
Proof.
  unfold ascending. split; induction 1 as [|a l Hl IH Hd]; constructor; try done;
    (destruct Hd; constructor; by apply set_of_le_lex).
Qed.

Lemma lex_eq a b : lex a b = Eq -> a = b.
Proof.
  revert b. induction a as [|x a IH]; intros [|y b]; cbn; try done.
  destruct (Z.compare_spec x y) as [->| |]; [|done|done]. intros. f_equal. auto.
Qed.

Lemma lex_swap a b : lex b a = CompOpp (lex a b).
Proof.
  revert b. induction a as [|x a IH]; intros [|y b]; cbn; try done.
  rewrite Z.compare_antisym. destruct (x ?= y); cbn; auto.
Qed.

#[export] Instance set_of_le_total : Total set_of_le.
Proof.
  intros a b. rewrite !set_of_le_lex, (lex_swap a b). destruct (lex a b); cbn; naive_solver.
Qed.

#[export] Instance set_of_le_antisymm : AntiSymm (=) set_of_le.
Proof.
  intros a b. rewrite !set_of_le_lex, (lex_swap a b).
  destruct (lex a b) eqn:E; cbn; [|naive_solver..]. intros _ _. by apply lex_eq.
Qed.

#[export] Instance set_of_le_trans : Transitive set_of_le.
Proof.
  intros a b c. rewrite !set_of_le_lex. revert b c.
  induction a as [|x a IH]; intros [|y b] [|z c]; cbn; try done.
  destruct (Z.compare_spec x y), (Z.compare_spec y z); try done; subst;
    rewrite ?Z.compare_refl; try (intros; by apply (IH b c));
    match goal with |- context [?u ?= ?v] => destruct (Z.compare_spec u v) end; done || lia.
Qed.

(** Any result the C standard allows [qsort] is the same list. *)
Lemma qsort_determined l l' : l' ≡ₚ l -> Sorted set_of_le l' -> l' = qsort l.
Proof.
  intros Hp Hs. unfold qsort. apply (Sorted_unique set_of_le); [done|apply (Sorted_merge_sort set_of_le)|].
  by rewrite Hp, merge_sort_Permutation.
Qed.

(** * What is written *)

(** [e] is the encoding of one element. *)
Definition der_element (e : CBS) : Prop :=
  exists tag body, in_word 32 tag /\ blen body < 2 ^ 32 /\ e = asn1_bytes tag body.

Lemma der_element_read e r :
  der_element e -> bytes (e ++ r) ->
  exists el, CBS_get_any_asn1_element (e ++ r) = (Some el, r) /\ ae_out el = e /\ e <> [].
Proof.
  intros (tag & body & Ht & Hb & ->) Hs.
  eexists. split_and!; [by apply CBS_get_any_asn1_element_Some; [|eexists tag, body]|done|].
  intros E%(f_equal blen). pose proof (blen_asn1_bytes tag body).
  pose proof (blen_asn1_tag_bytes tag). pose proof (blen_asn1_len_bytes (blen body)).
  pose proof (blen_nonneg body). rewrite E in *. rewrite blen_nil in *. lia.
Qed.

Lemma count_children_concat fuel l :
  Forall der_element l -> bytes (concat l) -> (length (concat l) <= fuel)%nat ->
  count_children fuel (concat l) = Some (blen l).
Proof.
  revert fuel. induction l as [|e l IH]; intros fuel Hl Hb Hf; cbn [concat] in *; [by destruct fuel|].
  apply Forall_cons in Hl as [He Hl]. destruct (der_element_read e (concat l)) as (el & E & _ & Hne); [done..|].
  assert (0 < length e)%nat as Hpos by (destruct e; [done|cbn; lia]). rewrite length_app in Hf.
  destruct fuel as [|fuel]; [lia|]. cbn [count_children]. unfold CBS_len.
  rewrite (proj2 (Z.eqb_neq _ 0)) by (unfold blen; rewrite length_app; lia).
  rewrite E, IH; [|done|by apply bytes_app in Hb as [_ ?]|lia].
  cbn. f_equal. rewrite blen_cons. lia.
Qed.

Lemma get_children_concat l :
  Forall der_element l -> bytes (concat l) -> get_children (length l) (concat l) = Some l.
Proof.
  induction l as [|e l IH]; intros Hl Hb; cbn [concat length get_children] in *; [done|].
  apply Forall_cons in Hl as [He Hl]. destruct (der_element_read e (concat l)) as (el & -> & -> & _); [done..|].
  by rewrite IH by (done || by apply bytes_app in Hb as [_ ?]).
Qed.

Section Write.
Context {m : Malloc} (N : Z).

Lemma OPENSSL_memdup_total `{!MallocTotal m} data :
  0 < blen data < 2 ^ 62 -> OPENSSL_memdup data = Some data.
Proof.
  intros Hd. unfold OPENSSL_memdup. rewrite (proj2 (Z.eqb_neq _ 0)) by lia.
  destruct (OPENSSL_malloc_total (blen data)) as (x & -> & Hx); [lia|].
  cbn. f_equal. unfold write_at. rewrite drop_ge by (unfold blen in *; lia). by rewrite app_nil_r.
Qed.

Lemma builds_mfor_bytes l n st p k bs :
  blen (flat (st ++ [(p, k, bs ++ concat l)])) <= N ->
  builds N (mfor l (fun c => CBB_add_bytes p c)) n (st ++ [(p, k, bs)]) tt n
    (st ++ [(p, k, bs ++ concat l)]).
Proof.
  revert bs. induction l as [|e l IH]; intros bs HN; cbn [mfor concat] in *.
  - rewrite app_nil_r. apply builds_ret.
  - rewrite app_assoc in *. rewrite flat_top_blen, !blen_app in HN. pose proof (blen_nonneg (concat l)).
    eapply builds_bind; [apply builds_add_bytes; rewrite flat_top_blen; lia|].
    apply IH. rewrite flat_top_blen, !blen_app. lia.
Qed.

(** Rewinding the innermost frame to the start of its contents. *)
Lemma rep_rewind h b st p k bs :
  rep h b (st ++ [(p, k, bs)]) ->
  let b' := set_len (blen (flat st) + klen k) b in
  rep (set_buffer (Some b') h) b' (st ++ [(p, k, [])]) /\ grows b b'.
Proof.
  intros Hr b'. pose proof (rep_len _ _ _ Hr) as Hl. rewrite flat_top_blen in Hl.
  pose proof (blen_nonneg (flat st)). pose proof (klen_nonneg k). pose proof (blen_nonneg bs).
  destruct Hr as [Hb Hok He Hc Hf Hnd Hnx]. destruct Hok as (Hbl & Hle & Hcap).
  assert (buffer_ok b') as Hok' by (unfold buffer_ok; cbn; lia).
  split; [|by split_and!]. split; try done.
  - unfold contents. cbn. unfold contents in Hc. rewrite flat_app, flat_single in Hc |- *.
    rewrite <-(Z.add_0_l 0), app_nil_r.
    replace (take (Z.to_nat (blen (flat st) + klen k)) (buf b)) with
      (take (Z.to_nat (blen (flat st) + klen k)) (take (Z.to_nat (len b)) (buf b)))
      by (rewrite take_take; f_equal; lia).
    rewrite Hc, app_assoc. set (pre := flat st ++ replicate (Z.to_nat (klen k)) 0).
    assert (blen pre = blen (flat st) + klen k) as <-
      by (unfold pre; by rewrite blen_app, blen_replicate).
    by rewrite take_blen_app.
  - eapply frames_ok_replace; [exact Hf| |done].
    apply frames_ok_split in Hf. by rewrite frames_ok_singleton in *.
  - by rewrite locs_app in *.
Qed.

Lemma qsort_short l : blen l < 2 -> qsort l = l.
Proof.
  intros Hl. symmetry. apply qsort_determined; [done|].
  destruct l as [|x [|y l]]; [constructor|repeat constructor|].
  rewrite !blen_cons in Hl. pose proof (blen_nonneg l). lia.
Qed.

Lemma concat_Permutation_blen (l l' : list CBS) : l ≡ₚ l' -> blen (concat l) = blen (concat l').
Proof. induction 1; cbn; rewrite ?blen_app; lia. Qed.

Lemma blen_concat_elements l : Forall der_element l -> 2 * blen l <= blen (concat l).
Proof.
  induction 1 as [|e l (tag & body & _ & _ & ->) Hl IH]; cbn [concat]; [done|].
  rewrite blen_cons, blen_app, blen_asn1_bytes. pose proof (blen_asn1_tag_bytes tag).
  pose proof (blen_asn1_len_bytes (blen body)). pose proof (blen_nonneg body). lia.
Qed.

Lemma max_children : (2 ^ 64 - 1) / 16 = 1152921504606846975.
Proof. reflexivity. Qed.

Lemma builds_set_of `{!MallocTotal m} l n st p k :
  Forall der_element l -> bytes (concat l) -> blen (concat l) < 2 ^ 56 ->
  blen (flat (st ++ [(p, k, concat l)])) <= N ->
  builds N (CBB_flush_asn1_set_of p) n (st ++ [(p, k, concat l)]) tt n
    (st ++ [(p, k, concat (qsort l))]).
Proof.
  intros Hl Hb Hsz HN h b Hr Hn Hroom. unfold CBB_flush_asn1_set_of.
  pose proof (blen_concat_elements l Hl) as Hnum. pose proof (blen_nonneg l) as Hln.
  change (2 ^ 56) with 72057594037927936 in Hsz.
  rewrite (bind_ok _ _ _ _ _ (CBB_flush_top _ _ _ _ _ _ Hr)).
  pose proof (rep_top_cbb _ _ _ _ _ _ Hr) as Hp. pose proof (rep_len _ _ _ Hr) as Hlen.
  pose proof (rep_buffer _ _ _ Hr) as Hbuf. rewrite flat_top_blen in Hlen.
  set (hdr := blen (flat st) + klen k) in *.
  assert (CBB_data p h = (Some hdr, h)) as Hd by (unfold CBB_data; by rewrite (get_cbb_bind _ _ _ _ Hp)).
  assert (CBB_len p h = (Some (blen (concat l)), h)) as HL.
  { unfold CBB_len. rewrite (get_cbb_bind _ _ _ _ Hp), (get_buffer_bind _ _ _ Hbuf).
    cbn [offset pending_len_len]. unfold mret, M_ret. do 2 f_equal. lia. }
  rewrite (bind_ok _ _ _ _ _ Hd), (bind_ok _ _ _ _ _ HL), (get_buffer_bind _ _ _ Hbuf).
  assert (take (Z.to_nat (blen (concat l))) (drop (Z.to_nat hdr) (buf b)) = concat l) as ->.
  { rewrite (buf_contents b), (rep_contents _ _ _ Hr), flat_app, flat_single, app_assoc, <-app_assoc.
    assert (blen (flat st ++ replicate (Z.to_nat (klen k)) 0) = hdr) as <-
      by (rewrite blen_app, blen_replicate by apply klen_nonneg; done).
    by rewrite drop_blen_app, take_blen_app. }
  rewrite count_children_concat by done.
  rewrite (bind_ok _ _ h (blen l) h) by done.
  destruct (Z.ltb_spec (blen l) 2) as [Hs|Hs].
  { rewrite qsort_short by done. exists h, b. split_and!; [done..|apply grows_refl, Hr]. }
  rewrite massert_bind, (proj2 (Z.ltb_ge _ _)) by (rewrite max_children; lia). cbn [negb].
  rewrite OPENSSL_memdup_total by (change (2 ^ 62) with 4611686018427387904; lia).
  destruct (OPENSSL_malloc_total (blen l * 16)) as (x & -> & _);
    [change (2 ^ 62) with 4611686018427387904; lia|].
  rewrite massert_bind, !bool_decide_false by done. cbn [orb negb default].
  rewrite to_nat_blen, get_children_concat by done. rewrite (bind_ok _ _ h l h) by done.
  rewrite (get_cbb_bind _ _ _ _ Hp), (on_buffer_bind _ _ _ _ Hbuf). cbn [offset pending_len_len].
  unfold mmodify. destruct (rep_rewind _ _ _ _ _ _ Hr) as [Hr' Hg]. fold hdr in Hr', Hg.
  assert (qsort l ≡ₚ l) as Hperm by apply merge_sort_Permutation.
  assert (blen (flat (st ++ [(p, k, [] ++ concat (qsort l))])) <= N) as HN'
    by (rewrite flat_top_blen in *; cbn [app]; rewrite (concat_Permutation_blen _ _ Hperm); done).
  destruct (builds_mfor_bytes (qsort l) n st p k [] HN' _ _ Hr' Hn) as (h' & b' & E & Hr2 & Hn2 & Hg2); [by apply Hg|].
  exists h', b'. split_and!; [exact E|done|done|exact (grows_trans _ _ _ Hg Hg2)].
Qed.
End Write.
