(* ===== verification/Oid.v ===== *)
(** Object identifiers as text: [parse_dotted_decimal] and
    [CBB_add_asn1_oid_from_text] of crypto/bytestring/cbb.c, [add_decimal] and
    [CBS_asn1_oid_to_text] of crypto/bytestring/cbs.c. *)

From S2P Require Import Prelude CryptoInternal Cbs Cbb CbbSpec.

Definition UINT64_MAX : Z := 2 ^ 64 - 1.

(** The loop of [parse_dotted_decimal]: [out] so far, and whether a digit has
    been seen. 46 is the dot, 48 to 57 are the digits. *)
Fixpoint parse_dotted_loop (out : Z) (seen_digit : bool) (cbs : CBS) : option Z * CBS :=
  match cbs with
  | [] => (if seen_digit then Some out else None, [])
  | u :: cbs =>
      if (u =? 46) && (0 <? CBS_len cbs) then (if seen_digit then Some out else None, cbs)
      else if (u <? 48) || (57 <? u) || (seen_digit && (out =? 0)) ||
              (UINT64_MAX / 10 <? out) || (UINT64_MAX - (u - 48) <? u64 (out * 10))
      then (None, cbs)
      else parse_dotted_loop (u64 (u64 (out * 10) + (u - 48))) true cbs
  end.

Definition parse_dotted_decimal : M CBS Z := fun cbs => parse_dotted_loop 0 false cbs.

Section Oid.
Context {m : Malloc}.

(** [fuel] bounds the number of components by the length of the text. *)
Fixpoint oid_rest_from_text (fuel : nat) (cbb : loc) (cbs : CBS) : M heap unit :=
  if CBS_len cbs <=? 0 then mret tt
  else match fuel with
       | O => mfail
       | S fuel =>
           '(a, cbs) ← on_copy cbs parse_dotted_decimal;
           _ ← add_base128_integer cbb a;
           oid_rest_from_text fuel cbb cbs
       end.

Definition CBB_add_asn1_oid_from_text (cbb : loc) (text : list Z) : M heap unit :=
  _ ← CBB_flush cbb;
  let cbs := CBS_init text in
  '(a, cbs) ← on_copy cbs parse_dotted_decimal;
  '(b, cbs) ← on_copy cbs parse_dotted_decimal;
  _ ← massert (negb ((2 <? a) || ((a <? 2) && (39 <? b)) || (UINT64_MAX - 80 <? b)));
  _ ← add_base128_integer cbb (u64 (u64 (40 * a) + b));
  oid_rest_from_text (length text) cbb cbs.

(** [printf]'s decimal conversion of a 64-bit integer: at most 20 digits. *)
Fixpoint decimal (fuel : nat) (v : Z) : list Z :=
  match fuel with
  | O => []
  | S fuel => if v <? 10 then [48 + v] else decimal fuel (v / 10) ++ [48 + v mod 10]
  end.

Definition dec (v : Z) : list Z := decimal 20 v.

Definition add_decimal (out : loc) (v : Z) : M heap unit := CBB_add_bytes out (dec v).

Fixpoint oid_rest_to_text (fuel : nat) (cbb : loc) (copy : CBS) : M heap unit :=
  if CBS_len copy =? 0 then mret tt
  else match fuel with
       | O => mfail
       | S fuel =>
           '(v, copy) ← on_copy copy parse_base128_integer;
           _ ← CBB_add_u8 cbb 46;
           _ ← add_decimal cbb v;
           oid_rest_to_text fuel cbb copy
       end.

(** The [CBB] is a local of the function: it starts from a heap of its own. The
    result is the buffer and the number of bytes in use. *)
Definition CBS_asn1_oid_to_text (cbs : CBS) : option (list Z * Z) :=
  fst ((cbb ← new_cbb;
    _ ← CBB_init cbb 32;
    '(v, copy) ← on_copy cbs parse_base128_integer;
    _ ← (if 80 <=? v then
           _ ← CBB_add_bytes cbb [50; 46];
           add_decimal cbb (v - 80)
         else
           _ ← add_decimal cbb (v / 40);
           _ ← CBB_add_u8 cbb 46;
           add_decimal cbb (v mod 40));
    _ ← oid_rest_to_text (length copy) cbb copy;
    _ ← CBB_add_u8 cbb 0;
    CBB_finish cbb false) (Heap None ∅ 0%nat)).
End Oid.

(** * Decimal numbers *)

Definition is_digit (u : Z) : Prop := 48 <= u <= 57.
Definition dec_val (out : Z) (ds : list Z) : Z := fold_left (fun a u => a * 10 + (u - 48)) ds out.

(** No leading zero, except the number 0 itself. *)
Definition canonical (ds : list Z) : Prop :=
  Forall is_digit ds /\ exists u ds', ds = u :: ds' /\ (u = 48 -> ds' = []).

Lemma dec_val_app out l k : dec_val out (l ++ k) = dec_val (dec_val out l) k.
Proof. apply fold_left_app. Qed.

Lemma dec_val_mono out ds : 0 <= out -> Forall is_digit ds -> out <= dec_val out ds.
Proof.
  intros Ho Hds. revert out Ho. induction Hds as [|u ds Hu _ IH]; intros out Ho; cbn; [lia|].
  unfold is_digit in Hu. specialize (IH (out * 10 + (u - 48))). unfold dec_val in IH. lia.
Qed.

Lemma canonical_decimal fuel ds :
  canonical ds -> dec_val 0 ds < 10 ^ Z.of_nat fuel -> (0 < fuel)%nat ->
  decimal fuel (dec_val 0 ds) = ds.
Proof.
  intros Hc. revert fuel. destruct Hc as [Hds (u & ds' & -> & Hz)].
  apply Forall_cons in Hds as [Hu Hds]. unfold is_digit in Hu.
  induction ds' as [|d ds' IH] using rev_ind; intros fuel Hlt Hf.
  - assert (dec_val 0 [u] = u - 48) as E by (cbn; lia). rewrite E in *.
    destruct fuel as [|fuel]; [lia|]. cbn [decimal]. rewrite (proj2 (Z.ltb_lt _ _)) by lia. f_equal. lia.
  - apply Forall_app in Hds as [Hds Hd]. apply Forall_cons in Hd as [Hd _]. unfold is_digit in Hd.
    rewrite app_comm_cons, dec_val_app in *. set (x := dec_val 0 (u :: ds')) in *.
    change (dec_val x [d]) with (x * 10 + (d - 48)) in *.
    assert (0 < x) as Hx.
    { destruct (decide (u = 48)) as [->|]; [by destruct ds'; specialize (Hz eq_refl)|].
      pose proof (dec_val_mono (0 * 10 + (u - 48)) ds' ltac:(lia) Hds) as Hm.
      change (0 * 10 + (u - 48) <= x) in Hm. lia. }
    destruct fuel as [|fuel]; [lia|].
    rewrite Nat2Z.inj_succ, Z.pow_succ_r in Hlt by lia. cbn [decimal].
    assert (0 < fuel)%nat by (destruct fuel; [change (10 ^ Z.of_nat 0) with 1 in Hlt|]; lia).
    rewrite (proj2 (Z.ltb_ge _ _)) by lia.
    replace ((x * 10 + (d - 48)) / 10) with x by zdiv.
    replace ((x * 10 + (d - 48)) mod 10) with (d - 48) by zdiv.
    rewrite IH; [by replace (48 + (d - 48)) with d by lia|done| |lia|done].
    intros ->. specialize (Hz eq_refl). by destruct ds'.
Qed.

Lemma decimal_canonical fuel v :
  0 <= v < 10 ^ Z.of_nat fuel -> (0 < fuel)%nat ->
  canonical (decimal fuel v) /\ dec_val 0 (decimal fuel v) = v.
Proof.
  revert v. induction fuel as [|fuel IH]; intros v Hv Hf; [lia|]. cbn [decimal].
  destruct (Z.ltb_spec v 10).
  - split; [|cbn; lia]. split; [apply Forall_singleton; unfold is_digit; lia|by eexists _, []].
  - rewrite Nat2Z.inj_succ, Z.pow_succ_r in Hv by lia.
    assert (0 < fuel)%nat as Hf' by (destruct fuel; [change (10 ^ Z.of_nat 0) with 1 in Hv|]; lia).
    destruct (IH (v / 10)) as [[Hd (u & ds & E & Hz)] Hval]; [zdiv|done|].
    rewrite dec_val_app, Hval. change (dec_val (v / 10) [?d]) with (v / 10 * 10 + (d - 48)).
    split; [|zdiv]. split.
    + apply Forall_app. split; [done|]. apply Forall_singleton. unfold is_digit. zdiv.
    + rewrite E. eexists u, _. split; [done|]. intros ->. rewrite (Hz eq_refl) in E.
      rewrite E in Hval. cbn in Hval. exfalso. revert Hval. zdiv.
Qed.

Lemma dec_canonical v : in_word 64 v -> canonical (dec v) /\ dec_val 0 (dec v) = v.
Proof.
  intros Hv. apply decimal_canonical; [|lia]. destruct Hv. split; [done|].
  eapply Z.lt_trans; [done|]. reflexivity.
Qed.

Lemma canonical_dec ds : canonical ds -> dec_val 0 ds < 2 ^ 64 -> ds = dec (dec_val 0 ds).
Proof.
  intros Hc Hlt. symmetry. apply canonical_decimal; [done| |lia]. eapply Z.lt_trans; [done|]. reflexivity.
Qed.

(** * [parse_dotted_decimal] *)

(** What follows a component: the end, or a dot that is not the last byte. *)
Definition component_end (tail r : list Z) : Prop :=
  (tail = [] /\ r = []) \/ (tail = 46 :: r /\ r <> []).

Lemma component_end_stop (out : Z) seen tail r :
  component_end tail r ->
  parse_dotted_loop out seen tail = (if seen : bool then Some out else None, r).
Proof.
  intros [[-> ->]|[-> Hr]]; cbn; [done|]. destruct r as [|x r]; [done|].
  unfold CBS_len. rewrite blen_cons, (proj2 (Z.ltb_lt _ _)); [done|]. pose proof (blen_nonneg r). lia.
Qed.

Lemma parse_dotted_digit out (seen : bool) u s :
  in_word 64 out -> is_digit u -> (seen = true -> out <> 0) -> out * 10 + (u - 48) < 2 ^ 64 ->
  parse_dotted_loop out seen (u :: s) = parse_dotted_loop (out * 10 + (u - 48)) true s.
Proof.
  intros [Ho Ho'] [Hu Hu'] Hs Hlt. cbn [parse_dotted_loop].
  rewrite (proj2 (Z.eqb_neq u 46)) by lia. cbn [andb].
  assert (UINT64_MAX / 10 = 1844674407370955161) as -> by done.
  assert (UINT64_MAX = 18446744073709551615) as -> by done. pow2.
  rewrite !(wrap_small 64) by (unfold in_word; pow2; rewrite ?(wrap_small 64); unfold in_word; pow2; lia).
  rewrite !(proj2 (Z.ltb_ge _ _)) by lia. cbn [orb].
  destruct seen; cbn [andb]; [|done]. by rewrite (proj2 (Z.eqb_neq out 0)) by auto.
Qed.

Lemma parse_dotted_loop_digits ds out tail r :
  in_word 64 out -> Forall is_digit ds -> (out = 0 -> ds = []) -> dec_val out ds < 2 ^ 64 ->
  component_end tail r -> parse_dotted_loop out true (ds ++ tail) = (Some (dec_val out ds), r).
Proof.
  intros Ho Hds. revert out Ho. induction Hds as [|u ds Hu Hds IH]; intros out Ho Hz Hlt Ht.
  - by apply (component_end_stop out true).
  - cbn in Hlt. fold (dec_val (out * 10 + (u - 48)) ds) in Hlt. pose proof Hu as [Hu1 Hu2]. destruct Ho as [Ho1 Ho2].
    assert (out <> 0) as Hne by (intros E; by specialize (Hz E)).
    pose proof (dec_val_mono (out * 10 + (u - 48)) ds ltac:(lia) Hds).
    cbn [app]. rewrite parse_dotted_digit by (done || lia).
    apply IH; [|lia|done|done]. split; lia.
Qed.

Lemma parse_dotted_loop_inv s out seen v r :
  in_word 64 out -> parse_dotted_loop out seen s = (Some v, r) ->
  exists ds tail, s = ds ++ tail /\ Forall is_digit ds /\ component_end tail r /\
    v = dec_val out ds /\ v < 2 ^ 64 /\ (seen = true -> out = 0 -> ds = []) /\
    (seen = false -> exists u ds', ds = u :: ds' /\ (out * 10 + (u - 48) = 0 -> ds' = [])).
Proof.
  revert out seen. induction s as [|u s IH]; intros out seen Ho H; cbn [parse_dotted_loop] in H.
  - destruct seen; [|done]. injection H as <- <-. exists [], []. split_and!; try done; [by left|apply Ho].
  - destruct ((u =? 46) && (0 <? CBS_len s)) eqn:Edot.
    { destruct seen; [|done]. injection H as <- <-. apply andb_true_iff in Edot as [->%Z.eqb_eq Hl%Z.ltb_lt].
      exists [], (46 :: s). split_and!; try done; [right|apply Ho]. split; [done|]. by intros ->. }
    assert (UINT64_MAX / 10 = 1844674407370955161) as E1 by done.
    assert (UINT64_MAX = 18446744073709551615) as E2 by done. rewrite E1, E2 in H.
    destruct (_ || _) eqn:Eg in H; [done|].
    rewrite !orb_false_iff, !andb_false_iff, !Z.ltb_ge, Z.eqb_neq in Eg.
    destruct Eg as ((((Hu & Hu') & Hz) & Hmax) & Hov). destruct Ho as [Ho1 Ho2].
    rewrite (wrap_small 64 (out * 10)) in Hov, H by (unfold in_word; pow2; lia).
    rewrite (wrap_small 64 (out * 10 + _)) in H by (unfold in_word; pow2; lia).
    apply IH in H as (ds & tail & -> & Hds & Ht & Hv & Hlt & Hsz & _); [|unfold in_word; pow2; lia].
    exists (u :: ds), tail. split_and!; try done.
    + by constructor.
    + intros -> ->. naive_solver.
    + intros _. exists u, ds. split; [done|auto].
Qed.

Lemma parse_dotted_decimal_Some s v r :
  parse_dotted_decimal s = (Some v, r) <->
  in_word 64 v /\ exists tail, s = dec v ++ tail /\ component_end tail r.
Proof.
  unfold parse_dotted_decimal. split.
  - intros H. apply parse_dotted_loop_inv in H
      as (ds & tail & -> & Hds & Ht & -> & Hlt & _ & Hf); [|done].
    destruct (Hf eq_refl) as (u & ds' & -> & Hz).
    split; [split; [by apply dec_val_mono|done]|]. exists tail. split; [|done]. f_equal.
    apply canonical_dec; [|done]. split; [done|]. exists u, ds'. split; [done|]. intros ->. by apply Hz.
  - intros [Hv (tail & -> & Ht)]. destruct (dec_canonical v Hv) as [[Hds (u & ds & E & Hz)] Hval].
    rewrite E in *. apply Forall_cons in Hds as [Hu Hds]. change (dec_val (u - 48) ds = v) in Hval.
    destruct Hv as [Hv1 Hv2]. pose proof Hu as [Hu1 Hu2].
    pose proof (dec_val_mono (u - 48) ds ltac:(lia) Hds).
    cbn [app]. rewrite parse_dotted_digit by (done || lia). change (0 * 10 + (u - 48)) with (u - 48).
    rewrite (parse_dotted_loop_digits ds (u - 48) tail r); rewrite ?Hval; try done.
    + split; lia.
    + intros. apply Hz. lia.
Qed.

(** * Object identifiers *)

Fixpoint oid_text (l : list Z) : list Z :=
  match l with
  | [] => []
  | v :: l => dec v ++ match l with [] => [] | _ :: _ => 46 :: oid_text l end
  end.

(** The first two components, as the source bounds them. *)
Definition oid_head (a b : Z) : Prop :=
  0 <= a <= 2 /\ 0 <= b <= UINT64_MAX - 80 /\ (a < 2 -> b <= 39).

Definition oid_der (a b : Z) (rest : list Z) : list Z :=
  base128 (40 * a + b) ++ concat (map base128 rest).

Lemma dec_nonempty v : in_word 64 v -> dec v <> [].
Proof. intros [[_ (u & ds & -> & _)] _]%dec_canonical. done. Qed.

Lemma oid_text_nonempty v l : in_word 64 v -> oid_text (v :: l) <> [].
Proof. intros Hv%dec_nonempty. intros [E _]%app_eq_nil. done. Qed.

Lemma oid_text_shorter v l : in_word 64 v -> (length (oid_text l) < length (oid_text (v :: l)))%nat.
Proof.
  intros Hv%dec_nonempty. cbn [oid_text]. rewrite length_app.
  assert (0 < length (dec v))%nat by (destruct (dec v); [congruence|cbn; lia]).
  destruct l; cbn [length oid_text]; lia.
Qed.

Lemma parse_oid_text v l :
  in_word 64 v -> Forall (in_word 64) l ->
  parse_dotted_decimal (oid_text (v :: l)) = (Some v, oid_text l).
Proof.
  intros Hv Hl. apply parse_dotted_decimal_Some. split; [done|]. eexists. split; [done|].
  destruct Hl as [|w l Hw Hl]; [by left|right]. split; [done|]. by apply oid_text_nonempty.
Qed.

(** The text before a component that parses, from the text after it. *)
Lemma parse_oid_text_inv s v l :
  parse_dotted_decimal s = (Some v, oid_text l) -> Forall (in_word 64) l ->
  in_word 64 v /\ s = oid_text (v :: l).
Proof.
  intros (Hv & tail & -> & Ht)%parse_dotted_decimal_Some Hl. split; [done|]. cbn. f_equal.
  destruct Hl as [|w l Hw Hl].
  - by destruct Ht as [[-> _]|[_ ?]].
  - destruct Ht as [[_ Hx]|[-> _]]; [|done]. by apply oid_text_nonempty in Hx.
Qed.

Lemma bytes_oid_rest rest : bytes (concat (map base128 rest)).
Proof. induction rest; [done|]. apply bytes_app. auto using bytes_base128. Qed.

Lemma parse_oid_component v rest : in_word 64 v ->
  parse_base128_integer (base128 v ++ concat (map base128 rest)) = (Some v, concat (map base128 rest)).
Proof. intros Hv. by apply parse_base128_integer_Some; [apply (bytes_oid_rest (v :: rest))|]. Qed.

Section Write.
Context {m : Malloc}.

Lemma builds_oid_rest N rest fuel n st p k bs :
  Forall (in_word 64) rest -> (length (oid_text rest) <= fuel)%nat ->
  blen (flat (st ++ [(p, k, bs ++ concat (map base128 rest))])) <= N ->
  builds N (oid_rest_from_text fuel p (oid_text rest)) n (st ++ [(p, k, bs)]) tt n
    (st ++ [(p, k, bs ++ concat (map base128 rest))]).
Proof.
  intros Hr. revert fuel bs. induction Hr as [|v rest Hv Hr IH]; intros fuel bs Hf HN.
  - cbn [map concat] in *. rewrite app_nil_r. destruct fuel; apply builds_ret.
  - cbn [map concat] in *. rewrite app_assoc in *.
    rewrite flat_top_blen, !blen_app in HN. pose proof (blen_nonneg (concat (map base128 rest))).
    pose proof (oid_text_shorter v rest Hv) as Hlt.
    destruct fuel as [|fuel]; [lia|].
    cbn [oid_rest_from_text]. rewrite (proj2 (Z.leb_gt (CBS_len _) 0)) by (unfold CBS_len, blen; lia).
    eapply builds_ext; [intros h; rewrite on_copy_bind, parse_oid_text by done; reflexivity|].
    eapply builds_bind; [apply builds_add_base128; rewrite flat_top_blen; lia|].
    apply IH; [lia|rewrite flat_top_blen, !blen_app; lia].
Qed.

Lemma oid_head_value a b : oid_head a b -> u64 (u64 (40 * a) + b) = 40 * a + b /\ in_word 64 (40 * a + b).
Proof.
  intros (Ha & Hb & _). assert (UINT64_MAX = 18446744073709551615) as E by done. rewrite E in Hb.
  rewrite (wrap_small 64 (40 * a)) by (unfold in_word; pow2; lia).
  rewrite wrap_small by (unfold in_word; pow2; lia). split; [done|]. unfold in_word. pow2. lia.
Qed.

Lemma oid_head_words a b : oid_head a b -> in_word 64 a /\ in_word 64 b.
Proof. intros (?&?&_). assert (UINT64_MAX = 18446744073709551615) as E by done. unfold in_word. pow2. lia. Qed.

Lemma oid_head_check a b : in_word 64 a -> in_word 64 b ->
  negb ((2 <? a) || ((a <? 2) && (39 <? b)) || (UINT64_MAX - 80 <? b)) = true <-> oid_head a b.
Proof.
  intros Ha Hb. unfold oid_head, in_word in *. rewrite negb_true_iff, !orb_false_iff, andb_false_iff, !Z.ltb_ge. lia.
Qed.

Lemma builds_oid_from_text N a b rest n st p k bs :
  oid_head a b -> Forall (in_word 64) rest ->
  blen (flat (st ++ [(p, k, bs ++ oid_der a b rest)])) <= N ->
  builds N (CBB_add_asn1_oid_from_text p (oid_text (a :: b :: rest))) n (st ++ [(p, k, bs)]) tt n
    (st ++ [(p, k, bs ++ oid_der a b rest)]).
Proof.
  intros Hh Hr HN. destruct (oid_head_words a b Hh) as [Ha Hb].
  destruct (oid_head_value a b Hh) as [Hw Hin]. unfold oid_der in *. rewrite app_assoc in *.
  rewrite flat_top_blen, !blen_app in HN. pose proof (blen_nonneg (concat (map base128 rest))).
  unfold CBB_add_asn1_oid_from_text, CBS_init. eapply builds_bind; [apply builds_flush_top|].
  eapply builds_ext.
  { intros h. rewrite on_copy_bind, parse_oid_text by auto.
    rewrite on_copy_bind, parse_oid_text, massert_bind by auto.
    rewrite (proj2 (oid_head_check a b Ha Hb) Hh), Hw. reflexivity. }
  eapply builds_bind; [apply builds_add_base128; rewrite flat_top_blen; lia|].
  apply builds_oid_rest; [done| |rewrite flat_top_blen, !blen_app; lia].
  pose proof (oid_text_shorter b rest Hb). pose proof (oid_text_shorter a (b :: rest) Ha). lia.
Qed.

(** Only the canonical text of a representable identifier is accepted. *)
Lemma oid_rest_from_text_inv fuel p s h h' :
  oid_rest_from_text fuel p s h = (Some tt, h') ->
  exists rest, Forall (in_word 64) rest /\ s = oid_text rest.
Proof.
  revert s h. induction fuel as [|fuel IH]; intros s h H; cbn [oid_rest_from_text] in H;
    (destruct (Z.leb_spec (CBS_len s) 0);
      [exists []; split; [done|apply blen_inv_nil; unfold CBS_len in *; pose proof (blen_nonneg s); lia]|]).
  - done.
  - minvs. apply IH in H as (rest & Hr & ->).
    apply parse_oid_text_inv in E as [Hv ->]; [|done]. exists (z :: rest). auto.
Qed.

Lemma oid_from_text_inv p s h h' :
  CBB_add_asn1_oid_from_text p s h = (Some tt, h') ->
  exists a b rest, oid_head a b /\ Forall (in_word 64) rest /\ s = oid_text (a :: b :: rest).
Proof.
  unfold CBB_add_asn1_oid_from_text, CBS_init. intros H. minvs.
  apply oid_rest_from_text_inv in H as (rest & Hr & ->).
  apply parse_oid_text_inv in E1 as [Hb ->]; [|done].
  apply parse_oid_text_inv in E0 as [Ha ->]; [|by constructor].
  exists z, z0, rest. split_and!; [by apply oid_head_check|done|done].
Qed.

Lemma builds_oid_rest_to_text N rest fuel n st p k bs :
  Forall (in_word 64) rest -> (length (concat (map base128 rest)) <= fuel)%nat ->
  let txt := concat (map (fun v => 46 :: dec v) rest) in
  blen (flat (st ++ [(p, k, bs ++ txt)])) <= N ->
  builds N (oid_rest_to_text fuel p (concat (map base128 rest))) n (st ++ [(p, k, bs)]) tt n
    (st ++ [(p, k, bs ++ txt)]).
Proof.
  intros Hr. revert fuel bs. induction Hr as [|v rest Hv Hr IH]; intros fuel bs Hf txt HN.
  - unfold txt. rewrite app_nil_r. destruct fuel; apply builds_ret.
  - unfold txt in *. clear txt. cbn [map concat] in *. rewrite length_app in Hf.
    set (txt := concat (map (fun v => 46 :: dec v) rest)) in *.
    rewrite flat_top_blen, !blen_app, blen_cons in HN. pose proof (blen_nonneg txt). pose proof (blen_nonneg (dec v)).
    pose proof (blen_base128 v Hv) as Hl. unfold blen in Hl.
    destruct fuel as [|fuel]; [lia|]. cbn [oid_rest_to_text].
    rewrite (proj2 (Z.eqb_neq _ 0)) by (unfold CBS_len, blen; rewrite length_app; lia).
    eapply builds_ext.
    { intros h. rewrite on_copy_bind.
      rewrite parse_oid_component by done.
      reflexivity. }
    eapply builds_bind; [apply builds_add_u8; [done|rewrite flat_top_blen; lia]|].
    eapply builds_bind; [apply builds_add_bytes; rewrite flat_top_blen, blen_app, blen_singleton; lia|].
    change ((46 :: dec v) ++ txt) with ([46] ++ (dec v ++ txt)). rewrite (app_assoc bs), (app_assoc (bs ++ _)).
    apply IH; [lia|]. rewrite flat_top_blen, !blen_app, blen_singleton. lia.
Qed.

Lemma oid_text_dots v l : oid_text (v :: l) = dec v ++ concat (map (fun v => 46 :: dec v) l).
Proof.
  revert v. induction l as [|w l IH]; intros v; [done|].
  change (oid_text (v :: w :: l)) with (dec v ++ 46 :: oid_text (w :: l)). by rewrite IH.
Qed.

(** The first component splits back. *)
Lemma builds_oid_head_to_text N a b n st p k bs :
  oid_head a b -> blen (flat (st ++ [(p, k, bs ++ dec a ++ 46 :: dec b)])) <= N ->
  builds N (if 80 <=? 40 * a + b then
           _ ← CBB_add_bytes p [50; 46];
           add_decimal p (40 * a + b - 80)
         else
           _ ← add_decimal p ((40 * a + b) / 40);
           _ ← CBB_add_u8 p 46;
           add_decimal p ((40 * a + b) mod 40)) n (st ++ [(p, k, bs)]) tt n
    (st ++ [(p, k, bs ++ dec a ++ 46 :: dec b)]).
Proof.
  intros (Ha & Hb & Hab) HN. rewrite flat_top_blen, !blen_app, blen_cons in HN.
  pose proof (blen_nonneg (dec a)). pose proof (blen_nonneg (dec b)).
  destruct (Z.leb_spec 80 (40 * a + b)).
  - assert (a = 2) as -> by lia. replace (40 * 2 + b - 80) with b by lia.
    change (dec 2 ++ 46 :: dec b) with ([50; 46] ++ dec b). rewrite app_assoc.
    change (blen (dec 2)) with 1 in HN.
    eapply builds_bind; [apply builds_add_bytes; rewrite flat_top_blen; change (blen [50; 46]) with 2; lia|].
    apply builds_add_bytes. rewrite flat_top_blen, blen_app. change (blen [50; 46]) with 2. lia.
  - replace ((40 * a + b) / 40) with a by zdiv. replace ((40 * a + b) mod 40) with b by zdiv.
    change (46 :: dec b) with ([46] ++ dec b). rewrite (app_assoc bs), (app_assoc (bs ++ _)).
    eapply builds_bind; [apply builds_add_bytes; rewrite flat_top_blen; lia|].
    eapply builds_bind; [apply builds_add_u8; [done|rewrite flat_top_blen, blen_app; lia]|].
    apply builds_add_bytes. rewrite flat_top_blen, !blen_app, blen_singleton. lia.
Qed.

(** A component takes at most ten bytes, and at least one character. *)
Lemma blen_oid_der a b rest :
  oid_head a b -> Forall (in_word 64) rest ->
  blen (oid_der a b rest) <= 10 * blen (oid_text (a :: b :: rest)).
Proof.
  intros Hh Hr. destruct (oid_head_words a b Hh) as [Ha Hb]. destruct (oid_head_value a b Hh) as [_ Hin].
  assert (forall l, Forall (in_word 64) l -> blen (concat (map base128 l)) <= 10 * blen (oid_text l)) as Hl.
  { induction 1 as [|v l Hv Hl IH]; [done|]. cbn [map concat]. rewrite blen_app.
    pose proof (blen_base128 v Hv). pose proof (oid_text_shorter v l Hv). unfold blen in *. lia. }
  specialize (Hl rest Hr). unfold oid_der. rewrite blen_app. pose proof (blen_base128 _ Hin).
  pose proof (oid_text_shorter b rest Hb). pose proof (oid_text_shorter a (b :: rest) Ha). unfold blen in *. lia.
Qed.

Lemma blen_flat_root p bs : blen (flat ([] ++ [(p, KRoot, bs)])) = blen bs.
Proof. rewrite flat_top_blen. change (0 + 0 + blen bs = blen bs). lia. Qed.

Lemma oid_to_text_der a b rest :
  MallocTotal m -> oid_head a b -> Forall (in_word 64) rest ->
  let txt := oid_text (a :: b :: rest) in blen txt < 2 ^ 60 ->
  exists mem, CBS_asn1_oid_to_text (oid_der a b rest) = Some (mem, blen txt + 1) /\
    take (Z.to_nat (blen txt + 1)) mem = txt ++ [0].
Proof.
  intros Hm Hh Hr txt Hlen. destruct (oid_head_value a b Hh) as [_ Hin].
  pose proof (blen_nonneg txt). change (2 ^ 60) with 1152921504606846976 in Hlen.
  unfold CBS_asn1_oid_to_text, oid_der.
  change (new_cbb ?h) with (Some 0%nat, Heap None ∅ 1%nat).
  rewrite (bind_ok _ _ _ 0%nat (Heap None ∅ 1%nat)) by done.
  destruct (CBB_init_rep 0%nat 32 (Heap None ∅ 1%nat)) as (h1 & b1 & E1 & Hr1 & Hn1 & Hc1); [done|done|cbn; lia| |].
  { intros q. cbn. rewrite dom_empty_L. set_solver. }
  rewrite (bind_ok _ _ _ _ _ E1), on_copy_bind.
  rewrite parse_oid_component by done.
  assert (txt = dec a ++ 46 :: dec b ++ concat (map (fun v => 46 :: dec v) rest)) as Htxt
    by apply (oid_text_dots a (b :: rest)).
  set (head := dec a ++ 46 :: dec b) in *. set (tail := concat _) in Htxt.
  assert (txt = head ++ tail) as Hht by (unfold head; by rewrite <-app_assoc).
  pose proof (blen_nonneg head). pose proof (blen_nonneg tail).
  assert (blen txt = blen head + blen tail) as Hbl by (by rewrite Hht, blen_app).
  set (N := blen txt + 1).
  assert (forall b', grows b1 b' -> room b' N) as Hroom.
  { intros b' Hg. apply Hg. split; [change (2 ^ 61) with 2305843009213693952; lia|by right]. }
  destruct (builds_oid_head_to_text N a b 1%nat [] 0%nat KRoot [] Hh) with (h := h1) (b := b1)
    as (h2 & b2 & E2 & Hr2 & Hn2 & Hg2); [|done|done|by apply Hroom, grows_refl, Hr1|].
  { rewrite blen_flat_root. change (blen head <= N). lia. }
  rewrite (bind_ok _ _ _ _ _ E2).
  destruct (builds_oid_rest_to_text N rest (length (concat (map base128 rest))) 1%nat [] 0%nat KRoot head Hr)
    with (h := h2) (b := b2) as (h3 & b3 & E3 & Hr3 & Hn3 & Hg3);
    [done|rewrite blen_flat_root; change (blen (head ++ tail) <= N); rewrite blen_app; lia|done|done|by apply Hroom|].
  rewrite (bind_ok _ _ _ _ _ E3). fold tail in Hr3. rewrite <-Hht in Hr3.
  assert (grows b1 b3) as Hg13 by (by eapply grows_trans).
  destruct (builds_add_u8 N 1%nat [] 0%nat KRoot txt 0) with (h := h3) (b := b3)
    as (h4 & b4 & E4 & Hr4 & Hn4 & Hg4);
    [done|rewrite blen_flat_root; lia|done|done|by apply Hroom|].
  rewrite (bind_ok _ _ _ _ _ E4).
  destruct (CBB_finish_rep h4 b4 0%nat (txt ++ [0]) [] []) as (h5 & mem & E5 & Hmem & _); [done|done| |].
  { rewrite app_nil_r, blen_app. apply Hroom. by eapply grows_trans. }
  rewrite app_nil_r, blen_app in *. exists mem. by rewrite E5.
Qed.
End Write.
