(* ===== verification/Ber.v ===== *)
(** crypto/bytestring/ber.c: conversion of BER to DER.

    The C functions recurse on nested elements and loop over sibling elements;
    both steps consume input, so one [fuel], the number of input bytes, serves
    both, and the depth is counted as the source counts it. *)

From S2P Require Import Prelude CryptoInternal Cbs Cbb CbbSpec.

Definition kMaxDepth : Z := 2048.

Definition constructed (tag : Z) : bool := negb (Z.land tag CBS_ASN1_CONSTRUCTED =? 0).

(** [tag & ~CBS_ASN1_CONSTRUCTED] on an [unsigned]. *)
Definition clear_constructed (tag : Z) : Z := Z.land tag (u32 (Z.lnot CBS_ASN1_CONSTRUCTED)).

(** OCTET STRING, UTF8String, NumericString, PrintableString, T61String,
    VideotexString, IA5String, GraphicString, VisibleString, GeneralString,
    UniversalString and BMPString. *)
Definition is_string_type (tag : Z) : bool :=
  bool_decide (clear_constructed tag ∈
    [0x4; 0xc; 0x12; 0x13; 0x14; 0x15; 0x16; 0x19; 0x1a; 0x1b; 0x1c; 0x1e]).

(** The loop of [cbs_find_ber]; [ber_found] is the value of [*ber_found]. *)
Fixpoint find_ber_loop (fuel : nat) (ber_found : bool) (depth : Z) (in_ : CBS) : option bool :=
  if CBS_len in_ <=? 0 then Some ber_found
  else match fuel with
  | O => None
  | S fuel =>
      match CBS_get_any_ber_asn1_element in_ with
      | (None, _) => None
      | (Some e, in_) =>
          let ber_found := ae_ber_found e in
          if ber_found then Some true
          else if constructed (ae_tag e) then
            if is_string_type (ae_tag e) then Some true
            else match CBS_skip (ae_header_len e) (ae_out e) with
                 | (None, _) => None
                 | (Some _, contents) =>
                     match (if kMaxDepth <? depth + 1 then None
                            else find_ber_loop fuel false (depth + 1) contents) with
                     | None => None
                     | Some ber_found => find_ber_loop fuel ber_found depth in_
                     end
                 end
          else find_ber_loop fuel ber_found depth in_
      end
  end.

Definition cbs_find_ber (orig_in : CBS) (depth : Z) : option bool :=
  if kMaxDepth <? depth then None else find_ber_loop (length orig_in) false depth orig_in.

Definition is_eoc (header_len : Z) (contents : CBS) : bool :=
  (header_len =? 2) && (CBS_len contents =? 2) && (OPENSSL_memcmp (CBS_data contents) [0; 0] 2 =? 0).

(** An indefinite-length element: nothing but a header that ends in 0x80. *)
Definition is_indefinite (header_len : Z) (contents : CBS) : bool :=
  (CBS_len contents =? header_len) && (0 <? header_len) &&
  (nth (Z.to_nat (header_len - 1)) contents 0 =? 0x80).

(** The tag to write for an element outside a string, and the string tag its
    children are to match. *)
Definition convert_tags (tag : Z) : Z * Z :=
  if constructed tag && is_string_type tag
  then (clear_constructed tag, clear_constructed tag) else (tag, 0).

Section Convert.
Context {m : Malloc}.

(** The state of a conversion: the heap that holds the [CBB]s, and the [CBS] that
    [in] points to. *)
Definition conv : Type := heap * CBS.

(** A call on the [CBB]s; a call on [*in]; a call on a local [CBS]. *)
Definition on_heap {A} (o : M heap A) : M conv A := fun '(h, in_) =>
  let '(r, h) := o h in (r, (h, in_)).
Definition on_in {A} (o : M CBS A) : M conv A := fun '(h, in_) =>
  let '(r, in_) := o in_ in (r, (h, in_)).
Definition on_local {A} (contents : CBS) (o : M conv A) : M conv A := fun '(h, in_) =>
  let '(r, (h, _)) := o (h, contents) in (r, (h, in_)).

(** The source writes the flush that ends an iteration once for each of the two
    kinds of element. *)
Fixpoint convert_ber_loop (fuel : nat) (out : loc) (string_tag : Z) (looking_for_eoc : bool)
    (depth : Z) : M conv unit :=
  in_ ← on_in mget;
  if CBS_len in_ <=? 0 then massert (negb looking_for_eoc)
  else match fuel with
  | O => mfail
  | S fuel =>
      e ← on_in CBS_get_any_ber_asn1_element;
      let contents := ae_out e in
      let header_len := ae_header_len e in
      let tag := ae_tag e in
      if is_eoc header_len contents then massert looking_for_eoc
      else
        '(out_contents, child_string_tag) ← on_heap
          (if negb (string_tag =? 0) then
             _ ← massert (clear_constructed tag =? string_tag);
             mret (out, string_tag)
           else
             let '(out_tag, child_string_tag) := convert_tags tag in
             c ← new_cbb;
             _ ← CBB_add_asn1 out c out_tag;
             mret (c, child_string_tag));
        _ ← (if is_indefinite header_len contents then
               _ ← massert (negb (kMaxDepth <? depth + 1));
               convert_ber_loop fuel out_contents child_string_tag true (depth + 1)
             else
               '(_, contents) ← on_copy contents (CBS_skip header_len);
               if constructed tag then
                 _ ← massert (negb (kMaxDepth <? depth + 1));
                 on_local contents (convert_ber_loop fuel out_contents child_string_tag false (depth + 1))
               else
                 on_heap (CBB_add_bytes out_contents contents));
        _ ← on_heap (CBB_flush out);
        convert_ber_loop fuel out string_tag looking_for_eoc depth
  end.

Definition cbs_convert_ber (out : loc) (string_tag : Z) (looking_for_eoc : bool)
    (depth : Z) : M conv unit :=
  in_ ← on_in mget;
  if kMaxDepth <? depth then mfail
  else convert_ber_loop (length in_) out string_tag looking_for_eoc depth.

(** The state is the caller's [CBS], which the conversion advances as it reads,
    and which stays where it is when the conversion fails. The result is the DER
    and, when a conversion took place, the storage. The [CBB] is a local of the
    function. *)
Definition CBS_asn1_ber_to_der : M CBS (CBS * option (list Z)) := fun in_ =>
  match cbs_find_ber in_ 0 with
  | None => (None, in_)
  | Some false =>
      match CBS_get_any_asn1_element in_ with
      | (Some e, in_) => (Some (ae_out e, None), in_)
      | (None, in_) => (None, in_)
      end
  | Some true =>
      match (cbb ← on_heap new_cbb;
             _ ← on_heap (CBB_init cbb (CBS_len in_));
             _ ← cbs_convert_ber cbb 0 false 0;
             on_heap (CBB_finish cbb false)) (Heap None ∅ 0%nat, in_) with
      | (Some (storage, len), (_, in_)) => (Some (take (Z.to_nat len) storage, Some storage), in_)
      | (None, (_, in_)) => (None, in_)
      end
  end.

(** The chunks of a constructed string; [fuel] as above. *)
Fixpoint implicit_string_loop (fuel : nat) (result : loc) (inner_tag : Z) (child : CBS) : M heap unit :=
  if CBS_len child <=? 0 then mret tt
  else match fuel with
  | O => mfail
  | S fuel =>
      '(chunk, child) ← on_copy child (CBS_get_asn1 inner_tag);
      _ ← CBB_add_bytes result chunk;
      implicit_string_loop fuel result inner_tag child
  end.

Definition CBS_get_asn1_implicit_string (outer_tag inner_tag : Z) : M CBS (CBS * option (list Z)) := fun in_ =>
  if CBS_peek_asn1_tag in_ outer_tag then
    match CBS_get_asn1 outer_tag in_ with
    | (Some out, in_) => (Some (out, None), in_)
    | (None, in_) => (None, in_)
    end
  else
    match CBB_init 0%nat (CBS_len in_) (Heap None ∅ 1%nat) with
    | (None, _) => (None, in_)
    | (Some _, h) =>
        match CBS_get_asn1 (Z.lor outer_tag CBS_ASN1_CONSTRUCTED) in_ with
        | (None, in_) => (None, in_)
        | (Some child, in_) =>
            match (_ ← implicit_string_loop (length child) 0%nat inner_tag child;
                   CBB_finish 0%nat false) h with
            | (Some (data, len), _) => (Some (take (Z.to_nat len) data, Some data), in_)
            | (None, _) => (None, in_)
            end
        end
    end.
End Convert.

(** * The conversion as a function on bytes *)

(** What [convert_ber_loop] appends, and what it leaves of its input. *)
Fixpoint convert (fuel : nat) (string_tag : Z) (looking_for_eoc : bool) (depth : Z) (in_ : CBS)
    : option (list Z * CBS) :=
  if CBS_len in_ <=? 0 then if looking_for_eoc then None else Some ([], in_)
  else match fuel with
  | O => None
  | S fuel =>
      match CBS_get_any_ber_asn1_element in_ with
      | (None, _) => None
      | (Some e, in_) =>
          let tag := ae_tag e in
          let body := drop (Z.to_nat (ae_header_len e)) (ae_out e) in
          if is_eoc (ae_header_len e) (ae_out e) then
            if looking_for_eoc then Some ([], in_) else None
          else if negb (string_tag =? 0) && negb (clear_constructed tag =? string_tag) then None
          else
            let '(out_tag, child) := if string_tag =? 0 then convert_tags tag else (tag, string_tag) in
            '(d, in_) ←
              (if is_indefinite (ae_header_len e) (ae_out e) then
                 if kMaxDepth <? depth + 1 then None else convert fuel child true (depth + 1) in_
               else if constructed tag then
                 if kMaxDepth <? depth + 1 then None
                 else '(d, _) ← convert fuel child false (depth + 1) body; Some (d, in_)
               else Some (body, in_));
            '(ds, in_) ← convert fuel string_tag looking_for_eoc depth in_;
            Some ((if string_tag =? 0 then asn1_bytes out_tag d else d) ++ ds, in_)
      end
  end.

(** ** What the lax reader returns *)

(** The element is a prefix of the input, the header a prefix of the element,
    and the header holds at least the identifier octets and one length octet. *)
Lemma ber_element_shape ber_ok s e r :
  bytes s -> cbs_get_any_asn1_element ber_ok s = (Some e, r) ->
  exists hdr body, ae_out e = hdr ++ body /\ s = hdr ++ body ++ r /\ ae_header_len e = blen hdr /\
    in_word 32 (ae_tag e) /\ blen (asn1_tag_bytes (ae_tag e)) + 1 <= blen hdr.
Proof.
  intros Hs H. pose proof H as (tag & lb & h & Hlb & Hh & Htag & Heq & Ht)%cbs_get_any_asn1_element_inv; [|done].
  erewrite cbs_get_any_asn1_element_unfold in H by done. cbv zeta in H.
  assert (blen s - blen h = blen (asn1_tag_bytes tag) + 1) as Hhl
    by (rewrite Heq, blen_app, blen_cons; lia).
  set (hdr := asn1_tag_bytes tag ++ [lb]).
  assert (blen hdr = blen (asn1_tag_bytes tag) + 1) as Hhdr by (unfold hdr; by rewrite blen_app, blen_singleton).
  assert (s = hdr ++ h) as Hsh by (unfold hdr; by rewrite <-app_assoc).
  pose proof (blen_asn1_tag_bytes tag). destruct Hlb as [Hlb1 Hlb2].
  rewrite Hhl in H. destruct (lb <? 128).
  - minvs. eapply (cbs_get_extends _ hdr h) in E as (body & -> & -> & _); [|exact Hsh|lia].
    exists hdr, body. cbn. by rewrite Hhdr.
  - destruct (ber_ok && _ && _).
    + minvs. eapply (cbs_get_extends _ hdr h) in E as (body & -> & -> & Hl); [|exact Hsh|lia].
      exists hdr, body. cbn. by rewrite Hhdr.
    + minvs. rename H1 into Hnb. apply negb_true_iff, orb_false_iff in Hnb as [Hn0%Z.eqb_neq Hn4%Z.ltb_ge].
      pose proof (Z.mod_pos_bound lb 128 ltac:(lia)). set (n := lb mod 128) in *.
      match goal with E : cbs_get_u n h = _ |- _ =>
        apply cbs_get_u_Some in E as (d & Hd1 & Hd2 & Hd3); [|lia|done] end.
      assert (0 <= z < 2 ^ 32) as Hz.
      { subst z. assert (bytes d) as Hdb by (rewrite Hd1 in Hh; by apply bytes_app in Hh as [? _]).
        pose proof (be_val_bound d Hdb). rewrite Hd2 in *.
        pose proof (Z.pow_le_mono_r 256 n 4). change (256 ^ 4) with (2 ^ 32) in *. lia. }
      rewrite (wrap_small 64 (z + _)) in E3 by (unfold in_word; pow2; lia).
      assert (blen (hdr ++ d) = blen (asn1_tag_bytes tag) + 1 + n) as Hhd by (rewrite blen_app; lia).
      eapply (cbs_get_extends _ (hdr ++ d) l) in E3 as (body & -> & -> & _);
        [|by rewrite Hsh, Hd1, <-app_assoc|lia].
      exists (hdr ++ d), body. cbn. rewrite Hhd.
      split_and!; [done|by rewrite Hsh, Hd1, <-!app_assoc|done|done|lia].
Qed.

(** ** Clearing the constructed bit *)

Lemma clear_constructed_number tag :
  in_word 32 tag ->
  Z.land (clear_constructed tag) CBS_ASN1_TAG_NUMBER_MASK = Z.land tag CBS_ASN1_TAG_NUMBER_MASK.
Proof. intros _. unfold clear_constructed. rewrite <-Z.land_assoc. f_equal. Qed.

Lemma blen_tag_bytes_number t t' :
  Z.land t CBS_ASN1_TAG_NUMBER_MASK = Z.land t' CBS_ASN1_TAG_NUMBER_MASK ->
  blen (asn1_tag_bytes t) = blen (asn1_tag_bytes t').
Proof. unfold asn1_tag_bytes. intros ->. by destruct (_ <=? _). Qed.

Lemma clear_constructed_word tag : in_word 32 tag -> in_word 32 (clear_constructed tag).
Proof. intros. apply land_range; [lia|done|]. by apply wrap_range. Qed.

Lemma constructed_clear tag : constructed (clear_constructed tag) = false.
Proof.
  unfold constructed, clear_constructed. rewrite <-Z.land_assoc.
  change (Z.land (u32 (Z.lnot CBS_ASN1_CONSTRUCTED)) CBS_ASN1_CONSTRUCTED) with 0. by rewrite Z.land_0_r.
Qed.

Lemma convert_tags_spec tag :
  in_word 32 tag ->
  let '(out_tag, child) := convert_tags tag in
  in_word 32 out_tag /\ blen (asn1_tag_bytes out_tag) = blen (asn1_tag_bytes tag) /\
  ((constructed tag && is_string_type tag = true /\ child = out_tag /\ constructed out_tag = false /\ child <> 0) \/
   (constructed tag && is_string_type tag = false /\ child = 0 /\ out_tag = tag)).
Proof.
  intros Ht. unfold convert_tags. destruct (constructed tag && is_string_type tag) eqn:E.
  - split_and!; [by apply clear_constructed_word|by apply blen_tag_bytes_number, clear_constructed_number|].
    left. split_and!; [done|done|apply constructed_clear|].
    apply andb_true_iff in E as [_ E]. unfold is_string_type in E. intros E0. by rewrite E0 in E.
  - auto 10.
Qed.

(** ** The size of the output *)

Lemma ber_element_read s e r :
  bytes s -> CBS_get_any_ber_asn1_element s = (Some e, r) ->
  exists hdr body, ae_out e = hdr ++ body /\ ae_header_len e = blen hdr /\ bytes body /\ bytes r /\
    drop (Z.to_nat (ae_header_len e)) (ae_out e) = body /\
    CBS_skip (ae_header_len e) (ae_out e) = (Some tt, body) /\ in_word 32 (ae_tag e) /\
    blen s = blen hdr + blen body + blen r /\ blen (asn1_tag_bytes (ae_tag e)) + 1 <= blen hdr.
Proof.
  intros Hs H. pose proof H as (hdr & body & Ho & Heq & Hh & Ht & Hl)%ber_element_shape; [|done].
  exists hdr, body. rewrite Ho, Hh, drop_blen_app, CBS_skip_app.
  rewrite Heq, !bytes_app in Hs. destruct Hs as (_ & ? & ?).
  split_and!; try done. rewrite Heq, !blen_app. lia.
Qed.

Lemma convert_size fuel string_tag looking depth in_ d r :
  bytes in_ -> convert fuel string_tag looking depth in_ = Some (d, r) ->
  bytes d /\ bytes r /\ blen d + 3 * blen r <= 3 * blen in_.
Proof.
  revert string_tag looking depth in_ d r.
  induction fuel as [|fuel IH]; intros string_tag looking depth in_ d r Hin H; cbn [convert] in H;
    (destruct (_ <=? 0); [destruct looking; simplify_eq; rewrite blen_nil; split_and!; (done || lia)|]); [done|].
  destruct (CBS_get_any_ber_asn1_element in_) as [[e|] in1] eqn:E; [|done].
  pose proof E as (hdr & body & Ho & Hh & Hb & Hr & Hbody & _ & Ht & Hlen & Hhdr)%ber_element_read; [|done].
  rewrite Hbody in H. pose proof (blen_nonneg body). pose proof (blen_nonneg hdr).
  pose proof (blen_asn1_tag_bytes (ae_tag e)).
  destruct (is_eoc _ _); [destruct looking; simplify_eq; rewrite blen_nil; split_and!; (done || lia)|].
  destruct (negb _ && _); [done|].
  pose proof (convert_tags_spec (ae_tag e) Ht) as Htags.
  destruct (if string_tag =? 0 then _ else _) as [out_tag child] eqn:Etags.
  destruct (if is_indefinite _ _ then _ else _) as [[dd in2]|] eqn:Ed; [|done]. cbn in H.
  assert (bytes dd /\ bytes in2 /\ blen dd + 3 * blen in2 <= 3 * (blen body + blen in1)) as (Hdd & Hin2 & Hl2).
  { destruct (is_indefinite _ _).
    - destruct (_ <? _) in Ed; [done|]. apply IH in Ed as (?&?&?); [|done]. split_and!; (done || lia).
    - destruct (constructed _); [|simplify_eq; split_and!; (done || lia)].
      destruct (_ <? _) in Ed; [done|]. destruct (convert fuel child false _ body) as [[d' r']|] eqn:E'; [|done].
      cbn in Ed. simplify_eq. apply IH in E' as (?&?&?); [|done].
      pose proof (blen_nonneg r'). split_and!; (done || lia). }
  destruct (convert fuel string_tag looking depth in2) as [[ds in3]|] eqn:Es; [|done]. cbn in H.
  injection H as <- <-. apply IH in Es as (Hds & Hin3 & Hl3); [|done].
  rewrite bytes_app, blen_app. destruct (string_tag =? 0); [|split_and!; (done || lia)].
  rewrite Etags in Htags. destruct Htags as (_ & Hot & _).
  rewrite bytes_asn1_bytes, blen_asn1_bytes, Hot. pose proof (blen_asn1_len_bytes (blen dd)).
  split_and!; (done || lia).
Qed.

(** ** The run of the C loop as a computation on the heap *)

Section Run.
Context {m : Malloc}.

(** A computation from the input [in_], with what is left of it as the result. *)
Definition view (o : M conv unit) (in_ : CBS) : M heap CBS := fun h =>
  let '(r, (h, in_)) := o (h, in_) in (match r with Some _ => Some in_ | None => None end, h).

Definition convert_run (fuel : nat) (out : loc) (string_tag : Z) (looking : bool) (depth : Z)
    (in_ : CBS) : M heap CBS := view (convert_ber_loop fuel out string_tag looking depth) in_.

(** An iteration of [convert_run]. *)
Definition convert_run_body (fuel : nat) (out : loc) (string_tag : Z) (looking_for_eoc : bool)
    (depth : Z) (in_ : CBS) : M heap CBS :=
  '(e, in_) ← on_copy in_ CBS_get_any_ber_asn1_element;
  let contents := ae_out e in
  let header_len := ae_header_len e in
  let tag := ae_tag e in
  if is_eoc header_len contents then _ ← massert looking_for_eoc; mret in_
  else
    '(out_contents, child_string_tag) ←
      (if negb (string_tag =? 0) then
         _ ← massert (clear_constructed tag =? string_tag);
         mret (out, string_tag)
       else
         let '(out_tag, child_string_tag) := convert_tags tag in
         c ← new_cbb;
         _ ← CBB_add_asn1 out c out_tag;
         mret (c, child_string_tag));
    in_ ← (if is_indefinite header_len contents then
             _ ← massert (negb (kMaxDepth <? depth + 1));
             convert_run fuel out_contents child_string_tag true (depth + 1) in_
           else
             '(_, contents) ← on_copy contents (CBS_skip header_len);
             if constructed tag then
               _ ← massert (negb (kMaxDepth <? depth + 1));
               _ ← convert_run fuel out_contents child_string_tag false (depth + 1) contents;
               mret in_
             else
               _ ← CBB_add_bytes out_contents contents;
               mret in_);
    _ ← CBB_flush out;
    convert_run fuel out string_tag looking_for_eoc depth in_.

Lemma view_bind (o : M conv unit) (k : unit -> M conv unit) in_ h :
  view (o ≫= k) in_ h = (view o in_ ≫= view (k tt)) h.
Proof. unfold view, mbind, M_bind. by destruct (o (h, in_)) as [[[]|] [h1 in1]]. Qed.

Lemma view_heap_bind {A} (o : M heap A) (k : A -> M conv unit) in_ h :
  view (on_heap o ≫= k) in_ h = (o ≫= (fun a => view (k a) in_)) h.
Proof. unfold view, mbind, M_bind, on_heap. by destruct (o h) as [[?|] ?]. Qed.

Lemma view_heap (o : M heap unit) in_ h : view (on_heap o) in_ h = (_ ← o; mret in_) h.
Proof. unfold view, mbind, M_bind, on_heap. by destruct (o h) as [[?|] ?]. Qed.

Lemma view_in_bind {A} (o : M CBS A) (k : A -> M conv unit) in_ h :
  view (on_in o ≫= k) in_ h =
  match o in_ with (Some a, in_) => view (k a) in_ h | (None, _) => (None, h) end.
Proof. unfold view, mbind, M_bind, on_in. by destruct (o in_) as [[?|] ?]. Qed.

Lemma view_local contents (o : M conv unit) in_ h :
  view (on_local contents o) in_ h = (_ ← view o contents; mret in_) h.
Proof. unfold view, mbind, M_bind, on_local. by destruct (o (h, contents)) as [[?|] [??]]. Qed.

Lemma view_massert b in_ h : view (massert b) in_ h = (_ ← massert b; mret in_) h.
Proof. by destruct b. Qed.

Lemma view_massert_bind b (k : unit -> M conv unit) in_ h :
  view (massert b ≫= k) in_ h = (massert b ≫= (fun u => view (k u) in_)) h.
Proof. by destruct b. Qed.

Lemma view_copy_bind {T A} (t : T) (o : M T A) (k : A * T -> M conv unit) in_ h :
  view (on_copy t o ≫= k) in_ h = (on_copy t o ≫= (fun r => view (k r) in_)) h.
Proof. unfold view, mbind, M_bind, on_copy. by destruct (o t) as [[?|] ?]. Qed.

Lemma bind_ext {S A B} (o o' : M S A) (k k' : A -> M S B) s :
  (forall s, o s = o' s) -> (forall a s, k a s = k' a s) -> (o ≫= k) s = (o' ≫= k') s.
Proof. intros Ho Hk. unfold mbind, M_bind. rewrite Ho. destruct (o' s) as [[?|] ?]; [apply Hk|done]. Qed.

Lemma convert_run_done fuel out string_tag looking depth in_ h :
  CBS_len in_ <=? 0 = true ->
  convert_run fuel out string_tag looking depth in_ h = (_ ← massert (negb looking); mret in_) h.
Proof.
  intros E. unfold convert_run. destruct fuel; cbn [convert_ber_loop];
    rewrite view_in_bind; cbn [mget]; rewrite E; by destruct looking.
Qed.

Lemma convert_run_S fuel out string_tag looking depth in_ h :
  CBS_len in_ <=? 0 = false ->
  convert_run (S fuel) out string_tag looking depth in_ h =
  convert_run_body fuel out string_tag looking depth in_ h.
Proof.
  intros E. unfold convert_run at 1. cbn [convert_ber_loop]. rewrite view_in_bind. cbn [mget]. rewrite E.
  unfold convert_run_body. rewrite view_in_bind, on_copy_bind.
  destruct (CBS_get_any_ber_asn1_element in_) as [[e|] in1]; [|done]. cbn beta zeta iota.
  destruct (is_eoc _ _); [apply view_massert|].
  rewrite view_heap_bind. apply bind_ext; [done|]. intros [oc child] h1. rewrite view_bind.
  apply bind_ext.
  - intros h2. destruct (is_indefinite _ _).
    + rewrite view_massert_bind. by apply bind_ext.
    + rewrite view_copy_bind. apply bind_ext; [done|]. intros [[] contents] h3.
      destruct (constructed _); [|apply view_heap].
      rewrite view_massert_bind. apply bind_ext; [done|]. intros _ h4. apply view_local.
  - intros in2 h2. rewrite view_heap_bind. by apply bind_ext.
Qed.

(** The loop reads from the front: what is left is a suffix of the input, also
    after a failure. *)
Section Advances.
Context {S : Type} (rest : S -> list Z).

Definition advances {A} (o : M S A) : Prop := forall s, exists read, rest s = read ++ rest (o s).2.

Lemma advances_bind {A B} (o : M S A) (k : A -> M S B) :
  advances o -> (forall a, advances (k a)) -> advances (o ≫= k).
Proof.
  intros Ho Hk s. unfold mbind, M_bind. destruct (Ho s) as [r1 E1].
  destruct (o s) as [[a|] s1]; [|by exists r1]. cbn in E1.
  destruct (Hk a s1) as [r2 E2]. exists (r1 ++ r2). by rewrite <-app_assoc, <-E2.
Qed.

Lemma advances_stays {A} (o : M S A) : (forall s, rest (o s).2 = rest s) -> advances o.
Proof. intros Ho s. exists []. by rewrite Ho. Qed.

Lemma advances_massert b : advances (massert b).
Proof. apply advances_stays. by destruct b. Qed.

Lemma advances_copy {T A} (t : T) (o : M T A) : advances (on_copy t o).
Proof. apply advances_stays. intros s. unfold on_copy. by destruct (o t) as [[?|] ?]. Qed.

Lemma advances_ret {A} (a : A) : advances (mret a).
Proof. by apply advances_stays. Qed.
End Advances.

Lemma advances_cbs_get n : advances id (cbs_get n).
Proof.
  intros s. unfold cbs_get. destruct (_ <? _); cbn; [by exists []|].
  exists (take (Z.to_nat n) s). by rewrite take_drop.
Qed.

Lemma advances_element ber_ok : advances id (cbs_get_any_asn1_element ber_ok).
Proof.
  unfold cbs_get_any_asn1_element.
  repeat first [apply advances_cbs_get | apply advances_massert | apply advances_copy | apply advances_ret
    | by apply advances_stays | apply advances_bind | progress intros | case_match ].
Qed.

Lemma advances_on_in {A} (o : M CBS A) : advances id o -> advances snd (on_in o).
Proof. intros Ho [h in_]. specialize (Ho in_). unfold on_in. by destruct (o in_). Qed.

Lemma advances_heap {A} (o : M heap A) : advances snd (on_heap o).
Proof. apply advances_stays. intros [h in_]. unfold on_heap. by destruct (o h). Qed.

Lemma advances_local {A} contents (o : M conv A) : advances snd (on_local contents o).
Proof. apply advances_stays. intros [h in_]. unfold on_local. by destruct (o (h, contents)) as [? [??]]. Qed.

Lemma convert_advances fuel out string_tag looking depth :
  advances snd (convert_ber_loop fuel out string_tag looking depth).
Proof.
  revert out string_tag looking depth. induction fuel as [|fuel IH]; intros; cbn [convert_ber_loop];
    (apply advances_bind; [by apply advances_on_in, advances_stays|]; intros in_; destruct (_ <=? 0); [apply advances_massert|]);
    [by apply advances_stays|].
  apply advances_bind; [apply advances_on_in, advances_element|]. intros e. cbv zeta. destruct (is_eoc _ _); [apply advances_massert|].
  apply advances_bind; [apply advances_heap|]. intros [oc child]. apply advances_bind.
  - destruct (is_indefinite _ _); [apply advances_bind; [apply advances_massert|done]|].
    apply advances_bind; [apply advances_copy|]. intros [_ contents]. destruct (constructed _); [|apply advances_heap].
    apply advances_bind; [apply advances_massert|]. intros _. apply advances_local.
  - intros _. apply advances_bind; [apply advances_heap|]. done.
Qed.
End Run.

(** ** The C loop computes [convert] *)

Section Refine.
Context {m : Malloc} (N : Z).

(** [o] fails on every heap that represents [st]. *)
Definition fails {A} (o : M heap A) (n : loc) (st : list frame) : Prop :=
  forall h b, rep h b st -> next_loc h = n -> room b N -> (o h).1 = None.

Lemma fails_bind_l {A B} (o : M heap A) (k : A -> M heap B) n st :
  fails o n st -> fails (o ≫= k) n st.
Proof.
  intros Ho h b Hr Hn Hroom. specialize (Ho h b Hr Hn Hroom). unfold mbind, M_bind.
  by destruct (o h) as [[?|] ?].
Qed.

Lemma fails_bind_r {A B} (o : M heap A) (k : A -> M heap B) n st a n1 st1 :
  builds N o n st a n1 st1 -> fails (k a) n1 st1 -> fails (o ≫= k) n st.
Proof.
  intros Ho Hk h b Hr Hn Hroom. destruct (Ho h b Hr Hn Hroom) as (h1 & b1 & E & Hr1 & Hn1 & Hg).
  rewrite (bind_ok _ _ _ _ _ E). eapply Hk; [done..|by apply Hg].
Qed.

Lemma fails_ext {A} (o o' : M heap A) n st :
  (forall h, o' h = o h) -> fails o n st -> fails o' n st.
Proof. intros He Ho h b Hr Hn Hroom. rewrite He. eauto. Qed.

Lemma fails_fail {A} n st : fails (mfail (A:=A)) n st.
Proof. done. Qed.

(** A fact about the next unused address may be used. *)
Lemma builds_fresh {A} (o : M heap A) n st r n' st' :
  (n ∉ locs st -> builds N o n st r n' st') -> builds N o n st r n' st'.
Proof.
  intros Ho h b Hr Hn. pose proof (rep_fresh _ _ _ Hr) as Hf. rewrite Hn in Hf. by apply Ho.
Qed.

(** A computation refines an optional result: it appends [d] to the innermost
    frame, or fails. *)
Definition appends {A} (o : M heap A) (n : loc) (st : list frame) (p : loc) (k : kind) (bs : list Z)
    (res : option (list Z * A)) : Prop :=
  match res with
  | Some (d, a) => exists n', builds N o n (st ++ [(p, k, bs)]) a n' (st ++ [(p, k, bs ++ d)])
  | None => fails o n (st ++ [(p, k, bs)])
  end.

Lemma appends_ret {A} (a : A) n st p k bs : appends (mret a) n st p k bs (Some ([], a)).
Proof. exists n. rewrite app_nil_r. apply builds_ret. Qed.

Lemma appends_fail {A} n st p k bs : appends (mfail (A:=A)) n st p k bs None.
Proof. apply fails_fail. Qed.

Lemma appends_ext {A} (o o' : M heap A) n st p k bs res :
  (forall h, o' h = o h) -> appends o n st p k bs res -> appends o' n st p k bs res.
Proof.
  intros He. destruct res as [[d a]|]; cbn; [|by apply fails_ext].
  intros [n' Ho]. exists n'. by eapply builds_ext.
Qed.

Lemma appends_assert {A} c (o : M heap A) n st p k bs res :
  appends o n st p k bs res ->
  appends (_ ← massert c; o) n st p k bs (if c : bool then res else None).
Proof.
  intros Ho. destruct c; [|by apply fails_bind_l].
  eapply appends_ext; [|exact Ho]. intros h. by rewrite massert_bind.
Qed.

(** Running one computation after another on the same frame. *)
Lemma appends_bind {A B} (o : M heap A) (f : A -> M heap B) n st p k bs res (res2 : A -> option (list Z * B)) :
  appends o n st p k bs res ->
  (forall d a n', res = Some (d, a) -> appends (f a) n' st p k (bs ++ d) (res2 a)) ->
  appends (o ≫= f) n st p k bs ('(d, a) ← res; '(d2, b) ← res2 a; Some (d ++ d2, b)).
Proof.
  intros Ho Hf. destruct res as [[d a]|]; cbn; [|by apply fails_bind_l].
  destruct Ho as [n1 Ho]. specialize (Hf d a n1 eq_refl). destruct (res2 a) as [[d2 b]|]; cbn in *.
  - destruct Hf as [n2 Hf]. exists n2. rewrite app_assoc. by eapply builds_bind.
  - by eapply fails_bind_r.
Qed.

Lemma appends_flush {A} (o : M heap A) n st p k bs res :
  appends o n st p k bs res -> appends (_ ← CBB_flush p; o) n st p k bs res.
Proof.
  destruct res as [[d a]|]; cbn.
  - intros [n' Ho]. exists n'. eapply builds_bind; [apply builds_flush_top|exact Ho].
  - intros Ho. eapply fails_bind_r; [apply builds_flush_top|exact Ho].
Qed.

(** A child element: open, contents, flush of the parent. *)
Lemma appends_child {A} (body : loc -> M heap A) tag n st p k bs res :
  blen (flat (st ++ [(p, k, bs)])) + blen (asn1_tag_bytes tag) + 1 <= N ->
  (forall d a, res = Some (d, a) -> blen d <= 0xfffffffe /\
     blen (flat (st ++ [(p, k, bs ++ asn1_bytes tag d)])) <= N) ->
  appends (body n) (S n) (st ++ [(p, k, bs ++ asn1_tag_bytes tag)]) n KAsn1 [] res ->
  appends (c ← new_cbb; _ ← CBB_add_asn1 p c tag; a ← body c; _ ← CBB_flush p; mret a)
    n st p k bs ('(d, a) ← res; Some (asn1_bytes tag d, a)).
Proof.
  intros HN Hd Hbody.
  destruct res as [[d a]|]; cbn in *.
  - destruct Hbody as [n' Hbody]. destruct (Hd d a eq_refl) as [Hl Hfit]. exists n'.
    apply builds_fresh. intros Hf. eapply builds_bind; [apply builds_new|].
    eapply builds_bind; [apply builds_add_asn1; [done|lia|done]|].
    rewrite (app_assoc st [_] [_] : st ++ [_; _] = _). eapply builds_bind; [exact Hbody|].
    rewrite <-app_assoc. eapply builds_bind; [|apply builds_ret].
    unfold asn1_bytes, asn1_header in *. rewrite <-(app_assoc (asn1_tag_bytes tag)), (app_assoc bs) in *.
    apply builds_flush; [|done]. cbn. rewrite app_nil_r. by rewrite (proj2 (Z.leb_le _ _)).
  - intros h b Hr Hn Hroom. pose proof (rep_fresh _ _ _ Hr) as Hf. rewrite Hn in Hf.
    revert h b Hr Hn Hroom. fold (fails (c ← new_cbb; _ ← CBB_add_asn1 p c tag; a ← body c; _ ← CBB_flush p; mret a)
      n (st ++ [(p, k, bs)])).
    eapply fails_bind_r; [apply builds_new|].
    eapply fails_bind_r; [apply builds_add_asn1; [done|lia|done]|].
    rewrite (app_assoc st [_] [_] : st ++ [_; _] = _). by apply fails_bind_l.
Qed.

Lemma child_assoc {A B} (o1 : M heap loc) (add : loc -> M heap unit) (f : loc -> Z -> M heap A)
    (fl : M heap unit) (k : A -> M heap B) t h :
  ((c ← o1; _ ← add c; mret (c, t)) ≫= (fun '(c, t) => f c t ≫= (fun a => fl ≫= (fun _ => k a)))) h =
  ((c ← o1; _ ← add c; a ← f c t; _ ← fl; mret a) ≫= k) h.
Proof.
  unfold mbind, M_bind, mret, M_ret. destruct (o1 h) as [[c|] h1]; [|done].
  destruct (add c h1) as [[[]|] h2]; [|done]. destruct (f c t h2) as [[a|] h3]; [|done].
  by destruct (fl h3) as [[?|] ?].
Qed.

(** The contents of one element. *)
Lemma convert_part_refines fuel child depth tag indef contents header_len body in_ n st oc k bs :
  (forall string_tag looking depth in_ n st out k bs,
     bytes in_ -> blen in_ < 2 ^ 30 -> blen (flat (st ++ [(out, k, bs)])) + 3 * blen in_ <= N ->
     appends (convert_run fuel out string_tag looking depth in_) n st out k bs
       (convert fuel string_tag looking depth in_)) ->
  bytes in_ -> bytes body -> blen in_ < 2 ^ 30 -> blen body < 2 ^ 30 ->
  CBS_skip header_len contents = (Some tt, body) ->
  blen (flat (st ++ [(oc, k, bs)])) + 3 * (blen in_ + blen body) <= N ->
  appends
    (if indef : bool then
       _ ← massert (negb (kMaxDepth <? depth + 1));
       convert_run fuel oc child true (depth + 1) in_
     else
       '(_, contents) ← on_copy contents (CBS_skip header_len);
       if constructed tag then
         _ ← massert (negb (kMaxDepth <? depth + 1));
         _ ← convert_run fuel oc child false (depth + 1) contents;
         mret in_
       else
         _ ← CBB_add_bytes oc contents;
         mret in_) n st oc k bs
    (if indef then if kMaxDepth <? depth + 1 then None else convert fuel child true (depth + 1) in_
     else if constructed tag then
       if kMaxDepth <? depth + 1 then None
       else '(d, _) ← convert fuel child false (depth + 1) body; Some (d, in_)
     else Some (body, in_)).
Proof.
  intros IH Hin Hb Hinl Hbl Hskip HN. pose proof (blen_nonneg body). pose proof (blen_nonneg in_).
  destruct indef.
  - pose proof (appends_assert (negb (kMaxDepth <? depth + 1)) (convert_run fuel oc child true (depth + 1) in_)
      n st oc k bs _ ltac:(apply IH; [done|done|lia])) as Ha. by destruct (_ <? _).
  - eapply appends_ext; [intros h; rewrite on_copy_bind, Hskip; reflexivity|].
    destruct (constructed tag).
    + pose proof (appends_assert (negb (kMaxDepth <? depth + 1)) (_ ← convert_run fuel oc child false (depth + 1) body; mret in_)
        n st oc k bs ('(d, a) ← convert fuel child false (depth + 1) body; '(d2, b) ← Some ([], in_); Some (d ++ d2, b))
        ltac:(apply (appends_bind _ (fun _ => mret in_) _ _ _ _ _ _ (fun _ => Some ([], in_)));
          [apply IH; [done|done|lia]|intros; apply appends_ret])) as Ha.
      destruct (_ <? _); [exact Ha|]. cbn [negb] in Ha.
      destruct (convert fuel child false (depth + 1) body) as [[d r]|]; [|exact Ha].
      cbn in Ha. rewrite app_nil_r in Ha. exact Ha.
    + exists n. eapply builds_bind; [apply builds_add_bytes; lia|apply builds_ret].
Qed.

Lemma convert_refines fuel string_tag looking depth in_ n st out k bs :
  bytes in_ -> blen in_ < 2 ^ 30 -> blen (flat (st ++ [(out, k, bs)])) + 3 * blen in_ <= N ->
  appends (convert_run fuel out string_tag looking depth in_) n st out k bs
    (convert fuel string_tag looking depth in_).
Proof.
  revert string_tag looking depth in_ n st out k bs.
  induction fuel as [|fuel IH]; intros string_tag looking depth in_ n st out k bs Hin Hinl HN;
    cbn [convert];
    (destruct (_ <=? 0) eqn:Edone;
     [eapply appends_ext; [intros h; by apply convert_run_done|];
      destruct looking; [by apply fails_bind_l|apply appends_ret]|]).
  { intros h b _ _ _. unfold convert_run, view. cbn [convert_ber_loop]. unfold mbind, M_bind, on_in, mget.
    by rewrite Edone. }
  eapply appends_ext; [intros h; by apply convert_run_S|]. unfold convert_run_body. clear Edone.
  destruct (CBS_get_any_ber_asn1_element in_) as [[e|] in1] eqn:E;
    [|apply fails_bind_l; intros h b _ _ _; unfold on_copy; by rewrite E].
  eapply appends_ext; [intros h; rewrite on_copy_bind, E; reflexivity|]. cbn beta iota.
  pose proof E as (hdr & body & Ho & Hh & Hb & Hr & Hbody & Hskip & Ht & Hlen & Hhdr)%ber_element_read; [|done].
  rewrite Hbody. pose proof (blen_nonneg body). pose proof (blen_nonneg hdr). pose proof (blen_nonneg in1).
  pose proof (blen_asn1_tag_bytes (ae_tag e)) as Htl. clear E Ho Hh Hbody.
  destruct (is_eoc _ _); [destruct looking; [apply appends_ret|by apply fails_bind_l]|].
  set (indef := is_indefinite _ _). clearbody indef. pose proof (convert_tags_spec (ae_tag e) Ht) as Htags.
  assert (forall dd in2 child, (if indef then if kMaxDepth <? depth + 1 then None else convert fuel child true (depth + 1) in1
     else if constructed (ae_tag e) then
       if kMaxDepth <? depth + 1 then None
       else '(d, _) ← convert fuel child false (depth + 1) body; Some (d, in1)
     else Some (body, in1)) = Some (dd, in2) ->
     bytes in2 /\ blen dd + 3 * blen in2 <= 3 * (blen body + blen in1)) as Hpart.
  { intros dd in2 child Ep. destruct indef.
    - destruct (_ <? _); [done|]. apply convert_size in Ep as (?&?&?); [|done]. split; [done|lia].
    - destruct (constructed _); [|simplify_eq; split; (done || lia)].
      destruct (_ <? _); [done|]. destruct (convert fuel child false _ body) as [[d' r']|] eqn:E'; [|done].
      cbn in Ep. simplify_eq. apply convert_size in E' as (?&?&?); [|done].
      pose proof (blen_nonneg r'). split; (done || lia). }
  destruct (Z.eqb_spec string_tag 0) as [->|Hst]; cbn [negb andb].
  - destruct (convert_tags (ae_tag e)) as [out_tag child]. destruct Htags as (_ & Hot & _).
    rewrite flat_top_blen in HN.
    pose proof (convert_part_refines fuel child depth (ae_tag e) indef (ae_out e) (ae_header_len e) body in1
      (S n) (st ++ [(out, k, bs ++ asn1_tag_bytes out_tag)]) n KAsn1 [] IH Hr Hb ltac:(lia) ltac:(lia) Hskip) as Hp.
    specialize (Hpart) with (child := child). set (part := if indef then _ else _) in Hp, Hpart |- *.
    eapply appends_ext; [intros h; apply (child_assoc new_cbb (fun c => CBB_add_asn1 out c out_tag))|].
    replace (part ≫= _) with ('(d, a) ← ('(d, a) ← part; Some (asn1_bytes out_tag d, a));
      '(ds, in_1) ← convert fuel 0 looking depth a; Some (d ++ ds, in_1)) by (by destruct part as [[??]|]).
    eapply appends_bind.
    + apply (appends_child (fun c => if indef then _ else _)); [rewrite flat_top_blen; lia| |apply Hp].
      * intros d a Ep. destruct (Hpart d a Ep) as [_ Hl]. pose proof (blen_nonneg a).
        change (2 ^ 30) with 1073741824 in Hinl. split; [lia|].
        rewrite flat_top_blen, blen_app, blen_asn1_bytes, Hot. pose proof (blen_asn1_len_bytes (blen d)). lia.
      * rewrite !flat_top_blen, blen_app, Hot. change (klen KAsn1) with 1. change (blen (@nil Z)) with 0. lia.
    + intros d a n' Ep. destruct part as [[dd in2]|] eqn:Epart; [|done]. cbn in Ep. injection Ep as <- <-.
      destruct (Hpart dd in2 eq_refl) as [Hb2 Hl2]. pose proof (blen_nonneg dd). pose proof (blen_nonneg in2).
      apply IH; [done|lia|]. rewrite flat_top_blen, blen_app, blen_asn1_bytes, Hot.
      pose proof (blen_asn1_len_bytes (blen dd)). lia.
  - destruct (Z.eqb_spec (clear_constructed (ae_tag e)) string_tag) as [Heq|Hne]; cbn [negb];
      [|by apply fails_bind_l, fails_bind_l].
    eapply appends_ext.
    { intros h. rewrite <-bind_assoc. etrans; [apply massert_bind|]. cbn. reflexivity. }
    rewrite bind_ret. cbn beta iota. rewrite flat_top_blen in HN. eapply appends_bind.
    + apply (convert_part_refines _ _ _ _ _ _ _ body); [exact IH|done|done|lia|lia|done|rewrite flat_top_blen; lia].
    + intros d in2 n' Ep. destruct (Hpart d in2 string_tag Ep) as [Hb2 Hl2].
      pose proof (blen_nonneg d). pose proof (blen_nonneg in2).
      apply appends_flush, IH; [done|lia|]. rewrite flat_top_blen, blen_app. lia.
Qed.
End Refine.

(** ** The output is DER *)

(** A sequence of DER elements, nested contents included: minimal lengths, no
    indefinite lengths, no constructed strings, and no element deeper than
    [kMaxDepth] when the sequence is at [depth]. *)
Inductive der : Z -> list Z -> Prop :=
  | der_nil depth : der depth []
  | der_primitive depth tag body rest :
      in_word 32 tag -> blen body < 2 ^ 32 -> constructed tag = false ->
      der depth rest -> der depth (asn1_bytes tag body ++ rest)
  | der_constructed depth tag body rest :
      in_word 32 tag -> blen body < 2 ^ 32 -> constructed tag = true -> is_string_type tag = false ->
      depth + 1 <= kMaxDepth ->
      der (depth + 1) body -> der depth rest -> der depth (asn1_bytes tag body ++ rest).

Lemma convert_der fuel looking depth in_ d r :
  bytes in_ -> blen in_ < 2 ^ 30 -> convert fuel 0 looking depth in_ = Some (d, r) -> der depth d.
Proof.
  revert looking depth in_ d r.
  induction fuel as [|fuel IH]; intros looking depth in_ d r Hin Hlen H; cbn [convert] in H;
    (destruct (_ <=? 0); [destruct looking; simplify_eq; constructor|]); [done|].
  destruct (CBS_get_any_ber_asn1_element in_) as [[e|] in1] eqn:E; [|done].
  pose proof E as (hdr & body & Ho & Hh & Hb & Hr & Hbody & _ & Ht & Hl & Hhdr)%ber_element_read; [|done].
  rewrite Hbody in H. pose proof (blen_nonneg body). pose proof (blen_nonneg hdr). pose proof (blen_nonneg in1).
  destruct (is_eoc _ _); [destruct looking; simplify_eq; constructor|].
  cbn [Z.eqb negb andb] in H. pose proof (convert_tags_spec (ae_tag e) Ht) as Htags.
  destruct (convert_tags (ae_tag e)) as [out_tag child].
  destruct (if is_indefinite _ _ then _ else _) as [[dd in2]|] eqn:Ed; [|done]. cbn in H.
  destruct (convert fuel 0 looking depth in2) as [[ds in3]|] eqn:Es; [|done]. cbn in H. injection H as <- <-.
  assert (bytes in2 /\ blen dd + 3 * blen in2 <= 3 * (blen body + blen in1)) as [Hin2 Hl2].
  { destruct (is_indefinite _ _).
    - destruct (_ <? _) in Ed; [done|]. apply convert_size in Ed as (?&?&?); [|done]. split; [done|lia].
    - destruct (constructed (ae_tag e)); [|simplify_eq; split; (done || lia)].
      destruct (_ <? _) in Ed; [done|]. destruct (convert fuel child false _ body) as [[d' r']|] eqn:E'; [|done].
      cbn in Ed. simplify_eq. apply convert_size in E' as (?&?&?); [|done].
      pose proof (blen_nonneg r'). split; (done || lia). }
  pose proof (blen_nonneg dd). pose proof (blen_nonneg in2). change (2 ^ 30) with 1073741824 in *.
  assert (der depth ds) as Hds by (apply (IH _ _ _ _ _ Hin2) in Es; [done|lia]).
  assert (blen dd < 2 ^ 32) as Hdl by (pow2; lia).
  destruct Htags as (Hot & _ & [(_ & -> & Hp & _)|(Hc & -> & ->)]); [by apply der_primitive|].
  destruct (constructed (ae_tag e)) eqn:Econs; [|by apply der_primitive].
  assert (kMaxDepth <? depth + 1 = false) as Hd by (by destruct (is_indefinite _ _), (_ <? _)).
  rewrite Hd in Ed. apply Z.ltb_ge in Hd. apply der_constructed; [done..| |done].
  destruct (is_indefinite _ _).
  - apply (IH _ _ _ _ _ Hr) in Ed; [done|lia].
  - destruct (convert fuel 0 false _ body) as [[d' r']|] eqn:E'; [|done].
    cbn in Ed. simplify_eq. apply (IH _ _ _ _ _ Hb) in E'; [done|lia].
Qed.

(** The outer call consumes its input. *)
Lemma convert_rest fuel string_tag depth in_ d r :
  convert fuel string_tag false depth in_ = Some (d, r) -> blen r = 0.
Proof.
  revert in_ d r. induction fuel as [|fuel IH]; intros in_ d r H; cbn [convert] in H;
    (destruct (Z.leb_spec (CBS_len in_) 0); [simplify_eq; unfold CBS_len in *; pose proof (blen_nonneg r); lia|]); [done|].
  destruct (CBS_get_any_ber_asn1_element in_) as [[e|] in1]; [|done].
  destruct (is_eoc _ _); [done|]. destruct (negb _ && _); [done|].
  destruct (if string_tag =? 0 then _ else _) as [out_tag child].
  destruct (if is_indefinite _ _ then _ else _) as [[dd in2]|]; [|done]. cbn in H.
  destruct (convert fuel string_tag false depth in2) as [[ds in3]|] eqn:Es; [|done]. cbn in H.
  injection H as <- <-. eauto.
Qed.

Section ToDer.
Context {m : Malloc}.

Lemma on_heap_bind {A B} (o : M heap A) (k : A -> M conv B) h in_ :
  (on_heap o ≫= k) (h, in_) =
  match o h with (Some a, h) => k a (h, in_) | (None, h) => (None, (h, in_)) end.
Proof. unfold mbind, M_bind, on_heap. by destruct (o h) as [[?|] ?]. Qed.

Lemma convert_run_loop fuel out string_tag looking depth in_ h :
  match convert_run fuel out string_tag looking depth in_ h with
  | (Some in_', h') => convert_ber_loop fuel out string_tag looking depth (h, in_) = (Some tt, (h', in_'))
  | (None, h') => exists read in_', in_ = read ++ in_' /\
      convert_ber_loop fuel out string_tag looking depth (h, in_) = (None, (h', in_'))
  end.
Proof.
  unfold convert_run, view. pose proof (convert_advances fuel out string_tag looking depth (h, in_)) as [read Hr].
  destruct (convert_ber_loop _ _ _ _ _ _) as [[[]|] [h' in_']]; [done|]. by exists read, in_'.
Qed.

Lemma ber_to_der_converts in_ :
  MallocTotal m -> bytes in_ -> blen in_ < 2 ^ 30 -> cbs_find_ber in_ 0 = Some true ->
  match convert (length in_) 0 false 0 in_ with
  | Some (d, _) => exists storage, CBS_asn1_ber_to_der in_ = (Some (d, Some storage), [])
  | None => exists read rest, in_ = read ++ rest /\ CBS_asn1_ber_to_der in_ = (None, rest)
  end.
Proof.
  intros Hm Hin Hlen Hf. unfold CBS_asn1_ber_to_der. rewrite Hf.
  pose proof (blen_nonneg in_). set (N := 3 * blen in_).
  destruct (CBB_init_rep 0%nat (CBS_len in_) (Heap None ∅ 1%nat)) as (h1 & b1 & E1 & Hr1 & Hn1 & Hc1); [done| |cbn; lia| |].
  { unfold CBS_len. change (2 ^ 30) with 1073741824 in Hlen. change (2 ^ 60) with 1152921504606846976. lia. }
  { intros q. cbn. rewrite dom_empty_L. set_solver. }
  assert (forall b', grows b1 b' -> room b' N) as Hroom.
  { intros b' Hg. apply Hg. split; [|by right]. change (2 ^ 61) with 2305843009213693952.
    change (2 ^ 30) with 1073741824 in Hlen. lia. }
  assert (room b1 N) as Hr by apply Hroom, grows_refl, Hr1.
  pose proof (convert_refines N (length in_) 0 false 0 in_ 1%nat [] 0%nat KRoot [] Hin Hlen (Z.le_refl N)) as Hc.
  pose proof (convert_run_loop (length in_) 0%nat 0 false 0 in_ h1) as Hl.
  rewrite on_heap_bind. change (new_cbb (Heap None ∅ 0%nat)) with (Some 0%nat, Heap None ∅ 1%nat). cbn iota beta.
  rewrite on_heap_bind, E1.
  assert (forall (f : unit -> M conv (list Z * Z)), (cbs_convert_ber 0%nat 0 false 0 ≫= f) (h1, in_) =
    (convert_ber_loop (length in_) 0%nat 0 false 0 ≫= f) (h1, in_)) as -> by done.
  destruct (convert (length in_) 0 false 0 in_) as [[d r]|] eqn:Econv; cbn in Hc.
  - destruct Hc as [n' Hc]. destruct (Hc h1 b1 Hr1 Hn1 Hr) as (h2 & b2 & E2 & Hr2 & Hn2 & Hg2).
    rewrite E2 in Hl. rewrite (bind_ok _ _ _ _ _ Hl).
    pose proof (convert_size _ _ _ _ _ _ _ Hin Econv) as (_ & _ & Hsz).
    pose proof (convert_rest _ _ _ _ _ _ Econv) as ->%blen_inv_nil.
    destruct (CBB_finish_rep h2 b2 0%nat d [] [] Hr2 eq_refl) as (h3 & mem & E3 & Hmem & _).
    { rewrite app_nil_r. eapply room_le; [by apply Hroom|]. unfold N. change (blen (@nil Z)) with 0 in Hsz. lia. }
    rewrite app_nil_r in *. unfold on_heap. rewrite E3, Hmem. by eexists.
  - specialize (Hc h1 b1 Hr1 Hn1 Hr). destruct (convert_run _ _ _ _ _ _ h1) as [[?|] h2]; [done|].
    destruct Hl as (read & rest & -> & El). unfold mbind at 1, M_bind at 1. rewrite El. by exists read, rest.
Qed.
End ToDer.
