(* ===== verification/BerSpec.v ===== *)
(** crypto/bytestring/ber.c: the BER encodings that the conversion is meant for,
    as a relation between a BER encoding and the DER of the same values, and what
    the search [cbs_find_ber] reports. *)

From S2P Require Import Prelude CryptoInternal Cbs Cbb CbbSpec Ber.

(** * BER encodings *)

(** An element with the contents [c], of definite length in minimal form or of
    indefinite length. *)
Definition ber_bytes (indefinite : bool) (tag : Z) (c : list Z) : list Z :=
  if indefinite then asn1_tag_bytes tag ++ [0x80] ++ c ++ [0; 0] else asn1_bytes tag c.

(** [ber_der depth st s d]: [s] is a sequence of BER elements at [depth]. When
    [st] is zero [d] is the DER of the same elements: definite lengths, and each
    constructed string one primitive string. Otherwise [s] holds chunks of a
    string of the tag [st], nested or not, and [d] is the string. *)
Inductive ber_der : Z -> Z -> list Z -> list Z -> Prop :=
  | bd_nil depth st : ber_der depth st [] []
  | bd_primitive depth tag body s d :
      in_word 32 tag -> constructed tag = false -> tag <> 0 ->
      ber_der depth 0 s d ->
      ber_der depth 0 (asn1_bytes tag body ++ s) (asn1_bytes tag body ++ d)
  | bd_constructed depth indefinite tag c dc s d :
      in_word 32 tag -> constructed tag = true -> is_string_type tag = false ->
      depth + 1 <= kMaxDepth ->
      ber_der (depth + 1) 0 c dc -> ber_der depth 0 s d ->
      ber_der depth 0 (ber_bytes indefinite tag c ++ s) (asn1_bytes tag dc ++ d)
  | bd_string depth indefinite tag c dc s d :
      in_word 32 tag -> constructed tag = true -> is_string_type tag = true ->
      depth + 1 <= kMaxDepth ->
      ber_der (depth + 1) (clear_constructed tag) c dc -> ber_der depth 0 s d ->
      ber_der depth 0 (ber_bytes indefinite tag c ++ s) (asn1_bytes (clear_constructed tag) dc ++ d)
  | bd_chunk depth st body s d :
      in_word 32 st -> constructed st = false -> st <> 0 ->
      ber_der depth st s d ->
      ber_der depth st (asn1_bytes st body ++ s) (body ++ d)
  | bd_chunks depth indefinite tag c dc s d :
      in_word 32 tag -> constructed tag = true -> clear_constructed tag <> 0 ->
      depth + 1 <= kMaxDepth ->
      ber_der (depth + 1) (clear_constructed tag) c dc -> ber_der depth (clear_constructed tag) s d ->
      ber_der depth (clear_constructed tag) (ber_bytes indefinite tag c ++ s) (dc ++ d).

(** * What the reader returns on them *)

Lemma is_eoc_inv header_len contents : is_eoc header_len contents = true -> contents = [0; 0].
Proof.
  unfold is_eoc. rewrite !andb_true_iff. intros [[_ Hl%Z.eqb_eq] Hm%Z.eqb_eq].
  unfold CBS_len, blen in Hl. destruct contents as [|a [|b [|c l]]]; cbn [length] in Hl; try lia.
  unfold OPENSSL_memcmp, CBS_data in Hm. change (Z.to_nat 2) with 2%nat in Hm. cbn in Hm.
  destruct (Z.eqb_spec a 0); [|lia]. destruct (Z.eqb_spec b 0); [|lia]. by subst.
Qed.

Lemma is_eoc_false header_len contents : contents <> [0; 0] -> is_eoc header_len contents = false.
Proof. intros H. destruct (is_eoc _ _) eqn:E; [|done]. by apply is_eoc_inv in E. Qed.

(** A definite length. *)
Lemma read_definite tag body r :
  in_word 32 tag -> bytes body -> bytes r -> blen body < 2 ^ 32 ->
  CBS_get_any_ber_asn1_element (asn1_bytes tag body ++ r) =
  (Some (AsnElement (asn1_bytes tag body) tag (blen (asn1_header tag (blen body))) false), r).
Proof. apply cbs_get_any_asn1_element_minimal. Qed.

Lemma drop_header tag body : drop (Z.to_nat (blen (asn1_header tag (blen body)))) (asn1_bytes tag body) = body.
Proof. unfold asn1_bytes. apply drop_blen_app. Qed.

Lemma definite_not_eoc tag body :
  in_word 32 tag -> blen body < 2 ^ 32 -> bytes body -> tag <> 0 ->
  is_eoc (blen (asn1_header tag (blen body))) (asn1_bytes tag body) = false.
Proof.
  intros Ht Hl Hb H0. apply is_eoc_false. intros E.
  change [0; 0] with (asn1_bytes 0 []) in E.
  destruct (asn1_bytes_inj tag body [] 0 [] []) as (? & _); try done.
  - rewrite app_nil_r. by apply bytes_asn1_bytes.
  - by rewrite E.
Qed.

Lemma definite_not_indefinite tag body :
  is_indefinite (blen (asn1_header tag (blen body))) (asn1_bytes tag body) = false.
Proof.
  unfold is_indefinite, CBS_len. destruct (Z.eqb_spec (blen (asn1_bytes tag body)) (blen (asn1_header tag (blen body)))) as [E|];
    [|done].
  unfold asn1_bytes in *. rewrite blen_app in E. assert (body = []) as -> by (apply blen_inv_nil; lia).
  change (blen (@nil Z)) with 0. rewrite app_nil_r.
  unfold asn1_header. change (asn1_len_bytes 0) with [0]. rewrite blen_app, blen_singleton.
  replace (Z.to_nat (blen (asn1_tag_bytes tag) + 1 - 1)) with (length (asn1_tag_bytes tag)) by (unfold blen; lia).
  rewrite nth_middle. apply andb_false_r.
Qed.

(** An indefinite length. *)
Lemma read_indefinite tag r :
  in_word 32 tag -> constructed tag = true -> bytes r ->
  CBS_get_any_ber_asn1_element (asn1_tag_bytes tag ++ 0x80 :: r) =
  (Some (AsnElement (asn1_tag_bytes tag ++ [0x80]) tag (blen (asn1_tag_bytes tag) + 1) true), r).
Proof.
  intros Ht Hc Hr. unfold CBS_get_any_ber_asn1_element.
  assert (is_byte 0x80) as H80 by (split; [done|vm_compute; reflexivity]).
  erewrite (cbs_get_any_asn1_element_unfold true _ tag 0x80 r); [|done|].
  2:{ apply parse_asn1_tag_Some; [|done]. apply bytes_app. split; [apply bytes_asn1_tag_bytes|by constructor]. }
  cbv zeta. change (0x80 <? 128) with false. cbn iota.
  unfold constructed in Hc. rewrite Hc. change (true && true && (0x80 mod 128 =? 0)) with true. cbn iota.
  rewrite blen_app, blen_cons. replace (blen (asn1_tag_bytes tag) + (1 + blen r) - blen r)
    with (blen (asn1_tag_bytes tag ++ [0x80])) by (rewrite blen_app, blen_singleton; lia).
  rewrite (cons_middle 0x80 (asn1_tag_bytes tag) r), app_assoc, (bind_ok _ _ _ _ _ (cbs_get_app _ _)).
  unfold mret, M_ret. by rewrite blen_app, blen_singleton.
Qed.

Lemma indefinite_not_eoc header_len l : is_eoc header_len (l ++ [0x80]) = false.
Proof.
  apply is_eoc_false. intros E. change [0; 0] with ([0] ++ [0]) in E.
  apply app_inj_2 in E as [_ E]; [discriminate|done].
Qed.

Lemma indefinite_is_indefinite l : is_indefinite (blen l + 1) (l ++ [0x80]) = true.
Proof.
  unfold is_indefinite, CBS_len. rewrite blen_app, blen_singleton, Z.eqb_refl.
  pose proof (blen_nonneg l). rewrite (proj2 (Z.ltb_lt _ _)) by lia. cbn [andb].
  replace (Z.to_nat (blen l + 1 - 1)) with (length l) by (unfold blen; lia). by rewrite nth_middle.
Qed.

Lemma clear_constructed_id tag : in_word 32 tag -> constructed tag = false -> clear_constructed tag = tag.
Proof.
  intros Ht Hc. unfold constructed in Hc. apply negb_false_iff, Z.eqb_eq in Hc.
  unfold clear_constructed. apply Z.bits_inj'. intros i Hi. rewrite Z.land_spec.
  destruct (Z.testbit tag i) eqn:Eb; [|done]. cbn [andb].
  assert (i < 32) as Hi32.
  { destruct (Z.lt_ge_cases i 32); [done|]. rewrite (testbit_high 32) in Eb by done. done. }
  assert (i <> 29) as H29.
  { intros ->. assert (Z.testbit (Z.land tag CBS_ASN1_CONSTRUCTED) 29 = false) as Hx by (rewrite Hc; apply Z.bits_0).
    rewrite Z.land_spec, Eb in Hx. vm_compute in Hx. discriminate. }
  rewrite testbit_wrap, Z.lnot_spec by lia. change CBS_ASN1_CONSTRUCTED with (2 ^ 29).
  rewrite Z.pow2_bits_eqb, (proj2 (Z.eqb_neq _ _)) by lia. cbn [negb]. rewrite andb_true_r. by apply Z.ltb_lt.
Qed.

Lemma bytes_ber_bytes indefinite tag c : bytes (ber_bytes indefinite tag c) <-> bytes c.
Proof.
  destruct indefinite; cbn [ber_bytes]; [|apply bytes_asn1_bytes]. rewrite !bytes_app.
  assert (forall l, Forall is_byte l -> bytes l) as H by done.
  split; [tauto|]. intros Hc. split_and!; [apply bytes_asn1_tag_bytes| |done|]; apply H.
  - repeat constructor; vm_compute; discriminate || reflexivity.
  - by repeat constructor.
Qed.

Lemma blen_ber_bytes indefinite tag c : blen c + 2 <= blen (ber_bytes indefinite tag c).
Proof.
  pose proof (blen_asn1_tag_bytes tag). destruct indefinite; cbn [ber_bytes].
  - rewrite !blen_app, blen_singleton. change (blen [0; 0]) with 2. lia.
  - rewrite blen_asn1_bytes. pose proof (blen_asn1_len_bytes (blen c)). lia.
Qed.

(** * The conversion of BER encodings *)

(** What is left to read after [s]: the end-of-contents octets and what follows
    them, inside an element of indefinite length. *)
Definition after (looking : bool) (r : list Z) : list Z := if looking then 0 :: 0 :: r else [].

(** An iteration on an element of definite length. *)
Lemma convert_definite fuel st looking depth tag body s :
  in_word 32 tag -> tag <> 0 -> bytes body -> bytes s -> blen body < 2 ^ 32 ->
  (st = 0 \/ clear_constructed tag = st) ->
  convert (S fuel) st looking depth (asn1_bytes tag body ++ s) =
  let '(out_tag, child) := if st =? 0 then convert_tags tag else (tag, st) in
  '(d, s) ← (if constructed tag then
               if kMaxDepth <? depth + 1 then None
               else '(d, _) ← convert fuel child false (depth + 1) body; Some (d, s)
             else Some (body, s));
  '(ds, s) ← convert fuel st looking depth s;
  Some ((if st =? 0 then asn1_bytes out_tag d else d) ++ ds, s).
Proof.
  intros Ht H0 Hb Hs Hl Hst. cbn [convert]. pose proof (blen_nonneg s). pose proof (blen_ber_bytes false tag body) as Hx.
  cbn [ber_bytes] in Hx. pose proof (blen_nonneg body).
  rewrite (proj2 (Z.leb_gt _ _)) by (unfold CBS_len; rewrite blen_app; lia).
  rewrite read_definite by done. cbn [ae_out ae_header_len ae_tag].
  rewrite definite_not_eoc, definite_not_indefinite, drop_header by done.
  replace (negb (st =? 0) && negb (clear_constructed tag =? st)) with false; [done|].
  destruct Hst as [-> | ->]; [done|]. rewrite Z.eqb_refl. by destruct (st =? 0).
Qed.

(** An iteration on an element of indefinite length. *)
Lemma convert_indefinite fuel st looking depth tag s :
  in_word 32 tag -> constructed tag = true -> bytes s ->
  (st = 0 \/ clear_constructed tag = st) ->
  convert (S fuel) st looking depth (asn1_tag_bytes tag ++ 0x80 :: s) =
  let '(out_tag, child) := if st =? 0 then convert_tags tag else (tag, st) in
  '(d, s) ← (if kMaxDepth <? depth + 1 then None else convert fuel child true (depth + 1) s);
  '(ds, s) ← convert fuel st looking depth s;
  Some ((if st =? 0 then asn1_bytes out_tag d else d) ++ ds, s).
Proof.
  intros Ht Hc Hs Hst. cbn [convert]. pose proof (blen_nonneg s). pose proof (blen_asn1_tag_bytes tag).
  rewrite (proj2 (Z.leb_gt _ _)) by (unfold CBS_len; rewrite blen_app, blen_cons; lia).
  rewrite read_indefinite by done. cbn [ae_out ae_header_len ae_tag].
  rewrite indefinite_not_eoc, indefinite_is_indefinite.
  replace (negb (st =? 0) && negb (clear_constructed tag =? st)) with false; [done|].
  destruct Hst as [-> | ->]; [done|]. rewrite Z.eqb_refl. by destruct (st =? 0).
Qed.

(** Either, with the conversion of the contents known. *)
Lemma convert_element fuel st looking depth indefinite tag c dc s ds r :
  in_word 32 tag -> constructed tag = true -> bytes c -> bytes s -> blen c < 2 ^ 32 ->
  (st = 0 \/ clear_constructed tag = st) -> depth + 1 <= kMaxDepth ->
  let '(out_tag, child) := if st =? 0 then convert_tags tag else (tag, st) in
  (forall looking r, bytes r -> (length (c ++ after looking r) <= fuel)%nat ->
     convert fuel child looking (depth + 1) (c ++ after looking r) = Some (dc, if looking then r else [])) ->
  convert fuel st looking depth s = Some (ds, r) ->
  (length (ber_bytes indefinite tag c ++ s) <= S fuel)%nat ->
  convert (S fuel) st looking depth (ber_bytes indefinite tag c ++ s) =
  Some ((if st =? 0 then asn1_bytes out_tag dc else dc) ++ ds, r).
Proof.
  intros Ht Hc Hb Hs Hl Hst Hd. destruct (if st =? 0 then _ else _) as [out_tag child] eqn:Etags.
  intros IH Hrest Hfuel. apply Z.ltb_ge in Hd. pose proof (blen_asn1_tag_bytes tag) as Htb. unfold blen in Htb.
  destruct indefinite; cbn [ber_bytes] in *.
  - rewrite <-!app_assoc in *. cbn [app] in *. rewrite !length_app in Hfuel. cbn [length] in Hfuel.
    rewrite length_app in Hfuel. cbn [length] in Hfuel.
    rewrite convert_indefinite by (done || (rewrite bytes_app; split; [done|by repeat constructor])).
    rewrite Etags, Hd. change (c ++ 0 :: 0 :: s) with (c ++ after true s). rewrite (IH true s); [|done|rewrite length_app; cbn [after length]; lia]. cbn [mbind option_bind]. by rewrite Hrest.
  - rewrite length_app in Hfuel. pose proof (blen_ber_bytes false tag c) as Hx. cbn [ber_bytes] in Hx. unfold blen in Hx.
    rewrite convert_definite; [|done|by intros ->|done..].
    rewrite Etags, Hc, Hd. specialize (IH false []). cbn [after] in IH. rewrite app_nil_r in IH.
    rewrite IH; [|done|lia]. cbn [mbind option_bind]. by rewrite Hrest.
Qed.

Lemma bytes_after looking r : bytes r -> bytes (after looking r).
Proof. intros Hr. destruct looking; [|done]. by repeat constructor. Qed.

(** An element takes at least one step of the fuel. *)
Lemma fuel_element (l e t : list Z) fuel :
  blen l + 2 <= blen e -> (length (e ++ t) <= fuel)%nat -> exists f, fuel = S f /\ (length t <= f)%nat.
Proof.
  intros He Hf. pose proof (blen_nonneg l). rewrite length_app in Hf. unfold blen in *.
  destruct fuel as [|f]; [lia|]. exists f. split; [done|lia].
Qed.

(** The conversion computes the relation. *)
Lemma convert_ber_der depth st s d :
  ber_der depth st s d -> forall fuel looking r, bytes s -> bytes r -> blen s < 2 ^ 32 ->
  (length (s ++ after looking r) <= fuel)%nat ->
  convert fuel st looking depth (s ++ after looking r) = Some (d, if looking then r else []).
Proof.
  induction 1; intros fuel looking r Hs Hr Hl Hfuel.
  { destruct looking; [|by destruct fuel]. destruct fuel as [|fuel]; [cbn in Hfuel; lia|].
    cbn [convert app after]. pose proof (blen_nonneg r).
    rewrite (proj2 (Z.leb_gt _ _)) by (unfold CBS_len; rewrite !blen_cons; lia).
    change (0 :: 0 :: r) with (asn1_bytes 0 [] ++ r). by rewrite read_definite by (done || by split). }
  all: apply bytes_app in Hs as [Hc Hs]; rewrite blen_app in Hl; rewrite <-app_assoc in *.
  all: assert (bytes (s ++ after looking r)) as Hsr by (apply bytes_app; split; [done|by apply bytes_after]).
  all: pose proof (blen_nonneg s).
  1,4: apply bytes_asn1_bytes in Hc as Hb;
    match type of Hc with bytes (asn1_bytes ?t ?body) =>
      pose proof (blen_ber_bytes false t body) as Hx; pose proof (blen_nonneg body) end;
    cbn [ber_bytes] in Hx;
    destruct (fuel_element _ _ _ _ Hx Hfuel) as (f & -> & Hf);
    rewrite convert_definite by (done || lia || (by left) || (right; by apply clear_constructed_id));
    specialize (IHber_der f looking r Hs Hr ltac:(lia) Hf).
  3-5: apply bytes_ber_bytes in Hc as Hb;
    match type of Hc with bytes (ber_bytes ?i ?t ?c) =>
      pose proof (blen_ber_bytes i t c) as Hx; pose proof (blen_nonneg c) end;
    destruct (fuel_element _ _ _ _ Hx Hfuel) as (f & -> & Hf);
    specialize (IHber_der2 f looking r Hs Hr ltac:(lia) Hf).
  - change (0 =? 0) with true. unfold convert_tags. rewrite H0. cbn [andb mbind option_bind].
    rewrite IHber_der. done.
  - rewrite (proj2 (Z.eqb_neq st 0)) by done. rewrite H0. cbn [mbind option_bind].
    rewrite IHber_der. done.
  - pose proof (convert_element f 0 looking depth indefinite tag c dc _ d (if looking then r else []) H H0 Hb Hsr ltac:(lia) (or_introl eq_refl) H2) as He.
    change (0 =? 0) with true in He. unfold convert_tags in He. rewrite H0, H1 in He. cbn [andb] in He.
    apply He; [|done|done]. intros. apply IHber_der1; (done || lia).
  - pose proof (convert_element f 0 looking depth indefinite tag c dc _ d (if looking then r else []) H H0 Hb Hsr ltac:(lia) (or_introl eq_refl) H2) as He.
    change (0 =? 0) with true in He. unfold convert_tags in He. rewrite H0, H1 in He. cbn [andb] in He.
    apply He; [|done|done]. intros. apply IHber_der1; (done || lia).
  - pose proof (convert_element f (clear_constructed tag) looking depth indefinite tag c dc _ d (if looking then r else []) H H0 Hb Hsr
      ltac:(lia) (or_intror eq_refl) H2) as He.
    rewrite (proj2 (Z.eqb_neq (clear_constructed tag) 0)) in He by done.
    apply He; [|done|done]. intros. apply IHber_der1; (done || lia).
Qed.

(** * The search *)

(** An iteration on an element of definite length. *)
Lemma find_ber_definite fuel f depth tag body x :
  in_word 32 tag -> bytes body -> bytes x -> blen body < 2 ^ 32 ->
  find_ber_loop (S fuel) f depth (asn1_bytes tag body ++ x) =
  if constructed tag then
    if is_string_type tag then Some true
    else if kMaxDepth <? depth + 1 then None
    else f ← find_ber_loop fuel false (depth + 1) body; find_ber_loop fuel f depth x
  else find_ber_loop fuel false depth x.
Proof.
  intros Ht Hb Hx Hl. cbn [find_ber_loop]. pose proof (blen_nonneg x). pose proof (blen_nonneg body).
  pose proof (blen_ber_bytes false tag body) as He. cbn [ber_bytes] in He.
  rewrite (proj2 (Z.leb_gt _ _)) by (unfold CBS_len; rewrite blen_app; lia).
  rewrite read_definite by done. cbn [ae_out ae_header_len ae_tag ae_ber_found].
  destruct (constructed tag); [|done]. destruct (is_string_type tag); [done|].
  unfold asn1_bytes. rewrite CBS_skip_app. by destruct (_ <? _).
Qed.

Lemma find_ber_indefinite fuel f depth tag x :
  in_word 32 tag -> constructed tag = true -> bytes x ->
  find_ber_loop (S fuel) f depth (asn1_tag_bytes tag ++ 0x80 :: x) = Some true.
Proof.
  intros Ht Hc Hx. cbn [find_ber_loop]. pose proof (blen_nonneg x). pose proof (blen_asn1_tag_bytes tag).
  rewrite (proj2 (Z.leb_gt _ _)) by (unfold CBS_len; rewrite blen_app, blen_cons; lia).
  by rewrite read_indefinite.
Qed.

Lemma find_ber_nil fuel f depth : find_ber_loop fuel f depth [] = Some f.
Proof. by destruct fuel. Qed.

(** The search passes over DER, and forgets what it had found. *)
Lemma find_ber_der depth s :
  der depth s -> forall fuel f x, bytes s -> bytes x -> blen s < 2 ^ 32 -> (length (s ++ x) <= fuel)%nat ->
  exists fuel' f', (length x <= fuel')%nat /\ (f = false \/ s <> [] -> f' = false) /\
    find_ber_loop fuel f depth (s ++ x) = find_ber_loop fuel' f' depth x.
Proof.
  induction 1; intros fuel f x Hs Hx Hl Hfuel.
  { exists fuel, f. split_and!; [done|by intros [?|?]|done]. }
  all: apply bytes_app in Hs as [Hc Hs]; apply bytes_asn1_bytes in Hc; rewrite blen_app in Hl;
    rewrite <-app_assoc in *; pose proof (blen_nonneg rest); pose proof (blen_nonneg body);
    pose proof (blen_ber_bytes false tag body) as He; cbn [ber_bytes] in He;
    destruct (fuel_element _ _ _ _ He Hfuel) as (g & -> & Hg);
    rewrite find_ber_definite by (done || lia || by apply bytes_app).
  - rewrite H1. destruct (IHder g false x) as (g' & f' & Hg' & Hf' & E); [done|done|lia|done|].
    exists g', f'. split_and!; [done|intros _; apply Hf'; by left|done].
  - rewrite H1, H2, (proj2 (Z.ltb_ge _ _)) by done.
    destruct (IHder1 g false []) as (g1 & f1 & _ & Hf1 & E1); [done|done|lia| |].
    { rewrite app_nil_r. rewrite length_app in Hfuel. unfold blen in He. lia. }
    rewrite app_nil_r in E1. rewrite E1, find_ber_nil, Hf1 by by left. cbn [mbind option_bind].
    destruct (IHder2 g false x) as (g' & f' & Hg' & Hf' & E); [done|done|lia|done|].
    exists g', f'. split_and!; [done|intros _; apply Hf'; by left|done].
Qed.

Lemma find_ber_der_false fuel depth s f :
  der depth s -> bytes s -> blen s < 2 ^ 32 -> (length s <= fuel)%nat -> f = false \/ s <> [] ->
  find_ber_loop fuel f depth s = Some false.
Proof.
  intros Hd Hs Hl Hf Hn. destruct (find_ber_der depth s Hd fuel f []) as (g & f' & _ & Hf' & E); [done|done|done| |].
  { by rewrite app_nil_r. }
  rewrite app_nil_r in E. by rewrite E, find_ber_nil, Hf'.
Qed.

(** It does not fail on a BER encoding. *)
Lemma find_ber_total depth st s d :
  ber_der depth st s d -> st = 0 -> forall fuel f, bytes s -> blen s < 2 ^ 32 -> (length s <= fuel)%nat ->
  exists b, find_ber_loop fuel f depth s = Some b.
Proof.
  induction 1; intros Hst fuel f Hs Hl Hfuel; [exists f; apply find_ber_nil|..]; try done.
  all: apply bytes_app in Hs as [Hc Hs]; rewrite blen_app in Hl; pose proof (blen_nonneg s).
  - apply bytes_asn1_bytes in Hc. pose proof (blen_ber_bytes false tag body) as He. cbn [ber_bytes] in He.
    pose proof (blen_nonneg body). destruct (fuel_element _ _ _ _ He Hfuel) as (g & -> & Hg).
    rewrite find_ber_definite, H0 by (done || lia). apply IHber_der; (done || lia).
  - apply bytes_ber_bytes in Hc. pose proof (blen_ber_bytes indefinite tag c) as He.
    pose proof (blen_nonneg c). destruct (fuel_element _ _ _ _ He Hfuel) as (g & -> & Hg).
    destruct indefinite; cbn [ber_bytes] in *.
    + rewrite <-!app_assoc. eexists. apply find_ber_indefinite; [done..|]. cbn [app]. apply bytes_app. split; [done|].
      by repeat constructor.
    + rewrite find_ber_definite, H0, H1, (proj2 (Z.ltb_ge _ _)) by (done || lia).
      destruct (IHber_der1 eq_refl g false) as [b ->]; [done|lia|rewrite length_app in Hfuel; unfold blen in He; lia|].
      cbn [mbind option_bind]. apply IHber_der2; (done || lia).
  - apply bytes_ber_bytes in Hc. pose proof (blen_ber_bytes indefinite tag c) as He.
    pose proof (blen_nonneg c). destruct (fuel_element _ _ _ _ He Hfuel) as (g & -> & Hg). exists true.
    destruct indefinite; cbn [ber_bytes] in *.
    + rewrite <-!app_assoc. apply find_ber_indefinite; [done..|]. cbn [app]. apply bytes_app. split; [done|].
      by repeat constructor.
    + by rewrite find_ber_definite, H0, H1 by (done || lia).
Qed.

(** An element of indefinite length or a constructed string after DER is found. *)
Definition ber_start (x : list Z) : Prop :=
  exists tag, in_word 32 tag /\ constructed tag = true /\
    ((exists r, x = asn1_tag_bytes tag ++ 0x80 :: r) \/
     (is_string_type tag = true /\ exists body r, blen body < 2 ^ 32 /\ x = asn1_bytes tag body ++ r)).

Lemma find_ber_start depth pre x fuel f :
  der depth pre -> ber_start x -> bytes (pre ++ x) -> blen pre < 2 ^ 32 -> (length (pre ++ x) <= fuel)%nat ->
  find_ber_loop fuel f depth (pre ++ x) = Some true.
Proof.
  intros Hd (tag & Ht & Hc & Hx) [Hp Hb]%bytes_app Hl Hfuel.
  destruct (find_ber_der depth pre Hd fuel f x Hp Hb Hl Hfuel) as (g & f' & Hg & _ & ->).
  destruct Hx as [[r ->]|(Hs & body & r & Hbl & ->)].
  - destruct g as [|g]; [rewrite length_app in Hg; cbn in Hg; lia|].
    apply find_ber_indefinite; [done..|]. by apply bytes_app in Hb as [_ [_ ?]%Forall_cons].
  - pose proof (blen_ber_bytes false tag body) as He. cbn [ber_bytes] in He.
    destruct (fuel_element _ _ _ _ He Hg) as (g' & -> & _). apply bytes_app in Hb as [Hb%bytes_asn1_bytes Hr].
    by rewrite find_ber_definite, Hc, Hs.
Qed.
