(* ===== verification/Unicode.v ===== *)
(** crypto/bytestring/unicode.c: reading and writing one code point in UTF-8,
    Latin-1, UCS-2 and UTF-32. *)

From S2P Require Import Prelude CryptoInternal Cbs Cbb CbbSpec.

Definition is_valid_code_point (v : Z) : bool :=
  negb ((0x10ffff <? v) || (Z.land v 0xfffe =? 0xfffe) ||
        ((0xfdd0 <=? v) && (v <=? 0xfdef)) || ((0xd800 <=? v) && (v <=? 0xdfff))).

Definition BOTTOM_BITS (n : Z) : Z := u8 (Z.shiftl 1 n - 1).
Definition TOP_BITS (n : Z) : Z := u8 (Z.lnot (BOTTOM_BITS (8 - n))).

(** The loop over the [len] continuation bytes. *)
Fixpoint utf8_tail (len : nat) (v : Z) : M CBS Z :=
  match len with
  | O => mret v
  | S len =>
      c ← CBS_get_u8;
      _ ← massert (Z.land c (TOP_BITS 2) =? TOP_BITS 1);
      utf8_tail len (Z.lor (u32 (Z.shiftl v 6)) (Z.land c (BOTTOM_BITS 6)))
  end.

Definition cbs_get_utf8 : M CBS Z :=
  c ← CBS_get_u8;
  if c <=? 0x7f then mret c
  else
    '(v, len, lower_bound) ←
      (if Z.land c (TOP_BITS 3) =? TOP_BITS 2 then mret (Z.land c (BOTTOM_BITS 5), 1%nat, 0x80)
       else if Z.land c (TOP_BITS 4) =? TOP_BITS 3 then mret (Z.land c (BOTTOM_BITS 4), 2%nat, 0x800)
       else if Z.land c (TOP_BITS 5) =? TOP_BITS 4 then mret (Z.land c (BOTTOM_BITS 3), 3%nat, 0x10000)
       else mfail);
    v ← utf8_tail len v;
    _ ← massert (negb (negb (is_valid_code_point v) || (v <? lower_bound)));
    mret v.

Definition cbs_get_latin1 : M CBS Z := CBS_get_u8.

Definition cbs_get_ucs2_be : M CBS Z :=
  c ← CBS_get_u16;
  _ ← massert (is_valid_code_point c);
  mret c.

Definition cbs_get_utf32_be : M CBS Z :=
  out ← CBS_get_u32;
  _ ← massert (is_valid_code_point out);
  mret out.

Definition cbb_get_utf8_len (u : Z) : Z :=
  if u <=? 0x7f then 1 else if u <=? 0x7ff then 2 else if u <=? 0xffff then 3 else 4.

Section Write.
Context {m : Malloc}.

Definition cbb_add_utf8 (cbb : loc) (u : Z) : M heap unit :=
  _ ← massert (is_valid_code_point u);
  if u <=? 0x7f then CBB_add_u8 cbb (u8 u)
  else if u <=? 0x7ff then
    _ ← CBB_add_u8 cbb (u8 (Z.lor (TOP_BITS 2) (Z.shiftr u 6)));
    CBB_add_u8 cbb (u8 (Z.lor (TOP_BITS 1) (Z.land u (BOTTOM_BITS 6))))
  else if u <=? 0xffff then
    _ ← CBB_add_u8 cbb (u8 (Z.lor (TOP_BITS 3) (Z.shiftr u 12)));
    _ ← CBB_add_u8 cbb (u8 (Z.lor (TOP_BITS 1) (Z.land (Z.shiftr u 6) (BOTTOM_BITS 6))));
    CBB_add_u8 cbb (u8 (Z.lor (TOP_BITS 1) (Z.land u (BOTTOM_BITS 6))))
  else if u <=? 0x10ffff then
    _ ← CBB_add_u8 cbb (u8 (Z.lor (TOP_BITS 4) (Z.shiftr u 18)));
    _ ← CBB_add_u8 cbb (u8 (Z.lor (TOP_BITS 1) (Z.land (Z.shiftr u 12) (BOTTOM_BITS 6))));
    _ ← CBB_add_u8 cbb (u8 (Z.lor (TOP_BITS 1) (Z.land (Z.shiftr u 6) (BOTTOM_BITS 6))));
    CBB_add_u8 cbb (u8 (Z.lor (TOP_BITS 1) (Z.land u (BOTTOM_BITS 6))))
  else mfail.

Definition cbb_add_latin1 (cbb : loc) (u : Z) : M heap unit :=
  _ ← massert (u <=? 0xff);
  CBB_add_u8 cbb (u8 u).

Definition cbb_add_ucs2_be (cbb : loc) (u : Z) : M heap unit :=
  _ ← massert ((u <=? 0xffff) && is_valid_code_point u);
  CBB_add_u16 cbb (u16 u).

Definition cbb_add_utf32_be (cbb : loc) (u : Z) : M heap unit :=
  _ ← massert (is_valid_code_point u);
  CBB_add_u32 cbb u.
End Write.

(** * The encoding *)

(** UTF-8 in arithmetic. *)
Definition utf8 (u : Z) : list Z :=
  if u <? 0x80 then [u]
  else if u <? 0x800 then [192 + u / 64; 128 + u mod 64]
  else if u <? 0x10000 then [224 + u / 4096; 128 + u / 64 mod 64; 128 + u mod 64]
  else [240 + u / 262144; 128 + u / 4096 mod 64; 128 + u / 64 mod 64; 128 + u mod 64].

Lemma is_valid_range v : is_valid_code_point v = true -> v <= 0x10ffff.
Proof.
  unfold is_valid_code_point. rewrite negb_true_iff, !orb_false_iff. intros [[[H _] _] _].
  by apply Z.ltb_ge.
Qed.

Lemma utf8_class c : is_byte c ->
  (Z.land c (TOP_BITS 3) =? TOP_BITS 2) = ((192 <=? c) && (c <? 224)) /\
  (Z.land c (TOP_BITS 4) =? TOP_BITS 3) = ((224 <=? c) && (c <? 240)) /\
  (Z.land c (TOP_BITS 5) =? TOP_BITS 4) = ((240 <=? c) && (c <? 248)) /\
  (Z.land c (TOP_BITS 2) =? TOP_BITS 1) = ((128 <=? c) && (c <? 192)) /\
  Z.land c (BOTTOM_BITS 5) = c mod 32 /\ Z.land c (BOTTOM_BITS 4) = c mod 16 /\
  Z.land c (BOTTOM_BITS 3) = c mod 8 /\ Z.land c (BOTTOM_BITS 6) = c mod 64.
Proof.
  intros Hc.
  pose proof (forall_bytes (fun c =>
    eqb (Z.land c (TOP_BITS 3) =? TOP_BITS 2) ((192 <=? c) && (c <? 224)) &&
    eqb (Z.land c (TOP_BITS 4) =? TOP_BITS 3) ((224 <=? c) && (c <? 240)) &&
    eqb (Z.land c (TOP_BITS 5) =? TOP_BITS 4) ((240 <=? c) && (c <? 248)) &&
    eqb (Z.land c (TOP_BITS 2) =? TOP_BITS 1) ((128 <=? c) && (c <? 192)))
    ltac:(vm_compute; reflexivity) c Hc) as H. cbn beta in H.
  rewrite !andb_true_iff, !eqb_true_iff in H. destruct H as [[[? ?] ?] ?].
  split_and!; [done..| | | |];
    [change (BOTTOM_BITS 5) with (Z.ones 5)|change (BOTTOM_BITS 4) with (Z.ones 4)
    |change (BOTTOM_BITS 3) with (Z.ones 3)|change (BOTTOM_BITS 6) with (Z.ones 6)]; by apply Z.land_ones.
Qed.

(** One continuation byte. *)
Lemma utf8_tail_step v c : 0 <= v < 2 ^ 24 -> is_byte c ->
  Z.lor (u32 (Z.shiftl v 6)) (Z.land c (BOTTOM_BITS 6)) = v * 64 + c mod 64.
Proof.
  intros Hv Hc. destruct (utf8_class c Hc) as (_&_&_&_&_&_&_&->).
  assert (in_word 6 (c mod 64)) as Hm by (unfold in_word; pow2; zdiv).
  rewrite wrap_small; [by apply lor_shiftl_low|].
  rewrite Z.shiftl_mul_pow2 by lia. unfold in_word. pow2. lia.
Qed.

Lemma utf8_tail_bound v c len :
  0 <= v < 2 ^ (23 - 6 * Z.of_nat (S len)) -> 128 <= c < 192 -> (S len <= 3)%nat ->
  0 <= v * 64 + (c - 128) < 2 ^ (23 - 6 * Z.of_nat len).
Proof.
  intros Hv Hc Hl. replace (23 - 6 * Z.of_nat len) with (23 - 6 * Z.of_nat (S len) + 6) by lia.
  rewrite Z.pow_add_r by lia. pow2. lia.
Qed.

(** The continuation bytes that are read, and the value they add. *)
Lemma utf8_tail_Some len v s u r :
  (len <= 3)%nat -> 0 <= v < 2 ^ 5 -> bytes s ->
  utf8_tail len v s = (Some u, r) <->
  exists t, length t = len /\ Forall (fun c => 128 <= c < 192) t /\ s = t ++ r /\
    u = fold_left (fun v c => v * 64 + (c - 128)) t v.
Proof.
  intros Hlen Hv. assert (0 <= v < 2 ^ (23 - 6 * Z.of_nat len)) as Hv'.
  { pose proof (Z.pow_le_mono_r 2 5 (23 - 6 * Z.of_nat len)). lia. }
  clear Hv. revert v s Hv'. induction len as [|len IH]; intros v s Hv Hs; cbn [utf8_tail].
  - rewrite ret_Some. split; [intros [<- <-]; by exists []|].
    intros (t & Ht & _ & -> & ->). by destruct t.
  - rewrite bind_Some. split.
    + intros (c & s1 & ->%CBS_get_u8_Some & H). apply Forall_cons in Hs as [Hc Hs].
      rewrite massert_bind in H. destruct (utf8_class c Hc) as (_&_&_&E&_). rewrite E in H.
      destruct (Z.leb_spec 128 c), (Z.ltb_spec c 192); cbn in H; try done.
      replace (Z.lor _ _) with (v * 64 + (c - 128)) in H.
      2: { rewrite utf8_tail_step; [zdiv| |done]. pose proof (Z.pow_le_mono_r 2 (23 - 6 * Z.of_nat (S len)) 24). lia. }
      apply IH in H as (t & Ht & Hcs & -> & ->); [|lia|apply utf8_tail_bound; lia|done].
      exists (c :: t). cbn. split_and!; try done; [lia|constructor; [lia|done]].
    + intros (t & Ht & Hcs & -> & ->). destruct t as [|c t]; [done|].
      apply Forall_cons in Hcs as [Hc Hcs]. apply bytes_app in Hs as [Hs Hr].
      apply Forall_cons in Hs as [Hcb Hs].
      exists c, (t ++ r). split; [by apply CBS_get_u8_Some|].
      rewrite massert_bind. destruct (utf8_class c Hcb) as (_&_&_&->&_).
      rewrite (proj2 (Z.leb_le _ _)), (proj2 (Z.ltb_lt _ _)) by lia. cbn [andb].
      replace (Z.lor _ _) with (v * 64 + (c - 128)).
      2: { rewrite utf8_tail_step; [zdiv| |done]. pose proof (Z.pow_le_mono_r 2 (23 - 6 * Z.of_nat (S len)) 24). lia. }
      apply IH; [lia|apply utf8_tail_bound; lia|by apply bytes_app|].
      exists t. split_and!; try done. cbn in Ht. lia.
Qed.

Lemma utf8_fold_nonneg t : forall v, Forall (fun c => 128 <= c < 192) t -> 0 <= v ->
  0 <= fold_left (fun v c => v * 64 + (c - 128)) t v.
Proof.
  induction t as [|c t IH]; intros v Ht Hv; [done|]. apply Forall_cons in Ht as [? ?].
  apply IH; [done|lia].
Qed.

(** The continuation bytes and the checks after them. *)
Lemma utf8_multi len v lower_bound s u r :
  (len <= 3)%nat -> 0 <= v < 2 ^ 5 -> bytes s ->
  (v ← utf8_tail len v;
   _ ← massert (negb (negb (is_valid_code_point v) || (v <? lower_bound)));
   mret v) s = (Some u, r) <->
  exists t, length t = len /\ Forall (fun c => 128 <= c < 192) t /\ s = t ++ r /\
    u = fold_left (fun v c => v * 64 + (c - 128)) t v /\
    is_valid_code_point u = true /\ lower_bound <= u.
Proof.
  intros Hlen Hv Hs. rewrite bind_Some. split.
  - intros (x & s1 & H & Hk). rewrite massert_bind in Hk.
    destruct (negb _) eqn:E; [|done]. apply ret_Some in Hk as [-> ->].
    apply utf8_tail_Some in H as (t & ? & ? & ? & ?); [|done..].
    apply negb_true_iff, orb_false_iff in E as [E1%negb_false_iff E2%Z.ltb_ge]. by exists t.
  - intros (t & Ht & Hcs & Heq & Hu & Hval & Hlb). exists u, r. split; [apply utf8_tail_Some; eauto|].
    rewrite massert_bind, Hval, (proj2 (Z.ltb_ge _ _)) by done. done.
Qed.

Lemma is_valid_small u : 0 <= u <= 0x7f -> is_valid_code_point u = true.
Proof.
  intros Hu. pose proof (forall_bytes (fun u => (0x7f <? u) || is_valid_code_point u)
    ltac:(vm_compute; reflexivity) u) as H. cbn beta in H.
  rewrite (proj2 (Z.ltb_ge _ _)) in H by lia. apply H. unfold in_word. pow2. lia.
Qed.

(** The two-, three- and four-byte forms. *)
Lemma utf8_bytes_2 c a u r :
  192 <= c < 224 -> 128 <= a < 192 -> u = (c - 192) * 64 + (a - 128) -> 0x80 <= u ->
  c :: [a] ++ r = utf8 u ++ r.
Proof.
  intros Hc Ha Hu Hlb. unfold utf8. rewrite (proj2 (Z.ltb_ge _ _)), (proj2 (Z.ltb_lt _ _)) by lia.
  cbn [app]. f_equal; [zdiv|]. f_equal. zdiv.
Qed.

Lemma utf8_bytes_3 c a b u r :
  224 <= c < 240 -> 128 <= a < 192 -> 128 <= b < 192 ->
  u = ((c - 224) * 64 + (a - 128)) * 64 + (b - 128) -> 0x800 <= u ->
  c :: [a; b] ++ r = utf8 u ++ r.
Proof.
  intros Hc Ha Hb Hu Hlb. unfold utf8. rewrite (proj2 (Z.ltb_ge _ _)), (proj2 (Z.ltb_ge _ _)), (proj2 (Z.ltb_lt _ _)) by lia.
  cbn [app]. f_equal; [zdiv|]. f_equal; [zdiv|]. f_equal. zdiv.
Qed.

Lemma utf8_bytes_4 c a b d u r :
  240 <= c < 248 -> 128 <= a < 192 -> 128 <= b < 192 -> 128 <= d < 192 ->
  u = (((c - 240) * 64 + (a - 128)) * 64 + (b - 128)) * 64 + (d - 128) -> 0x10000 <= u ->
  c :: [a; b; d] ++ r = utf8 u ++ r.
Proof.
  intros Hc Ha Hb Hd Hu Hlb. unfold utf8. rewrite !(proj2 (Z.ltb_ge _ _)) by lia.
  cbn [app]. f_equal; [zdiv|]. f_equal; [zdiv|]. f_equal; [zdiv|]. f_equal. zdiv.
Qed.

(** Reading accepts exactly the encodings of valid code points. *)
Lemma cbs_get_utf8_Some s u r :
  bytes s ->
  cbs_get_utf8 s = (Some u, r) <->
  0 <= u /\ is_valid_code_point u = true /\ s = utf8 u ++ r.
Proof.
  intros Hs. unfold cbs_get_utf8. rewrite bind_Some. split.
  - intros (c & s1 & ->%CBS_get_u8_Some & H). apply Forall_cons in Hs as [Hc Hs].
    destruct (utf8_class c Hc) as (E3 & E4 & E5 & _ & B5 & B4 & B3 & _). rewrite E3, E4, E5, B5, B4, B3 in H.
    destruct (Z.leb_spec c 0x7f).
    { minvs. destruct Hc. split; [done|]. split; [|unfold utf8; by rewrite (proj2 (Z.ltb_lt _ _)) by lia].
      by apply is_valid_small. }
    destruct Hc as [Hc1 Hc2]. change (2 ^ 8) with 256 in Hc2.
    destruct ((192 <=? c) && (c <? 224)) eqn:C3; [|destruct ((224 <=? c) && (c <? 240)) eqn:C4;
      [|destruct ((240 <=? c) && (c <? 248)) eqn:C5; [|done]]];
      rewrite bind_ret in H; cbn beta iota in H;
      match type of H with context [utf8_tail ?n ?v] =>
        apply (utf8_multi n v) in H as (t & Ht & Hcs & -> & Hu & Hv & Hlb); [|lia|pow2; zdiv|done] end;
      (split; [pose proof (utf8_fold_nonneg t) as Hp; rewrite Hu; apply Hp; [done|zdiv]|]); (split; [done|]);
      rewrite andb_true_iff, Z.leb_le, Z.ltb_lt in *; clear Hs E3 E4 E5 B5 B4 B3.
    + destruct t as [|a [|? ?]]; try done. apply Forall_cons in Hcs as [Ha _]. cbn in Hu.
      apply (utf8_bytes_2 c a u r); [lia|lia|zdiv|lia].
    + destruct t as [|a [|b [|? ?]]]; try done. rewrite !Forall_cons in Hcs. cbn in Hu.
      apply (utf8_bytes_3 c a b u r); [lia|lia|lia|zdiv|lia].
    + destruct t as [|a [|b [|d [|? ?]]]]; try done. rewrite !Forall_cons in Hcs. cbn in Hu.
      pose proof (is_valid_range u Hv).
      apply (utf8_bytes_4 c a b d u r); [lia|lia|lia|lia|zdiv|lia].
  - intros (Hu & Hv & Heq). pose proof (is_valid_range u Hv) as Hmax. unfold utf8 in Heq.
    destruct (Z.ltb_spec u 0x80).
    { exists u, r. split; [by apply CBS_get_u8_Some|]. by rewrite (proj2 (Z.leb_le _ _)) by lia. }
    destruct (Z.ltb_spec u 0x800); [|destruct (Z.ltb_spec u 0x10000)];
      (eexists _, _; split; [apply CBS_get_u8_Some; exact Heq|]);
      rewrite Heq in Hs; apply Forall_cons in Hs as [Hc Hs];
      destruct (utf8_class _ Hc) as (-> & -> & -> & _ & -> & -> & -> & _);
      rewrite (proj2 (Z.leb_gt _ 0x7f)) by (clear Heq Hc Hs; zdiv).
    + rewrite (proj2 (Z.leb_le 192 _)), (proj2 (Z.ltb_lt _ 224)) by (clear Heq Hc Hs; zdiv).
      cbn [andb]. rewrite bind_ret. cbn beta iota. apply utf8_multi; [lia|pow2; clear; zdiv|done|].
      exists [128 + u mod 64]. split_and!; try done; [repeat constructor; clear; zdiv|cbn; clear Heq Hc Hs; zdiv].
    + rewrite (proj2 (Z.ltb_ge _ 224)), andb_false_r by (clear Heq Hc Hs; zdiv).
      rewrite (proj2 (Z.leb_le 224 _)), (proj2 (Z.ltb_lt _ 240)) by (clear Heq Hc Hs; zdiv).
      cbn [andb]. rewrite bind_ret. cbn beta iota. apply utf8_multi; [lia|pow2; clear; zdiv|done|].
      exists [128 + u / 64 mod 64; 128 + u mod 64].
      split_and!; try done; [repeat constructor; clear; zdiv|cbn; clear Heq Hc Hs; zdiv].
    + rewrite (proj2 (Z.ltb_ge _ 224)), andb_false_r by (clear Heq Hc Hs; zdiv).
      rewrite (proj2 (Z.ltb_ge _ 240)), andb_false_r by (clear Heq Hc Hs; zdiv).
      rewrite (proj2 (Z.leb_le 240 _)), (proj2 (Z.ltb_lt _ 248)) by (clear Heq Hc Hs; zdiv).
      cbn [andb]. rewrite bind_ret. cbn beta iota. apply utf8_multi; [lia|pow2; clear; zdiv|done|].
      exists [128 + u / 4096 mod 64; 128 + u / 64 mod 64; 128 + u mod 64].
      split_and!; try done; [repeat constructor; clear; zdiv|cbn; clear Heq Hc Hs; zdiv].
Qed.

(** * Writing *)

Lemma top_lor n x k : 0 <= k -> in_word k x -> TOP_BITS n = Z.shiftl (TOP_BITS n / 2 ^ k) k ->
  Z.lor (TOP_BITS n) x = TOP_BITS n / 2 ^ k * 2 ^ k + x.
Proof. intros Hk Hx E. rewrite E at 1. by apply lor_shiftl_low. Qed.

Lemma continuation_byte x : u8 (Z.lor (TOP_BITS 1) (Z.land x (BOTTOM_BITS 6))) = 128 + x mod 64.
Proof.
  change (BOTTOM_BITS 6) with (Z.ones 6). rewrite Z.land_ones by lia. change (2 ^ 6) with 64.
  assert (in_word 6 (x mod 64)) by (unfold in_word; pow2; zdiv).
  rewrite (top_lor 1 _ 6) by done. change (TOP_BITS 1 / 2 ^ 6 * 2 ^ 6) with 128.
  apply wrap_small. unfold in_word in *. pow2. lia.
Qed.

Lemma lead_byte n x k y : 0 <= k -> in_word k x -> TOP_BITS n = Z.shiftl (TOP_BITS n / 2 ^ k) k ->
  TOP_BITS n / 2 ^ k * 2 ^ k = y -> y + 2 ^ k <= 256 -> 0 <= y -> u8 (Z.lor (TOP_BITS n) x) = y + x.
Proof.
  intros Hk Hx E <- Hy Hy0. rewrite (top_lor n x k) by done. apply wrap_small. unfold in_word in *. pow2. lia.
Qed.

Lemma utf8_bytes u : 0 <= u -> u <= 0x10ffff -> bytes (utf8 u).
Proof.
  intros H0 H1. unfold utf8. zcases; repeat (apply Forall_cons_2; [unfold in_word; pow2; zdiv|]); apply Forall_nil_2.
Qed.

Section Writers.
Context {m : Malloc} (N : Z).

Lemma cbb_get_utf8_len_ok u :
  0 <= u <= 0x10ffff -> cbb_get_utf8_len u = blen (utf8 u).
Proof. intros Hu. unfold cbb_get_utf8_len, utf8. zcases; done || lia. Qed.

Lemma builds_u8_last n st p k bs v :
  bytes [v] -> blen (flat (st ++ [(p, k, bs ++ [v])])) <= N ->
  builds N (CBB_add_u8 p v) n (st ++ [(p, k, bs)]) tt n (st ++ [(p, k, bs ++ [v])]).
Proof.
  intros Hv HN. apply builds_add_u8; [by inversion Hv|].
  rewrite flat_top_blen, blen_app, blen_singleton in *. lia.
Qed.

Lemma builds_u8_cons n st p k bs v l (o : M heap unit) :
  bytes (v :: l) -> blen (flat (st ++ [(p, k, bs ++ v :: l)])) <= N ->
  builds N o n (st ++ [(p, k, bs ++ [v])]) tt n (st ++ [(p, k, (bs ++ [v]) ++ l)]) ->
  builds N (_ ← CBB_add_u8 p v; o) n (st ++ [(p, k, bs)]) tt n (st ++ [(p, k, bs ++ v :: l)]).
Proof.
  intros Hv HN Ho. rewrite <-app_assoc in Ho. eapply builds_bind; [|exact Ho].
  apply builds_add_u8; [by inversion Hv|].
  rewrite flat_top_blen, blen_app, blen_cons in *. pose proof (blen_nonneg l). lia.
Qed.

Lemma builds_add_utf8 n st p k bs u :
  0 <= u -> is_valid_code_point u = true -> blen (flat (st ++ [(p, k, bs ++ utf8 u)])) <= N ->
  builds N (cbb_add_utf8 p u) n (st ++ [(p, k, bs)]) tt n (st ++ [(p, k, bs ++ utf8 u)]).
Proof.
  intros Hu Hv HN. pose proof (is_valid_range u Hv) as Hmax. unfold cbb_add_utf8.
  eapply builds_ext; [intros h; rewrite massert_bind, Hv; reflexivity|].
  rewrite !continuation_byte. rewrite !Z.shiftr_div_pow2 by lia.
  change (2 ^ 12) with 4096. change (2 ^ 6) with 64. change (2 ^ 18) with 262144.
  pose proof (utf8_bytes u Hu Hmax) as Hb. unfold utf8 in *.
  destruct (Z.leb_spec u 0x7f); [|destruct (Z.leb_spec u 0x7ff);
    [|destruct (Z.leb_spec u 0xffff); [|rewrite (proj2 (Z.leb_le u 0x10ffff)) by lia]]].
  - rewrite (proj2 (Z.ltb_lt _ _)) in * by lia. rewrite wrap_small by (unfold in_word; pow2; lia).
    by apply builds_u8_last.
  - rewrite (proj2 (Z.ltb_ge _ _)), (proj2 (Z.ltb_lt _ _)) in * by lia.
    rewrite (lead_byte 2 _ 5 192) by (try done; unfold in_word; pow2; clear HN Hb; zdiv).
    apply builds_u8_cons; [done..|]. apply builds_u8_last; [by inversion Hb|by rewrite <-app_assoc].
  - rewrite !(proj2 (Z.ltb_ge _ _)), (proj2 (Z.ltb_lt _ _)) in * by lia.
    rewrite (lead_byte 3 _ 4 224) by (try done; unfold in_word; pow2; clear HN Hb; zdiv).
    apply builds_u8_cons; [done..|]. apply Forall_inv_tail in Hb.
    apply builds_u8_cons; [done|by rewrite <-app_assoc|]. apply builds_u8_last; [by inversion Hb|by rewrite <-!app_assoc].
  - rewrite !(proj2 (Z.ltb_ge _ _)) in * by lia.
    rewrite (lead_byte 4 _ 3 240) by (try done; unfold in_word; pow2; clear HN Hb; zdiv).
    apply builds_u8_cons; [done..|]. apply Forall_inv_tail in Hb.
    apply builds_u8_cons; [done|by rewrite <-app_assoc|]. apply Forall_inv_tail in Hb.
    apply builds_u8_cons; [done|by rewrite <-!app_assoc|]. apply builds_u8_last; [by inversion Hb|by rewrite <-!app_assoc].
Qed.

Lemma builds_add_latin1 n st p k bs u :
  is_byte u -> blen (flat (st ++ [(p, k, bs ++ [u])])) <= N ->
  builds N (cbb_add_latin1 p u) n (st ++ [(p, k, bs)]) tt n (st ++ [(p, k, bs ++ [u])]).
Proof.
  intros Hu HN. unfold cbb_add_latin1. destruct Hu as [Hu1 Hu2]. pow2.
  eapply builds_ext; [intros h; rewrite massert_bind, (proj2 (Z.leb_le u 0xff)) by lia; reflexivity|].
  rewrite wrap_small by (unfold in_word; pow2; lia). apply builds_u8_last; [|done].
  apply Forall_cons_2; [unfold in_word; pow2; lia|done].
Qed.

Lemma builds_add_ucs2 n st p k bs u :
  0 <= u <= 0xffff -> is_valid_code_point u = true ->
  blen (flat (st ++ [(p, k, bs)])) + 2 <= N ->
  builds N (cbb_add_ucs2_be p u) n (st ++ [(p, k, bs)]) tt n (st ++ [(p, k, bs ++ be_bytes 2 u)]).
Proof.
  intros Hu Hv HN. unfold cbb_add_ucs2_be.
  eapply builds_ext; [intros h; rewrite massert_bind, Hv, (proj2 (Z.leb_le u 0xffff)) by lia; reflexivity|].
  rewrite wrap_small by (unfold in_word; pow2; lia).
  apply (builds_add_u N n st p k bs u 2); [lia|change (256 ^ 2) with 65536; lia|done].
Qed.

Lemma builds_add_utf32 n st p k bs u :
  0 <= u -> is_valid_code_point u = true -> blen (flat (st ++ [(p, k, bs)])) + 4 <= N ->
  builds N (cbb_add_utf32_be p u) n (st ++ [(p, k, bs)]) tt n (st ++ [(p, k, bs ++ be_bytes 4 u)]).
Proof.
  intros Hu Hv HN. unfold cbb_add_utf32_be. pose proof (is_valid_range u Hv).
  eapply builds_ext; [intros h; rewrite massert_bind, Hv; reflexivity|].
  apply (builds_add_u N n st p k bs u 4); [lia|change (256 ^ 4) with 4294967296; lia|done].
Qed.
End Writers.

(** * The fixed-width readers *)

Lemma cbs_get_uint_Some (w : nat) s u r :
  (w <= 8)%nat -> bytes s ->
  (v ← cbs_get_u (Z.of_nat w); mret (wrap (8 * Z.of_nat w) v)) s = (Some u, r) <->
  in_word (8 * Z.of_nat w) u /\ s = be_bytes w u ++ r.
Proof.
  intros Hw Hs. rewrite bind_Some. setoid_rewrite ret_Some. setoid_rewrite cbs_get_u_Some; [|lia|done].
  assert (256 ^ Z.of_nat w = 2 ^ (8 * Z.of_nat w)) as Hp by (rewrite Z.pow_mul_r by lia; done).
  split.
  - intros (v & s1 & (d & -> & Hd & ->) & <- & <-).
    apply bytes_app in Hs as [Hdb _]. pose proof (be_val_bound d Hdb) as Hv. rewrite Hd, Hp in Hv.
    rewrite wrap_small by done. split; [done|].
    assert (length d = w) as Hl by (unfold blen in Hd; lia). by rewrite <-Hl, be_bytes_be_val.
  - intros [Hu ->]. exists u, r. split_and!; [|by apply wrap_small|done].
    exists (be_bytes w u). rewrite be_val_be_bytes, blen_be_bytes, Hp. split_and!; [done..|].
    symmetry. by apply Z.mod_small.
Qed.

Lemma cbs_get_ucs2_be_Some s u r :
  bytes s ->
  cbs_get_ucs2_be s = (Some u, r) <->
  is_valid_code_point u = true /\ in_word 16 u /\ s = be_bytes 2 u ++ r.
Proof.
  intros Hs. unfold cbs_get_ucs2_be, CBS_get_u16. rewrite bind_Some.
  setoid_rewrite (cbs_get_uint_Some 2 s); [|lia|done]. split.
  - intros (a & s1 & [? ?] & Hk). rewrite massert_bind in Hk.
    destruct (is_valid_code_point a) eqn:E; [|done]. apply ret_Some in Hk as [-> ->]. done.
  - intros (Hv & Hu & Heq). exists u, r. split; [done|]. by rewrite massert_bind, Hv.
Qed.

Lemma cbs_get_utf32_be_Some s u r :
  bytes s ->
  cbs_get_utf32_be s = (Some u, r) <->
  is_valid_code_point u = true /\ in_word 32 u /\ s = be_bytes 4 u ++ r.
Proof.
  intros Hs. unfold cbs_get_utf32_be, CBS_get_u32. rewrite bind_Some.
  setoid_rewrite (cbs_get_uint_Some 4 s); [|lia|done]. split.
  - intros (a & s1 & [? ?] & Hk). rewrite massert_bind in Hk.
    destruct (is_valid_code_point a) eqn:E; [|done]. apply ret_Some in Hk as [-> ->]. done.
  - intros (Hv & Hu & Heq). exists u, r. split; [done|]. by rewrite massert_bind, Hv.
Qed.
