(* ===== verification/Asn1Compat.v ===== *)
(** crypto/bytestring/asn1_compat.c: [CBB_finish_i2d], the bridge from [CBB] to
    the older i2d calling convention. *)

From S2P Require Import Prelude CryptoInternal Cbs Cbb CbbSpec.

Definition INT_MAX : Z := 2 ^ 31 - 1.

(** The argument [outp]: NULL, a pointer to NULL, or a pointer to the caller's
    memory. *)
Inductive i2d_outp := OutpNull | OutpAlloc | OutpInto (mem : list Z).

(** What is behind [outp] afterwards: nothing, a new block, or the caller's
    memory with the number of bytes [*outp] has advanced by. *)
Inductive i2d_result := ResNull | ResAlloc (der : list Z) | ResInto (mem : list Z) (advance : Z).

Section I2d.
Context {m : Malloc}.

(** [None] is the result -1. *)
Definition CBB_finish_i2d (cbb : loc) (outp : i2d_outp) : M heap (Z * i2d_result) := fun h =>
  match CBB_finish cbb false h with
  | (None, h) => let '(_, h) := CBB_cleanup cbb h in (None, h)
  | (Some (der, der_len), h) =>
      if INT_MAX <? der_len then (None, h)
      else
        (Some (der_len,
          match outp with
          | OutpNull => ResNull
          | OutpAlloc => ResAlloc der
          | OutpInto mem => ResInto (write_at 0 (take (Z.to_nat der_len) der) mem) der_len
          end), h)
  end.

(** On a finished builder whose frames collapse to [d], the result is the
    length of [d], and [d] is where [outp] asked for it; output that does not
    fit in an [int] is refused. *)
Lemma CBB_finish_i2d_ok h b p bs st inner outp :
  rep h b ((p, KRoot, bs) :: st) -> collapse st = Some inner -> room b (blen (bs ++ inner)) ->
  let d := bs ++ inner in
  exists h', buffer h' = None /\
  if INT_MAX <? blen d then CBB_finish_i2d p outp h = (None, h')
  else exists res, CBB_finish_i2d p outp h = (Some (blen d, res), h') /\
    match outp with
    | OutpNull => res = ResNull
    | OutpAlloc => exists der, res = ResAlloc der /\ take (Z.to_nat (blen d)) der = d
    | OutpInto mem => res = ResInto (write_at 0 d mem) (blen d)
    end.
Proof.
  intros Hr Hc Hroom d.
  destruct (CBB_finish_rep h b p bs st inner Hr Hc Hroom) as (h' & mem & E & Hmem & Hb).
  exists h'. split; [done|]. unfold CBB_finish_i2d. rewrite E. fold d in Hmem |- *.
  destruct (INT_MAX <? blen d); [done|]. eexists. split; [done|].
  destruct outp; [done|by exists mem|by rewrite Hmem].
Qed.
End I2d.
