(* ===== verification/Base64.v ===== *)
(** crypto/base64/base64.c: base64, one-shot and streaming.

    Characters are bytes. A function that writes through a pointer returns the
    bytes it has written there, in order; the NUL that ends the text of the
    encoder is part of them. *)

From S2P Require Import Prelude CryptoInternal Cbs.

(** The characters the source names. *)
Definition ch_tab : Z := 9.
Definition ch_nl : Z := 10.
Definition ch_cr : Z := 13.
Definition ch_space : Z := 32.
Definition ch_plus : Z := 43.
Definition ch_slash : Z := 47.
Definition ch_0 : Z := 48.
Definition ch_eq : Z := 61.
Definition ch_A : Z := 65.
Definition ch_a : Z := 97.

Definition constant_time_lt_args_8 (a b : Z) : Z := u8 (constant_time_msb_w (u64 (a - b))).

Definition constant_time_in_range_8 (a min max : Z) : Z :=
  constant_time_lt_args_8 (u8 (a - min)) (u8 (max - min + 1)).

(** * Encoding *)

Definition conv_bin2ascii (a : Z) : Z :=
  let a := Z.land a 0x3f in
  let ret := constant_time_select_8 (constant_time_eq_8 a 62) ch_plus ch_slash in
  let ret := constant_time_select_8 (constant_time_lt_args_8 a 62) (u8 (a - 52 + ch_0)) ret in
  let ret := constant_time_select_8 (constant_time_lt_args_8 a 52) (u8 (a - 26 + ch_a)) ret in
  constant_time_select_8 (constant_time_lt_args_8 a 26) (u8 (a + ch_A)) ret.

(** [size_t] arithmetic with its wrap-around. *)
Definition EVP_EncodedLength (len : Z) : option Z :=
  if u64 (len + 2) <? len then None
  else
    let len := u64 (len + 2) / 3 in
    if negb (Z.shiftr (u64 (Z.shiftl len 2)) 2 =? len) then None
    else
      let len := u64 (Z.shiftl len 2) in
      if u64 (len + 1) <? len then None else Some (u64 (len + 1)).

(** The four characters of a group [l] of 24 bits; [remaining] bytes of it are
    input. *)
Definition encode_group (l remaining : Z) : list Z :=
  [conv_bin2ascii (u8 (Z.shiftr l 18)); conv_bin2ascii (u8 (Z.shiftr l 12));
   if remaining =? 1 then ch_eq else conv_bin2ascii (u8 (Z.shiftr l 6));
   if remaining <? 3 then ch_eq else conv_bin2ascii (u8 l)].

(** The loop of [EVP_EncodeBlock]: what it writes at [dst] before the NUL. *)
Fixpoint encode_loop (src : list Z) : list Z :=
  match src with
  | [] => []
  | [a] => encode_group (Z.shiftl a 16) 1
  | [a; b] => encode_group (Z.lor (Z.shiftl a 16) (Z.shiftl b 8)) 2
  | a :: b :: c :: src =>
      encode_group (Z.lor (Z.lor (Z.shiftl a 16) (Z.shiftl b 8)) c) 3 ++ encode_loop src
  end.

(** The bytes written at [dst], and the result. *)
Definition EVP_EncodeBlock (src : list Z) : list Z * Z :=
  let text := encode_loop src in (text ++ [0], blen text).

Record EVP_ENCODE_CTX := EncodeCtx {
  data : list Z;              (* all 48 bytes *)
  data_used : Z;
  eof_seen : bool;
  error_encountered : bool
}.

Definition sizeof_data : Z := 48.

Definition zero_ctx : EVP_ENCODE_CTX :=
  EncodeCtx (replicate (Z.to_nat sizeof_data) 0) 0 false false.

Definition EVP_EncodeInit : EVP_ENCODE_CTX := zero_ctx.
Definition EVP_DecodeInit : EVP_ENCODE_CTX := zero_ctx.

(** [OPENSSL_memset] over the fresh block. *)
Definition EVP_ENCODE_CTX_new `{Malloc} : option EVP_ENCODE_CTX :=
  ret ← OPENSSL_malloc 56; Some zero_ctx.

Definition set_data (d : list Z) (used : Z) (ctx : EVP_ENCODE_CTX) : EVP_ENCODE_CTX :=
  EncodeCtx d used (eof_seen ctx) (error_encountered ctx).

(** One encoded line: the text and a newline. [EVP_EncodeBlock]'s NUL is
    overwritten by the newline, and a new one follows. *)
Definition encode_line (src : list Z) : list Z :=
  let '(text, encoded) := EVP_EncodeBlock src in take (Z.to_nat encoded) text ++ [ch_nl].

(** The loop over whole lines. [None] is the overflow of [total]; otherwise
    the bytes written, [total] and the rest of the input. [fuel] bounds the
    number of lines. *)
Fixpoint encode_lines (fuel : nat) (out : list Z) (total : Z) (in_ : list Z)
    : option (list Z * Z * list Z) :=
  match fuel with
  | O => Some (out, total, in_)
  | S fuel =>
      if sizeof_data <=? blen in_ then
        let line := encode_line (take (Z.to_nat sizeof_data) in_) in
        if u64 (total + blen line) <? total then None
        else encode_lines fuel (out ++ line) (u64 (total + blen line)) (drop (Z.to_nat sizeof_data) in_)
      else Some (out, total, in_)
  end.

Definition INT_MAX : Z := 2 ^ 31 - 1.

(** The bytes written at [out] (a final NUL not counted), [*out_len] and the
    new context. The overflow branch of the loop returns with the context as it
    stands. *)
Definition EVP_EncodeUpdate (ctx : EVP_ENCODE_CTX) (in_ : list Z) : list Z * Z * EVP_ENCODE_CTX :=
  let in_len := blen in_ in
  if in_len =? 0 then ([], 0, ctx)
  else if in_len <? u64 (sizeof_data - data_used ctx) then
    ([], 0, set_data (write_at (data_used ctx) in_ (data ctx)) (data_used ctx + in_len) ctx)
  else
    let '(out, total, ctx, in_) :=
      if negb (data_used ctx =? 0) then
        let todo := sizeof_data - data_used ctx in
        let d := write_at (data_used ctx) (take (Z.to_nat todo) in_) (data ctx) in
        let line := encode_line d in
        (line, blen line, set_data d 0 ctx, drop (Z.to_nat todo) in_)
      else ([], 0, ctx, in_) in
    match encode_lines (S (length in_)) out total in_ with
    | None => (out, 0, ctx)
    | Some (out, total, in_) =>
        let d := if negb (blen in_ =? 0) then write_at 0 in_ (data ctx) else data ctx in
        let total := if INT_MAX <? total then 0 else total in
        (out, total, set_data d (blen in_) ctx)
    end.

Definition EVP_EncodeFinal (ctx : EVP_ENCODE_CTX) : list Z * Z * EVP_ENCODE_CTX :=
  if data_used ctx =? 0 then ([], 0, ctx)
  else
    let line := encode_line (take (Z.to_nat (data_used ctx)) (data ctx)) in
    (line ++ [0], blen line, set_data (data ctx) 0 ctx).

(** * Decoding *)

Definition EVP_DecodedLength (len : Z) : option Z :=
  if negb (len mod 4 =? 0) then None else Some (len / 4 * 3).

Definition base64_ascii_to_bin (a : Z) : Z :=
  let is_upper := constant_time_in_range_8 a ch_A 90 in
  let is_lower := constant_time_in_range_8 a ch_a 122 in
  let is_digit := constant_time_in_range_8 a ch_0 57 in
  let is_plus := constant_time_eq_8 a ch_plus in
  let is_slash := constant_time_eq_8 a ch_slash in
  let is_equals := constant_time_eq_8 a ch_eq in
  let ret := 0 in
  let ret := Z.lor ret (Z.land is_upper (u8 (a - ch_A))) in
  let ret := Z.lor ret (Z.land is_lower (u8 (a - ch_a + 26))) in
  let ret := Z.lor ret (Z.land is_digit (u8 (a - ch_0 + 52))) in
  let ret := Z.lor ret (Z.land is_plus 62) in
  let ret := Z.lor ret (Z.land is_slash 63) in
  let is_valid := Z.lor (Z.lor (Z.lor (Z.lor (Z.lor is_upper is_lower) is_digit) is_plus) is_slash) is_equals in
  u8 (Z.lor ret (Z.lnot is_valid)).

(** The bytes written at [out]; [*out_num_bytes] is their number. *)
Definition base64_decode_quad (in0 in1 in2 in3 : Z) : option (list Z) :=
  let a := base64_ascii_to_bin in0 in
  let b := base64_ascii_to_bin in1 in
  let c := base64_ascii_to_bin in2 in
  let d := base64_ascii_to_bin in3 in
  if (a =? 0xff) || (b =? 0xff) || (c =? 0xff) || (d =? 0xff) then None
  else
    let v := Z.lor (Z.lor (Z.lor (Z.shiftl a 18) (Z.shiftl b 12)) (Z.shiftl c 6)) d in
    let padding_pattern :=
      Z.lor (Z.lor (Z.lor (Z.shiftl (Z.b2z (in0 =? ch_eq)) 3) (Z.shiftl (Z.b2z (in1 =? ch_eq)) 2))
                   (Z.shiftl (Z.b2z (in2 =? ch_eq)) 1)) (Z.b2z (in3 =? ch_eq)) in
    if padding_pattern =? 0 then Some [u8 (Z.shiftr v 16); u8 (Z.shiftr v 8); u8 v]
    else if padding_pattern =? 1 then Some [u8 (Z.shiftr v 16); u8 (Z.shiftr v 8)]
    else if padding_pattern =? 3 then Some [u8 (Z.shiftr v 16)]
    else None.

Definition is_space (c : Z) : bool :=
  (c =? ch_space) || (c =? ch_tab) || (c =? ch_cr) || (c =? ch_nl).

Definition set_error (ctx : EVP_ENCODE_CTX) : EVP_ENCODE_CTX :=
  EncodeCtx (data ctx) (data_used ctx) (eof_seen ctx) true.
Definition set_eof (ctx : EVP_ENCODE_CTX) : EVP_ENCODE_CTX :=
  EncodeCtx (data ctx) (data_used ctx) true (error_encountered ctx).

(** One iteration of the loop of [EVP_DecodeUpdate]: the new context, the bytes
    written, and whether the loop goes on. *)
Definition decode_char (ctx : EVP_ENCODE_CTX) (c : Z) : EVP_ENCODE_CTX * list Z * bool :=
  if is_space c then (ctx, [], true)
  else if eof_seen ctx then (set_error ctx, [], false)
  else
    let ctx := set_data (write_at (data_used ctx) [c] (data ctx)) (data_used ctx + 1) ctx in
    if data_used ctx =? 4 then
      match base64_decode_quad (nth 0 (data ctx) 0) (nth 1 (data ctx) 0)
              (nth 2 (data ctx) 0) (nth 3 (data ctx) 0) with
      | None => (set_error ctx, [], false)
      | Some bs =>
          let ctx := set_data (data ctx) 0 ctx in
          (if blen bs <? 3 then set_eof ctx else ctx, bs, true)
      end
    else (ctx, [], true).

Fixpoint decode_loop (ctx : EVP_ENCODE_CTX) (out : list Z) (in_ : list Z)
    : EVP_ENCODE_CTX * list Z * bool :=
  match in_ with
  | [] => (ctx, out, true)
  | c :: in_ =>
      match decode_char ctx c with
      | (ctx, bs, false) => (ctx, out ++ bs, false)
      | (ctx, bs, true) => decode_loop ctx (out ++ bs) in_
      end
  end.

(** The result, [*out_len], the bytes written and the new context. *)
Definition EVP_DecodeUpdate (ctx : EVP_ENCODE_CTX) (in_ : list Z)
    : Z * Z * list Z * EVP_ENCODE_CTX :=
  if error_encountered ctx then (-1, 0, [], ctx)
  else
    match decode_loop ctx [] in_ with
    | (ctx, out, false) => (-1, 0, out, ctx)
    | (ctx, out, true) =>
        if INT_MAX <? blen out then (-1, 0, out, set_error ctx)
        else (if eof_seen ctx then 0 else 1, blen out, out, ctx)
    end.

Definition EVP_DecodeFinal (ctx : EVP_ENCODE_CTX) : Z :=
  if error_encountered ctx || negb (data_used ctx =? 0) then -1 else 1.

(** The loop of [EVP_DecodeBase64] over whole quads. *)
Fixpoint decode_quads (in_ : list Z) : option (list Z) :=
  match in_ with
  | a :: b :: c :: d :: in_ =>
      bs ← base64_decode_quad a b c d;
      if negb (blen bs =? 3) && negb (blen in_ =? 0) then None
      else out ← decode_quads in_; Some (bs ++ out)
  | _ => Some []
  end.

(** The bytes written at [out]; [*out_len] is their number. *)
Definition EVP_DecodeBase64 (max_out : Z) (in_ : list Z) : option (list Z) :=
  if negb (blen in_ mod 4 =? 0) then None
  else
    max_len ← EVP_DecodedLength (blen in_);
    if max_out <? max_len then None else decode_quads in_.

(** The trimming loops of [EVP_DecodeBlock]. *)
Fixpoint trim_front (src : list Z) : list Z :=
  match src with
  | c :: src' => if negb (c =? ch_space) && negb (c =? ch_tab) then src else trim_front src'
  | [] => []
  end.

(** The same at the end, on the reversed string. *)
Fixpoint trim_back (rsrc : list Z) : list Z :=
  match rsrc with
  | c :: rsrc' => if is_space c then trim_back rsrc' else rsrc
  | [] => []
  end.

(** [while (dst_len % 3 != 0) dst[dst_len++] = 0]: at most two zeros. *)
Definition pad_zeros (dst : list Z) : list Z :=
  dst ++ replicate (Z.to_nat ((- blen dst) mod 3)) 0.

(** The bytes at [dst] and the result; [None] is the result -1. *)
Definition EVP_DecodeBlock (src : list Z) : option (list Z * Z) :=
  let src := trim_front src in
  let src := rev (trim_back (rev src)) in
  dst_len ← EVP_DecodedLength (blen src);
  if INT_MAX <? dst_len then None
  else
    dst ← EVP_DecodeBase64 dst_len src;
    let dst := pad_zeros dst in
    Some (dst, blen dst).
