(* ===== verification/Base64Spec.v ===== *)
(** Correctness of base64: the table-free character conversions are the
    standard table, decoding inverts encoding, and the streaming interface does
    not depend on how the input is cut. *)

From S2P Require Import Prelude CryptoInternal Cbs Base64.

(** * The alphabet *)

(** "ABC...Zabc...z0123456789+/" *)
Definition alphabet : list Z :=
  seqZ 65 26 ++ seqZ 97 26 ++ seqZ 48 10 ++ [43; 47].

Definition alphabet_index (c : Z) : option nat :=
  fst <$> list_find (fun x => x = c) alphabet.

Lemma conv_bin2ascii_table a : is_byte a -> conv_bin2ascii a = nth (Z.to_nat (a mod 64)) alphabet 0.
Proof.
  intros Ha. apply Z.eqb_eq.
  apply (forall_bytes (fun a => conv_bin2ascii a =? nth (Z.to_nat (a mod 64)) alphabet 0)); [|done].
  vm_compute. reflexivity.
Qed.

Lemma base64_ascii_to_bin_table c : is_byte c ->
  base64_ascii_to_bin c =
  match alphabet_index c with Some i => Z.of_nat i | None => if c =? ch_eq then 0 else 0xff end.
Proof.
  intros Hc. apply Z.eqb_eq.
  apply (forall_bytes (fun c => base64_ascii_to_bin c =?
    match alphabet_index c with Some i => Z.of_nat i | None => if c =? ch_eq then 0 else 0xff end)); [|done].
  vm_compute. reflexivity.
Qed.

Lemma ascii_of_bin x : is_byte x ->
  base64_ascii_to_bin (conv_bin2ascii x) = x mod 64 /\ (conv_bin2ascii x =? ch_eq) = false /\
  is_space (conv_bin2ascii x) = false /\ is_byte (conv_bin2ascii x).
Proof.
  intros Hx. pose proof (forall_bytes (fun x =>
    (base64_ascii_to_bin (conv_bin2ascii x) =? x mod 64) && negb (conv_bin2ascii x =? ch_eq) &&
    negb (is_space (conv_bin2ascii x)) && (0 <=? conv_bin2ascii x) && (conv_bin2ascii x <? 256))
    ltac:(vm_compute; reflexivity) x Hx) as H.
  cbn beta in H. rewrite !andb_true_iff, !negb_true_iff, Z.eqb_eq, Z.leb_le, Z.ltb_lt in H.
  destruct H as [[[[-> ->] ->] ?] ?]. unfold in_word. pow2. done.
Qed.

(** * Groups *)

Lemma lor_shiftl_chain a b m n k :
  m = n + k -> 0 <= n -> 0 <= k -> in_word n b ->
  Z.lor (Z.shiftl a m) (Z.shiftl b k) = Z.shiftl (a * 2 ^ n + b) k.
Proof.
  intros -> Hn Hk Hb. rewrite <-(lor_shiftl_low n a b) by done.
  rewrite Z.shiftl_lor, Z.shiftl_shiftl by lia. done.
Qed.

Lemma group_3 a b c : is_byte a -> is_byte b -> is_byte c ->
  Z.lor (Z.lor (Z.shiftl a 16) (Z.shiftl b 8)) c = (a * 256 + b) * 256 + c.
Proof.
  intros Ha Hb Hc. rewrite (lor_shiftl_chain a b 16 8 8) by (done || lia). by apply (lor_shiftl_low 8).
Qed.

Lemma quad_value a b c d : in_word 6 a -> in_word 6 b -> in_word 6 c -> in_word 6 d ->
  Z.lor (Z.lor (Z.lor (Z.shiftl a 18) (Z.shiftl b 12)) (Z.shiftl c 6)) d =
  ((a * 64 + b) * 64 + c) * 64 + d.
Proof.
  intros Ha Hb Hc Hd. rewrite (lor_shiftl_chain a b 18 6 12), (lor_shiftl_chain _ c 12 6 6) by (done || lia).
  by apply (lor_shiftl_low 6).
Qed.

(** What a quad decodes to, by where its padding is. *)
Lemma base64_decode_quad_bins i0 i1 i2 i3 a b c d :
  base64_ascii_to_bin i0 = a -> base64_ascii_to_bin i1 = b ->
  base64_ascii_to_bin i2 = c -> base64_ascii_to_bin i3 = d ->
  in_word 6 a -> in_word 6 b -> in_word 6 c -> in_word 6 d ->
  (i0 =? ch_eq) = false -> (i1 =? ch_eq) = false ->
  base64_decode_quad i0 i1 i2 i3 =
  let v := ((a * 64 + b) * 64 + c) * 64 + d in
  match i2 =? ch_eq, i3 =? ch_eq with
  | false, false => Some [v / 65536 mod 256; v / 256 mod 256; v mod 256]
  | false, true => Some [v / 65536 mod 256; v / 256 mod 256]
  | true, true => Some [v / 65536 mod 256]
  | true, false => None
  end.
Proof.
  intros <- <- <- <- Ha Hb Hc Hd P0 P1. unfold base64_decode_quad. rewrite P0, P1.
  assert (forall x, in_word 6 x -> (x =? 255) = false) as Hf
    by (intros x Hx; apply Z.eqb_neq; unfold in_word in Hx; pow2; lia).
  rewrite !Hf by done. cbn [orb]. rewrite quad_value by done. rewrite !Z.shiftr_div_pow2 by lia.
  change (2 ^ 16) with 65536. pow2. cbv zeta. unfold wrap. pow2.
  by destruct (i2 =? ch_eq), (i3 =? ch_eq).
Qed.

Lemma group_bits l : 0 <= l < 16777216 ->
  ((l / 262144 mod 64 * 64 + l / 4096 mod 64) * 64 + l / 64 mod 64) * 64 + l mod 64 = l /\
  l / 65536 mod 256 = l / 65536 /\ (l mod 256 = 0 -> l mod 64 = 0) /\
  (l mod 65536 = 0 -> l / 64 mod 64 = 0 /\ l mod 64 = 0).
Proof. intros Hl. split_and!; intros; zdiv. Qed.

(** The four characters of a group decode to its first [n] bytes. *)
Lemma decode_encode_group l n :
  0 <= l < 2 ^ 24 -> 1 <= n <= 3 -> (n = 1 -> l mod 65536 = 0) -> (n = 2 -> l mod 256 = 0) ->
  exists c0 c1 c2 c3, encode_group l n = [c0; c1; c2; c3] /\
    Forall (fun c => is_space c = false) [c0; c1; c2; c3] /\
    base64_decode_quad c0 c1 c2 c3 =
      Some (take (Z.to_nat n) [l / 65536; l / 256 mod 256; l mod 256]).
Proof.
  intros Hl Hn H1 H2. unfold encode_group. rewrite !Z.shiftr_div_pow2 by lia.
  change (2 ^ 18) with 262144. change (2 ^ 12) with 4096. change (2 ^ 6) with 64.
  change (2 ^ 24) with 16777216 in Hl.
  destruct (ascii_of_bin (u8 (l / 262144)) (u8_byte _)) as (E0 & P0 & S0 & _).
  destruct (ascii_of_bin (u8 (l / 4096)) (u8_byte _)) as (E1 & P1 & S1 & _).
  destruct (ascii_of_bin (u8 (l / 64)) (u8_byte _)) as (E2 & P2 & S2 & _).
  destruct (ascii_of_bin (u8 l) (u8_byte _)) as (E3 & P3 & S3 & _).
  assert (forall x, u8 x mod 64 = x mod 64) as Hu by (intros x; unfold wrap; pow2; zdiv).
  rewrite Hu in E0, E1, E2, E3.
  assert (forall x, in_word 6 (x mod 64)) as Hw by (intros x; unfold in_word; change (2 ^ 6) with 64; zdiv).
  assert (in_word 6 0) as Hw0 by done.
  assert (base64_ascii_to_bin ch_eq = 0) as Eq by reflexivity.
  destruct (group_bits l Hl) as (G & Gh & G2 & G1).
  eexists _, _, _, _. split; [reflexivity|].
  destruct (Z.eqb_spec n 1) as [->|N1]; [|destruct (Z.ltb_spec n 3)].
  - split; [repeat constructor; done|]. change (1 <? 3) with true. cbn iota.
    rewrite (base64_decode_quad_bins _ _ _ _ _ _ _ _ E0 E1 Eq Eq) by done.
    destruct (G1 (H1 eq_refl)) as [G3 G4]. rewrite G3, G4 in G. cbv zeta. rewrite G, Gh. done.
  - assert (n = 2) as -> by lia. split; [repeat constructor; done|].
    rewrite (base64_decode_quad_bins _ _ _ _ _ _ _ _ E0 E1 E2 Eq) by done. rewrite P2.
    rewrite (G2 (H2 eq_refl)) in G. cbv zeta. rewrite G, Gh. done.
  - assert (n = 3) as -> by lia. split; [repeat constructor; done|].
    rewrite (base64_decode_quad_bins _ _ _ _ _ _ _ _ E0 E1 E2 E3) by done. rewrite P2, P3.
    cbv zeta. rewrite G, Gh. done.
Qed.

(** * Blocks *)

Lemma list3_ind {A} (P : list A -> Prop) :
  P [] -> (forall a, P [a]) -> (forall a b, P [a; b]) ->
  (forall a b c l, P l -> P (a :: b :: c :: l)) -> forall l, P l.
Proof.
  intros H0 H1 H2 H3. fix IH 1. intros [|a [|b [|c l]]]; [done|auto..|]. apply H3, IH.
Qed.

Lemma blen_encode_loop src : blen (encode_loop src) = 4 * ((blen src + 2) / 3).
Proof.
  induction src as [|a|a b|a b c l IH] using list3_ind; [done..|].
  change (encode_loop (a :: b :: c :: l)) with
    (encode_group (Z.lor (Z.lor (Z.shiftl a 16) (Z.shiftl b 8)) c) 3 ++ encode_loop l).
  rewrite blen_app, IH, !blen_cons. change (blen (encode_group _ _)) with 4.
  pose proof (blen_nonneg l). zdiv.
Qed.

(** The quads of an encoded block, one after the other. *)
Lemma encode_loop_quads src :
  bytes src ->
  match src with
  | [] => encode_loop src = []
  | _ => exists c0 c1 c2 c3, encode_loop src = [c0; c1; c2; c3] ++ encode_loop (drop 3 src) /\
      Forall (fun c => is_space c = false) [c0; c1; c2; c3] /\
      base64_decode_quad c0 c1 c2 c3 = Some (take 3 src)
  end.
Proof.
  intros Hs. destruct src as [|a [|b [|c l]]]; [done|..];
    repeat match goal with H : Forall _ (_ :: _) |- _ => apply Forall_cons in H as [[? ?] H] end; pow2.
  - destruct (decode_encode_group (Z.shiftl a 16) 1) as (c0 & c1 & c2 & c3 & E & Hsp & Hq);
      rewrite ?Z.shiftl_mul_pow2 by lia; pow2; [lia|lia|intros; zdiv|lia|].
    exists c0, c1, c2, c3. cbn [drop encode_loop]. rewrite app_nil_r. split_and!; [done..|].
    rewrite Hq. rewrite Z.shiftl_mul_pow2 by lia. pow2. change (Z.to_nat 1) with 1%nat. cbn [take]. f_equal. f_equal. zdiv.
  - assert (Z.lor (Z.shiftl a 16) (Z.shiftl b 8) = (a * 256 + b) * 256) as Eab.
    { rewrite (lor_shiftl_chain a b 16 8 8) by (done || lia). rewrite Z.shiftl_mul_pow2 by lia. done. }
    destruct (decode_encode_group ((a * 256 + b) * 256) 2) as (c0 & c1 & c2 & c3 & E & Hsp & Hq);
      [pow2; lia|lia|lia|intros; zdiv|].
    exists c0, c1, c2, c3. cbn [drop encode_loop]. rewrite app_nil_r, Eab. split_and!; [done..|].
    rewrite Hq. change (Z.to_nat 2) with 2%nat. cbn [take]. do 2 f_equal; [zdiv|f_equal; zdiv].
  - destruct (decode_encode_group ((a * 256 + b) * 256 + c) 3) as (c0 & c1 & c2 & c3 & E & Hsp & Hq);
      [pow2; lia|lia|lia|lia|].
    exists c0, c1, c2, c3. change (encode_loop (a :: b :: c :: l)) with
      (encode_group (Z.lor (Z.lor (Z.shiftl a 16) (Z.shiftl b 8)) c) 3 ++ encode_loop l).
    cbn [drop]. rewrite drop_0, group_3 by done. rewrite E. split_and!; [done..|].
    rewrite Hq. change (Z.to_nat 3) with 3%nat. cbn [take]. rewrite take_0. do 2 f_equal; [zdiv|f_equal; [zdiv|f_equal; zdiv]].
Qed.

Lemma decode_quads_encode src : bytes src -> decode_quads (encode_loop src) = Some src.
Proof.
  intros Hs. remember (length src) as n eqn:Hn. revert src Hs Hn.
  induction n as [n IH] using lt_wf_ind. intros src Hs Hn.
  pose proof (encode_loop_quads src Hs) as Hq. destruct src as [|a src]; [by rewrite Hq|].
  destruct Hq as (c0 & c1 & c2 & c3 & -> & _ & Hq). cbn [app decode_quads]. rewrite Hq. cbn [mbind option_bind].
  rewrite (IH (length (drop 3 (a :: src)))); [|rewrite length_drop; cbn in *; lia|by apply bytes_drop|done].
  assert (negb (blen (take 3 (a :: src)) =? 3) && negb (blen (encode_loop (drop 3 (a :: src))) =? 0) = false) as ->.
  { destruct (Z.eqb_spec (blen (take 3 (a :: src))) 3) as [|Hne]; [done|].
    rewrite drop_ge; [done|]. unfold blen in Hne. rewrite length_take in Hne. lia. }
  cbn. by rewrite take_drop.
Qed.

(** * Streaming decoder *)

(** No quad is pending. *)
Definition decoding (ctx : EVP_ENCODE_CTX) (eof : bool) : Prop :=
  blen (data ctx) = 48 /\ data_used ctx = 0 /\ eof_seen ctx = eof /\ error_encountered ctx = false.

Lemma decode_char_push d u c :
  is_space c = false -> u <> 3 ->
  decode_char (EncodeCtx d u false false) c = (EncodeCtx (write_at u [c] d) (u + 1) false false, [], true).
Proof.
  intros Hs Hu. unfold decode_char. rewrite Hs. cbn [eof_seen set_data data data_used error_encountered].
  by rewrite (proj2 (Z.eqb_neq (u + 1) 4)) by lia.
Qed.

Lemma decode_char_quad d c bs :
  is_space c = false ->
  (let d' := write_at 3 [c] d in base64_decode_quad (nth 0 d' 0) (nth 1 d' 0) (nth 2 d' 0) (nth 3 d' 0)) = Some bs ->
  decode_char (EncodeCtx d 3 false false) c = (EncodeCtx (write_at 3 [c] d) 0 (blen bs <? 3) false, bs, true).
Proof.
  intros Hs Hq. unfold decode_char. rewrite Hs. cbn [eof_seen set_data data data_used error_encountered].
  change (3 + 1 =? 4) with true. cbn iota. cbv zeta in Hq. rewrite Hq. by destruct (blen bs <? 3).
Qed.

Lemma decode_quad_step ctx out c0 c1 c2 c3 rest bs :
  decoding ctx false -> Forall (fun c => is_space c = false) [c0; c1; c2; c3] ->
  base64_decode_quad c0 c1 c2 c3 = Some bs ->
  exists ctx', decoding ctx' (blen bs <? 3) /\
    decode_loop ctx out ([c0; c1; c2; c3] ++ rest) = decode_loop ctx' (out ++ bs) rest.
Proof.
  intros (Hd & Hu & He & Herr) Hsp Hq. rewrite !Forall_cons in Hsp. destruct Hsp as (S0 & S1 & S2 & S3 & _).
  destruct ctx as [d u e er]. cbn in Hd, Hu, He, Herr. subst u e er.
  destruct d as [|d0 [|d1 [|d2 [|d3 d]]]]; try done.
  set (d' := c0 :: c1 :: c2 :: c3 :: d).
  exists (EncodeCtx d' 0 (blen bs <? 3) false). split.
  { by split_and!. }
  cbn [app decode_loop]. rewrite (decode_char_push _ 0), (decode_char_push _ 1), (decode_char_push _ 2) by done.
  rewrite !app_nil_r.
  assert (write_at 3 [c3] (write_at 2 [c2] (write_at 1 [c1] (write_at 0 [c0] (d0 :: d1 :: d2 :: d3 :: d)))) = d') as Hw
    by (unfold write_at, d'; cbn; by rewrite ?take_0, ?drop_0).
  erewrite (decode_char_quad _ c3) by (done || rewrite Hw; exact Hq). by rewrite Hw.
Qed.

Lemma decode_loop_encode src ctx out rest :
  bytes src -> decoding ctx false ->
  exists ctx', decoding ctx' (negb (blen src mod 3 =? 0)) /\
    decode_loop ctx out (encode_loop src ++ rest) = decode_loop ctx' (out ++ src) rest.
Proof.
  intros Hs. remember (length src) as n eqn:Hn. revert src ctx out Hs Hn.
  induction n as [n IH] using lt_wf_ind. intros src ctx out Hs Hn Hctx.
  pose proof (encode_loop_quads src Hs) as Hq. destruct src as [|a src].
  { exists ctx. rewrite Hq, app_nil_r. done. }
  destruct Hq as (c0 & c1 & c2 & c3 & -> & Hsp & Hq). rewrite <-app_assoc.
  destruct (decode_quad_step ctx out c0 c1 c2 c3 (encode_loop (drop 3 (a :: src)) ++ rest) _ Hctx Hsp Hq)
    as (ctx1 & Hctx1 & ->).
  destruct (decide (length (a :: src) < 3)%nat) as [Hlt|Hge].
  - exists ctx1. rewrite (drop_ge (a :: src)), take_ge in * by lia. split; [|done].
    assert (blen (a :: src) <? 3 = true) as E by (apply Z.ltb_lt; unfold blen; lia). rewrite E in Hctx1.
    replace (negb _) with true; [done|]. symmetry. apply negb_true_iff, Z.eqb_neq.
    unfold blen. cbn [length] in *. zdiv.
  - assert (blen (take 3 (a :: src)) = 3) as Ht by (unfold blen; rewrite length_take; lia).
    rewrite Ht in Hctx1.
    destruct (IH (length (drop 3 (a :: src)))) with (src := drop 3 (a :: src)) (ctx := ctx1) (out := out ++ take 3 (a :: src))
      as (ctx2 & Hctx2 & ->); [rewrite length_drop; cbn in *; lia|by apply bytes_drop|done|done|].
    exists ctx2. rewrite <-app_assoc, take_drop. split; [|done].
    replace (blen (a :: src) mod 3) with (blen (drop 3 (a :: src)) mod 3); [done|].
    unfold blen. rewrite length_drop. zdiv.
Qed.

Lemma decode_loop_nl ctx out rest : decode_loop ctx out (ch_nl :: rest) = decode_loop ctx out rest.
Proof. cbn. by rewrite app_nil_r. Qed.

Lemma encode_line_eq src : encode_line src = encode_loop src ++ [ch_nl].
Proof. unfold encode_line, EVP_EncodeBlock. by rewrite take_blen_app. Qed.

(** A text of full lines and a last line. *)
Definition encoded_text (ls : list (list Z)) (last : list Z) : list Z :=
  concat (map encode_line ls) ++ (if blen last =? 0 then [] else encode_line last).

Lemma decode_loop_line src ctx out rest :
  bytes src -> decoding ctx false ->
  exists ctx', decoding ctx' (negb (blen src mod 3 =? 0)) /\
    decode_loop ctx out (encode_line src ++ rest) = decode_loop ctx' (out ++ src) rest.
Proof.
  intros Hs Hc. rewrite encode_line_eq, <-app_assoc.
  destruct (decode_loop_encode src ctx out ([ch_nl] ++ rest) Hs Hc) as (ctx' & ? & ->).
  exists ctx'. split; [done|]. apply decode_loop_nl.
Qed.

Lemma decode_loop_text ls last ctx out :
  Forall (fun l => blen l = 48) ls -> bytes (concat ls) -> bytes last -> decoding ctx false ->
  exists ctx', decoding ctx' (negb (blen last mod 3 =? 0)) /\
    decode_loop ctx out (encoded_text ls last) = (ctx', out ++ concat ls ++ last, true).
Proof.
  intros Hls Hb Hl. revert ctx out. unfold encoded_text.
  induction Hls as [|l ls Hll Hls IH]; intros ctx out Hc; cbn [map concat] in *.
  - destruct (Z.eqb_spec (blen last) 0) as [E|E].
    + rewrite (blen_inv_nil _ E). exists ctx. cbn. by rewrite app_nil_r.
    + destruct (decode_loop_line last ctx out [] Hl Hc) as (ctx' & ? & E').
      exists ctx'. rewrite !app_nil_l, app_nil_r in *. by rewrite E'.
  - apply bytes_app in Hb as [Hbl Hb]. rewrite <-app_assoc.
    destruct (decode_loop_line l ctx out (concat (map encode_line ls) ++ (if blen last =? 0 then [] else encode_line last)) Hbl Hc)
      as (ctx1 & Hc1 & ->). rewrite Hll in Hc1.
    destruct (IH Hb ctx1 (out ++ l) Hc1) as (ctx2 & ? & ->). exists ctx2. by rewrite <-!app_assoc.
Qed.

(** The loop reads its input from left to right. *)
Lemma decode_loop_shift ctx out in_ :
  decode_loop ctx out in_ = let '(ctx, o, ok) := decode_loop ctx [] in_ in (ctx, out ++ o, ok).
Proof.
  revert ctx out. induction in_ as [|c in_ IH]; intros ctx out; cbn [decode_loop]; [by rewrite app_nil_r|].
  destruct (decode_char ctx c) as [[ctx1 bs] [|]]; [|done].
  rewrite (IH _ (out ++ bs)), (IH _ ([] ++ bs)). destruct (decode_loop ctx1 [] in_) as [[? ?] ?].
  by rewrite <-app_assoc.
Qed.

Lemma decode_loop_app ctx out a b :
  decode_loop ctx out (a ++ b) =
  match decode_loop ctx out a with
  | (ctx', out', true) => decode_loop ctx' out' b
  | r => r
  end.
Proof.
  revert ctx out. induction a as [|c a IH]; intros ctx out; cbn [app decode_loop]; [done|].
  by destruct (decode_char ctx c) as [[ctx1 bs] [|]].
Qed.

(** An error is recorded in the context. *)
Lemma decode_loop_error ctx out in_ ctx' out' ok :
  error_encountered ctx = false -> decode_loop ctx out in_ = (ctx', out', ok) ->
  error_encountered ctx' = negb ok.
Proof.
  revert ctx out. induction in_ as [|c in_ IH]; intros ctx out He H; cbn [decode_loop] in H; [by simplify_eq|].
  destruct (decode_char ctx c) as [[ctx1 bs] go] eqn:Ed.
  assert (error_encountered ctx1 = negb go) as He1.
  { unfold decode_char in Ed. repeat case_match; simplify_eq; done. }
  destruct go; [|by simplify_eq]. by eapply IH.
Qed.

(** Feeding the pieces of an input, one call each: all bytes written, or [None]
    when a call reports an error. *)
Fixpoint decode_pieces (ctx : EVP_ENCODE_CTX) (pieces : list (list Z)) : option (list Z * EVP_ENCODE_CTX) :=
  match pieces with
  | [] => Some ([], ctx)
  | p :: pieces =>
      let '(ret, out_len, out, ctx) := EVP_DecodeUpdate ctx p in
      if ret =? -1 then None
      else '(rest, ctx) ← decode_pieces ctx pieces; Some (take (Z.to_nat out_len) out ++ rest, ctx)
  end.

Lemma decode_update_ok ctx in_ :
  error_encountered ctx = false ->
  EVP_DecodeUpdate ctx in_ =
  let '(ctx', out, ok) := decode_loop ctx [] in_ in
  if ok then
    if INT_MAX <? blen out then (-1, 0, out, set_error ctx')
    else (if eof_seen ctx' then 0 else 1, blen out, out, ctx')
  else (-1, 0, out, ctx').
Proof. intros He. unfold EVP_DecodeUpdate. rewrite He. by destruct (decode_loop ctx [] in_) as [[? ?] []]. Qed.

Lemma decode_pieces_loop pieces ctx ctx' out :
  error_encountered ctx = false -> decode_loop ctx [] (concat pieces) = (ctx', out, true) ->
  blen out <= INT_MAX -> decode_pieces ctx pieces = Some (out, ctx').
Proof.
  revert ctx out. induction pieces as [|p pieces IH]; intros ctx out He H Hl; cbn [concat decode_pieces] in *.
  { cbn in H. by simplify_eq. }
  rewrite decode_loop_app in H. rewrite decode_update_ok by done.
  destruct (decode_loop ctx [] p) as [[ctx1 o1] ok] eqn:E1. pose proof (decode_loop_error _ _ _ _ _ _ He E1) as He1.
  destruct ok; [|done]. rewrite decode_loop_shift in H.
  destruct (decode_loop ctx1 [] (concat pieces)) as [[ctx2 o2] ok2] eqn:E2. simplify_eq.
  rewrite blen_app in Hl. pose proof (blen_nonneg o1). pose proof (blen_nonneg o2).
  rewrite (proj2 (Z.ltb_ge INT_MAX _)) by lia. rewrite (IH ctx1 o2 He1 E2) by lia.
  assert ((if eof_seen ctx1 then 0 else 1) =? -1 = false) as -> by (by destruct (eof_seen ctx1)).
  cbn. rewrite to_nat_blen, take_ge by lia. done.
Qed.

(** * Streaming encoder *)

Lemma blen_encode_line src : blen (encode_line src) = 4 * ((blen src + 2) / 3) + 1.
Proof. rewrite encode_line_eq, blen_app, blen_encode_loop. done. Qed.

(** [s] is cut into full lines [ls] and a rest [last]. *)
Definition cut_lines (s : list Z) (ls : list (list Z)) (last : list Z) : Prop :=
  s = concat ls ++ last /\ Forall (fun l => blen l = 48) ls /\ blen last < 48.

Lemma encode_lines_ok fuel out in_ :
  blen in_ < 48 * Z.of_nat fuel -> blen out + 2 * blen in_ < 2 ^ 62 ->
  exists ls last, cut_lines in_ ls last /\
    encode_lines fuel out (blen out) in_ =
      Some (out ++ concat (map encode_line ls), blen (out ++ concat (map encode_line ls)), last).
Proof.
  revert out in_. induction fuel as [|fuel IH]; intros out in_ Hf Hb; pose proof (blen_nonneg in_) as Hn; [lia|].
  cbn [encode_lines]. unfold sizeof_data. destruct (Z.leb_spec 48 (blen in_)) as [Hl|Hl].
  - set (l := take (Z.to_nat 48) in_). assert (blen l = 48) as Hll by (apply blen_take; lia).
    assert (blen (drop (Z.to_nat 48) in_) = blen in_ - 48) as Hdl by (apply blen_drop; lia).
    pose proof (blen_nonneg out). assert (blen (encode_line l) = 65) as Hel by (rewrite blen_encode_line, Hll; done).
    change (2 ^ 62) with 4611686018427387904 in *.
    rewrite Hel, wrap_small by (unfold in_word; pow2; lia). rewrite (proj2 (Z.ltb_ge _ _)) by lia.
    assert (blen out + 65 = blen (out ++ encode_line l)) as -> by (rewrite blen_app; lia).
    destruct (IH (out ++ encode_line l) (drop (Z.to_nat 48) in_)) as (ls & last & (Heq & Hls & Hlast) & ->);
      [lia|rewrite blen_app; lia|].
    exists (l :: ls), last. cbn [map concat]. rewrite !app_assoc. split; [|done]. split_and!; [|by constructor|done].
    cbn [concat]. rewrite <-app_assoc, <-Heq. unfold l. by rewrite take_drop.
  - exists [], in_. cbn. by rewrite app_nil_r.
Qed.

(** Bytes taken in but not encoded yet. *)
Definition pending (ctx : EVP_ENCODE_CTX) : list Z := take (Z.to_nat (data_used ctx)) (data ctx).

Definition encoding (ctx : EVP_ENCODE_CTX) : Prop := blen (data ctx) = 48 /\ 0 <= data_used ctx < 48.

Lemma blen_pending ctx : encoding ctx -> blen (pending ctx) = data_used ctx.
Proof. intros [? ?]. unfold pending. apply blen_take. lia. Qed.

(** Storing [bs] after the pending bytes. *)
Lemma pending_write ctx bs :
  encoding ctx -> data_used ctx + blen bs <= 48 ->
  take (Z.to_nat (data_used ctx + blen bs)) (write_at (data_used ctx) bs (data ctx)) = pending ctx ++ bs.
Proof.
  intros He Hb. pose proof (blen_pending ctx He) as Hp. unfold write_at. fold (pending ctx).
  rewrite <-Hp, <-blen_app, app_assoc. apply take_blen_app.
Qed.

Lemma EVP_EncodeUpdate_ok ctx in_ :
  encoding ctx -> blen in_ < 2 ^ 60 ->
  exists ls last ctx', cut_lines (pending ctx ++ in_) ls last /\ encoding ctx' /\ pending ctx' = last /\
    let out := concat (map encode_line ls) in
    EVP_EncodeUpdate ctx in_ = (out, if INT_MAX <? blen out then 0 else blen out, ctx').
Proof.
  intros He Hb. pose proof (blen_pending ctx He) as Hp. pose proof (blen_nonneg in_) as Hn.
  pose proof He as [Hd Hu]. unfold EVP_EncodeUpdate. change (2 ^ 60) with 1152921504606846976 in Hb.
  destruct (Z.eqb_spec (blen in_) 0) as [E0|E0].
  { rewrite (blen_inv_nil _ E0). exists [], (pending ctx), ctx. rewrite app_nil_r. split_and!; try done.
    split_and!; [done|done|lia]. }
  unfold sizeof_data. rewrite (wrap_small 64) by (unfold in_word; pow2; lia).
  destruct (Z.ltb_spec (blen in_) (48 - data_used ctx)) as [Hs|Hs].
  { exists [], (pending ctx ++ in_), (set_data (write_at (data_used ctx) in_ (data ctx)) (data_used ctx + blen in_) ctx).
    split_and!; [| | |done].
    - split_and!; [done|done|]. rewrite blen_app. lia.
    - split; cbn; [rewrite blen_write_at|]; lia.
    - unfold pending at 1. cbn. by rewrite pending_write by (done || lia). }
  set (start := if negb (data_used ctx =? 0) then _ else _).
  assert (exists out ctx1 in1 ls0, start = (out, blen out, ctx1, in1) /\ out = concat (map encode_line ls0) /\
    pending ctx ++ in_ = concat ls0 ++ in1 /\ Forall (fun l => blen l = 48) ls0 /\
    blen (data ctx1) = 48 /\ blen out <= 65 /\ blen in1 <= blen in_) as
    (out & ctx1 & in1 & ls0 & -> & -> & Heq & Hls0 & Hd1 & Hout & Hin1).
  { unfold start. destruct (Z.eqb_spec (data_used ctx) 0) as [E|E]; cbn [negb].
    - eexists [], ctx, in_, []. split_and!; try done. by rewrite (blen_inv_nil (pending ctx)) by lia.
    - set (todo := 48 - data_used ctx). set (bs := take (Z.to_nat todo) in_).
      assert (blen bs = todo) as Hbs by (apply blen_take; lia).
      set (d := write_at (data_used ctx) bs (data ctx)).
      assert (d = pending ctx ++ bs) as Hdd.
      { rewrite <-(pending_write ctx bs He) by lia. fold d. rewrite take_ge; [done|].
        assert (blen d = 48) as Hx by (unfold d; rewrite blen_write_at; lia). unfold blen in Hx. lia. }
      assert (blen d = 48) as Hdl by (rewrite Hdd, blen_app; lia).
      eexists (encode_line d), (set_data d 0 ctx), (drop (Z.to_nat todo) in_), [d].
      split_and!; [done|cbn; by rewrite app_nil_r| |by constructor|done| |].
      + cbn. rewrite app_nil_r, Hdd, <-app_assoc. unfold bs. by rewrite take_drop.
      + rewrite blen_encode_line, Hdl. done.
      + rewrite blen_drop; lia. }
  pose proof (blen_nonneg in1).
  destruct (encode_lines_ok (S (length in1)) (concat (map encode_line ls0)) in1) as (ls & last & (Hcut & Hls & Hlast) & ->).
  { unfold blen. lia. }
  { change (2 ^ 62) with 4611686018427387904. lia. }
  pose proof (blen_nonneg last).
  exists (ls0 ++ ls), last. eexists. rewrite map_app, concat_app.
  split_and!; [| | |reflexivity].
  - split_and!; [by rewrite Heq, Hcut, concat_app, app_assoc|by apply Forall_app|done].
  - split; cbn; [|lia]. destruct (negb _); [rewrite blen_write_at|]; lia.
  - unfold pending. cbn. destruct (Z.eqb_spec (blen last) 0) as [E|E]; cbn [negb].
    + by rewrite (blen_inv_nil _ E).
    + unfold write_at. rewrite take_0, app_nil_l. apply take_blen_app.
Qed.

Lemma EVP_EncodeFinal_ok ctx :
  encoding ctx ->
  let text := if blen (pending ctx) =? 0 then [] else encode_line (pending ctx) in
  exists nul ctx', EVP_EncodeFinal ctx = (text ++ nul, blen text, ctx').
Proof.
  intros He text. unfold text. rewrite (blen_pending ctx He). unfold EVP_EncodeFinal.
  fold (pending ctx). destruct (data_used ctx =? 0); [by exists [], ctx|by eexists [0], _].
Qed.

(** Encoding the pieces of an input, one call each, then the final call. *)
Fixpoint encode_pieces (ctx : EVP_ENCODE_CTX) (pieces : list (list Z)) : list Z :=
  match pieces with
  | [] =>
      let '(out, out_len, _) := EVP_EncodeFinal ctx in take (Z.to_nat out_len) out
  | p :: pieces =>
      let '(out, out_len, ctx) := EVP_EncodeUpdate ctx p in
      take (Z.to_nat out_len) out ++ encode_pieces ctx pieces
  end.

(** No call produces more than [INT_MAX] characters. *)
Definition small_pieces (pieces : list (list Z)) : Prop := Forall (fun p => blen p <= 2 ^ 30) pieces.

Lemma blen_lines ls : Forall (fun l => blen l = 48) ls ->
  blen (concat (map encode_line ls)) = 65 * blen ls /\ blen (concat ls) = 48 * blen ls.
Proof.
  induction 1 as [|l ls Hl Hls [IH1 IH2]]; cbn [map concat]; [done|].
  rewrite !blen_app, blen_cons, IH1, IH2, blen_encode_line, Hl. change ((48 + 2) / 3) with 16. lia.
Qed.

Lemma cut_lines_app s ls last t ls' last' :
  cut_lines s ls last -> cut_lines (last ++ t) ls' last' -> cut_lines (s ++ t) (ls ++ ls') last'.
Proof.
  intros (-> & H1 & _) (H2 & H3 & H4). split_and!; [|by apply Forall_app|done].
  by rewrite concat_app, <-!app_assoc, <-H2.
Qed.

Lemma encode_pieces_ok pieces ctx :
  encoding ctx -> small_pieces pieces ->
  exists ls last, cut_lines (pending ctx ++ concat pieces) ls last /\
    encode_pieces ctx pieces = encoded_text ls last.
Proof.
  revert ctx. induction pieces as [|p pieces IH]; intros ctx He Hp; cbn [concat encode_pieces].
  - exists [], (pending ctx). rewrite app_nil_r. split.
    + pose proof (blen_pending ctx He). destruct He as [_ ?]. split_and!; [done|done|lia].
    + destruct (EVP_EncodeFinal_ok ctx He) as (nul & ctx' & ->). by rewrite take_blen_app.
  - apply Forall_cons in Hp as [Hp Hps]. pose proof (blen_pending ctx He) as Hpl. pose proof He as [_ Hu].
    change (2 ^ 30) with 1073741824 in Hp.
    destruct (EVP_EncodeUpdate_ok ctx p He) as (ls & last & ctx' & Hcut & He' & Hpend & ->).
    { change (2 ^ 60) with 1152921504606846976. lia. }
    pose proof Hcut as (Heq & Hls & Hlast). destruct (blen_lines ls Hls) as [Hl1 Hl2].
    assert (blen (concat (map encode_line ls)) <= INT_MAX) as Hmax.
    { pose proof (f_equal blen Heq) as Hlen. rewrite !blen_app in Hlen. pose proof (blen_nonneg last).
      unfold INT_MAX. pow2. lia. }
    rewrite (proj2 (Z.ltb_ge _ _)) by done. rewrite to_nat_blen, take_ge by lia.
    destruct (IH ctx' He' Hps) as (ls' & last' & Hcut' & ->). rewrite Hpend in Hcut'.
    exists (ls ++ ls'), last'. split; [rewrite app_assoc; by eapply cut_lines_app|].
    unfold encoded_text. by rewrite map_app, concat_app, app_assoc.
Qed.

Lemma zero_ctx_encoding : encoding zero_ctx.
Proof. split; [done|]. cbn. lia. Qed.

Lemma zero_ctx_decoding : decoding zero_ctx false.
Proof. done. Qed.

Lemma EVP_DecodeFinal_ok ctx eof : decoding ctx eof -> EVP_DecodeFinal ctx = 1.
Proof. intros (_ & Hu & _ & He). unfold EVP_DecodeFinal. by rewrite He, Hu. Qed.

(** * Lengths *)

Lemma EVP_EncodedLength_ok len :
  in_word 64 len ->
  EVP_EncodedLength len =
    if 4 * ((len + 2) / 3) + 1 <? 2 ^ 64 then Some (4 * ((len + 2) / 3) + 1) else None.
Proof.
  intros [H0 H1]. unfold EVP_EncodedLength. pow2.
  destruct (decide (len + 2 < 18446744073709551616)) as [Hs|Hs].
  - rewrite (wrap_small 64 (len + 2)) by (unfold in_word; pow2; lia).
    rewrite (proj2 (Z.ltb_ge (len + 2) len)) by lia. set (n := (len + 2) / 3).
    assert (0 <= n < 6148914691236517206) as Hn by (unfold n; zdiv).
    rewrite Z.shiftl_mul_pow2, Z.shiftr_div_pow2 by lia. change (2 ^ 2) with 4.
    destruct (decide (n * 4 < 18446744073709551616)) as [Hm|Hm].
    + rewrite (wrap_small 64 (n * 4)) by (unfold in_word; pow2; lia).
      rewrite Z.div_mul, Z.eqb_refl by lia. cbn [negb].
      rewrite (wrap_small 64 (n * 4 + 1)) by (unfold in_word; pow2; lia).
      rewrite (proj2 (Z.ltb_ge (n * 4 + 1) _)), (proj2 (Z.ltb_lt (4 * n + 1) _)) by lia. f_equal. lia.
    + assert (u64 (n * 4) = n * 4 - 18446744073709551616) as -> by (unfold wrap; pow2; zdiv).
      rewrite (proj2 (Z.eqb_neq _ n)) by zdiv. cbn [negb]. by rewrite (proj2 (Z.ltb_ge _ _)) by lia.
  - assert (u64 (len + 2) = len + 2 - 18446744073709551616) as -> by (unfold wrap; pow2; zdiv).
    rewrite (proj2 (Z.ltb_lt _ len)) by lia. rewrite (proj2 (Z.ltb_ge _ _)); [done|zdiv].
Qed.
