(* ===== verification/Base64Theorems.v ===== *)
(** The properties of base64 (crypto/base64) its callers rely on. *)

From S2P Require Import Prelude CryptoInternal Cbs Base64 Base64Spec.

(** C34: One-shot encoding and decoding are inverse. [EVP_EncodeBlock] writes
    as many characters as it returns and a NUL, which is what
    [EVP_EncodedLength] reserves whenever that is representable, and
    [EVP_DecodeBase64] on those characters returns the input. The constant-time
    character conversions, which use no table, are the base64 alphabet: the
    encoder maps the low six bits to their character, the decoder maps a
    character of the alphabet to its index, the padding character to 0, and
    every other byte to 0xff. *)
Theorem base64_block_roundtrip src max_out :
  bytes src -> 4 * ((blen src + 2) / 3) + 1 < 2 ^ 64 -> 3 * ((blen src + 2) / 3) <= max_out ->
  let '(text, n) := EVP_EncodeBlock src in
  blen text = n + 1 /\ EVP_EncodedLength (blen src) = Some (n + 1) /\
  EVP_DecodeBase64 max_out (take (Z.to_nat n) text) = Some src /\
  forall a, is_byte a ->
    conv_bin2ascii a = nth (Z.to_nat (a mod 64)) alphabet 0 /\
    base64_ascii_to_bin a =
      match alphabet_index a with Some i => Z.of_nat i | None => if a =? ch_eq then 0 else 0xff end.
Proof.
  intros Hs Hlen Hmax. unfold EVP_EncodeBlock. rewrite take_blen_app, blen_app, blen_singleton.
  pose proof (blen_nonneg src) as Hn. rewrite blen_encode_loop.
  split_and!; [done| | |intros a Ha; split; [by apply conv_bin2ascii_table|by apply base64_ascii_to_bin_table]].
  - rewrite EVP_EncodedLength_ok by (unfold in_word; pow2; zdiv). by rewrite (proj2 (Z.ltb_lt _ _)).
  - unfold EVP_DecodeBase64, EVP_DecodedLength. rewrite blen_encode_loop.
    set (k := (blen src + 2) / 3) in *. replace (4 * k mod 4) with 0 by zdiv. cbn [negb Z.eqb mbind option_bind].
    replace (4 * k / 4 * 3) with (3 * k) by zdiv. rewrite (proj2 (Z.ltb_ge _ _)) by done.
    by apply decode_quads_encode.
Qed.

Lemma base64_block_roundtrip_witness :
  EVP_EncodeBlock [1; 2; 3; 4] = ([65; 81; 73; 68; 66; 65; 61; 61; 0], 8) /\
  EVP_DecodeBase64 6 [65; 81; 73; 68; 66; 65; 61; 61] = Some [1; 2; 3; 4].
Proof.
  split; [vm_compute; reflexivity|]. apply (base64_block_roundtrip [1; 2; 3; 4] 6).
  - repeat (apply Forall_cons_2; [split; [vm_compute; discriminate|vm_compute; reflexivity]|]). apply Forall_nil_2.
  - vm_compute. reflexivity.
  - vm_compute. discriminate.
Defined.

(** C35: streaming base64: however the input is cut into [EVP_EncodeUpdate] calls,
    the output is the text of its lines of 48 bytes, and however that text is cut
    into [EVP_DecodeUpdate] calls, decoding returns the input and ends cleanly. *)
Theorem base64_stream_roundtrip pieces :
  small_pieces pieces -> bytes (concat pieces) -> blen (concat pieces) <= INT_MAX ->
  (exists ls last, concat pieces = concat ls ++ last /\ Forall (fun l => blen l = 48) ls /\ blen last < 48 /\
    encode_pieces EVP_EncodeInit pieces = encoded_text ls last) /\
  forall texts, concat texts = encode_pieces EVP_EncodeInit pieces ->
  exists ctx, decode_pieces EVP_DecodeInit texts = Some (concat pieces, ctx) /\ EVP_DecodeFinal ctx = 1.
Proof.
  intros Hp Hb Hmax.
  destruct (encode_pieces_ok pieces zero_ctx zero_ctx_encoding Hp) as (ls & last & (H1 & H2 & H3) & H4).
  change (concat pieces = concat ls ++ last) in H1. split; [by exists ls, last|]. intros texts Htext.
  rewrite H1 in Hb. apply bytes_app in Hb as [Hb1 Hb2].
  destruct (decode_loop_text ls last zero_ctx [] H2 Hb1 Hb2 zero_ctx_decoding) as (ctx & Hctx & E).
  exists ctx. split; [|by eapply EVP_DecodeFinal_ok].
  apply decode_pieces_loop; [done| |done]. unfold EVP_DecodeInit, EVP_EncodeInit in *.
  by rewrite Htext, H4, E, H1.
Qed.

Lemma base64_stream_roundtrip_witness :
  exists ctx, decode_pieces EVP_DecodeInit [[65; 81]; [73; 68; 66; 65; 61]; [61; 10]] = Some ([1; 2; 3; 4], ctx) /\
    EVP_DecodeFinal ctx = 1.
Proof.
  apply (base64_stream_roundtrip [[1]; [2; 3]; [4]]).
  - repeat (apply Forall_cons_2; [vm_compute; discriminate|]). apply Forall_nil_2.
  - repeat (apply Forall_cons_2; [split; [vm_compute; discriminate|vm_compute; reflexivity]|]). apply Forall_nil_2.
  - vm_compute. discriminate.
  - vm_compute. reflexivity.
Defined.
