(* ===== verification/Md32.v ===== *)
(** crypto/fipsmodule/digest/md32_common.h: the collector that MD4, MD5, SHA-1
    and SHA-256 share. It cuts the input into blocks and calls the hash's block
    function; the hash is a parameter, and what the collector needs of it is the
    interface [BlockFunction]. *)

From S2P Require Import Prelude CryptoInternal.

(** The context: chaining value, bits processed, partial block. *)
Record md32_ctx := Md32Ctx {
  h : list Z;
  Nl : Z;
  Nh : Z;
  data : list Z;      (* all [block_size] bytes *)
  num : Z
}.

(** [crypto_md32_block_func]: state, input, number of blocks. *)
Abbreviation block_func_t := (list Z -> list Z -> Z -> list Z).

Section Collector.
Variable block_func : block_func_t.
Variable block_size : Z.

Definition crypto_md32_update (c : md32_ctx) (in_ : list Z) : md32_ctx :=
  let len := blen in_ in
  if len =? 0 then c
  else
    let l := u32 (Nl c + u32 (Z.shiftl (u32 len) 3)) in
    let Nh := if l <? Nl c then u32 (Nh c + 1) else Nh c in
    let Nh := u32 (Nh + u32 (Z.shiftr len 29)) in
    let Nl := l in
    let n := num c in
    let rest h data num in_ :=
      let len := blen in_ in
      let n := len / block_size in
      let h := if 0 <? n then block_func h in_ n else h in
      let in_ := if 0 <? n then drop (Z.to_nat (n * block_size)) in_ else in_ in
      let len := if 0 <? n then len - n * block_size else len in
      if negb (len =? 0) then Md32Ctx h Nl Nh (write_at 0 in_ data) len
      else Md32Ctx h Nl Nh data num in
    if negb (n =? 0) then
      if (block_size <=? len) || (block_size <=? u64 (len + n)) then
        let data := write_at n (take (Z.to_nat (block_size - n)) in_) (data c) in
        let h := block_func (h c) data 1 in
        let n := block_size - n in
        rest h (replicate (Z.to_nat block_size) 0) 0 (drop (Z.to_nat n) in_)
      else
        Md32Ctx (h c) Nl Nh (write_at n in_ (data c)) (u32 (n + u32 len))
    else rest (h c) (data c) (num c) in_.

Definition crypto_md32_final (c : md32_ctx) (is_big_endian : bool) : md32_ctx :=
  let n := num c in
  let data := write_at n [0x80] (data c) in
  let n := n + 1 in
  let '(h, data, n) :=
    if block_size - 8 <? n then
      let data := write_at n (replicate (Z.to_nat (block_size - n)) 0) data in
      (block_func (h c) data 1, data, 0)
    else (h c, data, n) in
  let data := write_at n (replicate (Z.to_nat (block_size - 8 - n)) 0) data in
  let data :=
    if is_big_endian then
      write_at (block_size - 4) (CRYPTO_store_u32_be (Nl c))
        (write_at (block_size - 8) (CRYPTO_store_u32_be (Nh c)) data)
    else
      write_at (block_size - 4) (CRYPTO_store_u32_le (Nh c))
        (write_at (block_size - 8) (CRYPTO_store_u32_le (Nl c)) data) in
  let h := block_func h data 1 in
  Md32Ctx h (Nl c) (Nh c) (replicate (Z.to_nat block_size) 0) 0.
End Collector.

(** * The interface of a block function *)

(** A block function reads its blocks from left to right and nothing after
    them. *)
Class BlockFunction (block_func : block_func_t) (block_size : Z) : Prop := {
  block_size_bounds : 9 <= block_size <= 2 ^ 16;
  block_app h d1 d2 n1 n2 :
    0 < n1 -> 0 < n2 -> blen d1 = block_size * n1 -> blen d2 = block_size * n2 ->
    block_func h (d1 ++ d2) (n1 + n2) = block_func (block_func h d1 n1) d2 n2;
  block_prefix h d r n :
    0 < n -> blen d = block_size * n -> block_func h (d ++ r) n = block_func h d n
}.

(** * Specification: padding and iteration *)

Section Spec.
Context (block_func : block_func_t) (block_size : Z) `{!BlockFunction block_func block_size}.
Variable h0 : list Z.

(** Zero bytes between the 0x80 and the length. *)
Definition pad_len (n : Z) : Z := (- (n + 9)) mod block_size.

(** The length field: the number of bits modulo 2^64. *)
Definition len_field (is_big_endian : bool) (n : Z) : list Z :=
  if is_big_endian then be_bytes 8 (8 * n) else le_bytes 8 (8 * n).

Definition md_pad (is_big_endian : bool) (m : list Z) : list Z :=
  m ++ [0x80] ++ replicate (Z.to_nat (pad_len (blen m))) 0 ++ len_field is_big_endian (blen m).

(** The chaining value after the message [m]. *)
Definition md_hash (is_big_endian : bool) (m : list Z) : list Z :=
  let p := md_pad is_big_endian m in block_func h0 p (blen p / block_size).

(** [blocks full]: the chaining value after whole blocks. *)
Definition blocks (h : list Z) (full : list Z) : list Z :=
  let n := blen full / block_size in if 0 <? n then block_func h full n else h.

(** The context has seen the message [m]. *)
Definition md32_seen (c : md32_ctx) (m : list Z) : Prop :=
  exists full rest n, m = full ++ rest /\ blen full = block_size * n /\ 0 <= n /\
    h c = blocks h0 full /\ num c = blen rest /\ blen rest < block_size /\
    blen (data c) = block_size /\ take (Z.to_nat (num c)) (data c) = rest /\
    in_word 32 (Nl c) /\ in_word 32 (Nh c) /\ Nh c * 2 ^ 32 + Nl c = (8 * blen m) mod 2 ^ 64.

Lemma block_size_pos : 0 < block_size.
Proof. pose proof block_size_bounds. lia. Qed.

Lemma blocks_app h d1 d2 n1 n2 :
  blen d1 = block_size * n1 -> blen d2 = block_size * n2 -> 0 <= n1 -> 0 <= n2 ->
  blocks h (d1 ++ d2) = blocks (blocks h d1) d2.
Proof.
  intros H1 H2 Hn1 Hn2. pose proof block_size_pos. unfold blocks. rewrite blen_app, H1, H2, <-Z.mul_add_distr_l.
  rewrite !(Z.mul_comm block_size), !Z.div_mul by lia.
  destruct (Z.ltb_spec 0 n1), (Z.ltb_spec 0 n2); rewrite ?(proj2 (Z.ltb_lt 0 (n1 + n2))) by lia.
  - by apply block_app.
  - assert (n2 = 0) as -> by lia. rewrite Z.mul_0_r in H2. rewrite (blen_inv_nil _ H2), app_nil_r.
    by rewrite Z.add_0_r.
  - assert (n1 = 0) as -> by lia. rewrite Z.mul_0_r in H1. rewrite (blen_inv_nil _ H1). done.
  - rewrite (proj2 (Z.ltb_ge 0 (n1 + n2))) by lia. done.
Qed.

Lemma blocks_one h d : blen d = block_size -> block_func h d 1 = blocks h d.
Proof.
  intros Hd. pose proof block_size_pos. unfold blocks. rewrite Hd, Z.div_same by lia. done.
Qed.

(** The length counter. *)
Lemma md32_count nl nh len total :
  in_word 32 nl -> in_word 32 nh -> nh * 2 ^ 32 + nl = (8 * total) mod 2 ^ 64 -> 0 <= len < 2 ^ 61 ->
  let l := u32 (nl + u32 (Z.shiftl (u32 len) 3)) in
  let nh' := u32 ((if l <? nl then u32 (nh + 1) else nh) + u32 (Z.shiftr len 29)) in
  in_word 32 l /\ in_word 32 nh' /\ nh' * 2 ^ 32 + l = (8 * (total + len)) mod 2 ^ 64.
Proof.
  intros Hl Hh Ht Hlen l nh'. split; [by apply wrap_range|]. split; [by apply wrap_range|].
  assert (nh' * 2 ^ 32 + l = (nh * 2 ^ 32 + nl + 8 * len) mod 2 ^ 64) as ->.
  2: { rewrite Ht, Z.add_mod_idemp_l by done. f_equal. lia. }
  unfold nh', l. clear nh' l Ht. rewrite Z.shiftl_mul_pow2, Z.shiftr_div_pow2 by lia.
  unfold in_word, wrap in *. change (2 ^ 3) with 8. change (2 ^ 61) with 2305843009213693952 in *. pow2.
  set (a := len / 536870912). set (b := len mod 536870912).
  assert (len = 536870912 * a + b /\ 0 <= b < 536870912 /\ 0 <= a < 4294967296) as (Hlen' & Hb & Ha)
    by (unfold a, b; zdiv).
  assert ((len mod 4294967296 * 8) mod 4294967296 = 8 * b) as ->.
  { rewrite Z.mul_mod_idemp_l by lia. rewrite Hlen'. clearbody a b. clear -Ha Hb. zdiv. }
  rewrite (Z.mod_small a) by lia. clearbody a b. subst len.
  destruct (Z.ltb_spec (nl + 8 * b) 4294967296).
  - rewrite (Z.mod_small (nl + 8 * b)) by lia. rewrite (proj2 (Z.ltb_ge _ nl)) by lia.
    clear Hlen. zdiv.
  - assert ((nl + 8 * b) mod 4294967296 = nl + 8 * b - 4294967296) as -> by zdiv.
    rewrite (proj2 (Z.ltb_lt _ nl)) by lia. rewrite Z.add_mod_idemp_l by lia. clear Hlen. zdiv.
Qed.

(** [rest] of the update: whole blocks first, what is left is kept. *)
Lemma md32_rest_seen h' data' num' in_ nl nh full n m :
  blen full = block_size * n -> 0 <= n -> h' = blocks h0 full -> blen data' = block_size ->
  num' = 0 -> m = full ++ in_ ->
  in_word 32 nl -> in_word 32 nh -> nh * 2 ^ 32 + nl = (8 * blen m) mod 2 ^ 64 ->
  md32_seen
    (let len := blen in_ in
     let n := len / block_size in
     let h := if 0 <? n then block_func h' in_ n else h' in
     let in_ := if 0 <? n then drop (Z.to_nat (n * block_size)) in_ else in_ in
     let len := if 0 <? n then len - n * block_size else len in
     if negb (len =? 0) then Md32Ctx h nl nh (write_at 0 in_ data') len
     else Md32Ctx h nl nh data' num') m.
Proof.
  intros Hfull Hn Hh Hd -> Hm Hnl Hnh Hcount. pose proof block_size_pos as Hp. pose proof (blen_nonneg in_) as Hin.
  cbv zeta. set (k := blen in_ / block_size).
  assert (0 <= k /\ k * block_size <= blen in_ < k * block_size + block_size) as [Hk Hk2].
  { unfold k. pose proof (Z.div_mod (blen in_) block_size). pose proof (Z.mod_pos_bound (blen in_) block_size).
    pose proof (Z.div_pos (blen in_) block_size). lia. }
  set (body := take (Z.to_nat (k * block_size)) in_). set (tail := drop (Z.to_nat (k * block_size)) in_).
  assert (0 <= k * block_size) as Hkb by nia.
  assert (blen body = block_size * k) as Hbody by (unfold body; rewrite blen_take; lia).
  assert (blen tail = blen in_ - k * block_size) as Htail by (unfold tail; rewrite blen_drop; lia).
  assert (in_ = body ++ tail) as Hsplit by (unfold body, tail; by rewrite take_drop).
  assert ((if 0 <? k then block_func h' in_ k else h') = blocks h0 (full ++ body)) as ->.
  { rewrite (blocks_app h0 full body n k), <-Hh by done. unfold blocks. rewrite Hbody, Z.mul_comm, Z.div_mul by lia.
    destruct (Z.ltb_spec 0 k); [|done]. rewrite Hsplit. by apply block_prefix. }
  assert ((if 0 <? k then tail else in_) = tail) as ->.
  { destruct (Z.ltb_spec 0 k); [done|]. assert (k = 0) as E by lia. unfold tail. by rewrite E. }
  assert ((if 0 <? k then blen in_ - k * block_size else blen in_) = blen tail) as ->.
  { destruct (Z.ltb_spec 0 k); [done|]. assert (k = 0) as E by lia. rewrite Htail, E. lia. }
  assert (m = (full ++ body) ++ tail) as Hm' by (by rewrite Hm, Hsplit, app_assoc).
  pose proof (blen_nonneg tail).
  destruct (Z.eqb_spec (blen tail) 0) as [E|E]; cbn [negb];
    exists (full ++ body), tail, (n + k); cbn; (split_and!; try done; try lia; [rewrite blen_app; lia| ..]).
  - by rewrite (blen_inv_nil _ E).
  - rewrite blen_write_at; lia.
  - unfold write_at. rewrite take_0, app_nil_l. apply take_blen_app.
Qed.

Lemma crypto_md32_update_seen c m in_ :
  md32_seen c m -> blen in_ < 2 ^ 61 ->
  md32_seen (crypto_md32_update block_func block_size c in_) (m ++ in_).
Proof.
  intros (full & rest & n & -> & Hfull & Hn & Hh & Hnum & Hrest & Hd & Ht & Hnl & Hnh & Hc) Hlen.
  pose proof (blen_nonneg in_) as Hin. pose proof (blen_nonneg rest) as Hr. pose proof block_size_bounds as Hbs.
  unfold crypto_md32_update. destruct (Z.eqb_spec (blen in_) 0) as [E|E].
  { rewrite (blen_inv_nil _ E), app_nil_r. exists full, rest, n. by split_and!. }
  destruct (md32_count (Nl c) (Nh c) (blen in_) (blen (full ++ rest)) Hnl Hnh Hc) as (Hnl' & Hnh' & Hc'); [lia|].
  set (nl' := u32 (Nl c + _)) in *. set (nh' := u32 (_ + u32 (Z.shiftr (blen in_) 29))) in *.
  rewrite <-blen_app in Hc'. clearbody nl' nh'. cbv zeta. rewrite Hnum.
  rewrite Hnum in Ht.
  change (2 ^ 61) with 2305843009213693952 in Hlen. change (2 ^ 16) with 65536 in Hbs.
  rewrite (wrap_small 64) by (unfold in_word; pow2; lia).
  destruct (Z.eqb_spec (blen rest) 0) as [E0|E0]; cbn [negb].
  { apply (md32_rest_seen (h c) (data c) (blen rest) in_ nl' nh' full n); try done.
    by rewrite (blen_inv_nil _ E0), app_nil_r. }
  assert ((block_size <=? blen in_) || (block_size <=? blen in_ + blen rest) = (block_size <=? blen in_ + blen rest)) as ->.
  { destruct (Z.leb_spec block_size (blen in_)), (Z.leb_spec block_size (blen in_ + blen rest)); try done. lia. }
  destruct (Z.leb_spec block_size (blen in_ + blen rest)) as [Hge|Hlt].
  - set (bs := take (Z.to_nat (block_size - blen rest)) in_).
    assert (blen bs = block_size - blen rest) as Hbsl by (apply blen_take; lia).
    assert (write_at (blen rest) bs (data c) = rest ++ bs) as ->.
    { unfold write_at. rewrite Ht, Hbsl. replace (blen rest + (block_size - blen rest)) with block_size by lia.
      rewrite (drop_ge (data c)) by (unfold blen in Hd; lia). by rewrite app_nil_r. }
    assert (blen (rest ++ bs) = block_size) as Hblk by (rewrite blen_app; lia).
    apply (md32_rest_seen _ _ 0 (drop (Z.to_nat (block_size - blen rest)) in_) nl' nh' (full ++ rest ++ bs) (n + 1));
      try done; [rewrite blen_app; lia|lia| |apply blen_replicate; lia|].
    + rewrite (blocks_app h0 full _ n 1), <-Hh by (done || lia). by apply blocks_one.
    + rewrite <-!app_assoc. unfold bs. by rewrite take_drop.
  - rewrite (wrap_small 32 (blen in_)), wrap_small by (unfold in_word; pow2; lia).
    exists full, (rest ++ in_), n. rewrite blen_app. split_and!; try done; try lia.
    + by rewrite <-app_assoc.
    + cbn. rewrite blen_write_at; lia.
    + cbn. unfold write_at. rewrite Ht, app_assoc, <-blen_app. apply take_blen_app.
Qed.

(** Storing the last two words of a block. *)
Lemma two_stores x y a b :
  blen x = block_size - 8 -> blen y = 8 -> blen a = 4 -> blen b = 4 ->
  write_at (block_size - 4) b (write_at (block_size - 8) a (x ++ y)) = x ++ a ++ b.
Proof.
  intros Hx Hy Ha Hb. rewrite <-(take_drop 4 y).
  assert (blen (take 4 y) = 4) as Hy1 by (apply (blen_take 4); lia).
  assert (blen (drop 4 y) = 4) as Hy2 by (rewrite (blen_drop 4); lia).
  rewrite <-Hx, write_at_app by lia. replace (block_size - 4) with (blen (x ++ a)) by (rewrite blen_app; lia).
  rewrite app_assoc, <-(app_nil_r (drop 4 y)), write_at_app by lia. by rewrite app_nil_r, <-app_assoc.
Qed.

Lemma len_field_words be nl nh n :
  in_word 32 nl -> in_word 32 nh -> nh * 2 ^ 32 + nl = (8 * n) mod 2 ^ 64 ->
  len_field be n = if be : bool then be_bytes 4 nh ++ be_bytes 4 nl else le_bytes 4 nl ++ le_bytes 4 nh.
Proof.
  intros Hl Hh Hn. assert (be_bytes 8 (8 * n) = be_bytes 4 nh ++ be_bytes 4 nl) as E.
  { rewrite <-(be_bytes_mod 8). change (256 ^ Z.of_nat 8) with (2 ^ 64). rewrite <-Hn. by apply (be_bytes_split 4 4). }
  unfold len_field, le_bytes. rewrite E. destruct be; [done|]. by rewrite rev_app_distr.
Qed.

Lemma pad_len_eq x q k : 0 <= k < block_size -> x + 9 + k = block_size * q -> pad_len x = k.
Proof.
  intros Hk Hx. unfold pad_len. symmetry. apply (Z.mod_unique_pos _ _ (- q)); lia.
Qed.

Lemma md_hash_blocks full tail n k :
  blen full = block_size * n -> blen tail = block_size * k -> 0 <= n -> 0 < k ->
  block_func h0 (full ++ tail) (blen (full ++ tail) / block_size) = blocks (blocks h0 full) tail.
Proof.
  intros Hf Ht Hn Hk. pose proof block_size_pos. rewrite <-(blocks_app h0 full tail n k) by lia.
  unfold blocks. assert (0 < blen (full ++ tail) / block_size) as Hpos.
  { rewrite blen_app, Hf, Ht, <-Z.mul_add_distr_l, Z.mul_comm, Z.div_mul by lia. lia. }
  by rewrite (proj2 (Z.ltb_lt _ _)).
Qed.

Lemma crypto_md32_final_seen c m be :
  md32_seen c m ->
  h (crypto_md32_final block_func block_size c be) = md_hash be m.
Proof.
  intros (full & rest & n & -> & Hfull & Hn & Hh & Hnum & Hrest & Hd & Ht & Hnl & Hnh & Hc).
  pose proof (blen_nonneg rest) as Hr. pose proof block_size_bounds as Hbs. pose proof block_size_pos as Hbp.
  rewrite Hnum in Ht. unfold crypto_md32_final. rewrite Hnum.
  set (r := blen rest) in *. set (lenf := len_field be (blen (full ++ rest))).
  assert (blen lenf = 8) as Hlf by (unfold lenf, len_field, le_bytes; destruct be; unfold blen; rewrite ?length_rev, length_be_bytes; done).
  (* the block with the length at its end *)
  assert (forall d k, blen d = block_size -> 0 <= k <= block_size - 8 ->
    let d1 := write_at k (replicate (Z.to_nat (block_size - 8 - k)) 0) d in
    (if be then write_at (block_size - 4) (CRYPTO_store_u32_be (Nl c)) (write_at (block_size - 8) (CRYPTO_store_u32_be (Nh c)) d1)
     else write_at (block_size - 4) (CRYPTO_store_u32_le (Nh c)) (write_at (block_size - 8) (CRYPTO_store_u32_le (Nl c)) d1))
    = take (Z.to_nat k) d ++ replicate (Z.to_nat (block_size - 8 - k)) 0 ++ lenf) as Hlast.
  { intros d k Hdl Hk. cbv zeta. set (z := replicate (Z.to_nat (block_size - 8 - k)) 0).
    assert (blen z = block_size - 8 - k) as Hz by (apply blen_replicate; lia).
    assert (write_at k z d = (take (Z.to_nat k) d ++ z) ++ drop (Z.to_nat (block_size - 8)) d) as ->.
    { unfold write_at. rewrite Hz, <-app_assoc. do 3 f_equal. lia. }
    assert (blen (take (Z.to_nat k) d ++ z) = block_size - 8) as Hx by (rewrite blen_app, blen_take; lia).
    assert (blen (drop (Z.to_nat (block_size - 8)) d) = 8) as Hy by (rewrite blen_drop; lia).
    rewrite (app_assoc (take _ d)). unfold lenf. rewrite (len_field_words be (Nl c) (Nh c) (blen (full ++ rest))) by done.
    unfold CRYPTO_store_u32_le. rewrite !CRYPTO_store_u32_be_spec by done.
    destruct be; by apply two_stores. }
  (* the bytes before it *)
  set (d80 := write_at r [128] (data c)).
  assert (blen d80 = block_size) as Hd80 by (unfold d80; rewrite blen_write_at; rewrite ?blen_singleton; lia).
  assert (take (Z.to_nat (r + 1)) d80 = rest ++ [128]) as Ht80.
  { unfold d80, write_at. rewrite Ht, app_assoc. unfold r. rewrite <-(blen_singleton 128), <-blen_app. apply take_blen_app. }
  unfold md_hash, md_pad. fold lenf. rewrite blen_app, Hfull. fold r.
  destruct (Z.ltb_spec (block_size - 8) (r + 1)) as [Hover|Hfit]; cbn [h].
  - assert (write_at (r + 1) (replicate (Z.to_nat (block_size - (r + 1))) 0) d80 =
      rest ++ [128] ++ replicate (Z.to_nat (block_size - (r + 1))) 0) as ->.
    { unfold write_at. rewrite Ht80, blen_replicate, (drop_ge d80) by (unfold blen in Hd80; lia).
      by rewrite app_nil_r, <-app_assoc. }
    set (blk := rest ++ [128] ++ _).
    assert (blen blk = block_size) as Hblk by (unfold blk; rewrite !blen_app, blen_replicate, blen_singleton by lia; fold r; lia).
    pose proof (Hlast blk 0 Hblk ltac:(lia)) as Hl. cbv zeta in Hl. rewrite Hl, take_0, app_nil_l.
    set (blk2 := replicate (Z.to_nat (block_size - 8 - 0)) 0 ++ lenf).
    assert (blen blk2 = block_size) as Hblk2 by (unfold blk2; rewrite blen_app, blen_replicate by lia; lia).
    rewrite (blocks_one _ blk), (blocks_one _ blk2), Hh by done.
    assert (pad_len (block_size * n + r) = (block_size - (r + 1)) + (block_size - 8 - 0)) as ->.
    { apply (pad_len_eq _ (n + 2)); lia. }
    rewrite Z2Nat.inj_add, replicate_add by lia.
    replace ((full ++ rest) ++ _) with (full ++ blk ++ blk2)
      by (unfold blk, blk2; by rewrite <-!app_assoc).
    rewrite (md_hash_blocks full (blk ++ blk2) n 2) by (rewrite ?blen_app; lia).
    rewrite <-(blocks_app _ blk blk2 1 1) by lia. done.
  - pose proof (Hlast d80 (r + 1) Hd80 ltac:(lia)) as Hl. cbv zeta in Hl. rewrite Hl, Ht80.
    set (blk := (rest ++ [128]) ++ _).
    assert (blen blk = block_size) as Hblk
      by (unfold blk; rewrite !blen_app, blen_replicate, blen_singleton by lia; fold r; lia).
    rewrite (blocks_one _ blk), Hh by done.
    assert (pad_len (block_size * n + r) = block_size - 8 - (r + 1)) as -> by (apply (pad_len_eq _ (n + 1)); lia).
    replace ((full ++ rest) ++ _) with (full ++ blk) by (unfold blk; by rewrite <-!app_assoc).
    by rewrite (md_hash_blocks full blk n 1) by lia.
Qed.
(** A zeroed context with the initial chaining value. *)
Definition md32_zero : md32_ctx := Md32Ctx h0 0 0 (replicate (Z.to_nat block_size) 0) 0.

Lemma md32_zero_seen : md32_seen md32_zero [].
Proof.
  pose proof block_size_pos. exists [], [], 0. cbn. split_and!; try done; [change (blen (@nil Z)) with 0; lia..|apply blen_replicate; lia].
Qed.

(** Any sequence of updates. *)
Definition md32_updates (c : md32_ctx) (pieces : list (list Z)) : md32_ctx :=
  fold_left (crypto_md32_update block_func block_size) pieces c.

Lemma md32_updates_seen c m pieces :
  md32_seen c m -> Forall (fun p => blen p < 2 ^ 61) pieces ->
  md32_seen (md32_updates c pieces) (m ++ concat pieces).
Proof.
  intros Hc Hp. revert c m Hc. induction Hp as [|p pieces Hp Hps IH]; intros c m Hc; cbn.
  - by rewrite app_nil_r.
  - rewrite app_assoc. apply IH. by apply crypto_md32_update_seen.
Qed.

(** The collector computes the hash of what it was fed. *)
Lemma md32_collect be pieces :
  Forall (fun p => blen p < 2 ^ 61) pieces ->
  h (crypto_md32_final block_func block_size (md32_updates md32_zero pieces) be) = md_hash be (concat pieces).
Proof.
  intros Hp. apply crypto_md32_final_seen. apply (md32_updates_seen _ [] _ md32_zero_seen Hp).
Qed.
End Spec.
