(* ===== verification/HashSpec.v ===== *)
(** Shared by the hash functions: messages cut into blocks, message schedules
    that extend a block word by word, and the sixteen-word circular buffer in
    which the block functions keep the last words of the schedule. *)

From S2P Require Import Prelude CryptoInternal Md32.

(** * Blocks *)

(** The first [n] blocks of [k] bytes. *)
Fixpoint chunks (k n : nat) (d : list Z) : list (list Z) :=
  match n with
  | O => []
  | S n => take k d :: chunks k n (drop k d)
  end.

Lemma chunks_app k d1 d2 n1 n2 :
  length d1 = (k * n1)%nat -> chunks k (n1 + n2) (d1 ++ d2) = chunks k n1 d1 ++ chunks k n2 d2.
Proof.
  revert d1. induction n1 as [|n1 IH]; intros d1 Hl; cbn.
  - destruct d1; [done|]. cbn in Hl. lia.
  - rewrite take_app_le, drop_app_le by lia. f_equal. apply IH. rewrite length_drop. lia.
Qed.

Lemma chunks_prefix k n d r : length d = (k * n)%nat -> chunks k n (d ++ r) = chunks k n d.
Proof.
  intros Hl. rewrite <-(Nat.add_0_r n) at 1. rewrite chunks_app by done. cbn. apply app_nil_r.
Qed.

(** Iterating a compression function. *)
Definition iter_blocks (compress : list Z -> list Z -> list Z) (bs : Z) : block_func_t :=
  fun st d n => fold_left compress (chunks (Z.to_nat bs) (Z.to_nat n) d) st.

(** [while (num--)] over blocks of [k] bytes, [data] advancing. *)
Fixpoint while_num (block : list Z -> list Z -> list Z) (k num : nat) (state data : list Z) : list Z :=
  match num with
  | O => state
  | S num => while_num block k num (block state data) (drop k data)
  end.

Lemma while_num_iter block bs state data num :
  (forall st d, block st (take (Z.to_nat bs) d) = block st d) ->
  while_num block (Z.to_nat bs) (Z.to_nat num) state data = iter_blocks block bs state data num.
Proof.
  intros Hblock. unfold iter_blocks. generalize (Z.to_nat num) as n. intros n. revert state data.
  induction n as [|n IH]; intros state data; cbn; [done|]. by rewrite IH, Hblock.
Qed.

Lemma iter_blocks_BlockFunction f compress bs :
  9 <= bs <= 2 ^ 16 -> (forall st d n, 0 < n -> f st d n = iter_blocks compress bs st d n) -> BlockFunction f bs.
Proof.
  intros Hbs Hf. split; [done| |].
  - intros st d1 d2 n1 n2 Hn1 Hn2 H1 H2. rewrite !Hf by lia. unfold iter_blocks.
    rewrite Z2Nat.inj_add, chunks_app by (unfold blen in *; lia). by rewrite fold_left_app.
  - intros st d r n Hn Hd. rewrite !Hf by lia. unfold iter_blocks. by rewrite chunks_prefix by (unfold blen in *; lia).
Qed.

Lemma chunks_Forall k n d : bytes d -> length d = (k * n)%nat ->
  Forall (fun b => bytes b /\ length b = k) (chunks k n d).
Proof.
  revert d. induction n as [|n IH]; intros d Hb Hl; cbn; constructor.
  - split; [by apply bytes_take|]. rewrite length_take. lia.
  - apply IH; [by apply bytes_drop|]. rewrite length_drop. lia.
Qed.

Lemma fold_left_ext_Forall {A B} (f g : A -> B -> A) (P : B -> Prop) l a :
  Forall P l -> (forall a b, P b -> f a b = g a b) -> fold_left f l a = fold_left g l a.
Proof. intros Hl Hfg. revert a. induction Hl as [|b l Hb Hl IH]; intros a; cbn; [done|]. by rewrite Hfg, IH. Qed.

Lemma fold_seq_shift {A} (f : A -> nat -> A) k i n a :
  fold_left f (seq (k + i) n) a = fold_left (fun a j => f a (k + j)%nat) (seq i n) a.
Proof.
  revert i a. induction n as [|n IH]; intros i a; cbn; [done|]. rewrite <-IH. by rewrite Nat.add_succ_r.
Qed.

(** Forgetting part of the state of a fold. *)
Lemma fold_left_proj {A A' B} (pi : A -> A') (f : A -> B -> A) (g : A' -> B -> A') l a :
  (forall a b, pi (f a b) = g (pi a) b) -> pi (fold_left f l a) = fold_left g l (pi a).
Proof. intros Hfg. revert a. induction l as [|b l IH]; intros a; cbn; [done|]. by rewrite IH, Hfg. Qed.

(** Looking at the words of a block does not look past it. *)
Lemma take_drop_take {A} n i k (d : list A) : (i + n <= k)%nat -> take n (drop i (take k d)) = take n (drop i d).
Proof. intros. by rewrite !take_drop_commute, take_take, Nat.min_l by lia. Qed.

(** A message padded by Merkle and Damgard, with its whole number of blocks. *)
Lemma md_pad_length bs be m : 9 <= bs -> exists n, (0 < n)%nat /\ length (md_pad bs be m) = (Z.to_nat bs * n)%nat.
Proof.
  intros Hbs. unfold md_pad, pad_len. set (r := (- (blen m + 9)) mod bs).
  assert (exists q, blen m + 9 + r = bs * q /\ 0 <= r) as (q & Hq & Hr).
  { exists (- ((- (blen m + 9)) / bs)). unfold r. pose proof (Z.div_mod (- (blen m + 9)) bs).
    pose proof (Z.mod_pos_bound (- (blen m + 9)) bs). lia. }
  exists (Z.to_nat q). pose proof (blen_nonneg m).
  assert (0 < q) by nia. split; [lia|].
  rewrite !length_app, length_replicate. unfold len_field, le_bytes.
  assert (length (if be then be_bytes 8 (8 * blen m) else rev (be_bytes 8 (8 * blen m))) = 8%nat) as ->
    by (destruct be; rewrite ?length_rev; apply length_be_bytes).
  cbn [length]. apply Nat2Z.inj. rewrite Nat2Z.inj_mul, !Z2Nat.id by lia. unfold blen in *. lia.
Qed.

Lemma md_pad_bytes bs be m : bytes m -> bytes (md_pad bs be m).
Proof.
  intros Hm. unfold md_pad, len_field, le_bytes. rewrite !bytes_app. split_and!; [done| | |].
  - by repeat constructor.
  - by apply bytes_replicate.
  - destruct be; rewrite ?bytes_rev; apply bytes_be_bytes.
Qed.

(** An iterated compression function over whole blocks, block by block. *)
Lemma iter_hash f compress compress' bs h0 p :
  9 <= bs -> bytes p -> (exists n, (0 < n)%nat /\ length p = (Z.to_nat bs * n)%nat) ->
  (forall st d n, 0 < n -> f st d n = iter_blocks compress bs st d n) ->
  (forall st b, bytes b -> length b = Z.to_nat bs -> compress st b = compress' st b) ->
  f h0 p (blen p / bs) = fold_left compress' (chunks (Z.to_nat bs) (length p / Z.to_nat bs) p) h0.
Proof.
  intros Hbs Hp (n & Hpos & Hn) Hf Hc.
  assert (blen p / bs = Z.of_nat n) as ->.
  { unfold blen. rewrite Hn, Nat2Z.inj_mul, Z2Nat.id, Z.mul_comm, Z.div_mul by lia. lia. }
  rewrite Hf by lia. unfold iter_blocks. rewrite Nat2Z.id.
  assert (length p / Z.to_nat bs = n)%nat as -> by (rewrite Hn, Nat.mul_comm; apply Nat.div_mul; lia).
  apply (fold_left_ext_Forall _ _ _ _ _ (chunks_Forall _ n p Hp Hn)).
  intros st b [Hb Hl]. by apply Hc.
Qed.

(** [md_hash] in this way. *)
Lemma md_hash_iter f compress compress' bs h0 be m :
  9 <= bs -> bytes m -> (forall st d n, 0 < n -> f st d n = iter_blocks compress bs st d n) ->
  (forall st b, bytes b -> length b = Z.to_nat bs -> compress st b = compress' st b) ->
  md_hash f bs h0 be m =
  let p := md_pad bs be m in fold_left compress' (chunks (Z.to_nat bs) (length p / Z.to_nat bs) p) h0.
Proof.
  intros Hbs Hm Hf Hc. apply (iter_hash f compress compress'); try done.
  - by apply md_pad_bytes.
  - by apply md_pad_length.
Qed.

(** * Schedules *)

(** [n] more words, each computed from the words before it. *)
Fixpoint extend (f : list Z -> Z) (n : nat) (l : list Z) : list Z :=
  match n with
  | O => l
  | S n => let w := extend f n l in w ++ [f w]
  end.

Lemma length_extend f n l : length (extend f n l) = (length l + n)%nat.
Proof. induction n; cbn; [lia|]. rewrite length_app. cbn. lia. Qed.

Lemma extend_old f n l k : (k < length l)%nat -> nth k (extend f n l) 0 = nth k l 0.
Proof.
  intros Hk. induction n as [|n IH]; [done|]. cbn. rewrite app_nth1; [done|]. rewrite length_extend. lia.
Qed.

Lemma extend_new f n l k : (k < n)%nat ->
  exists w, length w = (length l + k)%nat /\ nth (length l + k) (extend f n l) 0 = f w /\
    forall j, (j < length l + k)%nat -> nth j w 0 = nth j (extend f n l) 0.
Proof.
  induction n as [|n IH]; intros Hk; [lia|]. cbn. destruct (decide (k = n)) as [->|Hne].
  - exists (extend f n l). rewrite length_extend. split_and!; [done| |].
    + rewrite app_nth2 by (rewrite length_extend; lia). by rewrite length_extend, Nat.sub_diag.
    + intros j Hj. rewrite app_nth1; [done|]. rewrite length_extend. lia.
  - destruct IH as (w & Hw & Hn & Hj); [lia|]. exists w. split_and!; [done| |].
    + rewrite app_nth1; [done|]. rewrite length_extend. lia.
    + intros j Hlt. rewrite app_nth1; [by apply Hj|]. rewrite length_extend. lia.
Qed.

(** [f] written as a recurrence [g] on the sixteen words before. *)
Lemma extend_rec f (g : (nat -> Z) -> Z) n l k :
  (forall w, (16 <= length w)%nat -> f w = g (fun j => nth (length w - 16 + j) w 0)) ->
  (forall u v, (forall j, (j < 16)%nat -> u j = v j) -> g u = g v) ->
  length l = 16%nat -> (k < n)%nat ->
  nth (16 + k) (extend f n l) 0 = g (fun j => nth (k + j) (extend f n l) 0).
Proof.
  intros Hf Hg Hl Hk. destruct (extend_new f n l k Hk) as (w & Hw & Hn & Hj). rewrite Hl in *.
  rewrite Hn, Hf by lia. apply Hg. intros j Hlt. rewrite Hw. rewrite <-Hj by lia. f_equal. lia.
Qed.

(** * The circular buffer *)

(** [X[i & 0x0f]]. *)
Definition X_at (X : list Z) (i : nat) : Z := nth (i mod 16) X 0.

(** [X] holds the words [W i-16 .. W i-1]. *)
Definition circ (W : nat -> Z) (i : nat) (X : list Z) : Prop :=
  length X = 16%nat /\ forall k, (k < i <= k + 16)%nat -> X_at X k = W k.

Lemma X_at_period X i : X_at X (16 + i) = X_at X i.
Proof. unfold X_at. by rewrite (Nat.Div0.add_mod 16 i), Nat.Div0.mod_same, Nat.add_0_l, Nat.Div0.mod_mod. Qed.

Lemma X_at_insert X i k x : length X = 16%nat ->
  X_at (<[(i mod 16)%nat := x]> X) k = if decide (i mod 16 = k mod 16)%nat then x else X_at X k.
Proof.
  intros HX. unfold X_at. rewrite !nth_lookup.
  destruct (decide _) as [E|E].
  - rewrite E, list_lookup_insert_eq; [done|]. rewrite HX. apply Nat.mod_upper_bound. lia.
  - by rewrite list_lookup_insert_ne.
Qed.

(** Reading ahead wraps round to the words sixteen before. *)
Lemma circ_read W i X j : circ W (16 + i) X -> (j < 16)%nat -> X_at X (16 + i + j) = W (i + j)%nat.
Proof.
  intros [_ HX] Hj. rewrite <-Nat.add_assoc, X_at_period. apply HX. lia.
Qed.

Lemma circ_step W i X x : circ W (16 + i) X -> x = W (16 + i)%nat ->
  circ W (16 + S i) (<[((16 + i) mod 16)%nat := x]> X).
Proof.
  intros [HL HX] ->. split; [by rewrite length_insert|].
  intros k Hk. rewrite X_at_insert by done. destruct (decide _) as [E|E].
  - f_equal. assert (k = 16 + i \/ k < 16 + i)%nat as [->|Hlt] by lia; [done|].
    exfalso. pose proof (Nat.div_mod_eq (16 + i) 16). pose proof (Nat.div_mod_eq k 16). lia.
  - apply HX. assert (k <> 16 + i)%nat by (by intros ->). lia.
Qed.

Lemma circ_init W X : length X = 16%nat -> (forall k, (k < 16)%nat -> nth k X 0 = W k) -> circ W 16 X.
Proof.
  intros HL HX. split; [done|]. intros k Hk. unfold X_at. rewrite Nat.mod_small by lia. apply HX. lia.
Qed.

(** * Folding over consecutive rounds *)

Lemma fold_seq_app {A} (f : A -> nat -> A) i n m a :
  fold_left f (seq i (n + m)) a = fold_left f (seq (i + n) m) (fold_left f (seq i n) a).
Proof. by rewrite seq_app, fold_left_app. Qed.

(** An invariant of a fold over [seq]. *)
Lemma fold_seq_inv {A} (P : nat -> A -> Prop) (f : A -> nat -> A) i n a :
  P i a -> (forall j b, (i <= j < i + n)%nat -> P j b -> P (S j) (f b j)) -> P (i + n)%nat (fold_left f (seq i n) a).
Proof.
  revert i a. induction n as [|n IH]; intros i a Ha Hf; cbn.
  - by rewrite Nat.add_0_r.
  - rewrite <-Nat.add_succ_comm. apply IH; [apply Hf; [lia|done]|]. intros j b Hj. apply Hf. lia.
Qed.

Lemma fold_seq_ext {A} (f g : A -> nat -> A) i n a :
  (forall a j, (i <= j < i + n)%nat -> f a j = g a j) -> fold_left f (seq i n) a = fold_left g (seq i n) a.
Proof.
  intros Hfg. apply (fold_left_ext_Forall f g (fun j => i <= j < i + n)%nat); [|done].
  apply Forall_forall. intros j Hj%elem_of_seq. lia.
Qed.

(** [n] rounds [rs] over registers and a buffer that starts as a block's sixteen
    words: the first sixteen take their word from the buffer, the others compute
    it with the recurrence [g] from the buffer and store it there. They are the
    rounds [step] over the schedule [W] that [g] defines. *)
Section CircRounds.
Context {R : Type} (step : nat -> Z -> R -> R) (g : (nat -> Z) -> Z) (W : nat -> Z) (n : nat).
Context (rs : R * list Z -> nat -> R * list Z).
Hypothesis n_ge : (16 <= n)%nat.
Hypothesis g_ext : forall u v, (forall j, (j < 16)%nat -> u j = v j) -> g u = g v.
Hypothesis W_rec : forall k, (16 + k < n)%nat -> W (16 + k)%nat = g (fun j => W (k + j)%nat).
Hypothesis rs_loaded : forall i v X, (i < 16)%nat -> rs (v, X) i = (step i (nth i X 0) v, X).
Hypothesis rs_round : forall i v X, (16 <= i < n)%nat -> length X = 16%nat ->
  let x := g (fun j => X_at X (i + j)) in rs (v, X) i = (step i x v, <[(i mod 16)%nat := x]> X).

Lemma circ_rounds v0 M : length M = 16%nat -> (forall k, (k < 16)%nat -> nth k M 0 = W k) ->
  (fold_left rs (seq 0 n) (v0, M)).1 = fold_left (fun v t => step t (W t) v) (seq 0 n) v0.
Proof.
  intros HM HW. set (ref := fun v t => step t (W t) v).
  set (P i (s : R * list Z) := s.1 = fold_left ref (seq 0 i) v0).
  assert (forall i v X x, P i (v, X) -> x = W i -> forall X', P (S i) (step i x v, X')) as Hstep.
  { intros i v X x Hs -> X'. unfold P in *. cbn [fst] in *. by rewrite seq_S, fold_left_app, <-Hs. }
  replace n with (16 + (n - 16))%nat at 1 2 by lia. rewrite fold_seq_app.
  refine (proj1 (fold_seq_inv (fun i s => P i s /\ circ W i s.2) _ 16 (n - 16) _ _ _)).
  - assert (P (0 + 16)%nat (fold_left rs (seq 0 16) (v0, M)) /\ (fold_left rs (seq 0 16) (v0, M)).2 = M) as [HP HX].
    { apply (fold_seq_inv (fun i s => P i s /\ s.2 = M)); [done|]. intros j [v X] Hj [Hs HX]. cbn in HX. subst X.
      rewrite rs_loaded by lia. split; [|done]. apply (Hstep j v M); [done|]. apply HW. lia. }
    split; [exact HP|]. rewrite HX. by apply circ_init.
  - intros j [v X] Hj [Hs HX]. cbn [snd] in HX. rewrite rs_round by (apply HX || lia).
    assert (exists k, j = 16 + k)%nat as [k ->] by (exists (j - 16)%nat; lia).
    set (x := g _). assert (x = W (16 + k)%nat) as Hx.
    { unfold x. rewrite W_rec by lia. apply g_ext. intros i Hi. by apply circ_read. }
    split; [by apply (Hstep (16 + k)%nat v X)|]. by apply (circ_step W k).
Qed.
End CircRounds.

(** * Four rotating registers *)

(** MD4 and MD5: a round assigns the first register, then the names rotate. *)
Definition regs4 : Type := Z * Z * Z * Z.

Definition rot4 (f : nat -> Z -> Z -> Z -> Z -> Z) (v : regs4) (i : nat) : regs4 :=
  let '(a, b, c, d) := v in (d, f i a b c d, b, c).

Lemma rot4_cons f i l a b c d :
  fold_left (rot4 f) (i :: l) (a, b, c, d) = fold_left (rot4 f) l (d, f i a b c d, b, c).
Proof. done. Qed.

Lemma rot4_ext f g i n v :
  (forall j a b c d, (i <= j < i + n)%nat -> f j a b c d = g j a b c d) ->
  fold_left (rot4 f) (seq i n) v = fold_left (rot4 g) (seq i n) v.
Proof. intros Hfg. apply fold_seq_ext. intros [[[a b] c] d] j Hj. unfold rot4. by rewrite Hfg. Qed.

(** Four consecutive calls of a macro, the registers rotating by one name each;
    [k], [s] and [t] are the arguments of each call. *)
Definition ROUND_4 (R : Z -> Z -> Z -> Z -> Z -> Z -> Z -> Z) (A B C D : Z)
    (k0 s0 t0 k1 s1 t1 k2 s2 t2 k3 s3 t3 : Z) : regs4 :=
  let A := R A B C D k0 s0 t0 in
  let D := R D A B C k1 s1 t1 in
  let C := R C D A B k2 s2 t2 in
  let B := R B C D A k3 s3 t3 in
  (A, B, C, D).

Lemma ROUND_4_fold R f i l A B C D k0 s0 t0 k1 s1 t1 k2 s2 t2 k3 s3 t3 :
  (forall a b c d, f i a b c d = R a b c d k0 s0 t0) ->
  (forall a b c d, f (1 + i)%nat a b c d = R a b c d k1 s1 t1) ->
  (forall a b c d, f (2 + i)%nat a b c d = R a b c d k2 s2 t2) ->
  (forall a b c d, f (3 + i)%nat a b c d = R a b c d k3 s3 t3) ->
  fold_left (rot4 f) (i :: 1 + i :: 2 + i :: 3 + i :: l)%nat (A, B, C, D) =
  fold_left (rot4 f) l (ROUND_4 R A B C D k0 s0 t0 k1 s1 t1 k2 s2 t2 k3 s3 t3).
Proof. intros H0 H1 H2 H3. rewrite !rot4_cons, H0, H1, H2, H3. done. Qed.

(** Four calls of the unrolled code against four rounds of the fold. *)
Ltac unroll4 :=
  match goal with
  | |- (match ROUND_4 ?R ?A ?B ?C ?D ?k0 ?s0 ?t0 ?k1 ?s1 ?t1 ?k2 ?s2 ?t2 ?k3 ?s3 ?t3 with _ => _ end)
       = fold_left (rot4 ?f) (?i :: _ :: _ :: _ :: ?l) _ =>
      let E := fresh in
      pose proof (ROUND_4_fold R f i l A B C D k0 s0 t0 k1 s1 t1 k2 s2 t2 k3 s3 t3
        (fun _ _ _ _ => eq_refl) (fun _ _ _ _ => eq_refl) (fun _ _ _ _ => eq_refl) (fun _ _ _ _ => eq_refl)) as E;
      cbn [Nat.add] in E; rewrite E; clear E;
      destruct (ROUND_4 R A B C D k0 s0 t0 k1 s1 t1 k2 s2 t2 k3 s3 t3) as [[[? ?] ?] ?]
  end.

(** * Digests *)

(** Loading words does not look past the block. *)
Lemma load_words_take (load : list Z -> Z) k n data :
  n = (k * 16)%nat -> (forall d, load (take k d) = load d) ->
  map (fun i => load (drop (k * i) (take n data))) (seq 0 16) = map (fun i => load (drop (k * i) data)) (seq 0 16).
Proof.
  intros -> Hl. apply map_ext_in. intros i Hi%in_seq. rewrite <-Hl, <-(Hl (drop _ data)). by rewrite take_drop_take by nia.
Qed.

(** A block as sixteen big-endian words. *)
Definition be_block (b : list Z) : list Z := map (fun i => be_val (take 4 (drop (4 * i) b))) (seq 0 16).

Lemma load_u32_be_take d : CRYPTO_load_u32_be (take 4 d) = CRYPTO_load_u32_be d.
Proof. unfold CRYPTO_load_u32_be. by rewrite take_take. Qed.

Lemma load_u32_le_take d : CRYPTO_load_u32_le (take 4 d) = CRYPTO_load_u32_le d.
Proof. unfold CRYPTO_load_u32_le. by rewrite take_take. Qed.

(** A block as sixteen little-endian words. *)
Definition le_block (b : list Z) : list Z := map (fun i => le_val (take 4 (drop (4 * i) b))) (seq 0 16).

Lemma load_be_block b : bytes b -> length b = 64%nat ->
  map (fun i => CRYPTO_load_u32_be (drop (4 * i) b)) (seq 0 16) = be_block b.
Proof.
  intros Hb Hl. unfold be_block. apply map_ext_in. intros i Hi%in_seq.
  rewrite <-load_u32_be_take. apply CRYPTO_load_u32_be_spec.
  - by apply bytes_take, bytes_drop.
  - rewrite length_take, length_drop. lia.
Qed.

(** Chaining values: [n] words of [w] bits. *)
Definition words (w : Z) (n : nat) (l : list Z) : Prop := length l = n /\ Forall (in_word w) l.

(** The bytes of a digest, big-endian word by word. *)
Definition be_words (k : nat) (l : list Z) : list Z := concat (map (be_bytes k) l).

Lemma fold_left_words {B} w n (f : list Z -> B -> list Z) l a :
  words w n a -> (forall a b, words w n (f a b)) -> words w n (fold_left f l a).
Proof. intros Ha Hf. revert a Ha. induction l as [|b l IH]; intros a Ha; cbn; [done|]. by apply IH. Qed.

Lemma map_seq_nth {A B} (f : A -> B) (d : A) (l : list A) n :
  (n <= length l)%nat -> map (fun i => f (nth i l d)) (seq 0 n) = map f (take n l).
Proof.
  revert l. induction n as [|n IH]; intros l Hl; [done|]. destruct l as [|x l]; cbn in Hl; [lia|].
  cbn [seq map take]. f_equal. rewrite <-seq_shift, map_map. apply IH. lia.
Qed.

(** Storing the first [n] words one after the other. *)
Lemma store_words (store : Z -> list Z) w k n m l :
  (forall v, in_word w v -> store v = be_bytes k v) -> words w m l -> (n <= m)%nat ->
  concat (map (fun i => store (nth i l 0)) (seq 0 n)) = be_words k (take n l).
Proof.
  intros Hs [Hl Hw] Hn. rewrite (map_seq_nth store) by lia. unfold be_words. f_equal.
  apply map_ext_Forall. apply Forall_take. by eapply Forall_impl.
Qed.

(** Little-endian digests, and the words of an MD4 or MD5 chaining value. *)
Definition le_words (k : nat) (l : list Z) : list Z := concat (map (le_bytes k) l).

Lemma store_le_words l : length l = 4%nat ->
  CRYPTO_store_u32_le (nth 0 l 0) ++ CRYPTO_store_u32_le (nth 1 l 0) ++
  CRYPTO_store_u32_le (nth 2 l 0) ++ CRYPTO_store_u32_le (nth 3 l 0) = le_words 4 l.
Proof.
  intros Hl. do 4 (destruct l as [|? l]; [done|]). destruct l; [|done].
  unfold le_words. cbn [map concat nth]. by rewrite app_nil_r.
Qed.

Definition add_regs4 (H : list Z) (v : regs4) : list Z :=
  let '(a, b, c, d) := v in [u32 (nth 0 H 0 + a); u32 (nth 1 H 0 + b); u32 (nth 2 H 0 + c); u32 (nth 3 H 0 + d)].

Lemma length_add_regs4 H v : length (add_regs4 H v) = 4%nat.
Proof. by destruct v as [[[? ?] ?] ?]. Qed.

(** Compression by [n] rounds over the words [M] of a block. *)
Definition rot4_compress (round : (nat -> Z) -> nat -> Z -> Z -> Z -> Z -> Z) (n : nat) (H M : list Z) : list Z :=
  add_regs4 H (fold_left (rot4 (round (fun i => nth i M 0))) (seq 0 n) (nth 0 H 0, nth 1 H 0, nth 2 H 0, nth 3 H 0)).

(** The chaining value after a padded message. *)
Definition rot4_hash (round : (nat -> Z) -> nat -> Z -> Z -> Z -> Z -> Z) (n : nat) (h0 m : list Z) : list Z :=
  let p := md_pad 64 false m in
  fold_left (fun H b => rot4_compress round n H (le_block b)) (chunks 64 (length p / 64) p) h0.

(** The MD4 and MD5 contexts compute it. *)
Section Rot4Hash.
Variable block : list Z -> list Z -> list Z.
Variable round : (nat -> Z) -> nat -> Z -> Z -> Z -> Z -> Z.
Variable n : nat.
Hypothesis block_spec : forall st d,
  block st d = rot4_compress round n st (map (fun i => CRYPTO_load_u32_le (drop (4 * i) d)) (seq 0 16)).

Lemma rot4_iter st d num :
  while_num block 64 (Z.to_nat num) st d = iter_blocks block 64 st d num.
Proof.
  apply (while_num_iter block 64). intros st' d'. change (Z.to_nat 64) with 64%nat. rewrite !block_spec.
  by rewrite (load_words_take CRYPTO_load_u32_le 4 64 d' eq_refl load_u32_le_take).
Qed.

Lemma rot4_final h0 pieces :
  bytes (concat pieces) -> Forall (fun p => blen p < 2 ^ 61) pieces -> length h0 = 4%nat ->
  let f st d num := while_num block 64 (Z.to_nat num) st d in
  let H := h (crypto_md32_final f 64 (md32_updates f 64 (md32_zero 64 h0) pieces) false) in
  CRYPTO_store_u32_le (nth 0 H 0) ++ CRYPTO_store_u32_le (nth 1 H 0) ++
  CRYPTO_store_u32_le (nth 2 H 0) ++ CRYPTO_store_u32_le (nth 3 H 0) = le_words 4 (rot4_hash round n h0 (concat pieces)).
Proof.
  intros Hb Hp Hh f. cbv zeta.
  assert (BlockFunction f 64) as Hf
    by (apply (iter_blocks_BlockFunction _ block); [done|intros; apply rot4_iter]).
  rewrite (md32_collect f 64) by assumption.
  rewrite (md_hash_iter f block (fun H b => rot4_compress round n H (le_block b)) 64);
    [|done|done|intros; apply rot4_iter|intros st b _ _; apply block_spec].
  apply store_le_words. unfold rot4_hash. cbv zeta.
  assert (forall l H, length H = 4%nat -> length (fold_left (fun H b => rot4_compress round n H (le_block b)) l H) = 4%nat) as Hl.
  { intros l. induction l as [|b l IH]; intros H HH; cbn; [done|]. apply IH, length_add_regs4. }
  by apply Hl.
Qed.
End Rot4Hash.
