(* ===== verification/Sha2Spec.v ===== *)
(** What SHA-256 and SHA-512 share: the eight working variables, the unrolled
    loop body that rotates their names instead of their values, and the
    compression function of FIPS 180-4 that it implements. *)

From S2P Require Import Prelude CryptoInternal Md32 HashSpec.

Definition regs : Type := Z * Z * Z * Z * Z * Z * Z * Z.

(** A macro invocation: it assigns the registers [d] and [h] and the buffer. *)
Definition round_t : Type := nat -> Z -> Z -> Z -> Z -> Z -> Z -> Z -> Z -> list Z -> Z * Z * list Z.

(** Eight consecutive invocations, the registers rotating by one name each. *)
Definition ROUNDS_8 (round : round_t) (i : nat) (v : regs) (X : list Z) : regs * list Z :=
  let '(a, b, c, d, e, f, g, h) := v in
  let '(d, h, X) := round (i + 0)%nat a b c d e f g h X in
  let '(c, g, X) := round (i + 1)%nat h a b c d e f g X in
  let '(b, f, X) := round (i + 2)%nat g h a b c d e f X in
  let '(a, e, X) := round (i + 3)%nat f g h a b c d e X in
  let '(h, d, X) := round (i + 4)%nat e f g h a b c d X in
  let '(g, c, X) := round (i + 5)%nat d e f g h a b c X in
  let '(f, b, X) := round (i + 6)%nat c d e f g h a b X in
  let '(e, a, X) := round (i + 7)%nat b c d e f g h a X in
  (a, b, c, d, e, f, g, h, X).

Definition get_regs (l : list Z) : regs :=
  (nth 0 l 0, nth 1 l 0, nth 2 l 0, nth 3 l 0, nth 4 l 0, nth 5 l 0, nth 6 l 0, nth 7 l 0).

(** The two registers a round computes, one sum each. *)
Ltac regs_eq :=
  match goal with
  | |- (?x, _, _, _, ?y, _, _, _, _) = (?x', _, _, _, ?y', _, _, _, _) =>
      assert (x = x') as ->; [wrap_sum|assert (y = y') as ->; [wrap_sum|done]]
  end.

(** * FIPS 180-4 *)

Section Fips.
Variable w : Z.
Variables Sigma0 Sigma1 sigma0 sigma1 : Z -> Z.
Variables Ch Maj : Z -> Z -> Z -> Z.
Variable K : list Z.
Variable rounds : nat.

(** Steps 3.a to 3.i for one [t]. *)
Definition fips_step (Kt Wt : Z) (v : regs) : regs :=
  let '(a, b, c, d, e, f, g, h) := v in
  let T1 := h + Sigma1 e + Ch e f g + Kt + Wt in
  let T2 := Sigma0 a + Maj a b c in
  (wrap w (T1 + T2), a, b, c, wrap w (d + T1), e, f, g).

(** Step 1: the message schedule. *)
Definition fips_next (W : list Z) : Z :=
  let t := length W in
  wrap w (sigma1 (nth (t - 2) W 0) + nth (t - 7) W 0 + sigma0 (nth (t - 15) W 0) + nth (t - 16) W 0).

Definition fips_schedule (M : list Z) : list Z := extend fips_next (rounds - 16) M.

(** Step 4: the intermediate hash value. *)
Definition add_regs (H : list Z) (v : regs) : list Z :=
  let '(a, b, c, d, e, f, g, h) := v in
  [wrap w (nth 0 H 0 + a); wrap w (nth 1 H 0 + b); wrap w (nth 2 H 0 + c); wrap w (nth 3 H 0 + d);
   wrap w (nth 4 H 0 + e); wrap w (nth 5 H 0 + f); wrap w (nth 6 H 0 + g); wrap w (nth 7 H 0 + h)].

(** [M] is the block as sixteen words. *)
Definition fips_compress (H M : list Z) : list Z :=
  let W := fips_schedule M in
  add_regs H (fold_left (fun v t => fips_step (nth t K 0) (nth t W 0) v) (seq 0 rounds) (get_regs H)).

(** * The unrolled loop *)

(** One invocation followed by the rotation of the names. *)
Definition rstep (round : round_t) (s : regs * list Z) (i : nat) : regs * list Z :=
  let '(a, b, c, d, e, f, g, h, X) := s in
  let '(d, h, X) := round i a b c d e f g h X in
  (h, a, b, c, d, e, f, g, X).

Lemma ROUNDS_8_fold round i v X :
  ROUNDS_8 round i v X = fold_left (rstep round) (seq i 8) (v, X).
Proof.
  destruct v as [[[[[[[a b] c] d] e] f] g] h]. unfold ROUNDS_8.
  rewrite !(Nat.add_comm i). cbn [Nat.add seq fold_left].
  unfold rstep.
  do 8 (match goal with |- (match ?r with _ => _ end) = _ => destruct r as [[? ?] ?] end; cbn beta iota).
  done.
Qed.

(** The loop over rounds in steps of eight. *)
Lemma ROUNDS_8_loop round i n s :
  fold_left (fun '(v, X) i => ROUNDS_8 round i v X) (map (fun k => i + 8 * k)%nat (seq 0 n)) s =
  fold_left (rstep round) (seq i (8 * n)) s.
Proof.
  induction n as [|n IH]; [done|]. rewrite seq_S, map_app, fold_left_app, IH, Nat.mul_succ_r, fold_seq_app.
  cbn [map fold_left Nat.add]. destruct (fold_left _ (seq i (8 * n)) s) as [v X]. apply ROUNDS_8_fold.
Qed.

Variables loaded round : round_t.
Hypothesis rounds_ge : (16 <= rounds)%nat.
Hypothesis loaded_step : forall i v X, rstep loaded (v, X) i = (fips_step (nth i K 0) (nth i X 0) v, X).
Hypothesis round_step : forall i v X,
  let x := wrap w (sigma1 (X_at X (i + 14)) + X_at X (i + 9) + sigma0 (X_at X (i + 1)) + X_at X i) in
  rstep round (v, X) i = (fips_step (nth i K 0) x v, <[(i mod 16)%nat := x]> X).

Lemma schedule_rec M k : length M = 16%nat -> (k < rounds - 16)%nat ->
  let W j := nth j (fips_schedule M) 0 in
  W (16 + k)%nat = wrap w (sigma1 (W (k + 14)%nat) + W (k + 9)%nat + sigma0 (W (k + 1)%nat) + W k).
Proof.
  intros HM Hk. cbv zeta. unfold fips_schedule.
  rewrite (extend_rec fips_next (fun u => wrap w (sigma1 (u 14%nat) + u 9%nat + sigma0 (u 1%nat) + u 0%nat))); try done.
  - by rewrite !Nat.add_0_r.
  - intros W HW. unfold fips_next. do 2 f_equal; [f_equal; [f_equal; f_equal|f_equal]|]; f_equal; lia.
  - intros u v Huv. by rewrite !Huv by lia.
Qed.

(** The whole sequence of rounds, [X] starting as the block's words. *)
Lemma rounds_fips H M : length M = 16%nat ->
  (fold_left (rstep round) (seq 16 (rounds - 16)) (fold_left (rstep loaded) (seq 0 16) (get_regs H, M))).1 =
  fold_left (fun v t => fips_step (nth t K 0) (nth t (fips_schedule M) 0) v) (seq 0 rounds) (get_regs H).
Proof.
  intros HM.
  set (rs := fun s i => if decide (i < 16)%nat then rstep loaded s i else rstep round s i).
  assert (fold_left (rstep loaded) (seq 0 16) (get_regs H, M) = fold_left rs (seq 0 16) (get_regs H, M)) as ->.
  { apply fold_seq_ext. intros s j Hj. unfold rs. by rewrite decide_True by lia. }
  set (s16 := fold_left rs (seq 0 16) (get_regs H, M)).
  assert (fold_left (rstep round) (seq 16 (rounds - 16)) s16 = fold_left rs (seq (0 + 16) (rounds - 16)) s16) as ->.
  { apply fold_seq_ext. intros s j Hj. unfold rs. by rewrite decide_False by lia. }
  unfold s16. rewrite <-fold_seq_app. replace (16 + (rounds - 16))%nat with rounds by lia.
  apply (circ_rounds (fun t x v => fips_step (nth t K 0) x v)
    (fun u => wrap w (sigma1 (u 14%nat) + u 9%nat + sigma0 (u 1%nat) + u 0%nat))); [done|..].
  - intros u v Huv. by rewrite !Huv by lia.
  - intros k Hk. rewrite schedule_rec by (done || lia). by rewrite Nat.add_0_r.
  - intros i v X Hi. unfold rs. rewrite decide_True by lia. apply loaded_step.
  - intros i v X Hi HX. cbv zeta. unfold rs. rewrite decide_False by lia. rewrite round_step. by rewrite Nat.add_0_r.
  - done.
  - intros k Hk. unfold fips_schedule. by rewrite extend_old by lia.
Qed.
End Fips.
