(* ===== verification/Fips180.v ===== *)
(** FIPS 180-4, the SHA-2 part, from the standard alone: its functions on words,
    its constants computed from their definition (the fractional parts of the
    square and cube roots of the first primes) and its hash values. Nothing of
    sha256.c or sha512.c is used. *)

From S2P Require Import Prelude Md32 HashSpec Sha2Spec.

(** * Constants *)

(** The [k]-th root of [n], rounded down, bit by bit from bit [b - 1] on. *)
Fixpoint root_bits (k : Z) (b : nat) (n r : Z) : Z :=
  match b with
  | O => r
  | S b =>
      let r' := r + 2 ^ Z.of_nat b in
      root_bits k b n (if r' ^ k <=? n then r' else r)
  end.

Definition root (k n : Z) : Z := root_bits k 80 n 0.

Lemma root_bits_spec k b n : 0 < k -> forall r, 0 <= r -> r ^ k <= n < (r + 2 ^ Z.of_nat b) ^ k ->
  0 <= root_bits k b n r /\ root_bits k b n r ^ k <= n < (root_bits k b n r + 1) ^ k.
Proof.
  intros Hk. induction b as [|b IH]; intros r Hr Hn; cbn [root_bits]; [by change (2 ^ Z.of_nat 0) with 1 in Hn|].
  rewrite Nat2Z.inj_succ, Z.pow_succ_r in Hn by lia. pose proof (Z.pow_pos_nonneg 2 (Z.of_nat b)).
  cbv zeta. destruct (Z.leb_spec ((r + 2 ^ Z.of_nat b) ^ k) n) as [Hle|Hlt]; apply IH; try lia.
  replace (r + 2 ^ Z.of_nat b + 2 ^ Z.of_nat b) with (r + 2 * 2 ^ Z.of_nat b) by lia. lia.
Qed.

Lemma root_spec k n : 0 < k -> 0 <= n < 2 ^ (80 * k) -> root k n ^ k <= n < (root k n + 1) ^ k.
Proof.
  intros Hk Hn. unfold root.
  pose proof (root_bits_spec k 80 n Hk 0 (Z.le_refl 0)) as H. apply H.
  rewrite Z.pow_0_l, Z.add_0_l, <-Z.pow_mul_r by lia. exact Hn.
Qed.

Definition is_prime (n : Z) : bool := forallb (fun d => negb (n mod d =? 0)) (map Z.of_nat (seq 2 (Z.to_nat n - 2))).

(** The primes from number [i] on, counted from zero, [k] of them. *)
Definition primes (i k : nat) : list Z := take k (drop i (List.filter is_prime (map Z.of_nat (seq 2 500)))).

(** The first [w] bits of the fractional part of the [k]-th root of [p]. *)
Definition root_fraction (k w p : Z) : Z := root k (p * 2 ^ (k * w)) mod 2 ^ w.

(** Sections 4.2.2 and 4.2.3. *)
Definition fips_K256 : list Z := map (root_fraction 3 32) (primes 0 64).
Definition fips_K512 : list Z := map (root_fraction 3 64) (primes 0 80).

(** * Functions *)

Definition ROTR (w n x : Z) : Z := Z.lor (Z.shiftr x n) (wrap w (Z.shiftl x (w - n))).
Definition SHR (n x : Z) : Z := Z.shiftr x n.
Definition xor3 (a b c : Z) : Z := Z.lxor (Z.lxor a b) c.

Definition fips_Ch (w x y z : Z) : Z := Z.lxor (Z.land x y) (Z.land (wrap w (Z.lnot x)) z).
Definition fips_Maj (x y z : Z) : Z := xor3 (Z.land x y) (Z.land x z) (Z.land y z).

(** Section 4.1.2. *)
Definition fips_Sigma0_256 (x : Z) : Z := xor3 (ROTR 32 2 x) (ROTR 32 13 x) (ROTR 32 22 x).
Definition fips_Sigma1_256 (x : Z) : Z := xor3 (ROTR 32 6 x) (ROTR 32 11 x) (ROTR 32 25 x).
Definition fips_sigma0_256 (x : Z) : Z := xor3 (ROTR 32 7 x) (ROTR 32 18 x) (SHR 3 x).
Definition fips_sigma1_256 (x : Z) : Z := xor3 (ROTR 32 17 x) (ROTR 32 19 x) (SHR 10 x).

(** Section 4.1.3. *)
Definition fips_Sigma0_512 (x : Z) : Z := xor3 (ROTR 64 28 x) (ROTR 64 34 x) (ROTR 64 39 x).
Definition fips_Sigma1_512 (x : Z) : Z := xor3 (ROTR 64 14 x) (ROTR 64 18 x) (ROTR 64 41 x).
Definition fips_sigma0_512 (x : Z) : Z := xor3 (ROTR 64 1 x) (ROTR 64 8 x) (SHR 7 x).
Definition fips_sigma1_512 (x : Z) : Z := xor3 (ROTR 64 19 x) (ROTR 64 61 x) (SHR 6 x).

(** * Hash values *)

(** Section 6.2.2: one block, and the padded message block by block from [H0]. *)
Definition fips256_compress (H block : list Z) : list Z :=
  fips_compress 32 fips_Sigma0_256 fips_Sigma1_256 fips_sigma0_256 fips_sigma1_256 (fips_Ch 32) fips_Maj fips_K256 64 H
    (be_block block).

Definition fips256_hash (H0 m : list Z) : list Z :=
  let p := md_pad 64 true m in
  fold_left fips256_compress (chunks 64 (length p / 64) p) H0.

(** A block as sixteen big-endian words of 64 bits. *)
Definition be_block64 (b : list Z) : list Z := map (fun i => be_val (take 8 (drop (8 * i) b))) (seq 0 16).

(** Section 6.4.2. *)
Definition fips512 (H M : list Z) : list Z :=
  fips_compress 64 fips_Sigma0_512 fips_Sigma1_512 fips_sigma0_512 fips_sigma1_512 (fips_Ch 64) fips_Maj fips_K512 80 H M.

(** Padding to whole blocks, with a 128-bit length. *)
Definition sha512_pad (m : list Z) : list Z :=
  m ++ [0x80] ++ replicate (Z.to_nat ((- (blen m + 17)) mod 128)) 0 ++ be_bytes 16 (8 * blen m).

Definition fips512_hash (H0 m : list Z) : list Z :=
  let p := sha512_pad m in
  fold_left (fun H b => fips512 H (be_block64 b)) (chunks 128 (length p / 128) p) H0.

(** * The algorithms *)

(** Section 5.3: the square roots of the first eight primes; of the ninth to the
    sixteenth, the second 32 bits of their fractions for SHA-224 and the first 64
    for SHA-384; for SHA-512/256 a hash of its name from a masked value. *)
Definition fips_H256 : list Z := map (root_fraction 2 32) (primes 0 8).
Definition fips_H224 : list Z := map (fun p => root_fraction 2 64 p mod 2 ^ 32) (primes 8 8).
Definition fips_H512 : list Z := map (root_fraction 2 64) (primes 0 8).
Definition fips_H384 : list Z := map (root_fraction 2 64) (primes 8 8).
Definition fips_H512_256 : list Z :=
  fips512_hash (map (Z.lxor 0xa5a5a5a5a5a5a5a5) fips_H512) [83; 72; 65; 45; 53; 49; 50; 47; 50; 53; 54].

Definition fips_sha256 (m : list Z) : list Z := be_words 4 (fips256_hash fips_H256 m).
Definition fips_sha224 (m : list Z) : list Z := be_words 4 (take 7 (fips256_hash fips_H224 m)).
Definition fips_sha512 (m : list Z) : list Z := be_words 8 (fips512_hash fips_H512 m).
Definition fips_sha384 (m : list Z) : list Z := be_words 8 (take 6 (fips512_hash fips_H384 m)).
Definition fips_sha512_256 (m : list Z) : list Z := be_words 8 (take 4 (fips512_hash fips_H512_256 m)).
