(* ===== verification/Sha256.v ===== *)
(** crypto/fipsmodule/sha/sha256.c: SHA-224 and SHA-256, the portable block
    function. The macros are functions of the registers they name; a register
    that a macro assigns is rebound. *)

From S2P Require Import Prelude CryptoInternal Md32 HashSpec Sha2Spec Fips180.

Definition SHA224_DIGEST_LENGTH : Z := 28.
Definition SHA256_DIGEST_LENGTH : Z := 32.
Definition SHA256_CBLOCK : Z := 64.

Record SHA256_CTX := Sha256Ctx { md : md32_ctx; md_len : Z }.

Definition SHA224_Init : SHA256_CTX :=
  Sha256Ctx (md32_zero SHA256_CBLOCK
    [0xc1059ed8; 0x367cd507; 0x3070dd17; 0xf70e5939;
     0xffc00b31; 0x68581511; 0x64f98fa7; 0xbefa4fa4]) SHA224_DIGEST_LENGTH.

Definition SHA256_Init : SHA256_CTX :=
  Sha256Ctx (md32_zero SHA256_CBLOCK
    [0x6a09e667; 0xbb67ae85; 0x3c6ef372; 0xa54ff53a;
     0x510e527f; 0x9b05688c; 0x1f83d9ab; 0x5be0cd19]) SHA256_DIGEST_LENGTH.

Definition K256 : list Z :=
  0x428a2f98 :: 0x71374491 :: 0xb5c0fbcf :: 0xe9b5dba5 :: 0x3956c25b ::
  0x59f111f1 :: 0x923f82a4 :: 0xab1c5ed5 :: 0xd807aa98 :: 0x12835b01 ::
  0x243185be :: 0x550c7dc3 :: 0x72be5d74 :: 0x80deb1fe :: 0x9bdc06a7 ::
  0xc19bf174 :: 0xe49b69c1 :: 0xefbe4786 :: 0x0fc19dc6 :: 0x240ca1cc ::
  0x2de92c6f :: 0x4a7484aa :: 0x5cb0a9dc :: 0x76f988da :: 0x983e5152 ::
  0xa831c66d :: 0xb00327c8 :: 0xbf597fc7 :: 0xc6e00bf3 :: 0xd5a79147 ::
  0x06ca6351 :: 0x14292967 :: 0x27b70a85 :: 0x2e1b2138 :: 0x4d2c6dfc ::
  0x53380d13 :: 0x650a7354 :: 0x766a0abb :: 0x81c2c92e :: 0x92722c85 ::
  0xa2bfe8a1 :: 0xa81a664b :: 0xc24b8b70 :: 0xc76c51a3 :: 0xd192e819 ::
  0xd6990624 :: 0xf40e3585 :: 0x106aa070 :: 0x19a4c116 :: 0x1e376c08 ::
  0x2748774c :: 0x34b0bcb5 :: 0x391c0cb3 :: 0x4ed8aa4a :: 0x5b9cca4f ::
  0x682e6ff3 :: 0x748f82ee :: 0x78a5636f :: 0x84c87814 :: 0x8cc70208 ::
  0x90befffa :: 0xa4506ceb :: 0xbef9a3f7 :: 0xc67178f2 :: [].

Definition Sigma0 (x : Z) : Z :=
  Z.lxor (Z.lxor (CRYPTO_rotr_u32 x 2) (CRYPTO_rotr_u32 x 13)) (CRYPTO_rotr_u32 x 22).
Definition Sigma1 (x : Z) : Z :=
  Z.lxor (Z.lxor (CRYPTO_rotr_u32 x 6) (CRYPTO_rotr_u32 x 11)) (CRYPTO_rotr_u32 x 25).
Definition sigma0 (x : Z) : Z :=
  Z.lxor (Z.lxor (CRYPTO_rotr_u32 x 7) (CRYPTO_rotr_u32 x 18)) (Z.shiftr x 3).
Definition sigma1 (x : Z) : Z :=
  Z.lxor (Z.lxor (CRYPTO_rotr_u32 x 17) (CRYPTO_rotr_u32 x 19)) (Z.shiftr x 10).

Definition Ch (x y z : Z) : Z := Z.lxor (Z.land x y) (Z.land (u32 (Z.lnot x)) z).
Definition Maj (x y z : Z) : Z := Z.lxor (Z.lxor (Z.land x y) (Z.land x z)) (Z.land y z).

(** The registers [d] and [h] after the macro. *)
Definition ROUND_00_15 (i : nat) (T1 a b c d e f g h : Z) : Z * Z :=
  let T1 := u32 (T1 + u32 (u32 (u32 (h + Sigma1 e) + Ch e f g) + nth i K256 0)) in
  let h := u32 (Sigma0 a + Maj a b c) in
  let d := u32 (d + T1) in
  let h := u32 (h + T1) in
  (d, h).

Definition ROUND_16_63 (i : nat) (a b c d e f g h : Z) (X : list Z) : Z * Z * list Z :=
  let s0 := sigma0 (X_at X (i + 1)) in
  let s1 := sigma1 (X_at X (i + 14)) in
  let T1 := u32 (X_at X i + u32 (u32 (s0 + s1) + X_at X (i + 9))) in
  let X := <[(i mod 16)%nat := T1]> X in
  let '(d, h) := ROUND_00_15 i T1 a b c d e f g h in
  (d, h, X).

(** The first sixteen rounds take [T1] from the word just loaded. *)
Definition ROUND_LOADED (i : nat) (a b c d e f g h : Z) (X : list Z) : Z * Z * list Z :=
  let '(d, h) := ROUND_00_15 i (nth i X 0) a b c d e f g h in (d, h, X).

(** One iteration of the loop over blocks. *)
Definition sha256_block (state : list Z) (data : list Z) : list Z :=
  let s i := nth i state 0 in
  let v := (s 0%nat, s 1%nat, s 2%nat, s 3%nat, s 4%nat, s 5%nat, s 6%nat, s 7%nat) in
  let X := map (fun i => CRYPTO_load_u32_be (drop (4 * i) data)) (seq 0 16) in
  let '(v, X) := ROUNDS_8 ROUND_LOADED 0 v X in
  let '(v, X) := ROUNDS_8 ROUND_LOADED 8 v X in
  (* for (i = 16; i < 64; i += 8) *)
  let '(v, X) := fold_left (fun '(v, X) i => ROUNDS_8 ROUND_16_63 i v X) [16; 24; 32; 40; 48; 56]%nat (v, X) in
  let '(a, b, c, d, e, f, g, h) := v in
  [u32 (s 0%nat + a); u32 (s 1%nat + b); u32 (s 2%nat + c); u32 (s 3%nat + d);
   u32 (s 4%nat + e); u32 (s 5%nat + f); u32 (s 6%nat + g); u32 (s 7%nat + h)].

Definition sha256_block_data_order (state data : list Z) (num : Z) : list Z :=
  while_num sha256_block 64 (Z.to_nat num) state data.

Definition SHA256_TransformBlocks := sha256_block_data_order.

Definition SHA256_Transform (c : SHA256_CTX) (data : list Z) : SHA256_CTX :=
  Sha256Ctx (Md32Ctx (sha256_block_data_order (h (md c)) data 1) (Nl (md c)) (Nh (md c)) (Md32.data (md c)) (num (md c)))
    (md_len c).

Definition SHA256_Update (c : SHA256_CTX) (data : list Z) : SHA256_CTX :=
  Sha256Ctx (crypto_md32_update sha256_block_data_order SHA256_CBLOCK (md c) data) (md_len c).

Definition SHA224_Update := SHA256_Update.

(** [None] is the result 0; otherwise the bytes written at [out]. *)
Definition sha256_final_impl (c : SHA256_CTX) : option (list Z) * SHA256_CTX :=
  let m := crypto_md32_final sha256_block_data_order SHA256_CBLOCK (md c) true in
  let c := Sha256Ctx m (md_len c) in
  if SHA256_DIGEST_LENGTH <? md_len c then (None, c)
  else
    let out_words := Z.to_nat (md_len c / 4) in
    (Some (concat (map (fun i => CRYPTO_store_u32_be (nth i (h m) 0)) (seq 0 out_words))), c).

Definition SHA256_Final := sha256_final_impl.
Definition SHA224_Final := sha256_final_impl.

(** The context is wiped; only the digest remains. *)
Definition SHA256 (data : list Z) : option (list Z) := (SHA256_Final (SHA256_Update SHA256_Init data)).1.
Definition SHA224 (data : list Z) : option (list Z) := (SHA224_Final (SHA224_Update SHA224_Init data)).1.

(** * Its constants and functions are those of FIPS 180-4 *)

Lemma K256_fips : K256 = fips_K256.
Proof. vm_compute. reflexivity. Qed.

Lemma SHA256_Init_fips : h (md SHA256_Init) = fips_H256.
Proof. vm_compute. reflexivity. Qed.

Lemma SHA224_Init_fips : h (md SHA224_Init) = fips_H224.
Proof. vm_compute. reflexivity. Qed.

Example sha256_abc : SHA256 [97; 98; 99] = Some (be_bytes 32
  0xba7816bf8f01cfea414140de5dae2223b00361a396177a9cb410ff61f20015ad).
Proof. vm_compute. reflexivity. Qed.

(** * The portable block function computes it *)

Lemma ROUND_LOADED_step i v X :
  rstep ROUND_LOADED (v, X) i =
  (fips_step 32 Sigma0 Sigma1 Ch Maj (nth i K256 0) (nth i X 0) v, X).
Proof.
  destruct v as [[[[[[[a b] c] d] e] f] g] h].
  unfold rstep, ROUND_LOADED, ROUND_00_15, fips_step. cbv zeta. regs_eq.
Qed.

Lemma ROUND_16_63_step i v X :
  let x := u32 (sigma1 (X_at X (i + 14)) + X_at X (i + 9) + sigma0 (X_at X (i + 1)) + X_at X i) in
  rstep ROUND_16_63 (v, X) i =
  (fips_step 32 Sigma0 Sigma1 Ch Maj (nth i K256 0) x v, <[(i mod 16)%nat := x]> X).
Proof.
  destruct v as [[[[[[[a b] c] d] e] f] g] h]. cbv zeta.
  unfold rstep, ROUND_16_63, ROUND_00_15, fips_step. cbv zeta.
  set (x := u32 (sigma1 _ + _ + _ + _)).
  assert (u32 (X_at X i + u32 (u32 (sigma0 (X_at X (i + 1)) + sigma1 (X_at X (i + 14))) + X_at X (i + 9))) = x) as ->
    by (unfold x; wrap_sum).
  clearbody x. regs_eq.
Qed.

Lemma sha256_block_fips state data :
  sha256_block state data =
  fips_compress 32 Sigma0 Sigma1 sigma0 sigma1 Ch Maj K256 64 state
    (map (fun i => CRYPTO_load_u32_be (drop (4 * i) data)) (seq 0 16)).
Proof.
  unfold sha256_block. fold (get_regs state). set (X := map _ _).
  assert (length X = 16%nat) as HX by done. clearbody X. unfold fips_compress. cbv zeta.
  rewrite <-(rounds_fips 32 Sigma0 Sigma1 sigma0 sigma1 Ch Maj K256 64 ROUND_LOADED ROUND_16_63) by
    (done || lia || apply ROUND_LOADED_step || apply ROUND_16_63_step).
  rewrite ROUNDS_8_fold. destruct (fold_left _ (seq 0 8) _) as [v1 X1] eqn:E1. rewrite ROUNDS_8_fold.
  rewrite (fold_seq_app _ 0 8 8), E1. cbn [Nat.add Nat.sub]. destruct (fold_left _ (seq 8 8) _) as [v2 X2].
  change [16; 24; 32; 40; 48; 56]%nat with (map (fun k => 16 + 8 * k)%nat (seq 0 6)).
  rewrite ROUNDS_8_loop. change (8 * 6)%nat with 48%nat.
  by destruct (fold_left _ (seq 16 48) _) as [[[[[[[[? ?] ?] ?] ?] ?] ?] ?] ?].
Qed.

Lemma sha256_block_fips256 state b :
  bytes b -> length b = 64%nat -> sha256_block state b = fips256_compress state b.
Proof.
  intros Hb Hl. rewrite sha256_block_fips, load_be_block by assumption. unfold fips256_compress. rewrite <-K256_fips. reflexivity.
Qed.

Lemma sha256_block_take state data : sha256_block state (take 64 data) = sha256_block state data.
Proof.
  rewrite !sha256_block_fips. by rewrite (load_words_take CRYPTO_load_u32_be 4 64 data eq_refl load_u32_be_take).
Qed.

Lemma sha256_iter state data num :
  sha256_block_data_order state data num = iter_blocks sha256_block SHA256_CBLOCK state data num.
Proof. apply (while_num_iter sha256_block SHA256_CBLOCK). apply sha256_block_take. Qed.

#[export] Instance sha256_BlockFunction : BlockFunction sha256_block_data_order SHA256_CBLOCK.
Proof. apply (iter_blocks_BlockFunction _ sha256_block); [done|]. intros. apply sha256_iter. Qed.

(** Feeding a message to an initialised context. *)
Definition sha256_feed (c : SHA256_CTX) (pieces : list (list Z)) : SHA256_CTX := fold_left SHA256_Update pieces c.

Lemma sha256_feed_md c pieces :
  sha256_feed c pieces = Sha256Ctx (md32_updates sha256_block_data_order SHA256_CBLOCK (md c) pieces) (md_len c).
Proof.
  unfold sha256_feed, md32_updates. revert c. induction pieces as [|p pieces IH]; intros c; cbn; [by destruct c|].
  by rewrite IH.
Qed.

Lemma fips256_hash_words h0 m : words 32 8 h0 -> words 32 8 (fips256_hash h0 m).
Proof.
  intros Hh. apply fold_left_words; [done|]. intros H b. unfold fips256_compress, fips_compress. cbv zeta.
  destruct (fold_left _ _ _) as [[[[[[[? ?] ?] ?] ?] ?] ?] ?]. split; [done|].
  repeat constructor; by apply wrap_range.
Qed.

(** The digest is the first [len] bytes of the hash value. *)
Lemma sha256_final_feed h0 len pieces :
  bytes (concat pieces) -> Forall (fun p => blen p < 2 ^ 61) pieces -> words 32 8 h0 -> 0 <= len <= SHA256_DIGEST_LENGTH ->
  (sha256_final_impl (sha256_feed (Sha256Ctx (md32_zero SHA256_CBLOCK h0) len) pieces)).1 =
  Some (be_words 4 (take (Z.to_nat (len / 4)) (fips256_hash h0 (concat pieces)))).
Proof.
  intros Hb Hp Hh [Hlen0 Hlen]. unfold sha256_final_impl. rewrite sha256_feed_md. cbn [md md_len].
  rewrite (md32_collect sha256_block_data_order SHA256_CBLOCK h0) by done.
  rewrite (proj2 (Z.ltb_ge _ _)) by lia. cbn [fst].
  rewrite (md_hash_iter _ sha256_block fips256_compress SHA256_CBLOCK);
    [|done|done|intros; apply sha256_iter|apply sha256_block_fips256].
  f_equal. apply (store_words _ 32 4 _ 8).
  - apply CRYPTO_store_u32_be_spec.
  - by apply fips256_hash_words.
  - unfold SHA256_DIGEST_LENGTH in Hlen. clear -Hlen Hlen0. zdiv.
Qed.
