(* ===== verification/Sha1.v ===== *)
(** crypto/fipsmodule/sha/sha1.c: SHA-1. The macros are functions of the
    registers they name and of the sixteen words [X]; they return the registers
    and the words they assign. The eighty macro calls of the block function are
    written out as in the source; the sixteen loads, which the source interleaves
    with the first rounds, come first. *)

From S2P Require Import Prelude CryptoInternal Md32 HashSpec.

Definition SHA_CBLOCK : Z := 64.
Definition SHA_DIGEST_LENGTH : Z := 20.

(** [SHA_CTX] is the collector's context. *)
Definition SHA1_Init : md32_ctx :=
  md32_zero SHA_CBLOCK [0x67452301; 0xefcdab89; 0x98badcfe; 0x10325476; 0xc3d2e1f0].

Definition K_00_19 : Z := 0x5a827999.
Definition K_20_39 : Z := 0x6ed9eba1.
Definition K_40_59 : Z := 0x8f1bbcdc.
Definition K_60_79 : Z := 0xca62c1d6.

Definition F_00_19 (b c d : Z) : Z := Z.lxor (Z.land (Z.lxor c d) b) d.
Definition F_20_39 (b c d : Z) : Z := Z.lxor (Z.lxor b c) d.
Definition F_40_59 (b c d : Z) : Z := Z.lor (Z.land b c) (Z.land (Z.lor b c) d).
Definition F_60_79 (b c d : Z) : Z := F_20_39 b c d.

(** [X(i)]. *)
Definition XX (X : list Z) (i : nat) : Z := nth i X 0.

(** The value assigned to both [a] and [ix]. *)
Definition Xupdate (ia ib ic id : Z) : Z :=
  CRYPTO_rotl_u32 (Z.lxor (Z.lxor (Z.lxor ia ib) ic) id) 1.

(** Each returns [f], [b] and the words. [i] is not used by the macros. *)
Definition BODY_00_15 (i : nat) (a b c d e f : Z) (X : list Z) (xi : nat) : Z * Z * list Z :=
  let f := u32 (u32 (XX X xi + e) + K_00_19 + CRYPTO_rotl_u32 a 5 + F_00_19 b c d) in
  let b := CRYPTO_rotl_u32 b 30 in
  (f, b, X).

Definition BODY_16_19 (i : nat) (a b c d e f : Z) (X : list Z) (xi xa xb xc xd : nat) : Z * Z * list Z :=
  let f := Xupdate (XX X xa) (XX X xb) (XX X xc) (XX X xd) in
  let X := <[xi := f]> X in
  let f := u32 (f + (e + K_00_19 + CRYPTO_rotl_u32 a 5 + F_00_19 b c d)) in
  let b := CRYPTO_rotl_u32 b 30 in
  (f, b, X).

Definition BODY_20_31 (i : nat) (a b c d e f : Z) (X : list Z) (xi xa xb xc xd : nat) : Z * Z * list Z :=
  let f := Xupdate (XX X xa) (XX X xb) (XX X xc) (XX X xd) in
  let X := <[xi := f]> X in
  let f := u32 (f + (e + K_20_39 + CRYPTO_rotl_u32 a 5 + F_20_39 b c d)) in
  let b := CRYPTO_rotl_u32 b 30 in
  (f, b, X).

Definition BODY_32_39 (i : nat) (a b c d e f : Z) (X : list Z) (xa xb xc xd : nat) : Z * Z * list Z :=
  let f := Xupdate (XX X xa) (XX X xb) (XX X xc) (XX X xd) in
  let X := <[xa := f]> X in
  let f := u32 (f + (e + K_20_39 + CRYPTO_rotl_u32 a 5 + F_20_39 b c d)) in
  let b := CRYPTO_rotl_u32 b 30 in
  (f, b, X).

Definition BODY_40_59 (i : nat) (a b c d e f : Z) (X : list Z) (xa xb xc xd : nat) : Z * Z * list Z :=
  let f := Xupdate (XX X xa) (XX X xb) (XX X xc) (XX X xd) in
  let X := <[xa := f]> X in
  let f := u32 (f + (e + K_40_59 + CRYPTO_rotl_u32 a 5 + F_40_59 b c d)) in
  let b := CRYPTO_rotl_u32 b 30 in
  (f, b, X).

Definition BODY_60_79 (i : nat) (a b c d e f : Z) (X : list Z) (xa xb xc xd : nat) : Z * Z * list Z :=
  let f := Xupdate (XX X xa) (XX X xb) (XX X xc) (XX X xd) in
  let X := <[xa := f]> X in
  let f := u32 (u32 (XX X xa + e) + K_60_79 + CRYPTO_rotl_u32 a 5 + F_60_79 b c d) in
  let b := CRYPTO_rotl_u32 b 30 in
  (f, b, X).

(** One iteration of the loop over blocks. [T] is assigned before it is read. *)
Definition sha1_block (state data : list Z) : list Z :=
  let s i := nth i state 0 in
  let A := s 0%nat in
  let B := s 1%nat in
  let C := s 2%nat in
  let D := s 3%nat in
  let E := s 4%nat in
  let T := 0 in
  let X := map (fun i => CRYPTO_load_u32_be (drop (4 * i) data)) (seq 0 16) in
  let '(T, B, X) := BODY_00_15 0 A B C D E T X 0 in
  let '(E, A, X) := BODY_00_15 1 T A B C D E X 1 in
  let '(D, T, X) := BODY_00_15 2 E T A B C D X 2 in
  let '(C, E, X) := BODY_00_15 3 D E T A B C X 3 in
  let '(B, D, X) := BODY_00_15 4 C D E T A B X 4 in
  let '(A, C, X) := BODY_00_15 5 B C D E T A X 5 in
  let '(T, B, X) := BODY_00_15 6 A B C D E T X 6 in
  let '(E, A, X) := BODY_00_15 7 T A B C D E X 7 in
  let '(D, T, X) := BODY_00_15 8 E T A B C D X 8 in
  let '(C, E, X) := BODY_00_15 9 D E T A B C X 9 in
  let '(B, D, X) := BODY_00_15 10 C D E T A B X 10 in
  let '(A, C, X) := BODY_00_15 11 B C D E T A X 11 in
  let '(T, B, X) := BODY_00_15 12 A B C D E T X 12 in
  let '(E, A, X) := BODY_00_15 13 T A B C D E X 13 in
  let '(D, T, X) := BODY_00_15 14 E T A B C D X 14 in
  let '(C, E, X) := BODY_00_15 15 D E T A B C X 15 in
  let '(B, D, X) := BODY_16_19 16 C D E T A B X 0 0 2 8 13 in
  let '(A, C, X) := BODY_16_19 17 B C D E T A X 1 1 3 9 14 in
  let '(T, B, X) := BODY_16_19 18 A B C D E T X 2 2 4 10 15 in
  let '(E, A, X) := BODY_16_19 19 T A B C D E X 3 3 5 11 0 in
  let '(D, T, X) := BODY_20_31 20 E T A B C D X 4 4 6 12 1 in
  let '(C, E, X) := BODY_20_31 21 D E T A B C X 5 5 7 13 2 in
  let '(B, D, X) := BODY_20_31 22 C D E T A B X 6 6 8 14 3 in
  let '(A, C, X) := BODY_20_31 23 B C D E T A X 7 7 9 15 4 in
  let '(T, B, X) := BODY_20_31 24 A B C D E T X 8 8 10 0 5 in
  let '(E, A, X) := BODY_20_31 25 T A B C D E X 9 9 11 1 6 in
  let '(D, T, X) := BODY_20_31 26 E T A B C D X 10 10 12 2 7 in
  let '(C, E, X) := BODY_20_31 27 D E T A B C X 11 11 13 3 8 in
  let '(B, D, X) := BODY_20_31 28 C D E T A B X 12 12 14 4 9 in
  let '(A, C, X) := BODY_20_31 29 B C D E T A X 13 13 15 5 10 in
  let '(T, B, X) := BODY_20_31 30 A B C D E T X 14 14 0 6 11 in
  let '(E, A, X) := BODY_20_31 31 T A B C D E X 15 15 1 7 12 in
  let '(D, T, X) := BODY_32_39 32 E T A B C D X 0 2 8 13 in
  let '(C, E, X) := BODY_32_39 33 D E T A B C X 1 3 9 14 in
  let '(B, D, X) := BODY_32_39 34 C D E T A B X 2 4 10 15 in
  let '(A, C, X) := BODY_32_39 35 B C D E T A X 3 5 11 0 in
  let '(T, B, X) := BODY_32_39 36 A B C D E T X 4 6 12 1 in
  let '(E, A, X) := BODY_32_39 37 T A B C D E X 5 7 13 2 in
  let '(D, T, X) := BODY_32_39 38 E T A B C D X 6 8 14 3 in
  let '(C, E, X) := BODY_32_39 39 D E T A B C X 7 9 15 4 in
  let '(B, D, X) := BODY_40_59 40 C D E T A B X 8 10 0 5 in
  let '(A, C, X) := BODY_40_59 41 B C D E T A X 9 11 1 6 in
  let '(T, B, X) := BODY_40_59 42 A B C D E T X 10 12 2 7 in
  let '(E, A, X) := BODY_40_59 43 T A B C D E X 11 13 3 8 in
  let '(D, T, X) := BODY_40_59 44 E T A B C D X 12 14 4 9 in
  let '(C, E, X) := BODY_40_59 45 D E T A B C X 13 15 5 10 in
  let '(B, D, X) := BODY_40_59 46 C D E T A B X 14 0 6 11 in
  let '(A, C, X) := BODY_40_59 47 B C D E T A X 15 1 7 12 in
  let '(T, B, X) := BODY_40_59 48 A B C D E T X 0 2 8 13 in
  let '(E, A, X) := BODY_40_59 49 T A B C D E X 1 3 9 14 in
  let '(D, T, X) := BODY_40_59 50 E T A B C D X 2 4 10 15 in
  let '(C, E, X) := BODY_40_59 51 D E T A B C X 3 5 11 0 in
  let '(B, D, X) := BODY_40_59 52 C D E T A B X 4 6 12 1 in
  let '(A, C, X) := BODY_40_59 53 B C D E T A X 5 7 13 2 in
  let '(T, B, X) := BODY_40_59 54 A B C D E T X 6 8 14 3 in
  let '(E, A, X) := BODY_40_59 55 T A B C D E X 7 9 15 4 in
  let '(D, T, X) := BODY_40_59 56 E T A B C D X 8 10 0 5 in
  let '(C, E, X) := BODY_40_59 57 D E T A B C X 9 11 1 6 in
  let '(B, D, X) := BODY_40_59 58 C D E T A B X 10 12 2 7 in
  let '(A, C, X) := BODY_40_59 59 B C D E T A X 11 13 3 8 in
  let '(T, B, X) := BODY_60_79 60 A B C D E T X 12 14 4 9 in
  let '(E, A, X) := BODY_60_79 61 T A B C D E X 13 15 5 10 in
  let '(D, T, X) := BODY_60_79 62 E T A B C D X 14 0 6 11 in
  let '(C, E, X) := BODY_60_79 63 D E T A B C X 15 1 7 12 in
  let '(B, D, X) := BODY_60_79 64 C D E T A B X 0 2 8 13 in
  let '(A, C, X) := BODY_60_79 65 B C D E T A X 1 3 9 14 in
  let '(T, B, X) := BODY_60_79 66 A B C D E T X 2 4 10 15 in
  let '(E, A, X) := BODY_60_79 67 T A B C D E X 3 5 11 0 in
  let '(D, T, X) := BODY_60_79 68 E T A B C D X 4 6 12 1 in
  let '(C, E, X) := BODY_60_79 69 D E T A B C X 5 7 13 2 in
  let '(B, D, X) := BODY_60_79 70 C D E T A B X 6 8 14 3 in
  let '(A, C, X) := BODY_60_79 71 B C D E T A X 7 9 15 4 in
  let '(T, B, X) := BODY_60_79 72 A B C D E T X 8 10 0 5 in
  let '(E, A, X) := BODY_60_79 73 T A B C D E X 9 11 1 6 in
  let '(D, T, X) := BODY_60_79 74 E T A B C D X 10 12 2 7 in
  let '(C, E, X) := BODY_60_79 75 D E T A B C X 11 13 3 8 in
  let '(B, D, X) := BODY_60_79 76 C D E T A B X 12 14 4 9 in
  let '(A, C, X) := BODY_60_79 77 B C D E T A X 13 15 5 10 in
  let '(T, B, X) := BODY_60_79 78 A B C D E T X 14 0 6 11 in
  let '(E, A, X) := BODY_60_79 79 T A B C D E X 15 1 7 12 in
  [Z.land (u32 (s 0%nat + E)) 0xffffffff; Z.land (u32 (s 1%nat + T)) 0xffffffff;
   Z.land (u32 (s 2%nat + A)) 0xffffffff; Z.land (u32 (s 3%nat + B)) 0xffffffff;
   Z.land (u32 (s 4%nat + C)) 0xffffffff].

(** The loop tests [--num == 0] at its end, on a [size_t]. *)
Definition sha1_block_data_order (state data : list Z) (num : Z) : list Z :=
  while_num sha1_block 64 (Z.to_nat (if num =? 0 then 2 ^ 64 else num)) state data.

Definition SHA1_Transform (c : md32_ctx) (data : list Z) : md32_ctx :=
  Md32Ctx (sha1_block_data_order (h c) data 1) (Nl c) (Nh c) (Md32.data c) (num c).

Definition SHA1_Update (c : md32_ctx) (data : list Z) : md32_ctx :=
  crypto_md32_update sha1_block_data_order SHA_CBLOCK c data.

(** The bytes written at [out] and the context. *)
Definition SHA1_Final (c : md32_ctx) : list Z * md32_ctx :=
  let c := crypto_md32_final sha1_block_data_order SHA_CBLOCK c true in
  let s i := CRYPTO_store_u32_be (nth i (h c) 0) in
  (s 0%nat ++ s 1%nat ++ s 2%nat ++ s 3%nat ++ s 4%nat, c).

Definition SHA1 (data : list Z) : list Z := (SHA1_Final (SHA1_Update SHA1_Init data)).1.

Example sha1_abc : SHA1 [97; 98; 99] = be_bytes 20 0xa9993e364706816aba3e25717850c26c9cd0d89d.
Proof. vm_compute. reflexivity. Qed.

(** * FIPS 180-4, section 6.1 *)

(** [f_t]; the complement in [Ch] is cut off by the conjunction. *)
Definition fips1_f (t : nat) (x y z : Z) : Z :=
  if (t <? 20)%nat then Z.lxor (Z.land x y) (Z.land (Z.lnot x) z)
  else if (t <? 40)%nat then Z.lxor (Z.lxor x y) z
  else if (t <? 60)%nat then Z.lxor (Z.lxor (Z.land x y) (Z.land x z)) (Z.land y z)
  else Z.lxor (Z.lxor x y) z.

Definition fips1_K (t : nat) : Z :=
  if (t <? 20)%nat then 0x5a827999 else if (t <? 40)%nat then 0x6ed9eba1
  else if (t <? 60)%nat then 0x8f1bbcdc else 0xca62c1d6.

Definition fips1_step (t : nat) (Wt : Z) (v : Z * Z * Z * Z * Z) : Z * Z * Z * Z * Z :=
  let '(a, b, c, d, e) := v in
  (u32 (CRYPTO_rotl_u32 a 5 + fips1_f t b c d + e + fips1_K t + Wt), a, CRYPTO_rotl_u32 b 30, c, d).

Definition fips1_next (W : list Z) : Z :=
  let t := length W in
  CRYPTO_rotl_u32 (Z.lxor (Z.lxor (Z.lxor (nth (t - 3) W 0) (nth (t - 8) W 0)) (nth (t - 14) W 0)) (nth (t - 16) W 0)) 1.

Definition fips1_schedule (M : list Z) : list Z := extend fips1_next 64 M.

Definition fips1_compress (H M : list Z) : list Z :=
  let W := fips1_schedule M in
  let '(a, b, c, d, e) := fold_left (fun v t => fips1_step t (nth t W 0) v) (seq 0 80)
    (nth 0 H 0, nth 1 H 0, nth 2 H 0, nth 3 H 0, nth 4 H 0) in
  [u32 (nth 0 H 0 + a); u32 (nth 1 H 0 + b); u32 (nth 2 H 0 + c); u32 (nth 3 H 0 + d); u32 (nth 4 H 0 + e)].

(** The hash value of a message. *)
Definition fips1_hash (m : list Z) : list Z :=
  let p := md_pad SHA_CBLOCK true m in
  fold_left (fun H b => fips1_compress H (be_block b)) (chunks 64 (length p / 64) p)
    [0x67452301; 0xefcdab89; 0x98badcfe; 0x10325476; 0xc3d2e1f0].

(** * The unrolled rounds *)

Definition regs6 : Type := Z * Z * Z * Z * Z * Z.

(** The macro call of round [i]. *)
Definition sha1_body (i : nat) (a b c d e f : Z) (X : list Z) : Z * Z * list Z :=
  let x k := ((i + k) mod 16)%nat in
  if (i <? 16)%nat then BODY_00_15 i a b c d e f X i
  else if (i <? 20)%nat then BODY_16_19 i a b c d e f X (x 0%nat) (x 0%nat) (x 2%nat) (x 8%nat) (x 13%nat)
  else if (i <? 32)%nat then BODY_20_31 i a b c d e f X (x 0%nat) (x 0%nat) (x 2%nat) (x 8%nat) (x 13%nat)
  else if (i <? 40)%nat then BODY_32_39 i a b c d e f X (x 0%nat) (x 2%nat) (x 8%nat) (x 13%nat)
  else if (i <? 60)%nat then BODY_40_59 i a b c d e f X (x 0%nat) (x 2%nat) (x 8%nat) (x 13%nat)
  else BODY_60_79 i a b c d e f X (x 0%nat) (x 2%nat) (x 8%nat) (x 13%nat).

(** The call, and the rotation of the names for the next one. *)
Definition sha1_rs (s : regs6 * list Z) (i : nat) : regs6 * list Z :=
  let '(a, b, c, d, e, f, X) := s in
  let '(f, b, X) := sha1_body i a b c d e f X in
  (f, a, b, c, d, e, X).

Definition add_regs1 (H : list Z) (v : Z * Z * Z * Z * Z) : list Z :=
  let '(a, b, c, d, e) := v in
  [u32 (nth 0 H 0 + a); u32 (nth 1 H 0 + b); u32 (nth 2 H 0 + c); u32 (nth 3 H 0 + d); u32 (nth 4 H 0 + e)].

Lemma sha1_rs_cons i l a b c d e f X :
  fold_left sha1_rs (i :: l) (a, b, c, d, e, f, X) =
  let '(f, b, X) := sha1_body i a b c d e f X in fold_left sha1_rs l (f, a, b, c, d, e, X).
Proof. cbn [fold_left]. unfold sha1_rs at 2. by destruct (sha1_body _ _ _ _ _ _ _ _) as [[? ?] ?]. Qed.

Lemma land_u32 z : Z.land (u32 z) 0xffffffff = u32 z.
Proof. change 0xffffffff with (Z.ones 32). rewrite land_ones_wrap by lia. by apply wrap_wrap. Qed.

Lemma sha1_block_unroll state data :
  sha1_block state data =
  let '(a, b, c, d, e, f, X) := fold_left sha1_rs (seq 0 80)
    (nth 0 state 0, nth 1 state 0, nth 2 state 0, nth 3 state 0, nth 4 state 0, 0,
     map (fun i => CRYPTO_load_u32_be (drop (4 * i) data)) (seq 0 16)) in
  add_regs1 state (a, b, c, d, e).
Proof.
  unfold sha1_block. cbv zeta. set (X := map _ _). clearbody X.
  cbn [seq].
  do 80 (rewrite sha1_rs_cons;
    match goal with |- context [sha1_body ?i ?a ?b ?c ?d ?e ?f ?X] =>
      let t := eval cbv [sha1_body Nat.ltb Nat.leb Nat.add Nat.modulo Nat.divmod Nat.sub snd] in (sha1_body i a b c d e f X) in
      change (sha1_body i a b c d e f X) with t;
      destruct t as [[? ?] ?]
     end; cbv beta iota).
  cbn [fold_left]. by rewrite !land_u32.
Qed.

(** * They are the standard's *)

Lemma F_00_19_Ch b c d : F_00_19 b c d = Z.lxor (Z.land b c) (Z.land (Z.lnot b) d).
Proof.
  apply Z.bits_inj'. intros i Hi. unfold F_00_19. rewrite !Z.lxor_spec, !Z.land_spec, Z.lxor_spec, Z.lnot_spec by done.
  by destruct (Z.testbit b i), (Z.testbit c i), (Z.testbit d i).
Qed.

Lemma F_40_59_Maj b c d : F_40_59 b c d = Z.lxor (Z.lxor (Z.land b c) (Z.land b d)) (Z.land c d).
Proof.
  apply Z.bits_inj'. intros i Hi. unfold F_40_59. rewrite !Z.lor_spec, !Z.lxor_spec, !Z.land_spec, Z.lor_spec.
  by destruct (Z.testbit b i), (Z.testbit c i), (Z.testbit d i).
Qed.

Ltac regs6_eq :=
  unfold K_00_19, K_20_39, K_40_59, K_60_79;
  match goal with
  | |- (?x, _, _, _, _, _, _) = (?y, _, _, _, _, _, _) => assert (x = y) as ->; [wrap_sum|reflexivity]
  end.

(** A round with its scratch register. *)
Definition step6 (t : nat) (Wt : Z) (v : regs6) : regs6 :=
  let '(a, b, c, d, e, f) := v in
  let '(a', b', c', d', e') := fips1_step t Wt (a, b, c, d, e) in (a', b', c', d', e', e).

Definition next_word (u : nat -> Z) : Z :=
  CRYPTO_rotl_u32 (Z.lxor (Z.lxor (Z.lxor (u 13%nat) (u 8%nat)) (u 2%nat)) (u 0%nat)) 1.

Lemma sha1_rs_loaded i v X : (i < 16)%nat -> sha1_rs (v, X) i = (step6 i (nth i X 0) v, X).
Proof.
  intros Hi. destruct v as [[[[[a b] c] d] e] f]. unfold sha1_rs, sha1_body, step6, fips1_step.
  rewrite (proj2 (Nat.ltb_lt i 16)) by lia. unfold BODY_00_15, XX, fips1_f, fips1_K.
  rewrite (proj2 (Nat.ltb_lt i 20)) by lia. rewrite F_00_19_Ch.
  regs6_eq.
Qed.

Lemma sha1_rs_round i v X : (16 <= i < 80)%nat -> length X = 16%nat ->
  let x := next_word (fun j => X_at X (i + j)) in
  sha1_rs (v, X) i = (step6 i x v, <[(i mod 16)%nat := x]> X).
Proof.
  intros Hi HX. cbv zeta. destruct v as [[[[[a b] c] d] e] f].
  assert (forall k, XX X ((i + k) mod 16) = X_at X (i + k)) as Hx by done.
  assert (nth ((i + 0) mod 16) (<[((i + 0) mod 16)%nat := next_word (fun j => X_at X (i + j))]> X) 0 =
    next_word (fun j => X_at X (i + j))) as Hnth.
  { rewrite nth_lookup, list_lookup_insert_eq; [done|]. rewrite HX. apply Nat.mod_upper_bound. lia. }
  assert (Xupdate (X_at X (i + 0)) (X_at X (i + 2)) (X_at X (i + 8)) (X_at X (i + 13)) = next_word (fun j => X_at X (i + j))) as Hu.
  { unfold Xupdate, next_word. f_equal. apply Z.bits_inj'. intros k _. rewrite !Z.lxor_spec.
    by destruct (Z.testbit _ k), (Z.testbit _ k), (Z.testbit _ k), (Z.testbit _ k). }
  unfold sha1_rs, sha1_body, step6, fips1_step, fips1_f, fips1_K.
  unfold BODY_16_19, BODY_20_31, BODY_32_39, BODY_40_59, BODY_60_79. rewrite !Hx, !Hu. unfold XX. rewrite Hnth.
  unfold F_60_79, F_20_39. rewrite F_00_19_Ch, F_40_59_Maj, Nat.add_0_r.
  rewrite (proj2 (Nat.ltb_ge i 16)) by lia. set (x := next_word _). clearbody x.
  destruct (Nat.ltb_spec i 20); [regs6_eq|].
  destruct (Nat.ltb_spec i 32), (Nat.ltb_spec i 40); try lia; [regs6_eq|regs6_eq|].
  destruct (Nat.ltb_spec i 60); regs6_eq.
Qed.

Lemma fips1_schedule_rec M k : length M = 16%nat -> (16 + k < 80)%nat ->
  nth (16 + k) (fips1_schedule M) 0 = next_word (fun j => nth (k + j) (fips1_schedule M) 0).
Proof.
  intros HM Hk. apply (extend_rec fips1_next next_word); [| |done|lia].
  - intros W HW. unfold fips1_next, next_word.
    rewrite (Nat.add_0_r (length W - 16)). repeat (f_equal; try lia).
  - intros u v Huv. unfold next_word. by rewrite !Huv by lia.
Qed.

Lemma sha1_block_fips state data :
  sha1_block state data =
  fips1_compress state (map (fun i => CRYPTO_load_u32_be (drop (4 * i) data)) (seq 0 16)).
Proof.
  rewrite sha1_block_unroll. set (M := map _ _). assert (length M = 16%nat) as HM by done. clearbody M.
  pose proof (circ_rounds step6 next_word (fun t => nth t (fips1_schedule M) 0) 80 sha1_rs ltac:(lia)) as H.
  specialize (H ltac:(intros u v Huv; unfold next_word; by rewrite !Huv by lia)).
  specialize (H (fun k Hk => fips1_schedule_rec M k HM Hk) (fun i v X Hi => sha1_rs_loaded i v X Hi)
    (fun i v X Hi HX => sha1_rs_round i v X Hi HX)).
  specialize (H (nth 0 state 0, nth 1 state 0, nth 2 state 0, nth 3 state 0, nth 4 state 0, 0) M HM).
  specialize (H ltac:(intros k Hk; unfold fips1_schedule; by rewrite extend_old by lia)).
  destruct (fold_left sha1_rs _ _) as [[[[[[a b] c] d] e] f] X]. cbn [fst] in H.
  unfold fips1_compress. cbv zeta.
  assert ((a, b, c, d, e) = fold_left (fun v t => fips1_step t (nth t (fips1_schedule M) 0) v) (seq 0 80)
    (nth 0 state 0, nth 1 state 0, nth 2 state 0, nth 3 state 0, nth 4 state 0)) as <-; [|done].
  rewrite <-(fold_left_proj (fun v : regs6 => v.1) (fun v t => step6 t (nth t (fips1_schedule M) 0) v) _ _
    (nth 0 state 0, nth 1 state 0, nth 2 state 0, nth 3 state 0, nth 4 state 0, 0)).
  - by rewrite <-H.
  - intros [[[[[? ?] ?] ?] ?] ?] t. done.
Qed.

Lemma sha1_block_take state data : sha1_block state (take 64 data) = sha1_block state data.
Proof. rewrite !sha1_block_fips. by rewrite (load_words_take CRYPTO_load_u32_be 4 64 data eq_refl load_u32_be_take). Qed.

Lemma sha1_iter state data num : 0 < num ->
  sha1_block_data_order state data num = iter_blocks sha1_block SHA_CBLOCK state data num.
Proof.
  intros Hn. unfold sha1_block_data_order. rewrite (proj2 (Z.eqb_neq num 0)) by lia.
  apply (while_num_iter sha1_block SHA_CBLOCK). apply sha1_block_take.
Qed.

#[export] Instance sha1_BlockFunction : BlockFunction sha1_block_data_order SHA_CBLOCK.
Proof. apply (iter_blocks_BlockFunction _ sha1_block); [done|apply sha1_iter]. Qed.

Lemma fips1_hash_words m : words 32 5 (fips1_hash m).
Proof.
  apply fold_left_words; [by repeat constructor|]. intros H b. unfold fips1_compress. cbv zeta.
  destruct (fold_left _ _ _) as [[[[? ?] ?] ?] ?]. split; [done|]. repeat constructor; by apply wrap_range.
Qed.

(** Feeding a message to an initialised context. *)
Definition sha1_feed (pieces : list (list Z)) : md32_ctx := fold_left SHA1_Update pieces SHA1_Init.

Lemma sha1_final_feed pieces :
  bytes (concat pieces) -> Forall (fun p => blen p < 2 ^ 61) pieces ->
  (SHA1_Final (sha1_feed pieces)).1 = be_words 4 (fips1_hash (concat pieces)).
Proof.
  intros Hb Hp. unfold SHA1_Final. cbv zeta. cbn [fst].
  change (sha1_feed pieces) with (md32_updates sha1_block_data_order SHA_CBLOCK SHA1_Init pieces).
  unfold SHA1_Init. rewrite (md32_collect sha1_block_data_order SHA_CBLOCK) by assumption.
  rewrite (md_hash_iter _ sha1_block (fun H b => fips1_compress H (be_block b)) SHA_CBLOCK);
    [|done|done|apply sha1_iter|].
  - change (fold_left _ _ _) with (fips1_hash (concat pieces)).
    pose proof (fips1_hash_words (concat pieces)) as Hw. set (H := fips1_hash _) in *. clearbody H.
    pose proof (store_words CRYPTO_store_u32_be 32 4 5 5 H CRYPTO_store_u32_be_spec Hw (le_n 5)) as E.
    rewrite take_ge in E by (rewrite (proj1 Hw); lia). rewrite <-E. cbn [seq map concat]. by rewrite app_nil_r.
  - intros st b Hbb Hl. rewrite sha1_block_fips, load_be_block by assumption. reflexivity.
Qed.
