(* ===== verification/Md5.v ===== *)
(** crypto/fipsmodule/md5/md5.c: MD5. The macros are functions of the registers
    they name and return the one they assign; the sixty-four macro calls of the
    block function are written out as in the source. *)

From S2P Require Import Prelude CryptoInternal Md32 HashSpec.

Definition MD5_CBLOCK : Z := 64.

(** [MD5_CTX] is the collector's context. *)
Definition MD5_Init : md32_ctx := md32_zero MD5_CBLOCK [0x67452301; 0xefcdab89; 0x98badcfe; 0x10325476].

Definition F (b c d : Z) : Z := Z.lxor (Z.land (Z.lxor c d) b) d.
Definition G (b c d : Z) : Z := Z.lxor (Z.land (Z.lxor b c) d) c.
Definition H (b c d : Z) : Z := Z.lxor (Z.lxor b c) d.
Definition I (b c d : Z) : Z := Z.lxor (Z.lor (u32 (Z.lnot d)) b) c.

Definition R0 (a b c d k s t : Z) : Z :=
  let a := u32 (a + (k + t + F b c d)) in
  let a := CRYPTO_rotl_u32 a s in
  u32 (a + b).

Definition R1 (a b c d k s t : Z) : Z :=
  let a := u32 (a + (k + t + G b c d)) in
  let a := CRYPTO_rotl_u32 a s in
  u32 (a + b).

Definition R2 (a b c d k s t : Z) : Z :=
  let a := u32 (a + (k + t + H b c d)) in
  let a := CRYPTO_rotl_u32 a s in
  u32 (a + b).

Definition R3 (a b c d k s t : Z) : Z :=
  let a := u32 (a + (k + t + I b c d)) in
  let a := CRYPTO_rotl_u32 a s in
  u32 (a + b).

(** The macro calls of one block. The loads, which the source interleaves with
    the first round, come before: [X] are the sixteen words. *)
Definition md5_rounds (X : nat -> Z) (A B C D : Z) : regs4 :=
  let '(A, B, C, D) := ROUND_4 R0 A B C D
    (X 0%nat) 7 0xd76aa478 (X 1%nat) 12 0xe8c7b756 (X 2%nat) 17 0x242070db (X 3%nat) 22 0xc1bdceee in
  let '(A, B, C, D) := ROUND_4 R0 A B C D
    (X 4%nat) 7 0xf57c0faf (X 5%nat) 12 0x4787c62a (X 6%nat) 17 0xa8304613 (X 7%nat) 22 0xfd469501 in
  let '(A, B, C, D) := ROUND_4 R0 A B C D
    (X 8%nat) 7 0x698098d8 (X 9%nat) 12 0x8b44f7af (X 10%nat) 17 0xffff5bb1 (X 11%nat) 22 0x895cd7be in
  let '(A, B, C, D) := ROUND_4 R0 A B C D
    (X 12%nat) 7 0x6b901122 (X 13%nat) 12 0xfd987193 (X 14%nat) 17 0xa679438e (X 15%nat) 22 0x49b40821 in
  let '(A, B, C, D) := ROUND_4 R1 A B C D
    (X 1%nat) 5 0xf61e2562 (X 6%nat) 9 0xc040b340 (X 11%nat) 14 0x265e5a51 (X 0%nat) 20 0xe9b6c7aa in
  let '(A, B, C, D) := ROUND_4 R1 A B C D
    (X 5%nat) 5 0xd62f105d (X 10%nat) 9 0x02441453 (X 15%nat) 14 0xd8a1e681 (X 4%nat) 20 0xe7d3fbc8 in
  let '(A, B, C, D) := ROUND_4 R1 A B C D
    (X 9%nat) 5 0x21e1cde6 (X 14%nat) 9 0xc33707d6 (X 3%nat) 14 0xf4d50d87 (X 8%nat) 20 0x455a14ed in
  let '(A, B, C, D) := ROUND_4 R1 A B C D
    (X 13%nat) 5 0xa9e3e905 (X 2%nat) 9 0xfcefa3f8 (X 7%nat) 14 0x676f02d9 (X 12%nat) 20 0x8d2a4c8a in
  let '(A, B, C, D) := ROUND_4 R2 A B C D
    (X 5%nat) 4 0xfffa3942 (X 8%nat) 11 0x8771f681 (X 11%nat) 16 0x6d9d6122 (X 14%nat) 23 0xfde5380c in
  let '(A, B, C, D) := ROUND_4 R2 A B C D
    (X 1%nat) 4 0xa4beea44 (X 4%nat) 11 0x4bdecfa9 (X 7%nat) 16 0xf6bb4b60 (X 10%nat) 23 0xbebfbc70 in
  let '(A, B, C, D) := ROUND_4 R2 A B C D
    (X 13%nat) 4 0x289b7ec6 (X 0%nat) 11 0xeaa127fa (X 3%nat) 16 0xd4ef3085 (X 6%nat) 23 0x04881d05 in
  let '(A, B, C, D) := ROUND_4 R2 A B C D
    (X 9%nat) 4 0xd9d4d039 (X 12%nat) 11 0xe6db99e5 (X 15%nat) 16 0x1fa27cf8 (X 2%nat) 23 0xc4ac5665 in
  let '(A, B, C, D) := ROUND_4 R3 A B C D
    (X 0%nat) 6 0xf4292244 (X 7%nat) 10 0x432aff97 (X 14%nat) 15 0xab9423a7 (X 5%nat) 21 0xfc93a039 in
  let '(A, B, C, D) := ROUND_4 R3 A B C D
    (X 12%nat) 6 0x655b59c3 (X 3%nat) 10 0x8f0ccc92 (X 10%nat) 15 0xffeff47d (X 1%nat) 21 0x85845dd1 in
  let '(A, B, C, D) := ROUND_4 R3 A B C D
    (X 8%nat) 6 0x6fa87e4f (X 15%nat) 10 0xfe2ce6e0 (X 6%nat) 15 0xa3014314 (X 13%nat) 21 0x4e0811a1 in
  let '(A, B, C, D) := ROUND_4 R3 A B C D
    (X 4%nat) 6 0xf7537e82 (X 11%nat) 10 0xbd3af235 (X 2%nat) 15 0x2ad7d2bb (X 9%nat) 21 0xeb86d391 in
  (A, B, C, D).

(** One iteration of the loop over blocks; [A] to [D] hold the state when it
    starts. *)
Definition md5_block (state data : list Z) : list Z :=
  let s i := nth i state 0 in
  let X := map (fun i => CRYPTO_load_u32_le (drop (4 * i) data)) (seq 0 16) in
  let '(A, B, C, D) := md5_rounds (fun i => nth i X 0) (s 0%nat) (s 1%nat) (s 2%nat) (s 3%nat) in
  [u32 (s 0%nat + A); u32 (s 1%nat + B); u32 (s 2%nat + C); u32 (s 3%nat + D)].

Definition md5_block_data_order (state data : list Z) (num : Z) : list Z :=
  while_num md5_block 64 (Z.to_nat num) state data.

Definition MD5_Transform (c : md32_ctx) (data : list Z) : md32_ctx :=
  Md32Ctx (md5_block_data_order (h c) data 1) (Nl c) (Nh c) (Md32.data c) (num c).

Definition MD5_Update (c : md32_ctx) (data : list Z) : md32_ctx :=
  crypto_md32_update md5_block_data_order MD5_CBLOCK c data.

(** The bytes written at [out] and the context. *)
Definition MD5_Final (c : md32_ctx) : list Z * md32_ctx :=
  let c := crypto_md32_final md5_block_data_order MD5_CBLOCK c false in
  let s i := CRYPTO_store_u32_le (nth i (h c) 0) in
  (s 0%nat ++ s 1%nat ++ s 2%nat ++ s 3%nat, c).

Definition MD5 (data : list Z) : list Z := (MD5_Final (MD5_Update MD5_Init data)).1.

Example md5_abc : MD5 [97; 98; 99] = be_bytes 16 0x900150983cd24fb0d6963f7d28e17f72.
Proof. vm_compute. reflexivity. Qed.

(** * RFC 1321 *)

Definition rfc_f (i : nat) (x y z : Z) : Z :=
  if (i <? 16)%nat then Z.lor (Z.land x y) (Z.land (Z.lnot x) z)
  else if (i <? 32)%nat then Z.lor (Z.land x z) (Z.land y (Z.lnot z))
  else if (i <? 48)%nat then Z.lxor (Z.lxor x y) z
  else Z.lxor y (Z.lor x (u32 (Z.lnot z))).

(** The word used, the rotation and the constant of each operation. *)
Definition rfc_k (i : nat) : nat :=
  (if i <? 16 then i else if i <? 32 then (1 + 5 * i) mod 16 else if i <? 48 then (5 + 3 * i) mod 16 else (7 * i) mod 16)%nat.

Definition rfc_s (i : nat) : Z :=
  nth (i mod 4) (nth (i / 16) [[7; 12; 17; 22]; [5; 9; 14; 20]; [4; 11; 16; 23]; [6; 10; 15; 21]] []) 0.

(** [T[i+1]], the integer part of 4294967296 times abs(sin(i+1)). *)
Definition rfc_T : list Z :=
  [0xd76aa478; 0xe8c7b756; 0x242070db; 0xc1bdceee; 0xf57c0faf; 0x4787c62a;
   0xa8304613; 0xfd469501; 0x698098d8; 0x8b44f7af; 0xffff5bb1; 0x895cd7be;
   0x6b901122; 0xfd987193; 0xa679438e; 0x49b40821; 0xf61e2562; 0xc040b340;
   0x265e5a51; 0xe9b6c7aa; 0xd62f105d; 0x02441453; 0xd8a1e681; 0xe7d3fbc8;
   0x21e1cde6; 0xc33707d6; 0xf4d50d87; 0x455a14ed; 0xa9e3e905; 0xfcefa3f8;
   0x676f02d9; 0x8d2a4c8a; 0xfffa3942; 0x8771f681; 0x6d9d6122; 0xfde5380c;
   0xa4beea44; 0x4bdecfa9; 0xf6bb4b60; 0xbebfbc70; 0x289b7ec6; 0xeaa127fa;
   0xd4ef3085; 0x04881d05; 0xd9d4d039; 0xe6db99e5; 0x1fa27cf8; 0xc4ac5665;
   0xf4292244; 0x432aff97; 0xab9423a7; 0xfc93a039; 0x655b59c3; 0x8f0ccc92;
   0xffeff47d; 0x85845dd1; 0x6fa87e4f; 0xfe2ce6e0; 0xa3014314; 0x4e0811a1;
   0xf7537e82; 0xbd3af235; 0x2ad7d2bb; 0xeb86d391].

Definition rfc_round (X : nat -> Z) (i : nat) (a b c d : Z) : Z :=
  u32 (b + CRYPTO_rotl_u32 (u32 (a + rfc_f i b c d + X (rfc_k i) + nth i rfc_T 0)) (rfc_s i)).

(** The hash value of a message. *)
Definition rfc1321_hash (m : list Z) : list Z :=
  rot4_hash rfc_round 64 [0x67452301; 0xefcdab89; 0x98badcfe; 0x10325476] m.

(** * The unrolled rounds *)

(** The macro call of round [i]. *)
Definition md5_call (X : nat -> Z) (i : nat) (a b c d : Z) : Z :=
  (if i <? 16 then R0 else if i <? 32 then R1 else if i <? 48 then R2 else R3)%nat
    a b c d (X (rfc_k i)) (rfc_s i) (nth i rfc_T 0).

Lemma md5_call_rfc X i a b c d : (0 <= i < 0 + 64)%nat -> md5_call X i a b c d = rfc_round X i a b c d.
Proof.
  intros Hi. unfold md5_call, rfc_round, rfc_f.
  assert (F b c d = Z.lor (Z.land b c) (Z.land (Z.lnot b) d)) as EF.
  { apply Z.bits_inj'. intros k Hk. unfold F. rewrite !Z.lor_spec, !Z.lxor_spec, !Z.land_spec, Z.lxor_spec, Z.lnot_spec by done.
    by destruct (Z.testbit b k), (Z.testbit c k), (Z.testbit d k). }
  assert (G b c d = Z.lor (Z.land b d) (Z.land c (Z.lnot d))) as EG.
  { apply Z.bits_inj'. intros k Hk. unfold G. rewrite !Z.lor_spec, !Z.lxor_spec, !Z.land_spec, Z.lxor_spec, Z.lnot_spec by done.
    by destruct (Z.testbit b k), (Z.testbit c k), (Z.testbit d k). }
  assert (I b c d = Z.lxor c (Z.lor b (u32 (Z.lnot d)))) as EI.
  { unfold I. by rewrite Z.lxor_comm, (Z.lor_comm b). }
  set (x := X _). set (t := nth i rfc_T 0).
  assert (forall f, (let a := u32 (a + (x + t + f)) in let a := CRYPTO_rotl_u32 a (rfc_s i) in u32 (a + b)) =
    u32 (b + CRYPTO_rotl_u32 (u32 (a + f + x + t)) (rfc_s i))) as E.
  { intros f. cbv zeta. rewrite (Z.add_comm _ b). by replace (a + (x + t + f)) with (a + f + x + t) by lia. }
  destruct (i <? 16)%nat; [rewrite <-EF; apply E|]. destruct (i <? 32)%nat; [rewrite <-EG; apply E|].
  destruct (i <? 48)%nat; [apply E|]. rewrite <-EI. apply E.
Qed.

Lemma md5_rounds_fold X A B C D :
  md5_rounds X A B C D = fold_left (rot4 (md5_call X)) (seq 0 64) (A, B, C, D).
Proof. unfold md5_rounds. cbn [seq]. do 16 unroll4. done. Qed.

Lemma md5_block_rfc st d :
  md5_block st d = rot4_compress rfc_round 64 st (map (fun i => CRYPTO_load_u32_le (drop (4 * i) d)) (seq 0 16)).
Proof.
  unfold md5_block, rot4_compress. cbv zeta. rewrite md5_rounds_fold.
  rewrite (rot4_ext _ _ 0 64 _ (fun j a b c d => md5_call_rfc _ j a b c d)).
  destruct (fold_left _ _ _) as [[[A B] C] D]. reflexivity.
Qed.

(** Feeding a message to an initialised context. *)
Definition md5_feed (pieces : list (list Z)) : md32_ctx := fold_left MD5_Update pieces MD5_Init.

Lemma md5_final_feed pieces :
  bytes (concat pieces) -> Forall (fun p => blen p < 2 ^ 61) pieces ->
  (MD5_Final (md5_feed pieces)).1 = le_words 4 (rfc1321_hash (concat pieces)).
Proof. intros Hb Hp. exact (rot4_final md5_block rfc_round 64 md5_block_rfc [0x67452301; 0xefcdab89; 0x98badcfe; 0x10325476] pieces Hb Hp eq_refl). Qed.
