(* ===== verification/Md4.v ===== *)
(** crypto/fipsmodule/md4/md4.c: MD4, in the same way as MD5. *)

From S2P Require Import Prelude CryptoInternal Md32 HashSpec.

Definition MD4_CBLOCK : Z := 64.

(** [MD4_CTX] is the collector's context. *)
Definition MD4_Init : md32_ctx := md32_zero MD4_CBLOCK [0x67452301; 0xefcdab89; 0x98badcfe; 0x10325476].

Definition F (b c d : Z) : Z := Z.lxor (Z.land (Z.lxor c d) b) d.
Definition G (b c d : Z) : Z := Z.lor (Z.lor (Z.land b c) (Z.land b d)) (Z.land c d).
Definition H (b c d : Z) : Z := Z.lxor (Z.lxor b c) d.

Definition R0 (a b c d k s t : Z) : Z :=
  let a := u32 (a + (k + t + F b c d)) in
  CRYPTO_rotl_u32 a s.

Definition R1 (a b c d k s t : Z) : Z :=
  let a := u32 (a + (k + t + G b c d)) in
  CRYPTO_rotl_u32 a s.

Definition R2 (a b c d k s t : Z) : Z :=
  let a := u32 (a + (k + t + H b c d)) in
  CRYPTO_rotl_u32 a s.

(** The macro calls of one block. The loads, which the source interleaves with
    the first round, come before: [X] are the sixteen words. *)
Definition md4_rounds (X : nat -> Z) (A B C D : Z) : regs4 :=
  let '(A, B, C, D) := ROUND_4 R0 A B C D
    (X 0%nat) 3 0 (X 1%nat) 7 0 (X 2%nat) 11 0 (X 3%nat) 19 0 in
  let '(A, B, C, D) := ROUND_4 R0 A B C D
    (X 4%nat) 3 0 (X 5%nat) 7 0 (X 6%nat) 11 0 (X 7%nat) 19 0 in
  let '(A, B, C, D) := ROUND_4 R0 A B C D
    (X 8%nat) 3 0 (X 9%nat) 7 0 (X 10%nat) 11 0 (X 11%nat) 19 0 in
  let '(A, B, C, D) := ROUND_4 R0 A B C D
    (X 12%nat) 3 0 (X 13%nat) 7 0 (X 14%nat) 11 0 (X 15%nat) 19 0 in
  let '(A, B, C, D) := ROUND_4 R1 A B C D
    (X 0%nat) 3 0x5a827999 (X 4%nat) 5 0x5a827999 (X 8%nat) 9 0x5a827999 (X 12%nat) 13 0x5a827999 in
  let '(A, B, C, D) := ROUND_4 R1 A B C D
    (X 1%nat) 3 0x5a827999 (X 5%nat) 5 0x5a827999 (X 9%nat) 9 0x5a827999 (X 13%nat) 13 0x5a827999 in
  let '(A, B, C, D) := ROUND_4 R1 A B C D
    (X 2%nat) 3 0x5a827999 (X 6%nat) 5 0x5a827999 (X 10%nat) 9 0x5a827999 (X 14%nat) 13 0x5a827999 in
  let '(A, B, C, D) := ROUND_4 R1 A B C D
    (X 3%nat) 3 0x5a827999 (X 7%nat) 5 0x5a827999 (X 11%nat) 9 0x5a827999 (X 15%nat) 13 0x5a827999 in
  let '(A, B, C, D) := ROUND_4 R2 A B C D
    (X 0%nat) 3 0x6ed9eba1 (X 8%nat) 9 0x6ed9eba1 (X 4%nat) 11 0x6ed9eba1 (X 12%nat) 15 0x6ed9eba1 in
  let '(A, B, C, D) := ROUND_4 R2 A B C D
    (X 2%nat) 3 0x6ed9eba1 (X 10%nat) 9 0x6ed9eba1 (X 6%nat) 11 0x6ed9eba1 (X 14%nat) 15 0x6ed9eba1 in
  let '(A, B, C, D) := ROUND_4 R2 A B C D
    (X 1%nat) 3 0x6ed9eba1 (X 9%nat) 9 0x6ed9eba1 (X 5%nat) 11 0x6ed9eba1 (X 13%nat) 15 0x6ed9eba1 in
  let '(A, B, C, D) := ROUND_4 R2 A B C D
    (X 3%nat) 3 0x6ed9eba1 (X 11%nat) 9 0x6ed9eba1 (X 7%nat) 11 0x6ed9eba1 (X 15%nat) 15 0x6ed9eba1 in
  (A, B, C, D).

(** One iteration of the loop over blocks; [A] to [D] hold the state when it
    starts. *)
Definition md4_block (state data : list Z) : list Z :=
  let s i := nth i state 0 in
  let X := map (fun i => CRYPTO_load_u32_le (drop (4 * i) data)) (seq 0 16) in
  let '(A, B, C, D) := md4_rounds (fun i => nth i X 0) (s 0%nat) (s 1%nat) (s 2%nat) (s 3%nat) in
  [u32 (s 0%nat + A); u32 (s 1%nat + B); u32 (s 2%nat + C); u32 (s 3%nat + D)].

Definition md4_block_data_order (state data : list Z) (num : Z) : list Z :=
  while_num md4_block 64 (Z.to_nat num) state data.

Definition MD4_Transform (c : md32_ctx) (data : list Z) : md32_ctx :=
  Md32Ctx (md4_block_data_order (h c) data 1) (Nl c) (Nh c) (Md32.data c) (num c).

Definition MD4_Update (c : md32_ctx) (data : list Z) : md32_ctx :=
  crypto_md32_update md4_block_data_order MD4_CBLOCK c data.

(** The bytes written at [out] and the context. *)
Definition MD4_Final (c : md32_ctx) : list Z * md32_ctx :=
  let c := crypto_md32_final md4_block_data_order MD4_CBLOCK c false in
  let s i := CRYPTO_store_u32_le (nth i (h c) 0) in
  (s 0%nat ++ s 1%nat ++ s 2%nat ++ s 3%nat, c).

Definition MD4 (data : list Z) : list Z := (MD4_Final (MD4_Update MD4_Init data)).1.

Example md4_abc : MD4 [97; 98; 99] = be_bytes 16 0xa448017aaf21d8525fc10ae87aa6729d.
Proof. vm_compute. reflexivity. Qed.

(** * RFC 1320 *)

Definition rfc_f (i : nat) (x y z : Z) : Z :=
  if (i <? 16)%nat then Z.lor (Z.land x y) (Z.land (Z.lnot x) z)
  else if (i <? 32)%nat then Z.lor (Z.lor (Z.land x y) (Z.land x z)) (Z.land y z)
  else Z.lxor (Z.lxor x y) z.

(** The word used, the rotation and the constant of each operation. *)
Definition rfc_k (i : nat) : nat :=
  (if i <? 16 then i else if i <? 32 then 4 * (i mod 4) + (i - 16) / 4
   else nth (i - 32) [0; 8; 4; 12; 2; 10; 6; 14; 1; 9; 5; 13; 3; 11; 7; 15] 0)%nat.

Definition rfc_s (i : nat) : Z :=
  nth (i mod 4) (nth (i / 16) [[3; 7; 11; 19]; [3; 5; 9; 13]; [3; 9; 11; 15]] []) 0.

Definition rfc_t (i : nat) : Z := nth (i / 16) [0; 0x5a827999; 0x6ed9eba1] 0.

Definition rfc_round (X : nat -> Z) (i : nat) (a b c d : Z) : Z :=
  CRYPTO_rotl_u32 (u32 (a + rfc_f i b c d + X (rfc_k i) + rfc_t i)) (rfc_s i).

(** The hash value of a message. *)
Definition rfc1320_hash (m : list Z) : list Z :=
  rot4_hash rfc_round 48 [0x67452301; 0xefcdab89; 0x98badcfe; 0x10325476] m.

(** * The unrolled rounds *)

(** The macro call of round [i]. *)
Definition md4_call (X : nat -> Z) (i : nat) (a b c d : Z) : Z :=
  (if i <? 16 then R0 else if i <? 32 then R1 else R2)%nat a b c d (X (rfc_k i)) (rfc_s i) (rfc_t i).

Lemma md4_call_rfc X i a b c d : md4_call X i a b c d = rfc_round X i a b c d.
Proof.
  unfold md4_call, rfc_round, rfc_f.
  assert (F b c d = Z.lor (Z.land b c) (Z.land (Z.lnot b) d)) as EF.
  { apply Z.bits_inj'. intros k Hk. unfold F. rewrite !Z.lor_spec, !Z.lxor_spec, !Z.land_spec, Z.lxor_spec, Z.lnot_spec by done.
    by destruct (Z.testbit b k), (Z.testbit c k), (Z.testbit d k). }
  set (x := X _). set (t := rfc_t i).
  assert (forall f, (let a := u32 (a + (x + t + f)) in CRYPTO_rotl_u32 a (rfc_s i)) =
    CRYPTO_rotl_u32 (u32 (a + f + x + t)) (rfc_s i)) as E.
  { intros f. cbv zeta. by replace (a + (x + t + f)) with (a + f + x + t) by lia. }
  destruct (i <? 16)%nat; [rewrite <-EF; apply E|]. destruct (i <? 32)%nat; apply E.
Qed.

Lemma md4_rounds_fold X A B C D :
  md4_rounds X A B C D = fold_left (rot4 (md4_call X)) (seq 0 48) (A, B, C, D).
Proof. unfold md4_rounds. cbn [seq]. do 12 unroll4. done. Qed.

Lemma md4_block_rfc st d :
  md4_block st d = rot4_compress rfc_round 48 st (map (fun i => CRYPTO_load_u32_le (drop (4 * i) d)) (seq 0 16)).
Proof.
  unfold md4_block, rot4_compress. cbv zeta. rewrite md4_rounds_fold.
  rewrite (rot4_ext _ _ 0 48 _ (fun j a b c d _ => md4_call_rfc _ j a b c d)).
  destruct (fold_left _ _ _) as [[[A B] C] D]. reflexivity.
Qed.

(** Feeding a message to an initialised context. *)
Definition md4_feed (pieces : list (list Z)) : md32_ctx := fold_left MD4_Update pieces MD4_Init.

Lemma md4_final_feed pieces :
  bytes (concat pieces) -> Forall (fun p => blen p < 2 ^ 61) pieces ->
  (MD4_Final (md4_feed pieces)).1 = le_words 4 (rfc1320_hash (concat pieces)).
Proof. intros Hb Hp. exact (rot4_final md4_block rfc_round 48 md4_block_rfc [0x67452301; 0xefcdab89; 0x98badcfe; 0x10325476] pieces Hb Hp eq_refl). Qed.
