(* ===== verification/Sha512.v ===== *)
(** crypto/fipsmodule/sha/sha512.c: SHA-384, SHA-512 and SHA-512/256, with both
    portable block functions: the unrolled one and the one for 32-bit x86. *)

From S2P Require Import Prelude CryptoInternal Md32 HashSpec Sha2Spec Fips180.

Definition SHA384_DIGEST_LENGTH : Z := 48.
Definition SHA512_DIGEST_LENGTH : Z := 64.
Definition SHA512_256_DIGEST_LENGTH : Z := 32.
Definition SHA512_CBLOCK : Z := 128.

Record SHA512_CTX := Sha512Ctx {
  h : list Z;
  Nl : Z;
  Nh : Z;
  p : list Z;         (* all 128 bytes *)
  num : Z;
  md_len : Z
}.

(** [p] is not initialised: [mem] is what the memory holds. *)
Definition SHA384_Init (mem : list Z) : SHA512_CTX :=
  Sha512Ctx
  [0xcbbb9d5dc1059ed8; 0x629a292a367cd507; 0x9159015a3070dd17; 0x152fecd8f70e5939;
   0x67332667ffc00b31; 0x8eb44a8768581511; 0xdb0c2e0d64f98fa7; 0x47b5481dbefa4fa4]
   0 0 mem 0 SHA384_DIGEST_LENGTH.

Definition SHA512_Init (mem : list Z) : SHA512_CTX :=
  Sha512Ctx
  [0x6a09e667f3bcc908; 0xbb67ae8584caa73b; 0x3c6ef372fe94f82b; 0xa54ff53a5f1d36f1;
   0x510e527fade682d1; 0x9b05688c2b3e6c1f; 0x1f83d9abfb41bd6b; 0x5be0cd19137e2179]
   0 0 mem 0 SHA512_DIGEST_LENGTH.

Definition SHA512_256_Init (mem : list Z) : SHA512_CTX :=
  Sha512Ctx
  [0x22312194fc2bf72c; 0x9f555fa3c84c64c2; 0x2393b86b6f53b151; 0x963877195940eabd;
   0x96283ee2a88effe3; 0xbe5e1e2553863992; 0x2b0199fc2c85b8aa; 0x0eb72ddc81c52ca2]
   0 0 mem 0 SHA512_256_DIGEST_LENGTH.

(** * The unrolled block function *)

Definition K512 : list Z :=
  0x428a2f98d728ae22 :: 0x7137449123ef65cd :: 0xb5c0fbcfec4d3b2f :: 0xe9b5dba58189dbbc ::
  0x3956c25bf348b538 :: 0x59f111f1b605d019 :: 0x923f82a4af194f9b :: 0xab1c5ed5da6d8118 ::
  0xd807aa98a3030242 :: 0x12835b0145706fbe :: 0x243185be4ee4b28c :: 0x550c7dc3d5ffb4e2 ::
  0x72be5d74f27b896f :: 0x80deb1fe3b1696b1 :: 0x9bdc06a725c71235 :: 0xc19bf174cf692694 ::
  0xe49b69c19ef14ad2 :: 0xefbe4786384f25e3 :: 0x0fc19dc68b8cd5b5 :: 0x240ca1cc77ac9c65 ::
  0x2de92c6f592b0275 :: 0x4a7484aa6ea6e483 :: 0x5cb0a9dcbd41fbd4 :: 0x76f988da831153b5 ::
  0x983e5152ee66dfab :: 0xa831c66d2db43210 :: 0xb00327c898fb213f :: 0xbf597fc7beef0ee4 ::
  0xc6e00bf33da88fc2 :: 0xd5a79147930aa725 :: 0x06ca6351e003826f :: 0x142929670a0e6e70 ::
  0x27b70a8546d22ffc :: 0x2e1b21385c26c926 :: 0x4d2c6dfc5ac42aed :: 0x53380d139d95b3df ::
  0x650a73548baf63de :: 0x766a0abb3c77b2a8 :: 0x81c2c92e47edaee6 :: 0x92722c851482353b ::
  0xa2bfe8a14cf10364 :: 0xa81a664bbc423001 :: 0xc24b8b70d0f89791 :: 0xc76c51a30654be30 ::
  0xd192e819d6ef5218 :: 0xd69906245565a910 :: 0xf40e35855771202a :: 0x106aa07032bbd1b8 ::
  0x19a4c116b8d2d0c8 :: 0x1e376c085141ab53 :: 0x2748774cdf8eeb99 :: 0x34b0bcb5e19b48a8 ::
  0x391c0cb3c5c95a63 :: 0x4ed8aa4ae3418acb :: 0x5b9cca4f7763e373 :: 0x682e6ff3d6b2b8a3 ::
  0x748f82ee5defb2fc :: 0x78a5636f43172f60 :: 0x84c87814a1f0ab72 :: 0x8cc702081a6439ec ::
  0x90befffa23631e28 :: 0xa4506cebde82bde9 :: 0xbef9a3f7b2c67915 :: 0xc67178f2e372532b ::
  0xca273eceea26619c :: 0xd186b8c721c0c207 :: 0xeada7dd6cde0eb1e :: 0xf57d4f7fee6ed178 ::
  0x06f067aa72176fba :: 0x0a637dc5a2c898a6 :: 0x113f9804bef90dae :: 0x1b710b35131c471b ::
  0x28db77f523047d84 :: 0x32caab7b40c72493 :: 0x3c9ebe0a15c9bebc :: 0x431d67c49c100d4c ::
  0x4cc5d4becb3e42b6 :: 0x597f299cfc657e2a :: 0x5fcb6fab3ad6faec :: 0x6c44198c4a475817 :: [].

Definition Sigma0 (x : Z) : Z :=
  Z.lxor (Z.lxor (CRYPTO_rotr_u64 x 28) (CRYPTO_rotr_u64 x 34)) (CRYPTO_rotr_u64 x 39).
Definition Sigma1 (x : Z) : Z :=
  Z.lxor (Z.lxor (CRYPTO_rotr_u64 x 14) (CRYPTO_rotr_u64 x 18)) (CRYPTO_rotr_u64 x 41).
Definition sigma0 (x : Z) : Z :=
  Z.lxor (Z.lxor (CRYPTO_rotr_u64 x 1) (CRYPTO_rotr_u64 x 8)) (Z.shiftr x 7).
Definition sigma1 (x : Z) : Z :=
  Z.lxor (Z.lxor (CRYPTO_rotr_u64 x 19) (CRYPTO_rotr_u64 x 61)) (Z.shiftr x 6).

Definition Ch (x y z : Z) : Z := Z.lxor (Z.land x y) (Z.land (u64 (Z.lnot x)) z).
Definition Maj (x y z : Z) : Z := Z.lxor (Z.lxor (Z.land x y) (Z.land x z)) (Z.land y z).

(** The registers [d] and [h] after the macro. *)
Definition ROUND_00_15 (i : nat) (T1 a b c d e f g h : Z) : Z * Z :=
  let T1 := u64 (T1 + u64 (u64 (u64 (h + Sigma1 e) + Ch e f g) + nth i K512 0)) in
  let h := u64 (Sigma0 a + Maj a b c) in
  let d := u64 (d + T1) in
  let h := u64 (h + T1) in
  (d, h).

Definition ROUND_16_80 (i j : nat) (a b c d e f g h : Z) (X : list Z) : Z * Z * list Z :=
  let s0 := sigma0 (X_at X (j + 1)) in
  let s1 := sigma1 (X_at X (j + 14)) in
  let T1 := u64 (X_at X j + u64 (u64 (s0 + s1) + X_at X (j + 9))) in
  let X := <[(j mod 16)%nat := T1]> X in
  let '(d, h) := ROUND_00_15 (i + j) T1 a b c d e f g h in
  (d, h, X).

(** The first sixteen rounds take [T1] from the word just loaded. *)
Definition ROUND_LOADED (i : nat) (a b c d e f g h : Z) (X : list Z) : Z * Z * list Z :=
  let '(d, h) := ROUND_00_15 i (nth i X 0) a b c d e f g h in (d, h, X).

(** One iteration of the loop over blocks. *)
Definition sha512_block (state : list Z) (in_ : list Z) : list Z :=
  let s i := nth i state 0 in
  let v := (s 0%nat, s 1%nat, s 2%nat, s 3%nat, s 4%nat, s 5%nat, s 6%nat, s 7%nat) in
  let X := map (fun i => CRYPTO_load_u64_be (drop (8 * i) in_)) (seq 0 16) in
  let '(v, X) := ROUNDS_8 ROUND_LOADED 0 v X in
  let '(v, X) := ROUNDS_8 ROUND_LOADED 8 v X in
  (* for (i = 16; i < 80; i += 16) *)
  let '(v, X) := fold_left (fun '(v, X) i =>
      let '(v, X) := ROUNDS_8 (ROUND_16_80 i) 0 v X in
      ROUNDS_8 (ROUND_16_80 i) 8 v X) [16; 32; 48; 64]%nat (v, X) in
  let '(a, b, c, d, e, f, g, h) := v in
  [u64 (s 0%nat + a); u64 (s 1%nat + b); u64 (s 2%nat + c); u64 (s 3%nat + d);
   u64 (s 4%nat + e); u64 (s 5%nat + f); u64 (s 6%nat + g); u64 (s 7%nat + h)].

Definition sha512_block_data_order (state in_ : list Z) (num : Z) : list Z :=
  while_num sha512_block 128 (Z.to_nat num) state in_.

(** * The block function for 32-bit x86

    One array of 9 + 80 words; [F] moves down one word per round, so that the
    registers rotate without being copied and the schedule stays behind. *)
Definition x86_start (T : Z) (F : nat) (A E : Z) (X : list Z) : list Z :=
  <[(F + 8)%nat := T]> (<[(F + 4)%nat := E]> (<[F := A]> X)).

(** The rest of both loop bodies; the new [A] and [E]. *)
Definition x86_round (i : nat) (T : Z) (F : nat) (A E : Z) (X : list Z) : Z * Z :=
  let f k := nth (F + k) X 0 in
  let T := u64 (T + u64 (u64 (u64 (f 7%nat + Sigma1 E) + Ch E (f 5%nat) (f 6%nat)) + nth i K512 0)) in
  let E := u64 (f 3%nat + T) in
  let A := u64 (u64 (T + Sigma0 A) + Maj A (f 1%nat) (f 2%nat)) in
  (A, E).

Definition x86_loop1 (in_ : list Z) (s : nat * Z * Z * list Z) (i : nat) : nat * Z * Z * list Z :=
  let '(F, A, E, X) := s in
  let T := CRYPTO_load_u64_be (drop (i * 8) in_) in
  let X := x86_start T F A E X in
  let '(A, E) := x86_round i T F A E X in
  (F - 1, A, E, X)%nat.

Definition x86_loop2 (s : nat * Z * Z * list Z) (i : nat) : nat * Z * Z * list Z :=
  let '(F, A, E, X) := s in
  let f k := nth (F + k) X 0 in
  let T := sigma0 (f (8 + 16 - 1)%nat) in
  let T := u64 (T + sigma1 (f (8 + 16 - 14)%nat)) in
  let T := u64 (T + u64 (f (8 + 16)%nat + f (8 + 16 - 9)%nat)) in
  let X := x86_start T F A E X in
  let '(A, E) := x86_round i T F A E X in
  (F - 1, A, E, X)%nat.

(** One iteration of the loop over blocks; [mem] is what the array holds. *)
Definition sha512_block_x86 (mem state in_ : list Z) : list Z :=
  let s i := nth i state 0 in
  let F := 80%nat in
  let A := s 0%nat in
  let X := <[(F + 1)%nat := s 1%nat]> (<[(F + 2)%nat := s 2%nat]> (<[(F + 3)%nat := s 3%nat]> mem)) in
  let E := s 4%nat in
  let X := <[(F + 5)%nat := s 5%nat]> (<[(F + 6)%nat := s 6%nat]> (<[(F + 7)%nat := s 7%nat]> X)) in
  let '(F, A, E, X) := fold_left (x86_loop1 in_) (seq 0 16) (F, A, E, X) in
  let '(F, A, E, X) := fold_left x86_loop2 (seq 16 64) (F, A, E, X) in
  let f k := nth (F + k) X 0 in
  [u64 (s 0%nat + A); u64 (s 1%nat + f 1%nat); u64 (s 2%nat + f 2%nat); u64 (s 3%nat + f 3%nat);
   u64 (s 4%nat + E); u64 (s 5%nat + f 5%nat); u64 (s 6%nat + f 6%nat); u64 (s 7%nat + f 7%nat)].

(** * The hash functions *)

Definition SHA512_Transform (c : SHA512_CTX) (block : list Z) : SHA512_CTX :=
  Sha512Ctx (sha512_block_data_order (h c) block 1) (Nl c) (Nh c) (p c) (num c) (md_len c).

Definition SHA512_Update (c : SHA512_CTX) (in_data : list Z) : SHA512_CTX :=
  let len := blen in_data in
  if len =? 0 then c
  else
    let l := u64 (Nl c + u64 (Z.shiftl len 3)) in
    let Nh := if l <? Nl c then u64 (Nh c + 1) else Nh c in
    let Nh := u64 (Nh + Z.shiftr len 61) in
    let Nl := l in
    let rest h p num data :=
      let len := blen data in
      let h := if SHA512_CBLOCK <=? len then sha512_block_data_order h data (len / SHA512_CBLOCK) else h in
      let data := if SHA512_CBLOCK <=? len then drop (Z.to_nat (len - len mod SHA512_CBLOCK)) data else data in
      let len := if SHA512_CBLOCK <=? len then len mod SHA512_CBLOCK else len in
      if negb (len =? 0) then Sha512Ctx h Nl Nh (write_at 0 data p) len (md_len c)
      else Sha512Ctx h Nl Nh p num (md_len c) in
    if negb (num c =? 0) then
      let n := SHA512_CBLOCK - num c in
      if len <? n then
        Sha512Ctx (h c) Nl Nh (write_at (num c) in_data (p c)) (u32 (num c + u32 len)) (md_len c)
      else
        let p := write_at (num c) (take (Z.to_nat n) in_data) (p c) in
        let h := sha512_block_data_order (h c) p 1 in
        rest h p 0 (drop (Z.to_nat n) in_data)
    else rest (h c) (p c) (num c) in_data.

Definition SHA384_Update := SHA512_Update.
Definition SHA512_256_Update := SHA512_Update.

(** [None] is the result 0; otherwise the bytes written at [out]. *)
Definition sha512_final_impl (out_null : bool) (c : SHA512_CTX) : option (list Z) * SHA512_CTX :=
  let n := num c in
  let p := write_at n [0x80] (p c) in
  let n := n + 1 in
  let '(h, p, n) :=
    if SHA512_CBLOCK - 16 <? n then
      let p := write_at n (replicate (Z.to_nat (SHA512_CBLOCK - n)) 0) p in
      (sha512_block_data_order (h c) p 1, p, 0)
    else (h c, p, n) in
  let p := write_at n (replicate (Z.to_nat (SHA512_CBLOCK - 16 - n)) 0) p in
  let p := write_at (SHA512_CBLOCK - 16) (CRYPTO_store_u64_be (Nh c)) p in
  let p := write_at (SHA512_CBLOCK - 8) (CRYPTO_store_u64_be (Nl c)) p in
  let h := sha512_block_data_order h p 1 in
  let c := Sha512Ctx h (Nl c) (Nh c) p (num c) (md_len c) in
  if out_null then (None, c)
  else
    let out_words := Z.to_nat (md_len c / 8) in
    (Some (concat (map (fun i => CRYPTO_store_u64_be (nth i h 0)) (seq 0 out_words))), c).

Definition SHA512_Final := sha512_final_impl.
Definition SHA384_Final := sha512_final_impl.
Definition SHA512_256_Final := sha512_final_impl.

(** The one-shot functions; [mem] is the memory of their local context. *)
Definition SHA384 (mem data : list Z) : option (list Z) := (SHA384_Final false (SHA384_Update (SHA384_Init mem) data)).1.
Definition SHA512 (mem data : list Z) : option (list Z) := (SHA512_Final false (SHA512_Update (SHA512_Init mem) data)).1.
Definition SHA512_256 (mem data : list Z) : option (list Z) :=
  (SHA512_256_Final false (SHA512_256_Update (SHA512_256_Init mem) data)).1.

Example sha512_abc : SHA512 (replicate 128 7) [97; 98; 99] = Some (be_bytes 64
  0xddaf35a193617abacc417349ae20413112e6fa4e89a97ea20a9eeee64b55d39a2192992a274fc1a836ba3c23a3feebbd454d4423643ce80e2a9ac94fa54ca49f).
Proof. vm_compute. reflexivity. Qed.

Example sha512_x86_abc :
  let b := [97; 98; 99; 128] ++ replicate 123 0 ++ [24] in
  sha512_block_x86 (replicate 89 7) (h (SHA512_Init [])) b = sha512_block (h (SHA512_Init [])) b.
Proof. vm_compute. reflexivity. Qed.

(** * Its constants and functions are those of FIPS 180-4 *)

Lemma K512_fips : K512 = fips_K512.
Proof. vm_compute. reflexivity. Qed.

Lemma SHA512_Init_fips mem : h (SHA512_Init mem) = fips_H512.
Proof. vm_compute. reflexivity. Qed.

Lemma SHA384_Init_fips mem : h (SHA384_Init mem) = fips_H384.
Proof. vm_compute. reflexivity. Qed.

Lemma SHA512_256_Init_fips mem : h (SHA512_256_Init mem) = fips_H512_256.
Proof. vm_compute. reflexivity. Qed.

Lemma fips512_code H M : fips512 H M = fips_compress 64 Sigma0 Sigma1 sigma0 sigma1 Ch Maj K512 80 H M.
Proof. unfold fips512. rewrite <-K512_fips. reflexivity. Qed.

(** * The unrolled block function computes it *)

(** Round [t] of the loop over [i] and [j]. *)
Definition round16 (t : nat) := ROUND_16_80 (16 * (t / 16)) (t mod 16).

Lemma ROUND_LOADED_step64 i v X :
  rstep ROUND_LOADED (v, X) i =
  (fips_step 64 Sigma0 Sigma1 Ch Maj (nth i K512 0) (nth i X 0) v, X).
Proof.
  destruct v as [[[[[[[a b] c] d] e] f] g] h].
  unfold rstep, ROUND_LOADED, ROUND_00_15, fips_step. cbv zeta. regs_eq.
Qed.

Lemma X_at_mod X i k : X_at X (i mod 16 + k) = X_at X (i + k).
Proof. unfold X_at. by rewrite Nat.Div0.add_mod_idemp_l. Qed.

Lemma round16_step i v X :
  let x := u64 (sigma1 (X_at X (i + 14)) + X_at X (i + 9) + sigma0 (X_at X (i + 1)) + X_at X i) in
  rstep round16 (v, X) i =
  (fips_step 64 Sigma0 Sigma1 Ch Maj (nth i K512 0) x v, <[(i mod 16)%nat := x]> X).
Proof.
  destruct v as [[[[[[[a b] c] d] e] f] g] h]. cbv zeta.
  unfold rstep, round16, ROUND_16_80, ROUND_00_15, fips_step. cbv zeta.
  rewrite <-Nat.div_mod_eq, Nat.Div0.mod_mod, !X_at_mod.
  assert (X_at X (i mod 16) = X_at X i) as -> by (unfold X_at; by rewrite Nat.Div0.mod_mod).
  set (x := u64 (sigma1 _ + _ + _ + _)).
  assert (u64 (X_at X i + u64 (u64 (sigma0 (X_at X (i + 1)) + sigma1 (X_at X (i + 14))) + X_at X (i + 9))) = x) as ->
    by (unfold x; wrap_sum).
  clearbody x. regs_eq.
Qed.

(** One iteration of the loop over [i]. *)
Lemma rounds16 i q v X : i = (16 * q)%nat ->
  (let '(v, X) := ROUNDS_8 (ROUND_16_80 i) 0 v X in ROUNDS_8 (ROUND_16_80 i) 8 v X) =
  fold_left (rstep round16) (seq i 16) (v, X).
Proof.
  intros ->.
  assert (forall a s, (a <= 8)%nat ->
    fold_left (rstep (ROUND_16_80 (16 * q))) (seq a 8) s = fold_left (rstep round16) (seq (16 * q + a) 8) s) as E.
  { intros a s Ha. rewrite fold_seq_shift. apply fold_seq_ext.
    intros s' j Hj. unfold rstep, round16. destruct s' as [[[[[[[[? ?] ?] ?] ?] ?] ?] ?] ?].
    assert ((16 * q + j) / 16 = q /\ (16 * q + j) mod 16 = j)%nat as [-> ->]; [|done].
    split; [symmetry; apply (Nat.div_unique _ _ _ j); lia|symmetry; apply (Nat.mod_unique _ _ q); lia]. }
  rewrite ROUNDS_8_fold, E by lia. rewrite Nat.add_0_r. rewrite (fold_seq_app _ (16 * q) 8 8).
  destruct (fold_left _ (seq (16 * q) 8) (v, X)) as [v' X']. by rewrite ROUNDS_8_fold, E by lia.
Qed.

Lemma sha512_block_fips state data :
  sha512_block state data = fips512 state (map (fun i => CRYPTO_load_u64_be (drop (8 * i) data)) (seq 0 16)).
Proof.
  unfold sha512_block. fold (get_regs state). set (X := map _ _).
  assert (length X = 16%nat) as HX by done. clearbody X. rewrite fips512_code. unfold fips_compress. cbv zeta.
  rewrite <-(rounds_fips 64 Sigma0 Sigma1 sigma0 sigma1 Ch Maj K512 80 ROUND_LOADED round16) by
    (done || lia || apply ROUND_LOADED_step64 || apply round16_step).
  rewrite ROUNDS_8_fold. destruct (fold_left _ (seq 0 8) _) as [v1 X1] eqn:E1. rewrite ROUNDS_8_fold.
  rewrite (fold_seq_app _ 0 8 8), E1. cbn [Nat.add Nat.sub]. destruct (fold_left _ (seq 8 8) _) as [v2 X2]. clear E1.
  cbn [fold_left].
  rewrite (rounds16 16 1 v2 X2 eq_refl). destruct (fold_left _ (seq 16 16) _) as [v3 X3] eqn:E3.
  rewrite (rounds16 32 2 v3 X3 eq_refl). destruct (fold_left _ (seq 32 16) _) as [v4 X4] eqn:E4.
  rewrite (rounds16 48 3 v4 X4 eq_refl). destruct (fold_left _ (seq 48 16) _) as [v5 X5] eqn:E5.
  rewrite (rounds16 64 4 v5 X5 eq_refl).
  rewrite (fold_seq_app _ 16 16 48), E3. cbn [Nat.add]. rewrite (fold_seq_app _ 32 16 32), E4. cbn [Nat.add].
  rewrite (fold_seq_app _ 48 16 16), E5. cbn [Nat.add].
  by destruct (fold_left _ (seq 64 16) _) as [[[[[[[[? ?] ?] ?] ?] ?] ?] ?] ?].
Qed.

Lemma load_u64_be_take d : CRYPTO_load_u64_be (take 8 d) = CRYPTO_load_u64_be d.
Proof. unfold CRYPTO_load_u64_be. by rewrite take_take. Qed.

Lemma CRYPTO_load_u64_be_spec l : bytes l -> length l = 8%nat -> CRYPTO_load_u64_be l = be_val l.
Proof. intros. unfold CRYPTO_load_u64_be. rewrite take_ge by lia. by apply CRYPTO_bswap8_rev. Qed.

Lemma sha512_block_fips512 state b :
  bytes b -> length b = 128%nat -> sha512_block state b = fips512 state (be_block64 b).
Proof.
  intros Hb Hl. rewrite sha512_block_fips.
  assert (map (fun i => CRYPTO_load_u64_be (drop (8 * i) b)) (seq 0 16) = be_block64 b) as ->; [|reflexivity].
  unfold be_block64. apply map_ext_in. intros i Hi%in_seq.
  rewrite <-load_u64_be_take. apply CRYPTO_load_u64_be_spec.
  - by apply bytes_take, bytes_drop.
  - rewrite length_take, length_drop. lia.
Qed.

Lemma sha512_block_take state data : sha512_block state (take 128 data) = sha512_block state data.
Proof. rewrite !sha512_block_fips. by rewrite (load_words_take CRYPTO_load_u64_be 8 128 data eq_refl load_u64_be_take). Qed.

Lemma sha512_iter state data num :
  sha512_block_data_order state data num = iter_blocks sha512_block SHA512_CBLOCK state data num.
Proof. apply (while_num_iter sha512_block SHA512_CBLOCK). apply sha512_block_take. Qed.

#[export] Instance sha512_BlockFunction : BlockFunction sha512_block_data_order SHA512_CBLOCK.
Proof. apply (iter_blocks_BlockFunction _ sha512_block); [done|]. intros. apply sha512_iter. Qed.

(** * The collector *)

(** The context has seen the message [m]. *)
Definition sha512_seen (h0 : list Z) (c : SHA512_CTX) (m : list Z) : Prop :=
  exists full rest n, m = full ++ rest /\ blen full = 128 * n /\ 0 <= n /\
    h c = blocks sha512_block_data_order SHA512_CBLOCK h0 full /\ num c = blen rest /\ blen rest < 128 /\
    blen (p c) = 128 /\ take (Z.to_nat (num c)) (p c) = rest /\
    in_word 64 (Nl c) /\ in_word 64 (Nh c) /\ Nh c * 2 ^ 64 + Nl c = (8 * blen m) mod 2 ^ 128.

(** The 128-bit bit counter. *)
Lemma sha512_count nl nh len total :
  in_word 64 nl -> in_word 64 nh -> nh * 2 ^ 64 + nl = (8 * total) mod 2 ^ 128 -> 0 <= len < 2 ^ 64 ->
  let l := u64 (nl + u64 (Z.shiftl len 3)) in
  let nh' := u64 ((if l <? nl then u64 (nh + 1) else nh) + Z.shiftr len 61) in
  in_word 64 l /\ in_word 64 nh' /\ nh' * 2 ^ 64 + l = (8 * (total + len)) mod 2 ^ 128.
Proof.
  intros Hl Hh Ht Hlen l nh'. split; [by apply wrap_range|]. split; [by apply wrap_range|].
  assert (nh' * 2 ^ 64 + l = (nh * 2 ^ 64 + nl + 8 * len) mod 2 ^ 128) as ->.
  2: { rewrite Ht, Z.add_mod_idemp_l by done. f_equal. lia. }
  unfold nh', l. clear nh' l Ht. rewrite Z.shiftl_mul_pow2, Z.shiftr_div_pow2 by lia.
  unfold in_word, wrap in *. change (2 ^ 3) with 8.
  change (2 ^ 128) with (2 ^ 64 * 2 ^ 64). change (2 ^ 64) with (8 * 2 ^ 61) in *.
  assert (0 < 2 ^ 61) as Hq by lia. set (q := 2 ^ 61) in *. clearbody q.
  set (a := len / q). set (b := len mod q).
  assert (len = q * a + b /\ 0 <= b < q /\ 0 <= a < 8) as (Hlen' & Hb & Ha).
  { unfold a, b. pose proof (Z.div_mod len q). pose proof (Z.mod_pos_bound len q). nia. }
  clearbody a b. subst len.
  assert (((q * a + b) * 8) mod (8 * q) = 8 * b) as ->.
  { symmetry. apply (Z.mod_unique_pos _ _ a); lia. }
  set (w := 8 * q) in *. replace (8 * (q * a + b)) with (w * a + 8 * b) by (unfold w; lia).
  assert (8 * b < w) by (unfold w; lia).
  destruct (Z.lt_ge_cases (nl + 8 * b) w) as [Hlt|Hge].
  - rewrite (Z.mod_small (nl + 8 * b)) by lia. rewrite (proj2 (Z.ltb_ge _ nl)) by lia.
    apply (Z.mod_unique_pos _ _ ((nh + a) / w)).
    + pose proof (Z.mod_pos_bound (nh + a) w). nia.
    + pose proof (Z.div_mod (nh + a) w). nia.
  - assert ((nl + 8 * b) mod w = nl + 8 * b - w) as -> by (symmetry; apply (Z.mod_unique_pos _ _ 1); lia).
    rewrite (proj2 (Z.ltb_lt _ nl)) by lia. rewrite Z.add_mod_idemp_l by lia.
    apply (Z.mod_unique_pos _ _ ((nh + 1 + a) / w)).
    + pose proof (Z.mod_pos_bound (nh + 1 + a) w). nia.
    + pose proof (Z.div_mod (nh + 1 + a) w). nia.
Qed.

(** [rest] of the update: whole blocks first, what is left is kept. *)
Lemma sha512_rest_seen h0 h' p' num' data nl nh full n m md :
  blen full = 128 * n -> 0 <= n -> h' = blocks sha512_block_data_order SHA512_CBLOCK h0 full -> blen p' = 128 ->
  num' = 0 -> m = full ++ data ->
  in_word 64 nl -> in_word 64 nh -> nh * 2 ^ 64 + nl = (8 * blen m) mod 2 ^ 128 ->
  sha512_seen h0
    (let len := blen data in
     let h := if SHA512_CBLOCK <=? len then sha512_block_data_order h' data (len / SHA512_CBLOCK) else h' in
     let data := if SHA512_CBLOCK <=? len then drop (Z.to_nat (len - len mod SHA512_CBLOCK)) data else data in
     let len := if SHA512_CBLOCK <=? len then len mod SHA512_CBLOCK else len in
     if negb (len =? 0) then Sha512Ctx h nl nh (write_at 0 data p') len md
     else Sha512Ctx h nl nh p' num' md) m.
Proof.
  intros Hfull Hn Hh Hd -> Hm Hnl Hnh Hcount. pose proof (blen_nonneg data) as Hin.
  cbv zeta. unfold SHA512_CBLOCK in *. set (k := blen data / 128).
  assert (blen data = 128 * k + blen data mod 128 /\ 0 <= blen data mod 128 < 128 /\ 0 <= k) as (Hk & Hk2 & Hk3)
    by (unfold k; clear; pose proof (blen_nonneg data); zdiv).
  set (body := take (Z.to_nat (128 * k)) data). set (tail := drop (Z.to_nat (128 * k)) data).
  assert (blen body = 128 * k) as Hbody by (unfold body; rewrite blen_take; lia).
  assert (blen tail = blen data mod 128) as Htail by (unfold tail; rewrite blen_drop; lia).
  assert (data = body ++ tail) as Hsplit by (unfold body, tail; by rewrite take_drop).
  assert ((if 128 <=? blen data then sha512_block_data_order h' data k else h') =
    blocks sha512_block_data_order 128 h0 (full ++ body)) as ->.
  { rewrite (blocks_app sha512_block_data_order 128 h0 full body n k), <-Hh by done.
    unfold blocks. rewrite Hbody, Z.mul_comm, Z.div_mul by lia.
    destruct (Z.leb_spec 128 (blen data)), (Z.ltb_spec 0 k); try lia; [|done].
    rewrite Hsplit at 1. by apply (block_prefix (block_size := 128)). }
  assert ((if 128 <=? blen data then drop (Z.to_nat (blen data - blen data mod 128)) data else data) = tail) as ->.
  { unfold tail. destruct (Z.leb_spec 128 (blen data)).
    - do 2 f_equal. lia.
    - assert (k = 0) as -> by lia. done. }
  assert ((if 128 <=? blen data then blen data mod 128 else blen data) = blen tail) as ->.
  { destruct (Z.leb_spec 128 (blen data)); lia. }
  assert (m = (full ++ body) ++ tail) as Hm' by (by rewrite Hm, Hsplit, app_assoc).
  pose proof (blen_nonneg tail).
  destruct (Z.eqb_spec (blen tail) 0) as [E|E]; cbn [negb];
    exists (full ++ body), tail, (n + k); cbn; (split_and!; try done; try lia; [rewrite blen_app; lia| ..]).
  - by rewrite (blen_inv_nil _ E).
  - rewrite blen_write_at; lia.
  - unfold write_at. rewrite take_0, app_nil_l. apply take_blen_app.
Qed.

Lemma SHA512_Update_seen h0 c m data :
  sha512_seen h0 c m -> blen data < 2 ^ 64 -> sha512_seen h0 (SHA512_Update c data) (m ++ data).
Proof.
  intros (full & rest & n & -> & Hfull & Hn & Hh & Hnum & Hrest & Hd & Ht & Hnl & Hnh & Hc) Hlen.
  pose proof (blen_nonneg data) as Hin. pose proof (blen_nonneg rest) as Hr.
  unfold SHA512_Update. destruct (Z.eqb_spec (blen data) 0) as [E|E].
  { rewrite (blen_inv_nil _ E), app_nil_r. exists full, rest, n. by split_and!. }
  destruct (sha512_count (Nl c) (Nh c) (blen data) (blen (full ++ rest)) Hnl Hnh Hc) as (Hnl' & Hnh' & Hc'); [lia|].
  set (nl' := u64 (Nl c + _)) in *. set (nh' := u64 (_ + Z.shiftr (blen data) 61)) in *.
  rewrite <-blen_app in Hc'. clearbody nl' nh'. cbv zeta. rewrite Hnum. rewrite Hnum in Ht.
  destruct (Z.eqb_spec (blen rest) 0) as [E0|E0]; cbn [negb].
  { apply (sha512_rest_seen h0 (h c) (p c) (blen rest) data nl' nh' full n); try done.
    by rewrite (blen_inv_nil _ E0), app_nil_r. }
  unfold SHA512_CBLOCK. destruct (Z.ltb_spec (blen data) (128 - blen rest)) as [Hlt|Hge].
  - rewrite (wrap_small 32 (blen data)), wrap_small by (unfold in_word; pow2; lia).
    exists full, (rest ++ data), n. rewrite blen_app. split_and!; try done; try lia.
    + by rewrite <-app_assoc.
    + cbn. rewrite blen_write_at; lia.
    + cbn. unfold write_at. rewrite Ht, app_assoc, <-blen_app. apply take_blen_app.
  - set (bs := take (Z.to_nat (128 - blen rest)) data).
    assert (blen bs = 128 - blen rest) as Hbsl by (apply blen_take; lia).
    assert (write_at (blen rest) bs (p c) = rest ++ bs) as ->.
    { unfold write_at. rewrite Ht, Hbsl. replace (blen rest + (128 - blen rest)) with 128 by lia.
      rewrite (drop_ge (p c)) by (unfold blen in Hd; lia). by rewrite app_nil_r. }
    assert (blen (rest ++ bs) = 128) as Hblk by (rewrite blen_app; lia).
    apply (sha512_rest_seen h0 _ _ 0 (drop (Z.to_nat (128 - blen rest)) data) nl' nh' (full ++ rest ++ bs) (n + 1));
      try done; [rewrite blen_app; lia|lia| |].
    + rewrite (blocks_app sha512_block_data_order SHA512_CBLOCK h0 full _ n 1), <-Hh by (done || lia).
      by apply (blocks_one sha512_block_data_order SHA512_CBLOCK).
    + rewrite <-!app_assoc. unfold bs. by rewrite take_drop.
Qed.

(** Storing the two words of the length. *)
Lemma sha512_stores x y nh nl :
  blen x = 112 -> blen y = 16 -> in_word 64 nh -> in_word 64 nl ->
  write_at (SHA512_CBLOCK - 8) (CRYPTO_store_u64_be nl) (write_at (SHA512_CBLOCK - 16) (CRYPTO_store_u64_be nh) (x ++ y)) =
  x ++ be_bytes 8 nh ++ be_bytes 8 nl.
Proof.
  intros Hx Hy Hnh Hnl. rewrite !CRYPTO_store_u64_be_spec by done. unfold SHA512_CBLOCK.
  assert (blen (take 8 y) = 8) as Hy1 by (apply (blen_take 8); lia).
  assert (blen (drop 8 y) = 8) as Hy2 by (rewrite (blen_drop 8); lia).
  rewrite <-(take_drop 8 y). change (128 - 16) with 112. change (128 - 8) with 120. rewrite <-Hx.
  rewrite write_at_app by (rewrite Hy1, blen_be_bytes; done).
  replace 120 with (blen (x ++ be_bytes 8 nh)) by (rewrite blen_app, Hx, blen_be_bytes; done).
  rewrite app_assoc, <-(app_nil_r (drop 8 y)), write_at_app by (rewrite Hy2, blen_be_bytes; done).
  by rewrite app_nil_r, <-app_assoc.
Qed.

Lemma sha512_pad_len_eq x q k : 0 <= k < 128 -> x + 17 + k = 128 * q -> (- (x + 17)) mod 128 = k.
Proof. intros Hk Hx. symmetry. apply (Z.mod_unique_pos _ _ (- q)); lia. Qed.

(** The chaining value of the final call. *)
Lemma sha512_final_seen h0 c m out_null :
  sha512_seen h0 c m ->
  h (sha512_final_impl out_null c).2 =
  sha512_block_data_order h0 (sha512_pad m) (blen (sha512_pad m) / SHA512_CBLOCK).
Proof.
  intros (full & rest & n & -> & Hfull & Hn & Hh & Hnum & Hrest & Hd & Ht & Hnl & Hnh & Hc).
  pose proof (blen_nonneg rest) as Hr. rewrite Hnum in Ht. unfold sha512_final_impl. rewrite Hnum.
  set (r := blen rest) in *. set (lenf := be_bytes 16 (8 * blen (full ++ rest))).
  assert (blen lenf = 16) as Hlf by (unfold lenf; by rewrite blen_be_bytes).
  assert (lenf = be_bytes 8 (Nh c) ++ be_bytes 8 (Nl c)) as Hlfs.
  { unfold lenf. rewrite <-(be_bytes_mod 16). change (256 ^ Z.of_nat 16) with (2 ^ 128). rewrite <-Hc.
    by apply (be_bytes_split 8 8). }
  (* the block with the length at its end *)
  assert (forall d k, blen d = 128 -> 0 <= k <= 112 ->
    write_at (SHA512_CBLOCK - 8) (CRYPTO_store_u64_be (Nl c)) (write_at (SHA512_CBLOCK - 16) (CRYPTO_store_u64_be (Nh c))
      (write_at k (replicate (Z.to_nat (SHA512_CBLOCK - 16 - k)) 0) d)) =
    take (Z.to_nat k) d ++ replicate (Z.to_nat (112 - k)) 0 ++ lenf) as Hlast.
  { intros d k Hdl Hk. change (SHA512_CBLOCK - 16 - k) with (112 - k). set (z := replicate (Z.to_nat (112 - k)) 0).
    assert (blen z = 112 - k) as Hz by (apply blen_replicate; lia).
    assert (write_at k z d = (take (Z.to_nat k) d ++ z) ++ drop (Z.to_nat 112) d) as ->.
    { unfold write_at. rewrite Hz, <-app_assoc. do 3 f_equal. lia. }
    rewrite sha512_stores, Hlfs, <-!app_assoc; [done| | |done|done].
    - rewrite blen_app, blen_take; lia.
    - rewrite blen_drop; lia. }
  (* the bytes before it *)
  set (d80 := write_at r [0x80] (p c)).
  assert (blen d80 = 128) as Hd80 by (unfold d80; rewrite blen_write_at; rewrite ?blen_singleton; lia).
  assert (take (Z.to_nat (r + 1)) d80 = rest ++ [0x80]) as Ht80.
  { unfold d80, write_at. rewrite Ht, app_assoc. unfold r. rewrite <-(blen_singleton 128), <-blen_app. apply take_blen_app. }
  unfold sha512_pad. fold lenf. rewrite (blen_app full rest), Hfull. fold r.
  change (SHA512_CBLOCK - 16) with 112 at 1. destruct (Z.ltb_spec 112 (r + 1)) as [Hover|Hfit].
  - assert (write_at (r + 1) (replicate (Z.to_nat (SHA512_CBLOCK - (r + 1))) 0) d80 =
      rest ++ [0x80] ++ replicate (Z.to_nat (128 - (r + 1))) 0) as ->.
    { unfold write_at. change (SHA512_CBLOCK - (r + 1)) with (128 - (r + 1)).
      rewrite Ht80, blen_replicate, (drop_ge d80) by (unfold blen in Hd80; lia).
      by rewrite app_nil_r, <-app_assoc. }
    set (blk := rest ++ [0x80] ++ _).
    assert (blen blk = 128) as Hblk by (unfold blk; rewrite !blen_app, blen_replicate, blen_singleton by lia; fold r; lia).
    rewrite (Hlast blk 0 Hblk ltac:(lia)), take_0, app_nil_l.
    set (blk2 := replicate (Z.to_nat (112 - 0)) 0 ++ lenf).
    assert (blen blk2 = 128) as Hblk2 by (unfold blk2; rewrite blen_app, blen_replicate by lia; lia).
    rewrite (blocks_one _ SHA512_CBLOCK _ blk), (blocks_one _ SHA512_CBLOCK _ blk2), Hh by done.
    assert ((- (128 * n + r + 17)) mod 128 = (128 - (r + 1)) + (112 - 0)) as ->.
    { apply (sha512_pad_len_eq _ (n + 2)); lia. }
    rewrite Z2Nat.inj_add, replicate_add by lia.
    replace ((full ++ rest) ++ _) with (full ++ blk ++ blk2) by (unfold blk, blk2; by rewrite <-!app_assoc).
    rewrite (md_hash_blocks sha512_block_data_order SHA512_CBLOCK h0 full (blk ++ blk2) n 2)
      by (rewrite ?blen_app; unfold SHA512_CBLOCK; lia).
    rewrite <-(blocks_app _ SHA512_CBLOCK _ blk blk2 1 1) by (unfold SHA512_CBLOCK; lia). by destruct out_null.
  - rewrite (Hlast d80 (r + 1) Hd80 ltac:(lia)), Ht80.
    set (blk := (rest ++ [0x80]) ++ _).
    assert (blen blk = 128) as Hblk
      by (unfold blk; rewrite !blen_app, blen_replicate, blen_singleton by lia; fold r; lia).
    rewrite (blocks_one _ SHA512_CBLOCK _ blk), Hh by done.
    assert ((- (128 * n + r + 17)) mod 128 = 112 - (r + 1)) as -> by (apply (sha512_pad_len_eq _ (n + 1)); lia).
    replace ((full ++ rest) ++ _) with (full ++ blk) by (unfold blk; by rewrite <-!app_assoc).
    rewrite (md_hash_blocks sha512_block_data_order SHA512_CBLOCK h0 full blk n 1) by (done || unfold SHA512_CBLOCK; lia).
    by destruct out_null.
Qed.

(** * The digests *)

Lemma sha512_pad_length m : exists n, (0 < n)%nat /\ length (sha512_pad m) = (128 * n)%nat.
Proof.
  unfold sha512_pad. set (r := (- (blen m + 17)) mod 128). pose proof (blen_nonneg m).
  assert (exists q, blen m + 17 + r = 128 * q /\ 0 <= r) as (q & Hq & Hr).
  { exists (- ((- (blen m + 17)) / 128)). unfold r. pose proof (Z.div_mod (- (blen m + 17)) 128).
    pose proof (Z.mod_pos_bound (- (blen m + 17)) 128). lia. }
  exists (Z.to_nat q). split; [lia|]. rewrite !length_app, length_replicate, length_be_bytes. cbn [length].
  unfold blen in *. lia.
Qed.

Lemma sha512_pad_bytes m : bytes m -> bytes (sha512_pad m).
Proof.
  intros Hm. unfold sha512_pad. rewrite !bytes_app. split_and!; [done| | |apply bytes_be_bytes].
  - by repeat constructor.
  - by apply bytes_replicate.
Qed.

Lemma fips512_hash_words h0 m : words 64 8 h0 -> words 64 8 (fips512_hash h0 m).
Proof.
  intros Hh. apply fold_left_words; [done|]. intros H b. unfold fips512, fips_compress. cbv zeta.
  destruct (fold_left _ _ _) as [[[[[[[? ?] ?] ?] ?] ?] ?] ?]. split; [done|].
  repeat constructor; by apply wrap_range.
Qed.

(** Feeding a message to an initialised context. *)
Definition sha512_feed (c : SHA512_CTX) (pieces : list (list Z)) : SHA512_CTX := fold_left SHA512_Update pieces c.

Lemma sha512_feed_seen h0 c m pieces :
  sha512_seen h0 c m -> Forall (fun p => blen p < 2 ^ 64) pieces -> sha512_seen h0 (sha512_feed c pieces) (m ++ concat pieces).
Proof.
  intros Hc Hp. unfold sha512_feed. revert c m Hc. induction Hp as [|p pieces Hp Hps IH]; intros c m Hc; cbn.
  - by rewrite app_nil_r.
  - rewrite app_assoc. apply IH. by apply SHA512_Update_seen.
Qed.

Lemma sha512_feed_md_len c pieces : md_len (sha512_feed c pieces) = md_len c.
Proof.
  unfold sha512_feed. revert c. induction pieces as [|q pieces IH]; intros c; cbn; [done|]. rewrite IH.
  unfold SHA512_Update. cbv zeta. repeat case_match; done.
Qed.

Lemma sha512_pad_hash h0 m : bytes m ->
  sha512_block_data_order h0 (sha512_pad m) (blen (sha512_pad m) / SHA512_CBLOCK) = fips512_hash h0 m.
Proof.
  intros Hm. rewrite (iter_hash _ sha512_block (fun H b => fips512 H (be_block64 b)) SHA512_CBLOCK);
    [|done|by apply sha512_pad_bytes|apply sha512_pad_length|intros; apply sha512_iter|apply sha512_block_fips512].
  unfold fips512_hash. cbv zeta. generalize (sha512_pad m). intros p. reflexivity.
Qed.

Lemma sha512_final_out c :
  (sha512_final_impl false c).1 =
  Some (concat (map (fun i => CRYPTO_store_u64_be (nth i (h (sha512_final_impl false c).2) 0)) (seq 0 (Z.to_nat (md_len c / 8))))).
Proof.
  unfold sha512_final_impl. generalize sha512_block_data_order. intros f.
  by destruct (if SHA512_CBLOCK - 16 <? num c + 1 then _ else _) as [[h' p'] n'].
Qed.

(** The digest is the first [len] bytes of the hash value. *)
Lemma sha512_final_feed h0 mem len pieces :
  bytes (concat pieces) -> Forall (fun p => blen p < 2 ^ 64) pieces -> words 64 8 h0 ->
  0 <= len <= SHA512_DIGEST_LENGTH -> blen mem = 128 ->
  (sha512_final_impl false (sha512_feed (Sha512Ctx h0 0 0 mem 0 len) pieces)).1 =
  Some (be_words 8 (take (Z.to_nat (len / 8)) (fips512_hash h0 (concat pieces)))).
Proof.
  intros Hb Hp Hh [Hlen0 Hlen] Hmem. rewrite sha512_final_out, sha512_feed_md_len. cbn [md_len].
  rewrite (sha512_final_seen h0 _ (concat pieces)), sha512_pad_hash by
    (done || (apply (sha512_feed_seen h0 _ []); [exists [], [], 0; cbn; by split_and!|done])).
  f_equal. apply (store_words _ 64 8 _ 8).
  - apply CRYPTO_store_u64_be_spec.
  - by apply fips512_hash_words.
  - unfold SHA512_DIGEST_LENGTH in Hlen. clear -Hlen Hlen0. zdiv.
Qed.
