(* ===== verification/Sha512X86.v ===== *)
(** sha512.c: the block function for 32-bit x86 computes what the unrolled one
    computes. The registers live in an array through which the pointer [F]
    slides; the words of the schedule stay in it. *)

From S2P Require Import Prelude CryptoInternal Md32 HashSpec Sha2Spec Fips180 Sha512.

Lemma nth_insert (X : list Z) i j x :
  (i < length X)%nat -> nth j (<[i := x]> X) 0 = if decide (j = i) then x else nth j X 0.
Proof.
  intros Hi. rewrite !nth_lookup. destruct (decide (j = i)) as [->|Hne].
  - by rewrite list_lookup_insert_eq.
  - by rewrite list_lookup_insert_ne.
Qed.

(** Reading the array after the three stores of a round. *)
Lemma nth_x86_start T F A E X j : (F + 8 < length X)%nat ->
  nth j (x86_start T F A E X) 0 =
  if decide (j = F + 8)%nat then T else if decide (j = F + 4)%nat then E else if decide (j = F) then A else nth j X 0.
Proof. intros HF. unfold x86_start. rewrite !nth_insert by (rewrite ?length_insert; lia). done. Qed.

Ltac x86_nth := rewrite nth_x86_start by lia; repeat (destruct (decide _); try lia).

(** Before round [i]: the registers [v] and the words [W] of the rounds done. *)
Definition x86_inv (W : nat -> Z) (i : nat) (v : regs) (s : nat * Z * Z * list Z) : Prop :=
  let '(F, A, E, X) := s in
  let f k := nth (F + k) X 0 in
  (F + i = 80)%nat /\ length X = 89%nat /\
  v = (A, f 1%nat, f 2%nat, f 3%nat, E, f 5%nat, f 6%nat, f 7%nat) /\
  forall k, (k < i)%nat -> nth (88 - k) X 0 = W k.

(** One round with the word [T]. *)
Lemma x86_round_inv W i v F A E X T :
  x86_inv W i v (F, A, E, X) -> (i < 80)%nat -> T = W i ->
  let X' := x86_start T F A E X in
  let '(A', E') := x86_round i T F A E X' in
  x86_inv W (S i) (fips_step 64 Sigma0 Sigma1 Ch Maj (nth i K512 0) (W i) v) (F - 1, A', E', X')%nat.
Proof.
  intros (HF & HX & -> & HW) Hi ->. cbv zeta. unfold x86_round.
  assert (forall k, (k <> 0)%nat -> (k <> 4)%nat -> (k <> 8)%nat ->
    nth (F + k) (x86_start (W i) F A E X) 0 = nth (F + k) X 0) as Hold by (intros; x86_nth; done).
  rewrite !Hold by lia.
  assert (forall k, nth (F - 1 + S k) (x86_start (W i) F A E X) 0 = nth (F + k) (x86_start (W i) F A E X) 0) as Hsh
    by (intros k; f_equal; lia).
  unfold x86_inv. split_and!; [lia|unfold x86_start; by rewrite !length_insert| |].
  - rewrite !Hsh.
    assert (nth (F + 0) (x86_start (W i) F A E X) 0 = A) as -> by (x86_nth; done).
    assert (nth (F + 4) (x86_start (W i) F A E X) 0 = E) as -> by (x86_nth; done).
    rewrite !Hold by lia. unfold fips_step.
    match goal with |- (?x, _, _, _, ?y, _, _, _) = (?x', _, _, _, ?y', _, _, _) =>
      assert (x = x') as ->; [wrap_sum|assert (y = y') as ->; [wrap_sum|done]] end.
  - intros k Hk. x86_nth; try (apply HW; lia). f_equal. lia.
Qed.

Lemma x86_block_fips mem state in_ : length mem = 89%nat ->
  sha512_block_x86 mem state in_ = fips512 state (map (fun i => CRYPTO_load_u64_be (drop (8 * i) in_)) (seq 0 16)).
Proof.
  intros Hmem. set (M := map _ _). assert (length M = 16%nat) as HM by done.
  set (W := fun t => nth t (fips_schedule 64 sigma0 sigma1 80 M) 0).
  set (ref i := fold_left (fun v t => fips_step 64 Sigma0 Sigma1 Ch Maj (nth t K512 0) (W t) v) (seq 0 i) (get_regs state)).
  assert (forall i, ref (S i) = fips_step 64 Sigma0 Sigma1 Ch Maj (nth i K512 0) (W i) (ref i)) as Href
    by (intros i; unfold ref; by rewrite seq_S, fold_left_app).
  unfold sha512_block_x86. cbv zeta.
  set (X0 := <[(80 + 5)%nat := _]> _). set (s0 := (80%nat, nth 0 state 0, nth 4 state 0, X0)).
  assert (x86_inv W 0 (ref 0%nat) s0) as H0.
  { unfold s0, x86_inv. assert (length X0 = 89%nat) as HX0 by (unfold X0; by rewrite !length_insert).
    split_and!; [done|done| |lia]. unfold ref, get_regs. cbn [seq fold_left].
    unfold X0. rewrite !nth_insert by (rewrite ?length_insert; lia). done. }
  assert (x86_inv W (0 + 16) (ref (0 + 16)%nat) (fold_left (x86_loop1 in_) (seq 0 16) s0)) as H1.
  { apply (fold_seq_inv (fun i s => x86_inv W i (ref i) s)); [done|]. intros j [[[F A] E] X] Hj Hs. rewrite Href.
    unfold x86_loop1. pose proof (x86_round_inv W j _ F A E X (CRYPTO_load_u64_be (drop (j * 8) in_)) Hs ltac:(lia)) as Hr.
    cbv zeta in Hr. destruct (x86_round _ _ _ _ _ _) as [A' E']. apply Hr.
    unfold W, fips_schedule. rewrite extend_old by lia. unfold M.
    rewrite (nth_indep _ 0 (CRYPTO_load_u64_be (drop (8 * 0) in_))) by (rewrite length_map, length_seq; lia).
    rewrite (map_nth (fun i => CRYPTO_load_u64_be (drop (8 * i) in_))), seq_nth by lia. do 2 f_equal. lia. }
  destruct (fold_left (x86_loop1 in_) (seq 0 16) s0) as [[[F1 A1] E1] X1].
  set (s1 := (F1, A1, E1, X1)) in *.
  assert (x86_inv W (16 + 64) (ref (16 + 64)%nat) (fold_left x86_loop2 (seq 16 64) s1)) as H2.
  { apply (fold_seq_inv (fun i s => x86_inv W i (ref i) s)); [done|]. intros j [[[F A] E] X] Hj Hs. rewrite Href.
    unfold x86_loop2. cbv zeta. set (T := u64 (u64 _ + u64 _)).
    pose proof (x86_round_inv W j _ F A E X T Hs ltac:(lia)) as Hr.
    cbv zeta in Hr. destruct (x86_round _ _ _ _ _ _) as [A' E']. apply Hr.
    destruct Hs as (HF & _ & _ & HW).
    assert (exists k, j = 16 + k)%nat as [k ->] by (exists (j - 16)%nat; lia).
    unfold T, W. rewrite (schedule_rec 64 sigma0 sigma1 80 ltac:(lia) M k) by (done || lia). fold W.
    replace (F + (8 + 16 - 1))%nat with (88 - (k + 1))%nat by lia.
    replace (F + (8 + 16 - 14))%nat with (88 - (k + 14))%nat by lia.
    replace (F + (8 + 16 - 9))%nat with (88 - (k + 9))%nat by lia.
    replace (F + (8 + 16))%nat with (88 - k)%nat by lia.
    rewrite !HW by lia. unfold W. wrap_sum. }
  destruct (fold_left x86_loop2 (seq 16 64) s1) as [[[F2 A2] E2] X2].
  destruct H2 as (_ & _ & Hv & _). cbn [Nat.add] in Hv.
  rewrite fips512_code. unfold fips_compress. cbv zeta. change (fold_left _ (seq 0 80) _) with (ref 80%nat). rewrite Hv. reflexivity.
Qed.
