(* ===== verification/BytestringTheorems.v ===== *)
(** The properties of the [CBS] reader and the [CBB] writer (crypto/bytestring)
    that their callers rely on. *)

From S2P Require Import Prelude CryptoInternal Cbs Cbb CbbSpec Asn1SetOf Oid.

(** * Reading DER *)

(** C1: [CBS_get_any_asn1_element] accepts exactly the DER encodings: it
    returns an element and the rest [r] if and only if the input is the
    canonical identifier octets of a 32-bit tag, the minimal length octets, the
    contents and [r]; what it reports is that element, its tag and the length
    of its header. *)
Theorem der_reader_sound_complete s e r :
  bytes s ->
  CBS_get_any_asn1_element s = (Some e, r) <->
  exists tag body, in_word 32 tag /\ blen body < 2 ^ 32 /\
    e = AsnElement (asn1_bytes tag body) tag (blen (asn1_header tag (blen body))) false /\
    s = asn1_bytes tag body ++ r.
Proof. exact (CBS_get_any_asn1_element_Some s e r). Qed.

Lemma der_reader_sound_complete_witness :
  CBS_get_any_asn1_element [0x30; 3; 2; 1; 5; 7] =
    (Some (AsnElement [0x30; 3; 2; 1; 5] 0x20000010 2 false), [7]).
Proof.
  apply (der_reader_sound_complete [0x30; 3; 2; 1; 5; 7]).
  - repeat (apply Forall_cons_2; [split; [vm_compute; discriminate|vm_compute; reflexivity]|]). apply Forall_nil_2.
  - exists 0x20000010, [2; 1; 5].
    split; [split; [vm_compute; discriminate|vm_compute; reflexivity]|].
    split; [vm_compute; reflexivity|]. split; vm_compute; reflexivity.
Defined.

(** C29: INTEGERs: [CBS_get_asn1_uint64] and [CBS_get_asn1_int64] read a DER
    INTEGER exactly when it is the minimal encoding of a value that fits 64 bits,
    unsigned or in two's complement; negative, padded and longer ones are
    refused where they must be. *)
Theorem asn1_integers_canonical s v r :
  bytes s ->
  (CBS_get_asn1_uint64 s = (Some v, r) <->
   in_word 64 v /\ s = asn1_bytes CBS_ASN1_INTEGER (asn1_uint64_body v) ++ r) /\
  (CBS_get_asn1_int64 s = (Some v, r) <->
   - 2 ^ 63 <= v < 2 ^ 63 /\ s = asn1_bytes CBS_ASN1_INTEGER (asn1_int64_body v) ++ r).
Proof. intros Hs. split; [exact (CBS_get_asn1_uint64_Some s v r Hs)|exact (CBS_get_asn1_int64_Some s v r Hs)]. Qed.

Lemma asn1_integers_canonical_witness :
  CBS_get_asn1_uint64 [2; 2; 0; 0x80; 9] = (Some 128, [9]) /\ CBS_get_asn1_int64 [2; 2; 0xff; 0x7f] = (Some (-129), []).
Proof.
  split.
  - apply (asn1_integers_canonical [2; 2; 0; 0x80; 9]); [by repeat constructor|].
    split; [split; [vm_compute; discriminate|vm_compute; reflexivity]|vm_compute; reflexivity].
  - apply (asn1_integers_canonical [2; 2; 0xff; 0x7f]); [by repeat constructor|].
    split; [split; [vm_compute; discriminate|vm_compute; reflexivity]|vm_compute; reflexivity].
Defined.

(** C30: The lax reader agrees with the strict one on DER: an element is
    accepted by [CBS_get_any_asn1_element] if and only if
    [CBS_get_any_ber_asn1_element] accepts it with the same result and reports
    that no BER-only length was found. *)
Theorem ber_reader_extends_der s e r :
  bytes s ->
  CBS_get_any_asn1_element s = (Some e, r) <->
  CBS_get_any_ber_asn1_element s = (Some e, r) /\ ae_ber_found e = false.
Proof. exact (CBS_get_any_ber_asn1_element_der s e r). Qed.

Lemma ber_reader_extends_der_witness :
  CBS_get_any_asn1_element [4; 1; 7] = (Some (AsnElement [4; 1; 7] 4 2 false), []).
Proof.
  apply (ber_reader_extends_der [4; 1; 7]).
  - repeat (apply Forall_cons_2; [split; [vm_compute; discriminate|vm_compute; reflexivity]|]). apply Forall_nil_2.
  - split; vm_compute; reflexivity.
Defined.

(** * Writing *)

Lemma flush_null_base {m : Malloc} h p c :
  cbbs h !! p = Some c -> base c = false -> CBB_flush p h = (None, h).
Proof.
  intros Hp Hc. unfold CBB_flush. cbn [cbb_flush].
  by rewrite (get_cbb_bind _ _ _ _ Hp), massert_bind, Hc.
Qed.

Lemma flush_error {m : Malloc} h b p :
  buffer h = Some b -> error b = true -> CBB_flush p h = (None, h).
Proof.
  intros Hb He. unfold CBB_flush. cbn [cbb_flush].
  destruct (cbbs h !! p) as [c|] eqn:Hp; [|by unfold mbind at 1, M_bind at 1, get_cbb; rewrite Hp].
  rewrite (get_cbb_bind _ _ _ _ Hp), massert_bind. destruct (base c); [|done].
  by rewrite (get_buffer_bind _ _ _ Hb), massert_bind, He.
Qed.

(** C2: [CBB_flush] refines closing the open frames: on a heap that represents
    a stack of frames, flushing the struct [p] writes the length prefix of
    every frame above it, innermost first, moves contents to make room for long
    DER lengths, and leaves a heap that represents the stack with those frames
    appended to [p]'s bytes; every write to a closed child fails afterwards. *)
Theorem flush_refines_collapse {m : Malloc} h b st1 p k bs st2 inner :
  rep h b (st1 ++ (p, k, bs) :: st2) -> collapse st2 = Some inner ->
  room b (blen (flat st1) + klen k + blen (bs ++ inner)) ->
  exists h' b', CBB_flush p h = (Some tt, h') /\ rep h' b' (st1 ++ [(p, k, bs ++ inner)]) /\
    forall q v, q ∈ locs st2 -> CBB_add_u8 q v h' = (None, h').
Proof.
  intros Hr Hc Hroom.
  destruct (CBB_flush_rep h b st1 p k bs st2 inner Hr Hc Hroom) as (h' & b' & E & Hr' & _ & _ & _ & Hdead).
  exists h', b'. split_and!; [done..|]. intros q v (c & Hq & Hb)%Hdead.
  unfold CBB_add_u8, cbb_add_u. by rewrite (bind_err _ _ _ _ (flush_null_base _ _ _ Hq Hb)).
Qed.

(** A heap with a root that holds the byte 9, a DER child and, inside it, a
    child with a one-byte length prefix. *)
Definition nested_heap : heap :=
  Heap (Some (Buffer [9; 4; 0; 7; 0; 8; 8; 0] 7 8 true false))
    (list_to_map [(0%nat, Cbb true (Some 1%nat) 0 0 false false);
                  (1%nat, Cbb true (Some 2%nat) 2 1 true true);
                  (2%nat, Cbb true None 4 1 false true)]) 3.

Definition nested_stack : list frame :=
  [(0%nat, KRoot, [9; 4]); (1%nat, KAsn1, [7]); (2%nat, KLen 1, [8; 8])].

Lemma nested_rep : rep nested_heap (Buffer [9; 4; 0; 7; 0; 8; 8; 0] 7 8 true false) nested_stack.
Proof.
  split.
  - reflexivity.
  - split; [vm_compute; reflexivity|split; [split; vm_compute; discriminate|vm_compute; reflexivity]].
  - reflexivity.
  - vm_compute. reflexivity.
  - cbn. split_and!; try done; vm_compute; lia.
  - apply (bool_decide_unpack _). vm_compute. done.
  - intros q. rewrite elem_of_dom. intros [c Hc]. cbn in *.
    repeat (apply lookup_insert_Some in Hc as [[<- _]|[_ Hc]]; [lia|]). by rewrite lookup_empty in Hc.
Defined.

Lemma flush_refines_collapse_witness :
  exists h' b', @CBB_flush zero_malloc 0%nat nested_heap = (Some tt, h') /\
    @rep h' b' [(0%nat, KRoot, [9; 4; 4; 7; 2; 8; 8])].
Proof.
  destruct (@flush_refines_collapse zero_malloc nested_heap _ [] 0%nat KRoot [9; 4]
    [(1%nat, KAsn1, [7]); (2%nat, KLen 1, [8; 8])] [4; 7; 2; 8; 8] nested_rep) as (h' & b' & E & Hr & _).
  - vm_compute. reflexivity.
  - split; [vm_compute; reflexivity|left; vm_compute; discriminate].
  - exists h', b'. split; [exact E|exact Hr].
Defined.

(** The heaps that calls of the two functions that do not look at the error lead
    to. *)
Inductive unchecked (h : heap) : heap -> Prop :=
  | unchecked_nil : unchecked h h
  | unchecked_did_write h1 q n : unchecked h h1 -> unchecked h (CBB_did_write q n h1).2
  | unchecked_discard h1 q : unchecked h h1 -> unchecked h (CBB_discard_child q h1).2.

Definition error_set (h : heap) : Prop := exists b, buffer h = Some b /\ error b = true.

Lemma unchecked_error h h' : error_set h -> unchecked h h' -> error_set h'.
Proof.
  intros He. induction 1 as [|h1 q n _ IH|h1 q _ IH]; [done| |]; destruct IH as (b & Hb & Hbe).
  - unfold CBB_did_write. destruct (cbbs h1 !! q) as [c|] eqn:Hq; [|by unfold mbind at 1, M_bind at 1, get_cbb; rewrite Hq; exists b].
    rewrite (get_cbb_bind _ _ _ _ Hq), (get_buffer_bind _ _ _ Hb), massert_bind.
    destruct (negb _); [|by exists b]. unfold on_buffer, mmodify. rewrite Hb. by eexists.
  - unfold CBB_discard_child. destruct (cbbs h1 !! q) as [c|] eqn:Hq; [|by unfold mbind at 1, M_bind at 1, get_cbb; rewrite Hq; exists b].
    rewrite (get_cbb_bind _ _ _ _ Hq). destruct (child c) as [k|]; [|by exists b].
    destruct (cbbs h1 !! k) as [ch|] eqn:Hk; [|by unfold mbind at 1, M_bind at 1, get_cbb; rewrite Hk; exists b].
    rewrite (get_cbb_bind _ _ _ _ Hk). unfold on_buffer, mmodify, mbind, M_bind. rewrite Hb. by eexists.
Qed.

(** C31: A length that does not fit its prefix is never written silently: if
    some open frame above [p] is too long for its length prefix, [CBB_flush]
    fails, and the error sticks: from then on every flush, every write, the
    opening of every child and [CBB_finish] fail on every struct of the tree and
    leave the heap as it is. [CBB_did_write] and [CBB_discard_child] do not look
    at the error, but no sequence of them clears it. *)
Theorem flush_overflow_sticky {m : Malloc} h b st1 p k bs st2 :
  rep h b (st1 ++ (p, k, bs) :: st2) -> collapse st2 = None ->
  room b (blen (flat st1) + cost ((p, k, bs) :: st2)) ->
  exists h', CBB_flush p h = (None, h') /\
    forall h2 q, unchecked h' h2 ->
      CBB_flush q h2 = (None, h2) /\
      (forall out_null, CBB_finish q out_null h2 = (None, h2)) /\
      (forall v n, cbb_add_u q v n h2 = (None, h2)) /\
      (forall data, CBB_add_bytes q data h2 = (None, h2)) /\
      (forall n, CBB_add_space q n h2 = (None, h2)) /\
      (forall n, CBB_add_zeros q n h2 = (None, h2)) /\
      (forall n, CBB_reserve q n h2 = (None, h2)) /\
      (forall c tag, CBB_add_asn1 q c tag h2 = (None, h2)) /\
      (forall c n, cbb_add_length_prefixed q c n h2 = (None, h2)).
Proof.
  intros [Hb Hok He Hc Hf Hnd Hnx] Hcol Hroom. rewrite flat_app in Hc.
  pose proof (frames_ok_split _ _ _ _ _ Hf) as Hf2. rewrite Z.add_0_l in Hf2.
  rewrite locs_app in Hnd. apply NoDup_app in Hnd as (_ & _ & Hnd).
  pose proof (locs_length_size _ _ _ Hf2 Hnd) as Hsz. cbn [length] in Hsz.
  destruct (cbb_flush_overflow st2 (S (size (cbbs h))) p k bs (flat st1) h b)
    as (h' & b' & E & Hb' & He'); [try done..|].
  { unfold frame in *. lia. }
  exists h'. split; [exact E|]. intros h2 q (b2 & Hb2 & He2)%unchecked_error; [|by exists b'].
  pose proof (flush_error h2 b2 q Hb2 He2) as Hq.
  split_and!; [done| |try (intros; by apply bind_err)..].
  - intros out_null. unfold CBB_finish.
    destruct (cbbs h2 !! q) as [c|] eqn:Hcq; [|by unfold mbind at 1, M_bind at 1, get_cbb; rewrite Hcq].
    rewrite (get_cbb_bind _ _ _ _ Hcq), massert_bind. destruct (is_child c); [done|].
    cbn [negb]. by apply bind_err.
  - intros n. by apply bind_err, bind_err.
Qed.

Definition long_stack : list frame :=
  [(0%nat, KRoot, []); (1%nat, KLen 1, replicate 256 7)].

Definition long_buffer : cbb_buffer_st := Buffer (0 :: replicate 256 7) 257 257 true false.

Definition long_heap : heap :=
  Heap (Some long_buffer)
    (list_to_map [(0%nat, Cbb true (Some 1%nat) 0 0 false false);
                  (1%nat, Cbb true None 0 1 false true)]) 2.

Lemma long_rep : rep long_heap long_buffer long_stack.
Proof.
  split.
  - reflexivity.
  - split; [vm_compute; reflexivity|split; [split; vm_compute; discriminate|vm_compute; reflexivity]].
  - reflexivity.
  - vm_compute. reflexivity.
  - cbn [frames_ok long_stack]. split_and!; try done; vm_compute; lia.
  - apply (bool_decide_unpack _). vm_compute. done.
  - intros q. rewrite elem_of_dom. intros [c Hc]. cbn in *.
    repeat (apply lookup_insert_Some in Hc as [[<- _]|[_ Hc]]; [lia|]). by rewrite lookup_empty in Hc.
Defined.

Lemma flush_overflow_sticky_witness :
  exists h', @CBB_flush zero_malloc 0%nat long_heap = (None, h') /\
    @CBB_finish zero_malloc 0%nat false h' = (None, h') /\
    let h2 := (CBB_discard_child 0%nat h').2 in @CBB_finish zero_malloc 0%nat false h2 = (None, h2).
Proof.
  destruct (@flush_overflow_sticky zero_malloc long_heap long_buffer [] 0%nat KRoot []
    [(1%nat, KLen 1, replicate 256 7)] long_rep) as (h' & E & Hq).
  - vm_compute. reflexivity.
  - split; [vm_compute; reflexivity|right; split; [reflexivity|apply zero_malloc_total]].
  - exists h'. split; [exact E|]. split.
    + destruct (Hq h' 0%nat (unchecked_nil h')) as (_ & Hf & _). apply Hf.
    + destruct (Hq _ 0%nat (unchecked_discard h' h' 0%nat (unchecked_nil h'))) as (_ & Hf & _). apply Hf.
Defined.

(** * Round trips *)

(** The contents the record of the next theorem has. *)
Definition record_body (v w : Z) (data : list Z) : list Z :=
  asn1_bytes CBS_ASN1_INTEGER (asn1_uint64_body v) ++
  asn1_bytes CBS_ASN1_INTEGER (asn1_int64_body w) ++
  asn1_bytes CBS_ASN1_OCTETSTRING data.

Lemma builds_record {m : Malloc} N p n tag v w data :
  in_word 64 v -> - 2 ^ 63 <= w < 2 ^ 63 -> blen data <= 0xfffffffe ->
  blen (asn1_bytes tag (record_body v w data)) <= N -> p <> n ->
  builds N (_ ← CBB_add_asn1 p n tag; _ ← CBB_add_asn1_uint64 n v;
            _ ← CBB_add_asn1_int64 n w; CBB_add_asn1_octet_string n data) (S n)
    [(p, KRoot, [])] tt (S (S (S (S n))))
    [(p, KRoot, asn1_tag_bytes tag); (n, KAsn1, record_body v w data)].
Proof.
  intros Hv Hw Hd HN Hp. unfold record_body in *. rewrite blen_asn1_bytes, !blen_app in HN.
  set (e1 := asn1_bytes CBS_ASN1_INTEGER (asn1_uint64_body v)) in *.
  set (e2 := asn1_bytes CBS_ASN1_INTEGER (asn1_int64_body w)) in *.
  set (e3 := asn1_bytes CBS_ASN1_OCTETSTRING data) in *.
  pose proof (blen_nonneg e1). pose proof (blen_nonneg e2). pose proof (blen_nonneg e3).
  match type of HN with context [asn1_len_bytes ?x] => pose proof (blen_asn1_len_bytes x) end.
  eapply builds_bind; [apply (builds_add_asn1 N (S n) [] p KRoot []); [|lia|]|].
  - change (n ∉ [p]). rewrite list_elem_of_singleton. congruence.
  - rewrite flat_top_blen. change (0 + 0 + 0 + blen (asn1_tag_bytes tag) + 1 <= N). lia.
  - change ([] ++ [(p, KRoot, [] ++ asn1_tag_bytes tag); (n, KAsn1, [])])
      with ([(p, KRoot, asn1_tag_bytes tag)] ++ [(n, KAsn1, @nil Z)]).
    assert (forall x, blen (flat ([(p, KRoot, asn1_tag_bytes tag)] ++ [(n, KAsn1, x)])) =
      blen (asn1_tag_bytes tag) + 1 + blen x) as Hfl.
    { intros x. rewrite flat_top_blen, blen_flat_single. cbn [klen]. lia. }
    eapply builds_bind; [apply builds_uint64; [done|rewrite Hfl; fold e1; cbn [app]; lia]|].
    fold e1. eapply builds_bind; [apply builds_int64; [done|rewrite Hfl; fold e2; cbn [app]; rewrite blen_app; lia]|].
    fold e2. cbn [app]. rewrite (app_assoc e1).
    apply (builds_octet_string N (S (S (S n))) [(p, KRoot, asn1_tag_bytes tag)] n KAsn1 (e1 ++ e2)); [done|].
    change (@app frame [_] [_]) with ([(p, KRoot, asn1_tag_bytes tag)] ++ [(n, KAsn1, (e1 ++ e2) ++ e3)]).
    rewrite Hfl, !blen_app. fold e3. lia.
Qed.

(** The record is short enough for its length prefix. *)
Lemma record_body_small v w data :
  in_word 64 v -> - 2 ^ 63 <= w < 2 ^ 63 -> bytes data -> blen data < 2 ^ 31 ->
  blen (record_body v w data) + 8 < 2 ^ 32 /\ bytes (record_body v w data).
Proof.
  intros Hv Hw Hd Hdl.
  destruct (asn1_uint64_body_spec v Hv) as (? & _ & ?). destruct (asn1_int64_body_spec w Hw) as (? & ? & _).
  unfold record_body. split; [|rewrite !bytes_app; by rewrite !bytes_asn1_bytes].
  rewrite !blen_app, !blen_asn1_bytes. pow2.
  repeat match goal with |- context [asn1_tag_bytes ?x] => pose proof (blen_asn1_tag_bytes x); generalize dependent (asn1_tag_bytes x); intros end.
  repeat match goal with |- context [asn1_len_bytes ?x] => pose proof (blen_asn1_len_bytes x); generalize dependent (asn1_len_bytes x); intros end.
  lia.
Qed.

(** Reading the fields of the record back. *)
Lemma record_body_reads v w data :
  in_word 64 v -> - 2 ^ 63 <= w < 2 ^ 63 -> bytes data -> blen data < 2 ^ 31 ->
  bytes (record_body v w data) ->
  (a ← CBS_get_asn1_uint64; b ← CBS_get_asn1_int64; c ← CBS_get_asn1 CBS_ASN1_OCTETSTRING;
   mret (a, b, c)) (record_body v w data) = (Some (v, w, data), []).
Proof.
  unfold record_body. intros Hv Hw Hd Hdl Hbs. rewrite !bytes_app in Hbs. destruct Hbs as (Hb1 & Hb2 & Hb3).
  erewrite bind_ok by (apply CBS_get_asn1_uint64_Some; [by rewrite !bytes_app|done]).
  erewrite bind_ok by (apply CBS_get_asn1_int64_Some; [by rewrite !bytes_app|done]).
  rewrite <-(app_nil_r (asn1_bytes CBS_ASN1_OCTETSTRING data)).
  erewrite bind_ok by (apply CBS_get_asn1_bytes; [done|done|done|pow2; lia]). done.
Qed.

(** C3: What the writer builds, the reader reads back. Building a constructed
    element with an unsigned integer, a signed integer and an octet string in a
    growable [CBB] and finishing it gives bytes from which [CBS_get_asn1] takes
    the element, nothing is left, and reading the fields in order gives the
    values that were written. *)
Theorem cbb_cbs_roundtrip {m : Malloc} tag v w data capacity :
  MallocTotal m -> in_word 32 tag -> in_word 64 v -> - 2 ^ 63 <= w < 2 ^ 63 ->
  bytes data -> blen data < 2 ^ 31 -> 0 <= capacity < 2 ^ 60 ->
  exists h mem n, (root ← new_cbb; _ ← CBB_init root capacity; child ← new_cbb;
    _ ← (_ ← CBB_add_asn1 root child tag; _ ← CBB_add_asn1_uint64 child v;
         _ ← CBB_add_asn1_int64 child w; CBB_add_asn1_octet_string child data);
    CBB_finish root false) (Heap None ∅ 0%nat) = (Some (mem, n), h) /\
  exists body, CBS_get_asn1 tag (take (Z.to_nat n) mem) = (Some body, []) /\
    (a ← CBS_get_asn1_uint64; b ← CBS_get_asn1_int64; c ← CBS_get_asn1 CBS_ASN1_OCTETSTRING;
     mret (a, b, c)) body = (Some (v, w, data), []).
Proof.
  intros Hm Htag Hv Hw Hd Hdl Hcap.
  destruct (record_body_small v w data Hv Hw Hd Hdl) as [Hl Hbs].
  set (d := asn1_bytes tag (record_body v w data)).
  assert (blen d < 2 ^ 33) as Hdlen.
  { unfold d. rewrite blen_asn1_bytes. pose proof (blen_asn1_tag_bytes tag).
    pose proof (blen_asn1_len_bytes (blen (record_body v w data))). pow2. lia. }
  destruct (CBB_init_rep 0%nat capacity (Heap None ∅ 1%nat)) as (h1 & b1 & E1 & Hr1 & Hn1 & Hc1); [done|done|cbn; lia| |].
  { intros q. cbn. rewrite dom_empty_L. set_solver. }
  assert (room b1 (blen d)) as Hroom.
  { split; [|by right]. eapply Z.lt_trans; [exact Hdlen|reflexivity]. }
  destruct (builds_new (blen d) 1%nat [(0%nat, KRoot, [])] h1 b1 Hr1 Hn1 Hroom) as (h2 & b2 & E2 & Hr2 & Hn2 & Hg2).
  destruct (builds_record (blen d) 0%nat 1%nat tag v w data Hv Hw) with (h := h2) (b := b2)
    as (h3 & b3 & E3 & Hr3 & Hn3 & Hg3); [pow2; lia|done|done|done|done|by apply Hg2|].
  assert (asn1_tag_bytes tag ++ (asn1_len_bytes (blen (record_body v w data)) ++ record_body v w data) = d) as Hd3
    by (unfold d, asn1_bytes, asn1_header; by rewrite <-app_assoc).
  destruct (CBB_finish_rep h3 b3 0%nat _ _ (asn1_len_bytes (blen (record_body v w data)) ++ record_body v w data) Hr3)
    as (h4 & mem & E4 & Hmem & _).
  { cbn [collapse mbind option_bind close]. rewrite app_nil_r.
    change ((if blen (record_body v w data) <=? 0xfffffffe then Some ?x else None) ≫= _) with x.
    rewrite (proj2 (Z.leb_le _ _)); [done|]. pow2. lia. }
  { rewrite Hd3. by apply Hg3, Hg2. }
  rewrite Hd3 in E4, Hmem.
  exists h4, mem, (blen d). split.
  - rewrite (bind_ok _ _ _ 0%nat (Heap None ∅ 1%nat)) by done.
    rewrite (bind_ok _ _ _ _ _ E1), (bind_ok _ _ _ _ _ E2), (bind_ok _ _ _ _ _ E3).
    exact E4.
  - rewrite Hmem. exists (record_body v w data). unfold d. rewrite <-(app_nil_r (asn1_bytes _ _)).
    assert (blen (record_body v w data) < 2 ^ 32) by lia.
    split; [by apply CBS_get_asn1_bytes|by apply record_body_reads].
Qed.

Lemma cbb_cbs_roundtrip_witness :
  exists h mem n, (root ← new_cbb; _ ← @CBB_init zero_malloc root 16; child ← new_cbb;
    _ ← (_ ← @CBB_add_asn1 zero_malloc root child 0x20000010; _ ← @CBB_add_asn1_uint64 zero_malloc child 300;
         _ ← @CBB_add_asn1_int64 zero_malloc child (-3); @CBB_add_asn1_octet_string zero_malloc child [1; 2; 3]);
    @CBB_finish zero_malloc root false) (Heap None ∅ 0%nat) = (Some (mem, n), h) /\
  exists body, CBS_get_asn1 0x20000010 (take (Z.to_nat n) mem) = (Some body, []) /\
    (a ← CBS_get_asn1_uint64; b ← CBS_get_asn1_int64; c ← CBS_get_asn1 CBS_ASN1_OCTETSTRING;
     mret (a, b, c)) body = (Some (300, -3, [1; 2; 3]), []).
Proof.
  apply (@cbb_cbs_roundtrip zero_malloc 0x20000010 300 (-3) [1; 2; 3] 16); [apply _|..];
    try (split; [vm_compute; discriminate|vm_compute; reflexivity]).
  - repeat (apply Forall_cons_2; [split; [vm_compute; discriminate|vm_compute; reflexivity]|]). apply Forall_nil_2.
  - vm_compute. reflexivity.
Defined.

(** C32: [CBB_flush_asn1_set_of] puts the elements of a SET OF in DER order: when
    the innermost frame holds the encodings [l], one after the other, it is
    left with the same encodings in ascending lexicographic order, each of them
    readable again. Any other such arrangement of [l] is that one, so the result does
    not depend on how the C library's [qsort] works. *)
Theorem set_of_sorted {m : Malloc} l st p k h b :
  MallocTotal m -> rep h b (st ++ [(p, k, concat l)]) ->
  Forall der_element l -> bytes (concat l) -> blen (concat l) < 2 ^ 56 ->
  room b (blen (flat (st ++ [(p, k, concat l)]))) ->
  exists h' b' l', CBB_flush_asn1_set_of p h = (Some tt, h') /\
    rep h' b' (st ++ [(p, k, concat l')]) /\
    l' ≡ₚ l /\ ascending l' /\ get_children (length l) (concat l') = Some l' /\
    forall l'', l'' ≡ₚ l -> ascending l'' -> l'' = l'.
Proof.
  intros Hm Hr Hl Hb Hlen Hroom.
  destruct (builds_set_of _ l (next_loc h) st p k Hl Hb Hlen (Z.le_refl _) h b Hr eq_refl Hroom)
    as (h' & b' & E & Hr' & _ & _).
  assert (qsort l ≡ₚ l) as Hp by apply merge_sort_Permutation.
  exists h', b', (qsort l). split_and!; [done..|apply ascending_sorted, (Sorted_merge_sort set_of_le)| |].
  - rewrite <-(Permutation_length Hp). apply get_children_concat; [by rewrite Hp|].
    rewrite Forall_concat in *. by rewrite Hp.
  - intros l'' Hl'' Hs%ascending_sorted. by apply qsort_determined.
Qed.

Definition set_of_heap : heap :=
  Heap (Some (Buffer [2; 1; 9; 2; 1; 4] 6 6 false false))
    (list_to_map [(0%nat, Cbb true None 0 0 false false)]) 1.

Lemma set_of_sorted_witness :
  exists h' b' l', @CBB_flush_asn1_set_of zero_malloc 0%nat set_of_heap = (Some tt, h') /\
    rep h' b' [(0%nat, KRoot, concat l')] /\ l' = [[2; 1; 4]; [2; 1; 9]].
Proof.
  destruct (@set_of_sorted zero_malloc [[2; 1; 9]; [2; 1; 4]] [] 0%nat KRoot set_of_heap
    (Buffer [2; 1; 9; 2; 1; 4] 6 6 false false)) as (h' & b' & l' & E & Hr & _ & _ & _ & Hu).
  - apply _.
  - split.
    + reflexivity.
    + split; [vm_compute; reflexivity|split; [split; vm_compute; discriminate|vm_compute; reflexivity]].
    + reflexivity.
    + vm_compute. reflexivity.
    + cbn. split_and!; try done; vm_compute; lia.
    + apply NoDup_singleton.
    + intros q. rewrite elem_of_dom. intros [c Hc]. cbn in *.
      repeat (apply lookup_insert_Some in Hc as [[<- _]|[_ Hc]]; [lia|]). by rewrite lookup_empty in Hc.
  - repeat constructor; [exists 2, [9]|exists 2, [4]];
      (split; [split; [vm_compute; discriminate|vm_compute; reflexivity]|split; vm_compute; reflexivity]).
  - repeat (apply Forall_cons_2; [split; [vm_compute; discriminate|vm_compute; reflexivity]|]). apply Forall_nil_2.
  - vm_compute. reflexivity.
  - split; [vm_compute; reflexivity|left; vm_compute; discriminate].
  - exists h', b', l'. split; [exact E|]. split; [exact Hr|]. symmetry. apply Hu.
    + apply perm_swap.
    + repeat constructor; vm_compute; discriminate.
Defined.

(** C33: Object identifiers survive the way from text to DER and back.
    [CBB_add_asn1_oid_from_text] appends the base-128 encoding of exactly the
    identifiers whose dotted text is canonical (no leading zeros, components
    below 2^64, the first two in range), it fails on every other text, and
    [CBS_asn1_oid_to_text] turns what was appended into the NUL-terminated text
    that was read. *)
Theorem oid_text_roundtrip {m : Malloc} text st p k bs h b :
  MallocTotal m -> rep h b (st ++ [(p, k, bs)]) ->
  blen text < 2 ^ 60 -> room b (blen (flat (st ++ [(p, k, bs)])) + 10 * blen text) ->
  match CBB_add_asn1_oid_from_text p text h with
  | (Some _, h') => exists b' der mem,
      rep h' b' (st ++ [(p, k, bs ++ der)]) /\
      CBS_asn1_oid_to_text der = Some (mem, blen text + 1) /\
      take (Z.to_nat (blen text + 1)) mem = text ++ [0]
  | (None, _) =>
      ~ exists a b rest, oid_head a b /\ Forall (in_word 64) rest /\ text = oid_text (a :: b :: rest)
  end.
Proof.
  intros Hm Hr Hlen Hroom.
  assert (forall a c rest, oid_head a c -> Forall (in_word 64) rest -> text = oid_text (a :: c :: rest) ->
    exists h' b', CBB_add_asn1_oid_from_text p text h = (Some tt, h') /\
      rep h' b' (st ++ [(p, k, bs ++ oid_der a c rest)])) as Hok.
  { intros a c rest Hh Hrest Htext. pose proof (blen_oid_der a c rest Hh Hrest) as Hs. rewrite <-Htext in Hs.
    destruct (builds_oid_from_text (blen (flat (st ++ [(p, k, bs ++ oid_der a c rest)]))) a c rest
      (next_loc h) st p k bs Hh Hrest (Z.le_refl _) h b Hr eq_refl) as (h' & b' & E & Hr' & _).
    - eapply room_le; [exact Hroom|]. rewrite !flat_top_blen, blen_app. lia.
    - rewrite Htext. by exists h', b'. }
  destruct (CBB_add_asn1_oid_from_text p text h) as [[[]|] h'] eqn:E.
  - pose proof E as (a & c & rest & Hh & Hrest & Htext)%oid_from_text_inv.
    destruct (Hok a c rest Hh Hrest Htext) as (h2 & b2 & [= ->] & Hr2).
    destruct (oid_to_text_der a c rest Hm Hh Hrest) as (mem & Emem & Htake); [by rewrite <-Htext|].
    rewrite <-Htext in *. by exists b2, (oid_der a c rest), mem.
  - intros (a & c & rest & Hh & Hrest & Htext).
    by destruct (Hok a c rest Hh Hrest Htext) as (h2 & b2 & [=] & _).
Qed.

Definition oid_heap : heap :=
  Heap (Some (Buffer [] 0 0 true false))
    (list_to_map [(0%nat, Cbb true None 0 0 false false)]) 1.

(** "1.2.840" *)
Definition oid_example : list Z := [49; 46; 50; 46; 56; 52; 48].

Lemma oid_text_roundtrip_witness :
  match @CBB_add_asn1_oid_from_text zero_malloc 0%nat oid_example oid_heap with
  | (Some _, h') => exists b' der mem,
      rep h' b' [(0%nat, KRoot, der)] /\
      @CBS_asn1_oid_to_text zero_malloc der = Some (mem, 8) /\
      take 8 mem = oid_example ++ [0]
  | (None, _) =>
      ~ exists a b rest, oid_head a b /\ Forall (in_word 64) rest /\ oid_example = oid_text (a :: b :: rest)
  end.
Proof.
  apply (@oid_text_roundtrip zero_malloc oid_example [] 0%nat KRoot [] oid_heap (Buffer [] 0 0 true false)).
  - apply _.
  - split.
    + reflexivity.
    + split; [vm_compute; reflexivity|split; [split; vm_compute; discriminate|vm_compute; reflexivity]].
    + reflexivity.
    + vm_compute. reflexivity.
    + cbn. split_and!; try done; vm_compute; lia.
    + apply NoDup_singleton.
    + intros q. rewrite elem_of_dom. intros [c Hc]. cbn in *.
      repeat (apply lookup_insert_Some in Hc as [[<- _]|[_ Hc]]; [lia|]). by rewrite lookup_empty in Hc.
  - vm_compute. reflexivity.
  - split; [vm_compute; reflexivity|right; split; [reflexivity|apply _]].
Defined.
