(* ===== verification/CodecTheorems.v ===== *)
(** BER conversion, the Unicode codecs and the constant-time primitives: their
    properties. *)

From S2P Require Import Prelude CryptoInternal Cbs Cbb CbbSpec Ber BerSpec Unicode.

(** * Conversion of BER to DER *)

(** Where the search reports nothing, the first element is DER. *)
Lemma find_ber_first in_ :
  bytes in_ -> in_ <> [] -> cbs_find_ber in_ 0 = Some false ->
  exists e r, CBS_get_any_asn1_element in_ = (Some e, r).
Proof.
  intros Hb Hne Hf. unfold cbs_find_ber in Hf. change (kMaxDepth <? 0) with false in Hf. cbn iota in Hf.
  destruct in_ as [|x l]; [done|]. cbn [length find_ber_loop] in Hf. pose proof (blen_nonneg l).
  rewrite (proj2 (Z.leb_gt _ _)) in Hf by (unfold CBS_len; rewrite blen_cons; lia).
  destruct (CBS_get_any_ber_asn1_element (x :: l)) as [[e|] r] eqn:E; [|done].
  destruct (ae_ber_found e) eqn:Ef; [done|]. exists e, r. by apply CBS_get_any_ber_asn1_element_der.
Qed.

(** C36: [CBS_asn1_ber_to_der] on every input, by what the search [cbs_find_ber]
    answers. It reports BER: the result is [convert] of the whole input, which is
    DER (definite lengths in minimal form, no constructed strings, at every
    depth), and the input is used up, elements after the first included; or the
    conversion fails and leaves the caller's [CBS] at some suffix. It reports
    nothing: the first element comes back as it is. It fails: nothing is read.
    On a BER encoding the search does not fail, and when it reports BER the
    result is the DER of the same elements, each constructed string joined into
    one. DER is never reported; an indefinite length or a constructed string that
    follows DER at the top always is. *)
Theorem ber_to_der_correct {m : Malloc} in_ :
  MallocTotal m -> bytes in_ -> blen in_ < 2 ^ 30 ->
  match cbs_find_ber in_ 0 with
  | Some true =>
      match convert (length in_) 0 false 0 in_ with
      | Some (d, _) => der 0 d /\ exists storage, CBS_asn1_ber_to_der in_ = (Some (d, Some storage), [])
      | None => exists read rest, in_ = read ++ rest /\ CBS_asn1_ber_to_der in_ = (None, rest)
      end
  | Some false =>
      (in_ = [] /\ CBS_asn1_ber_to_der in_ = (None, [])) \/
      exists tag body r, in_ = asn1_bytes tag body ++ r /\
        CBS_asn1_ber_to_der in_ = (Some (asn1_bytes tag body, None), r)
  | None => CBS_asn1_ber_to_der in_ = (None, in_)
  end /\
  (forall d, ber_der 0 0 in_ d -> exists b, cbs_find_ber in_ 0 = Some b /\
     (b = true -> exists storage, CBS_asn1_ber_to_der in_ = (Some (d, Some storage), []))) /\
  (der 0 in_ -> cbs_find_ber in_ 0 = Some false) /\
  (forall pre x, in_ = pre ++ x -> der 0 pre -> ber_start x -> cbs_find_ber in_ 0 = Some true).
Proof.
  intros Hm Hin Hlen. change (2 ^ 30) with 1073741824 in Hlen.
  assert (blen in_ < 2 ^ 32) as Hlen32 by (pow2; lia).
  assert (cbs_find_ber in_ 0 = find_ber_loop (length in_) false 0 in_) as Hdef by done.
  split_and!.
  - destruct (cbs_find_ber in_ 0) as [[|]|] eqn:Hf.
    + pose proof (ber_to_der_converts in_ Hm Hin Hlen Hf) as H.
      destruct (convert _ _ _ _ _) as [[d r]|] eqn:E; [|done]. split; [|done]. by eapply convert_der.
    + destruct (decide (in_ = [])) as [->|Hne]; [by left|right].
      destruct (find_ber_first in_ Hin Hne Hf) as (e & r & E). unfold CBS_asn1_ber_to_der. rewrite Hf, E.
      apply CBS_get_any_asn1_element_Some in E as (tag & body & _ & _ & -> & ->); [|done]. by exists tag, body, r.
    + unfold CBS_asn1_ber_to_der. by rewrite Hf.
  - intros d Hd. destruct (find_ber_total _ _ _ _ Hd eq_refl (length in_) false Hin Hlen32) as [b Hb]; [done|].
    exists b. rewrite Hdef. split; [done|]. intros ->. pose proof (ber_to_der_converts in_ Hm Hin Hlen Hb) as H.
    pose proof (convert_ber_der _ _ _ _ Hd (length in_) false [] Hin (Forall_nil_2 _) Hlen32) as Hc.
    cbn [after] in Hc. rewrite app_nil_r in Hc. by rewrite Hc in H.
  - intros Hd. apply find_ber_der_false; (done || by left).
  - intros pre x -> Hp Hx. rewrite Hdef. apply find_ber_start; [done..| |done].
    rewrite blen_app in Hlen32. pose proof (blen_nonneg x). lia.
Qed.

(** A constructed OCTET STRING of two chunks inside an indefinite SEQUENCE. *)
Definition ber_example : list Z := [0x30; 0x80; 0x24; 6; 4; 1; 7; 4; 1; 8; 0; 0].

Lemma ber_example_der : ber_der 0 0 ber_example [0x30; 4; 4; 2; 7; 8].
Proof.
  assert (forall t, (0 <=? t) && (t <? 2 ^ 32) = true -> in_word 32 t) as Hw.
  { intros t [?%Z.leb_le ?%Z.ltb_lt]%andb_true_iff. by split. }
  apply (bd_constructed 0 true 0x20000010 [0x24; 6; 4; 1; 7; 4; 1; 8] [4; 2; 7; 8] [] []);
    [by apply Hw|done|done|done| |constructor].
  apply (bd_string 1 false 0x20000004 [4; 1; 7; 4; 1; 8] [7; 8] [] []);
    [by apply Hw|done|done|done| |constructor].
  apply (bd_chunk 2 4 [7] [4; 1; 8] [8]); [by apply Hw|done|done|].
  apply (bd_chunk 2 4 [8] [] []); [by apply Hw|done|done|constructor].
Qed.

Lemma ber_to_der_correct_witness :
  exists storage, @CBS_asn1_ber_to_der zero_malloc ber_example =
    (Some ([0x30; 4; 4; 2; 7; 8], Some storage), []).
Proof.
  assert (bytes ber_example) as Hb
    by (repeat (apply Forall_cons_2; [split; [vm_compute; discriminate|vm_compute; reflexivity]|]); apply Forall_nil_2).
  destruct (@ber_to_der_correct zero_malloc ber_example _ Hb eq_refl) as (_ & H & _ & Hs).
  destruct (H _ ber_example_der) as (b & Eb & Hc). apply Hc.
  enough (Some b = Some true) by congruence. rewrite <-Eb. apply (Hs [] ber_example); [done|constructor|].
  exists 0x20000010. split; [split; [done|vm_compute; reflexivity]|]. split; [reflexivity|].
  left. by exists [0x24; 6; 4; 1; 7; 4; 1; 8; 0; 0].
Defined.

(** C37: A flaw of the search that decides whether to convert. The contents [c] of
    an element are searched, but the loop then goes on to the next element, which
    resets the flag. So in an element that holds a constructed element with the
    contents [c], followed by any DER [rest], whatever needs conversion in [c] is
    not reported: the input comes back unconverted, although it is the BER
    encoding of other bytes. *)
Theorem find_ber_misses_nested {m : Malloc} tag0 tag c d rest :
  in_word 32 tag0 -> constructed tag0 = true -> is_string_type tag0 = false ->
  in_word 32 tag -> constructed tag = true -> is_string_type tag = false ->
  ber_der 2 0 c d -> c <> d -> rest <> [] -> der 1 rest -> ber_der 1 0 rest rest ->
  let in_ := asn1_bytes tag0 (asn1_bytes tag c ++ rest) in
  let out := asn1_bytes tag0 (asn1_bytes tag d ++ rest) in
  bytes in_ -> blen in_ < 2 ^ 30 -> blen d < 2 ^ 30 ->
  CBS_asn1_ber_to_der in_ = (Some (in_, None), []) /\ ber_der 0 0 in_ out /\ in_ <> out.
Proof.
  intros Ht0 Hc0 Hs0 Ht Hc Hs Hcd Hne Hrest Hder Hrr in_ out Hin Hlen Hld.
  change (2 ^ 30) with 1073741824 in *.
  pose proof (blen_ber_bytes false tag0 (asn1_bytes tag c ++ rest)) as He0.
  pose proof (blen_ber_bytes false tag c) as He. cbn [ber_bytes] in *. fold in_ in He0. rewrite blen_app in He0.
  pose proof (blen_nonneg c). pose proof (blen_nonneg rest). pose proof (blen_nonneg d).
  pose proof (proj1 (bytes_asn1_bytes _ _) Hin) as Hbody. pose proof Hbody as [Hbc%bytes_asn1_bytes Hbr]%bytes_app.
  assert (length (asn1_bytes tag c ++ rest) + 2 <= length in_)%nat as Hl0 by (rewrite length_app; unfold blen in *; lia).
  assert (cbs_find_ber in_ 0 = Some false) as Hf.
  { unfold cbs_find_ber. change (kMaxDepth <? 0) with false. cbn iota.
    destruct (length in_) as [|g] eqn:Eg; [lia|]. rewrite <-(app_nil_r in_).
    unfold in_ at 1. rewrite find_ber_definite, Hc0, Hs0 by (done || (rewrite blen_app; pow2; lia)).
    change (kMaxDepth <? 0 + 1) with false. cbn iota.
    destruct g as [|g]; [lia|]. rewrite find_ber_definite, Hc, Hs by (done || (pow2; lia)).
    change (kMaxDepth <? 0 + 1 + 1) with false. cbn iota.
    rewrite length_app in Hl0. unfold blen in *.
    destruct (find_ber_total _ _ _ _ Hcd eq_refl g false) as [b Hb]; [done|unfold blen; pow2; lia|lia|].
    change (0 + 1 + 1) with 2. rewrite Hb. cbn [mbind option_bind].
    rewrite (find_ber_der_false g (0 + 1) rest b); [|done|done|unfold blen; pow2; lia|lia|by right].
    cbn [mbind option_bind]. apply find_ber_nil. }
  split_and!.
  - unfold CBS_asn1_ber_to_der. rewrite Hf. unfold in_ at 1. rewrite <-(app_nil_r (asn1_bytes tag0 _)).
    unfold CBS_get_any_asn1_element.
    rewrite cbs_get_any_asn1_element_minimal by (done || (rewrite blen_app; pow2; lia)). done.
  - unfold in_, out. rewrite <-(app_nil_r (asn1_bytes tag0 (asn1_bytes tag c ++ rest))), <-(app_nil_r (asn1_bytes tag0 (asn1_bytes tag d ++ rest))).
    apply (bd_constructed 0 false); [done..| |constructor]. by apply (bd_constructed 1 false).
  - intros E. apply Hne.
    destruct (asn1_bytes_inj tag0 (asn1_bytes tag c ++ rest) [] tag0 (asn1_bytes tag d ++ rest) []) as (_ & E1 & _);
      rewrite ?app_nil_r; try done; [rewrite blen_app; pow2; lia| |].
    + rewrite blen_app, blen_asn1_bytes. pose proof (blen_asn1_tag_bytes tag).
      pose proof (blen_asn1_len_bytes (blen d)). pow2. lia.
    + rewrite E1 in Hbody.
      by destruct (asn1_bytes_inj tag c rest tag d rest) as (_ & -> & _); [done|done|pow2; lia..|by rewrite E1| |].
Qed.

(** An OCTET STRING in two chunks, in a SEQUENCE that is followed by an INTEGER. *)
Lemma find_ber_misses_nested_witness :
  @CBS_asn1_ber_to_der zero_malloc [0x30; 13; 0x30; 8; 0x24; 6; 4; 1; 7; 4; 1; 8; 2; 1; 5] =
    (Some ([0x30; 13; 0x30; 8; 0x24; 6; 4; 1; 7; 4; 1; 8; 2; 1; 5], None), []).
Proof.
  assert (forall t, (0 <=? t) && (t <? 2 ^ 32) = true -> in_word 32 t) as Hw.
  { intros t [?%Z.leb_le ?%Z.ltb_lt]%andb_true_iff. by split. }
  refine (proj1 (@find_ber_misses_nested zero_malloc 0x20000010 0x20000010 [0x24; 6; 4; 1; 7; 4; 1; 8] [4; 2; 7; 8] [2; 1; 5]
    _ eq_refl eq_refl _ eq_refl eq_refl _ _ _ _ _ _ _ _));
    [by apply Hw|by apply Hw| |done|done| | | |reflexivity|reflexivity].
  - apply (bd_string 2 false 0x20000004 [4; 1; 7; 4; 1; 8] [7; 8] [] []);
      [by apply Hw|done|done|done| |constructor].
    apply (bd_chunk 3 4 [7] [4; 1; 8] [8]); [by apply Hw|done|done|].
    apply (bd_chunk 3 4 [8] [] []); [by apply Hw|done|done|constructor].
  - apply (der_primitive 1 2 [5] []); [by apply Hw|done|done|constructor].
  - apply (bd_primitive 1 2 [5] [] []); [by apply Hw|done|done|constructor].
  - repeat (apply Forall_cons_2; [split; [vm_compute; discriminate|vm_compute; reflexivity]|]); apply Forall_nil_2.
Defined.

(** * Unicode *)

(** The code points that may be exchanged: those of the Unicode space that are
    not surrogates and not noncharacters (U+FDD0 to U+FDEF and the last two of
    each plane). *)
Definition code_point (u : Z) : Prop :=
  (0 <= u < 0xd800 \/ 0xe000 <= u < 0x110000) /\ ~ (0xfdd0 <= u < 0xfdf0) /\ u mod 0x10000 < 0xfffe.

#[export] Instance code_point_dec u : Decision (code_point u).
Proof. unfold code_point. apply _. Defined.

Lemma land_fffe u : Z.land u 0xfffe = 2 * ((u / 2) mod 2 ^ 15).
Proof.
  replace (2 * ((u / 2) mod 2 ^ 15)) with (Z.shiftl (Z.land (Z.shiftr u 1) (Z.ones 15)) 1)
    by (rewrite Z.land_ones, Z.shiftl_mul_pow2, Z.shiftr_div_pow2 by lia; change (2 ^ 1) with 2; apply Z.mul_comm).
  change 0xfffe with (Z.shiftl (Z.ones 15) 1).
  apply Z.bits_inj'. intros i Hi. rewrite Z.land_spec, !Z.shiftl_spec, Z.land_spec by lia.
  destruct (Z.eq_dec i 0) as [->|]; [by rewrite !(Z.testbit_neg_r _ (0 - 1)), andb_false_r by lia|].
  rewrite Z.shiftr_spec by lia. do 2 f_equal. lia.
Qed.

Lemma is_valid_code_point_ok u : 0 <= u -> is_valid_code_point u = true <-> code_point u.
Proof.
  intros Hu. unfold is_valid_code_point, code_point.
  rewrite negb_true_iff, !orb_false_iff, !andb_false_iff, !Z.ltb_ge, !Z.leb_gt, Z.eqb_neq, land_fffe.
  change (2 ^ 15) with 0x8000. pose proof (Z.rem_mul_r u 2 0x8000 ltac:(lia) ltac:(lia)) as Hm.
  change (2 * 0x8000) with 0x10000 in Hm. rewrite Hm.
  pose proof (Z.mod_pos_bound u 2). pose proof (Z.mod_pos_bound (u / 2) 0x8000).
  set (x := (u / 2) mod 0x8000) in *. set (y := u mod 2) in *. clearbody x y. clear Hm.
  split; intros H1; split_and!; lia.
Qed.

(** C38: the Unicode codecs: [cbs_get_utf8] reads exactly the shortest UTF-8
    encodings of code points that are neither surrogates nor noncharacters,
    [cbs_get_ucs2_be] and [cbs_get_utf32_be] exactly those code points in two and
    four bytes; [cbb_add_utf8] appends the encoding of such a code point, of the
    announced length, to the innermost open CBB, and refuses every other value. *)
Theorem unicode_codecs {m : Malloc} s u r :
  bytes s -> 0 <= u ->
  (cbs_get_utf8 s = (Some u, r) <-> code_point u /\ s = utf8 u ++ r) /\
  (cbs_get_ucs2_be s = (Some u, r) <-> code_point u /\ in_word 16 u /\ s = be_bytes 2 u ++ r) /\
  (cbs_get_utf32_be s = (Some u, r) <-> code_point u /\ in_word 32 u /\ s = be_bytes 4 u ++ r) /\
  (forall h b st p k bs, rep h b (st ++ [(p, k, bs)]) -> room b (blen (flat (st ++ [(p, k, bs ++ utf8 u)]))) ->
     if decide (code_point u) then
       cbb_get_utf8_len u = blen (utf8 u) /\
       exists h' b', cbb_add_utf8 p u h = (Some tt, h') /\ rep h' b' (st ++ [(p, k, bs ++ utf8 u)])
     else cbb_add_utf8 p u h = (None, h)).
Proof.
  intros Hs Hu. pose proof (is_valid_code_point_ok u Hu) as Hok. rewrite <-!Hok.
  split; [rewrite cbs_get_utf8_Some by done; tauto|].
  split; [by apply cbs_get_ucs2_be_Some|]. split; [by apply cbs_get_utf32_be_Some|].
  intros h b st p k bs Hr Hroom. destruct (decide (code_point u)) as [Hv%Hok|Hv].
  - split; [apply cbb_get_utf8_len_ok; split; [done|by apply is_valid_range]|].
    destruct (builds_add_utf8 _ (next_loc h) st p k bs u Hu Hv (Z.le_refl _) h b Hr eq_refl Hroom)
      as (h' & b' & E & Hr' & _). by exists h', b'.
  - rewrite <-Hok in Hv. apply not_true_is_false in Hv. unfold cbb_add_utf8. by rewrite massert_bind, Hv.
Qed.

Lemma unicode_codecs_witness :
  cbs_get_utf8 [0xe2; 0x82; 0xac; 65] = (Some 0x20ac, [65]) /\ utf8 0x20ac = [0xe2; 0x82; 0xac] /\
  cbs_get_utf32_be [0; 1; 0xf6; 0; 9] = (Some 0x1f600, [9]).
Proof.
  split; [|split; [reflexivity|]].
  - refine (proj2 (proj1 (@unicode_codecs zero_malloc [0xe2; 0x82; 0xac; 65] 0x20ac [65] _ _)) _);
      [by repeat constructor|done|]. split; [by apply (bool_decide_unpack _)|reflexivity].
  - refine (proj2 (proj1 (proj2 (proj2 (@unicode_codecs zero_malloc [0; 1; 0xf6; 0; 9] 0x1f600 [9] _ _)))) _);
      [by repeat constructor|done|]. split; [by apply (bool_decide_unpack _)|by split].
Defined.

(** * Constant-time primitives *)

(** C39: the branch-free primitives: the comparisons give all ones or zero as the
    comparison on 64-bit words holds or not, the selection picks by such a mask,
    and [CRYPTO_memcmp] is zero exactly on equal byte strings. *)
Theorem constant_time_primitives a b c d x y :
  in_word 64 a -> in_word 64 b -> in_word 64 c -> in_word 64 d -> bytes x -> bytes y -> length x = length y ->
  constant_time_lt_w a b = mask_w (a <? b) /\
  constant_time_ge_w a b = mask_w (b <=? a) /\
  constant_time_eq_w a b = mask_w (a =? b) /\
  constant_time_is_zero_w a = mask_w (a =? 0) /\
  constant_time_eq_8 a b = mask_8 (a =? b) /\
  constant_time_select_w (constant_time_lt_w a b) c d = (if a <? b then c else d) /\
  (CRYPTO_memcmp x y = 0 <-> x = y).
Proof.
  intros Ha Hb Hc Hd Hx Hy Hl. split_and!.
  - by apply constant_time_lt_w_spec.
  - by apply constant_time_ge_w_spec.
  - by apply constant_time_eq_w_spec.
  - by apply constant_time_is_zero_w_spec.
  - by apply constant_time_eq_8_spec.
  - rewrite constant_time_lt_w_spec by done. by apply constant_time_select_w_spec.
  - by apply CRYPTO_memcmp_eq.
Qed.

Lemma constant_time_primitives_witness :
  constant_time_select_w (constant_time_lt_w 5 (2 ^ 63 + 1)) 7 9 = 7 /\ CRYPTO_memcmp [1; 2; 3] [1; 2; 4] <> 0.
Proof.
  pose proof (constant_time_primitives 5 (2 ^ 63 + 1) 7 9 [1; 2; 3] [1; 2; 4]) as H.
  destruct H as (_ & _ & _ & _ & _ & H & Hm);
    [split; [vm_compute; discriminate|vm_compute; reflexivity]..|by repeat constructor|by repeat constructor|reflexivity|].
  split; [exact H|]. intros E%Hm. discriminate.
Defined.
