(* ===== verification/HashTheorems.v ===== *)
(** The hash functions: streaming use computes the standard's hash. *)

From S2P Require Import Prelude CryptoInternal Md32 HashSpec Sha2Spec Fips180 Sha256 Sha1 Md5 Md4.
From S2P Require Sha512 Sha512X86.

(** C16: SHA-256 and SHA-224 as specified. However a message is cut into
    [SHA256_Update] calls, [SHA256_Final] returns the FIPS 180-4 digest of the
    whole message: the message padded with 0x80, zeros and its length in bits
    modulo 2^64, compressed block by block with the message schedule and the
    sixty-four steps of the standard, the words stored big-endian. The standard's
    functions and constants are those of Fips180.v, where the constants are
    computed from the roots of primes that define them; the tables and initial
    values of the code are equal to them. The code keeps the schedule in a
    sixteen-word circular buffer, rotates register names instead of values and
    buffers partial blocks; SHA-224 is the same from its own initial value,
    truncated to seven words. *)
Theorem sha256_streaming pieces :
  bytes (concat pieces) -> Forall (fun p => blen p < 2 ^ 61) pieces ->
  (SHA256_Final (sha256_feed SHA256_Init pieces)).1 = Some (fips_sha256 (concat pieces)) /\
  (SHA224_Final (sha256_feed SHA224_Init pieces)).1 = Some (fips_sha224 (concat pieces)).
Proof.
  intros Hb Hp. unfold fips_sha256, fips_sha224. rewrite <-SHA256_Init_fips, <-SHA224_Init_fips. split.
  - unfold SHA256_Final, SHA256_Init. rewrite sha256_final_feed; [|done|done|by repeat constructor|done].
    assert (words 32 8 (h (md SHA256_Init))) as Hw by (by repeat constructor).
    destruct (fips256_hash_words _ (concat pieces) Hw) as [Hl _].
    rewrite take_ge; [done|]. unfold SHA256_Init in Hl. cbn [h md md32_zero] in Hl. by rewrite Hl.
  - unfold SHA224_Final, SHA224_Init. by rewrite sha256_final_feed; [|done|done|repeat constructor|].
Qed.

Lemma sha256_streaming_witness :
  SHA256 (97 :: [98; 99]) = (SHA256_Final (sha256_feed SHA256_Init [[97; 98; 99]])).1 /\
  (SHA256_Final (sha256_feed SHA256_Init [[97]; []; [98; 99]])).1 = Some (fips_sha256 [97; 98; 99]).
Proof.
  split; [done|]. apply (sha256_streaming [[97]; []; [98; 99]]); by repeat constructor.
Defined.

(** C19: SHA-1, MD5 and MD4 as specified: however a message is cut into update
    calls, the final call returns the digest of FIPS 180-4, RFC 1321 or RFC 1320
    of the whole message. The code unrolls the rounds with rotating names and
    with the words, rotations and constants written out, updates the schedule in
    place, and simplifies the auxiliary functions. *)
Theorem sha1_md5_md4_streaming pieces :
  bytes (concat pieces) -> Forall (fun p => blen p < 2 ^ 61) pieces ->
  (SHA1_Final (sha1_feed pieces)).1 = be_words 4 (fips1_hash (concat pieces)) /\
  (MD5_Final (md5_feed pieces)).1 = le_words 4 (rfc1321_hash (concat pieces)) /\
  (MD4_Final (md4_feed pieces)).1 = le_words 4 (rfc1320_hash (concat pieces)).
Proof. intros Hb Hp. split_and!; [by apply sha1_final_feed|by apply md5_final_feed|by apply md4_final_feed]. Qed.

Lemma sha1_md5_md4_streaming_witness :
  (SHA1_Final (sha1_feed [[97]; []; [98; 99]])).1 = be_words 4 (fips1_hash [97; 98; 99]) /\
  (MD5_Final (md5_feed [[97]; []; [98; 99]])).1 = le_words 4 (rfc1321_hash [97; 98; 99]).
Proof. split; apply (sha1_md5_md4_streaming [[97]; []; [98; 99]]); by repeat constructor. Defined.

(** C17: SHA-512, SHA-384 and SHA-512/256 as specified: however a message is cut
    into [SHA512_Update] calls, the final call returns the FIPS 180-4 digest of
    the whole message, whose length in bits is kept in two 64-bit words. The
    standard's functions, constants and initial values are those of Fips180.v,
    computed from the roots of primes and, for SHA-512/256, by the standard's
    generation function; the code's tables are equal to them. The partial-block
    buffer is not initialised and its contents do not matter. *)
Theorem sha512_streaming mem pieces :
  bytes (concat pieces) -> Forall (fun p => blen p < 2 ^ 64) pieces -> blen mem = 128 ->
  (Sha512.SHA512_Final false (Sha512.sha512_feed (Sha512.SHA512_Init mem) pieces)).1 = Some (fips_sha512 (concat pieces)) /\
  (Sha512.SHA384_Final false (Sha512.sha512_feed (Sha512.SHA384_Init mem) pieces)).1 = Some (fips_sha384 (concat pieces)) /\
  (Sha512.SHA512_256_Final false (Sha512.sha512_feed (Sha512.SHA512_256_Init mem) pieces)).1 =
    Some (fips_sha512_256 (concat pieces)).
Proof.
  intros Hb Hp Hm. unfold fips_sha512, fips_sha384, fips_sha512_256.
  rewrite <-(Sha512.SHA512_Init_fips mem), <-(Sha512.SHA384_Init_fips mem), <-(Sha512.SHA512_256_Init_fips mem).
  assert (words 64 8 (Sha512.h (Sha512.SHA512_Init mem))) as Hw by (by repeat constructor).
  destruct (Sha512.fips512_hash_words _ (concat pieces) Hw) as [Hl _].
  rewrite <-(take_ge (fips512_hash (Sha512.h (Sha512.SHA512_Init mem)) _) 8) by (rewrite Hl; done).
  split_and!; apply Sha512.sha512_final_feed; try done; by repeat constructor.
Qed.

Lemma sha512_streaming_witness :
  (Sha512.SHA512_Final false (Sha512.sha512_feed (Sha512.SHA512_Init (replicate 128 7)) [[97]; []; [98; 99]])).1 =
    Some (fips_sha512 (concat [[97]; []; [98; 99]])).
Proof. apply (proj1 (sha512_streaming (replicate 128 7) [[97]; []; [98; 99]] ltac:(by repeat constructor) ltac:(by repeat constructor) eq_refl)). Defined.

(** C18: The two portable block functions of SHA-512 agree: the one for 32-bit
    x86, which slides a pointer through one array of 89 words instead of naming
    registers and keeping a circular buffer, computes the same chaining value on
    every block, whatever the array held. *)
Theorem sha512_x86_block mem state in_ :
  length mem = 89%nat ->
  Sha512.sha512_block_x86 mem state in_ = Sha512.sha512_block state in_.
Proof. intros Hm. by rewrite Sha512X86.x86_block_fips, Sha512.sha512_block_fips. Qed.

Lemma sha512_x86_block_witness :
  Sha512.sha512_block_x86 (replicate 89 5) (replicate 8 1) (replicate 128 2) =
  Sha512.sha512_block (replicate 8 1) (replicate 128 2).
Proof. apply (sha512_x86_block (replicate 89 5)). reflexivity. Defined.
