(* ===== verification/Modes.v ===== *)
(** crypto/fipsmodule/modes: the CTR, OFB and CFB modes, as stream ciphers.

    [block] is the block cipher, with its key; the functions take it as a
    parameter, as the code does ([block128_f]). Input and output are lists; the
    code reads every byte of the input before it writes the byte of the output
    at the same position, so encryption in place is the same function. A call
    returns the output and the updated [ivec], [ecount_buf] and [*num]. *)

From S2P Require Import Prelude CryptoInternal.

(** [for (n = 0; n < 16; n += sizeof(crypto_word_t))]: the exclusive or of two
    blocks, word by word. *)
Definition xor_words (a b : list Z) : list Z :=
  mjoin ((fun n => CRYPTO_store_word_le
    (Z.lxor (CRYPTO_load_word_le (drop n a)) (CRYPTO_load_word_le (drop n b)))) <$> [0%nat; 8%nat]).

(** ** Loops of a stream mode

    [body s n b] is the body of the loops over single bytes: it handles the
    input byte [b] with index [n] in the current block, in the state [s]. *)

Section Loops.
Context {S : Type}.

(** [while (n && len) { ...; --len; n = (n + 1) % 16; }]: the state, [n], the
    output and the input that is left. *)
Fixpoint finish_block (body : S -> nat -> Z -> S * Z) (s : S) (n : nat) (input : list Z) :
    S * nat * list Z * list Z :=
  match n, input with
  | O, _ | _, [] => (s, n, [], input)
  | _, b :: input =>
      let '(s, o) := body s n b in
      let '(s, n, output, rest) := finish_block body s (Nat.modulo (n + 1) 16) input in
      (s, n, o :: output, rest)
  end.

(** [while (len >= 16) { ...; len -= 16; n = 0; }]. The loop before ends with
    [n == 0] or [len == 0], so [body16] handles whole blocks from index 0. *)
Fixpoint whole_blocks (fuel : nat) (body16 : S -> list Z -> S * list Z) (s : S) (n : nat)
    (input : list Z) : S * nat * list Z * list Z :=
  match fuel with
  | O => (s, n, [], input)
  | Datatypes.S fuel =>
      if (length input <? 16)%nat then (s, n, [], input)
      else
        let '(s, o) := body16 s (take 16 input) in
        let '(s, n, output, rest) := whole_blocks fuel body16 s 0 (drop 16 input) in
        (s, n, o ++ output, rest)
  end.

(** [while (len--) { ...; ++n; }] *)
Fixpoint start_block (body : S -> nat -> Z -> S * Z) (s : S) (n : nat) (input : list Z) :
    S * nat * list Z :=
  match input with
  | [] => (s, n, [])
  | b :: input =>
      let '(s, o) := body s n b in
      let '(s, n, output) := start_block body s (Datatypes.S n) input in
      (s, n, o :: output)
  end.
End Loops.

(** The three loops of every stream mode; [next] gets the block ready that the
    last loop uses from index [n] on. *)
Definition stream_crypt {S} (body : S -> nat -> Z -> S * Z) (body16 : S -> list Z -> S * list Z)
    (next : S -> S) (s : S) (n : nat) (input : list Z) : S * nat * list Z :=
  let '(s, n, out1, rest) := finish_block body s n input in
  let '(s, n, out2, rest) := whole_blocks (length rest) body16 s n rest in
  match rest with
  | [] => (s, n, out1 ++ out2)
  | _ =>
      let '(s, n, out3) := start_block body (next s) n rest in
      (s, n, out1 ++ out2 ++ out3)
  end.

(** ** The counters (ctr.c) *)

(** [do { --n; c += counter[n]; counter[n] = (uint8_t) c; c >>= 8; } while (n)] *)
Fixpoint ctr_loop (n : nat) (c : Z) (counter : list Z) : list Z :=
  match n with
  | O => counter
  | S n =>
      let c := u32 (c + nth n counter 0) in
      ctr_loop n (Z.shiftr c 8) (<[n := u8 c]> counter)
  end.

Definition ctr128_inc (counter : list Z) : list Z := ctr_loop 16 1 counter.
Definition ctr96_inc (counter : list Z) : list Z := ctr_loop 12 1 counter.

Section Modes.
Context {AES_KEY : Type} (block : list Z -> AES_KEY -> list Z) (key : AES_KEY).

(** ** CTR (ctr.c) *)

Record ctr_state := Ctr { ctr_ivec : list Z; ecount_buf : list Z }.

Definition ctr_byte (s : ctr_state) (n : nat) (b : Z) : ctr_state * Z :=
  (s, Z.lxor b (nth n (ecount_buf s) 0)).

(** [( *block)(ivec, ecount_buf, key); ctr128_inc(ivec);] *)
Definition ctr_next (s : ctr_state) : ctr_state :=
  Ctr (ctr128_inc (ctr_ivec s)) (block (ctr_ivec s) key).

Definition ctr_block (s : ctr_state) (input : list Z) : ctr_state * list Z :=
  let s := ctr_next s in (s, xor_words input (ecount_buf s)).

(** The result: output, [ivec], [ecount_buf] and [*num]. *)
Definition CRYPTO_ctr128_encrypt (input ivec ecount : list Z) (num : nat) :
    list Z * list Z * list Z * nat :=
  let '(s, n, output) := stream_crypt ctr_byte ctr_block ctr_next (Ctr ivec ecount) num input in
  (output, ctr_ivec s, ecount_buf s, n).

(** [func] encrypts whole blocks and counts in the last four bytes of [ivec]
    only ([ctr128_f]); the input of the call, [key] and [ivec] are its
    arguments. *)
Context (func : list Z -> AES_KEY -> list Z -> list Z).

(** How many blocks to pass to [func], and the counter after them: a run stops
    where the 32-bit counter wraps. *)
Definition ctr32_run (ctr32 len : Z) : Z * Z :=
  let blocks := len / 16 in
  let blocks := if 2 ^ 28 <? blocks then 2 ^ 28 else blocks in
  let ctr32 := u32 (ctr32 + u32 blocks) in
  if ctr32 <? blocks then (blocks - ctr32, 0) else (blocks, ctr32).

Definition store_ctr32 (ctr32 : Z) (ivec : list Z) : list Z :=
  let ivec := write_at 12 (CRYPTO_store_u32_be ctr32) ivec in
  if ctr32 =? 0 then ctr96_inc ivec else ivec.

(** [while (len >= 16)]: [ivec], the counter, the output, the rest. *)
Fixpoint ctr32_blocks (fuel : nat) (ctr32 : Z) (ivec input : list Z) :
    list Z * Z * list Z * list Z :=
  match fuel with
  | O => (ivec, ctr32, [], input)
  | S fuel =>
      if blen input <? 16 then (ivec, ctr32, [], input)
      else
        let '(blocks, ctr32) := ctr32_run ctr32 (blen input) in
        let n := Z.to_nat (blocks * 16) in
        let out := func (take n input) key ivec in
        let ivec := store_ctr32 ctr32 ivec in
        let '(ivec, ctr32, output, rest) := ctr32_blocks fuel ctr32 ivec (drop n input) in
        (ivec, ctr32, out ++ output, rest)
  end.

Definition CRYPTO_ctr128_encrypt_ctr32 (input ivec ecount : list Z) (num : nat) :
    list Z * list Z * list Z * nat :=
  let '(s, n, out1, rest) := finish_block ctr_byte (Ctr ivec ecount) num input in
  let ctr32 := CRYPTO_load_u32_be (drop 12 (ctr_ivec s)) in
  let '(ivec, ctr32, out2, rest) := ctr32_blocks (length rest) ctr32 (ctr_ivec s) rest in
  match rest with
  | [] => (out1 ++ out2, ivec, ecount_buf s, n)
  | _ =>
      let ecount := func (replicate 16 0) key ivec in
      let ctr32 := u32 (ctr32 + 1) in
      let ivec := store_ctr32 ctr32 ivec in
      let '(s, n, out3) := start_block ctr_byte (Ctr ivec ecount) n rest in
      (out1 ++ out2 ++ out3, ctr_ivec s, ecount_buf s, n)
  end.

(** ** OFB (ofb.c) *)

Definition ofb_byte (ivec : list Z) (n : nat) (b : Z) : list Z * Z :=
  (ivec, Z.lxor b (nth n ivec 0)).

Definition ofb_next (ivec : list Z) : list Z := block ivec key.

Definition ofb_block (ivec input : list Z) : list Z * list Z :=
  let ivec := ofb_next ivec in (ivec, xor_words input ivec).

(** The result: output, [ivec] and [*num]. *)
Definition CRYPTO_ofb128_encrypt (input ivec : list Z) (num : nat) : list Z * list Z * nat :=
  let '(ivec, n, output) := stream_crypt ofb_byte ofb_block ofb_next ivec num input in
  (output, ivec, n).

(** ** CFB (cfb.c) *)

(** [out = ivec[n] ^= in] *)
Definition cfb_enc_byte (ivec : list Z) (n : nat) (b : Z) : list Z * Z :=
  let c := Z.lxor (nth n ivec 0) b in (<[n := c]> ivec, c).

(** [out = ivec[n] ^ (c = in); ivec[n] = c] *)
Definition cfb_dec_byte (ivec : list Z) (n : nat) (c : Z) : list Z * Z :=
  (<[n := c]> ivec, Z.lxor (nth n ivec 0) c).

Definition cfb_enc_block (ivec input : list Z) : list Z * list Z :=
  let tmp := xor_words (block ivec key) input in (tmp, tmp).

(** The two words of the input are stored to [ivec] as they are. *)
Definition cfb_dec_block (ivec input : list Z) : list Z * list Z :=
  let ivec := block ivec key in
  (mjoin ((fun n => CRYPTO_store_word_le (CRYPTO_load_word_le (drop n input))) <$> [0%nat; 8%nat]),
   xor_words ivec input).

Definition CRYPTO_cfb128_encrypt (input ivec : list Z) (num : nat) (enc : bool) :
    list Z * list Z * nat :=
  let '(ivec, n, output) :=
    if enc then stream_crypt cfb_enc_byte cfb_enc_block ofb_next ivec num input
    else stream_crypt cfb_dec_byte cfb_dec_block ofb_next ivec num input in
  (output, ivec, n).

(** One segment of [nbits] bits, at the front of [input]: the output bytes and
    the shifted [ivec]. The second half of [ovec] is only written as far as the
    segment goes. *)
Definition cfbr_encrypt_block (input ivec : list Z) (nbits : Z) (enc : bool) : list Z * list Z :=
  if (nbits <=? 0) || (128 <? nbits) then ([], ivec)
  else
    let old := ivec in
    let ivec := block ivec key in
    let num := Z.to_nat ((nbits + 7) / 8) in
    let segment := take num input in
    let xored := zip_with Z.lxor segment ivec in
    let ovec := old ++ (if enc then xored else segment) ++ replicate (17 - num) 0 in
    let rem := nbits mod 8 in
    let num := Z.to_nat (nbits / 8) in
    (xored,
     if rem =? 0 then take 16 (drop num ovec)
     else (fun n => u8 (Z.lor (Z.shiftl (nth (n + num) ovec 0) rem)
                              (Z.shiftr (nth (n + num + 1) ovec 0) (8 - rem)))) <$> seq 0 16).

(** The segments of one byte. *)
Fixpoint CRYPTO_cfb128_8_encrypt (input ivec : list Z) (enc : bool) : list Z * list Z :=
  match input with
  | [] => ([], ivec)
  | b :: input =>
      let '(out, ivec) := cfbr_encrypt_block [b] ivec 8 enc in
      let '(output, ivec) := CRYPTO_cfb128_8_encrypt input ivec enc in
      (out ++ output, ivec)
  end.

(** The segments of one bit, most significant first; [out] is the buffer the
    bits are stored to. *)
Definition cfb1_bit (enc : bool) (input : list Z) (n : nat) (s : list Z * list Z) : list Z * list Z :=
  let '(out, ivec) := s in
  let bit := 7 - Z.of_nat (Nat.modulo n 8) in
  let i := Nat.div n 8 in
  let c := if Z.testbit (nth i input 0) bit then 0x80 else 0 in
  let '(d, ivec) := cfbr_encrypt_block [c] ivec 1 enc in
  (<[i := Z.lor (Z.land (nth i out 0) (u8 (Z.lnot (Z.shiftl 1 bit))))
                (Z.shiftr (Z.land (nth 0 d 0) 0x80) (Z.of_nat (Nat.modulo n 8)))]> out,
   ivec).

Definition CRYPTO_cfb128_1_encrypt (input : list Z) (bits : nat) (out ivec : list Z) (enc : bool) :
    list Z * list Z :=
  foldl (fun s n => cfb1_bit enc input n s) (out, ivec) (seq 0 bits).
End Modes.
