(* ===== verification/ModesSpec.v ===== *)
(** The stream modes against machines that handle one byte at a time, and the
    counter mode against its key stream. *)

From Stdlib Require Import ZifyNat.
From S2P Require Import Prelude CryptoInternal Modes.

(** Linear arithmetic with [/] and [mod] of [nat] by constants. *)
Ltac ndiv := zify; Z.to_euclidean_division_equations; lia.

(** ** Words and bytes *)

Lemma lxor_digit A B x y n :
  0 <= n -> in_word n x -> in_word n y ->
  Z.lxor (A * 2 ^ n + x) (B * 2 ^ n + y) = Z.lxor A B * 2 ^ n + Z.lxor x y.
Proof.
  intros Hn Hx Hy. rewrite <-!lor_shiftl_low by auto with words.
  apply Z.bits_inj'. intros i Hi. rewrite Z.lxor_spec, !Z.lor_spec, !Z.shiftl_spec, !Z.lxor_spec by done.
  destruct (decide (i < n)).
  - rewrite !(Z.testbit_neg_r _ (i - n)) by lia. done.
  - rewrite (testbit_high n x), (testbit_high n y) by (done || lia). by rewrite !orb_false_r.
Qed.

Lemma be_val_lxor l k :
  bytes l -> bytes k -> length l = length k ->
  Z.lxor (be_val l) (be_val k) = be_val (zip_with Z.lxor l k).
Proof.
  revert k. induction l as [|x l IH] using rev_ind; intros k Hl Hk Hlen.
  - by destruct k.
  - destruct k as [|y k _] using rev_ind; [rewrite length_app in Hlen; simpl in Hlen; lia|].
    rewrite !length_app in Hlen. simpl in Hlen.
    apply bytes_app in Hl as [Hl [Hx _]%Forall_cons]. apply bytes_app in Hk as [Hk [Hy _]%Forall_cons].
    rewrite zip_with_app by lia. simpl. rewrite !be_val_snoc. change 256 with (2 ^ 8).
    rewrite lxor_digit by (done || lia). by rewrite IH by (done || lia).
Qed.

Lemma zip_with_rev {A B C} (f : A -> B -> C) l k :
  length l = length k -> zip_with f (rev l) (rev k) = rev (zip_with f l k).
Proof.
  revert k. induction l as [|x l IH]; intros [|y k] Hlen; try done. simpl in *.
  rewrite zip_with_app by (rewrite !length_rev; lia). by rewrite IH by lia.
Qed.

Lemma bytes_zip_lxor l k : bytes l -> bytes k -> bytes (zip_with Z.lxor l k).
Proof.
  intros Hl. revert k. induction Hl as [|x l Hx Hl IH]; intros k Hk; [constructor|].
  destruct Hk as [|y k Hy Hk]; [constructor|]. constructor; [by apply lxor_range|auto].
Qed.

(** The exclusive or of two words in memory is that of their bytes. *)
Lemma store_lxor_load l k :
  bytes l -> bytes k -> length l = 8%nat -> length k = 8%nat ->
  CRYPTO_store_word_le (Z.lxor (CRYPTO_load_word_le l) (CRYPTO_load_word_le k)) = zip_with Z.lxor l k.
Proof.
  intros Hl Hk Hll Hlk. unfold CRYPTO_store_word_le, CRYPTO_load_word_le, le_bytes, le_val.
  rewrite !take_ge by lia. rewrite be_val_lxor by (rewrite ?bytes_rev, ?length_rev; lia || done).
  rewrite zip_with_rev by lia.
  assert (8%nat = length (rev (zip_with Z.lxor l k))) as Hn by (rewrite length_rev, length_zip_with; lia).
  rewrite Hn, be_bytes_be_val; [apply rev_involutive|]. by apply bytes_rev, bytes_zip_lxor.
Qed.

Lemma store_load_word l :
  bytes l -> length l = 8%nat -> CRYPTO_store_word_le (CRYPTO_load_word_le l) = l.
Proof.
  intros Hl Hn. unfold CRYPTO_store_word_le, CRYPTO_load_word_le, le_bytes, le_val.
  rewrite take_ge by lia. rewrite <-Hn at 1. rewrite <-length_rev, be_bytes_be_val; [apply rev_involutive|].
  by apply bytes_rev.
Qed.

Lemma load_word_take l : CRYPTO_load_word_le l = CRYPTO_load_word_le (take 8 l).
Proof. unfold CRYPTO_load_word_le. by rewrite take_take. Qed.

Definition is_block (l : list Z) : Prop := bytes l /\ length l = 16%nat.

#[export] Instance is_block_dec l : Decision (is_block l).
Proof. unfold is_block. apply _. Defined.

Lemma mjoin_two {A} (f : nat -> list A) i j : mjoin (f <$> [i; j]) = f i ++ f j.
Proof. simpl. by rewrite app_nil_r. Qed.

Lemma xor_words_spec a b : is_block a -> is_block b -> xor_words a b = zip_with Z.lxor a b.
Proof.
  intros [Ha Hla] [Hb Hlb]. unfold xor_words. rewrite mjoin_two, !drop_0.
  rewrite (load_word_take a), (load_word_take b).
  rewrite !store_lxor_load by (rewrite ?length_take, ?length_drop; auto with words || lia).
  rewrite <-zip_with_app by (rewrite !length_take; lia). by rewrite !take_drop.
Qed.

Lemma is_block_zip a b : is_block a -> is_block b -> is_block (zip_with Z.lxor a b).
Proof.
  intros [Ha Hla] [Hb Hlb]. split; [by apply bytes_zip_lxor|]. rewrite length_zip_with. lia.
Qed.

(** ** One byte at a time *)

Section Machine.
Context {S : Type} (body : S -> nat -> Z -> S * Z) (body16 : S -> list Z -> S * list Z) (next : S -> S).

(** At the start of a block the next key-stream block is computed. *)
Definition byte_step (s : S) (n : nat) (b : Z) : S * Z :=
  body (if (n =? 0)%nat then next s else s) n b.

Fixpoint byte_run (s : S) (n : nat) (input : list Z) : S * nat * list Z :=
  match input with
  | [] => (s, n, [])
  | b :: input =>
      let '(s, o) := byte_step s n b in
      let '(s, n, output) := byte_run s (Nat.modulo (n + 1) 16) input in
      (s, n, o :: output)
  end.

(** Two calls in a row are one call on the whole input. *)
Lemma byte_run_app l k : forall s n,
  byte_run s n (l ++ k) =
    let '(s, n, o1) := byte_run s n l in
    let '(s, n, o2) := byte_run s n k in (s, n, o1 ++ o2).
Proof.
  induction l as [|b l IH]; intros s n; simpl.
  - by destruct (byte_run s n k) as [[??]?].
  - destruct (byte_step s n b) as [s1 o]. rewrite IH.
    destruct (byte_run s1 _ l) as [[??]?]. by destruct (byte_run _ _ k) as [[??]?].
Qed.

(** [valid]: the states of the mode. On a valid state the code for a whole
    block is the code for its sixteen bytes. *)
Context (valid : S -> Prop).
Class StreamMode : Prop := {
  valid_next : forall s, valid s -> valid (next s);
  valid_body : forall s n b, valid s -> is_byte b -> (n < 16)%nat -> valid (body s n b).1;
  body16_bytes : forall s l, valid s -> is_block l ->
    start_block body (next s) 0 l = ((body16 s l).1, 16%nat, (body16 s l).2)
}.
Context `{!StreamMode}.

Lemma start_block_run l : forall s n,
  (0 < n < 16)%nat -> (n + length l <= 16)%nat ->
  byte_run s n l = let '(s, m, o) := start_block body s n l in (s, Nat.modulo m 16, o).
Proof.
  induction l as [|b l IH]; intros s n Hn Hl; cbn [byte_run start_block].
  - by rewrite Nat.mod_small by lia.
  - cbn [length] in Hl. unfold byte_step. rewrite (proj2 (Nat.eqb_neq _ _)) by lia.
    destruct (body s n b) as [s1 o]. destruct (decide (n = 15%nat)) as [->|Hne].
    + destruct l as [|b' l]; [done|]. simpl in Hl. lia.
    + rewrite Nat.mod_small, Nat.add_1_r by lia. rewrite IH by lia.
      by destruct (start_block body s1 (Datatypes.S n) l) as [[??]?].
Qed.

(** From the start of a block. *)
Lemma first_block_run l s :
  l <> [] -> (length l <= 16)%nat ->
  byte_run s 0 l = let '(s, m, o) := start_block body (next s) 0 l in (s, Nat.modulo m 16, o).
Proof.
  destruct l as [|b l]; [done|]. intros _ Hl. cbn [byte_run start_block length] in *.
  unfold byte_step. cbn [Nat.eqb]. destruct (body (next s) 0%nat b) as [s1 o].
  change (Nat.modulo (0 + 1) 16) with 1%nat. rewrite start_block_run by lia.
  by destruct (start_block body s1 1 l) as [[??]?].
Qed.

Lemma start_block_index l : forall s n, (start_block body s n l).1.2 = (n + length l)%nat.
Proof.
  induction l as [|b l IH]; intros s n; cbn [start_block length]; [simpl; lia|].
  destruct (body s n b) as [s1 o]. specialize (IH s1 (Datatypes.S n)).
  destruct (start_block body s1 (Datatypes.S n) l) as [[??]?]. simpl in *. lia.
Qed.

Lemma finish_block_run input : forall s n,
  (n < 16)%nat -> valid s -> bytes input ->
  exists s' n' o k rest, finish_block body s n input = (s', n', o, rest) /\
    input = k ++ rest /\ byte_run s n k = (s', n', o) /\ valid s' /\ (n' < 16)%nat /\
    (n' = 0%nat \/ rest = []).
Proof.
  induction input as [|b input IH]; intros s n Hn Hv Hb.
  - exists s, n, [], [], []. destruct n; simpl; auto 10.
  - destruct n as [|n]; [exists s, 0%nat, [], [], (b :: input); simpl; auto 10|].
    apply Forall_cons in Hb as [Hb Hbs]. cbn [finish_block].
    pose proof (valid_body s (Datatypes.S n) b Hv Hb Hn) as Hv1.
    destruct (body s (Datatypes.S n) b) as [s1 o1] eqn:Hbody.
    destruct (IH s1 (Nat.modulo (Datatypes.S n + 1) 16)) as (s2 & n2 & o2 & k & rest & He & -> & Hr & Hv2 & Hn2 & Hor);
      [apply Nat.mod_upper_bound; lia|done|done|].
    rewrite He. exists s2, n2, (o1 :: o2), (b :: k), rest. split; [done|]. split; [done|].
    split; [|done]. cbn [byte_run]. unfold byte_step. cbn [Nat.eqb]. by rewrite Hbody, Hr.
Qed.

Lemma byte_run_valid l : forall s n,
  valid s -> bytes l -> (n < 16)%nat ->
  valid (byte_run s n l).1.1 /\ ((byte_run s n l).1.2 < 16)%nat.
Proof.
  induction l as [|b l IH]; intros s n Hv Hb Hn; [done|]. apply Forall_cons in Hb as [Hb Hbs].
  cbn [byte_run]. unfold byte_step.
  assert (valid (if (n =? 0)%nat then next s else s)) as Hv0.
  { destruct (n =? 0)%nat; [by apply valid_next|done]. }
  pose proof (valid_body _ n b Hv0 Hb Hn) as Hv1. destruct (body _ n b) as [s1 o].
  destruct (IH s1 (Nat.modulo (n + 1) 16) Hv1 Hbs) as [H1 H2]; [apply Nat.mod_upper_bound; lia|].
  by destruct (byte_run s1 _ l) as [[??]?].
Qed.

Lemma whole_blocks_run fuel : forall s input,
  valid s -> bytes input -> (length input <= 16 * fuel)%nat ->
  exists s' o k rest, whole_blocks fuel body16 s 0 input = (s', 0%nat, o, rest) /\
    input = k ++ rest /\ byte_run s 0 k = (s', 0%nat, o) /\ valid s' /\ (length rest < 16)%nat.
Proof.
  induction fuel as [|fuel IH]; intros s input Hv Hb Hf; cbn [whole_blocks].
  - exists s, [], [], input. repeat split; try done. lia.
  - destruct (Nat.ltb_spec (length input) 16) as [Hlt|Hge]; [by exists s, [], [], input|].
    assert (is_block (take 16 input)) as Hblk by (split; [auto with words|rewrite length_take; lia]).
    pose proof (body16_bytes s _ Hv Hblk) as H16.
    destruct (body16 s (take 16 input)) as [s1 o1]. cbn [fst snd] in H16.
    assert (byte_run s 0 (take 16 input) = (s1, 0%nat, o1)) as Hr1.
    { rewrite first_block_run by (rewrite ?length_take; try lia; intros Hn; rewrite Hn in Hblk; by destruct Hblk).
      by rewrite H16. }
    assert (valid s1) as Hv1.
    { destruct (byte_run_valid (take 16 input) s 0) as [Hv1 _]; [done|apply Hblk|lia|]. by rewrite Hr1 in Hv1. }
    destruct (IH s1 (drop 16 input)) as (s2 & o2 & k & rest & He & Hk & Hr2 & Hv2 & Hlen);
      [done|auto with words|rewrite length_drop; lia|].
    rewrite He. exists s2, (o1 ++ o2), (take 16 input ++ k), rest. split; [done|].
    split; [by rewrite <-app_assoc, <-Hk, take_drop|]. split; [|done]. by rewrite byte_run_app, Hr1, Hr2.
Qed.

(** The code of a stream mode is the byte machine. *)
Lemma stream_crypt_run s n input :
  valid s -> (n < 16)%nat -> bytes input ->
  stream_crypt body body16 next s n input = byte_run s n input.
Proof.
  intros Hv Hn Hb. unfold stream_crypt.
  destruct (finish_block_run input s n Hn Hv Hb) as (s1 & n1 & o1 & k1 & rest1 & -> & -> & Hr1 & Hv1 & Hn1 & Hor).
  apply bytes_app in Hb as [_ Hb]. rewrite byte_run_app, Hr1.
  destruct Hor as [->| ->].
  - destruct (whole_blocks_run (length rest1) s1 rest1 Hv1 Hb) as (s2 & o2 & k2 & rest2 & -> & -> & Hr2 & Hv2 & Hlen); [lia|].
    rewrite byte_run_app, Hr2. destruct rest2 as [|b rest2]; [cbn [byte_run]; by rewrite app_nil_r|].
    rewrite first_block_run by (done || lia).
    pose proof (start_block_index (b :: rest2) (next s2) 0) as Hi.
    destruct (start_block body (next s2) 0 (b :: rest2)) as [[s3 n3] o3]. cbn [fst snd] in Hi.
    rewrite Nat.mod_small by lia. done.
  - done.
Qed.

(** Calls in a row, each on the state the last one left. *)
Fixpoint calls (s : S) (n : nat) (pieces : list (list Z)) : S * nat * list Z :=
  match pieces with
  | [] => (s, n, [])
  | p :: pieces =>
      let '(s, n, o) := stream_crypt body body16 next s n p in
      let '(s, n, output) := calls s n pieces in (s, n, o ++ output)
  end.

Lemma calls_run pieces : forall s n,
  valid s -> (n < 16)%nat -> bytes (concat pieces) ->
  calls s n pieces = byte_run s n (concat pieces).
Proof.
  induction pieces as [|p pieces IH]; intros s n Hv Hn Hb; [done|]. cbn [calls concat] in *.
  apply bytes_app in Hb as [Hp Hb]. rewrite stream_crypt_run, byte_run_app by done.
  destruct (byte_run_valid p s n Hv Hp Hn) as [Hv1 Hn1].
  destruct (byte_run s n p) as [[s1 n1] o1]. by rewrite IH.
Qed.
End Machine.

(** ** The modes *)

Section Modes.
Context {AES_KEY : Type} (block : list Z -> AES_KEY -> list Z) (key : AES_KEY).

(** A block cipher maps blocks to blocks. *)
Class BlockCipher : Prop := block_ok : forall x, is_block x -> is_block (block x key).
Context `{!BlockCipher}.

(** A body that combines the input with a key stream block [ks s]. *)
Lemma start_block_xor {S} (body : S -> nat -> Z -> S * Z) (ks : S -> list Z) s l :
  (forall s n b, body s n b = (s, Z.lxor b (nth n (ks s) 0))) -> forall n,
  (n + length l <= length (ks s))%nat ->
  start_block body s n l = (s, (n + length l)%nat, zip_with Z.lxor l (drop n (ks s))).
Proof.
  intros Hbody. induction l as [|b l IH]; intros n Hn; cbn [start_block length] in *.
  - by rewrite Nat.add_0_r.
  - rewrite Hbody, IH by lia. destruct (lookup_lt_is_Some_2 (ks s) n) as [x Hx]; [lia|].
    rewrite (drop_S _ x n) by done. rewrite (nth_lookup_Some _ _ _ _ Hx). simpl. do 2 f_equal. lia.
Qed.

(** *** OFB *)

#[export] Instance ofb_mode : StreamMode ofb_byte (ofb_block block key) (ofb_next block key) is_block.
Proof.
  split.
  - apply block_ok.
  - done.
  - intros iv l Hiv Hl. unfold ofb_block, ofb_next. cbn [fst snd].
    pose proof (block_ok iv Hiv) as Hb. rewrite xor_words_spec by done.
    rewrite (start_block_xor _ id) by (done || (unfold id; destruct Hb as [_ ->], Hl as [_ ->]; simpl; lia)).
    destruct Hl as [_ ->]. unfold id. by rewrite drop_0.
Qed.

(** *** CFB *)

Lemma start_cfb_enc l : forall iv n,
  (n + length l <= length iv)%nat ->
  start_block cfb_enc_byte iv n l =
    (take n iv ++ zip_with Z.lxor (drop n iv) l ++ drop (n + length l) iv, (n + length l)%nat,
     zip_with Z.lxor (drop n iv) l).
Proof.
  induction l as [|b l IH]; intros iv n Hn; cbn [start_block length] in *.
  - rewrite zip_with_nil_r, Nat.add_0_r. cbn [app]. by rewrite take_drop.
  - unfold cfb_enc_byte at 1. destruct (lookup_lt_is_Some_2 iv n) as [x Hx]; [lia|].
    rewrite (nth_lookup_Some _ _ _ _ Hx). rewrite IH by (rewrite length_insert; lia).
    rewrite (drop_S iv x n) by done. cbn [zip_with].
    rewrite (take_S_r _ n (Z.lxor x b)) by (apply list_lookup_insert_eq; lia).
    rewrite take_insert_ge, !drop_insert_lt by lia. rewrite <-app_assoc. cbn [app].
    by replace (Datatypes.S n + length l)%nat with (n + Datatypes.S (length l))%nat by lia.
Qed.

Lemma start_cfb_dec l : forall iv n,
  (n + length l <= length iv)%nat ->
  start_block cfb_dec_byte iv n l =
    (take n iv ++ l ++ drop (n + length l) iv, (n + length l)%nat, zip_with Z.lxor (drop n iv) l).
Proof.
  induction l as [|b l IH]; intros iv n Hn; cbn [start_block length] in *.
  - rewrite zip_with_nil_r, Nat.add_0_r. cbn [app]. by rewrite take_drop.
  - unfold cfb_dec_byte at 1. destruct (lookup_lt_is_Some_2 iv n) as [x Hx]; [lia|].
    rewrite (nth_lookup_Some _ _ _ _ Hx). rewrite IH by (rewrite length_insert; lia).
    rewrite (drop_S iv x n) by done. cbn [zip_with].
    rewrite (take_S_r _ n b) by (apply list_lookup_insert_eq; lia).
    rewrite take_insert_ge, !drop_insert_lt by lia. rewrite <-app_assoc. cbn [app].
    by replace (Datatypes.S n + length l)%nat with (n + Datatypes.S (length l))%nat by lia.
Qed.

Lemma insert_block iv n x : is_block iv -> is_byte x -> is_block (<[n := x]> iv).
Proof.
  intros [Hb Hl] Hx. split; [by apply Forall_insert|by rewrite length_insert].
Qed.

Lemma nth_byte iv n : is_block iv -> (n < 16)%nat -> is_byte (nth n iv 0).
Proof.
  intros [Hb Hl] Hn. destruct (lookup_lt_is_Some_2 iv n) as [x Hx]; [lia|].
  rewrite (nth_lookup_Some _ _ _ _ Hx). by eapply Forall_lookup_1.
Qed.

#[export] Instance cfb_enc_mode :
  StreamMode cfb_enc_byte (cfb_enc_block block key) (ofb_next block key) is_block.
Proof.
  split.
  - apply block_ok.
  - intros iv n b Hiv Hb Hn. cbn. apply insert_block; [done|]. apply lxor_range; [lia|by apply nth_byte|done].
  - intros iv l Hiv Hl. unfold cfb_enc_block, ofb_next. cbn [fst snd].
    pose proof (block_ok iv Hiv) as Hb. rewrite xor_words_spec by done.
    rewrite start_cfb_enc by (destruct Hb as [_ ->], Hl as [_ ->]; simpl; lia).
    destruct Hl as [_ ->], Hb as [_ Hlen]. rewrite drop_0, drop_ge, app_nil_r by lia. done.
Qed.

#[export] Instance cfb_dec_mode :
  StreamMode cfb_dec_byte (cfb_dec_block block key) (ofb_next block key) is_block.
Proof.
  split.
  - apply block_ok.
  - intros iv n b Hiv Hb Hn. cbn. by apply insert_block.
  - intros iv l Hiv Hl. unfold cfb_dec_block, ofb_next. cbn [fst snd].
    pose proof (block_ok iv Hiv) as Hb. rewrite xor_words_spec by done.
    rewrite start_cfb_dec by (destruct Hb as [_ ->], Hl as [_ ->]; simpl; lia).
    destruct Hl as [Hbl Hl], Hb as [_ Hlen]. rewrite drop_0, Hl, (drop_ge _ (0 + 16)), app_nil_r by lia.
    rewrite mjoin_two, drop_0, (load_word_take l).
    rewrite !store_load_word by (rewrite ?length_take, ?length_drop; auto with words || lia).
    by rewrite take_drop.
Qed.

(** *** CTR *)

Lemma ctr_loop_spec n : forall c counter,
  bytes counter -> (n <= length counter)%nat -> 0 <= c < 2 ^ 24 ->
  ctr_loop n c counter = be_bytes n (be_val (take n counter) + c) ++ drop n counter.
Proof.
  induction n as [|n IH]; intros c counter Hb Hn Hc; [done|]. cbn [ctr_loop].
  destruct (lookup_lt_is_Some_2 counter n) as [x Hx]; [lia|].
  pose proof (Forall_lookup_1 _ _ _ _ Hb Hx) as Hx8. rewrite (nth_lookup_Some _ _ _ _ Hx).
  pose proof Hx8 as Hx'. unfold in_word in Hx'. pow2.
  rewrite (wrap_small 32) by (unfold in_word; pow2; lia). rewrite Z.shiftr_div_pow2 by lia. pow2.
  rewrite IH by (rewrite ?length_insert; try apply Forall_insert; (done || lia || (apply wrap_range; lia) || zdiv)).
  rewrite take_insert_ge, (take_S_r _ n x) by (done || lia). rewrite be_val_snoc. cbn [be_bytes].
  rewrite <-app_assoc. rewrite (drop_S _ (u8 (c + x)) n) by (apply list_lookup_insert_eq; lia).
  rewrite drop_insert_lt by lia. unfold wrap. pow2.
  replace ((be_val (take n counter) * 256 + x + c) / 256) with (be_val (take n counter) + (c + x) / 256) by zdiv.
  replace ((be_val (take n counter) * 256 + x + c) mod 256) with ((c + x) mod 256) by zdiv. done.
Qed.

Lemma ctr128_inc_spec iv : is_block iv -> ctr128_inc iv = be_bytes 16 (be_val iv + 1).
Proof.
  intros [Hb Hl]. unfold ctr128_inc. rewrite ctr_loop_spec by (done || lia).
  by rewrite take_ge, drop_ge, app_nil_r by lia.
Qed.

Lemma is_block_be_bytes v : is_block (be_bytes 16 v).
Proof. split; [apply bytes_be_bytes|apply length_be_bytes]. Qed.

Lemma be_bytes_add n v k : be_bytes n (be_val (be_bytes n v) + k) = be_bytes n (v + k).
Proof.
  rewrite be_val_be_bytes. rewrite <-be_bytes_mod, Z.add_mod_idemp_l by (apply Z.pow_nonzero; lia).
  apply be_bytes_mod.
Qed.

Definition ctr_valid (s : ctr_state) : Prop := is_block (ctr_ivec s).

#[export] Instance ctr_mode : StreamMode ctr_byte (ctr_block block key) (ctr_next block key) ctr_valid.
Proof.
  split.
  - intros s Hs. unfold ctr_valid, ctr_next. cbn [ctr_ivec]. rewrite ctr128_inc_spec by exact Hs. apply is_block_be_bytes.
  - done.
  - intros s l Hs Hl. unfold ctr_block. cbn [fst snd]. pose proof (block_ok _ Hs) as Hb.
    rewrite (start_block_xor ctr_byte ecount_buf) by (done || (cbn [ecount_buf ctr_next]; destruct Hb as [_ ->], Hl as [_ ->]; lia)).
    unfold ctr_next. cbn [ecount_buf]. rewrite xor_words_spec by done. by destruct Hl as [_ ->].
Qed.

(** The key stream: byte [p] is in block [p / 16], the encryption of the counter
    [v + p / 16] of 128 bits. *)
Definition ctr_key_byte (v : Z) (p : nat) : Z :=
  nth (Nat.modulo p 16) (block (be_bytes 16 (v + Z.of_nat (Nat.div p 16))) key) 0.

Definition ctr_xor (v : Z) (p : nat) (l : list Z) : list Z :=
  imap (fun j b => Z.lxor b (ctr_key_byte v (p + j))) l.

Lemma ctr_xor_app v p l k : ctr_xor v p (l ++ k) = ctr_xor v p l ++ ctr_xor v (p + length l) k.
Proof.
  unfold ctr_xor. rewrite imap_app. f_equal. apply imap_ext. intros j b _. cbn. by rewrite Nat.add_assoc.
Qed.

Lemma ctr_xor_cons v p b l : ctr_xor v p (b :: l) = Z.lxor b (ctr_key_byte v p) :: ctr_xor v (Datatypes.S p) l.
Proof.
  change (b :: l) with ([b] ++ l). rewrite ctr_xor_app. unfold ctr_xor at 1. cbn [imap length app].
  by rewrite Nat.add_0_r, Nat.add_1_r.
Qed.

(** A start at a block boundary is a start with the counter of that block. *)
Lemma ctr_xor_shift v q l : ctr_xor v (16 * q) l = ctr_xor (v + Z.of_nat q) 0 l.
Proof.
  unfold ctr_xor. apply imap_ext. intros j b _. unfold ctr_key_byte.
  replace (Nat.modulo (16 * q + j) 16) with (Nat.modulo (0 + j) 16) by ndiv.
  replace (v + Z.of_nat q + Z.of_nat (Nat.div (0 + j) 16)) with (v + Z.of_nat (Nat.div (16 * q + j) 16)) by ndiv.
  done.
Qed.

(** [p] bytes after a start with the counter [v]. *)
Definition ctr_at (v : Z) (p : nat) (ivec ecount : list Z) (n : nat) : Prop :=
  n = Nat.modulo p 16 /\ ivec = be_bytes 16 (v + Z.of_nat (Nat.div (p + 15) 16)) /\
  (n <> 0%nat -> ecount = block (be_bytes 16 (v + Z.of_nat (Nat.div p 16))) key).

Lemma ctr_byte_run l : forall v p s n,
  ctr_at v p (ctr_ivec s) (ecount_buf s) n ->
  exists s', byte_run ctr_byte (ctr_next block key) s n l = (s', Nat.modulo (p + length l) 16, ctr_xor v p l) /\
    ctr_at v (p + length l) (ctr_ivec s') (ecount_buf s') (Nat.modulo (p + length l) 16).
Proof.
  induction l as [|b l IH]; intros v p s n Hat.
  - destruct Hat as (-> & Hat). exists s. cbn [length byte_run]. by rewrite Nat.add_0_r.
  - cbn [byte_run length]. unfold byte_step.
    set (s0 := if (n =? 0)%nat then ctr_next block key s else s).
    assert (ctr_ivec s0 = be_bytes 16 (v + Z.of_nat (Nat.div (Datatypes.S p + 15) 16)) /\
            ecount_buf s0 = block (be_bytes 16 (v + Z.of_nat (Nat.div p 16))) key) as [Hiv Hec].
    { destruct Hat as (Hn & Hiv & Hec). unfold s0. destruct (Nat.eqb_spec n 0) as [Hz|Hz].
      - unfold ctr_next. cbn [ctr_ivec ecount_buf]. rewrite Hiv, ctr128_inc_spec by apply is_block_be_bytes.
        rewrite be_bytes_add. replace (Nat.div (p + 15) 16) with (Nat.div p 16) by ndiv.
        split; [|done]. f_equal. ndiv.
      - rewrite Hiv, (Hec Hz). split; [|done]. do 3 f_equal. ndiv. }
    destruct Hat as (-> & _ & _). cbn [ctr_byte].
    destruct (IH v (Datatypes.S p) s0 (Nat.modulo (Nat.modulo p 16 + 1) 16)) as (s' & Hr & Hat').
    { split; [ndiv|]. split; [done|]. intros Hne. rewrite Hec. do 4 f_equal. ndiv. }
    rewrite Hr. exists s'. rewrite <-Nat.add_succ_comm. split; [|done].
    rewrite ctr_xor_cons, Hec. done.
Qed.

(** Decryption of single bytes undoes encryption. *)
Lemma ofb_byte_undo l : forall iv n iv' n' c,
  byte_run ofb_byte (ofb_next block key) iv n l = (iv', n', c) ->
  byte_run ofb_byte (ofb_next block key) iv n c = (iv', n', l).
Proof.
  induction l as [|b l IH]; intros iv n iv' n' c; cbn [byte_run]; [by intros [= <- <- <-]|].
  unfold byte_step. cbn [ofb_byte]. set (iv0 := if (n =? 0)%nat then _ else iv).
  destruct (byte_run _ _ iv0 _ l) as [[iv1 n1] o] eqn:He. intros [= <- <- <-]. cbn [byte_run].
  unfold byte_step. fold iv0. cbn [ofb_byte]. rewrite (IH _ _ _ _ _ He).
  by rewrite Z.lxor_assoc, Z.lxor_nilpotent, Z.lxor_0_r.
Qed.

Lemma cfb_byte_undo l : forall iv n iv' n' c,
  byte_run cfb_enc_byte (ofb_next block key) iv n l = (iv', n', c) ->
  byte_run cfb_dec_byte (ofb_next block key) iv n c = (iv', n', l).
Proof.
  induction l as [|b l IH]; intros iv n iv' n' c; cbn [byte_run]; [by intros [= <- <- <-]|].
  unfold byte_step. cbn [cfb_enc_byte]. set (iv0 := if (n =? 0)%nat then _ else iv).
  destruct (byte_run _ _ _ _ l) as [[iv1 n1] o] eqn:He. intros [= <- <- <-]. cbn [byte_run].
  unfold byte_step. fold iv0. cbn [cfb_dec_byte]. rewrite (IH _ _ _ _ _ He).
  by rewrite <-Z.lxor_assoc, Z.lxor_nilpotent, Z.lxor_0_l.
Qed.
End Modes.

(** ** The counter mode on a function with a 32-bit counter *)

Section Ctr32.
Context {AES_KEY : Type} (block : list Z -> AES_KEY -> list Z) (key : AES_KEY).
Context (func : list Z -> AES_KEY -> list Z -> list Z).

(** What [func] does ([ctr128_f]): whole blocks, with a counter in the last four
    bytes of the block that wraps around within them. *)
Class Ctr32Func : Prop := ctr32_ok : forall input ivec,
  is_block ivec -> bytes input -> Nat.modulo (length input) 16 = 0%nat ->
  func input key ivec = imap (fun j b => Z.lxor b (nth (Nat.modulo j 16)
    (block (take 12 ivec ++ be_bytes 4 (be_val (drop 12 ivec) + Z.of_nat (Nat.div j 16))) key) 0)) input.
Context `{!Ctr32Func}.

(** A counter block as its upper 96 bits and its 32-bit counter. *)
Lemma counter_split v : be_bytes 16 v = be_bytes 12 (v / 2 ^ 32) ++ be_bytes 4 (v mod 2 ^ 32).
Proof.
  change (2 ^ 32) with (256 ^ Z.of_nat 4). rewrite <-be_bytes_split; [|apply Z.mod_pos_bound; reflexivity].
  f_equal. rewrite Z.mul_comm. by apply Z.div_mod.
Qed.

Lemma counter_words v :
  take 12 (be_bytes 16 v) = be_bytes 12 (v / 2 ^ 32) /\ drop 12 (be_bytes 16 v) = be_bytes 4 (v mod 2 ^ 32).
Proof.
  rewrite counter_split. split.
  - apply take_app_length'. symmetry. apply length_be_bytes.
  - apply drop_app_length'. symmetry. apply length_be_bytes.
Qed.

Lemma be_val_counter v : be_val (be_bytes 4 (v mod 2 ^ 32)) = v mod 2 ^ 32.
Proof. rewrite be_val_be_bytes. change (256 ^ Z.of_nat 4) with (2 ^ 32). by apply Z.mod_mod. Qed.

Lemma ctr32_load v : CRYPTO_load_u32_be (drop 12 (be_bytes 16 v)) = v mod 2 ^ 32.
Proof.
  destruct (counter_words v) as [_ ->].
  rewrite CRYPTO_load_u32_be_spec by (apply bytes_be_bytes || apply length_be_bytes). apply be_val_counter.
Qed.

(** A run that does not pass the wrap is a run of the 128-bit counter. *)
Lemma func_ctr_xor v input :
  bytes input -> Nat.modulo (length input) 16 = 0%nat ->
  v mod 2 ^ 32 + Z.of_nat (Nat.div (length input) 16) <= 2 ^ 32 ->
  func input key (be_bytes 16 v) = ctr_xor block key v 0 input.
Proof.
  intros Hb Hm Hw. rewrite ctr32_ok by (done || apply is_block_be_bytes).
  unfold ctr_xor. apply imap_ext. intros j b Hj. apply lookup_lt_Some in Hj. cbn [Nat.add].
  unfold ctr_key_byte. do 3 f_equal. destruct (counter_words v) as [-> ->]. rewrite be_val_counter.
  pose proof (Z.mod_pos_bound v (2 ^ 32) ltac:(lia)) as Hv.
  assert (Nat.div j 16 < Nat.div (length input) 16)%nat as Hq by ndiv.
  rewrite <-(be_bytes_split 12 4) by (change (256 ^ Z.of_nat 4) with (2 ^ 32); lia).
  f_equal. change (256 ^ Z.of_nat 4) with (2 ^ 32). pose proof (Z.div_mod v (2 ^ 32)). lia.
Qed.

Lemma store_ctr32_spec v k :
  0 < k -> v mod 2 ^ 32 + k <= 2 ^ 32 ->
  store_ctr32 ((v mod 2 ^ 32 + k) mod 2 ^ 32) (be_bytes 16 v) = be_bytes 16 (v + k).
Proof.
  intros Hk Hw. unfold store_ctr32. pose proof (Z.mod_pos_bound v (2 ^ 32) ltac:(lia)) as Hv.
  set (c := (v mod 2 ^ 32 + k) mod 2 ^ 32).
  assert (in_word 32 c) as Hc by (apply Z.mod_pos_bound; lia).
  rewrite CRYPTO_store_u32_be_spec by done.
  assert (write_at 12 (be_bytes 4 c) (be_bytes 16 v) = be_bytes 12 (v / 2 ^ 32) ++ be_bytes 4 c) as ->.
  { unfold write_at. change (Z.to_nat 12) with 12%nat. destruct (counter_words v) as [-> _].
    by rewrite drop_ge, app_nil_r by (rewrite blen_be_bytes, length_be_bytes; lia). }
  pose proof (Z.div_mod v (2 ^ 32) ltac:(lia)) as Hd.
  destruct (Z.eqb_spec c 0) as [Hz|Hz].
  - assert (v mod 2 ^ 32 + k = 2 ^ 32) as He.
    { destruct (decide (v mod 2 ^ 32 + k = 2 ^ 32)); [done|]. unfold c in Hz. rewrite Z.mod_small in Hz; lia. }
    unfold ctr96_inc. rewrite Hz, ctr_loop_spec;
      [|apply bytes_app; split; apply bytes_be_bytes|rewrite length_app, !length_be_bytes; lia|lia].
    rewrite take_app_length', drop_app_length' by (symmetry; apply length_be_bytes).
    rewrite be_bytes_add, <-(be_bytes_split 12 4) by (split; [lia|reflexivity]).
    change (256 ^ Z.of_nat 4) with (2 ^ 32). f_equal. lia.
  - assert (c = v mod 2 ^ 32 + k) as ->.
    { unfold c in *. destruct (decide (v mod 2 ^ 32 + k = 2 ^ 32)) as [He|]; [|apply Z.mod_small; lia].
      by rewrite He in Hz. }
    rewrite <-(be_bytes_split 12 4) by (change (256 ^ Z.of_nat 4) with (2 ^ 32) in *; unfold in_word in Hc; lia).
    change (256 ^ Z.of_nat 4) with (2 ^ 32). f_equal. lia.
Qed.

Lemma ctr32_run_spec c len :
  in_word 32 c -> 16 <= len ->
  exists k, ctr32_run c len = (k, (c + k) mod 2 ^ 32) /\ 0 < k /\ 16 * k <= len /\ c + k <= 2 ^ 32.
Proof.
  unfold in_word. intros Hc Hlen. unfold ctr32_run.
  set (blocks := if 2 ^ 28 <? len / 16 then 2 ^ 28 else len / 16).
  assert (0 < blocks <= 2 ^ 28 /\ 16 * blocks <= len) as [Hb Hl].
  { unfold blocks. zcases; split; zdiv. }
  clearbody blocks. rewrite (wrap_small 32 blocks) by (unfold in_word; lia). unfold wrap.
  destruct (decide (c + blocks < 2 ^ 32)) as [Hs|Hs].
  - rewrite (Z.mod_small (c + blocks)) by lia. destruct (Z.ltb_spec (c + blocks) blocks); [lia|].
    exists blocks. rewrite Z.mod_small by lia. repeat split; lia.
  - replace ((c + blocks) mod 2 ^ 32) with (c + blocks - 2 ^ 32) by zdiv.
    destruct (Z.ltb_spec (c + blocks - 2 ^ 32) blocks); [|lia].
    exists (2 ^ 32 - c). replace (c + (2 ^ 32 - c)) with (2 ^ 32) by lia. rewrite Z.mod_same by lia.
    repeat split; try lia. f_equal. lia.
Qed.

Lemma ctr32_blocks_spec fuel : forall v input,
  bytes input -> (length input <= 16 * fuel)%nat ->
  exists q k rest, ctr32_blocks key func fuel (v mod 2 ^ 32) (be_bytes 16 v) input =
      (be_bytes 16 (v + Z.of_nat q), (v + Z.of_nat q) mod 2 ^ 32, ctr_xor block key v 0 k, rest) /\
    input = k ++ rest /\ length k = (16 * q)%nat /\ (length rest < 16)%nat.
Proof.
  induction fuel as [|fuel IH]; intros v input Hb Hf; cbn [ctr32_blocks].
  - exists 0%nat, [], input. rewrite Z.add_0_r. repeat split; try done. lia.
  - destruct (Z.ltb_spec (blen input) 16) as [Hlt|Hge].
    { exists 0%nat, [], input. rewrite Z.add_0_r. repeat split; try done. unfold blen in Hlt. lia. }
    destruct (ctr32_run_spec (v mod 2 ^ 32) (blen input)) as (k & -> & Hk & Hlen & Hw);
      [apply Z.mod_pos_bound; lia|done|].
    set (n := Z.to_nat (k * 16)). assert (n = 16 * Z.to_nat k)%nat as Hn by lia.
    assert (length (take n input) = n) as Ht by (rewrite length_take; unfold blen in Hlen; lia).
    rewrite store_ctr32_spec, func_ctr_xor by (done || auto with words || (rewrite Ht, Hn; ndiv)).
    rewrite Z.add_mod_idemp_l by done.
    destruct (IH (v + k) (drop n input)) as (q & o & rest & He & Hd & Ho & Hr);
      [auto with words|rewrite length_drop; lia|].
    rewrite He. exists (Z.to_nat k + q)%nat, (take n input ++ o), rest.
    rewrite ctr_xor_app, Nat2Z.inj_add, Z2Nat.id, !Z.add_assoc by lia.
    split; [|rewrite <-app_assoc, <-Hd, take_drop, length_app; repeat split; lia].
    rewrite Nat.add_0_l, Ht, Hn, ctr_xor_shift, Z2Nat.id by lia. done.
Qed.
End Ctr32.

(** A block cipher for the examples, with its inverse: a rotation of the bytes
    and an exclusive or with the key byte. *)
Definition toy_block (x : list Z) (key : Z) : list Z := (fun b => Z.lxor b (u8 key)) <$> (drop 1 x ++ take 1 x).
Definition toy_inverse (x : list Z) (key : Z) : list Z := (fun b => Z.lxor b (u8 key)) <$> (drop 15 x ++ take 15 x).

#[export] Instance toy_block_ok key : BlockCipher toy_block key.
Proof.
  intros x [Hb Hl]. unfold toy_block. split.
  - apply Forall_fmap, (Forall_impl is_byte); [apply bytes_app; auto with words|].
    intros b Hx. apply lxor_range; [lia|done|]. apply wrap_range. lia.
  - rewrite length_fmap, length_app, length_drop, length_take. lia.
Qed.

#[export] Instance toy_inverse_ok key : BlockCipher toy_inverse key.
Proof.
  intros x [Hb Hl]. unfold toy_inverse. split.
  - apply Forall_fmap, (Forall_impl is_byte); [apply bytes_app; auto with words|].
    intros b Hx. apply lxor_range; [lia|done|]. apply wrap_range. lia.
  - rewrite length_fmap, length_app, length_drop, length_take. lia.
Qed.

Lemma toy_inverse_block x key : is_block x -> toy_inverse (toy_block x key) key = x.
Proof.
  intros [_ Hl]. unfold toy_inverse, toy_block. rewrite <-fmap_drop, <-fmap_take, <-fmap_app, <-list_fmap_compose.
  destruct x as [|a x]; [done|]. cbn in Hl. injection Hl as Hl. change (drop 1 (a :: x)) with x. change (take 1 (a :: x)) with [a].
  rewrite drop_app_length', take_app_length' by done. transitivity (id <$> (a :: x)); [|apply list_fmap_id].
  apply list_fmap_ext. intros i b _. cbn. by rewrite Z.lxor_assoc, Z.lxor_nilpotent, Z.lxor_0_r.
Qed.
