(* ===== verification/ModesTheorems.v ===== *)
(** The modes of operation as their callers use them: any number of calls, each
    going on where the last one stopped. *)

From Stdlib Require Import ZifyNat.
From S2P Require Import Prelude CryptoInternal Modes ModesSpec.

(** The function with a 32-bit counter made from it. *)
Definition toy_ctr32 (input : list Z) (key : Z) (ivec : list Z) : list Z :=
  imap (fun j b => Z.lxor b (nth (Nat.modulo j 16)
    (toy_block (take 12 ivec ++ be_bytes 4 (be_val (drop 12 ivec) + Z.of_nat (Nat.div j 16))) key) 0)) input.

#[export] Instance toy_ctr32_ok key : Ctr32Func toy_block key toy_ctr32.
Proof. intros input ivec _ _ _. reflexivity. Qed.

(** ** Calls in a row *)

(** A counter mode: [ivec], [ecount_buf] and [*num] are carried along. *)
Fixpoint ctr_calls (enc : list Z -> list Z -> list Z -> nat -> list Z * list Z * list Z * nat)
    (ivec ecount : list Z) (num : nat) (pieces : list (list Z)) : list Z * list Z * list Z * nat :=
  match pieces with
  | [] => ([], ivec, ecount, num)
  | p :: pieces =>
      let '(out, ivec, ecount, num) := enc p ivec ecount num in
      let '(output, ivec, ecount, num) := ctr_calls enc ivec ecount num pieces in
      (out ++ output, ivec, ecount, num)
  end.

(** OFB and CFB: [ivec] and [*num]. *)
Fixpoint mode_calls (enc : list Z -> list Z -> nat -> list Z * list Z * nat)
    (ivec : list Z) (num : nat) (pieces : list (list Z)) : list Z * list Z * nat :=
  match pieces with
  | [] => ([], ivec, num)
  | p :: pieces =>
      let '(out, ivec, num) := enc p ivec num in
      let '(output, ivec, num) := mode_calls enc ivec num pieces in
      (out ++ output, ivec, num)
  end.

Section Counter.
Context {AES_KEY : Type} (block : list Z -> AES_KEY -> list Z) (key : AES_KEY).
Context (func : list Z -> AES_KEY -> list Z -> list Z).
Context {BC : BlockCipher block key} {CF : Ctr32Func block key func}.

(** One call, [p] bytes after the start. *)
Definition ctr_step (enc : list Z -> list Z -> list Z -> nat -> list Z * list Z * list Z * nat) : Prop :=
  forall l v p ivec ecount num, bytes l -> ctr_at block key v p ivec ecount num ->
  exists ivec' ecount' num', enc l ivec ecount num = (ctr_xor block key v p l, ivec', ecount', num') /\
    ctr_at block key v (p + length l) ivec' ecount' num'.

Lemma ctr_at_valid v p iv ec n : ctr_at block key v p iv ec n -> ctr_valid (Ctr iv ec) /\ (n < 16)%nat.
Proof.
  intros (-> & -> & _). split; [apply is_block_be_bytes|]. apply Nat.mod_upper_bound. lia.
Qed.

Lemma ctr128_step : ctr_step (CRYPTO_ctr128_encrypt block key).
Proof.
  intros l v p iv ec n Hb Hat. destruct (ctr_at_valid _ _ _ _ _ Hat) as [Hv Hn].
  unfold CRYPTO_ctr128_encrypt. rewrite (stream_crypt_run ctr_byte (ctr_block block key) (ctr_next block key) ctr_valid) by done.
  destruct (ctr_byte_run block key l v p (Ctr iv ec) n Hat) as (s & -> & Hat'). eauto.
Qed.

(** The key stream block: a call on zeros. *)
Lemma xor_zeros k : forall f, imap (fun j b => Z.lxor b (f j)) (replicate k 0) = f <$> seq 0 k.
Proof.
  induction k as [|k IH]; intros f; [done|]. cbn [replicate imap seq fmap list_fmap]. f_equal.
  rewrite <-fmap_S_seq, <-list_fmap_compose. apply IH.
Qed.

Lemma map_nth_seq (l : list Z) : (fun j => nth j l 0) <$> seq 0 (length l) = l.
Proof.
  induction l as [|x l IH]; [done|]. cbn [length seq fmap list_fmap]. f_equal.
  by rewrite <-fmap_S_seq, <-list_fmap_compose.
Qed.

Lemma func_zeros v :
  func (replicate 16 0) key (be_bytes 16 v) = block (be_bytes 16 v) key.
Proof.
  pose proof (block_ok block key _ (is_block_be_bytes v)) as [Hb Hl].
  pose proof (Z.mod_pos_bound v (2 ^ 32) ltac:(lia)).
  rewrite (func_ctr_xor block key func); [|apply bytes_replicate, in_word_0; lia|done|change (length _) with 16%nat; ndiv].
  unfold ctr_xor. rewrite xor_zeros. rewrite <-(map_nth_seq (block _ _)), Hl.
  apply list_fmap_ext. intros i j Hj. apply lookup_seq in Hj as [-> Hj]. unfold ctr_key_byte.
  cbn [Nat.add]. rewrite Nat.mod_small, Nat.div_small, Z.add_0_r by lia. done.
Qed.

(** The bytes after the last whole block. *)
Lemma ctr32_tail u tail :
  tail <> [] -> (length tail < 16)%nat ->
  exists s', start_block ctr_byte
      (Ctr (store_ctr32 (u32 (u mod 2 ^ 32 + 1)) (be_bytes 16 u)) (func (replicate 16 0) key (be_bytes 16 u)))
      0 tail = (s', length tail, ctr_xor block key u 0 tail) /\
    ctr_at block key u (length tail) (ctr_ivec s') (ecount_buf s') (length tail).
Proof.
  intros Hne Hlt. pose proof (Z.mod_pos_bound u (2 ^ 32) ltac:(lia)). unfold wrap.
  rewrite func_zeros, store_ctr32_spec by lia. set (s := Ctr (be_bytes 16 u) []).
  replace (Ctr (be_bytes 16 (u + 1)) (block (be_bytes 16 u) key)) with (ctr_next block key s).
  2:{ unfold ctr_next. cbn [ctr_ivec s]. by rewrite ctr128_inc_spec, be_bytes_add by apply is_block_be_bytes. }
  destruct (ctr_byte_run block key tail u 0 s 0) as (s' & Hr & Hat').
  { split; [done|]. split; [|done]. cbn [ctr_ivec s]. by rewrite Z.add_0_r. }
  rewrite (first_block_run ctr_byte) in Hr by (done || lia).
  pose proof (start_block_index ctr_byte tail (ctr_next block key s) 0) as Hi.
  destruct (start_block ctr_byte (ctr_next block key s) 0 tail) as [[s2 n2] o2]. cbn [fst snd] in Hi.
  apply pair_eq in Hr as [[-> _]%pair_eq ->]. exists s'. rewrite Nat.mod_small in Hat' by lia.
  subst n2. done.
Qed.

Lemma ctr_at_shift v q p iv ec n :
  ctr_at block key (v + Z.of_nat q) p iv ec n -> ctr_at block key v (16 * q + p) iv ec n.
Proof.
  intros (-> & -> & Hec). split; [ndiv|]. split; [f_equal; ndiv|]. intros Hn. rewrite Hec by ndiv. do 2 f_equal. ndiv.
Qed.

Lemma ctr32_step : ctr_step (CRYPTO_ctr128_encrypt_ctr32 key func).
Proof.
  intros l v p iv ec n Hb Hat. destruct (ctr_at_valid _ _ _ _ _ Hat) as [Hv Hn].
  unfold CRYPTO_ctr128_encrypt_ctr32.
  destruct (finish_block_run ctr_byte (ctr_block block key) (ctr_next block key) ctr_valid
    l (Ctr iv ec) n Hn Hv Hb) as (s1 & n1 & o1 & k1 & rest & -> & -> & Hr & _ & _ & Hor).
  apply bytes_app in Hb as [_ Hb].
  destruct (ctr_byte_run block key k1 v p (Ctr iv ec) n Hat) as (s' & Hr' & Hat'). rewrite Hr in Hr'.
  apply pair_eq in Hr' as [[<- Hm]%pair_eq ->]. rewrite <-Hm in Hat'. rewrite ctr_xor_app, length_app, Nat.add_assoc.
  destruct Hor as [-> | ->].
  2:{ cbn. rewrite Nat.add_0_r, !app_nil_r. eauto. }
  set (p1 := (p + length k1)%nat) in *. destruct Hat' as (_ & Hiv & _).
  assert (p1 = 16 * Nat.div p1 16)%nat as Hp by (clear -Hm; clearbody p1; ndiv). set (q1 := Nat.div p1 16) in *.
  replace (Nat.div (p1 + 15) 16) with q1 in Hiv by ndiv. rewrite Hp, Hiv, ctr32_load, ctr_xor_shift.
  set (w := v + Z.of_nat q1). destruct (ctr32_blocks_spec block key func (length rest) w rest Hb)
    as (q & k & tail & -> & -> & Hk & Hlt); [lia|].
  rewrite ctr_xor_app, length_app, Nat.add_0_l, Hk, ctr_xor_shift. destruct tail as [|b tail].
  - exists (be_bytes 16 (w + Z.of_nat q)), (ecount_buf s1), 0%nat. cbn [length].
    split; [unfold ctr_xor at 4; cbn [imap]; by rewrite app_nil_r|].
    apply ctr_at_shift. fold w. rewrite Nat.add_0_r. split; [ndiv|]. split; [f_equal; ndiv|done].
  - destruct (ctr32_tail (w + Z.of_nat q) (b :: tail)) as (s2 & -> & Hat2); [done..|].
    exists (ctr_ivec s2), (ecount_buf s2), (length (b :: tail)). split; [done|].
    apply ctr_at_shift. fold w. by apply ctr_at_shift.
Qed.

(** Any step of a counter mode, repeated. *)
Lemma ctr_calls_run enc pieces : ctr_step enc -> forall v p iv ec n,
  bytes (concat pieces) -> ctr_at block key v p iv ec n ->
  exists iv' ec' n', ctr_calls enc iv ec n pieces = (ctr_xor block key v p (concat pieces), iv', ec', n') /\
    ctr_at block key v (p + length (concat pieces)) iv' ec' n'.
Proof.
  intros Hstep. induction pieces as [|l pieces IH]; intros v p iv ec n Hb Hat; cbn [ctr_calls concat].
  - exists iv, ec, n. cbn [length]. by rewrite Nat.add_0_r.
  - cbn [concat] in Hb. apply bytes_app in Hb as [Hl Hb].
    destruct (Hstep l v p iv ec n Hl Hat) as (iv1 & ec1 & n1 & -> & Hat1).
    destruct (IH v _ iv1 ec1 n1 Hb Hat1) as (iv2 & ec2 & n2 & -> & Hat2).
    exists iv2, ec2, n2. by rewrite ctr_xor_app, length_app, Nat.add_assoc.
Qed.

Lemma ctr_xor_twice l : forall v p, ctr_xor block key v p (ctr_xor block key v p l) = l.
Proof.
  induction l as [|b l IH]; intros v p; [done|]. rewrite !ctr_xor_cons, IH.
  by rewrite Z.lxor_assoc, Z.lxor_nilpotent, Z.lxor_0_r.
Qed.

Lemma bytes_ctr_xor l : forall v p, bytes l -> bytes (ctr_xor block key v p l).
Proof.
  induction l as [|b l IH]; intros v p Hl; [constructor|]. apply Forall_cons in Hl as [Hb Hl].
  rewrite ctr_xor_cons. constructor; [|auto]. apply lxor_range; [lia|done|].
  apply nth_byte; [|apply Nat.mod_upper_bound; lia]. apply block_ok; [done|]. apply is_block_be_bytes.
Qed.
End Counter.

(** C24: The counter mode, on a block cipher ([CRYPTO_ctr128_encrypt]) or on a
    function with a 32-bit counter ([CRYPTO_ctr128_encrypt_ctr32]), is the CTR
    mode of NIST SP 800-38A with a 128-bit big-endian counter. For any number
    of calls, whatever their lengths, from a fresh start ([*num] is zero):
    byte [i] of the output is byte [i] of the input combined with byte
    [i mod 16] of the encryption of the counter [iv + i / 16 mod 2^128]; at the
    end [ivec] is the counter of the next block and [*num] the position in the
    current one. The carry out of the 32-bit counter, and runs cut at it, make no
    difference. The same calls, cut in any other way, decrypt. *)
Theorem ctr_streaming {AES_KEY} (block : list Z -> AES_KEY -> list Z) key func
    {BC : BlockCipher block key} {CF : Ctr32Func block key func} enc dec iv ec ec' pieces pieces' :
  enc ∈ [CRYPTO_ctr128_encrypt block key; CRYPTO_ctr128_encrypt_ctr32 key func] ->
  dec ∈ [CRYPTO_ctr128_encrypt block key; CRYPTO_ctr128_encrypt_ctr32 key func] ->
  is_block iv -> bytes (concat pieces) ->
  let n := length (concat pieces) in
  let output := imap (fun i b => Z.lxor b (ctr_key_byte block key (be_val iv) i)) (concat pieces) in
  let final := be_bytes 16 (be_val iv + Z.of_nat (Nat.div (n + 15) 16)) in
  (exists ecount, ctr_calls enc iv ec 0 pieces = (output, final, ecount, Nat.modulo n 16)) /\
  (concat pieces' = output -> exists ecount,
   ctr_calls dec iv ec' 0 pieces' = (concat pieces, final, ecount, Nat.modulo n 16)).
Proof.
  intros He Hd Hiv Hb n output final.
  assert (forall f, f ∈ [CRYPTO_ctr128_encrypt block key; CRYPTO_ctr128_encrypt_ctr32 key func] -> ctr_step block key f)
    as Hstep.
  { intros f [-> |[-> |[]%elem_of_nil]%elem_of_cons]%elem_of_cons; [apply ctr128_step|apply ctr32_step]; done. }
  assert (forall ec, ctr_at block key (be_val iv) 0 iv ec 0) as Hat.
  { intros ecount. split; [done|]. split; [|done]. rewrite Z.add_0_r. destruct Hiv as [Hbi Hl].
    by rewrite <-Hl, be_bytes_be_val. }
  assert (bytes output) as Hbo by exact (bytes_ctr_xor block key _ (be_val iv) 0 Hb).
  split.
  - destruct (ctr_calls_run block key enc pieces (Hstep _ He) _ 0 iv ec 0 Hb (Hat ec)) as (iv1 & ec1 & n1 & Hr & -> & -> & _).
    exists ec1. done.
  - intros Hp. rewrite <-Hp in Hbo.
    destruct (ctr_calls_run block key dec pieces' (Hstep _ Hd) _ 0 iv ec' 0 Hbo (Hat ec')) as (iv1 & ec1 & n1 & Hr & -> & -> & _).
    assert (ctr_xor block key (be_val iv) 0 output = concat pieces) as Ho by exact (ctr_xor_twice block key _ _ 0).
    assert (length output = n) as Hl by apply length_imap.
    exists ec1. by rewrite Hr, Hp, Ho, Hl.
Qed.

(** Two calls whose second block makes the 32-bit counter wrap, decrypted in
    three calls. *)
Lemma ctr_streaming_witness :
  let iv := replicate 12 0 ++ replicate 4 255 in
  let pieces := [seqZ 0 5; seqZ 5 36] in
  let output := imap (fun i b => Z.lxor b (ctr_key_byte toy_block 0x5a (be_val iv) i)) (concat pieces) in
  (exists ecount, ctr_calls (CRYPTO_ctr128_encrypt_ctr32 0x5a toy_ctr32) iv (replicate 16 0) 0 pieces =
    (output, replicate 11 0 ++ [1; 0; 0; 0; 2], ecount, 9%nat)) /\
  (exists ecount, ctr_calls (CRYPTO_ctr128_encrypt toy_block 0x5a) iv (replicate 16 0) 0
      [take 20 output; take 1 (drop 20 output); drop 21 output] =
    (concat pieces, replicate 11 0 ++ [1; 0; 0; 0; 2], ecount, 9%nat)).
Proof.
  intros iv pieces output.
  destruct (ctr_streaming toy_block 0x5a toy_ctr32 (CRYPTO_ctr128_encrypt_ctr32 0x5a toy_ctr32)
    (CRYPTO_ctr128_encrypt toy_block 0x5a) iv (replicate 16 0) (replicate 16 0) pieces
    [take 20 output; take 1 (drop 20 output); drop 21 output]) as [He Hd].
  - right. left.
  - left.
  - split; [apply (bool_decide_unpack _); vm_compute; done|reflexivity].
  - apply (bool_decide_unpack _). vm_compute. done.
  - split; [exact He|]. apply Hd. vm_compute. reflexivity.
Defined.

(** ** OFB and CFB *)

Section Feedback.
Context {AES_KEY : Type} (block : list Z -> AES_KEY -> list Z) (key : AES_KEY).
Context {BC : BlockCipher block key}.

(** The modes of NIST SP 800-38A, on the segments of a message: all of them
    blocks, but the last, which may be shorter. *)
Fixpoint ofb_ref (iv : list Z) (segs : list (list Z)) : list Z :=
  match segs with
  | [] => []
  | p :: segs => let o := block iv key in zip_with Z.lxor p o ++ ofb_ref o segs
  end.

Fixpoint cfb_ref (iv : list Z) (segs : list (list Z)) : list Z :=
  match segs with
  | [] => []
  | p :: segs => let c := zip_with Z.lxor p (block iv key) in c ++ cfb_ref c segs
  end.

Lemma zip_lxor_comm l : forall k, zip_with Z.lxor l k = zip_with Z.lxor k l.
Proof. induction l as [|x l IH]; intros [|y k]; simpl; [done..|]. by rewrite IH, Z.lxor_comm. Qed.

(** A mode whose calls are runs of the byte machine. *)
Section Calls.
Context (f : list Z -> list Z -> nat -> list Z * list Z * nat) (body : list Z -> nat -> Z -> list Z * Z).
Context (Hf : forall l iv n, bytes l -> is_block iv -> (n < 16)%nat ->
  let '(iv', n', out) := byte_run body (ofb_next block key) iv n l in f l iv n = (out, iv', n')).
Context (Hbody : forall iv n b, is_block iv -> is_byte b -> (n < 16)%nat ->
  is_block (body iv n b).1 /\ is_byte (body iv n b).2).

Lemma feedback_run_ok l : forall iv n,
  is_block iv -> bytes l -> (n < 16)%nat ->
  let '(iv', n', out) := byte_run body (ofb_next block key) iv n l in
  is_block iv' /\ (n' < 16)%nat /\ bytes out.
Proof.
  induction l as [|b l IH]; intros iv n Hiv Hl Hn; [done|]. apply Forall_cons in Hl as [Hb Hl].
  cbn [byte_run]. unfold byte_step.
  assert (is_block (if (n =? 0)%nat then ofb_next block key iv else iv)) as Hv.
  { destruct (n =? 0)%nat; [by apply (block_ok block key)|done]. }
  destruct (Hbody _ n b Hv Hb Hn) as [Hv1 Hb1]. destruct (body _ n b) as [iv1 o].
  pose proof (IH iv1 (Nat.modulo (n + 1) 16) Hv1 Hl (Nat.mod_upper_bound _ 16 ltac:(done))) as Hr.
  destruct (byte_run body _ iv1 _ l) as [[iv2 n2] out]. destruct Hr as (? & ? & ?). auto.
Qed.

Lemma mode_calls_run pieces : forall iv n,
  is_block iv -> bytes (concat pieces) -> (n < 16)%nat ->
  let '(iv', n', out) := byte_run body (ofb_next block key) iv n (concat pieces) in
  mode_calls f iv n pieces = (out, iv', n').
Proof.
  induction pieces as [|p pieces IH]; intros iv n Hiv Hb Hn; [done|]. cbn [concat mode_calls] in *.
  apply bytes_app in Hb as [Hp Hb]. rewrite byte_run_app.
  pose proof (Hf p iv n Hp Hiv Hn) as H1. pose proof (feedback_run_ok p iv n Hiv Hp Hn) as Hok.
  destruct (byte_run body _ iv n p) as [[iv1 n1] o1]. destruct Hok as (Hiv1 & Hn1 & _).
  pose proof (IH iv1 n1 Hiv1 Hb Hn1) as H2. rewrite H1.
  destruct (byte_run body _ iv1 n1 (concat pieces)) as [[iv2 n2] o2]. by rewrite H2.
Qed.
End Calls.

(** The segments, one by one. *)
Lemma ofb_segment iv p :
  is_block iv -> bytes p -> (length p <= 16)%nat -> p <> [] ->
  byte_run ofb_byte (ofb_next block key) iv 0 p =
    (block iv key, Nat.modulo (length p) 16, zip_with Z.lxor p (block iv key)).
Proof.
  intros Hiv Hp Hl Hne. rewrite first_block_run by done.
  pose proof (block_ok block key iv Hiv) as [_ Hb].
  rewrite (start_block_xor _ id) by (done || (unfold id, ofb_next; lia)). done.
Qed.

Lemma cfb_segment iv p :
  is_block iv -> bytes p -> (length p <= 16)%nat -> p <> [] ->
  byte_run cfb_enc_byte (ofb_next block key) iv 0 p =
    (zip_with Z.lxor p (block iv key) ++ drop (length p) (block iv key), Nat.modulo (length p) 16,
     zip_with Z.lxor p (block iv key)).
Proof.
  intros Hiv Hp Hl Hne. rewrite first_block_run by done.
  pose proof (block_ok block key iv Hiv) as [_ Hb]. unfold ofb_next.
  rewrite start_cfb_enc by lia. by rewrite drop_0, (zip_lxor_comm (block iv key)).
Qed.

Lemma ofb_run segs last : forall iv,
  is_block iv -> Forall is_block segs -> bytes last -> (length last < 16)%nat ->
  exists iv', byte_run ofb_byte (ofb_next block key) iv 0 (concat segs ++ last) =
    (iv', length last, ofb_ref iv (segs ++ [last])).
Proof.
  induction segs as [|p segs IH]; intros iv Hiv Hs Hb Hl; cbn [concat app ofb_ref].
  - destruct last as [|b last]; [by exists iv|]. rewrite ofb_segment by (done || lia).
    rewrite Nat.mod_small, app_nil_r by lia. eauto.
  - apply Forall_cons in Hs as [[Hp Hlp] Hs]. rewrite <-app_assoc, byte_run_app.
    rewrite ofb_segment by (done || lia || by destruct p). rewrite Hlp. change (Nat.modulo 16 16) with 0%nat.
    destruct (IH (block iv key)) as (iv' & ->); [by apply (block_ok block key)|done..|]. eauto.
Qed.

Lemma cfb_run segs last : forall iv,
  is_block iv -> Forall is_block segs -> bytes last -> (length last < 16)%nat ->
  exists iv', byte_run cfb_enc_byte (ofb_next block key) iv 0 (concat segs ++ last) =
    (iv', length last, cfb_ref iv (segs ++ [last])).
Proof.
  induction segs as [|p segs IH]; intros iv Hiv Hs Hb Hl; cbn [concat app cfb_ref].
  - destruct last as [|b last]; [by exists iv|]. rewrite cfb_segment by (done || lia).
    rewrite Nat.mod_small, app_nil_r by lia. eauto.
  - apply Forall_cons in Hs as [[Hp Hlp] Hs]. rewrite <-app_assoc, byte_run_app.
    pose proof (block_ok block key iv Hiv) as [Hbb Hbl].
    rewrite cfb_segment by (done || lia || by destruct p). rewrite Hlp, drop_ge, app_nil_r by lia.
    change (Nat.modulo 16 16) with 0%nat.
    destruct (IH (zip_with Z.lxor p (block iv key))) as (iv' & ->); [by apply is_block_zip|done..|]. eauto.
Qed.

(** The functions are runs of the machine. *)
Lemma ofb_call l iv n : bytes l -> is_block iv -> (n < 16)%nat ->
  let '(iv', n', out) := byte_run ofb_byte (ofb_next block key) iv n l in
  CRYPTO_ofb128_encrypt block key l iv n = (out, iv', n').
Proof.
  intros Hl Hiv Hn. unfold CRYPTO_ofb128_encrypt.
  rewrite (stream_crypt_run ofb_byte (ofb_block block key) (ofb_next block key) is_block) by done.
  by destruct (byte_run _ _ iv n l) as [[??]?].
Qed.

Lemma cfb_call (enc : bool) l iv n : bytes l -> is_block iv -> (n < 16)%nat ->
  let '(iv', n', out) := byte_run (if enc then cfb_enc_byte else cfb_dec_byte) (ofb_next block key) iv n l in
  CRYPTO_cfb128_encrypt block key l iv n enc = (out, iv', n').
Proof.
  intros Hl Hiv Hn. unfold CRYPTO_cfb128_encrypt. destruct enc.
  - rewrite (stream_crypt_run cfb_enc_byte (cfb_enc_block block key) (ofb_next block key) is_block) by done.
    by destruct (byte_run _ _ iv n l) as [[??]?].
  - rewrite (stream_crypt_run cfb_dec_byte (cfb_dec_block block key) (ofb_next block key) is_block) by done.
    by destruct (byte_run _ _ iv n l) as [[??]?].
Qed.

Lemma ofb_body_ok iv n b : is_block iv -> is_byte b -> (n < 16)%nat ->
  is_block (ofb_byte iv n b).1 /\ is_byte (ofb_byte iv n b).2.
Proof. intros. split; [done|]. apply lxor_range; [lia|done|by apply nth_byte]. Qed.

Lemma cfb_body_ok (enc : bool) iv n b : is_block iv -> is_byte b -> (n < 16)%nat ->
  is_block ((if enc then cfb_enc_byte else cfb_dec_byte) iv n b).1 /\
  is_byte ((if enc then cfb_enc_byte else cfb_dec_byte) iv n b).2.
Proof.
  intros Hiv Hb Hn. assert (is_byte (Z.lxor (nth n iv 0) b)) by (apply lxor_range; [lia|by apply nth_byte|done]).
  destruct enc; split; try done; by apply insert_block.
Qed.
End Feedback.

(** C25: OFB and CFB, in any number of calls. The output is that of the mode of
    NIST SP 800-38A, a short last segment included; [*num] is the position in
    the current block; and the calls that decrypt, whose input may be cut in
    any other way, return the message and the same [ivec] and [*num]. *)
Theorem ofb_cfb_streaming {AES_KEY} (block : list Z -> AES_KEY -> list Z) key {BC : BlockCipher block key}
    iv segs last pieces :
  is_block iv -> Forall is_block segs -> bytes last -> (length last < 16)%nat ->
  concat pieces = concat segs ++ last ->
  (exists iv', mode_calls (CRYPTO_ofb128_encrypt block key) iv 0 pieces =
      (ofb_ref block key iv (segs ++ [last]), iv', length last) /\
    forall pieces', concat pieces' = ofb_ref block key iv (segs ++ [last]) ->
    mode_calls (CRYPTO_ofb128_encrypt block key) iv 0 pieces' = (concat pieces, iv', length last)) /\
  (exists iv', mode_calls (fun l iv n => CRYPTO_cfb128_encrypt block key l iv n true) iv 0 pieces =
      (cfb_ref block key iv (segs ++ [last]), iv', length last) /\
    forall pieces', concat pieces' = cfb_ref block key iv (segs ++ [last]) ->
    mode_calls (fun l iv n => CRYPTO_cfb128_encrypt block key l iv n false) iv 0 pieces' =
      (concat pieces, iv', length last)).
Proof.
  intros Hiv Hs Hb Hl Hc.
  assert (bytes (concat pieces)) as Hbc.
  { rewrite Hc. apply bytes_app. split; [|done]. apply Forall_concat. eapply Forall_impl; [done|]. by intros x [??]. }
  split.
  - destruct (ofb_run block key segs last iv Hiv Hs Hb Hl) as (iv' & Hr). rewrite <-Hc in Hr. exists iv'.
    pose proof (mode_calls_run block key _ _ (ofb_call block key) ofb_body_ok) as Hcalls.
    pose proof (feedback_run_ok block key _ ofb_body_ok (concat pieces) iv 0 Hiv Hbc ltac:(lia)) as Hok.
    rewrite Hr in Hok. destruct Hok as (_ & _ & Hbo). split.
    + pose proof (Hcalls pieces iv 0%nat Hiv Hbc ltac:(lia)) as He. by rewrite Hr in He.
    + intros pieces' Hp. rewrite <-Hp in Hbo. pose proof (Hcalls pieces' iv 0%nat Hiv Hbo ltac:(lia)) as He.
      rewrite Hp in He. by rewrite (ofb_byte_undo _ _ _ _ _ _ _ _ Hr) in He.
  - destruct (cfb_run block key segs last iv Hiv Hs Hb Hl) as (iv' & Hr). rewrite <-Hc in Hr. exists iv'.
    pose proof (feedback_run_ok block key _ (cfb_body_ok true) (concat pieces) iv 0 Hiv Hbc ltac:(lia)) as Hok.
    rewrite Hr in Hok. destruct Hok as (_ & _ & Hbo). split.
    + pose proof (mode_calls_run block key _ _ (cfb_call block key true) (cfb_body_ok true)
        pieces iv 0 Hiv Hbc ltac:(lia)) as He. by rewrite Hr in He.
    + intros pieces' Hp. rewrite <-Hp in Hbo.
      pose proof (mode_calls_run block key _ _ (cfb_call block key false) (cfb_body_ok false)
        pieces' iv 0 Hiv Hbo ltac:(lia)) as He.
      rewrite Hp in He. by rewrite (cfb_byte_undo _ _ _ _ _ _ _ _ Hr) in He.
Qed.

Lemma ofb_cfb_streaming_witness :
  let iv := seqZ 1 16 in
  let segs := [seqZ 100 16] in
  let last := [7; 8; 9] in
  let pieces := [seqZ 100 3; seqZ 103 13 ++ [7]; [8; 9]] in
  let c := cfb_ref toy_block 0x5a iv (segs ++ [last]) in
  exists iv', mode_calls (fun l iv n => CRYPTO_cfb128_encrypt toy_block 0x5a l iv n true) iv 0 pieces = (c, iv', 3%nat) /\
    mode_calls (fun l iv n => CRYPTO_cfb128_encrypt toy_block 0x5a l iv n false) iv 0 [take 17 c; drop 17 c] =
      (concat pieces, iv', 3%nat).
Proof.
  intros iv segs last pieces c.
  destruct (ofb_cfb_streaming toy_block 0x5a iv segs last pieces) as [_ (iv' & He & Hd)].
  - split; [apply (bool_decide_unpack _); vm_compute; done|reflexivity].
  - repeat constructor; vm_compute; done.
  - apply (bool_decide_unpack _). vm_compute. done.
  - apply (bool_decide_unpack _). vm_compute. done.
  - reflexivity.
  - exists iv'. split; [exact He|]. apply Hd. reflexivity.
Defined.

(** ** CFB with short segments *)

(** Bit [i] of a buffer, the most significant bit of a byte first. *)
Definition buf_bit (l : list Z) (i : nat) : bool :=
  Z.testbit (nth (Nat.div i 8) l 0) (7 - Z.of_nat (Nat.modulo i 8)).

Section ShiftRegister.
Context {AES_KEY : Type} (block : list Z -> AES_KEY -> list Z) (key : AES_KEY).
Context {BC : BlockCipher block key}.

(** The modes of NIST SP 800-38A: the cipher text is shifted into the register. *)
Fixpoint cfb8_ref (iv : list Z) (input : list Z) : list Z :=
  match input with
  | [] => []
  | p :: input =>
      let c := Z.lxor p (nth 0 (block iv key) 0) in
      c :: cfb8_ref (be_bytes 16 (be_val iv * 256 + c)) input
  end.

Fixpoint cfb1_ref (iv : list Z) (input : list bool) : list bool :=
  match input with
  | [] => []
  | p :: input =>
      let c := xorb p (Z.testbit (nth 0 (block iv key) 0) 7) in
      c :: cfb1_ref (be_bytes 16 (be_val iv * 2 + Z.b2z c)) input
  end.

Lemma shift_byte iv x : is_block iv -> is_byte x -> drop 1 iv ++ [x] = be_bytes 16 (be_val iv * 256 + x).
Proof.
  intros [Hb Hl] Hx. destruct iv as [|b iv]; [done|]. apply Forall_cons in Hb as [Hb Hiv].
  change (drop 1 (b :: iv)) with iv.
  assert (bytes (iv ++ [x])) as Hbx by (apply bytes_app; auto).
  cbn in Hl. rewrite <-(be_bytes_be_val (iv ++ [x])) by done. rewrite length_app, Nat.add_1_r.
  injection Hl as Hl. rewrite Hl. cbn [length]. rewrite <-(be_bytes_mod 16 (_ + _)), <-(be_bytes_mod 16 (be_val _)). f_equal.
  rewrite be_val_cons, be_val_snoc. unfold blen. rewrite Hl.
  replace ((b * 256 ^ Z.of_nat 15 + be_val iv) * 256 + x)
    with (be_val iv * 256 + x + b * 256 ^ Z.of_nat 16) by (change (256 ^ Z.of_nat 16) with (256 ^ Z.of_nat 15 * 256); ring).
  by rewrite Z.mod_add.
Qed.

Lemma cfb8_step b iv (enc : bool) :
  is_block iv -> is_byte b ->
  let c := Z.lxor b (nth 0 (block iv key) 0) in
  cfbr_encrypt_block block key [b] iv 8 enc = ([c], be_bytes 16 (be_val iv * 256 + (if enc then c else b))).
Proof.
  intros Hiv Hb c. pose proof (block_ok block key iv Hiv) as Hblk.
  assert (is_byte c) as Hc by (apply lxor_range; [lia|done|apply nth_byte; [done|lia]]).
  rewrite <-shift_byte by (done || by destruct enc). unfold cfbr_encrypt_block.
  change ((8 <=? 0) || (128 <? 8)) with false. change (Z.to_nat ((8 + 7) / 8)) with 1%nat.
  change (8 mod 8 =? 0) with true. change (Z.to_nat (8 / 8)) with 1%nat. cbv iota zeta.
  destruct Hblk as [_ Hl], Hiv as [_ Hli]. unfold c in *. clear c.
  destruct (block iv key) as [|e0 E]; [done|]. cbn [take zip_with nth Nat.sub]. f_equal.
  rewrite drop_app_le by lia. rewrite app_assoc, take_app_length'; [by destruct enc|].
  rewrite length_app, length_drop. destruct enc; simpl; lia.
Qed.

(** A shift of the register by one bit. *)
Lemma shift_bit l x :
  bytes l -> is_byte x ->
  (fun n => u8 (Z.lor (Z.shiftl (nth n (l ++ [x]) 0) 1) (Z.shiftr (nth (n + 1) (l ++ [x]) 0) 7))) <$> seq 0 (length l) =
  be_bytes (length l) (be_val l * 2 + x / 128).
Proof.
  revert x. induction l as [|y l IH] using rev_ind; intros x Hl Hx; [done|].
  apply bytes_app in Hl as [Hl [Hy _]%Forall_cons]. rewrite length_app, Nat.add_comm. cbn [length Nat.add be_bytes].
  rewrite seq_S, fmap_app. cbn [fmap list_fmap Nat.add]. f_equal.
  - rewrite be_val_snoc. unfold in_word in *. pow2.
    replace (((be_val l * 256 + y) * 2 + x / 128) / 256) with (be_val l * 2 + y / 128) by zdiv.
    rewrite <-IH by (done || (unfold in_word; pow2; lia)). apply list_fmap_ext. intros i n Hn.
    apply lookup_seq in Hn as [-> Hn]. cbn [Nat.add].
    by rewrite !(app_nth1 (l ++ [y])) by (rewrite length_app; simpl; lia).
  - f_equal. rewrite <-app_assoc. cbn [app].
    assert (nth (length l) (l ++ [y; x]) 0 = y) as -> by (by rewrite app_nth2, Nat.sub_diag by lia).
    assert (nth (length l + 1) (l ++ [y; x]) 0 = x) as ->.
    { rewrite app_nth2 by lia. by replace (length l + 1 - length l)%nat with 1%nat by lia. }
    rewrite be_val_snoc, Z.shiftr_div_pow2, lor_shiftl_low by (try lia; unfold in_word in *; pow2; zdiv).
    unfold wrap, in_word in *. pow2. zdiv.
Qed.

(** One segment of one bit, in the top bit of [b]. *)
Lemma cfb1_step b iv (enc : bool) :
  is_block iv -> is_byte b ->
  let c := xorb (Z.testbit b 7) (Z.testbit (nth 0 (block iv key) 0) 7) in
  exists d, cfbr_encrypt_block block key [b] iv 1 enc =
    ([d], be_bytes 16 (be_val iv * 2 + Z.b2z (if enc then c else Z.testbit b 7))) /\
    Z.testbit d 7 = c /\ is_byte d.
Proof.
  intros Hiv Hb c. pose proof (block_ok block key iv Hiv) as Hblk.
  assert (is_byte (Z.lxor b (nth 0 (block iv key) 0))) as Hc
    by (apply lxor_range; [lia|done|apply nth_byte; [done|lia]]).
  exists (Z.lxor b (nth 0 (block iv key) 0)). split; [|split; [apply Z.lxor_spec|done]].
  unfold cfbr_encrypt_block.
  change ((1 <=? 0) || (128 <? 1)) with false. change (Z.to_nat ((1 + 7) / 8)) with 1%nat.
  change (1 mod 8 =? 0) with false. change (Z.to_nat (1 / 8)) with 0%nat. change (1 mod 8) with 1. cbv iota zeta.
  set (x := if enc then Z.lxor b (nth 0 (block iv key) 0) else b).
  assert (is_byte x) as Hx by (unfold x; by destruct enc).
  assert (Z.b2z (if enc then c else Z.testbit b 7) = x / 128) as ->.
  { transitivity (Z.b2z (Z.testbit x 7)).
    - unfold x, c. destruct enc; [|done]. by rewrite Z.lxor_spec.
    - rewrite Z.testbit_spec' by lia. unfold in_word in Hx. pow2. zdiv. }
  destruct Hblk as [_ Hl], Hiv as [Hbi Hli]. rewrite <-Hli, <-shift_bit by done.
  unfold x. destruct (block iv key) as [|e0 E]; [done|]. cbn [take zip_with nth Nat.sub]. f_equal.
  apply list_fmap_ext. intros i n Hn. apply lookup_seq in Hn as [-> Hn]. rewrite !Nat.add_0_l, Nat.add_0_r.
  destruct enc; rewrite app_assoc; by rewrite !(app_nth1 (iv ++ [_])) by (rewrite length_app; simpl; lia).
Qed.

(** Storing a bit: the bit of the output, and the others. *)
Definition set_bit (y r d : Z) : Z :=
  Z.lor (Z.land y (u8 (Z.lnot (Z.shiftl 1 (7 - r))))) (Z.shiftr (Z.land d 0x80) r).

Lemma set_bit_range y r d : is_byte y -> 0 <= r -> is_byte d -> is_byte (set_bit y r d).
Proof.
  intros Hy Hr Hd. pose proof (wrap_range 8 (Z.lnot (Z.shiftl 1 (7 - r))) ltac:(lia)) as Hm.
  apply lor_range; [lia|apply land_range; [lia|done|apply Hm]|].
  pose proof (land_range 8 d 0x80 ltac:(lia) Hd ltac:(lia)) as Hl. rewrite Z.shiftr_div_pow2 by done.
  pose proof (Z.pow_pos_nonneg 2 r). unfold in_word in *. split; [apply Z.div_pos; lia|].
  apply Z.div_lt_upper_bound; nia.
Qed.

Lemma set_bit_testbit y r d k :
  0 <= r < 8 -> 0 <= k < 8 ->
  Z.testbit (set_bit y r d) k = if k =? 7 - r then Z.testbit d 7 else Z.testbit y k.
Proof.
  intros Hr Hk. unfold set_bit. rewrite Z.lor_spec, Z.land_spec, testbit_wrap, Z.lnot_spec, Z.shiftl_1_l by lia.
  rewrite Z.pow2_bits_eqb, Z.shiftr_spec, Z.land_spec by lia. change 0x80 with (2 ^ 7).
  rewrite Z.pow2_bits_eqb by lia.
  destruct (Z.ltb_spec k 8); [|lia]. destruct (Z.eqb_spec k (7 - r)) as [-> | Hne].
  - replace (7 - r + r) with 7 by lia. rewrite !Z.eqb_refl. simpl. by rewrite andb_false_r, andb_true_r.
  - rewrite (proj2 (Z.eqb_neq (7 - r) k)), (proj2 (Z.eqb_neq 7 (k + r))) by lia.
    simpl. by rewrite andb_true_r, andb_false_r, orb_false_r.
Qed.

Lemma buf_bit_insert l i j d :
  (i < 8 * length l)%nat ->
  buf_bit (<[Nat.div i 8 := set_bit (nth (Nat.div i 8) l 0) (Z.of_nat (Nat.modulo i 8)) d]> l) j =
    if decide (j = i) then Z.testbit d 7 else buf_bit l j.
Proof.
  intros Hi. unfold buf_bit. destruct (decide (Nat.div j 8 = Nat.div i 8)) as [Hq|Hq].
  - rewrite Hq, (nth_lookup_Some _ _ _ _ (list_lookup_insert_eq l (Nat.div i 8) _ ltac:(ndiv))).
    rewrite set_bit_testbit by ndiv. case_decide as Hj.
    + subst j. by rewrite Z.eqb_refl.
    + destruct (Z.eqb_spec (7 - Z.of_nat (Nat.modulo j 8)) (7 - Z.of_nat (Nat.modulo i 8))); [ndiv|done].
  - rewrite decide_False by congruence. by rewrite !nth_lookup, list_lookup_insert_ne by done.
Qed.

(** The register after the bits of a segment. *)
Fixpoint cfb1_register (iv : list Z) (input : list bool) : list Z :=
  match input with
  | [] => iv
  | p :: input =>
      let c := xorb p (Z.testbit (nth 0 (block iv key) 0) 7) in
      cfb1_register (be_bytes 16 (be_val iv * 2 + Z.b2z c)) input
  end.

Lemma cfb1_bit_ok (enc : bool) input n out iv :
  is_block iv -> bytes out -> (n < 8 * length out)%nat ->
  let p := buf_bit input n in
  let c := xorb p (Z.testbit (nth 0 (block iv key) 0) 7) in
  exists out', cfb1_bit block key enc input n (out, iv) =
      (out', be_bytes 16 (be_val iv * 2 + Z.b2z (if enc then c else p))) /\
    bytes out' /\ length out' = length out /\
    forall j, buf_bit out' j = if decide (j = n) then c else buf_bit out j.
Proof.
  intros Hiv Hb Hn p c. unfold cfb1_bit.
  replace (Z.testbit (nth (Nat.div n 8) input 0) (7 - Z.of_nat (Nat.modulo n 8))) with p by done.
  set (b := if p then 0x80 else 0).
  assert (Z.testbit b 7 = p) as Hp by (unfold b; by destruct p).
  assert (is_byte b) as Hbb by (unfold b; destruct p; split; lia).
  destruct (cfb1_step b iv enc Hiv Hbb) as (d & -> & Hd & Hd8). rewrite Hp in Hd. rewrite Hp. cbn [nth].
  fold c. fold c in Hd. eexists. split; [reflexivity|].
  change (Z.lor _ _) with (set_bit (nth (Nat.div n 8) out 0) (Z.of_nat (Nat.modulo n 8)) d).
  split; [|split; [apply length_insert|]].
  - apply Forall_insert; [done|]. apply set_bit_range; [|lia|done].
    destruct (lookup_lt_is_Some_2 out (Nat.div n 8)) as [y Hy]; [ndiv|].
    rewrite (nth_lookup_Some _ _ _ _ Hy). by eapply Forall_lookup_1.
  - intros j. rewrite buf_bit_insert by done. by rewrite Hd.
Qed.

Lemma cfb1_run_enc input k : forall m out iv,
  is_block iv -> bytes out -> (m + k <= 8 * length out)%nat ->
  exists c, foldl (fun s n => cfb1_bit block key true input n s) (out, iv) (seq m k) =
      (c, cfb1_register iv (buf_bit input <$> seq m k)) /\
    bytes c /\ length c = length out /\
    forall j, buf_bit c j = if decide (m <= j < m + k)%nat
      then nth (j - m) (cfb1_ref iv (buf_bit input <$> seq m k)) false else buf_bit out j.
Proof.
  induction k as [|k IH]; intros m out iv Hiv Hb Hm; cbn [seq foldl fmap list_fmap cfb1_register cfb1_ref].
  - exists out. repeat split; [done|]. intros j. by rewrite decide_False by lia.
  - destruct (cfb1_bit_ok true input m out iv Hiv Hb) as (o1 & -> & Hb1 & Hl1 & Ho1); [lia|]. cbv iota in Ho1 |- *.
    set (c := xorb _ _) in *.
    set (iv1 := be_bytes 16 (be_val iv * 2 + Z.b2z c)) in *.
    destruct (IH (S m) o1 iv1 (is_block_be_bytes _) Hb1 ltac:(lia)) as (o2 & -> & Hb2 & Hl2 & Ho2).
    exists o2. split; [done|]. split; [done|]. split; [lia|]. intros j. rewrite Ho2, Ho1.
    destruct (decide (j = m)) as [-> |Hj].
    + rewrite decide_False, decide_True, Nat.sub_diag by lia. done.
    + destruct (decide (S m <= j < S m + k)%nat).
      * rewrite decide_True by lia. by replace (j - m)%nat with (S (j - S m)) by lia.
      * by rewrite decide_False by lia.
Qed.

Lemma length_cfb1_ref l : forall iv, length (cfb1_ref iv l) = length l.
Proof. induction l as [|p l IH]; intros iv; [done|]. cbn [cfb1_ref length]. by rewrite IH. Qed.

Lemma cons_eq {A} (x y : A) l k : x :: l = y :: k -> x = y /\ l = k.
Proof. by intros [= -> ->]. Qed.

Lemma cfb1_run_dec input plain : forall m out iv,
  is_block iv -> bytes out -> (m + length plain <= 8 * length out)%nat ->
  buf_bit input <$> seq m (length plain) = cfb1_ref iv plain ->
  exists d, foldl (fun s n => cfb1_bit block key false input n s) (out, iv) (seq m (length plain)) =
      (d, cfb1_register iv plain) /\
    forall j, buf_bit d j = if decide (m <= j < m + length plain)%nat
      then nth (j - m) plain false else buf_bit out j.
Proof.
  induction plain as [|p plain IH]; intros m out iv Hiv Hb Hm He; cbn [length seq foldl fmap list_fmap cfb1_register cfb1_ref] in *.
  - exists out. split; [done|]. intros j. by rewrite decide_False by lia.
  - apply cons_eq in He as [Hc He].
    destruct (cfb1_bit_ok false input m out iv Hiv Hb) as (o1 & -> & Hb1 & Hl1 & Ho1); [lia|]. cbv iota in Ho1 |- *.
    rewrite Hc in *. rewrite xorb_assoc_reverse, xorb_nilpotent, xorb_false_r in Ho1.
    destruct (IH (S m) o1 _ (is_block_be_bytes _) Hb1 ltac:(lia) He) as (o2 & -> & Ho2).
    exists o2. split; [done|]. intros j. rewrite Ho2, Ho1.
    destruct (decide (j = m)) as [-> |Hj].
    + rewrite decide_False, decide_True, Nat.sub_diag by lia. done.
    + destruct (decide (S m <= j < S m + length plain)%nat).
      * rewrite decide_True by lia. by replace (j - m)%nat with (S (j - S m)) by lia.
      * by rewrite decide_False by lia.
Qed.

Lemma cfb8_run input : forall iv, is_block iv -> bytes input ->
  exists iv', CRYPTO_cfb128_8_encrypt block key input iv true = (cfb8_ref iv input, iv') /\
    CRYPTO_cfb128_8_encrypt block key (cfb8_ref iv input) iv false = (input, iv').
Proof.
  induction input as [|b input IH]; intros iv Hiv Hb; cbn [CRYPTO_cfb128_8_encrypt cfb8_ref]; [by exists iv|].
  apply Forall_cons in Hb as [Hb Hbs]. set (c := Z.lxor b (nth 0 (block iv key) 0)).
  assert (is_byte c) as Hc.
  { apply lxor_range; [lia|done|]. apply nth_byte; [by apply (block_ok block key)|lia]. }
  rewrite (cfb8_step b iv true Hiv Hb). cbv beta iota zeta. fold c.
  rewrite (cfb8_step c iv false Hiv Hc). cbv beta iota zeta.
  destruct (IH _ (is_block_be_bytes (be_val iv * 256 + c)) Hbs) as (iv' & -> & ->). exists iv'.
  split; [done|]. cbn [app]. unfold c. by rewrite Z.lxor_assoc, Z.lxor_nilpotent, Z.lxor_0_r.
Qed.
End ShiftRegister.

(** C26: CFB with segments of eight bits and of one bit. The cipher text is that
    of NIST SP 800-38A, where the register is shifted by the segment's cipher
    text, and decryption of it returns the message and the same register. In
    the mode of one bit, whose buffers hold the first bit of the message in the
    most significant bit of the first byte, exactly the first [bits] bits of
    the output buffer are stored to, also where they end inside a byte. *)
Theorem cfb_shift_register {AES_KEY} (block : list Z -> AES_KEY -> list Z) key {BC : BlockCipher block key}
    iv input bits out out' :
  is_block iv -> bytes input -> bytes out -> bytes out' ->
  (bits <= 8 * length out)%nat -> (bits <= 8 * length out')%nat ->
  (exists iv', CRYPTO_cfb128_8_encrypt block key input iv true = (cfb8_ref block key iv input, iv') /\
    CRYPTO_cfb128_8_encrypt block key (cfb8_ref block key iv input) iv false = (input, iv')) /\
  (exists c d iv', CRYPTO_cfb128_1_encrypt block key input bits out iv true = (c, iv') /\
    (forall i, buf_bit c i = if decide (i < bits)%nat
       then nth i (cfb1_ref block key iv (buf_bit input <$> seq 0 bits)) false else buf_bit out i) /\
    CRYPTO_cfb128_1_encrypt block key c bits out' iv false = (d, iv') /\
    (forall i, buf_bit d i = if decide (i < bits)%nat then buf_bit input i else buf_bit out' i)).
Proof.
  intros Hiv Hb Ho Ho' Hn Hn'. split; [by apply cfb8_run|].
  destruct (cfb1_run_enc block key input bits 0 out iv Hiv Ho Hn) as (c & Hc & Hbc & Hlc & Hbits).
  set (plain := buf_bit input <$> seq 0 bits) in *.
  assert (length plain = bits) as Hl by (unfold plain; by rewrite length_fmap, length_seq).
  destruct (cfb1_run_dec block key c plain 0 out' iv Hiv Ho') as (d & Hd & Hdb); [lia| |].
  { rewrite Hl. apply list_eq_same_length with bits; [by rewrite length_cfb1_ref|by rewrite length_fmap, length_seq|].
    intros i x y Hi Hx Hy. apply list_lookup_fmap_Some in Hx as (n & -> & [-> _]%lookup_seq).
    rewrite Hbits, decide_True, Nat.sub_0_r by lia. by apply nth_lookup_Some. }
  exists c, d, (cfb1_register block key iv plain). rewrite Hl in Hd. split; [exact Hc|]. split; [|split; [exact Hd|]].
  - intros i. rewrite Hbits, Nat.sub_0_r. destruct (decide (i < bits)%nat).
    + by rewrite decide_True by lia.
    + by rewrite decide_False by lia.
  - intros i. rewrite Hdb, Hl, Nat.sub_0_r. destruct (decide (i < bits)%nat) as [Hi|Hi].
    + rewrite decide_True by lia. apply nth_lookup_Some. unfold plain.
      rewrite list_lookup_fmap, lookup_seq_lt by done. done.
    + by rewrite decide_False by lia.
Qed.

Lemma cfb_shift_register_witness :
  let iv := seqZ 1 16 in
  exists c d iv', CRYPTO_cfb128_1_encrypt toy_block 0x5a [0xa5; 0x3c] 11 [255; 255] iv true = (c, iv') /\
    drop 1 c = [63] /\
    CRYPTO_cfb128_1_encrypt toy_block 0x5a c 11 [0; 0] iv false = (d, iv') /\
    buf_bit d 10 = buf_bit [0xa5; 0x3c] 10.
Proof.
  intros iv.
  assert (forall l, bool_decide (bytes l) = true -> bytes l) as Hdec by (intros l; apply bool_decide_eq_true).
  destruct (cfb_shift_register toy_block 0x5a iv [0xa5; 0x3c] 11 [255; 255] [0; 0])
    as [_ (c & d & iv' & Hc & Hb & Hd & Hp)];
    [split; [by apply Hdec|reflexivity]|by apply Hdec..|simpl; lia|simpl; lia|].
  exists c, d, iv'. split; [exact Hc|]. split; [|split; [exact Hd|]].
  - vm_compute in Hc. injection Hc as <- <-. reflexivity.
  - by rewrite Hp.
Defined.
