(* ===== verification/Cbc.v ===== *)
(** crypto/fipsmodule/modes/cbc.c: the CBC mode, on a shared memory.

    The input and the output may overlap, and the order of the loads and stores
    decides whether the result is right; so [in] and [out] are addresses in one
    memory. [ivec] is an array of its own. A run that leaves the memory, or
    copies with [memcpy] between overlapping objects, has undefined behaviour:
    it fails in the monad. [block] is the block cipher, as in Modes. *)

From S2P Require Import Prelude CryptoInternal.

Record cbc_state := Cbc { mem : list Z; ivec : list Z }.

(** The pointer [iv]: it points to [ivec], or into the memory. *)
Inductive iv_ptr := Ivec | Mem (a : Z).

Definition object (p : iv_ptr) (s : cbc_state) : Z * list Z :=
  match p with Ivec => (0, ivec s) | Mem a => (a, mem s) end.

(** [n] bytes at [p + off]. *)
Definition load (p : iv_ptr) (off n : Z) : M cbc_state (list Z) :=
  s ← mget;
  let '(a, l) := object p s in
  _ ← massert ((0 <=? a + off) && (a + off + n <=? blen l));
  mret (take (Z.to_nat n) (drop (Z.to_nat (a + off)) l)).

Definition store (p : iv_ptr) (off : Z) (bs : list Z) : M cbc_state unit :=
  s ← mget;
  let '(a, l) := object p s in
  _ ← massert ((0 <=? a + off) && (a + off + blen bs <=? blen l));
  let l := write_at (a + off) bs l in
  mput match p with Ivec => Cbc (mem s) l | Mem _ => Cbc l (ivec s) end.

Definition load_word (p : iv_ptr) (off : Z) : M cbc_state Z :=
  bs ← load p off 8; mret (CRYPTO_load_word_le bs).

Definition load_byte (p : iv_ptr) (off : Z) : M cbc_state Z :=
  bs ← load p off 1; mret (nth 0 bs 0).

(** [memcpy(ivec, iv, 16)]: undefined if [iv] is [ivec]. *)
Definition memcpy_ivec (iv : iv_ptr) : M cbc_state unit :=
  match iv with
  | Ivec => mfail
  | Mem _ => bs ← load iv 0 16; store Ivec 0 bs
  end.

(** [for (n = i; n < i + k * step; n += step)] *)
Fixpoint for_step (k : nat) (i step : Z) (body : Z -> M cbc_state unit) : M cbc_state unit :=
  match k with
  | O => mret tt
  | S k => _ ← body i; for_step k (i + step) step body
  end.

Section Cbc.
Context {AES_KEY : Type} (block : list Z -> AES_KEY -> list Z) (key : AES_KEY).

(** [( *block)(src, dst, key)] *)
Definition call_block (src dst : iv_ptr) : M cbc_state unit :=
  bs ← load src 0 16; store dst 0 (block bs key).

(** ** Encryption *)

(** [while (len >= 16)]: the pointers and the length after the loop. *)
Fixpoint cbc_encrypt_blocks (fuel : nat) (iv : iv_ptr) (input output len : Z) :
    M cbc_state (iv_ptr * Z * Z * Z) :=
  match fuel with
  | O => mfail
  | S fuel =>
      if len <? 16 then mret (iv, input, output, len)
      else
        _ ← for_step 2 0 8 (fun n =>
              a ← load_word (Mem input) n; b ← load_word iv n;
              store (Mem output) n (CRYPTO_store_word_le (Z.lxor a b)));
        _ ← call_block (Mem output) (Mem output);
        cbc_encrypt_blocks fuel (Mem output) (input + 16) (output + 16) (len - 16)
  end.

(** [while (len)]: the last block is completed with the bytes of [iv]. *)
Fixpoint cbc_encrypt_tail (fuel : nat) (iv : iv_ptr) (input output len : Z) : M cbc_state iv_ptr :=
  match fuel with
  | O => mfail
  | S fuel =>
      if len =? 0 then mret iv
      else
        let k := Z.to_nat (Z.min 16 len) in
        _ ← for_step k 0 1 (fun n =>
              a ← load_byte (Mem input) n; b ← load_byte iv n; store (Mem output) n [Z.lxor a b]);
        _ ← for_step (16 - k) (Z.of_nat k) 1 (fun n =>
              b ← load_byte iv n; store (Mem output) n [b]);
        _ ← call_block (Mem output) (Mem output);
        if len <=? 16 then mret (Mem output)
        else cbc_encrypt_tail fuel (Mem output) (input + 16) (output + 16) (len - 16)
  end.

Definition CRYPTO_cbc128_encrypt (input output len : Z) : M cbc_state unit :=
  if len =? 0 then mret tt
  else
    let fuel := S (Z.to_nat len) in
    '(iv, input, output, len) ← cbc_encrypt_blocks fuel Ivec input output len;
    iv ← cbc_encrypt_tail fuel iv input output len;
    memcpy_ivec iv.

(** ** Decryption *)

(** [out] is clear of [in]: no temporary block. *)
Fixpoint cbc_decrypt_blocks (fuel : nat) (iv : iv_ptr) (input output len : Z) :
    M cbc_state (iv_ptr * Z * Z * Z) :=
  match fuel with
  | O => mfail
  | S fuel =>
      if len <? 16 then mret (iv, input, output, len)
      else
        _ ← call_block (Mem input) (Mem output);
        _ ← for_step 2 0 8 (fun n =>
              a ← load_word (Mem output) n; b ← load_word iv n;
              store (Mem output) n (CRYPTO_store_word_le (Z.lxor a b)));
        cbc_decrypt_blocks fuel (Mem input) (input + 16) (output + 16) (len - 16)
  end.

(** Through the temporary block [tmp]. *)
Fixpoint cbc_decrypt_tmp (fuel : nat) (input output len : Z) : M cbc_state (Z * Z * Z) :=
  match fuel with
  | O => mfail
  | S fuel =>
      if len <? 16 then mret (input, output, len)
      else
        bs ← load (Mem input) 0 16;
        let tmp := block bs key in
        _ ← for_step 2 0 8 (fun n =>
              c ← load_word (Mem input) n; b ← load_word Ivec n;
              _ ← store (Mem output) n (CRYPTO_store_word_le
                    (Z.lxor (CRYPTO_load_word_le (drop (Z.to_nat n) tmp)) b));
              store Ivec n (CRYPTO_store_word_le c));
        cbc_decrypt_tmp fuel (input + 16) (output + 16) (len - 16)
  end.

(** [while (len)] *)
Fixpoint cbc_decrypt_tail (fuel : nat) (input output len : Z) : M cbc_state unit :=
  match fuel with
  | O => mfail
  | S fuel =>
      if len =? 0 then mret tt
      else
        let k := Z.to_nat (Z.min 16 len) in
        bs ← load (Mem input) 0 16;
        let tmp := block bs key in
        _ ← for_step k 0 1 (fun n =>
              c ← load_byte (Mem input) n; b ← load_byte Ivec n;
              _ ← store (Mem output) n [Z.lxor (nth (Z.to_nat n) tmp 0) b];
              store Ivec n [c]);
        if len <=? 16 then
          for_step (16 - k) (Z.of_nat k) 1 (fun n => c ← load_byte (Mem input) n; store Ivec n [c])
        else cbc_decrypt_tail fuel (input + 16) (output + 16) (len - 16)
  end.

Definition CRYPTO_cbc128_decrypt (input output len : Z) : M cbc_state unit :=
  if len =? 0 then mret tt
  else
    let fuel := S (Z.to_nat len) in
    '(input, output, len) ←
      if ((32 <=? input) && (output <=? input - 32)) || (input <? output) then
        '(iv, input, output, len) ← cbc_decrypt_blocks fuel Ivec input output len;
        _ ← memcpy_ivec iv;
        mret (input, output, len)
      else cbc_decrypt_tmp fuel input output len;
    cbc_decrypt_tail fuel input output len.
End Cbc.
