(* ===== verification/CbcSpec.v ===== *)
(** The loops of cbc.c on a memory in which the input and the output overlap. *)

From S2P Require Import Prelude CryptoInternal Modes ModesSpec Cbc.

(** ** Slices of a memory *)

Definition slice (a n : Z) (m : list Z) : list Z := take (Z.to_nat n) (drop (Z.to_nat a) m).

Lemma lookup_write_at off bs m j :
  0 <= off -> off + blen bs <= blen m ->
  write_at off bs m !! j =
    if decide (Z.to_nat off <= j < Z.to_nat off + length bs)%nat then bs !! (j - Z.to_nat off)%nat else m !! j.
Proof.
  unfold write_at, blen. intros Ho Hb.
  assert (length (take (Z.to_nat off) m) = Z.to_nat off) as Hl by (rewrite length_take; lia).
  destruct (decide (j < Z.to_nat off)%nat).
  - rewrite decide_False by lia. rewrite lookup_app_l, lookup_take_lt by lia. done.
  - rewrite lookup_app_r, Hl by lia. case_decide.
    + by rewrite lookup_app_l by lia.
    + rewrite lookup_app_r by lia. rewrite lookup_drop. f_equal. lia.
Qed.

Lemma lookup_slice a n m j :
  slice a n m !! j = if decide (j < Z.to_nat n)%nat then m !! (Z.to_nat a + j)%nat else None.
Proof.
  unfold slice. case_decide.
  - by rewrite lookup_take_lt, lookup_drop by lia.
  - by rewrite lookup_take_ge by lia.
Qed.

Lemma slice_write_out a n off bs m :
  0 <= a -> 0 <= n -> 0 <= off -> off + blen bs <= blen m -> a + n <= off \/ off + blen bs <= a ->
  slice a n (write_at off bs m) = slice a n m.
Proof.
  intros Ha Hn Ho Hb Hd. apply list_eq. intros j. rewrite !lookup_slice. case_decide; [|done].
  rewrite lookup_write_at by done. unfold blen in *. by rewrite decide_False by lia.
Qed.

Lemma slice_write_in i n off bs m :
  0 <= i -> 0 <= n -> i + n <= blen bs -> 0 <= off -> off + blen bs <= blen m ->
  slice (off + i) n (write_at off bs m) = slice i n bs.
Proof.
  intros Hi Hn Hb Ho Hm. apply list_eq. intros j. rewrite !lookup_slice. case_decide; [|done].
  rewrite lookup_write_at by done. unfold blen in *. rewrite decide_True by lia. f_equal. lia.
Qed.

(** A store at the end of what is written. *)
Lemma write_at_snoc off bs w m :
  0 <= off -> off + blen bs + blen w <= blen m ->
  write_at (off + blen bs) w (write_at off bs m) = write_at off (bs ++ w) m.
Proof.
  intros Ho Hb. pose proof (blen_nonneg bs). pose proof (blen_nonneg w). apply list_eq. intros j.
  rewrite lookup_write_at by (rewrite ?blen_write_at; lia).
  rewrite !lookup_write_at by (rewrite ?blen_app; lia). unfold blen in *. rewrite length_app.
  repeat case_decide; try lia; try done.
  - rewrite lookup_app_r by lia. f_equal. lia.
  - by rewrite lookup_app_l by lia.
Qed.

(** A store over bytes written before. *)
Lemma write_at_over off bs w v m :
  0 <= off -> off + blen bs + blen w + blen v <= blen m ->
  forall w', blen w' = blen w ->
  write_at (off + blen bs) w' (write_at off (bs ++ w ++ v) m) = write_at off (bs ++ w' ++ v) m.
Proof.
  intros Ho Hb w' Hw. pose proof (blen_nonneg bs). pose proof (blen_nonneg w). pose proof (blen_nonneg v).
  apply list_eq. intros j.
  rewrite lookup_write_at by (rewrite ?blen_write_at; rewrite ?blen_app; lia).
  rewrite !lookup_write_at by (rewrite ?blen_app; lia). unfold blen in *. rewrite !length_app.
  repeat case_decide; try lia; try done.
  - rewrite lookup_app_r, lookup_app_l by lia. f_equal. lia.
  - destruct (decide (j - Z.to_nat off < length bs)%nat).
    + by rewrite !lookup_app_l by lia.
    + rewrite !lookup_app_r by lia. f_equal. lia.
Qed.

(** ** Runs *)

Lemma for_step_run k : forall (st : nat -> cbc_state) i step body,
  (forall j, (j < k)%nat -> body (i + Z.of_nat j * step) (st j) = (Some tt, st (S j))) ->
  for_step k i step body (st 0%nat) = (Some tt, st k).
Proof.
  induction k as [|k IH]; intros st i step body Hb; cbn [for_step]; [done|].
  pose proof (Hb 0%nat ltac:(lia)) as H0. replace (i + Z.of_nat 0 * step) with i in H0 by lia.
  erewrite bind_ok by exact H0. apply (IH (fun j => st (S j)) (i + step)). intros j Hj.
  rewrite <-(Hb (S j)) by lia. f_equal. lia.
Qed.

Lemma load_run p off n s :
  let '(a, l) := object p s in 0 <= a + off -> a + off + n <= blen l ->
  load p off n s = (Some (slice (a + off) n l), s).
Proof.
  destruct (object p s) as [a l] eqn:Ho. intros H1 H2. unfold load. unfold mget.
  erewrite bind_ok by reflexivity. rewrite Ho, massert_bind.
  by rewrite (proj2 (Z.leb_le _ _) H1), (proj2 (Z.leb_le _ _) H2).
Qed.

Lemma store_mem_run a off bs m v :
  0 <= a + off -> a + off + blen bs <= blen m ->
  store (Mem a) off bs (Cbc m v) = (Some tt, Cbc (write_at (a + off) bs m) v).
Proof.
  intros H1 H2. unfold store, mget. erewrite bind_ok by reflexivity. cbn [object mem]. rewrite massert_bind.
  by rewrite (proj2 (Z.leb_le _ _) H1), (proj2 (Z.leb_le _ _) H2).
Qed.

Lemma store_ivec_run off bs m v :
  0 <= off -> off + blen bs <= blen v ->
  store Ivec off bs (Cbc m v) = (Some tt, Cbc m (write_at off bs v)).
Proof.
  intros H1 H2. unfold store, mget. erewrite bind_ok by reflexivity. cbn [object ivec]. rewrite massert_bind.
  change (0 + off) with off.
  by rewrite (proj2 (Z.leb_le _ _) H1), (proj2 (Z.leb_le _ _) H2).
Qed.

(** ** Slices of slices *)

Lemma length_slice a n m : 0 <= a -> 0 <= n -> a + n <= blen m -> length (slice a n m) = Z.to_nat n.
Proof. unfold slice, blen. intros. rewrite length_take, length_drop. lia. Qed.

Lemma bytes_slice a n m : bytes m -> bytes (slice a n m).
Proof. intros. unfold slice. auto with words. Qed.

Lemma slice_slice a n b k m :
  0 <= a -> 0 <= b -> b + k <= n -> slice b k (slice a n m) = slice (a + b) k m.
Proof.
  intros Ha Hb Hk. apply list_eq. intros j. rewrite !lookup_slice. case_decide; [|done].
  rewrite decide_True by lia. f_equal. lia.
Qed.

Lemma slice_zip b k l r :
  slice b k (zip_with Z.lxor l r) = zip_with Z.lxor (slice b k l) (slice b k r).
Proof. unfold slice. by rewrite zip_with_drop, zip_with_take. Qed.

Lemma take_slice b k l : 0 <= b -> 0 <= k ->
  take (Z.to_nat b) l ++ slice b k l = take (Z.to_nat (b + k)) l.
Proof.
  intros Hb Hk. unfold slice. rewrite Z2Nat.inj_add by done.
  rewrite <-(take_drop (Z.to_nat b) l) at 3. rewrite <-take_take_drop. by rewrite take_drop.
Qed.

Lemma slice_one n l : 0 <= n -> n + 1 <= blen l -> slice n 1 l = [nth (Z.to_nat n) l 0].
Proof.
  intros Hn Hl. unfold slice, blen in *. destruct (lookup_lt_is_Some_2 l (Z.to_nat n)) as [x Hx]; [lia|].
  rewrite (drop_S _ x) by done. by rewrite (nth_lookup_Some _ _ _ _ Hx).
Qed.

Lemma slice_full a n l : a = 0 -> blen l <= n -> slice a n l = l.
Proof. unfold slice, blen. intros -> Hn. rewrite drop_0. apply take_ge. lia. Qed.

(** ** Memories in the course of a call

    [done] is written from [output] on; [input] is read ahead of it, or away
    from it. *)

Section Overlap.
Context (m : list Z) (output : Z) (Hout : 0 <= output).

Abbreviation cur done v := (Cbc (write_at output done m) v).

Lemma input_load a off n done v :
  0 <= a + off -> 0 <= n -> a + off + n <= blen m -> output + blen done <= blen m ->
  output + blen done <= a + off \/ a + off + n <= output ->
  load (Mem a) off n (cur done v) = (Some (slice (a + off) n m), cur done v).
Proof.
  intros Ha Hn Hm Hd Hs. pose proof (load_run (Mem a) off n (cur done v)) as Hr. cbn [object mem] in Hr.
  rewrite Hr by (rewrite ?blen_write_at; lia). by rewrite slice_write_out by (done || lia).
Qed.

Lemma ivec_load off n x c : 0 <= off -> off + n <= blen c ->
  load Ivec off n (Cbc x c) = (Some (slice off n c), Cbc x c).
Proof.
  intros Ho Hn. pose proof (load_run Ivec off n (Cbc x c)) as Hr. cbn [object ivec] in Hr.
  by rewrite Hr by lia.
Qed.

(** [iv] points to the bytes [c]: in [ivec], or at the end of [done]. *)
Definition iv_holds (iv : iv_ptr) (c done v : list Z) : Prop :=
  match iv with
  | Ivec => v = c
  | Mem a => exists d, done = d ++ c /\ a = output + blen d
  end.

Lemma iv_load iv c done v w off n :
  iv_holds iv c done v -> 0 <= off -> 0 <= n -> off + n <= blen c -> output + blen done + blen w <= blen m ->
  load iv off n (cur (done ++ w) v) = (Some (slice off n c), cur (done ++ w) v).
Proof.
  intros Hiv Ho Hn Hc Hm. destruct iv as [|a]; [cbn in Hiv; subst; by apply ivec_load|].
  destruct Hiv as (d & -> & ->). rewrite blen_app in Hm. pose proof (blen_nonneg d). pose proof (blen_nonneg w).
  pose proof (load_run (Mem (output + blen d)) off n (cur ((d ++ c) ++ w) v)) as Hr. cbn [object mem] in Hr.
  rewrite Hr by (rewrite ?blen_write_at; rewrite ?blen_app; lia).
  rewrite <-Z.add_assoc, slice_write_in by (rewrite ?blen_app; lia).
  replace (slice (blen d + off) n ((d ++ c) ++ w)) with (slice off n c); [done|].
  apply list_eq. intros j. rewrite !lookup_slice. case_decide; [|done]. unfold blen in *.
  rewrite <-app_assoc, lookup_app_r, lookup_app_l by lia. f_equal. lia.
Qed.

Lemma out_store done v w off bs :
  off = blen w -> output + blen done + blen w + blen bs <= blen m ->
  store (Mem (output + blen done)) off bs (cur (done ++ w) v) = (Some tt, cur (done ++ w ++ bs) v).
Proof.
  intros -> Hm. pose proof (blen_nonneg done). pose proof (blen_nonneg w). pose proof (blen_nonneg bs).
  rewrite store_mem_run by (rewrite ?blen_write_at; rewrite ?blen_app; lia).
  rewrite <-Z.add_assoc, <-blen_app, write_at_snoc by (rewrite ?blen_app; lia). by rewrite <-app_assoc.
Qed.

(** A loop that stores the next [w] bytes of [z] in every turn. *)
Lemma for_store k i w z body done v :
  0 < w -> Z.of_nat k * w <= blen z ->
  (forall j, (j < k)%nat -> let n := Z.of_nat j * w in
     body (i + n) (cur (done ++ take (Z.to_nat n) z) v) =
     (Some tt, cur (done ++ take (Z.to_nat n) z ++ slice n w z) v)) ->
  for_step k i w body (cur done v) = (Some tt, cur (done ++ take (Z.to_nat (Z.of_nat k * w)) z) v).
Proof.
  intros Hw Hz Hb.
  pose (st := fun j => cur (done ++ take (Z.to_nat (Z.of_nat j * w)) z) v).
  replace (cur done v) with (st 0%nat) by (unfold st; by rewrite app_nil_r).
  apply (for_step_run k st). intros j Hj. unfold st. rewrite (Hb j Hj), take_slice by nia.
  do 5 f_equal. lia.
Qed.

(** The loops over words and over bytes that combine the input with the bytes at
    [iv]. *)
Section Xor.
Context (a : Z) (iv : iv_ptr) (c done v : list Z) (len : Z).
Context (Hiv : iv_holds iv c done v) (Hc : is_block c) (Hm : bytes m).
Context (Ha : 0 <= a) (Hlen : 0 <= len <= 16) (Ham : a + len <= blen m) (Hdm : output + blen done + 16 <= blen m).
Context (Hsafe : output + blen done <= a \/ a + len <= output).
Let p := slice a len m.
Let z := zip_with Z.lxor p (take (Z.to_nat len) c).

Lemma xor_length : blen p = len /\ blen c = 16 /\ blen z = len.
Proof.
  unfold z, p, blen. destruct Hc as [_ Hl]. rewrite length_zip_with, length_take, length_slice, Hl by lia. lia.
Qed.

Lemma xor_loads n k :
  0 <= n -> 0 < k -> n + k <= len ->
  load (Mem a) n k (cur (done ++ take (Z.to_nat n) z) v) = (Some (slice n k p), cur (done ++ take (Z.to_nat n) z) v) /\
  load iv n k (cur (done ++ take (Z.to_nat n) z) v) = (Some (slice n k c), cur (done ++ take (Z.to_nat n) z) v) /\
  slice n k z = zip_with Z.lxor (slice n k p) (slice n k c).
Proof.
  intros Hn Hk Hnk. destruct xor_length as (Hp & Hcl & Hz).
  assert (blen (take (Z.to_nat n) z) = n) as Ht by (apply blen_take; lia). split; [|split].
  - rewrite input_load by (rewrite ?blen_app, ?Ht; lia). unfold p. by rewrite slice_slice by lia.
  - apply iv_load; rewrite ?Ht; (done || lia).
  - unfold z. rewrite slice_zip. f_equal. apply list_eq. intros j. rewrite !lookup_slice. case_decide; [|done].
    rewrite lookup_take_lt by lia. done.
Qed.

Lemma xor_bytes out :
  out = output + blen done ->
  for_step (Z.to_nat len) 0 1 (fun n =>
    a ← load_byte (Mem a) n; b ← load_byte iv n; store (Mem out) n [Z.lxor a b]) (cur done v) =
  (Some tt, cur (done ++ z) v).
Proof.
  intros ->. destruct xor_length as (Hp & Hcl & Hz).
  rewrite (for_store (Z.to_nat len) 0 1 z); [by rewrite take_ge by (unfold blen in Hz; lia)|lia..|].
  intros j Hj n. destruct (xor_loads n 1) as (H1 & H2 & Hs); [lia..|]. cbn [Z.add]. unfold load_byte.
  erewrite bind_ok by (erewrite bind_ok by exact H1; reflexivity).
  erewrite bind_ok by (erewrite bind_ok by exact H2; reflexivity).
  rewrite Hs, !slice_one by lia. cbn [nth zip_with].
  rewrite out_store; [done| |]; rewrite ?blen_take, ?blen_singleton by lia; lia.
Qed.

Lemma xor_words_run out :
  out = output + blen done -> len = 16 ->
  for_step 2 0 8 (fun n =>
    a ← load_word (Mem a) n; b ← load_word iv n;
    store (Mem out) n (CRYPTO_store_word_le (Z.lxor a b))) (cur done v) =
  (Some tt, cur (done ++ z) v).
Proof.
  intros -> Hl16. destruct xor_length as (Hp & Hcl & Hz).
  rewrite (for_store 2 0 8 z); [rewrite take_ge by (unfold blen in Hz; lia); done|lia..|].
  intros j Hj n. destruct (xor_loads n 8) as (H1 & H2 & Hs); [lia..|]. cbn [Z.add]. unfold load_word.
  erewrite bind_ok by (erewrite bind_ok by exact H1; reflexivity).
  erewrite bind_ok by (erewrite bind_ok by exact H2; reflexivity).
  rewrite store_lxor_load, <-Hs.
  2-5: try (apply bytes_slice; first [apply bytes_slice, Hm|apply Hc]); rewrite length_slice; lia.
  assert (blen (slice n 8 z) = 8) as H8 by (unfold blen; rewrite length_slice; lia).
  rewrite out_store; [done| |]; rewrite ?blen_take, ?H8 by lia; lia.
Qed.
End Xor.

(** ** Decryption through [tmp] *)

Lemma mix_slice n k p c :
  0 <= n -> 0 <= k -> n <= blen p -> slice n k (take (Z.to_nat n) p ++ drop (Z.to_nat n) c) = slice n k c.
Proof.
  intros Hn Hk Hp. apply list_eq. intros j. rewrite !lookup_slice. case_decide; [|done].
  unfold blen in Hp. rewrite lookup_app_r by (rewrite length_take; lia).
  rewrite length_take, lookup_drop. f_equal. lia.
Qed.

Lemma mix_store n k p c :
  0 <= n -> 0 <= k -> n + k <= blen p -> blen p <= blen c ->
  write_at n (slice n k p) (take (Z.to_nat n) p ++ drop (Z.to_nat n) c) =
  take (Z.to_nat (n + k)) p ++ drop (Z.to_nat (n + k)) c.
Proof.
  intros Hn Hk Hp Hc. rewrite <-take_slice by lia. unfold write_at.
  rewrite take_app_length' by (unfold blen in *; rewrite length_take; lia). rewrite <-app_assoc. do 2 f_equal.
  unfold blen in *. rewrite length_slice by (unfold blen; lia). rewrite drop_app_ge by (rewrite length_take; lia).
  rewrite length_take, drop_drop. f_equal. lia.
Qed.

Section Tmp.
Context (a : Z) (tmp c done : list Z) (len : Z).
Context (Htmp : is_block tmp) (Hc : is_block c) (Hm : bytes m).
Context (Ha : 0 <= a) (Hlen : 0 <= len <= 16) (Ham : a + 16 <= blen m) (Hdm : output + blen done + len <= blen m).
Context (Hsafe : output + blen done <= a \/ a + 16 <= output).
Let p := slice a 16 m.
Let z := zip_with Z.lxor (take (Z.to_nat len) tmp) c.

Abbreviation at_ n := (Cbc (write_at output (done ++ take (Z.to_nat n) z) m) (take (Z.to_nat n) p ++ drop (Z.to_nat n) c)).

Lemma tmp_length : blen p = 16 /\ blen c = 16 /\ blen z = len /\ blen tmp = 16.
Proof.
  unfold z, p, blen. destruct Hc as [_ Hl], Htmp as [_ Hlt].
  rewrite length_zip_with, length_take, length_slice, Hl, Hlt by lia. lia.
Qed.

(** The step at [n], with [k] bytes. *)
Lemma tmp_step n k :
  0 <= n -> 0 < k -> n + k <= len ->
  load (Mem a) n k (at_ n) = (Some (slice n k p), at_ n) /\
  load Ivec n k (at_ n) = (Some (slice n k c), at_ n) /\
  (store (Mem (output + blen done)) n (zip_with Z.lxor (slice n k tmp) (slice n k c)) (at_ n)) =
    (Some tt, Cbc (write_at output (done ++ take (Z.to_nat (n + k)) z) m) (ivec (at_ n))) /\
  store Ivec n (slice n k p) (Cbc (write_at output (done ++ take (Z.to_nat (n + k)) z) m) (ivec (at_ n))) =
    (Some tt, at_ (n + k)).
Proof.
  intros Hn Hk Hnk. destruct tmp_length as (Hp & Hcl & Hz & Ht).
  assert (blen (take (Z.to_nat n) z) = n) as Htn by (apply blen_take; lia).
  assert (blen (take (Z.to_nat n) p ++ drop (Z.to_nat n) c) = 16) as Hmix
    by (rewrite blen_app, blen_take, blen_drop; lia).
  assert (slice n k z = zip_with Z.lxor (slice n k tmp) (slice n k c)) as Hs.
  { unfold z. rewrite slice_zip. f_equal. apply list_eq. intros j. rewrite !lookup_slice. case_decide; [|done].
    rewrite lookup_take_lt by lia. done. }
  split; [|split; [|split]].
  - rewrite input_load by (rewrite ?blen_app, ?Htn; lia). unfold p. by rewrite slice_slice by lia.
  - rewrite ivec_load by lia. by rewrite mix_slice by lia.
  - rewrite <-Hs, out_store, take_slice; try done; try lia.
    rewrite Htn. unfold blen in *. rewrite length_slice by (unfold blen; lia). lia.
  - cbn [ivec]. rewrite store_ivec_run, mix_store by (try lia; unfold blen in *; rewrite ?length_slice; unfold blen; lia).
    done.
Qed.

Lemma tmp_words out :
  out = output + blen done -> len = 16 ->
  for_step 2 0 8 (fun n =>
    c ← load_word (Mem a) n; b ← load_word Ivec n;
    _ ← store (Mem out) n (CRYPTO_store_word_le (Z.lxor (CRYPTO_load_word_le (drop (Z.to_nat n) tmp)) b));
    store Ivec n (CRYPTO_store_word_le c)) (Cbc (write_at output done m) c) =
  (Some tt, Cbc (write_at output (done ++ zip_with Z.lxor tmp c) m) p).
Proof.
  intros -> Hl16. destruct tmp_length as (Hp & Hcl & Hz & Ht).
  pose (st := fun j => at_ (Z.of_nat j * 8)).
  replace (Cbc (write_at output done m) c) with (st 0%nat) by (unfold st; cbn [Z.of_nat Z.mul Z.to_nat take]; by rewrite app_nil_r).
  replace (Cbc (write_at output (done ++ zip_with Z.lxor tmp c) m) p) with (st 2%nat).
  2:{ unfold st. unfold blen in *. rewrite (take_ge z), (take_ge p), (drop_ge c), app_nil_r by lia.
      unfold z. by rewrite take_ge by lia. }
  apply (for_step_run 2 st). intros j Hj. unfold st. rewrite Z.add_0_l. set (n := Z.of_nat j * 8).
  replace (Z.of_nat (S j) * 8) with (n + 8) by lia.
  destruct (tmp_step n 8) as (H1 & H2 & H3 & H4); [lia..|]. unfold load_word.
  erewrite bind_ok by (erewrite bind_ok by exact H1; reflexivity).
  erewrite bind_ok by (erewrite bind_ok by exact H2; reflexivity).
  replace (CRYPTO_load_word_le (drop (Z.to_nat n) tmp)) with (CRYPTO_load_word_le (slice n 8 tmp))
    by (symmetry; apply load_word_take).
  rewrite store_lxor_load, store_load_word
    by (try (apply bytes_slice; first [apply Htmp|apply Hc|by apply bytes_slice]); rewrite length_slice; lia).
  erewrite bind_ok by exact H3. exact H4.
Qed.

Lemma tmp_bytes out :
  out = output + blen done ->
  for_step (Z.to_nat len) 0 1 (fun n =>
    c ← load_byte (Mem a) n; b ← load_byte Ivec n;
    _ ← store (Mem out) n [Z.lxor (nth (Z.to_nat n) tmp 0) b];
    store Ivec n [c]) (Cbc (write_at output done m) c) =
  (Some tt, at_ len).
Proof.
  intros ->. destruct tmp_length as (Hp & Hcl & Hz & Ht).
  pose (st := fun j => at_ (Z.of_nat j * 1)).
  replace (Cbc (write_at output done m) c) with (st 0%nat) by (unfold st; cbn [Z.of_nat Z.mul Z.to_nat take]; by rewrite app_nil_r).
  replace (at_ len) with (st (Z.to_nat len)) by (unfold st; by replace (Z.of_nat (Z.to_nat len) * 1) with len by lia).
  apply (for_step_run _ st). intros j Hj. unfold st. rewrite Z.add_0_l. set (n := Z.of_nat j * 1).
  replace (Z.of_nat (S j) * 1) with (n + 1) by lia.
  destruct (tmp_step n 1) as (H1 & H2 & H3 & H4); [lia..|]. unfold load_byte.
  erewrite bind_ok by (erewrite bind_ok by exact H1; reflexivity).
  erewrite bind_ok by (erewrite bind_ok by exact H2; reflexivity).
  rewrite (slice_one n tmp), (slice_one n c) in H3 by lia. rewrite (slice_one n p) in H4 by lia.
  rewrite (slice_one n p), (slice_one n c) by lia.
  cbn [nth zip_with] in H3, H4 |- *.
  erewrite bind_ok by exact H3. exact H4.
Qed.

(** The rest of the block goes to [ivec]. *)
Lemma tmp_rest :
  for_step (16 - Z.to_nat len) (Z.of_nat (Z.to_nat len)) 1 (fun n => c ← load_byte (Mem a) n; store Ivec n [c])
    (at_ len) = (Some tt, Cbc (write_at output (done ++ z) m) p).
Proof.
  destruct tmp_length as (Hp & Hcl & Hz & Ht). rewrite Z2Nat.id by lia.
  rewrite (take_ge z) by (unfold blen in Hz; lia).
  pose (st := fun j => let n := len + Z.of_nat j in
    Cbc (write_at output (done ++ z) m) (take (Z.to_nat n) p ++ drop (Z.to_nat n) c)).
  replace (Cbc _ (take (Z.to_nat len) p ++ _)) with (st 0%nat) by (unfold st; cbn [Z.of_nat]; by rewrite Z.add_0_r).
  replace (Cbc (write_at output (done ++ z) m) p) with (st (16 - Z.to_nat len)%nat).
  2:{ unfold st. unfold blen in *. by rewrite (take_ge p), (drop_ge c), app_nil_r by lia. }
  apply (for_step_run _ st). intros j Hj. unfold st. rewrite Z.mul_1_r. set (n := len + Z.of_nat j).
  replace (len + Z.of_nat (S j)) with (n + 1) by lia. unfold load_byte.
  erewrite bind_ok by (erewrite bind_ok by (apply input_load; rewrite ?blen_app, ?Hz; lia); reflexivity).
  rewrite <-slice_slice with (n := 16) by lia. fold p. rewrite slice_one by lia. cbn [nth].
  rewrite <-slice_one by lia. rewrite store_ivec_run, mix_store.
  all: try lia; try done.
  rewrite blen_app, blen_take, blen_drop by lia. unfold blen in *. rewrite length_slice; unfold blen; lia.
Qed.
End Tmp.

(** ** Decryption into a clear output *)

(** [iv] points to [ivec], or to bytes of the input that are never written. *)
Definition iv_clear (iv : iv_ptr) (c done v : list Z) : Prop :=
  match iv with
  | Ivec => v = c
  | Mem a => 0 <= a /\ a + 16 <= blen m /\ slice a 16 m = c /\ (output + blen done + 16 <= a \/ a + 16 <= output)
  end.

Lemma clear_words iv c done v D out :
  iv_clear iv c done v -> is_block c -> is_block D -> output + blen done + 16 <= blen m -> out = output + blen done ->
  for_step 2 0 8 (fun n =>
    a ← load_word (Mem out) n; b ← load_word iv n;
    store (Mem out) n (CRYPTO_store_word_le (Z.lxor a b))) (cur (done ++ D) v) =
  (Some tt, cur (done ++ zip_with Z.lxor D c) v).
Proof.
  intros Hiv Hc HD Hm ->. set (z := zip_with Z.lxor D c).
  assert (blen c = 16 /\ blen D = 16 /\ blen z = 16) as (Hcl & HDl & Hz).
  { unfold z, blen. destruct Hc as [_ Hc], HD as [_ HD]. rewrite length_zip_with. lia. }
  pose (st := fun j => let n := Z.of_nat j * 8 in cur (done ++ take (Z.to_nat n) z ++ drop (Z.to_nat n) D) v).
  replace (cur (done ++ D) v) with (st 0%nat) by done.
  replace (cur (done ++ z) v) with (st 2%nat).
  2:{ unfold st. unfold blen in *. by rewrite (take_ge z), (drop_ge D), app_nil_r by lia. }
  apply (for_step_run 2 st). intros j Hj. unfold st. rewrite Z.add_0_l. set (n := Z.of_nat j * 8).
  replace (Z.of_nat (S j) * 8) with (n + 8) by lia.
  set (w := take (Z.to_nat n) z ++ drop (Z.to_nat n) D).
  assert (blen w = 16) as Hw by (unfold w; rewrite blen_app, blen_take, blen_drop; lia).
  assert (load (Mem (output + blen done)) n 8 (cur (done ++ w) v) = (Some (slice n 8 D), cur (done ++ w) v)) as H1.
  { pose proof (blen_nonneg done).
    pose proof (load_run (Mem (output + blen done)) n 8 (cur (done ++ w) v)) as Hr. cbn [object mem] in Hr.
    rewrite Hr by (rewrite ?blen_write_at; rewrite ?blen_app; lia).
    rewrite <-Z.add_assoc, slice_write_in by (rewrite ?blen_app; lia). f_equal. f_equal.
    transitivity (slice n 8 w); [|apply mix_slice; lia].
    apply list_eq. intros i. rewrite !lookup_slice. case_decide; [|done].
    unfold blen in *. rewrite lookup_app_r by lia. f_equal. lia. }
  assert (load iv n 8 (cur (done ++ w) v) = (Some (slice n 8 c), cur (done ++ w) v)) as H2.
  { destruct iv as [|a]; [cbn in Hiv; subst v; by apply ivec_load; lia|]. destruct Hiv as (Ha & Ham & Hs & Hsafe).
    pose proof (blen_nonneg done). rewrite input_load by (rewrite ?blen_app; lia). by rewrite <-Hs, slice_slice by lia. }
  unfold load_word.
  erewrite bind_ok by (erewrite bind_ok by exact H1; reflexivity).
  erewrite bind_ok by (erewrite bind_ok by exact H2; reflexivity).
  rewrite store_lxor_load by (try (apply bytes_slice; first [apply HD|apply Hc]); rewrite length_slice; lia).
  rewrite <-slice_zip. fold z. pose proof (blen_nonneg done).
  assert (blen (slice n 8 z) = 8) as H8 by (unfold blen; rewrite length_slice; lia).
  rewrite store_mem_run by (rewrite ?blen_write_at; rewrite ?blen_app; lia). apply (f_equal (fun l => (Some tt, Cbc l v))).
  unfold w. rewrite <-(take_drop 8 (drop (Z.to_nat n) D)), drop_drop.
  replace (Z.to_nat n + 8)%nat with (Z.to_nat (n + 8)) by lia.
  rewrite <-(take_slice n 8 z) by lia.
  replace (output + blen done + n) with (output + blen (done ++ take (Z.to_nat n) z)) by (rewrite blen_app, blen_take; lia).
  rewrite !app_assoc, <-(app_assoc (done ++ _)), <-(app_assoc (done ++ _)).
  apply write_at_over; [done| |]; rewrite ?H8; unfold blen in *; rewrite ?length_app, ?length_take, ?length_drop; lia.
Qed.

Lemma call_block_run {AES_KEY} (block : list Z -> AES_KEY -> list Z) key src done v p out :
  load src 0 16 (cur done v) = (Some p, cur done v) -> blen (block p key) = 16 ->
  output + blen done + 16 <= blen m -> out = output + blen done ->
  call_block block key src (Mem out) (cur done v) = (Some tt, cur (done ++ block p key) v).
Proof.
  intros Hl Hb Hm ->. unfold call_block. erewrite bind_ok by exact Hl.
  rewrite <-(app_nil_r done) at 2. rewrite out_store; [done|done|]. change (blen []) with 0. lia.
Qed.

(** [( *block)(out, out, key)] on the block just stored. *)
Lemma call_block_inplace {AES_KEY} (block : list Z -> AES_KEY -> list Z) key done v z out :
  blen z = 16 -> blen (block z key) = 16 -> output + blen done + 16 <= blen m -> out = output + blen done ->
  call_block block key (Mem out) (Mem out) (cur (done ++ z) v) = (Some tt, cur (done ++ block z key) v).
Proof.
  intros Hz Hb Hm ->. pose proof (blen_nonneg done). unfold call_block.
  assert (load (Mem (output + blen done)) 0 16 (cur (done ++ z) v) = (Some z, cur (done ++ z) v)) as Hl.
  { pose proof (load_run (Mem (output + blen done)) 0 16 (cur (done ++ z) v)) as Hr. cbn [object mem] in Hr.
    rewrite Hr by (rewrite ?blen_write_at; rewrite ?blen_app; lia).
    rewrite <-Z.add_assoc, slice_write_in by (rewrite ?blen_app; lia). f_equal. f_equal.
    unfold slice, blen in *. rewrite drop_app_length' by lia. apply take_ge. lia. }
  erewrite bind_ok by exact Hl. rewrite store_mem_run by (rewrite ?blen_write_at; rewrite ?blen_app; lia).
  rewrite Z.add_0_r. pose proof (write_at_over output done z [] m) as Hw. rewrite app_nil_r in Hw.
  rewrite (Hw Hout) by (change (blen (@nil Z)) with 0; lia). by rewrite app_nil_r.
Qed.
End Overlap.
