(* ===== verification/CbcTheorems.v ===== *)
(** CBC on a shared memory: encryption and decryption write the blocks of the
    standard's mode, whether or not the input overlaps the output. *)

From S2P Require Import Prelude CryptoInternal Modes ModesSpec Cbc CbcSpec.

Definition last_or {A} (d : A) (l : list A) : A := default d (last l).

Lemma last_or_cons {A} (d x : A) l : last_or d (x :: l) = last_or x l.
Proof. unfold last_or. rewrite last_cons. by destruct (last l). Qed.

Lemma last_or_app {A} (d : A) l k : last_or d (l ++ k) = last_or (last_or d l) k.
Proof. unfold last_or. rewrite last_app. by destruct (last k). Qed.

Section CbcRef.
Context {AES_KEY : Type} (block : list Z -> AES_KEY -> list Z) (key : AES_KEY).

(** The mode of NIST SP 800-38A on whole blocks. *)
Fixpoint cbc_ref (iv : list Z) (blocks : list (list Z)) : list (list Z) :=
  match blocks with
  | [] => []
  | p :: blocks => let c := block (zip_with Z.lxor p iv) key in c :: cbc_ref c blocks
  end.

(** Its inverse; [block] is the inverse cipher. *)
Fixpoint cbc_dec_ref (iv : list Z) (blocks : list (list Z)) : list (list Z) :=
  match blocks with
  | [] => []
  | c :: blocks => zip_with Z.lxor (block c key) iv :: cbc_dec_ref c blocks
  end.

(** A short last segment is completed with zeros. *)
Definition pad_zeros (t : list Z) : list (list Z) :=
  match t with [] => [] | _ => [t ++ replicate (16 - length t) 0] end.

Lemma cbc_ref_app iv l k : cbc_ref iv (l ++ k) = cbc_ref iv l ++ cbc_ref (last_or iv (cbc_ref iv l)) k.
Proof.
  revert iv. induction l as [|p l IH]; intros iv; [done|]. cbn [app cbc_ref]. rewrite IH.
  by rewrite last_or_cons.
Qed.

Context {BC : BlockCipher block key}.

Lemma cbc_ref_blocks iv l : is_block iv -> Forall is_block l -> Forall is_block (cbc_ref iv l).
Proof.
  intros Hiv Hl. revert iv Hiv. induction Hl as [|p l Hp Hl IH]; intros iv Hiv; [constructor|].
  assert (is_block (block (zip_with Z.lxor p iv) key)) as Hc by (apply (block_ok block key); by apply is_block_zip).
  constructor; [done|]. by apply IH.
Qed.

Lemma length_cbc_ref iv l : length (cbc_ref iv l) = length l.
Proof. revert iv. induction l as [|p l IH]; intros iv; [done|]. cbn. by rewrite IH. Qed.

Lemma last_or_block iv l : is_block iv -> Forall is_block l -> is_block (last_or iv l).
Proof.
  intros Hiv Hl. revert iv Hiv. induction Hl as [|p l Hp Hl IH]; intros iv Hiv; [done|].
  rewrite last_or_cons. by apply IH.
Qed.

Lemma blen_concat l : Forall is_block l -> blen (concat l) = 16 * blen l.
Proof.
  induction 1 as [|p l [_ Hp] Hl IH]; [done|]. cbn [concat]. rewrite blen_app, IH, blen_cons. unfold blen at 1. lia.
Qed.

(** The first part of an input. *)
Lemma first_part a k n p l m :
  0 <= a -> 0 <= k -> 0 <= n -> blen p = k -> a + k + n <= blen m -> slice a (k + n) m = p ++ l ->
  slice a k m = p /\ slice (a + k) n m = l.
Proof.
  intros Ha Hk Hn Hp Hm Hs. split.
  - replace a with (a + 0) at 1 by lia. rewrite <-(slice_slice a (k + n)) by lia. rewrite Hs. unfold slice.
    rewrite drop_0. apply take_app_length'. unfold blen in Hp. lia.
  - rewrite <-(slice_slice a (k + n)) by lia. rewrite Hs. unfold slice.
    rewrite drop_app_length' by (unfold blen in Hp; lia). apply take_ge.
    assert (length (slice a (k + n) m) = Z.to_nat (k + n)) as Hl by (apply length_slice; lia).
    rewrite Hs, length_app in Hl. unfold blen in Hp. lia.
Qed.

Lemma pad_zeros_blocks t : bytes t -> (length t < 16)%nat -> Forall is_block (pad_zeros t).
Proof.
  intros Ht Htl. unfold pad_zeros. destruct t as [|b t]; [done|]. apply Forall_singleton.
  split; [apply bytes_app; split; [done|apply bytes_replicate, in_word_0; lia]|].
  rewrite length_app, length_replicate. lia.
Qed.

Section Encrypt.
Context (m : list Z) (output : Z) (Hout : 0 <= output) (Hm : bytes m).

Abbreviation cur done v := (Cbc (write_at output done m) v).

Lemma cbc_encrypt_blocks_run segs : forall fuel iv c done a len v,
  iv_holds output iv c done v -> is_block c -> Forall is_block segs ->
  0 <= a -> a + 16 * blen segs <= blen m -> slice a (16 * blen segs) m = concat segs ->
  16 * blen segs <= len < 16 * blen segs + 16 -> (length segs < fuel)%nat ->
  output + blen done + 16 * blen segs <= blen m ->
  output + blen done <= a \/ a + 16 * blen segs <= output ->
  let cs := cbc_ref c segs in
  exists iv', cbc_encrypt_blocks block key fuel iv a (output + blen done) len (cur done v) =
      (Some (iv', a + 16 * blen segs, output + blen (done ++ concat cs), len - 16 * blen segs), cur (done ++ concat cs) v) /\
    iv_holds output iv' (last_or c cs) (done ++ concat cs) v /\ (iv' = Ivec -> iv = Ivec /\ segs = []).
Proof.
  induction segs as [|p segs IH]; intros fuel iv c done a len v Hiv Hc Hs Ha Ham Hsl Hlen Hf Hom Hsafe cs;
    destruct fuel as [|fuel]; try (cbn in Hf; lia); cbn [cbc_encrypt_blocks].
  - rewrite (proj2 (Z.ltb_lt len 16)) by (change (blen []) with 0 in *; lia). exists iv. unfold cs. cbn [cbc_ref concat].
    rewrite app_nil_r. change (blen []) with 0. split; [|done]. by rewrite Z.mul_0_r, Z.add_0_r, Z.sub_0_r.
  - rewrite blen_cons in *. pose proof (blen_nonneg segs). pose proof (blen_nonneg done).
    rewrite (proj2 (Z.ltb_ge len 16)) by lia. apply Forall_cons in Hs as [Hp Hs].
    assert (blen p = 16) as Hp16 by (unfold blen; destruct Hp as [_ ->]; done).
    replace (16 * (1 + blen segs)) with (16 + 16 * blen segs) in * by lia.
    destruct (first_part a 16 (16 * blen segs) p (concat segs) m) as [Hp1 Hsl1]; [lia..|done|].
    set (x := block (zip_with Z.lxor p c) key).
    assert (is_block x) as Hx by (apply (block_ok block key); by apply is_block_zip).
    assert (blen x = 16) as Hx16 by (unfold blen; destruct Hx as [_ ->]; done).
    pose proof (xor_words_run m output Hout a iv c done v 16 Hiv Hc Hm) as Hxor.
    rewrite Hp1 in Hxor. destruct Hc as [Hcb Hcl]. rewrite (take_ge c) in Hxor by lia.
    erewrite bind_ok by (apply Hxor; lia || done).
    erewrite bind_ok by (apply call_block_inplace; unfold blen in *; rewrite ?length_zip_with; fold x; lia).
    fold x. replace (output + blen done + 16) with (output + blen (done ++ x)) by (rewrite blen_app; lia).
    destruct (IH fuel (Mem (output + blen done)) x (done ++ x) (a + 16) (len - 16) v) as (iv' & Hr & Hiv' & Hne);
      [by exists done|done|done|rewrite ?blen_app; cbn in Hf |- *; lia || done..|].
    rewrite Hr. exists iv'. unfold cs. cbn [cbc_ref concat]. fold x. rewrite last_or_cons, <-app_assoc in *.
    split; [|split; [done|by intros [[=] _]%Hne]]. replace (a + 16 + 16 * blen segs) with (a + (16 + 16 * blen segs)) by lia.
    by replace (len - 16 - 16 * blen segs) with (len - (16 + 16 * blen segs)) by lia.
Qed.

(** The last segment, completed with the bytes at [iv]. *)
Lemma cbc_encrypt_tail_run fuel iv c done a t v :
  iv_holds output iv c done v -> is_block c -> bytes t -> (length t < 16)%nat -> (0 < fuel)%nat ->
  0 <= a -> a + blen t <= blen m -> slice a (blen t) m = t ->
  output + blen done + 16 * blen (pad_zeros t) <= blen m ->
  output + blen done <= a \/ a + blen t <= output ->
  let cs := cbc_ref c (pad_zeros t) in
  exists iv', cbc_encrypt_tail block key fuel iv a (output + blen done) (blen t) (cur done v) =
      (Some iv', cur (done ++ concat cs) v) /\
    iv_holds output iv' (last_or c cs) (done ++ concat cs) v /\ (iv' = Ivec -> iv = Ivec /\ t = []).
Proof.
  intros Hiv Hc Ht Hl Hf Ha Ham Hsl Hom Hsafe cs. destruct fuel as [|fuel]; [lia|]. cbn [cbc_encrypt_tail].
  destruct t as [|b t].
  { exists iv. unfold cs. cbn [pad_zeros cbc_ref concat]. by rewrite app_nil_r. }
  set (t' := b :: t) in *. assert (blen (pad_zeros t') = 1) as Hpad by done. rewrite Hpad in Hom.
  assert (0 < blen t' < 16) as Hlt by (unfold blen; cbn [length t'] in *; lia).
  rewrite (proj2 (Z.eqb_neq _ _)), Z.min_r, (proj2 (Z.leb_le _ _)) by lia.
  pose proof (xor_bytes m output Hout a iv c done v (blen t') Hiv Hc) as Hxor. rewrite Hsl in Hxor.
  set (z := zip_with Z.lxor t' (take (Z.to_nat (blen t')) c)) in *.
  destruct Hc as [Hcb Hcl].
  assert (blen z = blen t') as Hz by (unfold z, blen in *; rewrite length_zip_with, length_take; lia).
  erewrite bind_ok by (apply Hxor; lia).
  set (k := Z.to_nat (blen t')) in *.
  assert (for_step (16 - k) (Z.of_nat k) 1 (fun n => b ← load_byte iv n; store (Mem (output + blen done)) n [b])
    (cur (done ++ z) v) = (Some tt, cur (done ++ z ++ drop k c) v)) as Hrest.
  { pose (st := fun j => cur (done ++ z ++ take j (drop k c)) v).
    replace (cur (done ++ z) v) with (st 0%nat) by (unfold st; by rewrite take_0, app_nil_r).
    replace (cur (done ++ z ++ drop k c) v) with (st (16 - k)%nat) by (unfold st; by rewrite take_ge by (rewrite length_drop; lia)).
    apply (for_step_run _ st). intros j Hj. unfold st. rewrite Z.mul_1_r. unfold load_byte.
    set (n := Z.of_nat k + Z.of_nat j).
    assert (blen (z ++ take j (drop k c)) = n) as Hn.
    { unfold n, k, blen in *. rewrite length_app, length_take, length_drop. lia. }
    assert (blen c = 16) as Hc16 by (unfold blen; lia).
    erewrite bind_ok.
    2:{ erewrite bind_ok; [reflexivity|]. apply (iv_load m output Hout iv c done v); [done|lia|lia|lia|lia]. }
    rewrite slice_one by lia. cbn [nth].
    rewrite out_store by (rewrite ?Hn, ?blen_singleton; lia || done).
    rewrite <-!app_assoc. do 5 f_equal.
    destruct (lookup_lt_is_Some_2 (drop k c) j) as [x Hx]; [rewrite length_drop; lia|].
    rewrite (take_S_r _ _ x) by done. do 2 f_equal. rewrite lookup_drop in Hx.
    replace (Z.to_nat n) with (k + j)%nat by lia. by apply nth_lookup_Some. }
  erewrite bind_ok by exact Hrest.
  assert (z ++ drop k c = zip_with Z.lxor (t' ++ replicate (16 - length t') 0) c) as Hzc.
  { rewrite <-(take_drop k c) at 2. rewrite zip_with_app by (rewrite length_take; unfold k, blen in *; lia).
    fold z. f_equal. assert (forall l n, length l = n -> zip_with Z.lxor (replicate n 0) l = l) as Hzero.
    { clear. intros l. induction l as [|x l IH]; intros [|n]; simpl; try done. intros [= Hl]. by rewrite IH. }
    symmetry. apply Hzero. rewrite length_drop. unfold k, blen. lia. }
  assert (is_block (zip_with Z.lxor (t' ++ replicate (16 - length t') 0) c)) as Hzb.
  { apply is_block_zip; [|done]. split; [apply bytes_app; split; [done|apply bytes_replicate, in_word_0; lia]|].
    rewrite length_app, length_replicate. unfold blen in *. lia. }
  rewrite Hzc. set (zc := zip_with Z.lxor (t' ++ _) c) in *.
  pose proof (block_ok block key _ Hzb) as [_ Hx].
  erewrite bind_ok by (apply call_block_inplace; try done; destruct Hzb as [_ Hzl]; unfold blen in *; lia).
  exists (Mem (output + blen done)). unfold cs. cbn [pad_zeros cbc_ref concat t']. fold t' zc. rewrite app_nil_r.
  split; [done|]. split; [by exists done|done].
Qed.

Lemma memcpy_ivec_run a c d v : is_block c -> is_block v -> a = output + blen d -> output + blen d + 16 <= blen m ->
  memcpy_ivec (Mem a) (cur (d ++ c) v) = (Some tt, cur (d ++ c) c).
Proof.
  intros [_ Hc] [_ Hv] -> Hd. assert (blen c = 16) as Hcl by (unfold blen; lia). unfold memcpy_ivec.
  pose proof (iv_load m output Hout (Mem (output + blen d)) c (d ++ c) v [] 0 16) as Hl. rewrite app_nil_r in Hl.
  erewrite bind_ok by (apply Hl; [by exists d|lia|lia|lia|rewrite blen_app; change (blen (@nil Z)) with 0; lia]).
  rewrite slice_full by (done || lia). rewrite store_ivec_run by (unfold blen in *; lia).
  assert (write_at 0 c v = c) as ->; [|done].
  unfold write_at. by rewrite drop_ge, app_nil_r by (unfold blen in *; lia).
Qed.

(** A whole call. *)
Lemma cbc_encrypt_run segs t v a :
  Forall is_block segs -> bytes t -> (length t < 16)%nat -> is_block v ->
  0 <= a -> a + blen (concat segs ++ t) <= blen m -> slice a (blen (concat segs ++ t)) m = concat segs ++ t ->
  let cs := cbc_ref v (segs ++ pad_zeros t) in
  output + blen (concat cs) <= blen m ->
  output <= a \/ a + blen (concat segs ++ t) <= output ->
  CRYPTO_cbc128_encrypt block key a output (blen (concat segs ++ t)) (Cbc m v) =
    (Some tt, Cbc (write_at output (concat cs) m) (last_or v cs)).
Proof.
  intros Hs Ht Htl Hv Ha Ham Hsl cs Hom Hsafe. unfold CRYPTO_cbc128_encrypt.
  assert (Forall is_block (segs ++ pad_zeros t)) as Hall by (apply Forall_app; split; [done|by apply pad_zeros_blocks]).
  pose proof (cbc_ref_blocks _ _ Hv Hall) as Hcs. fold cs in Hcs. rewrite (blen_concat _ Hcs) in Hom.
  assert (blen cs = blen segs + blen (pad_zeros t)) as Hlcs.
  { unfold cs, blen. rewrite length_cbc_ref, length_app. lia. }
  rewrite blen_app, (blen_concat _ Hs) in *. pose proof (blen_nonneg segs). pose proof (blen_nonneg (pad_zeros t)).
  assert (write_at output [] m = m) as Hm0.
  { unfold write_at. cbn [app]. change (blen []) with 0. by rewrite Z.add_0_r, take_drop. }
  destruct (Z.eqb_spec (16 * blen segs + blen t) 0) as [Hz|Hz].
  { pose proof (blen_nonneg t). assert (segs = []) as -> by (apply blen_inv_nil; lia).
    assert (t = []) as -> by (apply blen_inv_nil; lia). unfold cs. cbn [app pad_zeros cbc_ref concat].
    by rewrite Hm0. }
  set (fuel := S (Z.to_nat (16 * blen segs + blen t))). pose proof (blen_nonneg t). rewrite <-Hm0 at 1.
  destruct (first_part a (16 * blen segs) (blen t) (concat segs) t m) as [Hs1 Hs2];
    [lia|lia|apply blen_nonneg|by apply blen_concat|lia|done|].
  pose proof (cbc_encrypt_blocks_run segs fuel Ivec v [] a (16 * blen segs + blen t) v) as Hblocks.
  cbv zeta in Hblocks. rewrite app_nil_l in Hblocks. change (blen []) with 0 in Hblocks. rewrite Z.add_0_r in Hblocks.
  destruct Hblocks as (iv & Hr & Hiv & Hne); [done|done|done|lia|lia|done|unfold blen in *; lia|unfold fuel, blen in *; lia|lia|lia|].
  erewrite bind_ok by exact Hr. cbv beta iota.
  set (done := concat (cbc_ref v segs)) in *.
  assert (Forall is_block (cbc_ref v segs)) as Hb1 by (by apply cbc_ref_blocks).
  assert (blen done = 16 * blen segs) as Hdl by (unfold done; rewrite blen_concat by done; unfold blen; by rewrite length_cbc_ref).
  replace (16 * blen segs + blen t - 16 * blen segs) with (blen t) by lia.
  destruct (cbc_encrypt_tail_run fuel iv (last_or v (cbc_ref v segs)) done (a + 16 * blen segs) t v) as (iv' & Hr' & Hiv' & Hne');
    [done|by apply last_or_block|done|done|unfold fuel; lia|lia|lia|done|lia|lia|].
  erewrite bind_ok by exact Hr'. unfold cs in *. rewrite cbc_ref_app, concat_app, last_or_app. fold done.
  set (cs' := cbc_ref (last_or v (cbc_ref v segs)) (pad_zeros t)) in *.
  assert (is_block (last_or (last_or v (cbc_ref v segs)) cs')) as Hlast.
  { unfold cs'. rewrite <-last_or_app, <-cbc_ref_app. by apply last_or_block. }
  destruct iv' as [|b].
  - destruct (Hne' eq_refl) as [Hi ->]. destruct (Hne Hi) as [_ ->]. by destruct Hz.
  - destruct Hiv' as (d & Hd & ->). rewrite Hd. apply memcpy_ivec_run; [done|done|done|].
    assert (blen (done ++ concat cs') = blen (d ++ last_or (last_or v (cbc_ref v segs)) cs')) as Hlen by (by rewrite Hd).
    rewrite !blen_app in Hlen. destruct Hlast as [_ Hlast]. unfold blen in Hlen at 4. rewrite Hlast in Hlen.
    assert (blen (concat cs') = 16 * blen (pad_zeros t)) as Hcl.
    { unfold cs'. rewrite blen_concat; [unfold blen; by rewrite length_cbc_ref|]. apply cbc_ref_blocks; [by apply last_or_block|].
      by apply Forall_app in Hall as [_ Hall]. }
    lia.
Qed.
End Encrypt.

Section Decrypt.
Context (m : list Z) (output : Z) (Hout : 0 <= output) (Hm : bytes m).

Abbreviation cur done v := (Cbc (write_at output done m) v).

Lemma cbc_dec_ref_app iv l k : cbc_dec_ref iv (l ++ k) = cbc_dec_ref iv l ++ cbc_dec_ref (last_or iv l) k.
Proof.
  revert iv. induction l as [|p l IH]; intros iv; [done|]. cbn [app cbc_dec_ref]. rewrite IH.
  by rewrite last_or_cons.
Qed.

Lemma cbc_dec_ref_blocks iv l : is_block iv -> Forall is_block l -> Forall is_block (cbc_dec_ref iv l).
Proof.
  intros Hiv Hl. revert iv Hiv. induction Hl as [|p l Hp Hl IH]; intros iv Hiv; [constructor|].
  constructor; [|by apply IH]. apply is_block_zip; [by apply (block_ok block key)|done].
Qed.

Lemma length_cbc_dec_ref iv l : length (cbc_dec_ref iv l) = length l.
Proof. revert iv. induction l as [|p l IH]; intros iv; [done|]. cbn. by rewrite IH. Qed.

Lemma blen_block x : is_block x -> blen x = 16.
Proof. unfold blen. by intros [_ ->]. Qed.

(** The output is clear of the input. *)
Lemma cbc_decrypt_blocks_run segs : forall fuel iv c done a len v,
  iv_clear m output iv c done v -> is_block c -> Forall is_block segs ->
  0 <= a -> a + 16 * blen segs <= blen m -> slice a (16 * blen segs) m = concat segs ->
  16 * blen segs <= len < 16 * blen segs + 16 -> (length segs < fuel)%nat ->
  output + blen done + 16 * blen segs <= blen m ->
  output + blen done + 32 <= a \/ a + 16 * blen segs <= output ->
  exists iv', cbc_decrypt_blocks block key fuel iv a (output + blen done) len (cur done v) =
      (Some (iv', a + 16 * blen segs, output + blen done + 16 * blen segs, len - 16 * blen segs),
       cur (done ++ concat (cbc_dec_ref c segs)) v) /\
    iv_clear m output iv' (last_or c segs) (done ++ concat (cbc_dec_ref c segs)) v /\ (iv' = Ivec -> iv = Ivec /\ segs = []).
Proof.
  induction segs as [|p segs IH]; intros fuel iv c done a len v Hiv Hc Hs Ha Ham Hsl Hlen Hf Hom Hsafe;
    destruct fuel as [|fuel]; try (cbn in Hf; lia); cbn [cbc_decrypt_blocks].
  - rewrite (proj2 (Z.ltb_lt len 16)) by (change (blen []) with 0 in *; lia). exists iv. cbn [cbc_dec_ref concat].
    rewrite app_nil_r. change (blen []) with 0. split; [|done]. by rewrite Z.mul_0_r, !Z.add_0_r, Z.sub_0_r.
  - rewrite blen_cons in *. pose proof (blen_nonneg segs). pose proof (blen_nonneg done).
    rewrite (proj2 (Z.ltb_ge len 16)) by lia. apply Forall_cons in Hs as [Hp Hs].
    replace (16 * (1 + blen segs)) with (16 + 16 * blen segs) in * by lia.
    destruct (first_part a 16 (16 * blen segs) p (concat segs) m) as [Hp1 Hsl1]; [lia..|by apply blen_block|lia|done|].
    pose proof (block_ok block key p Hp) as Hx. pose proof (blen_block _ Hx) as Hxl.
    assert (load (Mem a) 0 16 (cur done v) = (Some p, cur done v)) as Hload by (rewrite input_load by lia; by rewrite Z.add_0_r, Hp1).
    erewrite bind_ok by (apply (call_block_run m output Hout block key (Mem a) done v p); done || lia).
    erewrite bind_ok by (apply (clear_words m output Hout iv c); done || lia).
    set (x := zip_with Z.lxor (block p key) c).
    assert (blen x = 16) as Hx16 by (apply blen_block, is_block_zip; done).
    replace (output + blen done + 16) with (output + blen (done ++ x)) by (rewrite blen_app; lia).
    destruct (IH fuel (Mem a) p (done ++ x) (a + 16) (len - 16) v) as (iv' & Hr & Hiv' & Hne);
      [split; [lia|split; [lia|split; [done|rewrite ?blen_app; lia]]]|done|done|rewrite ?blen_app; cbn in Hf |- *; lia || done..|].
    rewrite Hr. exists iv'. cbn [cbc_dec_ref concat]. fold x. rewrite last_or_cons, <-app_assoc in *.
    split; [|split; [done|by intros [[=] _]%Hne]]. rewrite blen_app.
    replace (a + 16 + 16 * blen segs) with (a + (16 + 16 * blen segs)) by lia.
    replace (output + (blen done + blen x) + 16 * blen segs) with (output + blen done + (16 + 16 * blen segs)) by lia.
    by replace (len - 16 - 16 * blen segs) with (len - (16 + 16 * blen segs)) by lia.
Qed.

(** Through the temporary block. *)
Lemma cbc_decrypt_tmp_run segs : forall fuel c done a len,
  is_block c -> Forall is_block segs ->
  0 <= a -> a + 16 * blen segs <= blen m -> slice a (16 * blen segs) m = concat segs ->
  16 * blen segs <= len < 16 * blen segs + 16 -> (length segs < fuel)%nat ->
  output + blen done + 16 * blen segs <= blen m ->
  output + blen done <= a \/ a + 16 * blen segs <= output ->
  cbc_decrypt_tmp block key fuel a (output + blen done) len (cur done c) =
    (Some (a + 16 * blen segs, output + blen done + 16 * blen segs, len - 16 * blen segs),
     cur (done ++ concat (cbc_dec_ref c segs)) (last_or c segs)).
Proof.
  induction segs as [|p segs IH]; intros fuel c done a len Hc Hs Ha Ham Hsl Hlen Hf Hom Hsafe;
    destruct fuel as [|fuel]; try (cbn in Hf; lia); cbn [cbc_decrypt_tmp].
  - rewrite (proj2 (Z.ltb_lt len 16)) by (change (blen []) with 0 in *; lia). cbn [cbc_dec_ref concat].
    rewrite app_nil_r. change (blen []) with 0. by rewrite Z.mul_0_r, !Z.add_0_r, Z.sub_0_r.
  - rewrite blen_cons in *. pose proof (blen_nonneg segs). pose proof (blen_nonneg done).
    rewrite (proj2 (Z.ltb_ge len 16)) by lia. apply Forall_cons in Hs as [Hp Hs].
    replace (16 * (1 + blen segs)) with (16 + 16 * blen segs) in * by lia.
    destruct (first_part a 16 (16 * blen segs) p (concat segs) m) as [Hp1 Hsl1]; [lia..|by apply blen_block|lia|done|].
    pose proof (block_ok block key p Hp) as Hx.
    erewrite bind_ok by (apply input_load; lia). rewrite Z.add_0_r, Hp1.
    erewrite bind_ok by (apply (tmp_words m output Hout a _ c done 16); done || lia). rewrite Hp1.
    set (x := zip_with Z.lxor (block p key) c).
    assert (blen x = 16) as Hx16 by (apply blen_block, is_block_zip; done).
    replace (output + blen done + 16) with (output + blen (done ++ x)) by (rewrite blen_app; lia).
    rewrite (IH fuel p (done ++ x) (a + 16) (len - 16)) by (rewrite ?blen_app; cbn in Hf |- *; lia || done).
    cbn [cbc_dec_ref concat]. fold x. rewrite last_or_cons, <-app_assoc, blen_app.
    replace (a + 16 + 16 * blen segs) with (a + (16 + 16 * blen segs)) by lia.
    replace (output + (blen done + blen x) + 16 * blen segs) with (output + blen done + (16 + 16 * blen segs)) by lia.
    by replace (len - 16 - 16 * blen segs) with (len - (16 + 16 * blen segs)) by lia.
Qed.

Lemma cbc_decrypt_tail_run fuel c done a p len :
  is_block c -> is_block p -> (0 < fuel)%nat -> 0 < len < 16 ->
  0 <= a -> a + 16 <= blen m -> slice a 16 m = p -> output + blen done + len <= blen m ->
  output + blen done <= a \/ a + 16 <= output ->
  cbc_decrypt_tail block key fuel a (output + blen done) len (cur done c) =
    (Some tt, cur (done ++ take (Z.to_nat len) (zip_with Z.lxor (block p key) c)) p).
Proof.
  intros Hc Hp Hf Hlen Ha Ham Hsl Hom Hsafe. destruct fuel as [|fuel]; [lia|]. cbn [cbc_decrypt_tail].
  pose proof (blen_nonneg done). pose proof (block_ok block key p Hp) as Hx.
  rewrite (proj2 (Z.eqb_neq _ _)), Z.min_r, (proj2 (Z.leb_le _ _)) by lia.
  erewrite bind_ok by (apply input_load; lia). rewrite Z.add_0_r, Hsl.
  erewrite bind_ok by (apply (tmp_bytes m output Hout a _ c done len); done || lia).
  rewrite (tmp_rest m output Hout a (block p key) c done len Hx Hc) by (done || lia).
  rewrite Hsl. assert (zip_with Z.lxor (take (Z.to_nat len) (block p key)) c =
    take (Z.to_nat len) (zip_with Z.lxor (block p key) c)) as ->; [|done].
  rewrite <-(take_ge (zip_with Z.lxor (take _ _) c) (Z.to_nat len)).
  - by rewrite !zip_with_take, take_take, Nat.min_id.
  - rewrite length_zip_with, length_take. lia.
Qed.

Definition clear_of (a : Z) : bool := ((32 <=? a) && (output <=? a - 32)) || (a <? output).

(** The whole blocks, in either branch. *)
Lemma cbc_decrypt_whole segs v a len :
  is_block v -> Forall is_block segs ->
  0 <= a -> a + 16 * blen segs <= blen m -> slice a (16 * blen segs) m = concat segs ->
  16 * blen segs <= len < 16 * blen segs + 16 -> output + 16 * blen segs <= blen m ->
  output <= a \/ a + 16 * blen segs <= output ->
  (if clear_of a then
     '(iv, input, output, len) ← cbc_decrypt_blocks block key (S (Z.to_nat len)) Ivec a output len;
     _ ← memcpy_ivec iv;
     mret (input, output, len)
   else cbc_decrypt_tmp block key (S (Z.to_nat len)) a output len) (cur [] v) =
  if clear_of a && (blen segs =? 0) then (None, cur [] v)
  else (Some (a + 16 * blen segs, output + 16 * blen segs, len - 16 * blen segs),
        cur (concat (cbc_dec_ref v segs)) (last_or v segs)).
Proof.
  intros Hv Hs Ha Ham Hsl Hlen Hom Hsafe. pose proof (blen_nonneg segs).
  assert (length segs < S (Z.to_nat len))%nat as Hf by (unfold blen in *; lia).
  destruct (clear_of a) eqn:Hclear; cbn [andb].
  - assert (output + 32 <= a \/ a + 16 * blen segs <= output) as Hc.
    { unfold clear_of in Hclear. apply orb_true_iff in Hclear as [[_ Hc]%andb_true_iff|Hc%Z.ltb_lt]; [|lia].
      apply Z.leb_le in Hc. lia. }
    pose proof (cbc_decrypt_blocks_run segs (S (Z.to_nat len)) Ivec v [] a len v) as Hr.
    change (blen []) with 0 in Hr. rewrite Z.add_0_r in Hr.
    destruct Hr as (iv & Hr & Hiv & Hne); [done|done|done|lia|lia|done|done|done|lia|lia|].
    erewrite bind_ok by exact Hr. cbn beta iota. cbn [app] in *. destruct iv as [|b].
    + destruct (Hne eq_refl) as [_ ->]. done.
    + assert (segs <> []) as Hsne.
      { intros ->. cbn in Hr. rewrite (proj2 (Z.ltb_lt len 16)) in Hr by (rewrite (@blen_nil (list Z)) in Hlen; lia). by apply ret_Some in Hr as [[=] _]. }
      destruct (Z.eqb_spec (blen segs) 0) as [Hz|Hz]; [by apply blen_inv_nil in Hz|].
      destruct Hiv as (Hb & Hbm & Hbs & Hbo). unfold memcpy_ivec.
      set (done := concat (cbc_dec_ref v segs)) in *.
      assert (blen done = 16 * blen segs) as Hdl.
      { unfold done. rewrite blen_concat by (by apply cbc_dec_ref_blocks). unfold blen. by rewrite length_cbc_dec_ref. }
      pose proof (blen_block _ Hv) as Hvl.
      pose proof (blen_block _ (last_or_block v segs Hv Hs)) as Hll.
      erewrite bind_ok; [reflexivity|].
      erewrite bind_ok by (apply input_load; lia). rewrite Z.add_0_r, Hbs.
      rewrite store_ivec_run by lia. unfold write_at at 2.
      by rewrite (drop_ge v), app_nil_r by (unfold blen in *; lia).
  - pose proof (cbc_decrypt_tmp_run segs (S (Z.to_nat len)) v [] a len) as Hr.
    change (blen []) with 0 in Hr. rewrite Z.add_0_r in Hr. cbn [app] in Hr. apply Hr; done || lia.
Qed.
End Decrypt.
End CbcRef.

(** Decryption of the blocks with the inverse cipher. *)
Lemma cbc_dec_ref_inverse {AES_KEY} (block inverse : list Z -> AES_KEY -> list Z) key {BC : BlockCipher block key} :
  (forall x, is_block x -> inverse (block x key) key = x) -> forall blocks iv,
  is_block iv -> Forall is_block blocks ->
  cbc_dec_ref inverse key iv (cbc_ref block key iv blocks) = blocks.
Proof.
  intros Hinv. induction blocks as [|p l IH]; intros iv Hiv Hl; [done|]. apply Forall_cons in Hl as [Hp Hl].
  cbn [cbc_ref cbc_dec_ref]. pose proof (is_block_zip p iv Hp Hiv) as Hz. rewrite Hinv by done.
  rewrite IH by (done || by apply (block_ok block key)). f_equal.
  destruct Hp as [_ Hp], Hiv as [_ Hiv]. rewrite <-Hiv in Hp. clear -Hp. revert iv Hp.
  induction p as [|x p IH]; intros [|y iv] Hl; try done. cbn in *. rewrite IH by lia.
  by rewrite Z.lxor_assoc, Z.lxor_nilpotent, Z.lxor_0_r.
Qed.

(** A whole call. *)
Lemma cbc_decrypt_run {AES_KEY} (block : list Z -> AES_KEY -> list Z) key {BC : BlockCipher block key}
    m iv cs input output len :
  is_block iv -> Forall is_block cs -> bytes m ->
  0 <= output -> 0 <= input -> input + 16 * blen cs <= blen m ->
  slice input (16 * blen cs) m = concat cs ->
  0 <= len -> 16 * blen cs - 16 < len <= 16 * blen cs -> output + len <= blen m ->
  output <= input \/ input + 16 * blen cs <= output ->
  CRYPTO_cbc128_decrypt block key input output len (Cbc m iv) =
  if clear_of output input && (0 <? len) && (len <? 16) then (None, Cbc m iv)
  else (Some tt, Cbc (write_at output (take (Z.to_nat len) (concat (cbc_dec_ref block key iv cs))) m) (last_or iv cs)).
Proof.
  intros Hiv Hcs Hm Hout Hin Him Hsl Hl0 Hlen Hom Hsafe. unfold CRYPTO_cbc128_decrypt.
  assert (write_at output [] m = m) as Hm0.
  { unfold write_at. cbn [app]. change (blen []) with 0. by rewrite Z.add_0_r, take_drop. }
  pose proof (blen_nonneg cs).
  destruct (Z.eqb_spec len 0) as [-> |Hz].
  { assert (cs = []) as -> by (apply blen_inv_nil; lia).
    change (0 <? 0) with false. rewrite andb_false_r. cbn [andb cbc_dec_ref concat]. rewrite take_nil, Hm0. done. }
  rewrite (proj2 (Z.ltb_lt 0 len)), andb_true_r by lia.
  fold (clear_of output input).
  destruct (decide (len = 16 * blen cs)) as [Hfull|Hpart].
  - pose proof (cbc_decrypt_whole block key m output Hout Hm cs iv input len) as Hw. rewrite Hm0 in Hw.
    rewrite (proj2 (Z.eqb_neq (blen cs) 0)), andb_false_r in Hw by lia.
    erewrite bind_ok by (apply Hw; done || lia). rewrite (proj2 (Z.ltb_ge len 16)), andb_false_r by lia.
    cbn beta iota. rewrite Hfull, Z.sub_diag. cbn [cbc_decrypt_tail Z.eqb]. unfold mret, M_ret.
    assert (blen (concat (cbc_dec_ref block key iv cs)) = 16 * blen cs) as Hdl.
    { rewrite blen_concat by (by apply cbc_dec_ref_blocks). unfold blen. by rewrite length_cbc_dec_ref. }
    by rewrite take_ge by (unfold blen in *; lia).
  - destruct cs as [|p segs _] using rev_ind; [rewrite (@blen_nil (list Z)) in *; lia|].
    rewrite blen_app, blen_singleton in *. pose proof (blen_nonneg segs). rewrite concat_app in Hsl. cbn [concat] in Hsl.
    rewrite app_nil_r in Hsl. apply Forall_app in Hcs as [Hs Hp]. rewrite Forall_singleton in Hp.
    replace (16 * (blen segs + 1)) with (16 * blen segs + 16) in * by lia.
    destruct (first_part input (16 * blen segs) 16 (concat segs) p m) as [Hs1 Hs2]; [lia..|by apply blen_concat|lia|done|].
    pose proof (cbc_decrypt_whole block key m output Hout Hm segs iv input len) as Hw. rewrite Hm0 in Hw.
    replace (len <? 16) with (blen segs =? 0) by (apply eq_true_iff_eq; rewrite Z.eqb_eq, Z.ltb_lt; lia).
    destruct (clear_of output input && (blen segs =? 0)).
    + erewrite bind_err by (apply Hw; done || lia). done.
    + erewrite bind_ok by (apply Hw; done || lia). cbn beta iota.
      set (done := concat (cbc_dec_ref block key iv segs)).
      assert (blen done = 16 * blen segs) as Hdl.
      { unfold done. rewrite blen_concat by (by apply cbc_dec_ref_blocks). unfold blen. by rewrite length_cbc_dec_ref. }
      rewrite <-Hdl. pose proof (cbc_decrypt_tail_run block key m output Hout (S (Z.to_nat len)) (last_or iv segs)
        done (input + 16 * blen segs) p (len - 16 * blen segs)) as Ht. rewrite Hdl in *.
      rewrite Ht by (done || lia || by apply last_or_block).
      rewrite cbc_dec_ref_app, concat_app, last_or_app. cbn [cbc_dec_ref concat]. fold done. rewrite app_nil_r.
      rewrite take_app_ge by (unfold blen in *; lia). unfold last_or at 2. cbn. do 6 f_equal. unfold blen in *. lia.
Qed.

(** C28: Decryption with CBC in one memory, where the output starts at or before
    the input, or at or after the end of the last whole block that is read; for a
    whole number of blocks that is what cbc.c asserts. Of the cipher text's blocks
    [cs] (the last of them may be asked for in part) the bytes written are those
    of the mode of NIST SP 800-38A, [ivec] is left as the last block of the cipher
    text although that may be overwritten by then, and both branches of the
    code agree. The one exception: less than a block, with the output clear of
    the input, runs into a [memcpy] of [ivec] to itself, which is undefined. *)
Theorem cbc_decrypt_overlap {AES_KEY} (block : list Z -> AES_KEY -> list Z) key {BC : BlockCipher block key}
    m iv cs input output len :
  is_block iv -> Forall is_block cs -> bytes m ->
  0 <= output -> 0 <= input -> input + 16 * blen cs <= blen m ->
  slice input (16 * blen cs) m = concat cs ->
  0 <= len -> 16 * blen cs - 16 < len <= 16 * blen cs -> output + len <= blen m ->
  output <= input \/ input + 16 * blen cs <= output ->
  CRYPTO_cbc128_decrypt block key input output len (Cbc m iv) =
  if clear_of output input && (0 <? len) && (len <? 16) then (None, Cbc m iv)
  else (Some tt, Cbc (write_at output (take (Z.to_nat len) (concat (cbc_dec_ref block key iv cs))) m) (last_or iv cs)).
Proof. by apply cbc_decrypt_run. Qed.

(** Three blocks decrypted in place, the last one in part, and the undefined
    case: five bytes into a clear buffer. *)
Lemma cbc_decrypt_overlap_witness :
  let m := seqZ 0 96 in
  let iv := seqZ 200 16 in
  let cs := [seqZ 4 16; seqZ 20 16; seqZ 36 16] in
  CRYPTO_cbc128_decrypt toy_inverse 0x5a 4 0 41 (Cbc m iv) =
    (Some tt, Cbc (write_at 0 (take 41 (concat (cbc_dec_ref toy_inverse 0x5a iv cs))) m) (seqZ 36 16)) /\
  CRYPTO_cbc128_decrypt toy_inverse 0x5a 4 50 5 (Cbc m iv) = (None, Cbc m iv).
Proof.
  assert (bytes (seqZ 0 96)) as Hm by (apply (bool_decide_unpack _); vm_compute; done).
  split.
  - refine (cbc_decrypt_overlap toy_inverse 0x5a (seqZ 0 96) (seqZ 200 16) [seqZ 4 16; seqZ 20 16; seqZ 36 16]
      4 0 41 _ _ Hm _ _ _ _ _ _ _ _); try (vm_compute; intuition congruence);
      apply (bool_decide_unpack _); vm_compute; done.
  - refine (cbc_decrypt_overlap toy_inverse 0x5a (seqZ 0 96) (seqZ 200 16) [seqZ 4 16]
      4 50 5 _ _ Hm _ _ _ _ _ _ _ _); try (vm_compute; intuition congruence);
      apply (bool_decide_unpack _); vm_compute; done.
Defined.

(** The assertion of cbc.c also admits an output that starts between the end of
    the [len] bytes and the end of the last block read. Seventeen bytes from 4 to
    21: the first block written overwrites the end of the second block read, and
    the byte after it is decrypted to something else than from a clear input. *)
Example cbc_decrypt_assert_too_weak :
  let m := seqZ 0 96 in
  let iv := seqZ 200 16 in
  let cs := [seqZ 4 16; seqZ 20 16] in
  slice 4 32 m = concat cs /\ 4 + 17 <= 21 /\
  exists m' iv', CRYPTO_cbc128_decrypt toy_inverse 0x5a 4 21 17 (Cbc m iv) = (Some tt, Cbc m' iv') /\
    m' <> write_at 21 (take 17 (concat (cbc_dec_ref toy_inverse 0x5a iv cs))) m.
Proof.
  cbv zeta. split; [vm_compute; reflexivity|]. split; [lia|].
  eexists _, _. split; [vm_compute; reflexivity|]. vm_compute. discriminate.
Qed.

(** C27: Encryption with CBC in one memory, and decryption of the result. The
    input may overlap the output if it starts at it or after it. The blocks
    written are those of the mode of NIST SP 800-38A, a short last segment
    being completed with zeros (so up to fifteen bytes more than [len] are
    written), [ivec] becomes the last block, and decryption with the inverse
    cipher, to any place that does not overtake the cipher text, gives the
    message back and the same [ivec]. *)
Theorem cbc_roundtrip {AES_KEY} (block inverse : list Z -> AES_KEY -> list Z) key
    {BC : BlockCipher block key} {BI : BlockCipher inverse key} m iv segs t input output dst :
  (forall x, is_block x -> inverse (block x key) key = x) ->
  is_block iv -> Forall is_block segs -> bytes t -> (length t < 16)%nat -> bytes m ->
  0 <= output -> 0 <= input -> input + blen (concat segs ++ t) <= blen m ->
  slice input (blen (concat segs ++ t)) m = concat segs ++ t ->
  let cs := cbc_ref block key iv (segs ++ pad_zeros t) in
  let m' := write_at output (concat cs) m in
  output + blen (concat cs) <= blen m ->
  output <= input \/ input + blen (concat segs ++ t) <= output ->
  CRYPTO_cbc128_encrypt block key input output (blen (concat segs ++ t)) (Cbc m iv) =
    (Some tt, Cbc m' (last_or iv cs)) /\
  (0 <= dst -> dst + blen (concat segs ++ t) <= blen m ->
   dst <= output \/ output + blen (concat cs) <= dst ->
   clear_of dst output = false \/ segs <> [] ->
   CRYPTO_cbc128_decrypt inverse key output dst (blen (concat segs ++ t)) (Cbc m' iv) =
     (Some tt, Cbc (write_at dst (concat segs ++ t) m') (last_or iv cs))).
Proof.
  intros Hinv Hiv Hs Ht Htl Hm Hout Hin Him Hsl cs m' Hom Hsafe.
  split; [by apply cbc_encrypt_run|]. intros Hd Hdm Hdst Hclear.
  pose proof (pad_zeros_blocks t Ht Htl) as Hpad.
  assert (Forall is_block (segs ++ pad_zeros t)) as Hall by (by apply Forall_app).
  assert (Forall is_block cs) as Hcs by (by apply cbc_ref_blocks).
  pose proof (blen_nonneg t) as Ht0. pose proof (blen_nonneg segs).
  assert (blen cs = blen segs + blen (pad_zeros t)) as Hlcs by (unfold cs, blen; rewrite length_cbc_ref, length_app; lia).
  assert (blen (concat segs ++ t) = 16 * blen segs + blen t) as Hlen by (by rewrite blen_app, blen_concat).
  assert (16 * blen (pad_zeros t) - 16 < blen t <= 16 * blen (pad_zeros t)) as Hpl.
  { destruct t as [|b t]; [by vm_compute|]. change (blen (pad_zeros (b :: t))) with 1. unfold blen in *. cbn in *. lia. }
  rewrite blen_concat in Hom, Hdst by done.
  assert (blen m' = blen m) as Hm' by (apply blen_write_at; [done|rewrite blen_concat by done; lia]).
  assert (bytes m') as Hbm.
  { apply bytes_app. split; [auto with words|]. apply bytes_app. split; [|auto with words].
    apply Forall_concat. eapply Forall_impl; [exact Hcs|]. by intros x [??]. }
  assert (slice output (16 * blen cs) m' = concat cs) as Hsl'.
  { unfold m'. replace output with (output + 0) at 1 by lia.
    rewrite slice_write_in by (rewrite ?blen_concat by done; lia). by rewrite slice_full by (rewrite ?blen_concat by done; lia). }
  rewrite (cbc_decrypt_run inverse key m' iv cs output dst) by (done || lia).
  assert (cbc_dec_ref inverse key iv cs = segs ++ pad_zeros t) as -> by (by apply cbc_dec_ref_inverse).
  assert (take (Z.to_nat (blen (concat segs ++ t))) (concat (segs ++ pad_zeros t)) = concat segs ++ t) as ->.
  { rewrite to_nat_blen, concat_app. destruct t as [|b t]; [cbn [pad_zeros concat]; by rewrite !app_nil_r, take_ge|].
    cbn [pad_zeros concat]. rewrite app_nil_r, app_assoc. by apply take_app_length'. }
  destruct Hclear as [-> |Hne]; [done|].
  rewrite (proj2 (Z.ltb_ge _ 16)), andb_false_r; [done|].
  destruct segs as [|p segs]; [done|]. rewrite blen_cons in *. pose proof (blen_nonneg segs). lia.
Qed.

Lemma cbc_roundtrip_witness :
  let m := seqZ 0 64 in
  let iv := seqZ 200 16 in
  let cs := cbc_ref toy_block 0x5a iv [seqZ 8 16; [24; 25; 26] ++ replicate 13 0] in
  let m' := write_at 8 (concat cs) m in
  CRYPTO_cbc128_encrypt toy_block 0x5a 8 8 19 (Cbc m iv) = (Some tt, Cbc m' (last_or iv cs)) /\
  CRYPTO_cbc128_decrypt toy_inverse 0x5a 8 0 19 (Cbc m' iv) =
    (Some tt, Cbc (write_at 0 (seqZ 8 16 ++ [24; 25; 26]) m') (last_or iv cs)).
Proof.
  intros m iv cs m'.
  destruct (cbc_roundtrip toy_block toy_inverse 0x5a m iv [seqZ 8 16] [24; 25; 26] 8 8 0) as [He Hd].
  - intros x. apply toy_inverse_block.
  - apply (bool_decide_unpack _). vm_compute. done.
  - apply (bool_decide_unpack _). vm_compute. done.
  - apply (bool_decide_unpack _). vm_compute. done.
  - apply (bool_decide_unpack _). vm_compute. done.
  - apply (bool_decide_unpack _). vm_compute. done.
  - lia.
  - lia.
  - vm_compute. congruence.
  - reflexivity.
  - vm_compute. congruence.
  - left. lia.
  - split; [exact He|]. apply Hd; [lia|vm_compute; congruence|left; lia|by right].
Defined.
