(* ===== verification/Poly1305.v ===== *)
(** crypto/poly1305/poly1305.c: the portable one-time authenticator, on five
    limbs of 26 bits in 32-bit words.

    The alignment of the state and the NEON branches are not modelled. The
    fields [r0] .. [r4] and [h0] .. [h4] of the state are grouped as [limbs]. *)

From S2P Require Import Prelude CryptoInternal.

Definition U8TO32_LE (m : list Z) : Z := le_val (take 4 m).
Definition U32TO8_LE (v : Z) : list Z := le_bytes 4 v.
Definition mul32x32_64 (a b : Z) : Z := u64 (a * b).

Record limbs := Limbs { l0 : Z; l1 : Z; l2 : Z; l3 : Z; l4 : Z }.

Record poly1305_state_st := Poly1305 {
  r : limbs;
  s1 : Z; s2 : Z; s3 : Z; s4 : Z;
  h : limbs;
  buf : list Z;
  buf_used : Z;
  key : list Z
}.

Definition set_h (st : poly1305_state_st) (h : limbs) : poly1305_state_st :=
  Poly1305 (r st) (s1 st) (s2 st) (s3 st) (s4 st) h (buf st) (buf_used st) (key st).

Definition set_poly_buf (st : poly1305_state_st) (buf : list Z) (buf_used : Z) : poly1305_state_st :=
  Poly1305 (r st) (s1 st) (s2 st) (s3 st) (s4 st) (h st) buf buf_used (key st).

(** [state->h0 += t0 & 0x3ffffff;] and the four lines after it; [hibit] is
    [1 << 24] for a whole block and zero for the last bytes. *)
Definition add_message (h : limbs) (m : list Z) (hibit : Z) : limbs :=
  let t0 := U8TO32_LE m in
  let t1 := U8TO32_LE (drop 4 m) in
  let t2 := U8TO32_LE (drop 8 m) in
  let t3 := U8TO32_LE (drop 12 m) in
  Limbs (u32 (l0 h + Z.land t0 0x3ffffff))
        (u32 (l1 h + Z.land (Z.shiftr (Z.lor (u64 (Z.shiftl t1 32)) t0) 26) 0x3ffffff))
        (u32 (l2 h + Z.land (Z.shiftr (Z.lor (u64 (Z.shiftl t2 32)) t1) 20) 0x3ffffff))
        (u32 (l3 h + Z.land (Z.shiftr (Z.lor (u64 (Z.shiftl t3 32)) t2) 14) 0x3ffffff))
        (u32 (l4 h + Z.lor (Z.shiftr t3 8) hibit)).

(** [poly1305_donna_mul:] *)
Definition poly1305_donna_mul (st : poly1305_state_st) (h : limbs) : limbs :=
  let '(Limbs h0 h1 h2 h3 h4) := h in
  let '(Limbs r0 r1 r2 r3 r4) := r st in
  let t0 := u64 (mul32x32_64 h0 r0 + mul32x32_64 h1 (s4 st) + mul32x32_64 h2 (s3 st) +
                 mul32x32_64 h3 (s2 st) + mul32x32_64 h4 (s1 st)) in
  let t1 := u64 (mul32x32_64 h0 r1 + mul32x32_64 h1 r0 + mul32x32_64 h2 (s4 st) +
                 mul32x32_64 h3 (s3 st) + mul32x32_64 h4 (s2 st)) in
  let t2 := u64 (mul32x32_64 h0 r2 + mul32x32_64 h1 r1 + mul32x32_64 h2 r0 +
                 mul32x32_64 h3 (s4 st) + mul32x32_64 h4 (s3 st)) in
  let t3 := u64 (mul32x32_64 h0 r3 + mul32x32_64 h1 r2 + mul32x32_64 h2 r1 +
                 mul32x32_64 h3 r0 + mul32x32_64 h4 (s4 st)) in
  let t4 := u64 (mul32x32_64 h0 r4 + mul32x32_64 h1 r3 + mul32x32_64 h2 r2 +
                 mul32x32_64 h3 r1 + mul32x32_64 h4 r0) in
  let h0 := Z.land (u32 t0) 0x3ffffff in
  let c := Z.shiftr t0 26 in
  let t1 := u64 (t1 + c) in
  let h1 := Z.land (u32 t1) 0x3ffffff in
  let b := u32 (Z.shiftr t1 26) in
  let t2 := u64 (t2 + b) in
  let h2 := Z.land (u32 t2) 0x3ffffff in
  let b := u32 (Z.shiftr t2 26) in
  let t3 := u64 (t3 + b) in
  let h3 := Z.land (u32 t3) 0x3ffffff in
  let b := u32 (Z.shiftr t3 26) in
  let t4 := u64 (t4 + b) in
  let h4 := Z.land (u32 t4) 0x3ffffff in
  let b := u32 (Z.shiftr t4 26) in
  Limbs (u32 (h0 + u32 (b * 5))) h1 h2 h3 h4.

(** One block of the input, from [add_message] on. *)
Definition donna_block (st : poly1305_state_st) (m : list Z) (hibit : Z) : poly1305_state_st :=
  set_h st (poly1305_donna_mul st (add_message (h st) m hibit)).

(** The jumps between [poly1305_donna_16bytes] and
    [poly1305_donna_atmost15bytes]; after the last bytes [len] is zero and the
    function returns. *)
Fixpoint poly1305_blocks (fuel : nat) (st : poly1305_state_st) (input : list Z) : poly1305_state_st :=
  if (length input <? 16)%nat then
    match input with
    | [] => st
    | _ => donna_block st (input ++ [1] ++ replicate (15 - length input) 0) 0
    end
  else
    match fuel with
    | O => st
    | S fuel => poly1305_blocks fuel (donna_block st (take 16 input) (Z.shiftl 1 24)) (drop 16 input)
    end.

Definition poly1305_update (st : poly1305_state_st) (input : list Z) : poly1305_state_st :=
  poly1305_blocks (length input) st input.

(** [state]: the memory the state is made in; its buffer is left as it is. *)
Definition CRYPTO_poly1305_init (st : poly1305_state_st) (k : list Z) : poly1305_state_st :=
  let t0 := U8TO32_LE k in
  let t1 := U8TO32_LE (drop 4 k) in
  let t2 := U8TO32_LE (drop 8 k) in
  let t3 := U8TO32_LE (drop 12 k) in
  let r0 := Z.land t0 0x3ffffff in
  let t0 := Z.lor (Z.shiftr t0 26) (u32 (Z.shiftl t1 6)) in
  let r1 := Z.land t0 0x3ffff03 in
  let t1 := Z.lor (Z.shiftr t1 20) (u32 (Z.shiftl t2 12)) in
  let r2 := Z.land t1 0x3ffc0ff in
  let t2 := Z.lor (Z.shiftr t2 14) (u32 (Z.shiftl t3 18)) in
  let r3 := Z.land t2 0x3f03fff in
  let t3 := Z.shiftr t3 8 in
  let r4 := Z.land t3 0x00fffff in
  Poly1305 (Limbs r0 r1 r2 r3 r4) (u32 (r1 * 5)) (u32 (r2 * 5)) (u32 (r3 * 5)) (u32 (r4 * 5))
    (Limbs 0 0 0 0 0) (buf st) 0 (take 16 (drop 16 k)).

(** [if (in_len >= 16)] and what follows: with an empty buffer. *)
Definition poly1305_direct (st : poly1305_state_st) (input : list Z) : poly1305_state_st :=
  let '(st, input) :=
    if 16 <=? blen input then
      let todo := Z.land (blen input) (u64 (Z.lnot 0xf)) in
      (poly1305_update st (take (Z.to_nat todo) input), drop (Z.to_nat todo) input)
    else (st, input) in
  if blen input =? 0 then st
  else set_poly_buf st (write_at 0 input (buf st)) (blen input).

(** After the buffer is served without being filled, no input is left and
    [poly1305_direct] does nothing. *)
Definition CRYPTO_poly1305_update (st : poly1305_state_st) (input : list Z) : poly1305_state_st :=
  if buf_used st =? 0 then poly1305_direct st input
  else
    let todo := 16 - buf_used st in
    let todo := if blen input <? todo then blen input else todo in
    let st := set_poly_buf st (write_at (buf_used st) (take (Z.to_nat todo) input) (buf st)) (buf_used st + todo) in
    let input := drop (Z.to_nat todo) input in
    let st := if buf_used st =? 16
      then set_poly_buf (poly1305_update st (buf st)) (buf st) 0 else st in
    poly1305_direct st input.

(** [b = state->h0 >> 26;] ... [state->h0 += b * 5;] *)
Definition finish_carry (h : limbs) : limbs :=
  let b := Z.shiftr (l0 h) 26 in
  let h0 := Z.land (l0 h) 0x3ffffff in
  let h1 := u32 (l1 h + b) in
  let b := Z.shiftr h1 26 in
  let h1 := Z.land h1 0x3ffffff in
  let h2 := u32 (l2 h + b) in
  let b := Z.shiftr h2 26 in
  let h2 := Z.land h2 0x3ffffff in
  let h3 := u32 (l3 h + b) in
  let b := Z.shiftr h3 26 in
  let h3 := Z.land h3 0x3ffffff in
  let h4 := u32 (l4 h + b) in
  let b := Z.shiftr h4 26 in
  let h4 := Z.land h4 0x3ffffff in
  Limbs (u32 (h0 + u32 (b * 5))) h1 h2 h3 h4.

(** [g0 = state->h0 + 5;] ... and the choice between [h] and [g]. *)
Definition finish_select (h : limbs) : limbs :=
  let g0 := u32 (l0 h + 5) in
  let b := Z.shiftr g0 26 in
  let g0 := Z.land g0 0x3ffffff in
  let g1 := u32 (l1 h + b) in
  let b := Z.shiftr g1 26 in
  let g1 := Z.land g1 0x3ffffff in
  let g2 := u32 (l2 h + b) in
  let b := Z.shiftr g2 26 in
  let g2 := Z.land g2 0x3ffffff in
  let g3 := u32 (l3 h + b) in
  let b := Z.shiftr g3 26 in
  let g3 := Z.land g3 0x3ffffff in
  let g4 := u32 (l4 h + b - Z.shiftl 1 26) in
  let b := u32 (Z.shiftr g4 31 - 1) in
  let nb := u32 (Z.lnot b) in
  let sel h g := Z.lor (Z.land h nb) (Z.land g b) in
  Limbs (sel (l0 h) g0) (sel (l1 h) g1) (sel (l2 h) g2) (sel (l3 h) g3) (sel (l4 h) g4).

(** [f0 = ((state->h0) | (state->h1 << 26)) + ...] to the end: the tag. *)
Definition finish_mac (h : limbs) (key : list Z) : list Z :=
  let f0 := u64 (Z.lor (l0 h) (u32 (Z.shiftl (l1 h) 26)) + U8TO32_LE key) in
  let f1 := u64 (Z.lor (Z.shiftr (l1 h) 6) (u32 (Z.shiftl (l2 h) 20)) + U8TO32_LE (drop 4 key)) in
  let f2 := u64 (Z.lor (Z.shiftr (l2 h) 12) (u32 (Z.shiftl (l3 h) 14)) + U8TO32_LE (drop 8 key)) in
  let f3 := u64 (Z.lor (Z.shiftr (l3 h) 18) (u32 (Z.shiftl (l4 h) 8)) + U8TO32_LE (drop 12 key)) in
  let f1' := u64 (f1 + Z.shiftr f0 32) in
  let f2' := u64 (f2 + Z.shiftr f1' 32) in
  let f3' := u64 (f3 + Z.shiftr f2' 32) in
  U32TO8_LE (u32 f0) ++ U32TO8_LE (u32 f1') ++ U32TO8_LE (u32 f2') ++ U32TO8_LE (u32 f3').

Definition CRYPTO_poly1305_finish (st : poly1305_state_st) : list Z :=
  let st := if buf_used st =? 0 then st
    else poly1305_update st (take (Z.to_nat (buf_used st)) (buf st)) in
  finish_mac (finish_select (finish_carry (h st))) (key st).
