(* ===== verification/Poly1305Spec.v ===== *)
(** The limb arithmetic of poly1305.c against arithmetic modulo 2^130 - 5. *)

From S2P Require Import Prelude CryptoInternal Poly1305.

Definition poly_p : Z := 2 ^ 130 - 5.

(** The value of five limbs. *)
Definition lval (l : limbs) : Z :=
  l0 l + l1 l * 2 ^ 26 + l2 l * 2 ^ 52 + l3 l * 2 ^ 78 + l4 l * 2 ^ 104.

(** The accumulator between blocks: the lowest limb may be far above 26 bits. *)
Definition acc_ok (l : limbs) : Prop :=
  0 <= l0 l < 42 * 2 ^ 26 /\ 0 <= l1 l < 2 ^ 26 /\ 0 <= l2 l < 2 ^ 26 /\ 0 <= l3 l < 2 ^ 26 /\ 0 <= l4 l < 2 ^ 26.

(** After a block is added. *)
Definition sum_ok (l : limbs) : Prop :=
  0 <= l0 l < 43 * 2 ^ 26 /\ 0 <= l1 l < 2 ^ 27 /\ 0 <= l2 l < 2 ^ 27 /\ 0 <= l3 l < 2 ^ 27 /\ 0 <= l4 l < 2 ^ 26 + 2 ^ 25.

(** The clamped multiplier and its precomputed multiples. *)
Definition key_ok (st : poly1305_state_st) : Prop :=
  0 <= l0 (r st) <= 0x3ffffff /\ 0 <= l1 (r st) <= 0x3ffff03 /\ 0 <= l2 (r st) <= 0x3ffc0ff /\
  0 <= l3 (r st) <= 0x3f03fff /\ 0 <= l4 (r st) <= 0x00fffff /\
  s1 st = 5 * l1 (r st) /\ s2 st = 5 * l2 (r st) /\ s3 st = 5 * l3 (r st) /\ s4 st = 5 * l4 (r st).

(** ** Words of a block *)

Lemma le_val_app l k : le_val (l ++ k) = le_val l + 256 ^ blen l * le_val k.
Proof. unfold le_val. rewrite rev_app_distr, be_val_app. unfold blen. rewrite length_rev. lia. Qed.

Lemma le_val_word l : bytes l -> length l = 4%nat -> in_word 32 (le_val l).
Proof.
  intros Hb Hl. pose proof (be_val_bound (rev l) ltac:(by apply bytes_rev)) as H. unfold le_val, in_word, blen in *.
  rewrite length_rev, Hl in H. exact H.
Qed.

(** The four words of sixteen bytes. *)
Lemma block_words m :
  bytes m -> length m = 16%nat ->
  in_word 32 (U8TO32_LE m) /\ in_word 32 (U8TO32_LE (drop 4 m)) /\ in_word 32 (U8TO32_LE (drop 8 m)) /\
  in_word 32 (U8TO32_LE (drop 12 m)) /\
  le_val m = U8TO32_LE m + U8TO32_LE (drop 4 m) * 2 ^ 32 + U8TO32_LE (drop 8 m) * 2 ^ 64 + U8TO32_LE (drop 12 m) * 2 ^ 96.
Proof.
  intros Hb Hl. unfold U8TO32_LE.
  repeat split; try (apply le_val_word; [auto with words|rewrite length_take, ?length_drop; lia]).
  rewrite <-(take_drop 4 m) at 1. rewrite <-(take_drop 4 (drop 4 m)) at 1. rewrite <-(take_drop 4 (drop 4 (drop 4 m))) at 1.
  rewrite !drop_drop, !le_val_app. cbn [Nat.add]. rewrite (take_ge (drop 12 m)) by (rewrite length_drop; lia).
  unfold blen. rewrite !length_take, !length_drop, Hl. cbn [Nat.min Nat.sub Z.of_nat].
  change (256 ^ Z.pos 4) with (2 ^ 32). lia.
Qed.

Lemma land_26 x : Z.land x 0x3ffffff = x mod 2 ^ 26.
Proof. change 0x3ffffff with (Z.ones 26). by rewrite Z.land_ones by lia. Qed.

Lemma words_join a b n : in_word 32 a -> in_word 32 b -> 0 <= n ->
  Z.shiftr (Z.lor (u64 (Z.shiftl b 32)) a) n = (b * 2 ^ 32 + a) / 2 ^ n.
Proof.
  intros Ha Hb Hn. rewrite wrap_small by (unfold in_word in *; rewrite Z.shiftl_mul_pow2; lia).
  by rewrite lor_shiftl_low, Z.shiftr_div_pow2 by (done || lia).
Qed.

Lemma add_message_spec l m hibit :
  acc_ok l -> bytes m -> length m = 16%nat -> hibit = 0 \/ hibit = 2 ^ 24 ->
  sum_ok (add_message l m hibit) /\ lval (add_message l m hibit) = lval l + le_val m + hibit * 2 ^ 104.
Proof.
  intros Hl Hb Hm Hh. destruct (block_words m Hb Hm) as (W0 & W1 & W2 & W3 & ->).
  unfold add_message. set (t0 := U8TO32_LE m) in *. set (t1 := U8TO32_LE (drop 4 m)) in *.
  set (t2 := U8TO32_LE (drop 8 m)) in *. set (t3 := U8TO32_LE (drop 12 m)) in *.
  rewrite !words_join, !land_26 by (done || lia).
  assert (Z.lor (Z.shiftr t3 8) hibit = t3 / 2 ^ 8 + hibit) as ->.
  { rewrite Z.lor_comm, Z.shiftr_div_pow2 by lia. destruct Hh as [-> | ->]; [by rewrite Z.lor_0_l, Z.add_0_r|].
    pose proof (lor_shiftl_low 24 1 (t3 / 2 ^ 8)) as Hlow. change (Z.shiftl 1 24) with (2 ^ 24) in Hlow.
    rewrite Hlow; [lia| |lia]. unfold in_word in *. pow2. zdiv. }
  clearbody t0 t1 t2 t3. unfold acc_ok, sum_ok, lval, in_word in *. cbn [l0 l1 l2 l3 l4].
  destruct Hl as (H0 & H1 & H2 & H3 & H4).
  assert (0 <= t0 mod 2 ^ 26 < 2 ^ 26) by (apply Z.mod_pos_bound; lia).
  assert (0 <= ((t1 * 2 ^ 32 + t0) / 2 ^ 26) mod 2 ^ 26 < 2 ^ 26) by (apply Z.mod_pos_bound; lia).
  assert (0 <= ((t2 * 2 ^ 32 + t1) / 2 ^ 20) mod 2 ^ 26 < 2 ^ 26) by (apply Z.mod_pos_bound; lia).
  assert (0 <= ((t3 * 2 ^ 32 + t2) / 2 ^ 14) mod 2 ^ 26 < 2 ^ 26) by (apply Z.mod_pos_bound; lia).
  assert (0 <= t3 / 2 ^ 8 < 2 ^ 24) by (pow2; zdiv).
  rewrite !wrap_small by (unfold in_word; lia).
  split; [lia|].
  assert (t0 mod 2 ^ 26 + (t1 * 2 ^ 32 + t0) / 2 ^ 26 mod 2 ^ 26 * 2 ^ 26 +
          (t2 * 2 ^ 32 + t1) / 2 ^ 20 mod 2 ^ 26 * 2 ^ 52 + (t3 * 2 ^ 32 + t2) / 2 ^ 14 mod 2 ^ 26 * 2 ^ 78 +
          t3 / 2 ^ 8 * 2 ^ 104 = t0 + t1 * 2 ^ 32 + t2 * 2 ^ 64 + t3 * 2 ^ 96) as Hsum; [|lia].
  clear -W0 W1 W2 W3. zdiv.
Qed.

(** ** Multiplication *)

(** A product of bounded factors. *)
Lemma mul_bound a b A B : 0 <= a <= A -> 0 <= b <= B -> 0 <= a * b <= A * B.
Proof. intros Ha Hb. split; [apply Z.mul_nonneg_nonneg|apply Z.mul_le_mono_nonneg]; lia. Qed.

(** The carries between the columns: exact, and so small that the carry out of
    the second column still fits 32 bits. *)
Lemma carry_spec t0 t1 t2 t3 t4 :
  0 <= t0 < 70 * 2 ^ 52 + 2 ^ 52 -> 0 <= t1 < 63 * 2 ^ 52 -> 0 <= t2 < 55 * 2 ^ 52 -> 0 <= t3 < 50 * 2 ^ 52 ->
  0 <= t4 < 8 * 2 ^ 52 + 3 * 2 ^ 48 ->
  let c0 := t0 / 2 ^ 26 in let c1 := (t1 + c0) / 2 ^ 26 in let c2 := (t2 + c1) / 2 ^ 26 in
  let c3 := (t3 + c2) / 2 ^ 26 in let c4 := (t4 + c3) / 2 ^ 26 in
  (0 <= c0 < 71 * 2 ^ 26 /\ 0 <= c1 < 2 ^ 32 /\ 0 <= c2 < 2 ^ 32 /\ 0 <= c3 < 2 ^ 32 /\ 0 <= c4 < 8 * 2 ^ 26 + 3 * 2 ^ 22 + 2 ^ 10) /\
  t0 mod 2 ^ 26 + (t1 + c0) mod 2 ^ 26 * 2 ^ 26 + (t2 + c1) mod 2 ^ 26 * 2 ^ 52 + (t3 + c2) mod 2 ^ 26 * 2 ^ 78 +
    (t4 + c3) mod 2 ^ 26 * 2 ^ 104 + c4 * 2 ^ 130 =
  t0 + t1 * 2 ^ 26 + t2 * 2 ^ 52 + t3 * 2 ^ 78 + t4 * 2 ^ 104.
Proof.
  intros H0 H1 H2 H3 H4 c0 c1 c2 c3 c4.
  assert (0 <= c0 < 71 * 2 ^ 26) as B0 by (unfold c0; zdiv). pose proof (Z.div_mod t0 (2 ^ 26) ltac:(lia)) as E0. fold c0 in E0. clearbody c0.
  assert (0 <= c1 < 2 ^ 32) as B1 by (unfold c1; zdiv). pose proof (Z.div_mod (t1 + c0) (2 ^ 26) ltac:(lia)) as E1. fold c1 in E1. clearbody c1.
  assert (0 <= c2 < 2 ^ 32) as B2 by (unfold c2; zdiv). pose proof (Z.div_mod (t2 + c1) (2 ^ 26) ltac:(lia)) as E2. fold c2 in E2. clearbody c2.
  assert (0 <= c3 < 2 ^ 32) as B3 by (unfold c3; zdiv). pose proof (Z.div_mod (t3 + c2) (2 ^ 26) ltac:(lia)) as E3. fold c3 in E3. clearbody c3.
  assert (0 <= c4 < 8 * 2 ^ 26 + 3 * 2 ^ 22 + 2 ^ 10) as B4 by (unfold c4; zdiv). pose proof (Z.div_mod (t4 + c3) (2 ^ 26) ltac:(lia)) as E4. fold c4 in E4. clearbody c4.
  split; [done|]. lia.
Qed.

Lemma u64_sum a b c d e : u64 (u64 a + u64 b + u64 c + u64 d + u64 e) = u64 (a + b + c + d + e).
Proof. change (eqm 64 (u64 a + u64 b + u64 c + u64 d + u64 e) (a + b + c + d + e)). by rewrite !eqm_wrap. Qed.

(** A column of the product. *)
Lemma column a0 a1 a2 a3 a4 b0 b1 b2 b3 b4 A0 A1 A2 A3 A4 B0 B1 B2 B3 B4 T :
  0 <= a0 < A0 -> 0 <= a1 < A1 -> 0 <= a2 < A2 -> 0 <= a3 < A3 -> 0 <= a4 < A4 ->
  0 <= b0 <= B0 -> 0 <= b1 <= B1 -> 0 <= b2 <= B2 -> 0 <= b3 <= B3 -> 0 <= b4 <= B4 ->
  A0 * B0 + A1 * B1 + A2 * B2 + A3 * B3 + A4 * B4 < T -> T <= 2 ^ 64 ->
  0 <= a0 * b0 + a1 * b1 + a2 * b2 + a3 * b3 + a4 * b4 < T /\
  u64 (u64 (a0 * b0) + u64 (a1 * b1) + u64 (a2 * b2) + u64 (a3 * b3) + u64 (a4 * b4)) =
  a0 * b0 + a1 * b1 + a2 * b2 + a3 * b3 + a4 * b4.
Proof.
  intros H0 H1 H2 H3 H4 K0 K1 K2 K3 K4 HT Hw.
  pose proof (mul_bound a0 b0 A0 B0 ltac:(lia) K0). pose proof (mul_bound a1 b1 A1 B1 ltac:(lia) K1).
  pose proof (mul_bound a2 b2 A2 B2 ltac:(lia) K2). pose proof (mul_bound a3 b3 A3 B3 ltac:(lia) K3).
  pose proof (mul_bound a4 b4 A4 B4 ltac:(lia) K4).
  split; [lia|]. rewrite u64_sum. apply wrap_small. unfold in_word. lia.
Qed.

Lemma land_u32_26 t : Z.land (u32 t) 0x3ffffff = t mod 2 ^ 26.
Proof. rewrite land_26. unfold wrap. pow2. change (2 ^ 26) with 67108864. zdiv. Qed.

Lemma donna_mul_spec st l :
  key_ok st -> sum_ok l ->
  acc_ok (poly1305_donna_mul st l) /\
  lval (poly1305_donna_mul st l) mod poly_p = (lval l * lval (r st)) mod poly_p.
Proof.
  intros (R0 & R1 & R2 & R3 & R4 & E1 & E2 & E3 & E4) Hl. unfold poly1305_donna_mul, mul32x32_64.
  rewrite E1, E2, E3, E4. clear E1 E2 E3 E4. destruct (r st) as [r0 r1 r2 r3 r4]. destruct l as [h0 h1 h2 h3 h4].
  unfold sum_ok in Hl. cbn [l0 l1 l2 l3 l4] in *. destruct Hl as (H0 & H1 & H2 & H3 & H4).
  assert (0 <= 5 * r1 <= 5 * 0x3ffff03) as S1 by lia. assert (0 <= 5 * r2 <= 5 * 0x3ffc0ff) as S2 by lia.
  assert (0 <= 5 * r3 <= 5 * 0x3f03fff) as S3 by lia. assert (0 <= 5 * r4 <= 5 * 0x00fffff) as S4 by lia.
  destruct (column h0 h1 h2 h3 h4 r0 (5 * r4) (5 * r3) (5 * r2) (5 * r1) _ _ _ _ _ _ _ _ _ _ (71 * 2 ^ 52)
    H0 H1 H2 H3 H4 R0 S4 S3 S2 S1 eq_refl ltac:(lia)) as [T0 ->].
  destruct (column h0 h1 h2 h3 h4 r1 r0 (5 * r4) (5 * r3) (5 * r2) _ _ _ _ _ _ _ _ _ _ (63 * 2 ^ 52)
    H0 H1 H2 H3 H4 R1 R0 S4 S3 S2 eq_refl ltac:(lia)) as [T1 ->].
  destruct (column h0 h1 h2 h3 h4 r2 r1 r0 (5 * r4) (5 * r3) _ _ _ _ _ _ _ _ _ _ (55 * 2 ^ 52)
    H0 H1 H2 H3 H4 R2 R1 R0 S4 S3 eq_refl ltac:(lia)) as [T2 ->].
  destruct (column h0 h1 h2 h3 h4 r3 r2 r1 r0 (5 * r4) _ _ _ _ _ _ _ _ _ _ (50 * 2 ^ 52)
    H0 H1 H2 H3 H4 R3 R2 R1 R0 S4 eq_refl ltac:(lia)) as [T3 ->].
  destruct (column h0 h1 h2 h3 h4 r4 r3 r2 r1 r0 _ _ _ _ _ _ _ _ _ _ (8 * 2 ^ 52 + 3 * 2 ^ 48)
    H0 H1 H2 H3 H4 R4 R3 R2 R1 R0 eq_refl ltac:(lia)) as [T4 ->].
  set (t0 := h0 * r0 + h1 * _ + h2 * _ + h3 * _ + h4 * _) in *. set (t1 := h0 * r1 + h1 * _ + h2 * _ + h3 * _ + h4 * _) in *.
  set (t2 := h0 * r2 + h1 * _ + h2 * _ + h3 * _ + h4 * _) in *. set (t3 := h0 * r3 + h1 * _ + h2 * _ + h3 * _ + h4 * _) in *.
  set (t4 := h0 * r4 + h1 * _ + h2 * _ + h3 * _ + h4 * _) in *.
  destruct (carry_spec t0 t1 t2 t3 t4) as [(B0 & B1 & B2 & B3 & B4) Hv]; [lia..|].
  assert (t0 + t1 * 2 ^ 26 + t2 * 2 ^ 52 + t3 * 2 ^ 78 + t4 * 2 ^ 104 +
    poly_p * (h1 * r4 + h2 * r3 + h3 * r2 + h4 * r1 + (h2 * r4 + h3 * r3 + h4 * r2) * 2 ^ 26 +
              (h3 * r4 + h4 * r3) * 2 ^ 52 + h4 * r4 * 2 ^ 78) =
    lval (Limbs h0 h1 h2 h3 h4) * lval (Limbs r0 r1 r2 r3 r4)) as Hmul.
  { unfold t0, t1, t2, t3, t4, poly_p, lval. cbn [l0 l1 l2 l3 l4].
    change (2 ^ 130) with (2 ^ 26 * 2 ^ 104). change (2 ^ 104) with (2 ^ 26 * 2 ^ 78). change (2 ^ 78) with (2 ^ 26 * 2 ^ 52).
    change (2 ^ 52) with (2 ^ 26 * 2 ^ 26). ring. }
  clearbody t0 t1 t2 t3 t4. rewrite !land_u32_26, !Z.shiftr_div_pow2 by lia.
  set (c0 := t0 / 2 ^ 26) in *. rewrite (wrap_small 64 (t1 + c0)) by (unfold in_word; lia).
  set (c1 := (t1 + c0) / 2 ^ 26) in *. rewrite (wrap_small 32 c1), (wrap_small 64 (t2 + c1)) by (unfold in_word; lia).
  set (c2 := (t2 + c1) / 2 ^ 26) in *. rewrite (wrap_small 32 c2), (wrap_small 64 (t3 + c2)) by (unfold in_word; lia).
  set (c3 := (t3 + c2) / 2 ^ 26) in *. rewrite (wrap_small 32 c3), (wrap_small 64 (t4 + c3)) by (unfold in_word; lia).
  set (c4 := (t4 + c3) / 2 ^ 26) in *. rewrite (wrap_small 32 c4), (wrap_small 32 (c4 * 5)) by (unfold in_word; lia).
  assert (forall x, 0 <= x mod 2 ^ 26 < 2 ^ 26) as Hmod by (intros; apply Z.mod_pos_bound; lia).
  pose proof (Hmod t0). pose proof (Hmod (t1 + c0)). pose proof (Hmod (t2 + c1)). pose proof (Hmod (t3 + c2)).
  pose proof (Hmod (t4 + c3)). rewrite wrap_small by (unfold in_word; lia).
  split; [unfold acc_ok; cbn [l0 l1 l2 l3 l4]; lia|].
  rewrite <-Hmul. rewrite (Z.mul_comm poly_p), Z.mod_add by done.
  rewrite <-Hv. unfold lval at 1. cbn [l0 l1 l2 l3 l4].
  replace (2 ^ 130) with (poly_p + 5) by done. rewrite Z.mul_add_distr_l, Z.add_assoc.
  rewrite <-(Z.mod_add _ c4 poly_p) by done. f_equal. lia.
Qed.

(** ** The key *)

Definition clamp : Z := 0x0ffffffc0ffffffc0ffffffc0fffffff.

Lemma land_digit A B x y n :
  0 <= n -> in_word n x -> in_word n y ->
  Z.land (A * 2 ^ n + x) (B * 2 ^ n + y) = Z.land A B * 2 ^ n + Z.land x y.
Proof.
  intros Hn Hx Hy. rewrite <-!lor_shiftl_low by (try lia; try done; apply land_range; done || apply Hy).
  apply Z.bits_inj'. intros i Hi. rewrite Z.land_spec, !Z.lor_spec, !Z.shiftl_spec, !Z.land_spec by done.
  destruct (decide (i < n)).
  - rewrite !(Z.testbit_neg_r _ (i - n)) by lia. done.
  - rewrite (testbit_high n x), (testbit_high n y) by (done || lia). by rewrite !orb_false_r.
Qed.

(** Five limbs of a number of 128 bits. *)
Lemma digits_26 K : 0 <= K < 2 ^ 128 ->
  K = (((K / 2 ^ 104 * 2 ^ 26 + K / 2 ^ 78 mod 2 ^ 26) * 2 ^ 26 + K / 2 ^ 52 mod 2 ^ 26) * 2 ^ 26 +
       K / 2 ^ 26 mod 2 ^ 26) * 2 ^ 26 + K mod 2 ^ 26.
Proof. intros HK. zdiv. Qed.

Lemma mod_26_word x : in_word 26 (x mod 2 ^ 26).
Proof. apply Z.mod_pos_bound. lia. Qed.

Lemma land_mod_26 x m : in_word 26 m -> Z.land x m = Z.land (x mod 2 ^ 26) m.
Proof.
  intros Hm. rewrite <-(Z.land_ones x 26) by lia. rewrite <-Z.land_assoc. f_equal.
  rewrite Z.land_comm, Z.land_ones by lia. symmetry. by apply wrap_small.
Qed.

Lemma clamp_limbs K : 0 <= K < 2 ^ 128 ->
  Z.land K clamp =
  lval (Limbs (Z.land (K mod 2 ^ 26) 0x3ffffff) (Z.land (K / 2 ^ 26 mod 2 ^ 26) 0x3ffff03)
              (Z.land (K / 2 ^ 52 mod 2 ^ 26) 0x3ffc0ff) (Z.land (K / 2 ^ 78 mod 2 ^ 26) 0x3f03fff)
              (Z.land (K / 2 ^ 104) 0x00fffff)).
Proof.
  intros HK. rewrite (digits_26 K HK) at 1.
  replace clamp with ((((0x00fffff * 2 ^ 26 + 0x3f03fff) * 2 ^ 26 + 0x3ffc0ff) * 2 ^ 26 + 0x3ffff03) * 2 ^ 26 + 0x3ffffff)
    by reflexivity.
  rewrite !land_digit by (lia || apply mod_26_word || (unfold in_word; lia)). unfold lval. cbn [l0 l1 l2 l3 l4]. lia.
Qed.

Lemma shift_words a b s k : in_word 32 a -> in_word 32 b -> 0 <= s <= 32 -> k = 32 - s ->
  Z.lor (Z.shiftr a s) (u32 (Z.shiftl b k)) = (b * 2 ^ 32 + a) / 2 ^ s mod 2 ^ 32.
Proof.
  intros Ha Hb Hs ->.
  assert (u32 (Z.shiftl b (32 - s)) = Z.shiftl (b mod 2 ^ s) (32 - s)) as ->.
  { rewrite !Z.shiftl_mul_pow2 by lia. unfold wrap. replace (2 ^ 32) with (2 ^ s * 2 ^ (32 - s)).
    - by rewrite Z.mul_mod_distr_r by (apply Z.pow_nonzero; lia).
    - rewrite <-Z.pow_add_r by lia. f_equal. lia. }
  rewrite Z.lor_comm, Z.shiftr_div_pow2 by lia.
  assert (0 <= a / 2 ^ s < 2 ^ (32 - s)) as Hq.
  { unfold in_word in Ha. split; [apply Z.div_pos; lia|]. apply Z.div_lt_upper_bound; [lia|].
    rewrite <-Z.pow_add_r by lia. replace (s + (32 - s)) with 32 by lia. lia. }
  rewrite lor_shiftl_low by (done || lia).
  pose proof (Z.pow_pos_nonneg 2 s ltac:(lia) ltac:(lia)) as Hp. pose proof (Z.pow_pos_nonneg 2 (32 - s) ltac:(lia) ltac:(lia)).
  assert (2 ^ 32 = 2 ^ (32 - s) * 2 ^ s) as H32 by (rewrite <-Z.pow_add_r by lia; f_equal; lia).
  assert ((b * 2 ^ 32 + a) / 2 ^ s = b * 2 ^ (32 - s) + a / 2 ^ s) as ->.
  { rewrite H32, Z.mul_assoc. rewrite Z.add_comm, Z.div_add by lia. lia. }
  rewrite (Z.div_mod b (2 ^ s)) at 2 by lia.
  replace ((2 ^ s * (b / 2 ^ s) + b mod 2 ^ s) * 2 ^ (32 - s) + a / 2 ^ s)
    with (b mod 2 ^ s * 2 ^ (32 - s) + a / 2 ^ s + (b / 2 ^ s) * 2 ^ 32) by (rewrite H32; ring).
  rewrite Z.mod_add by lia. symmetry. apply Z.mod_small.
  pose proof (Z.mod_pos_bound b (2 ^ s) Hp). nia.
Qed.

Lemma land_le a b : 0 <= b -> 0 <= Z.land a b <= b.
Proof.
  intros Hb. split; [by apply Z.land_nonneg; right|].
  assert (Z.ldiff (Z.land a b) b = 0) as Hd.
  { apply Z.bits_inj'. intros i Hi. rewrite Z.ldiff_spec, Z.land_spec, Z.bits_0.
    destruct (Z.testbit b i); [apply andb_false_r|by rewrite andb_false_r]. }
  pose proof (Z.sub_nocarry_ldiff b (Z.land a b) Hd) as Hs.
  assert (0 <= Z.ldiff b (Z.land a b)) by (apply Z.ldiff_nonneg; by left). lia.
Qed.

(** The state after [CRYPTO_poly1305_init]. *)
Lemma poly1305_init_spec st k :
  bytes k -> length k = 32%nat ->
  let st' := CRYPTO_poly1305_init st k in
  key_ok st' /\ acc_ok (h st') /\ lval (h st') = 0 /\ lval (r st') = Z.land (le_val (take 16 k)) clamp /\
  buf_used st' = 0 /\ buf st' = buf st /\ key st' = take 16 (drop 16 k).
Proof.
  intros Hb Hl st'. destruct (block_words (take 16 k)) as (W0 & W1 & W2 & W3 & HK);
    [auto with words|rewrite length_take; lia|].
  assert (forall i, (i <= 12)%nat -> U8TO32_LE (drop i (take 16 k)) = U8TO32_LE (drop i k)) as Hw.
  { intros i Hi. unfold U8TO32_LE. f_equal. rewrite skipn_firstn_comm, take_take. f_equal. lia. }
  rewrite (Hw 4%nat) in W1, HK by lia. rewrite (Hw 8%nat) in W2, HK by lia. rewrite (Hw 12%nat) in W3, HK by lia.
  pose proof (Hw 0%nat ltac:(lia)) as Hw0. rewrite !drop_0 in Hw0.
  rewrite Hw0 in W0, HK. clear Hw Hw0. unfold st', CRYPTO_poly1305_init. clear st'.
  set (t0 := U8TO32_LE k) in *. set (t1 := U8TO32_LE (drop 4 k)) in *.
  set (t2 := U8TO32_LE (drop 8 k)) in *. set (t3 := U8TO32_LE (drop 12 k)) in *. clearbody t0 t1 t2 t3.
  set (K := le_val (take 16 k)) in *. clearbody K.
  rewrite (shift_words t0 t1 26 6), (shift_words t1 t2 20 12), (shift_words t2 t3 14 18), Z.shiftr_div_pow2
    by (done || lia).
  unfold in_word in *.
  assert (0 <= K < 2 ^ 128) as HK128 by lia.
  rewrite (land_mod_26 t0), (land_mod_26 _ 0x3ffff03), (land_mod_26 _ 0x3ffc0ff), (land_mod_26 _ 0x3f03fff)
    by (split; lia).
  replace (t0 mod 2 ^ 26) with (K mod 2 ^ 26) by (rewrite HK; clear -W0 W1 W2 W3; zdiv).
  replace (((t1 * 2 ^ 32 + t0) / 2 ^ 26 mod 2 ^ 32) mod 2 ^ 26) with (K / 2 ^ 26 mod 2 ^ 26)
    by (rewrite HK; clear -W0 W1 W2 W3; zdiv).
  replace (((t2 * 2 ^ 32 + t1) / 2 ^ 20 mod 2 ^ 32) mod 2 ^ 26) with (K / 2 ^ 52 mod 2 ^ 26)
    by (rewrite HK; clear -W0 W1 W2 W3; zdiv).
  replace (((t3 * 2 ^ 32 + t2) / 2 ^ 14 mod 2 ^ 32) mod 2 ^ 26) with (K / 2 ^ 78 mod 2 ^ 26)
    by (rewrite HK; clear -W0 W1 W2 W3; zdiv).
  replace (t3 / 2 ^ 8) with (K / 2 ^ 104) by (rewrite HK; clear -W0 W1 W2 W3; zdiv).
  pose proof (land_le (K mod 2 ^ 26) 0x3ffffff ltac:(lia)). pose proof (land_le (K / 2 ^ 26 mod 2 ^ 26) 0x3ffff03 ltac:(lia)).
  pose proof (land_le (K / 2 ^ 52 mod 2 ^ 26) 0x3ffc0ff ltac:(lia)). pose proof (land_le (K / 2 ^ 78 mod 2 ^ 26) 0x3f03fff ltac:(lia)).
  pose proof (land_le (K / 2 ^ 104) 0x00fffff ltac:(lia)).
  cbn [h r key buf buf_used]. split; [|split; [|split; [|split; [|done]]]].
  - unfold key_ok. cbn [r s1 s2 s3 s4 l0 l1 l2 l3 l4]. rewrite !wrap_small by (unfold in_word; lia).
    repeat split; lia.
  - unfold acc_ok. cbn [l0 l1 l2 l3 l4]. lia.
  - reflexivity.
  - symmetry. by apply clamp_limbs.
Qed.

(** ** The end *)

(** All limbs below 2^26, but the lowest may pass it by the carry from the top. *)
Definition carried (l : limbs) : Prop :=
  0 <= l0 l < 2 ^ 26 + 5 /\ 0 <= l1 l < 2 ^ 26 /\ 0 <= l2 l < 2 ^ 26 /\ 0 <= l3 l < 2 ^ 26 /\ 0 <= l4 l < 2 ^ 26 /\
  (2 ^ 26 <= l0 l -> l1 l < 42 /\ l2 l = 0 /\ l3 l = 0 /\ l4 l = 0).

(** One step of a carry chain. *)
Lemma carry_step a c : 0 <= a < 2 ^ 26 -> 0 <= c < 42 ->
  u32 (a + c) = a + c /\ Z.shiftr (a + c) 26 = (a + c) / 2 ^ 26 /\ Z.land (a + c) 0x3ffffff = (a + c) mod 2 ^ 26 /\
  ((a + c < 2 ^ 26 /\ (a + c) / 2 ^ 26 = 0 /\ (a + c) mod 2 ^ 26 = a + c) \/
   (2 ^ 26 <= a + c /\ (a + c) / 2 ^ 26 = 1 /\ (a + c) mod 2 ^ 26 = a + c - 2 ^ 26)).
Proof.
  intros Ha Hc. rewrite wrap_small by (unfold in_word; lia). rewrite Z.shiftr_div_pow2, land_26 by lia.
  split; [done|]. split; [done|]. split; [done|]. change (2 ^ 26) with 67108864 in *.
  destruct (decide (a + c < 67108864)); [left|right]; split; [lia|zdiv|lia|zdiv].
Qed.

Lemma finish_carry_spec l :
  acc_ok l -> carried (finish_carry l) /\ lval (finish_carry l) mod poly_p = lval l mod poly_p.
Proof.
  intros (H0 & H1 & H2 & H3 & H4). unfold finish_carry. cbv zeta.
  assert (0 <= l0 l / 2 ^ 26 < 42) as B0 by zdiv. rewrite (Z.shiftr_div_pow2 (l0 l)), (land_26 (l0 l)) by lia.
  pose proof (Z.div_mod (l0 l) (2 ^ 26) ltac:(lia)) as E0. pose proof (Z.mod_pos_bound (l0 l) (2 ^ 26) ltac:(lia)) as M0.
  set (b0 := l0 l / 2 ^ 26) in *. set (x0 := l0 l mod 2 ^ 26) in *. clearbody b0 x0.
  destruct (carry_step (l1 l) b0) as (-> & -> & -> & C1); [lia..|].
  set (b1 := (l1 l + b0) / 2 ^ 26) in *. set (x1 := (l1 l + b0) mod 2 ^ 26) in *. clearbody b1 x1.
  destruct (carry_step (l2 l) b1) as (-> & -> & -> & C2); [lia..|].
  set (b2 := (l2 l + b1) / 2 ^ 26) in *. set (x2 := (l2 l + b1) mod 2 ^ 26) in *. clearbody b2 x2.
  destruct (carry_step (l3 l) b2) as (-> & -> & -> & C3); [lia..|].
  set (b3 := (l3 l + b2) / 2 ^ 26) in *. set (x3 := (l3 l + b2) mod 2 ^ 26) in *. clearbody b3 x3.
  destruct (carry_step (l4 l) b3) as (-> & -> & -> & C4); [lia..|].
  set (b4 := (l4 l + b3) / 2 ^ 26) in *. set (x4 := (l4 l + b3) mod 2 ^ 26) in *. clearbody b4 x4.
  rewrite !wrap_small by (unfold in_word; rewrite ?wrap_small by (unfold in_word; lia); lia).
  split.
  - unfold carried. cbn [l0 l1 l2 l3 l4]. lia.
  - rewrite <-(Z.mod_add (lval (Limbs _ _ _ _ _)) b4 poly_p) by done. f_equal.
    unfold lval, poly_p. cbn [l0 l1 l2 l3 l4]. lia.
Qed.

Lemma land_all x : 0 <= x < 2 ^ 32 -> Z.land x (2 ^ 32 - 1) = x.
Proof. intros Hx. change (2 ^ 32 - 1) with (Z.ones 32). rewrite Z.land_ones by lia. by apply Z.mod_small. Qed.

(** The smaller of the value and its difference with the modulus. *)
Lemma finish_select_spec l :
  carried l ->
  (lval l < poly_p /\ finish_select l = l) \/
  (poly_p <= lval l /\ lval (finish_select l) = lval l - poly_p /\
   0 <= l0 (finish_select l) < 2 ^ 26 /\ 0 <= l1 (finish_select l) < 2 ^ 26 /\ 0 <= l2 (finish_select l) < 2 ^ 26 /\
   0 <= l3 (finish_select l) < 2 ^ 26 /\ 0 <= l4 (finish_select l) < 2 ^ 26).
Proof.
  intros (H0 & H1 & H2 & H3 & H4 & _). unfold finish_select. cbv zeta.
  rewrite (wrap_small 32 (l0 l + 5)) by (unfold in_word; lia). rewrite (Z.shiftr_div_pow2 (l0 l + 5)), (land_26 (l0 l + 5)) by lia.
  assert (0 <= (l0 l + 5) / 2 ^ 26 < 2) as B0 by zdiv.
  pose proof (Z.div_mod (l0 l + 5) (2 ^ 26) ltac:(lia)) as E0. pose proof (Z.mod_pos_bound (l0 l + 5) (2 ^ 26) ltac:(lia)) as M0.
  set (b0 := (l0 l + 5) / 2 ^ 26) in *. set (x0 := (l0 l + 5) mod 2 ^ 26) in *. clearbody b0 x0.
  destruct (carry_step (l1 l) b0) as (-> & -> & -> & C1); [lia..|].
  set (b1 := (l1 l + b0) / 2 ^ 26) in *. set (x1 := (l1 l + b0) mod 2 ^ 26) in *. clearbody b1 x1.
  destruct (carry_step (l2 l) b1) as (-> & -> & -> & C2); [lia..|].
  set (b2 := (l2 l + b1) / 2 ^ 26) in *. set (x2 := (l2 l + b1) mod 2 ^ 26) in *. clearbody b2 x2.
  destruct (carry_step (l3 l) b2) as (-> & -> & -> & C3); [lia..|].
  set (b3 := (l3 l + b2) / 2 ^ 26) in *. set (x3 := (l3 l + b2) mod 2 ^ 26) in *. clearbody b3 x3.
  change (Z.shiftl 1 26) with (2 ^ 26). rewrite (Z.shiftr_div_pow2 _ 31) by lia.
  destruct (decide (l4 l + b3 < 2 ^ 26)) as [Hlt|Hge].
  - left. assert (u32 (l4 l + b3 - 2 ^ 26) / 2 ^ 31 = 1) as ->.
    { unfold wrap. pow2. change (2 ^ 26) with 67108864 in *. zdiv. }
    change (u32 (1 - 1)) with 0. change (u32 (Z.lnot 0)) with (2 ^ 32 - 1).
    rewrite !land_all, !Z.land_0_r, !Z.lor_0_r by lia. split; [|by destruct l].
    unfold lval, poly_p. lia.
  - right. assert (u32 (l4 l + b3 - 2 ^ 26) = l4 l + b3 - 2 ^ 26) as -> by (apply wrap_small; unfold in_word; lia).
    assert ((l4 l + b3 - 2 ^ 26) / 2 ^ 31 = 0) as -> by (apply Z.div_small; lia).
    change (u32 (0 - 1)) with (2 ^ 32 - 1). change (u32 (Z.lnot (2 ^ 32 - 1))) with 0.
    rewrite !Z.land_0_r, !Z.lor_0_l, !land_all by lia. unfold lval, poly_p. cbn [l0 l1 l2 l3 l4]. lia.
Qed.

(** ** The tag *)

Lemma le_bytes_split n m lo hi :
  0 <= lo < 256 ^ Z.of_nat n -> le_bytes (n + m) (lo + hi * 256 ^ Z.of_nat n) = le_bytes n lo ++ le_bytes m hi.
Proof.
  intros Hlo. unfold le_bytes. rewrite <-rev_app_distr. f_equal.
  rewrite Nat.add_comm, Z.add_comm. by apply be_bytes_split.
Qed.

Lemma le_bytes_mod n v : le_bytes n (v mod 256 ^ Z.of_nat n) = le_bytes n v.
Proof. unfold le_bytes. f_equal. apply be_bytes_mod. Qed.

Lemma or_words a b s k : 0 <= a < 2 ^ 26 -> 0 <= b < 2 ^ 26 -> 0 <= s <= 26 -> k = 26 - s ->
  Z.lor (Z.shiftr a s) (u32 (Z.shiftl b k)) = a / 2 ^ s + b mod 2 ^ (6 + s) * 2 ^ k.
Proof.
  intros Ha Hb Hs ->.
  assert (u32 (Z.shiftl b (26 - s)) = Z.shiftl (b mod 2 ^ (6 + s)) (26 - s)) as ->.
  { rewrite !Z.shiftl_mul_pow2 by lia. unfold wrap. replace (2 ^ 32) with (2 ^ (6 + s) * 2 ^ (26 - s)).
    - by rewrite Z.mul_mod_distr_r by (apply Z.pow_nonzero; lia).
    - rewrite <-Z.pow_add_r by lia. f_equal. lia. }
  rewrite Z.lor_comm, Z.shiftr_div_pow2 by lia. rewrite lor_shiftl_low; [lia| |lia].
  split; [apply Z.div_pos; lia|]. apply Z.div_lt_upper_bound; [lia|].
  rewrite <-Z.pow_add_r by lia. replace (s + (26 - s)) with 26 by lia. lia.
Qed.

(** Four words with their carries. *)
Lemma mac_words f0 f1 f2 f3 :
  0 <= f0 < 2 ^ 33 -> 0 <= f1 < 2 ^ 33 -> 0 <= f2 < 2 ^ 33 -> 0 <= f3 < 2 ^ 33 ->
  let f1' := u64 (f1 + Z.shiftr f0 32) in
  let f2' := u64 (f2 + Z.shiftr f1' 32) in
  let f3' := u64 (f3 + Z.shiftr f2' 32) in
  U32TO8_LE (u32 f0) ++ U32TO8_LE (u32 f1') ++ U32TO8_LE (u32 f2') ++ U32TO8_LE (u32 f3') =
  le_bytes 16 (f0 + f1 * 2 ^ 32 + f2 * 2 ^ 64 + f3 * 2 ^ 96).
Proof.
  intros H0 H1 H2 H3. cbv zeta. rewrite !Z.shiftr_div_pow2 by lia.
  assert (0 <= f0 / 2 ^ 32 < 2) as B0 by (pow2; zdiv).
  rewrite (wrap_small 64 (f1 + _)) by (unfold in_word; lia). set (c0 := f0 / 2 ^ 32) in *.
  assert (0 <= (f1 + c0) / 2 ^ 32 < 3) as B1 by (clearbody c0; pow2; zdiv).
  rewrite (wrap_small 64 (f2 + _)) by (unfold in_word; lia). set (c1 := (f1 + c0) / 2 ^ 32) in *.
  assert (0 <= (f2 + c1) / 2 ^ 32 < 3) as B2 by (clearbody c1; pow2; zdiv).
  rewrite (wrap_small 64 (f3 + _)) by (unfold in_word; lia). set (c2 := (f2 + c1) / 2 ^ 32) in *.
  pose proof (wrap_range 32 f0 ltac:(lia)) as R0. pose proof (wrap_range 32 (f1 + c0) ltac:(lia)) as R1.
  pose proof (wrap_range 32 (f2 + c1) ltac:(lia)) as R2. unfold in_word in R0, R1, R2.
  assert (f0 + f1 * 2 ^ 32 + f2 * 2 ^ 64 + f3 * 2 ^ 96 =
    u32 f0 + (u32 (f1 + c0) + (u32 (f2 + c1) + (f3 + c2) * 2 ^ 32) * 2 ^ 32) * 2 ^ 32) as ->.
  { pose proof (Z.div_mod f0 (2 ^ 32) ltac:(lia)) as E0. fold c0 in E0.
    pose proof (Z.div_mod (f1 + c0) (2 ^ 32) ltac:(lia)) as E1. fold c1 in E1.
    pose proof (Z.div_mod (f2 + c1) (2 ^ 32) ltac:(lia)) as E2. fold c2 in E2. unfold wrap. lia. }
  unfold U32TO8_LE. change 16%nat with (4 + (4 + (4 + 4)))%nat. change (2 ^ 32) with (256 ^ Z.of_nat 4) in *.
  rewrite !le_bytes_split by done. do 3 f_equal. change (u32 (f3 + c2)) with ((f3 + c2) mod 256 ^ Z.of_nat 4).
  apply le_bytes_mod.
Qed.

Lemma finish_mac_spec l k :
  0 <= l0 l < 2 ^ 26 -> 0 <= l1 l < 2 ^ 26 -> 0 <= l2 l < 2 ^ 26 -> 0 <= l3 l < 2 ^ 26 -> 0 <= l4 l < 2 ^ 26 ->
  bytes k -> length k = 16%nat ->
  finish_mac l k = le_bytes 16 (lval l + le_val k).
Proof.
  intros H0 H1 H2 H3 H4 Hb Hl. destruct (block_words k Hb Hl) as (K0 & K1 & K2 & K3 & ->). unfold in_word in *.
  unfold finish_mac. cbv zeta.
  pose proof (or_words (l0 l) (l1 l) 0 26 ltac:(lia) ltac:(lia) ltac:(lia) eq_refl) as Hw0.
  rewrite Z.shiftr_0_r in Hw0. rewrite Hw0. clear Hw0. rewrite (or_words (l1 l) (l2 l) 6 20), (or_words (l2 l) (l3 l) 12 14),
    (or_words (l3 l) (l4 l) 18 8) by lia.
  change (6 + 0) with 6. change (6 + 6) with 12. change (6 + 12) with 18. change (6 + 18) with 24.
  set (w0 := l0 l / 2 ^ 0 + _). set (w1 := l1 l / 2 ^ 6 + _). set (w2 := l2 l / 2 ^ 12 + _). set (w3 := l3 l / 2 ^ 18 + _).
  assert (0 <= w0 < 2 ^ 32) as W0 by (unfold w0; clear -H0 H1; zdiv).
  assert (0 <= w1 < 2 ^ 32) as W1 by (unfold w1; clear -H1 H2; zdiv).
  assert (0 <= w2 < 2 ^ 32) as W2 by (unfold w2; clear -H2 H3; zdiv).
  assert (0 <= w3 < 2 ^ 32) as W3 by (unfold w3; clear -H3 H4; zdiv).
  assert (lval l = w0 + w1 * 2 ^ 32 + w2 * 2 ^ 64 + w3 * 2 ^ 96 + l4 l / 2 ^ 24 * 2 ^ 128) as Hv.
  { unfold w0, w1, w2, w3, lval. clear -H0 H1 H2 H3 H4. zdiv. }
  clearbody w0 w1 w2 w3.
  rewrite (wrap_small 64 (w0 + _)), (wrap_small 64 (w1 + _)), (wrap_small 64 (w2 + _)), (wrap_small 64 (w3 + _))
    by (unfold in_word; lia).
  rewrite mac_words by lia. rewrite Hv.
  rewrite <-le_bytes_mod. rewrite <-(le_bytes_mod 16 (w0 + _ + _ + _ + _ + _)). f_equal.
  change (256 ^ Z.of_nat 16) with (2 ^ 128). rewrite <-(Z.mod_add _ (l4 l / 2 ^ 24) (2 ^ 128)) by done. f_equal. lia.
Qed.

(** A lowest limb above 26 bits loses its carry where the limb above is odd. *)
Lemma finish_mac_carry x y k :
  0 <= x < 5 -> 0 <= y < 42 ->
  finish_mac (Limbs (2 ^ 26 + x) y 0 0 0) k = finish_mac (Limbs x (Z.lor 1 y) 0 0 0) k.
Proof.
  intros Hx Hy. unfold finish_mac. cbn [l0 l1 l2 l3 l4].
  assert (forall x y, 0 <= x < 5 -> 0 <= y < 42 ->
    Z.lor (2 ^ 26 + x) (u32 (Z.shiftl y 26)) = Z.lor x (u32 (Z.shiftl (Z.lor 1 y) 26)) /\
    Z.shiftr y 6 = Z.shiftr (Z.lor 1 y) 6) as Hall.
  { clear. intros x y Hx Hy.
    assert (forallb (fun x => forallb (fun y =>
      (Z.lor (2 ^ 26 + x) (u32 (Z.shiftl y 26)) =? Z.lor x (u32 (Z.shiftl (Z.lor 1 y) 26))) &&
      (Z.shiftr y 6 =? Z.shiftr (Z.lor 1 y) 6)) (seqZ 0 42)) (seqZ 0 5) = true) as H by (vm_compute; done).
    rewrite forallb_forall in H. specialize (H x). rewrite forallb_forall in H.
    assert (In x (seqZ 0 5)) as Hix by (apply list_elem_of_In, elem_of_seqZ; lia).
    assert (In y (seqZ 0 42)) as Hiy by (apply list_elem_of_In, elem_of_seqZ; lia).
    pose proof (H Hix y Hiy) as Hxy. apply andb_true_iff in Hxy as [->%Z.eqb_eq ->%Z.eqb_eq]. done. }
  destruct (Hall x y Hx Hy) as [-> ->]. done.
Qed.
