(* ===== verification/Poly1305Theorems.v ===== *)
(** The tags of poly1305.c against RFC 8439. *)

From S2P Require Import Prelude CryptoInternal ModesSpec Poly1305 Poly1305Spec.

(** The accumulator of RFC 8439, section 2.5: every segment of the message with
    a one byte appended is added, and the sum multiplied by the clamped key. *)
Definition poly_step (r a : Z) (c : list Z) : Z := ((a + le_val (c ++ [1])) * r) mod poly_p.

Definition poly_acc (r : Z) (cs : list (list Z)) : Z := foldl (poly_step r) 0 cs.

Definition last_segment (l : list Z) : list (list Z) := match l with [] => [] | _ => [l] end.

Definition poly_r (k : list Z) : Z := Z.land (le_val (take 16 k)) clamp.
Definition poly_s (k : list Z) : Z := le_val (take 16 (drop 16 k)).

(** A message authenticated in pieces, in a state made in the memory [st]. *)
Definition poly1305_mac (st : poly1305_state_st) (k : list Z) (pieces : list (list Z)) : list Z :=
  CRYPTO_poly1305_finish (foldl CRYPTO_poly1305_update (CRYPTO_poly1305_init st k) pieces).

(** ** Segments *)

Lemma split16 l : bytes l -> exists cs t, l = concat cs ++ t /\ Forall is_block cs /\ bytes t /\ (length t < 16)%nat.
Proof.
  revert l. induction l as [l IH] using (induction_ltof1 _ length). intros Hb.
  destruct (decide (length l < 16)%nat) as [Hl|Hl]; [by exists [], l|].
  destruct (IH (drop 16 l)) as (cs & t & Hd & Hcs & Ht & Hlt);
    [unfold ltof; rewrite length_drop; lia|auto with words|].
  exists (take 16 l :: cs), t. split; [cbn [concat]; by rewrite <-app_assoc, <-Hd, take_drop|].
  split; [|done]. constructor; [|done]. split; [auto with words|rewrite length_take; lia].
Qed.

Lemma split16_unique cs : forall cs' t t', Forall is_block cs -> Forall is_block cs' ->
  (length t < 16)%nat -> (length t' < 16)%nat -> concat cs ++ t = concat cs' ++ t' -> cs = cs' /\ t = t'.
Proof.
  induction cs as [|c cs IH]; intros [|c' cs'] t t' Hcs Hcs' Ht Ht' He; cbn [concat app] in He.
  - done.
  - apply Forall_cons in Hcs' as [[_ Hc'] _]. subst t. rewrite !length_app in Ht. lia.
  - apply Forall_cons in Hcs as [[_ Hc] _]. subst t'. rewrite !length_app in Ht'. lia.
  - apply Forall_cons in Hcs as [[_ Hc] Hcs]. apply Forall_cons in Hcs' as [[_ Hc'] Hcs'].
    rewrite <-!app_assoc in He. apply app_inj_1 in He as [-> He]; [|lia].
    by destruct (IH _ _ _ Hcs Hcs' Ht Ht' He) as [-> ->].
Qed.

(** ** Blocks *)

Lemma donna_block_spec st m hibit c :
  key_ok st -> acc_ok (h st) -> bytes m -> length m = 16%nat -> hibit = 0 \/ hibit = 2 ^ 24 ->
  le_val m + hibit * 2 ^ 104 = le_val (c ++ [1]) ->
  acc_ok (h (donna_block st m hibit)) /\
  lval (h (donna_block st m hibit)) mod poly_p = poly_step (lval (r st)) (lval (h st) mod poly_p) c.
Proof.
  intros Hk Ha Hb Hl Hh Hc. destruct (add_message_spec (h st) m hibit Ha Hb Hl Hh) as [Hs Hv].
  destruct (donna_mul_spec st _ Hk Hs) as [Hm Hv']. split; [done|]. cbn [donna_block h set_h].
  unfold poly_step. rewrite Hv', Hv, <-Hc.
  rewrite <-(Z.mul_mod_idemp_l (_ + _ + _)), <-(Z.mul_mod_idemp_l (_ mod _ + _)) by done.
  f_equal. f_equal. rewrite Z.add_mod_idemp_l by done. by rewrite Z.add_assoc.
Qed.

Lemma le_val_last t : (length t < 16)%nat ->
  le_val (t ++ [1] ++ replicate (15 - length t) 0) = le_val (t ++ [1]).
Proof.
  intros Ht. rewrite app_assoc, le_val_app. assert (forall n, le_val (replicate n 0) = 0) as ->; [|lia].
  intros n. induction n as [|n IH]; [done|]. change (replicate (S n) 0) with ([0] ++ replicate n 0).
  rewrite le_val_app, IH. done.
Qed.

(** [state] after the segments [cs] of a message. *)
Record poly_inv (k : list Z) (st : poly1305_state_st) (cs : list (list Z)) : Prop := {
  pi_key : key_ok st;
  pi_acc : acc_ok (h st);
  pi_r : lval (r st) = poly_r k;
  pi_h : lval (h st) mod poly_p = poly_acc (poly_r k) cs;
  pi_s : key st = take 16 (drop 16 k)
}.

Lemma poly_inv_block k st cs m hibit c :
  poly_inv k st cs -> bytes m -> length m = 16%nat -> hibit = 0 \/ hibit = 2 ^ 24 ->
  le_val m + hibit * 2 ^ 104 = le_val (c ++ [1]) ->
  poly_inv k (donna_block st m hibit) (cs ++ [c]).
Proof.
  intros [Hk Ha Hr Hh Hs] Hb Hl Hhi Hc. destruct (donna_block_spec st m hibit c) as [Ha' Hh']; [done..|].
  split; [done|done|done| |done]. rewrite Hh', Hr, Hh. unfold poly_acc. by rewrite foldl_snoc.
Qed.

Lemma poly_inv_set_buf k st cs b n : poly_inv k st cs -> poly_inv k (set_poly_buf st b n) cs.
Proof. by intros [? ? ? ? ?]. Qed.

Lemma poly1305_blocks_spec k new : forall fuel st cs t,
  poly_inv k st cs -> Forall is_block new -> bytes t -> (length t < 16)%nat -> (length new <= fuel)%nat ->
  let st' := poly1305_blocks fuel st (concat new ++ t) in
  poly_inv k st' (cs ++ new ++ last_segment t) /\ buf st' = buf st /\ buf_used st' = buf_used st.
Proof.
  induction new as [|c new IH]; intros fuel st cs t Hi Hn Ht Hl Hf; cbn [concat app].
  - assert (poly1305_blocks fuel st t = match t with [] => st | _ => donna_block st (t ++ [1] ++ replicate (15 - length t) 0) 0 end) as ->.
    { destruct fuel; cbn [poly1305_blocks]; by rewrite (proj2 (Nat.ltb_lt _ _)) by done. }
    destruct t as [|b t']; cbn [last_segment]; [by rewrite app_nil_r|]. set (t := b :: t') in *.
    split; [|done]. apply poly_inv_block; [done| | |by left|].
    + apply bytes_app. split; [done|]. apply bytes_app. split; [by repeat constructor|apply bytes_replicate, in_word_0; lia].
    + rewrite !length_app, length_replicate. cbn [length]. lia.
    + rewrite Z.add_0_r. by apply le_val_last.
  - apply Forall_cons in Hn as [[Hcb Hcl] Hn]. destruct fuel as [|fuel]; [cbn in Hf; lia|]. cbn [poly1305_blocks].
    rewrite (proj2 (Nat.ltb_ge _ _)) by (rewrite !length_app; lia).
    rewrite <-app_assoc, take_app_length', drop_app_length' by lia. change (Z.shiftl 1 24) with (2 ^ 24).
    destruct (IH fuel (donna_block st c (2 ^ 24)) (cs ++ [c]) t) as (Hi' & Hb & Hu);
      [|done|done|done|cbn in Hf; lia|].
    + apply poly_inv_block; [done|done|done|by right|]. rewrite le_val_app. unfold blen. rewrite Hcl. done.
    + by rewrite <-app_assoc in Hi'.
Qed.

(** ** The buffer *)

Record buf_inv (k : list Z) (st : poly1305_state_st) (cs : list (list Z)) (t : list Z) : Prop := {
  bi_inv : poly_inv k st cs;
  bi_blocks : Forall is_block cs;
  bi_len : length (buf st) = 16%nat;
  bi_used : buf_used st = blen t;
  bi_lt : (length t < 16)%nat;
  bi_bytes : bytes t;
  bi_buf : take (length t) (buf st) = t
}.

Lemma todo_mask n : 0 <= n < 2 ^ 64 -> Z.land n (u64 (Z.lnot 0xf)) = n / 16 * 16.
Proof.
  intros Hn. change (u64 (Z.lnot 0xf)) with (Z.ones 60 * 2 ^ 4 + 0). rewrite (Z.div_mod n 16) at 1 by done.
  rewrite (Z.mul_comm 16). change 16 with (2 ^ 4).
  rewrite land_digit by (lia || (apply Z.mod_pos_bound; lia) || (apply in_word_0; lia)).
  rewrite Z.land_0_r, Z.add_0_r, Z.land_ones by lia. f_equal. apply Z.mod_small. pow2. zdiv.
Qed.

(** The input after the buffer has been emptied. *)
Lemma update_direct k st cs input :
  poly_inv k st cs -> Forall is_block cs -> length (buf st) = 16%nat -> buf_used st = 0 -> bytes input ->
  blen input < 2 ^ 64 ->
  exists cs' t, buf_inv k (poly1305_direct st input) cs' t /\ concat cs' ++ t = concat cs ++ input.
Proof.
  intros Hi Hcs Hbl Hu Hb Hlen. destruct (split16 input Hb) as (new & t & -> & Hn & Ht & Hlt).
  assert (bytes (concat new)) as Hbn by (by apply bytes_app in Hb as [Hb _]).
  assert (length (concat new) = 16 * length new)%nat as Hcl.
  { clear -Hn. induction Hn as [|c l [_ Hc] Hl IH]; [done|]. cbn [concat length]. rewrite length_app. lia. }
  unfold poly1305_direct. set (step := if 16 <=? blen (concat new ++ t) then _ else _).
  assert (exists st', step = (st', t) /\ poly_inv k st' (cs ++ new) /\ buf st' = buf st /\ buf_used st' = 0) as (st' & -> & Hi' & Hb' & Hu').
  { unfold step. destruct (Z.leb_spec 16 (blen (concat new ++ t))) as [Hge|Hlt16].
    - cbv zeta. rewrite todo_mask by (pose proof (blen_nonneg (concat new ++ t)); lia).
      assert (Z.to_nat (blen (concat new ++ t) / 16 * 16) = length (concat new)) as ->.
      { unfold blen. rewrite length_app, Hcl. zdiv. }
      rewrite take_app_length, drop_app_length. eexists. split; [reflexivity|].
      destruct (poly1305_blocks_spec k new (length (concat new)) st cs []) as (H1 & H2 & H3); [done|done|constructor|cbn; lia|lia|].
      cbn [last_segment] in H1. rewrite !app_nil_r in H2, H3. rewrite (app_nil_r (concat new)), (app_nil_r new) in H1. unfold poly1305_update. by rewrite H2, H3.
    - destruct new as [|c new]; [exists st; by rewrite app_nil_r|].
      apply Forall_cons in Hn as [[_ Hc] _]. unfold blen in Hlt16. cbn [concat] in Hlt16. rewrite !length_app in Hlt16. lia. }
  exists (cs ++ new), t. rewrite concat_app, <-app_assoc. split; [|done].
  assert (Forall is_block (cs ++ new)) as Hall by (by apply Forall_app).
  destruct (Z.eqb_spec (blen t) 0) as [Hz|Hz].
  - apply blen_inv_nil in Hz as ->. split; try done. by rewrite Hb'.
  - split; try done; [by apply poly_inv_set_buf| |]; cbn [buf set_poly_buf]; unfold write_at; change (Z.to_nat 0) with 0%nat; rewrite take_0, app_nil_l, Hb'.
    + rewrite length_app, length_drop. unfold blen. lia.
    + apply take_app_length.
Qed.

Lemma poly1305_update_inv k st cs t input :
  buf_inv k st cs t -> bytes input -> blen input < 2 ^ 64 ->
  exists cs' t', buf_inv k (CRYPTO_poly1305_update st input) cs' t' /\ concat cs' ++ t' = concat cs ++ t ++ input.
Proof.
  intros [Hi Hcs Hbl Hu Hlt Hbt Hbuf] Hb Hlen. unfold CRYPTO_poly1305_update.
  destruct (Z.eqb_spec (buf_used st) 0) as [Hz|Hz].
  { rewrite Hu in Hz. apply blen_inv_nil in Hz as ->. by apply update_direct. }
  set (todo := if blen input <? 16 - buf_used st then blen input else 16 - buf_used st).
  cbn [buf buf_used set_poly_buf]. rewrite Hu in *.
  assert (0 <= todo <= blen input /\ blen t + todo <= 16) as [Ht1 Ht2]
    by (unfold todo, blen in *; zcases; lia).
  set (p := take (Z.to_nat todo) input).
  assert (blen p = todo) as Hp by (unfold p; rewrite blen_take; lia).
  assert (write_at (blen t) p (buf st) = t ++ p ++ drop (Z.to_nat (blen t + todo)) (buf st)) as Hw.
  { unfold write_at. by rewrite Hp, to_nat_blen, Hbuf. }
  assert (length (t ++ p ++ drop (Z.to_nat (blen t + todo)) (buf st)) = 16%nat) as Hwl.
  { rewrite !length_app, length_drop. unfold blen in *. lia. }
  assert (bytes p) as Hbp by (unfold p; auto with words).
  destruct (Z.eqb_spec (blen t + todo) 16) as [H16|H16].
  - (* the buffer is full *)
    assert (t ++ p ++ drop (Z.to_nat (blen t + todo)) (buf st) = t ++ p) as Hfull
      by (by rewrite drop_ge, app_nil_r by lia).
    rewrite Hfull in *. rewrite Hw.
    assert (is_block (t ++ p)) as Hblk by (split; [by apply bytes_app|done]).
    destruct (poly1305_blocks_spec k [t ++ p] (length (t ++ p)) (set_poly_buf st (t ++ p) (blen t + todo)) cs [])
      as (H1 & H2 & H3); [by apply poly_inv_set_buf|by constructor|constructor|cbn; lia|cbn [length]; lia|].
    cbn [concat last_segment] in H1, H2. rewrite !app_nil_r in H2. rewrite !(app_nil_r (t ++ p)), (app_nil_r [t ++ p]) in H1.
    assert (concat cs ++ t ++ input = concat (cs ++ [t ++ p]) ++ drop (Z.to_nat todo) input) as ->.
    { rewrite concat_app. cbn [concat]. rewrite app_nil_r, <-!app_assoc. unfold p. by rewrite take_drop. }
    apply update_direct.
    + by apply poly_inv_set_buf.
    + apply Forall_app. split; [done|by constructor].
    + done.
    + done.
    + auto with words.
    + rewrite blen_drop; lia.
  - assert (todo = blen input) as Htodo by (unfold todo in *; zcases; lia).
    assert (p = input) as Hpi by (unfold p; rewrite Htodo, to_nat_blen; by apply take_ge).
    rewrite Hw, Hpi, Htodo, to_nat_blen, (drop_ge input) by done. rewrite Hpi, Htodo in Hwl. unfold poly1305_direct.
    exists cs, (t ++ input). split; [|done]. change (16 <=? blen []) with false. change (blen [] =? 0) with true. cbv iota.
    split; cbn [buf buf_used set_poly_buf].
    + by apply poly_inv_set_buf.
    + done.
    + done.
    + by rewrite blen_app.
    + rewrite length_app. unfold blen in *. lia.
    + by apply bytes_app.
    + rewrite (app_assoc t input). by apply take_app_length'.
Qed.

Lemma poly1305_updates_inv k pieces : forall st cs t,
  buf_inv k st cs t -> bytes (concat pieces) -> blen (concat pieces) < 2 ^ 64 ->
  exists cs' t', buf_inv k (foldl CRYPTO_poly1305_update st pieces) cs' t' /\ concat cs' ++ t' = concat cs ++ t ++ concat pieces.
Proof.
  induction pieces as [|p pieces IH]; intros st cs t Hi Hb Hl; cbn [foldl concat].
  - exists cs, t. by rewrite app_nil_r.
  - cbn [concat] in Hb, Hl. apply bytes_app in Hb as [Hp Hb]. rewrite blen_app in Hl.
    pose proof (blen_nonneg p). pose proof (blen_nonneg (concat pieces)).
    destruct (poly1305_update_inv k st cs t p Hi Hp) as (cs1 & t1 & Hi1 & He1); [lia|].
    destruct (IH _ cs1 t1 Hi1 Hb) as (cs2 & t2 & Hi2 & He2); [lia|].
    exists cs2, t2. split; [done|]. by rewrite He2, (app_assoc (concat cs1)), He1, <-!app_assoc.
Qed.

(** The value the tag is made from, where the lowest limb has kept a carry. *)
Definition lost_carry (a : Z) : Prop :=
  a mod 2 ^ 26 < 5 /\ Z.even (a / 2 ^ 26) = true /\ 2 <= a / 2 ^ 26 <= 42.

Lemma finish_limbs l a s :
  acc_ok l -> lval l mod poly_p = a -> bytes s -> length s = 16%nat ->
  let mac := finish_mac (finish_select (finish_carry l)) s in
  mac = le_bytes 16 (a + le_val s) \/ (lost_carry a /\ mac = le_bytes 16 (a - 2 ^ 26 + le_val s)).
Proof.
  intros Hl Ha Hb Hs mac. destruct (finish_carry_spec l Hl) as [Hc Hv]. rewrite Ha in Hv. unfold mac. clear mac.
  set (l' := finish_carry l) in *. clearbody l'.
  destruct (finish_select_spec l' Hc) as [[Hlt ->]|(Hge & Hv' & B0 & B1 & B2 & B3 & B4)].
  - destruct Hc as (H0 & H1 & H2 & H3 & H4 & Hcarry).
    assert (lval l' = a) as Hla. { rewrite Z.mod_small in Hv; [done|]. unfold lval in *. lia. }
    destruct (decide (l0 l' < 2 ^ 26)) as [Hsmall|Hbig]; [left; by rewrite finish_mac_spec, Hla by (done || lia)|].
    destruct Hcarry as (Hy & E2 & E3 & E4); [lia|]. destruct l' as [x y y2 y3 y4]. cbn [l0 l1 l2 l3 l4] in *. subst y2 y3 y4.
    replace x with (2 ^ 26 + (x - 2 ^ 26)) by lia. rewrite finish_mac_carry by lia.
    assert (0 <= Z.lor 1 y < 42 /\ Z.lor 1 y = if Z.even y then y + 1 else y) as [Hr Hor].
    { clear -H1 Hy. assert (forallb (fun y => (0 <=? Z.lor 1 y) && (Z.lor 1 y <? 42) && (Z.lor 1 y =? if Z.even y then y + 1 else y)) (seqZ 0 42) = true)
        as Hall by (vm_compute; done).
      rewrite forallb_forall in Hall. specialize (Hall y ltac:(apply list_elem_of_In, elem_of_seqZ; lia)).
      apply andb_true_iff in Hall as [[Ha1%Z.leb_le Ha2%Z.ltb_lt]%andb_true_iff Ha3%Z.eqb_eq]. done. }
    rewrite finish_mac_spec by (cbn [l0 l1 l2 l3 l4]; done || lia). rewrite Hor.
    assert (a = (x - 2 ^ 26) + (y + 1) * 2 ^ 26) as Hax by (rewrite <-Hla; unfold lval; cbn [l0 l1 l2 l3 l4]; lia).
    destruct (Z.even y) eqn:He.
    + left. f_equal. f_equal. unfold lval. cbn [l0 l1 l2 l3 l4]. lia.
    + right. assert (y <> 0) by (by intros ->). split.
      * unfold lost_carry. rewrite Hax, Z.mod_add, Z.div_add by done. rewrite (Z.mod_small (x - _)), (Z.div_small (x - _)) by lia.
        split; [lia|]. split; [|lia]. rewrite Z.add_0_l, Z.add_1_r, Z.even_succ, <-Z.negb_even, He. done.
      * f_equal. f_equal. unfold lval. cbn [l0 l1 l2 l3 l4]. lia.
  - left. rewrite finish_mac_spec by done. rewrite Hv'. f_equal. f_equal.
    rewrite <-Hv. rewrite <-(Z.mod_small (lval l' - poly_p) poly_p).
    + replace (lval l' - poly_p) with (lval l' + (-1) * poly_p) by lia. by rewrite Z.mod_add.
    + destruct Hc as (H0 & H1 & H2 & H3 & H4 & _). split; [lia|]. unfold lval, poly_p in *. lia.
Qed.

(** C20: The tag of a message that is fed in pieces, however it is cut, is that
    of RFC 8439: the accumulator [a] modulo 2^130 - 5 over the segments of
    sixteen bytes, plus the second half of the key, modulo 2^128. No column of
    the product overflows and no carry is lost on the way. There is one
    exception, and it changes the tag: the last reduction carries from the top
    limb into the lowest one and stops there, and the limbs are then combined
    with an or, so for the few accumulators of [lost_carry] the tag may be too
    small by 2^26. *)
Theorem poly1305_streaming st k segs last pieces :
  bytes k -> length k = 32%nat -> length (buf st) = 16%nat ->
  Forall is_block segs -> bytes last -> (length last < 16)%nat ->
  concat pieces = concat segs ++ last -> blen (concat pieces) < 2 ^ 64 ->
  let a := poly_acc (poly_r k) (segs ++ last_segment last) in
  poly1305_mac st k pieces = le_bytes 16 (a + poly_s k) \/
  (lost_carry a /\ poly1305_mac st k pieces = le_bytes 16 (a - 2 ^ 26 + poly_s k)).
Proof.
  intros Hk Hlk Hbuf Hs Hb Hl Hc Hlen a.
  destruct (poly1305_init_spec st k Hk Hlk) as (I1 & I2 & I3 & I4 & I5 & I6 & I7).
  assert (buf_inv k (CRYPTO_poly1305_init st k) [] []) as Hi.
  { split; [|constructor|by rewrite I6|done|cbn; lia|constructor|done].
    split; [done|done|done| |done]. rewrite I3. done. }
  assert (bytes (concat pieces)) as Hbp.
  { rewrite Hc. apply bytes_app. split; [|done]. apply Forall_concat. eapply Forall_impl; [exact Hs|]. by intros x [??]. }
  destruct (poly1305_updates_inv k pieces _ _ _ Hi Hbp Hlen) as (cs & t & [Hp Hcs Hbl Hu Hlt Hbt Hbt'] & He).
  cbn [concat app] in He. rewrite Hc in He.
  destruct (split16_unique _ _ _ _ Hcs Hs Hlt Hl He) as [-> ->].
  unfold poly1305_mac, CRYPTO_poly1305_finish. set (st' := foldl _ _ _) in *. rewrite Hu.
  assert (bytes (take 16 (drop 16 k)) /\ length (take 16 (drop 16 k)) = 16%nat) as [Hkb Hkl].
  { split; [auto with words|]. rewrite length_take, length_drop. lia. }
  set (st2 := if blen last =? 0 then st' else _).
  assert (poly_inv k st2 (segs ++ last_segment last)) as [_ Ha _ Hh Hks].
  { unfold st2. destruct (Z.eqb_spec (blen last) 0) as [Hz|Hz].
    - apply blen_inv_nil in Hz as ->. by rewrite app_nil_r.
    - rewrite to_nat_blen, Hbt'.
      destruct (poly1305_blocks_spec k [] (length last) st' segs last) as (H1 & _); [done|constructor|done|done|cbn; lia|done]. }
  rewrite Hks. by apply finish_limbs.
Qed.

Definition fresh_state : poly1305_state_st :=
  Poly1305 (Limbs 0 0 0 0 0) 0 0 0 0 (Limbs 0 0 0 0 0) (replicate 16 0) 0 [].

(** The message and key of RFC 8439, section 2.5.2, in three pieces. *)
Lemma poly1305_streaming_witness :
  let k := [0x85; 0xd6; 0xbe; 0x78; 0x57; 0x55; 0x6d; 0x33; 0x7f; 0x44; 0x52; 0xfe; 0x42; 0xd5; 0x06; 0xa8;
            0x01; 0x03; 0x80; 0x8a; 0xfb; 0x0d; 0xb2; 0xfd; 0x4a; 0xbf; 0xf6; 0xaf; 0x41; 0x49; 0xf5; 0x1b] in
  let m1 := [0x43; 0x72; 0x79; 0x70; 0x74; 0x6f; 0x67; 0x72; 0x61; 0x70; 0x68; 0x69; 0x63; 0x20; 0x46; 0x6f] in
  let m2 := [0x72; 0x75; 0x6d; 0x20; 0x52; 0x65; 0x73; 0x65; 0x61; 0x72; 0x63; 0x68; 0x20; 0x47; 0x72; 0x6f] in
  let a := poly_acc (poly_r k) ([m1; m2] ++ last_segment [0x75; 0x70]) in
  poly1305_mac fresh_state k [take 5 m1; drop 5 m1 ++ m2; [0x75; 0x70]] = le_bytes 16 (a + poly_s k) /\
  le_bytes 16 (a + poly_s k) =
    [0xa8; 0x06; 0x1d; 0xc1; 0x30; 0x51; 0x36; 0xc6; 0xc2; 0x2b; 0x8b; 0xaf; 0x0c; 0x01; 0x27; 0xa9].
Proof.
  intros k m1 m2 a. split; [|vm_compute; reflexivity].
  destruct (poly1305_streaming fresh_state k [m1; m2] [0x75; 0x70] [take 5 m1; drop 5 m1 ++ m2; [0x75; 0x70]]) as [H|[H _]].
  - apply (bool_decide_unpack _). vm_compute. done.
  - reflexivity.
  - reflexivity.
  - apply (bool_decide_unpack _). vm_compute. done.
  - apply (bool_decide_unpack _). vm_compute. done.
  - cbn. lia.
  - reflexivity.
  - vm_compute. reflexivity.
  - exact H.
  - exfalso. revert H. vm_compute. intros [H _]. discriminate H.
Defined.

(** The exception is real: for this key, whose second half is zero, and this
    message of one block the accumulator is 2^27, and the tag computed is 2^26. *)
Example poly1305_lost_carry :
  let k := [0xfb; 0xff; 0xff; 0x03] ++ replicate 28 0 in
  let m := [0xc9; 0xb7; 0xfc; 0x6d; 0xf9; 0x96; 0xf1; 0x2d; 0xdf; 0x5a; 0xbe; 0xe5; 0x7b; 0xcb; 0xb7; 0xfc] in
  poly_acc (poly_r k) [m] + poly_s k = 2 ^ 27 /\ lost_carry (2 ^ 27) /\
  poly1305_mac fresh_state k [m] = le_bytes 16 (2 ^ 26) /\ le_bytes 16 (2 ^ 26) <> le_bytes 16 (2 ^ 27).
Proof. vm_compute. repeat split; congruence. Qed.
