(* ===== verification/Stack.v ===== *)
(** crypto/stack/stack.c: growable arrays of pointers with an optional order.

    A stack is NULL ([None]) or a structure with its array; the array has
    [num_alloc] slots. The functions run in the error-state monad over the
    stack they are given, and failure is an access outside of the array. The
    elements are pointers: [None] is NULL. *)

From S2P Require Import Prelude CryptoInternal.

Definition kMinSize : Z := 4.
Definition sizeof_void_ptr : Z := 8.
Definition sizeof_STACK : Z := 40.

Abbreviation ptr A := (option A).

(** [comp = None] is the NULL comparison function. *)
Record _STACK (A F : Type) := Stack {
  num : Z;
  data : list (ptr A);
  sorted : bool;
  num_alloc : Z;
  comp : option F
}.
Arguments Stack {A F}.
Arguments num {A F}.
Arguments data {A F}.
Arguments sorted {A F}.
Arguments num_alloc {A F}.
Arguments comp {A F}.

(** ** Arrays *)

Definition array_get {S A} (l : list A) (i : Z) : M S A :=
  match (if i <? 0 then None else l !! Z.to_nat i) with
  | None => mfail
  | Some x => mret x
  end.

Definition array_set {S A} (l : list A) (i : Z) (x : A) : M S (list A) :=
  if (0 <=? i) && (i <? blen l) then mret (<[Z.to_nat i := x]> l) else mfail.

(** [memmove (&l[dst], &l[src], n elements)] inside one array. *)
Definition array_move {S A} (l : list A) (dst src n : Z) : M S (list A) :=
  if (0 <=? dst) && (0 <=? src) && (dst + n <=? blen l) && (src + n <=? blen l) && (0 <=? n) then
    mret (take (Z.to_nat dst) l ++ take (Z.to_nat n) (drop (Z.to_nat src) l) ++
          drop (Z.to_nat (dst + n)) l)
  else mfail.

Section Stack.
Context {m : Malloc}.
Context {A stack_cmp_func : Type} `{EqDecision A} `{EqDecision stack_cmp_func}.
(** The contents of memory that was never written. *)
Context (uninit : Z -> ptr A).
(** The typed wrapper of the comparison function. *)
Context (call_cmp_func : stack_cmp_func -> ptr A -> ptr A -> Z).

Abbreviation stack := (_STACK A stack_cmp_func).

Definition set_sk_data (d : list (ptr A)) (sk : stack) : stack :=
  Stack (num sk) d (sorted sk) (num_alloc sk) (comp sk).
Definition set_num (n : Z) (sk : stack) : stack :=
  Stack n (data sk) (sorted sk) (num_alloc sk) (comp sk).
Definition set_sorted (b : bool) (sk : stack) : stack :=
  Stack (num sk) (data sk) b (num_alloc sk) (comp sk).
Definition set_alloc (d : list (ptr A)) (n : Z) (sk : stack) : stack :=
  Stack (num sk) d (sorted sk) n (comp sk).
Definition set_comp (c : option stack_cmp_func) (sk : stack) : stack :=
  Stack (num sk) (data sk) (sorted sk) (num_alloc sk) c.

(** An uninitialised array of [bytes / sizeof(void * )] pointers. *)
Definition malloc_array (bytes : Z) : option (list (ptr A)) :=
  _ ← OPENSSL_malloc bytes; Some (uninit <$> seqZ 0 (bytes / sizeof_void_ptr)).

(** [OPENSSL_realloc] copies what fits of the old array. *)
Definition realloc_array (d : list (ptr A)) (bytes : Z) : option (list (ptr A)) :=
  new ← malloc_array bytes;
  let n := Nat.min (length d) (length new) in
  Some (take n d ++ drop n new).

Definition sk_new (c : option stack_cmp_func) : option stack :=
  _ ← OPENSSL_malloc sizeof_STACK;
  _ ← malloc_array (sizeof_void_ptr * kMinSize);
  Some (Stack 0 (replicate (Z.to_nat kMinSize) None) false kMinSize c).

Definition sk_new_null : option stack := sk_new None.

Abbreviation SK := (M (option stack)).

Definition sk_num : SK Z :=
  sk ← mget; match sk with None => mret 0 | Some s => mret (num s) end.

Definition sk_zero : SK unit :=
  sk ← mget;
  match sk with
  | None => mret tt
  | Some s =>
      if num s =? 0 then mret tt
      else if num s <=? blen (data s) then
        mput (Some (set_sorted false (set_num 0
          (set_sk_data (replicate (Z.to_nat (num s)) None ++ drop (Z.to_nat (num s)) (data s)) s))))
      else mfail
  end.

Definition sk_value (i : Z) : SK (ptr A) :=
  sk ← mget;
  match sk with
  | None => mret None
  | Some s => if num s <=? i then mret None else array_get (data s) i
  end.

Definition sk_set (i : Z) (value : ptr A) : SK (ptr A) :=
  sk ← mget;
  match sk with
  | None => mret None
  | Some s =>
      if num s <=? i then mret None
      else
        d ← array_set (data s) i value;
        _ ← mput (Some (set_sk_data d s));
        mret value
  end.

Definition sk_free : SK unit := mput None.

(** The size the array grows to, and its size in bytes; [None] if no growth is
    representable. *)
Definition grow_alloc (num_alloc : Z) : option (Z * Z) :=
  let overflows new_alloc alloc_size :=
    (new_alloc <? num_alloc) || negb (alloc_size / sizeof_void_ptr =? new_alloc) in
  let new_alloc := u64 (Z.shiftl num_alloc 1) in
  let alloc_size := u64 (new_alloc * sizeof_void_ptr) in
  let '(new_alloc, alloc_size) :=
    if overflows new_alloc alloc_size
    then let new_alloc := u64 (num_alloc + 1) in (new_alloc, u64 (new_alloc * sizeof_void_ptr))
    else (new_alloc, alloc_size) in
  if overflows new_alloc alloc_size then None else Some (new_alloc, alloc_size).

(** Make room for one more element; the result is whether there is. *)
Definition sk_reserve_one (s : stack) : option stack :=
  if num_alloc s <=? u64 (num s + 1) then
    '(new_alloc, alloc_size) ← grow_alloc (num_alloc s);
    d ← realloc_array (data s) alloc_size;
    Some (set_alloc d new_alloc s)
  else Some s.

Definition sk_insert (p : ptr A) (pos : Z) : SK Z :=
  sk ← mget;
  match sk with
  | None => mret 0
  | Some s =>
      match sk_reserve_one s with
      | None => mret 0
      | Some s =>
          d ← (if num s <=? pos then array_set (data s) (num s) p
               else
                 d ← array_move (data s) (pos + 1) pos (num s - pos);
                 array_set d pos p);
          let n := u64 (num s + 1) in
          _ ← mput (Some (set_sorted false (set_num n (set_sk_data d s))));
          mret n
      end
  end.

Definition sk_delete (pos : Z) : SK (ptr A) :=
  sk ← mget;
  match sk with
  | None => mret None
  | Some s =>
      if num s <=? pos then mret None
      else
        ret ← array_get (data s) pos;
        d ← (if negb (pos =? u64 (num s - 1))
             then array_move (data s) pos (pos + 1) (num s - pos - 1)
             else mret (data s));
        _ ← mput (Some (set_num (u64 (num s - 1)) (set_sk_data d s)));
        mret ret
  end.

(** The linear searches: the first index below [n] whose element satisfies
    [test]. *)
Fixpoint find_index {S} (test : ptr A -> bool) (d : list (ptr A)) (n : nat) (i : Z) : M S (option Z) :=
  match n with
  | O => mret None
  | Datatypes.S n =>
      x ← array_get d i;
      if test x then mret (Some i) else find_index test d n (i + 1)
  end.

Definition sk_delete_ptr (p : ptr A) : SK (ptr A) :=
  sk ← mget;
  match sk with
  | None => mret None
  | Some s =>
      i ← find_index (fun x => bool_decide (x = p)) (data s) (Z.to_nat (num s)) 0;
      match i with
      | None => mret None
      | Some i => sk_delete i
      end
  end.

Definition sk_is_sorted : SK bool :=
  sk ← mget; match sk with None => mret true | Some s => mret (sorted s) end.

(** The binary search: [r] compares [p] with an element. *)
Fixpoint bsearch {S} (fuel : nat) (r : ptr A -> Z) (d : list (ptr A)) (lo hi : Z) : M S (option Z) :=
  match fuel with
  | O => mfail
  | Datatypes.S fuel =>
      if lo <? hi then
        let mid := lo + (hi - lo - 1) / 2 in
        elem ← array_get d mid;
        if 0 <? r elem then bsearch fuel r d (mid + 1) hi
        else if r elem <? 0 then bsearch fuel r d lo mid
        else if hi - lo =? 1 then mret (Some mid)
        else bsearch fuel r d lo (mid + 1)
      else mret None
  end.

(** The result is [*out_index], or [None] when 0 is returned. *)
Definition sk_find (p : ptr A) : SK (option Z) :=
  sk ← mget;
  match sk with
  | None => mret None
  | Some s =>
      match comp s with
      | None => find_index (fun x => bool_decide (x = p)) (data s) (Z.to_nat (num s)) 0
      | Some c =>
          match p with
          | None => mret None
          | Some _ =>
              srt ← sk_is_sorted;
              if negb srt
              then find_index (fun x => call_cmp_func c p x =? 0) (data s) (Z.to_nat (num s)) 0
              else bsearch (S (Z.to_nat (num s))) (call_cmp_func c p) (data s) 0 (num s)
          end
      end
  end.

Definition sk_shift : SK (ptr A) :=
  sk ← mget;
  match sk with
  | None => mret None
  | Some s => if num s =? 0 then mret None else sk_delete 0
  end.

Definition sk_push (p : ptr A) : SK Z :=
  sk ← mget;
  match sk with
  | None => mret 0
  | Some s => sk_insert p (num s)
  end.

Definition sk_pop : SK (ptr A) :=
  sk ← mget;
  match sk with
  | None => mret None
  | Some s => if num s =? 0 then mret None else sk_delete (u64 (num s - 1))
  end.

(** The new stack, or NULL. *)
Definition sk_dup (sk : option stack) : option stack :=
  s ← sk;
  _ ← OPENSSL_malloc sizeof_STACK;
  d ← malloc_array (u64 (sizeof_void_ptr * num_alloc s));
  Some (Stack (num s) (take (Z.to_nat (num s)) (data s) ++ drop (Z.to_nat (num s)) d)
          (sorted s) (num_alloc s) (comp s)).

(** The C library's sort: some ascending rearrangement. *)
Context (qsort : (ptr A -> ptr A -> Z) -> list (ptr A) -> list (ptr A)).

Definition sk_sort : SK unit :=
  sk ← mget;
  match sk with
  | None => mret tt
  | Some s =>
      match comp s with
      | None => mret tt
      | Some c =>
          if sorted s then mret tt
          else
            d ← (if 2 <=? num s then
                   if num s <=? blen (data s) then
                     mret (qsort (call_cmp_func c) (take (Z.to_nat (num s)) (data s)) ++
                           drop (Z.to_nat (num s)) (data s))
                   else mfail
                 else mret (data s));
            mput (Some (set_sorted true (set_sk_data d s)))
      end
  end.

(** The stack is not NULL. *)
Definition sk_set_cmp_func (c : option stack_cmp_func) : SK (option stack_cmp_func) :=
  sk ← mget;
  match sk with
  | None => mfail
  | Some s =>
      let old := comp s in
      let s := if bool_decide (comp s = c) then s else set_sorted false s in
      _ ← mput (Some (set_comp c s));
      mret old
  end.

(** ** Owning the elements

    [X] is the state the client's copy and free functions work on; failure is
    an access outside of the array or a fault of those functions. *)

Section Owned.
Context {X : Type} (call_copy_func : A -> M X (ptr A)) (call_free_func : A -> M X unit).

(** [for (i = 0; i < n; i++) if (d[i] != NULL) free(d[i])] *)
Fixpoint free_elems (d : list (ptr A)) (n : nat) (i : Z) : M X unit :=
  match n with
  | O => mret tt
  | S n =>
      x ← array_get d i;
      _ ← match x with None => mret tt | Some a => call_free_func a end;
      free_elems d n (i + 1)
  end.

Definition sk_pop_free_ex (sk : option stack) : M X unit :=
  match sk with
  | None => mret tt
  | Some s => free_elems (data s) (Z.to_nat (num s)) 0
  end.

(** The entry point kept for old callers: [free_func] is called directly. *)
Definition sk_pop_free (sk : option stack) : M X unit := sk_pop_free_ex sk.

(** The copying loop, from index [i] on with [n] elements to go; [None]: a copy
    failed and the ones made before were freed. *)
Fixpoint copy_elems (d : list (ptr A)) (n : nat) (i : Z) : M X (option (list (ptr A))) :=
  match n with
  | O => mret (Some d)
  | S n =>
      x ← array_get d i;
      match x with
      | None => copy_elems d n (i + 1)
      | Some a =>
          y ← call_copy_func a;
          d ← array_set d i y;
          match y with
          | None => _ ← free_elems d (Z.to_nat i) 0; mret None
          | Some _ => copy_elems d n (i + 1)
          end
      end
  end.

Definition sk_deep_copy (sk : option stack) : M X (option stack) :=
  match sk_dup sk with
  | None => mret None
  | Some ret =>
      d ← copy_elems (data ret) (Z.to_nat (num ret)) 0;
      match d with
      | None => mret None
      | Some d => mret (Some (set_sk_data d ret))
      end
  end.
End Owned.
End Stack.
