(* ===== verification/StackSpec.v ===== *)
(** The stacks of stack.c against lists: what each operation does to the list of
    the elements, and the binary search. *)

From S2P Require Import Prelude CryptoInternal Stack.

(** ** Arrays *)

Section Arrays.
Context {S A : Type}.

Lemma array_get_ok (l : list A) i x (s : S) :
  0 <= i -> l !! Z.to_nat i = Some x -> array_get l i s = (Some x, s).
Proof. intros Hi Hl. unfold array_get. by rewrite (proj2 (Z.ltb_ge _ _)), Hl by lia. Qed.

Lemma array_set_ok (l : list A) i x (s : S) :
  0 <= i < blen l -> array_set l i x s = (Some (<[Z.to_nat i := x]> l), s).
Proof.
  intros Hi. unfold array_set.
  by rewrite (proj2 (Z.leb_le _ _)), (proj2 (Z.ltb_lt _ _)) by lia.
Qed.

Lemma array_move_ok (l : list A) dst src n (s : S) :
  0 <= dst -> 0 <= src -> 0 <= n -> dst + n <= blen l -> src + n <= blen l ->
  array_move l dst src n s =
    (Some (take (Z.to_nat dst) l ++ take (Z.to_nat n) (drop (Z.to_nat src) l) ++
           drop (Z.to_nat (dst + n)) l), s).
Proof. intros. unfold array_move. by rewrite !(proj2 (Z.leb_le _ _)) by lia. Qed.

Lemma lookup_Z (l : list A) i : 0 <= i < blen l -> exists x, l !! Z.to_nat i = Some x.
Proof. intros Hi. apply lookup_lt_is_Some_2. unfold blen in Hi. lia. Qed.
End Arrays.

(** ** Searching *)

(** The first index whose element satisfies [test]. *)
Definition first_index {A} (test : A -> bool) (l : list A) : option Z :=
  (fun ix => Z.of_nat ix.1) <$> list_find test l.

Lemma first_index_None {A} (test : A -> bool) l :
  first_index test l = None <-> forall i x, l !! i = Some x -> test x = false.
Proof.
  unfold first_index. rewrite fmap_None, list_find_None, Forall_lookup.
  split; intros H i x Hi; specialize (H i x Hi); destruct (test x); naive_solver.
Qed.

Lemma first_index_Some {A} (test : A -> bool) l i :
  first_index test l = Some i <->
  0 <= i /\ (exists x, l !! Z.to_nat i = Some x /\ test x = true) /\
  (forall j x, (j < Z.to_nat i)%nat -> l !! j = Some x -> test x = false).
Proof.
  unfold first_index. rewrite fmap_Some. split.
  - intros ([n x] & (Hn & Hx & Hlt)%list_find_Some & ->). simpl. rewrite Nat2Z.id.
    split; [lia|]. split; [exists x; split; [done|by apply Is_true_eq_true]|].
    intros j y Hj Hy. specialize (Hlt j y Hy Hj). destruct (test y); [by destruct Hlt|done].
  - intros (Hi & (x & Hx & Ht) & Hlt). exists (Z.to_nat i, x). split; [|simpl; lia].
    apply list_find_Some. split; [done|]. split; [by rewrite Ht|].
    intros j y Hy Hj. rewrite (Hlt j y Hj Hy). by intros [].
Qed.

Lemma find_index_ok {S A} (test : ptr A -> bool) n : forall (pre l post : list (ptr A)) (s : S),
  length l = n -> 
  find_index test (pre ++ l ++ post) n (blen pre) s =
    (Some ((fun i => blen pre + i) <$> first_index test l), s).
Proof.
  induction n as [|n IH]; intros pre l post s Hl; cbn [find_index].
  - by apply nil_length_inv in Hl as ->.
  - destruct l as [|x l]; [done|]. injection Hl as Hl.
    rewrite (bind_ok _ _ s x s).
    2: { apply array_get_ok; [apply blen_nonneg|]. rewrite to_nat_blen. by apply list_lookup_middle. }
    unfold first_index. cbn [list_find]. destruct (decide (test x)) as [Ht|Ht].
    + rewrite (Is_true_eq_true _ Ht). simpl. by rewrite Z.add_0_r.
    + rewrite (not_true_is_false (test x)) by (intros Ht'; apply Ht; by rewrite Ht').
      specialize (IH (pre ++ [x]) l post s Hl). rewrite <-app_assoc in IH. cbn [app] in IH.
      rewrite blen_app, blen_singleton in IH. cbn [app]. rewrite IH.
      unfold first_index. destruct (list_find test l) as [[i y]|]; simpl; [|done].
      do 2 f_equal. f_equal. lia.
Qed.

(** [r] compares the key with an element of an ascending array: the elements
    below the key come first, those above it last. *)
Definition cut {A} (r : A -> Z) (l : list A) : Prop :=
  forall i j x y, (i < j)%nat -> l !! i = Some x -> l !! j = Some y ->
    (r x <= 0 -> r y <= 0) /\ (r x < 0 -> r y < 0).

(** What is known of an interval [lo, hi) of the search. *)
Definition narrowed {A} (r : A -> Z) (l : list A) (lo hi : Z) : Prop :=
  (forall i x, (i < Z.to_nat lo)%nat -> l !! i = Some x -> 0 < r x) /\
  ((exists i x, lo <= Z.of_nat i < hi /\ l !! i = Some x /\ r x = 0) \/
   (forall i x, hi <= Z.of_nat i -> l !! i = Some x -> r x <> 0)).

Lemma narrowed_empty {A} (r : A -> Z) l lo hi :
  hi <= lo -> narrowed r l lo hi -> first_index (fun x => r x =? 0) l = None.
Proof.
  intros Hle [Hlo Hhi]. apply first_index_None. intros i x Hi. apply Z.eqb_neq.
  destruct Hhi as [(j & y & Hj & _)|Hhi]; [lia|].
  destruct (decide (Z.of_nat i < lo)).
  - specialize (Hlo i x ltac:(lia) Hi). lia.
  - apply (Hhi i x); [lia|done].
Qed.

Lemma narrowed_one {A} (r : A -> Z) l lo x :
  0 <= lo -> narrowed r l lo (lo + 1) -> l !! Z.to_nat lo = Some x -> r x = 0 ->
  first_index (fun x => r x =? 0) l = Some lo.
Proof.
  intros Hlo0 [Hlo _] Hx Hr. apply first_index_Some. split; [done|]. split.
  - exists x. split; [done|]. by apply Z.eqb_eq.
  - intros j y Hj Hy. specialize (Hlo j y Hj Hy). apply Z.eqb_neq. lia.
Qed.

Lemma bsearch_first {S A} (r : ptr A -> Z) (l post : list (ptr A)) fuel : forall lo hi (s : S),
  cut r l -> 0 <= lo <= hi -> hi <= blen l -> narrowed r l lo hi -> hi - lo < Z.of_nat fuel ->
  bsearch fuel r (l ++ post) lo hi s = (Some (first_index (fun x => r x =? 0) l), s).
Proof.
  induction fuel as [|fuel IH]; intros lo hi s Hcut Hlo Hhi Hn Hf; [lia|]. cbn [bsearch].
  destruct (Z.ltb_spec lo hi) as [Hlt|Hge]; [|by rewrite (narrowed_empty r l lo hi)].
  cbv zeta. set (mid := lo + (hi - lo - 1) / 2).
  assert (lo <= mid < hi /\ (1 < hi - lo -> mid + 1 < hi)) as [Hmid Hmid1] by (unfold mid; split; zdiv).
  destruct (lookup_Z l mid) as [e He]; [lia|].
  assert (array_get (l ++ post) mid s = (Some e, s)) as Hget.
  { apply array_get_ok; [lia|]. by apply lookup_app_l_Some. }
  rewrite (bind_ok _ _ _ _ _ Hget). destruct Hn as [Hnlo Hnhi].
  destruct (Z.ltb_spec 0 (r e)) as [Hpos|Hle].
  { assert (forall i x, (i < Z.to_nat (mid + 1))%nat -> l !! i = Some x -> 0 < r x) as Hbelow.
    { intros i x Hi Hx. destruct (decide (i = Z.to_nat mid)) as [->|Hne]; [congruence|].
      destruct (Z.lt_ge_cases 0 (r x)) as [|Hx0]; [done|].
      destruct (Hcut i (Z.to_nat mid) x e) as [Hc _]; [lia|done|done|]. lia. }
    apply IH; try done; try lia. split; [done|].
    destruct Hnhi as [(i & x & Hi & Hx & Hr)|]; [|by right]. left. exists i, x. split; [|done].
    destruct (Z.lt_ge_cases (Z.of_nat i) (mid + 1)); [|lia].
    specialize (Hbelow i x ltac:(lia) Hx). lia. }
  destruct (Z.ltb_spec (r e) 0) as [Hneg|Hge0].
  { assert (forall i x, mid <= Z.of_nat i -> l !! i = Some x -> r x < 0) as Habove.
    { intros i x Hi Hx. destruct (decide (i = Z.to_nat mid)) as [->|Hne]; [congruence|].
      destruct (Hcut (Z.to_nat mid) i e x) as [_ Hc]; [lia|done|done|]. lia. }
    apply IH; try done; try lia. split; [done|]. right. intros i x Hi Hx.
    specialize (Habove i x Hi Hx). lia. }
  assert (r e = 0) as He0 by lia. destruct (Z.eqb_spec (hi - lo) 1) as [H1|H1].
  - assert (mid = lo) as Hml by lia. rewrite Hml in *.
    assert (hi = lo + 1) as -> by lia. rewrite (narrowed_one r l lo e); try done. lia.
  - apply IH; try done; try lia. split; [done|]. left. exists (Z.to_nat mid), e.
    split; [lia|done].
Qed.

(** Whatever the array holds, the search stays inside it and what it finds
    matches. *)
Lemma bsearch_safe {S A} (r : ptr A -> Z) (l post : list (ptr A)) fuel : forall lo hi (s : S),
  0 <= lo <= hi -> hi <= blen l -> hi - lo < Z.of_nat fuel ->
  exists o, bsearch fuel r (l ++ post) lo hi s = (Some o, s) /\
    (forall i, o = Some i -> exists x, l !! Z.to_nat i = Some x /\ r x = 0).
Proof.
  induction fuel as [|fuel IH]; intros lo hi s Hlo Hhi Hf; [lia|]. cbn [bsearch].
  destruct (Z.ltb_spec lo hi) as [Hlt|Hge]; [|by exists None].
  cbv zeta. set (mid := lo + (hi - lo - 1) / 2).
  assert (lo <= mid < hi /\ (1 < hi - lo -> mid + 1 < hi)) as [Hmid Hmid1] by (unfold mid; split; zdiv).
  destruct (lookup_Z l mid) as [e He]; [lia|].
  assert (array_get (l ++ post) mid s = (Some e, s)) as Hget.
  { apply array_get_ok; [lia|]. by apply lookup_app_l_Some. }
  rewrite (bind_ok _ _ _ _ _ Hget).
  destruct (Z.ltb_spec 0 (r e)); [apply IH; lia|].
  destruct (Z.ltb_spec (r e) 0); [apply IH; lia|].
  destruct (Z.eqb_spec (hi - lo) 1); [|apply IH; lia].
  exists (Some mid). split; [done|]. intros i [= <-]. exists e. split; [done|lia].
Qed.

(** ** Lists under the array *)

Section Spec.
Context {m : Malloc}.
Context {A stack_cmp_func : Type} `{EqDecision A} `{EqDecision stack_cmp_func}.
Context (uninit : Z -> ptr A) (call_cmp_func : stack_cmp_func -> ptr A -> ptr A -> Z).

Abbreviation stack := (_STACK A stack_cmp_func).
Implicit Types s : stack.

Record sk_ok (s : stack) : Prop := {
  ok_alloc : blen (data s) = num_alloc s;
  ok_num : 0 <= num s <= num_alloc s;
  ok_min : kMinSize <= num_alloc s < 2 ^ 61
}.

(** The elements: the slots in use. *)
Definition elems (s : stack) : list (ptr A) := take (Z.to_nat (num s)) (data s).
Definition spare (s : stack) : list (ptr A) := drop (Z.to_nat (num s)) (data s).

Lemma data_split s : data s = elems s ++ spare s.
Proof. symmetry. apply take_drop. Qed.

Lemma blen_elems s : sk_ok s -> blen (elems s) = num s.
Proof. intros [H1 H2 _]. apply blen_take. lia. Qed.

Lemma blen_spare s : sk_ok s -> blen (spare s) = num_alloc s - num s.
Proof. intros [H1 H2 _]. unfold spare. rewrite blen_drop; lia. Qed.

Lemma u64_num s k : sk_ok s -> -1 <= k <= 1 -> 0 <= num s + k -> u64 (num s + k) = num s + k.
Proof.
  intros [_ H2 H3] Hk H0. apply wrap_small. change (2 ^ 61) with 2305843009213693952 in H3.
  unfold in_word. pow2. lia.
Qed.

(** A stack built from its elements and its spare slots. *)
Lemma mk_ok l sp (srt : bool) n c :
  blen l + blen sp = n -> kMinSize <= n < 2 ^ 61 ->
  let s := Stack (blen l) (l ++ sp) srt n c in sk_ok s /\ elems s = l.
Proof.
  intros Hn Hm s. split; [split; simpl; blia|]. unfold elems. simpl. apply take_blen_app.
Qed.

(** ** Growth *)

Lemma grow_alloc_ok n n' sz :
  kMinSize <= n < 2 ^ 61 -> grow_alloc n = Some (n', sz) ->
  n' = (if 2 * n <? 2 ^ 61 then 2 * n else n + 1) /\ n < n' < 2 ^ 61 /\ sz = n' * 8.
Proof.
  unfold grow_alloc, sizeof_void_ptr, kMinSize. intros Hn. cbv zeta. rewrite Z.shiftl_mul_pow2 by lia.
  change (2 ^ 61) with 2305843009213693952 in *.
  assert (u64 (n * 2 ^ 1) = n * 2) as -> by (apply wrap_small; unfold in_word; pow2; lia).
  assert (u64 (n + 1) = n + 1) as -> by (apply wrap_small; unfold in_word; pow2; lia).
  assert (forall k, 0 <= k < 2 ^ 63 -> (u64 (k * 8) / 8 =? k) = true -> k < 2305843009213693952 /\ u64 (k * 8) = k * 8) as Hk.
  { intros k Hk Hd. apply Z.eqb_eq in Hd. unfold wrap in *. pow2. zdiv. }
  destruct (_ || _) eqn:E1.
  - destruct ((n + 1 <? n) || _) eqn:E2; [done|]. intros [= <- <-].
    apply orb_false_iff in E2 as [_ E2]. apply negb_false_iff, Hk in E2; [|pow2; lia].
    apply orb_true_iff in E1 as [E1|E1]; [lia|]. apply negb_true_iff, Z.eqb_neq in E1.
    rewrite (proj2 (Z.ltb_ge _ _)); [lia|]. destruct (Z.le_gt_cases 2305843009213693952 (2 * n)) as [|Hgt]; [done|].
    destruct E1. unfold wrap. pow2. zdiv.
  - rewrite E1. intros [= <- <-].
    apply orb_false_iff in E1 as [_ E2]. apply negb_false_iff, Hk in E2; [|pow2; lia].
    rewrite (proj2 (Z.ltb_lt _ _)) by lia. lia.
Qed.

Lemma malloc_array_blen n d : 0 <= n -> malloc_array uninit (n * 8) = Some d -> blen d = n.
Proof.
  intros Hn. unfold malloc_array. destruct (OPENSSL_malloc _); [|done]. simpl. intros [= <-].
  unfold blen, sizeof_void_ptr. rewrite length_fmap, length_seqZ, Z.div_mul by lia. lia.
Qed.

(** The capacity after room for one more element was made. *)
Definition capacity (cap n : Z) : Z :=
  if cap <=? n + 1 then if 2 * cap <? 2 ^ 61 then 2 * cap else cap + 1 else cap.

Lemma sk_reserve_one_ok s s' :
  sk_ok s -> sk_reserve_one uninit s = Some s' ->
  sk_ok s' /\ elems s' = elems s /\ num s' = num s /\ num s < num_alloc s' /\
  sorted s' = sorted s /\ comp s' = comp s /\ num_alloc s' = capacity (num_alloc s) (num s).
Proof.
  intros Hok. pose proof Hok as [Ha Hn Hm]. unfold sk_reserve_one, capacity.
  assert (u64 (num s + 1) = num s + 1) as -> by (apply u64_num; [done|lia|lia]).
  destruct (Z.leb_spec (num_alloc s) (num s + 1)).
  2: { intros [= <-]. repeat (split; [done || lia|]). done. }
  destruct (grow_alloc (num_alloc s)) as [[n' sz]|] eqn:Hg; [|done]. simpl.
  destruct (grow_alloc_ok _ _ _ Hm Hg) as (Hn'' & Hn' & ->). unfold realloc_array.
  destruct (malloc_array uninit (n' * 8)) as [new|] eqn:Hal; [|done]. simpl. intros [= <-].
  apply malloc_array_blen in Hal; [|lia]. simpl.
  assert (length (data s) <= length new)%nat as Hle by (unfold blen in *; lia).
  rewrite Nat.min_l, firstn_all by done.
  split; [|split; [|by repeat (split; [done || lia|])]].
  - split; simpl; [|lia|unfold kMinSize in *; lia]. rewrite blen_app. unfold blen in *. rewrite length_drop. lia.
  - unfold elems. simpl. apply take_app_le. unfold blen in *. lia.
Qed.

(** With memory to spare there is always room. *)
Lemma sk_reserve_one_total `{!MallocTotal m} s :
  sk_ok s -> num_alloc s < 2 ^ 57 -> is_Some (sk_reserve_one uninit s).
Proof.
  intros Hok Hsm. pose proof Hok as [Ha Hn Hm]. unfold sk_reserve_one.
  destruct (_ <=? _); [|done]. unfold kMinSize in Hm. change (2 ^ 57) with 144115188075855872 in Hsm.
  assert (grow_alloc (num_alloc s) = Some (num_alloc s * 2, num_alloc s * 2 * 8)) as ->.
  { unfold grow_alloc, sizeof_void_ptr. cbv zeta. rewrite Z.shiftl_mul_pow2 by lia. change (2 ^ 1) with 2.
    rewrite !(wrap_small 64) by (unfold in_word; pow2; lia).
    rewrite (proj2 (Z.ltb_ge _ _)), Z.div_mul, Z.eqb_refl by lia. cbn [orb negb].
    by rewrite (proj2 (Z.ltb_ge _ _)), Z.div_mul, Z.eqb_refl by lia. }
  simpl. unfold realloc_array, malloc_array.
  destruct (OPENSSL_malloc_total (num_alloc s * 2 * 8)) as (b & -> & _);
    [change (2 ^ 62) with 4611686018427387904; lia|]. simpl. by eexists.
Qed.

(** ** Operations *)

(** [l] with [p] at position [pos], or at the end. *)
Definition insert_list (p : ptr A) (pos : nat) (l : list (ptr A)) : list (ptr A) :=
  take pos l ++ p :: drop pos l.

(** The elements from [pos] on move up by one slot, over the spare slot [x]. *)
Lemma shift_up_ok {S} (l sp : list (ptr A)) x p pos (s : S) :
  0 <= pos < blen l ->
  (d ← array_move (l ++ x :: sp) (pos + 1) pos (blen l - pos); array_set d pos p) s =
    (Some (insert_list p (Z.to_nat pos) l ++ sp), s).
Proof.
  intros Hpos. unfold blen in Hpos.
  assert (exists l1 y l2, l = l1 ++ y :: l2 /\ length l1 = Z.to_nat pos) as (l1 & y & l2 & -> & Hl1).
  { destruct (lookup_lt_is_Some_2 l (Z.to_nat pos)) as [y Hy]; [lia|].
    exists (take (Z.to_nat pos) l), y, (drop (Datatypes.S (Z.to_nat pos)) l).
    rewrite take_drop_middle, length_take by done. split; [done|lia]. }
  assert (pos = blen l1) as -> by (unfold blen; lia). clear Hl1 Hpos.
  pose proof (blen_nonneg l1). pose proof (blen_nonneg l2). pose proof (blen_nonneg sp).
  erewrite bind_ok by (apply array_move_ok; blia).
  unfold insert_list. rewrite blen_app, blen_cons, take_blen_app, drop_blen_app.
  replace (Z.to_nat (blen l1 + (1 + blen l2) - blen l1)) with (length (y :: l2)) by (simpl; unfold blen; lia).
  replace (Z.to_nat (blen l1 + 1 + (blen l1 + (1 + blen l2) - blen l1)))
    with (length (l1 ++ y :: l2 ++ [x])) by (rewrite length_app; simpl; rewrite length_app; simpl; unfold blen; lia).
  replace (Z.to_nat (blen l1 + 1)) with (length (l1 ++ [y])) by (rewrite length_app; simpl; unfold blen; lia).
  rewrite <-app_assoc. cbn [app].
  replace (l1 ++ y :: l2 ++ x :: sp) with ((l1 ++ y :: l2 ++ [x]) ++ sp) at 3
    by (rewrite <-app_assoc; cbn [app]; by rewrite <-app_assoc).
  rewrite drop_app_length.
  replace (l1 ++ y :: l2 ++ x :: sp) with ((l1 ++ [y]) ++ l2 ++ x :: sp) at 1 by (by rewrite <-app_assoc).
  rewrite take_app_length, drop_blen_app.
  replace (y :: l2 ++ x :: sp) with ((y :: l2) ++ x :: sp) by done. rewrite take_app_length, <-!app_assoc.
  rewrite array_set_ok by blia. rewrite to_nat_blen.
  rewrite insert_app_r_alt, Nat.sub_diag by lia. done.
Qed.

Lemma sk_insert_ok s p pos :
  sk_ok s -> 0 <= pos ->
  match sk_reserve_one uninit s with
  | None => sk_insert uninit p pos (Some s) = (Some 0, Some s)
  | Some _ => exists s', sk_insert uninit p pos (Some s) = (Some (num s + 1), Some s') /\
      sk_ok s' /\ elems s' = insert_list p (Z.to_nat pos) (elems s) /\ sorted s' = false /\
      comp s' = comp s /\ num_alloc s' = capacity (num_alloc s) (num s)
  end.
Proof.
  intros Hok Hpos. unfold sk_insert. rewrite (bind_ok mget _ (Some s) (Some s) (Some s)) by done.
  destruct (sk_reserve_one uninit s) as [s1|] eqn:Hr; [|done].
  destruct (sk_reserve_one_ok _ _ Hok Hr) as (Hok1 & He1 & Hn1 & Hlt & Hs1 & Hc1 & Hcap1).
  pose proof Hok1 as [Ha1 Hnum1 Hm1]. rewrite <-Hcap1, <-He1, <-Hn1, <-Hc1. clear Hr He1.
  assert (u64 (num s1 + 1) = num s1 + 1) as -> by (apply u64_num; [done|lia|lia]).
  pose proof (blen_elems s1 Hok1) as Hbe. pose proof (blen_spare s1 Hok1) as Hbs.
  destruct (spare s1) as [|x sp] eqn:Hsp; [rewrite blen_nil in Hbs; lia|].
  rewrite blen_cons in Hbs.
  assert ((if num s1 <=? pos then array_set (data s1) (num s1) p
    else d ← array_move (data s1) (pos + 1) pos (num s1 - pos); array_set d pos p) (Some s) =
    (Some (insert_list p (Z.to_nat pos) (elems s1) ++ sp), Some s)) as Hd.
  { rewrite data_split, Hsp, <-Hbe. destruct (Z.leb_spec (blen (elems s1)) pos) as [Hge|Hin].
    - rewrite array_set_ok by blia. unfold insert_list.
      rewrite take_ge, drop_ge by (unfold blen in Hge; lia).
      by rewrite to_nat_blen, insert_app_r_alt, Nat.sub_diag, <-app_assoc by lia.
    - apply shift_up_ok. lia. }
  rewrite (bind_ok _ _ _ _ _ Hd). eexists. split; [reflexivity|].
  assert (blen (insert_list p (Z.to_nat pos) (elems s1)) = num s1 + 1) as Hl.
  { unfold insert_list. rewrite <-Hbe, blen_app, blen_cons. unfold blen. rewrite length_take, length_drop. lia. }
  unfold set_sorted, set_num, set_sk_data. cbn [num data sorted num_alloc comp]. rewrite <-Hl.
  destruct (mk_ok (insert_list p (Z.to_nat pos) (elems s1)) sp false (num_alloc s1) (comp s1)) as [? ?];
    [lia|done|]. done.
Qed.

(** The elements behind [x] move down by one slot. *)
Lemma shift_down_ok {S} (l1 l2 sp : list (ptr A)) x (st : S) :
  (if negb (blen l1 =? blen l1 + blen l2)
   then array_move (l1 ++ x :: l2 ++ sp) (blen l1) (blen l1 + 1) (blen l2)
   else mret (l1 ++ x :: l2 ++ sp)) st =
  (Some (l1 ++ l2 ++ drop (length l2) (x :: l2) ++ sp), st).
Proof.
  pose proof (blen_nonneg l1). pose proof (blen_nonneg l2). pose proof (blen_nonneg sp).
  destruct (Z.eqb_spec (blen l1) (blen l1 + blen l2)) as [He|He]; cbn [negb].
  - by rewrite (blen_inv_nil l2) by lia.
  - rewrite array_move_ok by blia. rewrite take_blen_app. do 3 f_equal.
    replace (Z.to_nat (blen l1 + 1)) with (length (l1 ++ [x])) by (rewrite length_app; simpl; unfold blen; lia).
    replace (l1 ++ x :: l2 ++ sp) with ((l1 ++ [x]) ++ l2 ++ sp) at 1 by (by rewrite <-app_assoc).
    rewrite drop_app_length, take_blen_app. f_equal.
    replace (Z.to_nat (blen l1 + blen l2)) with (length l1 + length l2)%nat by (unfold blen; lia).
    rewrite drop_app_add. apply (drop_app_le (x :: l2)). simpl. lia.
Qed.

Lemma sk_delete_ok s pos x :
  sk_ok s -> 0 <= pos -> elems s !! Z.to_nat pos = Some x ->
  exists s', sk_delete pos (Some s) = (Some x, Some s') /\
    sk_ok s' /\ elems s' = delete (Z.to_nat pos) (elems s) /\ sorted s' = sorted s /\
    comp s' = comp s /\ num_alloc s' = num_alloc s.
Proof.
  intros Hok Hpos Hx. unfold sk_delete. rewrite (bind_ok mget _ (Some s) (Some s) (Some s)) by done.
  pose proof (lookup_lt_Some _ _ _ Hx) as Hlt. pose proof (blen_elems s Hok) as Hbe.
  assert (pos < num s) as Hlt' by (unfold blen in Hbe; lia).
  rewrite (proj2 (Z.leb_gt _ _)) by done.
  assert (u64 (num s - 1) = num s - 1) as -> by (apply (u64_num s (-1)); [done|lia|lia]).
  rewrite (bind_ok (array_get (data s) pos) _ (Some s) x (Some s)).
  2: { apply array_get_ok; [done|]. rewrite data_split. by apply lookup_app_l_Some. }
  apply list_elem_of_split_length in Hx as (l1 & l2 & Hl & Hl1).
  assert (pos = blen l1) as -> by (unfold blen; lia).
  pose proof Hbe as Hbe'. rewrite Hl, blen_app, blen_cons in Hbe'.
  pose proof (shift_down_ok l1 l2 (spare s) x (Some s)) as Hd.
  replace (num s - blen l1 - 1) with (blen l2) by lia.
  replace (blen l1 + blen l2) with (num s - 1) in Hd by lia.
  replace (l1 ++ x :: l2 ++ spare s) with (data s) in Hd
    by (rewrite (data_split s), Hl; by rewrite <-app_assoc).
  rewrite (bind_ok _ _ _ _ _ Hd). eexists. split; [reflexivity|].
  unfold set_num, set_sk_data. cbn [num data sorted num_alloc comp].
  rewrite Hl, to_nat_blen, delete_middle, (app_assoc l1).
  replace (num s - 1) with (blen (l1 ++ l2)) by (rewrite blen_app; lia).
  pose proof (blen_spare s Hok). destruct Hok as [Ha Hn Hm].
  destruct (mk_ok (l1 ++ l2) (drop (length l2) (x :: l2) ++ spare s) (sorted s) (num_alloc s) (comp s))
    as [? ?]; [|done|done].
  rewrite !blen_app. unfold blen at 3. rewrite length_drop. simpl. lia.
Qed.

Lemma sk_delete_out s pos :
  num s <= pos -> sk_delete pos (Some s) = (Some None, Some s).
Proof.
  intros Hle. unfold sk_delete. rewrite (bind_ok mget _ (Some s) (Some s) (Some s)) by done.
  by rewrite (proj2 (Z.leb_le _ _)).
Qed.

Lemma find_elems_ok test s (st : option stack) :
  sk_ok s ->
  find_index test (data s) (Z.to_nat (num s)) 0 st = (Some (first_index test (elems s)), st).
Proof.
  intros Hok. pose proof (blen_elems s Hok) as Hbe.
  pose proof (find_index_ok test (Z.to_nat (num s)) [] (elems s) (spare s) st) as Hf.
  cbn [app] in Hf. rewrite <-data_split, blen_nil in Hf.
  rewrite Hf by (unfold blen in Hbe; lia). by destruct (first_index test (elems s)).
Qed.

Lemma sk_value_ok s i :
  sk_ok s -> 0 <= i ->
  sk_value i (Some s) = (Some (default None (elems s !! Z.to_nat i)), Some s).
Proof.
  intros Hok Hi. unfold sk_value. rewrite (bind_ok mget _ (Some s) (Some s) (Some s)) by done.
  pose proof (blen_elems s Hok) as Hbe. destruct (Z.leb_spec (num s) i).
  - rewrite lookup_ge_None_2; [done|]. unfold blen in Hbe. lia.
  - destruct (lookup_Z (elems s) i) as [x Hx]; [lia|]. rewrite Hx. apply array_get_ok; [done|].
    rewrite data_split. by apply lookup_app_l_Some.
Qed.

Lemma sk_set_ok s i v :
  sk_ok s -> 0 <= i ->
  exists s', sk_set i v (Some s) = (Some (if num s <=? i then None else v), Some s') /\
    sk_ok s' /\ elems s' = <[Z.to_nat i := v]> (elems s) /\ sorted s' = sorted s /\ comp s' = comp s /\
    num_alloc s' = num_alloc s.
Proof.
  intros Hok Hi. unfold sk_set. rewrite (bind_ok mget _ (Some s) (Some s) (Some s)) by done.
  pose proof (blen_elems s Hok) as Hbe. pose proof (blen_spare s Hok) as Hbs.
  destruct (Z.leb_spec (num s) i).
  - exists s. rewrite list_insert_ge by (unfold blen in Hbe; lia). done.
  - pose proof Hok as [Ha Hn Hm]. erewrite bind_ok by (apply array_set_ok; lia).
    eexists. split; [reflexivity|]. unfold set_sk_data. cbn [sorted comp].
    rewrite data_split, insert_app_l by (unfold blen in Hbe; lia).
    assert (num s = blen (<[Z.to_nat i := v]> (elems s))) as Hb
      by (unfold blen; rewrite length_insert; unfold blen in Hbe; lia).
    rewrite Hb.
    destruct (mk_ok (<[Z.to_nat i := v]> (elems s)) (spare s) (sorted s) (num_alloc s) (comp s)) as [? ?];
      [lia|done|done].
Qed.

Lemma sk_zero_ok s :
  sk_ok s -> exists s', sk_zero (Some s) = (Some tt, Some s') /\
    sk_ok s' /\ elems s' = [] /\ (0 < num s -> sorted s' = false) /\
    (num s = 0 -> sorted s' = sorted s) /\ comp s' = comp s /\ num_alloc s' = num_alloc s.
Proof.
  intros Hok. pose proof Hok as [Ha Hn Hm]. unfold sk_zero.
  rewrite (bind_ok mget _ (Some s) (Some s) (Some s)) by done.
  destruct (Z.eqb_spec (num s) 0) as [H0|H0].
  - exists s. repeat (split; [done|]). split; [by apply blen_inv_nil; rewrite blen_elems|].
    split; [lia|done].
  - rewrite (proj2 (Z.leb_le _ _)) by lia. eexists. split; [reflexivity|].
    destruct (mk_ok [] (replicate (Z.to_nat (num s)) None ++ drop (Z.to_nat (num s)) (data s)) false
      (num_alloc s) (comp s)) as [? ?]; [|done|].
    + rewrite blen_nil, blen_app, blen_replicate, blen_drop by lia. lia.
    + unfold set_sorted, set_num, set_sk_data. cbn [num data sorted num_alloc comp] in *.
      repeat (split; [done || lia|]). done.
Qed.

(** ** Order *)

(** What the client's comparison function must satisfy. *)
Class CmpOrder (cmp : ptr A -> ptr A -> Z) : Prop := {
  cmp_trans : forall a b c, cmp a b <= 0 -> cmp b c <= 0 -> cmp a c <= 0;
  cmp_anti : forall a b, cmp a b < 0 <-> 0 < cmp b a
}.

Definition ascending (cmp : ptr A -> ptr A -> Z) (l : list (ptr A)) : Prop :=
  forall i j x y, (i < j)%nat -> l !! i = Some x -> l !! j = Some y -> cmp x y <= 0.

Lemma ascending_cut cmp `{!CmpOrder cmp} l p : ascending cmp l -> cut (cmp p) l.
Proof.
  intros Hs i j x y Hij Hx Hy. specialize (Hs i j x y Hij Hx Hy). split.
  - intros Hp. by apply (cmp_trans p x y).
  - intros Hp%cmp_anti. destruct (Z.lt_ge_cases (cmp p y) 0) as [|Hge]; [done|].
    assert (cmp y p <= 0) as Hyp.
    { destruct (Z.le_gt_cases (cmp y p) 0) as [|Hgt]; [done|]. apply cmp_anti in Hgt. lia. }
    pose proof (cmp_trans x y p Hs Hyp). lia.
Qed.

Lemma ascending_delete cmp l i : ascending cmp l -> ascending cmp (delete i l).
Proof.
  intros Hs a b x y Hab Hx Hy. rewrite list_lookup_delete in Hx. rewrite list_lookup_delete in Hy.
  eapply (Hs _ _ x y); [|done|done]. repeat case_decide; lia.
Qed.

Lemma ascending_short cmp l : blen l < 2 -> ascending cmp l.
Proof.
  intros Hl i j x y Hij Hx%lookup_lt_Some Hy%lookup_lt_Some. unfold blen in Hl. lia.
Qed.

(** The C library's sort. *)
Class QsortLaws (qsort : (ptr A -> ptr A -> Z) -> list (ptr A) -> list (ptr A)) : Prop := {
  qsort_perm : forall cmp l, qsort cmp l ≡ₚ l;
  qsort_ascending : forall cmp l, CmpOrder cmp -> ascending cmp (qsort cmp l)
}.

Lemma bsearch_elems s (r : ptr A -> Z) (st : option stack) :
  sk_ok s ->
  exists o, bsearch (Datatypes.S (Z.to_nat (num s))) r (data s) 0 (num s) st = (Some o, st) /\
    (forall i, o = Some i -> exists x, elems s !! Z.to_nat i = Some x /\ r x = 0) /\
    (cut r (elems s) -> o = first_index (fun x => r x =? 0) (elems s)).
Proof.
  intros Hok. pose proof (blen_elems s Hok) as Hbe. pose proof Hok as [_ Hn _]. rewrite data_split.
  destruct (bsearch_safe r (elems s) (spare s) (Datatypes.S (Z.to_nat (num s))) 0 (num s) st)
    as (o & Ho & Hfound); [lia|lia|lia|].
  exists o. split; [done|]. split; [done|]. intros Hcut.
  rewrite (bsearch_first r (elems s) (spare s)) in Ho; [by injection Ho|done|lia|lia| |lia].
  split; [lia|]. right. intros i x Hi Hx%lookup_lt_Some. unfold blen in Hbe. lia.
Qed.

(** What a search returns on the list [l], flag [b] and comparison [c]. *)
Definition find_post (p : ptr A) (l : list (ptr A)) (b : bool) (c : option stack_cmp_func)
    (o : option Z) : Prop :=
  match c, p with
  | None, _ => o = first_index (fun x => bool_decide (x = p)) l
  | Some _, None => o = None
  | Some c, Some _ =>
      (forall i, o = Some i -> exists x, l !! Z.to_nat i = Some x /\ call_cmp_func c p x = 0) /\
      (b = false \/ (CmpOrder (call_cmp_func c) /\ ascending (call_cmp_func c) l) ->
       o = first_index (fun x => call_cmp_func c p x =? 0) l)
  end.

Lemma sk_find_ok s p :
  sk_ok s -> exists o, sk_find call_cmp_func p (Some s) = (Some o, Some s) /\
    find_post p (elems s) (sorted s) (comp s) o.
Proof.
  intros Hok. unfold sk_find. rewrite (bind_ok mget _ (Some s) (Some s) (Some s)) by done.
  unfold find_post. destruct (comp s) as [c|].
  2: { rewrite find_elems_ok by done. by eexists. }
  destruct p as [a|]; [|by eexists].
  rewrite (bind_ok sk_is_sorted _ (Some s) (sorted s) (Some s)) by done.
  destruct (sorted s); cbn [negb].
  - destruct (bsearch_elems s (call_cmp_func c (Some a)) (Some s) Hok) as (o & -> & Ho & Hcut).
    exists o. split; [done|]. split; [done|]. intros [|[Hord Hs]]; [done|].
    by apply Hcut, ascending_cut.
  - rewrite find_elems_ok by done. eexists. split; [done|]. split; [|done].
    intros i (_ & (x & Hx & Ht) & _)%first_index_Some. exists x. split; [done|]. by apply Z.eqb_eq.
Qed.

Lemma sk_sort_ok qsort `{!QsortLaws qsort} s :
  sk_ok s -> exists s', sk_sort call_cmp_func qsort (Some s) = (Some tt, Some s') /\
    sk_ok s' /\ comp s' = comp s /\ num_alloc s' = num_alloc s /\ elems s' ≡ₚ elems s /\
    match comp s with
    | None => s' = s
    | Some c => sorted s' = true /\ (sorted s = true -> s' = s) /\
        (sorted s = false -> CmpOrder (call_cmp_func c) -> ascending (call_cmp_func c) (elems s'))
    end.
Proof.
  intros Hok. unfold sk_sort. rewrite (bind_ok mget _ (Some s) (Some s) (Some s)) by done.
  destruct (comp s) as [c|] eqn:Hc; [|by exists s]. destruct (sorted s) eqn:Hs.
  { exists s. by repeat (split; [done|]). }
  pose proof Hok as [Ha Hn Hm]. pose proof (blen_elems s Hok) as Hbe.
  destruct (Z.leb_spec 2 (num s)) as [H2|H2].
  - rewrite (proj2 (Z.leb_le _ _)) by lia. fold (elems s) (spare s). rewrite bind_ret.
    eexists. split; [reflexivity|]. unfold set_sorted, set_sk_data. cbn [num data sorted num_alloc comp].
    assert (num s = blen (qsort (call_cmp_func c) (elems s))) as Hb
      by (unfold blen; by rewrite qsort_perm).
    rewrite Hb. pose proof (blen_spare s Hok).
    destruct (mk_ok (qsort (call_cmp_func c) (elems s)) (spare s) true (num_alloc s) (comp s)) as [? ->];
      [lia|done|]. split; [done|]. split; [done|]. split; [done|]. split; [apply qsort_perm|]. split; [done|].
    split; [done|]. intros _ ?. by apply qsort_ascending.
  - rewrite bind_ret. eexists. split; [reflexivity|]. split; [by split|]. split; [done|]. split; [done|].
    split; [done|]. split; [done|]. split; [done|]. intros _ _. apply ascending_short. unfold elems in *. simpl. lia.
Qed.
End Spec.
