(* ===== verification/StackTheorems.v ===== *)
(** The stacks of stack.c as their clients see them: sequences of calls on a
    list, searching, and the ownership of the elements in copies. *)

From S2P Require Import Prelude CryptoInternal Stack StackSpec.

Section Client.
Context {m : Malloc}.
Context {A stack_cmp_func : Type} `{EqDecision A} `{EqDecision stack_cmp_func}.
Context (uninit : Z -> ptr A) (call_cmp_func : stack_cmp_func -> ptr A -> ptr A -> Z).
Context (qsort : (ptr A -> ptr A -> Z) -> list (ptr A) -> list (ptr A)) `{!QsortLaws qsort}.

Abbreviation stack := (_STACK A stack_cmp_func).
Implicit Types s : stack.

(** The calls of a client on one stack. *)
Inductive sk_op :=
| OpNum
| OpZero
| OpValue (i : Z)
| OpSet (i : Z) (v : ptr A)
| OpInsert (p : ptr A) (pos : Z)
| OpPush (p : ptr A)
| OpDelete (pos : Z)
| OpDeletePtr (p : ptr A)
| OpShift
| OpPop
| OpFind (p : ptr A)
| OpSort
| OpIsSorted
| OpSetCmpFunc (c : option stack_cmp_func).

Inductive sk_res :=
| RUnit
| RNum (n : Z)
| RPtr (p : ptr A)
| RIndex (i : option Z)
| RBool (b : bool)
| RCmp (c : option stack_cmp_func).

(** Indices are of type [size_t]. *)
Definition op_ok (op : sk_op) : Prop :=
  match op with
  | OpValue i | OpSet i _ | OpInsert _ i | OpDelete i => 0 <= i
  | _ => True
  end.

Definition exec (op : sk_op) : M (option stack) sk_res :=
  match op with
  | OpNum => n ← sk_num; mret (RNum n)
  | OpZero => _ ← sk_zero; mret RUnit
  | OpValue i => p ← sk_value i; mret (RPtr p)
  | OpSet i v => p ← sk_set i v; mret (RPtr p)
  | OpInsert p pos => n ← sk_insert uninit p pos; mret (RNum n)
  | OpPush p => n ← sk_push uninit p; mret (RNum n)
  | OpDelete pos => p ← sk_delete pos; mret (RPtr p)
  | OpDeletePtr p => p ← sk_delete_ptr p; mret (RPtr p)
  | OpShift => p ← sk_shift; mret (RPtr p)
  | OpPop => p ← sk_pop; mret (RPtr p)
  | OpFind p => i ← sk_find call_cmp_func p; mret (RIndex i)
  | OpSort => _ ← sk_sort call_cmp_func qsort; mret RUnit
  | OpIsSorted => b ← sk_is_sorted; mret (RBool b)
  | OpSetCmpFunc c => c ← sk_set_cmp_func c; mret (RCmp c)
  end.

Fixpoint run (ops : list sk_op) : M (option stack) (list sk_res) :=
  match ops with
  | [] => mret []
  | op :: ops => r ← exec op; rs ← run ops; mret (r :: rs)
  end.

(** What a client sees of a stack: the list of its elements, the capacity of
    the array, whether it is flagged as sorted and the comparison function. *)
Record view := View {
  v_list : list (ptr A);
  v_cap : Z;
  v_sorted : bool;
  v_comp : option stack_cmp_func
}.

Definition view_of s : view := View (elems s) (num_alloc s) (sorted s) (comp s).

(** The calls on the view. Insertion may fail only when the array had to grow
    and there was no memory for it. *)
Inductive spec : sk_op -> view -> sk_res -> view -> Prop :=
| spec_num l n b c : spec OpNum (View l n b c) (RNum (blen l)) (View l n b c)
| spec_zero l n b c :
    spec OpZero (View l n b c) RUnit (View [] n (if blen l =? 0 then b else false) c)
| spec_value i l n b c :
    spec (OpValue i) (View l n b c) (RPtr (default None (l !! Z.to_nat i))) (View l n b c)
| spec_set i v l n b c :
    spec (OpSet i v) (View l n b c) (RPtr (if blen l <=? i then None else v))
      (View (<[Z.to_nat i := v]> l) n b c)
| spec_insert p pos l n b c :
    spec (OpInsert p pos) (View l n b c) (RNum (blen l + 1))
      (View (insert_list p (Z.to_nat pos) l) (capacity n (blen l)) false c)
| spec_insert_fail p pos l n b c :
    n <= blen l + 1 -> (MallocTotal m -> 2 ^ 57 <= n) ->
    spec (OpInsert p pos) (View l n b c) (RNum 0) (View l n b c)
| spec_push p v r v' :
    spec (OpInsert p (blen (v_list v))) v r v' -> spec (OpPush p) v r v'
| spec_delete pos l n b c :
    spec (OpDelete pos) (View l n b c) (RPtr (default None (l !! Z.to_nat pos)))
      (View (delete (Z.to_nat pos) l) n b c)
| spec_delete_ptr p l n b c i :
    first_index (fun x => bool_decide (x = p)) l = Some i ->
    spec (OpDeletePtr p) (View l n b c) (RPtr p) (View (delete (Z.to_nat i) l) n b c)
| spec_delete_ptr_none p l n b c :
    p ∉ l -> spec (OpDeletePtr p) (View l n b c) (RPtr None) (View l n b c)
| spec_shift l n b c :
    spec OpShift (View l n b c) (RPtr (default None (head l))) (View (tail l) n b c)
| spec_pop l n b c :
    spec OpPop (View l n b c) (RPtr (default None (last l))) (View (removelast l) n b c)
| spec_find p l n b c o :
    find_post call_cmp_func p l b c o -> spec (OpFind p) (View l n b c) (RIndex o) (View l n b c)
| spec_sort_noop l n b c :
    c = None \/ b = true -> spec OpSort (View l n b c) RUnit (View l n b c)
| spec_sort l l' n c :
    l' ≡ₚ l -> (CmpOrder (call_cmp_func c) -> ascending (call_cmp_func c) l') ->
    spec OpSort (View l n false (Some c)) RUnit (View l' n true (Some c))
| spec_is_sorted l n b c : spec OpIsSorted (View l n b c) (RBool b) (View l n b c)
| spec_set_cmp c' l n b c :
    spec (OpSetCmpFunc c') (View l n b c) (RCmp c)
      (View l n (if bool_decide (c = c') then b else false) c').

Inductive spec_run : list sk_op -> view -> list sk_res -> view -> Prop :=
| spec_run_nil v : spec_run [] v [] v
| spec_run_cons op ops v r v' rs v'' :
    spec op v r v' -> spec_run ops v' rs v'' -> spec_run (op :: ops) v (r :: rs) v''.

(** One call on a stack that is well formed. *)
Definition simulated (op : sk_op) s (res : option sk_res * option stack) : Prop :=
  exists r s', res = (Some r, Some s') /\ sk_ok s' /\ spec op (view_of s) r (view_of s').

Lemma view_eq s l n b c :
  elems s = l -> num_alloc s = n -> sorted s = b -> comp s = c -> view_of s = View l n b c.
Proof. by intros <- <- <- <-. Qed.

Lemma insert_simulated s p pos :
  sk_ok s -> 0 <= pos ->
  exists n s', sk_insert uninit p pos (Some s) = (Some n, Some s') /\ sk_ok s' /\
    spec (OpInsert p pos) (view_of s) (RNum n) (view_of s').
Proof.
  intros Hok Hpos. pose proof (sk_insert_ok uninit call_cmp_func s p pos Hok Hpos) as Hins.
  pose proof (blen_elems s Hok) as Hbe.
  destruct (sk_reserve_one uninit s) as [s1|] eqn:Hr.
  - destruct Hins as (s' & He & Hok' & Hel & Hs & Hc & Hcap). exists (num s + 1), s'.
    split; [done|]. split; [done|]. rewrite (view_eq s' _ _ _ _ Hel Hcap Hs Hc), <-Hbe. constructor.
  - exists 0, s. split; [done|]. split; [done|]. constructor.
    + rewrite Hbe. unfold sk_reserve_one in Hr. rewrite <-(u64_num s 1) by (done || lia || destruct Hok; lia).
      destruct (Z.leb_spec (num_alloc s) (u64 (num s + 1))); [done|by simplify_eq].
    + intros Ht. destruct (Z.le_gt_cases (2 ^ 57) (num_alloc s)) as [|Hlt]; [done|].
      destruct (sk_reserve_one_total uninit s Hok Hlt) as [? Hr']. congruence.
Qed.

Lemma delete_simulated s pos :
  sk_ok s -> 0 <= pos ->
  exists s', sk_delete pos (Some s) = (Some (default None (elems s !! Z.to_nat pos)), Some s') /\
    sk_ok s' /\ view_of s' = View (delete (Z.to_nat pos) (elems s)) (num_alloc s) (sorted s) (comp s).
Proof.
  intros Hok Hpos. pose proof (blen_elems s Hok) as Hbe. destruct (elems s !! Z.to_nat pos) as [x|] eqn:Hx.
  - destruct (sk_delete_ok s pos x Hok Hpos Hx) as (s' & He & Hok' & Hel & Hs & Hc & Hcap).
    exists s'. split; [done|]. split; [done|]. by apply view_eq.
  - exists s. apply lookup_ge_None in Hx. unfold blen in Hbe. rewrite sk_delete_out by lia.
    split; [done|]. split; [done|]. apply view_eq; try done.
    by rewrite delete_take_drop, take_ge, drop_ge, app_nil_r by lia.
Qed.

(** Calls that are one access to the stack and return. *)
Ltac finish :=
  eexists _, _; split; [reflexivity|]; split; [done|].

Lemma delete_ptr_simulated s p :
  sk_ok s -> simulated (OpDeletePtr p) s (exec (OpDeletePtr p) (Some s)).
Proof.
  intros Hok. unfold simulated. cbn [exec]. unfold sk_delete_ptr.
  set (test := fun x : ptr A => bool_decide (x = p)).
  pose proof (find_elems_ok test s (Some s) Hok) as Hf.
  assert (forall k, (i ← find_index test (data s) (Z.to_nat (num s)) 0; k i) (Some s) =
    (k (first_index test (elems s)) : M (option stack) (ptr A)) (Some s)) as Hrun
    by (intros k; by rewrite (bind_ok _ _ _ _ _ Hf)).
  destruct (first_index test (elems s)) as [i|] eqn:Hi.
  - pose proof Hi as (Hi0 & (x & Hx & Ht) & _)%first_index_Some.
    apply bool_decide_eq_true in Ht as ->.
    destruct (delete_simulated s i Hok Hi0) as (s' & He & Hok' & Hv). rewrite Hx in He. simpl in He.
    exists (RPtr p), s'. split.
    { erewrite bind_ok; [reflexivity|].
      rewrite (bind_ok mget _ (Some s) (Some s) (Some s)) by done. rewrite Hrun. exact He. }
    split; [done|]. rewrite Hv. by constructor.
  - exists (RPtr None), s. split.
    { erewrite bind_ok; [reflexivity|].
      rewrite (bind_ok mget _ (Some s) (Some s) (Some s)) by done. by rewrite Hrun. }
    split; [done|]. constructor. rewrite first_index_None in Hi.
    intros [j Hj]%list_elem_of_lookup. specialize (Hi j p Hj). unfold test in Hi.
    by rewrite bool_decide_true in Hi.
Qed.

Lemma zero_simulated s : sk_ok s -> simulated OpZero s (exec OpZero (Some s)).
Proof.
  intros Hok. destruct (sk_zero_ok s Hok) as (s' & He & Hok' & Hel & Hs1 & Hs0 & Hc & Hcap).
  exists RUnit, s'. cbn [exec]. rewrite (bind_ok _ _ _ _ _ He). split; [done|]. split; [done|].
  assert (sorted s' = if blen (elems s) =? 0 then sorted s else false) as Hs.
  { rewrite blen_elems by done. destruct Hok as [_ Hn _]. destruct (Z.eqb_spec (num s) 0); [auto|apply Hs1; lia]. }
  rewrite (view_eq s' _ _ _ _ Hel Hcap Hs Hc). constructor.
Qed.

Lemma sort_simulated s : sk_ok s -> simulated OpSort s (exec OpSort (Some s)).
Proof.
  intros Hok. destruct (sk_sort_ok call_cmp_func qsort s Hok) as (s' & He & Hok' & Hc & Hcap & Hp & Hs).
  exists RUnit, s'. cbn [exec]. rewrite (bind_ok _ _ _ _ _ He). split; [done|]. split; [done|].
  destruct (comp s) as [c|] eqn:Hcs; [|subst s'; constructor; by left].
  destruct Hs as (Hst & Hsame & Hsort). destruct (sorted s) eqn:Hss.
  - rewrite Hsame by done. constructor. by right.
  - rewrite (view_eq s' (elems s') (num_alloc s) true (Some c)) by congruence.
    rewrite (view_eq s (elems s) (num_alloc s) false (Some c)) by done. constructor; auto.
Qed.

Lemma shift_pop_simulated s op :
  sk_ok s -> op = OpShift \/ op = OpPop -> simulated op s (exec op (Some s)).
Proof.
  intros Hok Hop. pose proof (blen_elems s Hok) as Hbe. pose proof Hok as [_ Hn _].
  destruct (Z.eqb_spec (num s) 0) as [H0|H0].
  - assert (elems s = []) as Hnil by (apply blen_inv_nil; lia).
    exists (RPtr None), s. destruct Hop as [-> | ->]; cbn [exec]; (split; [|split; [done|]]).
    + unfold sk_shift. erewrite bind_ok; [reflexivity|].
      rewrite (bind_ok mget _ (Some s) (Some s) (Some s)) by done. by rewrite H0.
    + unfold view_of. rewrite Hnil. exact (spec_shift [] _ _ _).
    + unfold sk_pop. erewrite bind_ok; [reflexivity|].
      rewrite (bind_ok mget _ (Some s) (Some s) (Some s)) by done. by rewrite H0.
    + unfold view_of. rewrite Hnil. exact (spec_pop [] _ _ _).
  - destruct Hop as [-> | ->]; cbn [exec].
    + destruct (delete_simulated s 0 Hok) as (s' & He & Hok' & Hv); [lia|].
      eexists _, s'. split; [|split; [done|]].
      * erewrite bind_ok; [reflexivity|]. unfold sk_shift.
        rewrite (bind_ok mget _ (Some s) (Some s) (Some s)) by done.
        rewrite (proj2 (Z.eqb_neq _ _)) by done. exact He.
      * rewrite Hv. unfold view_of. destruct (elems s); constructor.
    + destruct (delete_simulated s (num s - 1) Hok) as (s' & He & Hok' & Hv); [lia|].
      eexists _, s'. split; [|split; [done|]].
      * erewrite bind_ok; [reflexivity|]. unfold sk_pop.
        rewrite (bind_ok mget _ (Some s) (Some s) (Some s)) by done.
        rewrite (proj2 (Z.eqb_neq _ _)) by done.
        assert (u64 (num s - 1) = num s - 1) as -> by (apply (u64_num s (-1)); done || lia). exact He.
      * rewrite Hv. unfold view_of. unfold blen in Hbe.
        destruct (elems s) as [|x l _] using rev_ind; [simpl in Hbe; lia|].
        rewrite length_app in Hbe. simpl in Hbe.
        replace (Z.to_nat (num s - 1)) with (length l) by lia.
        rewrite list_lookup_middle, delete_middle, app_nil_r by done.
        pose proof (spec_pop (l ++ [x]) (num_alloc s) (sorted s) (comp s)) as Hpop.
        rewrite last_snoc, removelast_app in Hpop by done. simpl in Hpop.
        by rewrite app_nil_r in Hpop.
Qed.

Lemma sk_exec_ok s op : sk_ok s -> op_ok op -> simulated op s (exec op (Some s)).
Proof.
  intros Hok Hop. pose proof (blen_elems s Hok) as Hbe.
  destruct op as [| |i|i v|p pos|p|pos|p| | |p| | |c]; simpl in Hop;
    try (by apply delete_ptr_simulated || by apply zero_simulated || by apply sort_simulated);
    try (apply shift_pop_simulated; by auto); unfold simulated; cbn [exec].
  - finish. rewrite <-Hbe. constructor.
  - rewrite (bind_ok _ _ _ _ _ (sk_value_ok s i Hok Hop)). finish. constructor.
  - destruct (sk_set_ok s i v Hok Hop) as (s' & He & Hok' & Hel & Hs & Hc & Hcap).
    rewrite (bind_ok _ _ _ _ _ He). finish. rewrite (view_eq s' _ _ _ _ Hel Hcap Hs Hc), <-Hbe. constructor.
  - destruct (insert_simulated s p pos Hok Hop) as (n & s' & He & Hok' & Hs).
    rewrite (bind_ok _ _ _ _ _ He). by finish.
  - destruct (insert_simulated s p (num s) Hok) as (n & s' & He & Hok' & Hs); [destruct Hok; lia|].
    assert (sk_push uninit p (Some s) = (Some n, Some s')) as Hp by done.
    rewrite (bind_ok _ _ _ _ _ Hp). finish. constructor. simpl. by rewrite Hbe.
  - destruct (delete_simulated s pos Hok Hop) as (s' & He & Hok' & Hv).
    rewrite (bind_ok _ _ _ _ _ He). finish. rewrite Hv. constructor.
  - destruct (sk_find_ok call_cmp_func s p Hok) as (o & He & Hpost).
    rewrite (bind_ok _ _ _ _ _ He). finish. by constructor.
  - finish. constructor.
  - eexists _, _. split; [reflexivity|]. split; [case_bool_decide; by destruct Hok|].
    assert (view_of (set_comp c (if bool_decide (comp s = c) then s else set_sorted false s)) =
      View (elems s) (num_alloc s) (if bool_decide (comp s = c) then sorted s else false) c) as ->
      by (apply view_eq; case_bool_decide; done).
    constructor.
Qed.

Lemma sk_run_ok ops : forall s,
  sk_ok s -> Forall op_ok ops ->
  exists rs s', run ops (Some s) = (Some rs, Some s') /\ sk_ok s' /\
    spec_run ops (view_of s) rs (view_of s').
Proof.
  induction ops as [|op ops IH]; intros s Hok Hops.
  - exists [], s. split; [done|]. split; [done|constructor].
  - apply Forall_cons in Hops as [Hop Hops]. cbn [run].
    destruct (sk_exec_ok s op Hok Hop) as (r & s1 & He & Hok1 & Hs1).
    destruct (IH s1 Hok1 Hops) as (rs & s2 & He2 & Hok2 & Hs2).
    rewrite (bind_ok _ _ _ _ _ He), (bind_ok _ _ _ _ _ He2).
    exists (r :: rs), s2. split; [done|]. split; [done|]. by econstructor.
Qed.

Lemma sk_new_ok c s :
  sk_new uninit c = Some s -> sk_ok s /\ view_of s = View [] kMinSize false c.
Proof.
  unfold sk_new. destruct (OPENSSL_malloc _); [|done]. simpl. destruct (malloc_array _ _); [|done].
  simpl. intros [= <-]. by repeat split.
Qed.

(** The flag [sorted] is only set on lists in ascending order. *)
Definition flag_ok (v : view) : Prop :=
  v_sorted v = true -> forall c, v_comp v = Some c -> CmpOrder (call_cmp_func c) ->
    ascending (call_cmp_func c) (v_list v).

Definition no_set (op : sk_op) : Prop := match op with OpSet _ _ => False | _ => True end.

Lemma flag_ok_delete l i n b c : flag_ok (View l n b c) -> flag_ok (View (delete i l) n b c).
Proof. intros H Hb c' Hc Ho. simpl in *. apply ascending_delete. by apply H. Qed.

Lemma spec_flag_ok op v r v' : spec op v r v' -> no_set op -> flag_ok v -> flag_ok v'.
Proof.
  intros Hs. induction Hs; intros Hop Hf; try done; try (by apply flag_ok_delete); try (by intros [=]).
  - by apply IHHs.
  - replace (tail l) with (delete 0%nat l) by by destruct l. by apply flag_ok_delete.
  - destruct l as [|x l _] using rev_ind; [done|].
    rewrite removelast_app by done. simpl. rewrite app_nil_r.
    rewrite <-(app_nil_r l), <-(delete_middle l [] x). by apply flag_ok_delete.
  - intros _ c' [= <-] Ho. auto.
  - intros Hb c'' Hc Ho. simpl in *. case_bool_decide; [|done]. apply Hf; simpl; congruence.
Qed.

Lemma spec_run_flag_ok ops v rs v' :
  spec_run ops v rs v' -> Forall no_set ops -> flag_ok v -> flag_ok v'.
Proof.
  induction 1 as [|op ops v r v1 rs v2 Hs _ IH]; intros Hops Hf; [done|].
  apply Forall_cons in Hops as [Hop Hops]. apply IH; [done|]. by eapply spec_flag_ok.
Qed.

(** C5: A stack behaves as a list of pointers under every sequence of calls:
    no access is outside of the array, insertions shift the elements behind
    them and return the new length, deletions return the element they remove,
    out-of-range indices give NULL, sorting permutes into ascending order. The
    array doubles when it is full; an insertion fails only when it has to grow
    and the allocator refuses. A NULL stack answers every call. *)
Theorem stack_refines_list c s ops :
  sk_new uninit c = Some s -> Forall op_ok ops ->
  (exists rs s', run ops (Some s) = (Some rs, Some s') /\ sk_ok s' /\
    spec_run ops (View [] kMinSize false c) rs (view_of s')) /\
  (forall op, (forall c, op <> OpSetCmpFunc c) -> exists r, exec op None = (Some r, None)).
Proof.
  intros Hnew Hops. apply sk_new_ok in Hnew as [Hok Hv]. split.
  - destruct (sk_run_ok ops s Hok Hops) as (rs & s' & Hrun & Hok' & Hspec). rewrite Hv in Hspec.
    by exists rs, s'.
  - intros op Hne. destruct op; try (by eexists). by destruct (Hne c0).
Qed.

(** C23: On a stack that was only changed by insertions, deletions, sorting and
    changes of the comparison function, [sk_find] returns the first element
    that compares equal, whether it searches linearly or, on a stack flagged
    as sorted, by bisection. *)
Theorem stack_find_first c s ops :
  sk_new uninit c = Some s -> Forall op_ok ops -> Forall no_set ops ->
  exists rs s', run ops (Some s) = (Some rs, Some s') /\
    forall f a, comp s' = Some f -> CmpOrder (call_cmp_func f) ->
      sk_find call_cmp_func (Some a) (Some s') =
        (Some (first_index (fun x => call_cmp_func f (Some a) x =? 0) (elems s')), Some s').
Proof.
  intros Hnew Hops Hset. apply sk_new_ok in Hnew as [Hok Hv].
  destruct (sk_run_ok ops s Hok Hops) as (rs & s' & Hrun & Hok' & Hspec).
  exists rs, s'. split; [done|]. intros f a Hf Ho.
  assert (flag_ok (view_of s')) as Hflag.
  { eapply spec_run_flag_ok; [done|done|]. by rewrite Hv. }
  destruct (sk_find_ok call_cmp_func s' (Some a) Hok') as (o & -> & Hpost).
  unfold find_post in Hpost. rewrite Hf in Hpost. destruct Hpost as [_ ->]; [done|].
  destruct (sorted s') eqn:Hs; [right|by left]. split; [done|]. by apply Hflag.
Qed.

(** ** Ownership *)

Section Owned.
Context {X : Type} (call_copy_func : A -> M X (ptr A)) (call_free_func : A -> M X unit).

(** The client's functions, over the objects that are allocated: a copy is a
    new object, or NULL and nothing changed; an object may be freed once. *)
Class OwnedLaws (live : X -> list A) : Prop := {
  copy_law : forall a x, exists r x', call_copy_func a x = (Some r, x') /\
    live x' ≡ₚ option_list r ++ live x;
  free_law : forall a x l, live x ≡ₚ a :: l -> exists x', call_free_func a x = (Some tt, x') /\
    live x' ≡ₚ l
}.

Context (live : X -> list A) `{!OwnedLaws live}.

(** The objects an array of pointers owns. *)
Definition owned (l : list (ptr A)) : list A := omap id l.

Lemma free_elems_ok l : forall pre post x rest,
  live x ≡ₚ owned l ++ rest ->
  exists x', free_elems call_free_func (pre ++ l ++ post) (length l) (blen pre) x = (Some tt, x') /\
    live x' ≡ₚ rest.
Proof.
  induction l as [|p l IH]; intros pre post x rest Hx; cbn [free_elems length].
  - by exists x.
  - rewrite (bind_ok _ _ x p x)
      by (apply array_get_ok; [apply blen_nonneg|]; rewrite to_nat_blen; by apply list_lookup_middle).
    assert (exists x1, (match p with None => mret tt | Some a => call_free_func a end) x = (Some tt, x1) /\
      live x1 ≡ₚ owned l ++ rest) as (x1 & He & Hx1).
    { destruct p as [a|]; [by apply free_law|by exists x]. }
    rewrite (bind_ok _ _ _ _ _ He).
    destruct (IH (pre ++ [p]) post x1 rest Hx1) as (x2 & He2 & Hx2).
    rewrite <-app_assoc, blen_app, blen_singleton in He2. by exists x2.
Qed.

(** [q] is what copying [p] gave. *)
Definition copied (p q : ptr A) : Prop :=
  match p with
  | None => q = None
  | Some a => exists x x' b, q = Some b /\ call_copy_func a x = (Some (Some b), x')
  end.

Lemma copy_elems_ok todo : forall done post x rest,
  live x ≡ₚ owned done ++ rest ->
  exists r x', copy_elems call_copy_func call_free_func (done ++ todo ++ post) (length todo) (blen done) x =
      (Some r, x') /\
    match r with
    | None => live x' ≡ₚ rest
    | Some d => exists todo', d = done ++ todo' ++ post /\ Forall2 copied todo todo' /\
        live x' ≡ₚ owned (done ++ todo') ++ rest
    end.
Proof.
  induction todo as [|p todo IH]; intros done post x rest Hx; cbn [copy_elems length].
  - eexists _, x. split; [reflexivity|]. exists []. split; [done|]. split; [constructor|].
    by rewrite app_nil_r.
  - rewrite (bind_ok _ _ x p x)
      by (apply array_get_ok; [apply blen_nonneg|]; rewrite to_nat_blen; by apply list_lookup_middle).
    assert (forall q x1, copied p q -> live x1 ≡ₚ owned (done ++ [q]) ++ rest ->
      exists r x', copy_elems call_copy_func call_free_func (done ++ (q :: todo) ++ post) (length todo)
          (blen done + 1) x1 = (Some r, x') /\
        match r with
        | None => live x' ≡ₚ rest
        | Some d => exists todo', d = done ++ todo' ++ post /\ Forall2 copied (p :: todo) todo' /\
            live x' ≡ₚ owned (done ++ todo') ++ rest
        end) as Hnext.
    { intros q x1 Hq Hx1. destruct (IH (done ++ [q]) post x1 rest Hx1) as (r & x2 & He2 & Hr).
      rewrite blen_app, blen_singleton, <-app_assoc in He2. exists r, x2. split; [exact He2|].
      destruct r as [d|]; [|exact Hr]. destruct Hr as (todo' & -> & Hall & Hlive).
      exists (q :: todo'). rewrite <-!app_assoc in *. split; [reflexivity|].
      split; [by constructor|]. exact Hlive. }
    destruct p as [a|].
    + destruct (copy_law a x) as (q & x1 & He & Hx1). rewrite (bind_ok _ _ _ _ _ He).
      rewrite (bind_ok _ _ x1 (done ++ (q :: todo) ++ post) x1).
      2: { rewrite array_set_ok by blia. by rewrite to_nat_blen, insert_app_r_alt, Nat.sub_diag by lia. }
      destruct q as [b|].
      * apply Hnext; [by exists x, x1, b|]. rewrite Hx1, Hx. unfold owned. rewrite omap_app. simpl.
        rewrite <-app_assoc. apply Permutation_middle.
      * destruct (free_elems_ok done [] ((None :: todo) ++ post) x1 rest) as (x2 & He2 & Hx2).
        { by rewrite Hx1, Hx. }
        rewrite to_nat_blen. change (blen []) with 0 in He2. cbn [app] in He2 |- *.
        rewrite (bind_ok _ _ _ _ _ He2). by eexists None, x2.
    + apply Hnext; [done|]. rewrite Hx. unfold owned. rewrite omap_app. simpl. by rewrite app_nil_r.
Qed.

Lemma sk_dup_ok s ret :
  sk_ok s -> sk_dup uninit (Some s) = Some ret -> sk_ok ret /\ view_of ret = view_of s.
Proof.
  intros Hok. unfold sk_dup. simpl. destruct (OPENSSL_malloc _); [|done]. simpl.
  pose proof Hok as [Ha Hn Hm]. unfold sizeof_void_ptr.
  assert (u64 (8 * num_alloc s) = num_alloc s * 8) as ->.
  { unfold kMinSize in Hm. change (2 ^ 61) with 2305843009213693952 in Hm.
    rewrite Z.mul_comm. apply wrap_small. unfold in_word. pow2. lia. }
  destruct (malloc_array uninit _) as [d|] eqn:Hd; [|done]. simpl. intros [= <-].
  apply malloc_array_blen in Hd; [|lia]. fold (elems s).
  destruct (mk_ok (elems s) (drop (Z.to_nat (num s)) d) (sorted s) (num_alloc s) (comp s)) as [Hok2 Hel];
    [rewrite blen_elems, blen_drop by (done || lia); lia|done|].
  rewrite (blen_elems s Hok) in Hok2, Hel. split; [done|]. by apply view_eq.
Qed.

(** C22: A deep copy owns a copy of every element, in order; if a copy fails,
    the copies made before are freed, each once, and the allocated objects are
    those of before. Freeing the copy with its elements gives them all back. *)
Theorem deep_copy_owns s x :
  sk_ok s ->
  exists r x', sk_deep_copy uninit call_copy_func call_free_func (Some s) x = (Some r, x') /\
    match r with
    | None => live x' ≡ₚ live x
    | Some ret =>
        sk_ok ret /\ Forall2 copied (elems s) (elems ret) /\
        sorted ret = sorted s /\ comp ret = comp s /\ live x' ≡ₚ owned (elems ret) ++ live x /\
        exists x'', sk_pop_free_ex call_free_func (Some ret) x' = (Some tt, x'') /\ live x'' ≡ₚ live x
    end.
Proof.
  intros Hok. unfold sk_deep_copy. destruct (sk_dup uninit (Some s)) as [ret|] eqn:Hd; [|by exists None, x].
  destruct (sk_dup_ok s ret Hok Hd) as [Hok1 [= Hel _ Hs Hc]]. rewrite <-Hel, <-Hs, <-Hc.
  pose proof (blen_elems ret Hok1) as Hbe.
  destruct (copy_elems_ok (elems ret) [] (spare ret) x (live x)) as (r & x1 & He & Hr); [done|].
  cbn [app] in He. rewrite <-data_split, blen_nil, <-to_nat_blen, Hbe in He.
  rewrite (bind_ok _ _ _ _ _ He). destruct r as [d|]; [|by exists None, x1].
  destruct Hr as (l' & -> & Hall & Hlive). cbn [app] in *.
  assert (blen l' = num ret) as Hbl by (rewrite <-Hbe; unfold blen; by rewrite (Forall2_length _ _ _ Hall)).
  eexists _, x1. split; [reflexivity|]. unfold set_sk_data. rewrite <-Hbl.
  pose proof (blen_spare ret Hok1). pose proof Hok1 as [_ _ Hm1].
  destruct (mk_ok l' (spare ret) (sorted ret) (num_alloc ret) (comp ret)) as [Hok2 ->]; [lia|done|].
  repeat (split; [done|]).
  destruct (free_elems_ok l' [] (spare ret) x1 (live x) Hlive) as (x2 & He2 & Hx2).
  exists x2. split; [|done]. unfold sk_pop_free_ex. cbn [data num app] in *. by rewrite to_nat_blen.
Qed.
End Owned.
End Client.

(** * A concrete client

    Stacks of integers in their order, NULL counting as 0. *)

Definition int_cmp (_ : unit) (p q : ptr Z) : Z := default 0 p - default 0 q.

#[export] Instance int_order u : CmpOrder (int_cmp u).
Proof. split; unfold int_cmp; intros; lia. Qed.

(** A merge sort has the laws of [qsort]. *)
Definition cmp_le {A} (cmp : ptr A -> ptr A -> Z) (p q : ptr A) : Prop := cmp p q <= 0.

#[export] Instance cmp_le_dec {A} (cmp : ptr A -> ptr A -> Z) p q : Decision (cmp_le cmp p q).
Proof. unfold cmp_le. apply _. Defined.

Definition merge_qsort {A} (cmp : ptr A -> ptr A -> Z) (l : list (ptr A)) : list (ptr A) :=
  merge_sort (cmp_le cmp) l.

Lemma strongly_ascending {A} (cmp : ptr A -> ptr A -> Z) l :
  StronglySorted (cmp_le cmp) l -> ascending cmp l.
Proof.
  induction 1 as [|x l _ IH Hx]; intros i j y z Hij Hy Hz; [done|].
  destruct j as [|j]; [lia|]. destruct i as [|i].
  - injection Hy as <-. rewrite Forall_lookup in Hx. exact (Hx j z Hz).
  - apply (IH i j); [lia|done|done].
Qed.

#[export] Instance merge_qsort_laws {A} : QsortLaws (@merge_qsort A).
Proof.
  split; intros cmp l; [apply merge_sort_Permutation|]. intros Ho. apply strongly_ascending.
  assert (Transitive (cmp_le cmp)) by (intros a b c; apply cmp_trans).
  apply Sorted_StronglySorted; [done|]. apply Sorted_merge_sort. intros a b. unfold cmp_le.
  destruct (Z.le_gt_cases (cmp a b) 0) as [|Hgt]; [by left|right]. apply cmp_anti in Hgt. lia.
Qed.

#[export] Instance the_malloc : Malloc := zero_malloc.

Abbreviation int_run := (run (fun _ => None) int_cmp merge_qsort).

Definition int_stack : _STACK Z unit := Stack 0 [None; None; None; None] false 4 (Some tt).

Lemma int_stack_new : sk_new (fun _ => None) (Some tt) = Some int_stack.
Proof. reflexivity. Qed.

Definition int_ops : list (sk_op (A:=Z) (stack_cmp_func:=unit)) :=
  (OpPush ∘ Some <$> [5; 3; 9; 3; 7]) ++ [OpSort; OpFind (Some 3); OpFind (Some 7); OpDelete 2; OpPop].

Lemma int_ops_ok : Forall op_ok int_ops /\ Forall no_set int_ops.
Proof. split; unfold int_ops; simpl; repeat (apply Forall_cons_2; [simpl; lia || done|]); apply Forall_nil_2. Qed.

Lemma stack_refines_list_witness :
  exists rs s', int_run int_ops (Some int_stack) = (Some rs, Some s') /\
    drop 5 rs = [RUnit; RIndex (Some 0); RIndex (Some 3); RPtr (Some 5); RPtr (Some 9)] /\
    spec_run int_cmp int_ops (View [] kMinSize false (Some tt)) rs (view_of s').
Proof.
  destruct (stack_refines_list (fun _ => None) int_cmp merge_qsort (Some tt) int_stack int_ops int_stack_new)
    as [(rs & s' & Hr & _ & Hs) _]; [apply int_ops_ok|].
  exists rs, s'. split; [exact Hr|]. split; [|exact Hs].
  vm_compute in Hr. injection Hr as <- _. reflexivity.
Defined.

Lemma stack_find_first_witness :
  exists rs s', int_run int_ops (Some int_stack) = (Some rs, Some s') /\
    sk_find int_cmp (Some 7) (Some s') = (Some (Some 2), Some s').
Proof.
  destruct (stack_find_first (fun _ => None) int_cmp merge_qsort (Some tt) int_stack int_ops int_stack_new)
    as (rs & s' & Hr & Hf); [apply int_ops_ok|apply int_ops_ok|].
  exists rs, s'. split; [exact Hr|]. vm_compute in Hr. injection Hr as _ <-.
  specialize (Hf tt 7 eq_refl (int_order tt)). exact Hf.
Defined.

(** [sk_set] leaves the flag [sorted] set, so a later search bisects an array
    that is not in order and misses an element it holds. *)
Lemma sk_set_stays_sorted :
  exists rs s', int_run ((OpPush ∘ Some <$> [1; 2; 3]) ++ [OpSort; OpSet 0 (Some 9)]) (Some int_stack) =
      (Some rs, Some s') /\
    elems s' = [Some 9; Some 2; Some 3] /\ sorted s' = true /\
    sk_find int_cmp (Some 9) (Some s') = (Some None, Some s').
Proof. eexists _, _. split; [vm_compute; reflexivity|]. repeat split. Qed.

(** The allocated objects as a list; copying 13 fails. *)
Fixpoint take_out (a : Z) (l : list Z) : option (list Z) :=
  match l with
  | [] => None
  | b :: l => if a =? b then Some l else cons b <$> take_out a l
  end.

Definition int_copy (a : Z) : M (list Z) (ptr Z) := fun x =>
  if a =? 13 then (Some None, x) else (Some (Some (a + 100)), a + 100 :: x).

Definition int_free (a : Z) : M (list Z) unit := fun x =>
  match take_out a x with
  | None => (None, x)
  | Some x => (Some tt, x)
  end.

Lemma take_out_ok a l : a ∈ l -> exists k, take_out a l = Some k /\ l ≡ₚ a :: k.
Proof.
  induction l as [|b l IH]; [by intros ?%elem_of_nil|]. rewrite elem_of_cons. simpl.
  destruct (Z.eqb_spec a b) as [->|Hne]; [by exists l|]. intros [->|Hin]; [done|].
  destruct (IH Hin) as (k & -> & Hk). exists (b :: k). split; [done|]. rewrite Hk. by constructor.
Qed.

#[export] Instance int_owned : OwnedLaws int_copy int_free id.
Proof.
  split.
  - intros a x. unfold int_copy. destruct (a =? 13); [by exists None, x|by exists (Some (a + 100)), (a + 100 :: x)].
  - intros a x l Hx. unfold id in *. unfold int_free.
    destruct (take_out_ok a x) as (k & -> & Hk); [rewrite Hx; by left|].
    exists k. split; [done|]. by rewrite Hx in Hk; apply Permutation_cons_inv in Hk.
Qed.

Definition three_stack : _STACK Z unit := Stack 3 [Some 1; None; Some 2; None] false 4 None.

Lemma three_stack_ok : sk_ok three_stack.
Proof. split; unfold three_stack, kMinSize, blen; simpl; lia. Qed.

Lemma deep_copy_owns_witness :
  exists ret x', sk_deep_copy (fun _ => None) int_copy int_free (Some three_stack) [77] =
      (Some (Some ret), x') /\
    elems ret = [Some 101; None; Some 102] /\ x' ≡ₚ [101; 102] ++ [77] /\
    exists x'', sk_pop_free_ex int_free (Some ret) x' = (Some tt, x'') /\ x'' ≡ₚ [77].
Proof.
  destruct (deep_copy_owns (fun _ => None) int_copy int_free id three_stack [77] three_stack_ok)
    as (r & x' & He & Hr).
  assert (r = Some (Stack 3 [Some 101; None; Some 102; None] false 4 None)) as ->
    by (vm_compute in He; by injection He as <- _).
  destruct Hr as (_ & _ & _ & _ & Hl & Hf). by exists (Stack 3 [Some 101; None; Some 102; None] false 4 None), x'.
Defined.
