(* ===== verification/Lhash.v ===== *)
(** crypto/lhash/lhash.c: the chaining hash table, at the level of its
    pointers.

    The items of the table live in a store [w_items] by address and point at
    each other through [next]; a pointer to a pointer ([LHASH_ITEM **]) is a
    [slot], either an element of the bucket array or the [next] field of an
    item. The table and its bucket array are blocks of memory too, [w_blocks];
    their contents are in [w_lh]. Addresses are never reused, so an access to a freed item is an access
    to an address with nothing in it. The functions run in the error-state
    monad, where failure is undefined behaviour: an access to memory that is
    not there, or a loop that outlives its fuel. An allocation that returns
    NULL is no such failure: the code handles it. *)

From S2P Require Import Prelude.

Abbreviation loc := nat.

Definition kMinNumBuckets : Z := 16.
Definition kMaxAverageChainLength : Z := 2.
Definition kMinAverageChainLength : Z := 1.

Definition sizeof_ptr : Z := 8.
Definition sizeof_LHASH_ITEM : Z := 24.
Definition sizeof_LHASH : Z := 48.
Definition UINT_MAX : Z := 2 ^ 32 - 1.

(** [data] is the [void *] of the client, its type [A]. *)
Record LHASH_ITEM (A : Type) := LhashItem {
  data : A;
  next : option loc;
  hash : Z
}.
Arguments LhashItem {A}.
Arguments data {A}.
Arguments next {A}.
Arguments hash {A}.

Record lhash_st (F G : Type) := Lhash {
  num_items : Z;
  buckets : list (option loc);
  num_buckets : Z;
  callback_depth : Z;
  comp : F;
  hash_func : G;
  self : loc;        (* the address of the table *)
  buckets_at : loc   (* the address of the bucket array *)
}.
Arguments Lhash {F G}.
Arguments num_items {F G}.
Arguments buckets {F G}.
Arguments num_buckets {F G}.
Arguments callback_depth {F G}.
Arguments comp {F G}.
Arguments hash_func {F G}.
Arguments self {F G}.
Arguments buckets_at {F G}.

(** A pointer to a pointer to an item. *)
Variant slot :=
| SBucket (i : Z)
| SNext (l : loc).

(** Whether the [n]th request to the C library's allocator is granted, when
    [live] bytes are allocated already and [size] are asked for. *)
Class Allocator := alloc_ok : nat -> Z -> Z -> bool.

(** Live blocks do not overlap in a 64-bit address space. *)
Class AllocatorLaws (al : Allocator) : Prop :=
  alloc_bound : forall n live size, alloc_ok n live size = true -> live + size < 2 ^ 64.

(** An allocator that refuses nothing while less than 2^63 bytes are in use. *)
Class AllocatorGrants (al : Allocator) : Prop :=
  alloc_grants : forall n live size, live + size < 2 ^ 63 -> alloc_ok n live size = true.

Section Lhash.
Context {al : Allocator}.
(** The client's data and the state its callbacks share ([void *arg]). *)
Context {A X : Type}.
(** The function pointers kept in the table and the typed wrappers that call
    them. *)
Context {lhash_cmp_func lhash_hash_func : Type}.
Context (call_hash_func : lhash_hash_func -> A -> Z).
Context (call_cmp_func : lhash_cmp_func -> A -> A -> Z).

Abbreviation lhash := (lhash_st lhash_cmp_func lhash_hash_func).

(** The table ([None]: NULL, or freed), its items, the sizes of the other blocks
    that are allocated, the number of requests made to the allocator and the
    state of the callbacks. *)
Record world := World {
  w_lh : option lhash;
  w_items : gmap loc (LHASH_ITEM A);
  w_blocks : gmap loc Z;
  w_allocs : nat;
  w_arg : X
}.

Definition set_lh (lh : option lhash) (w : world) : world :=
  World lh (w_items w) (w_blocks w) (w_allocs w) (w_arg w).
Definition set_items (m : gmap loc (LHASH_ITEM A)) (w : world) : world :=
  World (w_lh w) m (w_blocks w) (w_allocs w) (w_arg w).
Definition set_blocks (m : gmap loc Z) (w : world) : world :=
  World (w_lh w) (w_items w) m (w_allocs w) (w_arg w).
Definition set_arg (x : X) (w : world) : world :=
  World (w_lh w) (w_items w) (w_blocks w) (w_allocs w) x.

Definition set_buckets (bs : list (option loc)) (n : Z) (lh : lhash) : lhash :=
  Lhash (num_items lh) bs n (callback_depth lh) (comp lh) (hash_func lh) (self lh) (buckets_at lh).
Definition set_num_items (n : Z) (lh : lhash) : lhash :=
  Lhash n (buckets lh) (num_buckets lh) (callback_depth lh) (comp lh) (hash_func lh) (self lh) (buckets_at lh).
Definition set_callback_depth (n : Z) (lh : lhash) : lhash :=
  Lhash (num_items lh) (buckets lh) (num_buckets lh) n (comp lh) (hash_func lh) (self lh) (buckets_at lh).

Definition set_buckets_at (l : loc) (lh : lhash) : lhash :=
  Lhash (num_items lh) (buckets lh) (num_buckets lh) (callback_depth lh) (comp lh) (hash_func lh) (self lh) l.

(** * Memory *)

(** Dereference the table's pointer. *)
Definition get_lh : M world lhash := fun w => (w_lh w, w).
Definition put_lh (lh : option lhash) : M world unit := fun w => (Some tt, set_lh lh w).

Definition get_item (l : loc) : M world (LHASH_ITEM A) := fun w => (w_items w !! l, w).

Definition put_item (l : loc) (it : LHASH_ITEM A) : M world unit :=
  _ ← get_item l;
  mmodify (fun w => set_items (<[l := it]> (w_items w)) w).

(** [OPENSSL_free] of an item: it must be allocated. *)
Definition free_item (l : loc) : M world unit :=
  _ ← get_item l;
  mmodify (fun w => set_items (delete l (w_items w)) w).

Definition block_bytes (m : gmap loc Z) : Z := map_fold (fun _ n bytes => n + bytes) 0 m.

Definition live_bytes (w : world) : Z :=
  sizeof_LHASH_ITEM * Z.of_nat (size (w_items w)) + block_bytes (w_blocks w).

(** [OPENSSL_malloc]: whether the block is granted. The allocator is asked for
    eight bytes more. *)
Definition lh_malloc (size : Z) : M world bool := fun w =>
  if u64 (size + 8) <? size then (Some false, w)
  else (Some (alloc_ok (w_allocs w) (live_bytes w) (u64 (size + 8))),
        World (w_lh w) (w_items w) (w_blocks w) (S (w_allocs w)) (w_arg w)).

(** A new item at an address that was never used; the result is its address,
    or [None] for NULL. *)
Definition malloc_item (it : LHASH_ITEM A) : M world (option loc) :=
  w ← mget;
  let l := w_allocs w in
  ok ← lh_malloc sizeof_LHASH_ITEM;
  if negb ok then mret None
  else
    _ ← mmodify (fun w => set_items (<[l := it]> (w_items w)) w);
    mret (Some l).

(** A block of [size] bytes at an address that was never used; [None] for NULL. *)
Definition malloc_block (size : Z) : M world (option loc) :=
  w ← mget;
  let l := w_allocs w in
  ok ← lh_malloc size;
  if negb ok then mret None
  else
    _ ← mmodify (fun w => set_blocks (<[l := size]> (w_blocks w)) w);
    mret (Some l).

(** [OPENSSL_free] of a block: it must be allocated. *)
Definition free_block (l : loc) : M world unit :=
  w ← mget;
  match w_blocks w !! l with
  | None => mfail
  | Some _ => mmodify (fun w => set_blocks (delete l (w_blocks w)) w)
  end.

(** [lh->buckets[i]]. *)
Definition get_bucket (i : Z) : M world (option loc) :=
  lh ← get_lh;
  match (if i <? 0 then None else buckets lh !! Z.to_nat i) with
  | None => mfail
  | Some p => mret p
  end.

Definition load_slot (s : slot) : M world (option loc) :=
  match s with
  | SBucket i => get_bucket i
  | SNext l => it ← get_item l; mret (next it)
  end.

Definition store_slot (s : slot) (p : option loc) : M world unit :=
  match s with
  | SBucket i =>
      _ ← get_bucket i;
      lh ← get_lh;
      put_lh (Some (set_buckets (<[Z.to_nat i := p]> (buckets lh)) (num_buckets lh) lh))
  | SNext l =>
      it ← get_item l;
      put_item l (LhashItem (data it) p (hash it))
  end.

(** * Operations *)

(** The result is whether the table was allocated. *)
Definition OPENSSL_lh_new (hf : lhash_hash_func) (cf : lhash_cmp_func) : M world bool :=
  ret ← malloc_block sizeof_LHASH;
  match ret with
  | None => mret false
  | Some ret =>
      bs ← malloc_block (u64 (sizeof_ptr * kMinNumBuckets));
      match bs with
      | None => _ ← free_block ret; mret false
      | Some bs =>
          _ ← put_lh (Some (Lhash 0 (replicate (Z.to_nat kMinNumBuckets) None) kMinNumBuckets 0 cf hf ret bs));
          mret true
      end
  end.

(** [for (n = p; n != NULL; n = next) { next = n->next; OPENSSL_free(n); }] *)
Fixpoint free_chain (fuel : nat) (p : option loc) : M world unit :=
  match fuel, p with
  | O, _ => mfail
  | S _, None => mret tt
  | S fuel, Some n =>
      it ← get_item n;
      _ ← free_item n;
      free_chain fuel (next it)
  end.

(** [for (i = 0; i < n; i++) body i], over the state [B] of the loop. *)
Fixpoint for_loop {B} (body : Z -> B -> M world B) (l : list Z) (b : B) : M world B :=
  match l with
  | [] => mret b
  | i :: l => b ← body i b; for_loop body l b
  end.

(** No chain is longer than the number of items that exist. *)
Definition chain_fuel : M world nat := fun w => (Some (S (size (w_items w))), w).

Definition OPENSSL_lh_free : M world unit :=
  w ← mget;
  match w_lh w with
  | None => mret tt
  | Some lh =>
      _ ← for_loop (fun i _ => n ← get_bucket i; fuel ← chain_fuel; free_chain fuel n)
            (seqZ 0 (num_buckets lh)) tt;
      _ ← free_block (buckets_at lh);
      _ ← free_block (self lh);
      put_lh None
  end.

Definition OPENSSL_lh_num_items : M world Z := lh ← get_lh; mret (num_items lh).

(** Follow the chain until an item is equal, or to its end. *)
Fixpoint find_slot (fuel : nat) (equal : A -> bool) (ret : slot) : M world slot :=
  match fuel with
  | O => mfail
  | S fuel =>
      cur ← load_slot ret;
      match cur with
      | None => mret ret
      | Some l =>
          it ← get_item l;
          if equal (data it) then mret ret else find_slot fuel equal (SNext l)
      end
  end.

Definition get_next_ptr_and_hash (d : A) : M world (slot * Z) :=
  lh ← get_lh;
  let h := call_hash_func (hash_func lh) d in
  fuel ← chain_fuel;
  s ← find_slot fuel (fun cur => call_cmp_func (comp lh) cur d =? 0)
        (SBucket (h mod num_buckets lh));
  mret (s, h).

(** The closure of the key, [cmp_key(key, .)], is an argument. *)
Definition get_next_ptr_by_key (key_hash : Z) (cmp_key : A -> Z) : M world slot :=
  lh ← get_lh;
  fuel ← chain_fuel;
  find_slot fuel (fun cur => cmp_key cur =? 0) (SBucket (key_hash mod num_buckets lh)).

(** The data of the item the slot points at; [None] is NULL. *)
Definition slot_data (s : slot) : M world (option A) :=
  p ← load_slot s;
  match p with
  | None => mret None
  | Some l => it ← get_item l; mret (Some (data it))
  end.

Definition OPENSSL_lh_retrieve (d : A) : M world (option A) :=
  '(s, _) ← get_next_ptr_and_hash d; slot_data s.

Definition OPENSSL_lh_retrieve_key (key_hash : Z) (cmp_key : A -> Z) : M world (option A) :=
  s ← get_next_ptr_by_key key_hash cmp_key; slot_data s.

(** The inner loop of [lh_rebucket]: every item of the chain at [cur] is pushed
    on the front of its new bucket. *)
Fixpoint rebucket_chain (fuel : nat) (new_num_buckets : Z) (cur : option loc)
    (new_buckets : list (option loc)) : M world (list (option loc)) :=
  match fuel, cur with
  | O, _ => mfail
  | S _, None => mret new_buckets
  | S fuel, Some l =>
      it ← get_item l;
      let new_bucket := Z.to_nat (hash it mod new_num_buckets) in
      match new_buckets !! new_bucket with
      | None => mfail
      | Some head =>
          _ ← put_item l (LhashItem (data it) head (hash it));
          rebucket_chain fuel new_num_buckets (next it) (<[new_bucket := Some l]> new_buckets)
      end
  end.

Definition lh_rebucket (new_num_buckets : Z) : M world unit :=
  lh ← get_lh;
  let alloc_size := u64 (sizeof_ptr * new_num_buckets) in
  if negb (alloc_size / sizeof_ptr =? new_num_buckets) then mret tt
  else
    p ← malloc_block alloc_size;
    match p with
    | None => mret tt
    | Some p =>
        new_buckets ← for_loop
          (fun i nb => cur ← get_bucket i; fuel ← chain_fuel; rebucket_chain fuel new_num_buckets cur nb)
          (seqZ 0 (num_buckets lh)) (replicate (Z.to_nat new_num_buckets) None);
        lh ← get_lh;
        _ ← free_block (buckets_at lh);
        put_lh (Some (set_buckets_at p (set_buckets new_buckets new_num_buckets lh)))
    end.

Definition lh_maybe_resize : M world unit :=
  lh ← get_lh;
  if 0 <? callback_depth lh then mret tt
  else
    let avg_chain_length := num_items lh / num_buckets lh in
    if kMaxAverageChainLength <? avg_chain_length then
      let new_num_buckets := u64 (num_buckets lh * 2) in
      if num_buckets lh <? new_num_buckets then lh_rebucket new_num_buckets else mret tt
    else if (avg_chain_length <? kMinAverageChainLength) && (kMinNumBuckets <? num_buckets lh) then
      let new_num_buckets := num_buckets lh / 2 in
      let new_num_buckets :=
        if new_num_buckets <? kMinNumBuckets then kMinNumBuckets else new_num_buckets in
      lh_rebucket new_num_buckets
    else mret tt.

(** The result is the return value and [*old_data]. *)
Definition OPENSSL_lh_insert (d : A) : M world (bool * option A) :=
  '(next_ptr, h) ← get_next_ptr_and_hash d;
  p ← load_slot next_ptr;
  match p with
  | Some l =>
      it ← get_item l;
      let old_data := data it in
      _ ← put_item l (LhashItem d (next it) (hash it));
      mret (true, Some old_data)
  | None =>
      item ← malloc_item (LhashItem d None h);
      match item with
      | None => mret (false, None)
      | Some l =>
          _ ← store_slot next_ptr (Some l);
          lh ← get_lh;
          _ ← put_lh (Some (set_num_items (u64 (num_items lh + 1)) lh));
          _ ← lh_maybe_resize;
          mret (true, None)
      end
  end.

Definition OPENSSL_lh_delete (d : A) : M world (option A) :=
  '(next_ptr, _) ← get_next_ptr_and_hash d;
  p ← load_slot next_ptr;
  match p with
  | None => mret None
  | Some l =>
      item ← get_item l;
      _ ← store_slot next_ptr (next item);
      let ret := data item in
      _ ← free_item l;
      lh ← get_lh;
      _ ← put_lh (Some (set_num_items (u64 (num_items lh - 1)) lh));
      _ ← lh_maybe_resize;
      mret (Some ret)
  end.

(** The loops of [OPENSSL_lh_doall_arg]. [func] may use the table: the bucket
    array is read again for every bucket, but the [next] of an item is read
    before the call. *)
Fixpoint doall_chain (fuel : nat) (func : A -> M world unit) (cur : option loc) : M world unit :=
  match fuel, cur with
  | O, _ => mfail
  | S _, None => mret tt
  | S fuel, Some l =>
      it ← get_item l;
      _ ← func (data it);
      doall_chain fuel func (next it)
  end.

Fixpoint doall_buckets (fuel : nat) (func : A -> M world unit) (i : Z) : M world unit :=
  match fuel with
  | O => mfail
  | S fuel' =>
      lh ← get_lh;
      if i <? num_buckets lh then
        cur ← get_bucket i;
        _ ← doall_chain fuel func cur;
        doall_buckets fuel' func (i + 1)
      else mret tt
  end.

Definition OPENSSL_lh_doall_arg (fuel : nat) (func : A -> M world unit) : M world unit :=
  w ← mget;
  match w_lh w with
  | None => mret tt
  | Some lh =>
      _ ← (if callback_depth lh <? UINT_MAX
           then put_lh (Some (set_callback_depth (callback_depth lh + 1) lh)) else mret tt);
      _ ← doall_buckets fuel func 0;
      lh ← get_lh;
      _ ← (if callback_depth lh <? UINT_MAX
           then put_lh (Some (set_callback_depth (callback_depth lh - 1) lh)) else mret tt);
      lh_maybe_resize
  end.
End Lhash.
