(* ===== verification/LhashSpec.v ===== *)
(** The hash table of lhash.c against finite maps: the linked chains behind the
    bucket array, the invariant of the table, and what each operation does to
    them. *)

From S2P Require Import Prelude Lhash.

(** * Lists of chains *)

(** Replacing one element of a list of lists. *)
Lemma concat_insert {A} (cs : list (list A)) i c :
  cs !! i = Some c ->
  exists r, concat cs ≡ₚ c ++ r /\
    (forall c', concat (<[i := c']> cs) ≡ₚ c' ++ r) /\
    (forall j c', j <> i -> cs !! j = Some c' -> forall x, x ∈ c' -> x ∈ r).
Proof.
  intros Hi. exists (concat (take i cs) ++ concat (drop (S i) cs)).
  assert (forall c', concat (take i cs ++ c' :: drop (S i) cs) ≡ₚ
    c' ++ concat (take i cs) ++ concat (drop (S i) cs)) as Hc.
  { intros c'. rewrite concat_app. simpl. apply Permutation_app_swap_app. }
  split; [|split].
  - rewrite <-(take_drop_middle cs i c Hi) at 1. apply Hc.
  - intros c'. rewrite insert_take_drop by (by eapply lookup_lt_Some). apply Hc.
  - intros j c' Hj Hc' x Hx. rewrite <-concat_app. apply list_elem_of_In, in_concat.
    exists c'. rewrite <-!list_elem_of_In. split; [|done].
    rewrite elem_of_app. destruct (decide (j < i)%nat).
    + left. apply list_elem_of_lookup. exists j. by rewrite lookup_take_lt.
    + right. apply list_elem_of_lookup. exists (j - S i)%nat. rewrite lookup_drop.
      rewrite <-Hc'. f_equal. lia.
Qed.

Lemma elem_of_concat {A} (cs : list (list A)) i c x :
  cs !! i = Some c -> x ∈ c -> x ∈ concat cs.
Proof.
  intros Hi Hx. apply list_elem_of_In, in_concat. exists c. rewrite <-!list_elem_of_In.
  split; [|done]. by eapply list_elem_of_lookup_2.
Qed.

Section Spec.
Context {al : Allocator}.
Context {A X : Type} {lhash_cmp_func lhash_hash_func : Type}.
Context (call_hash_func : lhash_hash_func -> A -> Z).
Context (call_cmp_func : lhash_cmp_func -> A -> A -> Z).
Context `{CK : Countable K} (key : A -> K) (hf : lhash_hash_func) (cf : lhash_cmp_func).

(** What the client's callbacks must satisfy: the comparison is equality of
    keys and equal keys have equal hashes. *)
Class LhashKeys : Prop := {
  cmp_key : forall a b, call_cmp_func cf a b = 0 <-> key a = key b;
  hash_key : forall a b, key a = key b -> call_hash_func hf a = call_hash_func hf b
}.

Abbreviation hsh := (call_hash_func hf).
Abbreviation world := (@world A X lhash_cmp_func lhash_hash_func).
Abbreviation items := (gmap loc (LHASH_ITEM A)).

(** * Linked segments *)

(** [seg m p c q]: from [p] the items [c] are linked up to the pointer [q]. *)
Fixpoint seg (m : items) (p : option loc) (c : list (loc * A)) (q : option loc) : Prop :=
  match c with
  | [] => p = q
  | (l, a) :: c => p = Some l /\ exists n, m !! l = Some (LhashItem a n (hsh a)) /\ seg m n c q
  end.

Lemma seg_app m p c1 c2 q :
  seg m p (c1 ++ c2) q <-> exists r, seg m p c1 r /\ seg m r c2 q.
Proof.
  revert p. induction c1 as [|[l a] c1 IH]; intros p; simpl; [naive_solver|].
  setoid_rewrite IH. naive_solver.
Qed.

Lemma seg_frame m m' p c q :
  (forall l, l ∈ c.*1 -> m' !! l = m !! l) -> seg m p c q -> seg m' p c q.
Proof.
  revert p. induction c as [|[l a] c IH]; intros p Hm; simpl; [done|].
  simpl in Hm. setoid_rewrite elem_of_cons in Hm. intros (-> & n & Hl & Hs). split; [done|].
  exists n. rewrite Hm by auto. split; [done|]. auto.
Qed.

Lemma seg_elem m p c q l : seg m p c q -> l ∈ c.*1 -> is_Some (m !! l).
Proof.
  revert p. induction c as [|[l' a] c IH]; intros p; simpl; [by intros _ ?%elem_of_nil|].
  intros (-> & n & Hl & Hs). rewrite elem_of_cons. intros [->|]; [by rewrite Hl|eauto].
Qed.

Definition chains (m : items) (bs : list (option loc)) (cs : list (list (loc * A))) : Prop :=
  Forall2 (fun p c => seg m p c None) bs cs.

Lemma chains_frame m m' bs cs :
  (forall l, l ∈ (concat cs).*1 -> m' !! l = m !! l) -> chains m bs cs -> chains m' bs cs.
Proof.
  intros Hm Hc. induction Hc as [|p c bs cs Hp _ IH]; [constructor|].
  simpl in Hm. rewrite fmap_app in Hm. setoid_rewrite elem_of_app in Hm.
  constructor; [eapply seg_frame; [|done]; auto|]. apply IH. auto.
Qed.

(** Replacing the chain of one bucket, when the other chains are untouched. *)
Lemma chains_update m m' bs cs i c c' p' :
  chains m bs cs -> cs !! i = Some c -> NoDup (concat cs).*1 ->
  (forall l, l ∉ c.*1 -> l ∈ (concat cs).*1 -> m' !! l = m !! l) ->
  seg m' p' c' None -> chains m' (<[i := p']> bs) (<[i := c']> cs).
Proof.
  intros Hc Hi Hnd Hm Hs. destruct (concat_insert cs i c Hi) as (r & Hr & _ & Hother).
  rewrite Hr, fmap_app in Hnd. apply NoDup_app in Hnd as (_ & Hd & _).
  apply Forall2_same_length_lookup. split.
  { rewrite !length_insert. by eapply Forall2_length. }
  intros j p'' c'' Hp'' Hc''. destruct (decide (j = i)) as [->|Hj].
  - rewrite list_lookup_insert_eq in Hp'' by (apply Forall2_length in Hc; rewrite Hc; by eapply lookup_lt_Some).
    rewrite list_lookup_insert_eq in Hc'' by (by eapply lookup_lt_Some). by simplify_eq.
  - rewrite list_lookup_insert_ne in Hp'' by done. rewrite list_lookup_insert_ne in Hc'' by done.
    eapply seg_frame; [|by eapply (Forall2_lookup_lr _ _ _ _ _ _ Hc)].
    intros l Hl. apply list_elem_of_fmap in Hl as (x & -> & Hx). apply Hm.
    + intros Hin. apply (Hd x.1 Hin). apply list_elem_of_fmap_2. by eapply Hother.
    + apply list_elem_of_fmap_2. by eapply elem_of_concat.
Qed.

(** * Slots *)

(** The slot behind the items [c] of bucket [i]. *)
Definition slot_of (i : nat) (c : list (loc * A)) : slot :=
  match last c with
  | None => SBucket (Z.of_nat i)
  | Some x => SNext x.1
  end.

Lemma get_bucket_ok (w : world) lh i p :
  w_lh w = Some lh -> buckets lh !! i = Some p -> get_bucket (Z.of_nat i) w = (Some p, w).
Proof.
  intros Hw Hi. unfold get_bucket, mbind, M_bind, get_lh. rewrite Hw.
  rewrite (proj2 (Z.ltb_ge _ 0)) by lia. by rewrite Nat2Z.id, Hi.
Qed.

Lemma load_slot_ok (w : world) lh i p c q :
  w_lh w = Some lh -> buckets lh !! i = Some p -> seg (w_items w) p c q ->
  load_slot (slot_of i c) w = (Some q, w).
Proof.
  intros Hw Hi. destruct c as [|[l a] c _] using rev_ind; unfold slot_of.
  - intros [= ->]. by apply get_bucket_ok with lh.
  - rewrite last_snoc. intros (r & _ & -> & n & Hl & [= ->])%seg_app.
    unfold load_slot, mbind, M_bind, get_item. cbn. by rewrite Hl.
Qed.

(** [find_slot] stops at the first equal item or behind the chain. *)
Lemma find_slot_ok (w : world) lh i p equal c2 : forall c1 q fuel,
  w_lh w = Some lh -> buckets lh !! i = Some p ->
  seg (w_items w) p c1 q -> seg (w_items w) q c2 None -> (length c2 < fuel)%nat ->
  exists c3 c4, c2 = c3 ++ c4 /\
    find_slot fuel equal (slot_of i c1) w = (Some (slot_of i (c1 ++ c3)), w) /\
    Forall (fun x => equal x.2 = false) c3 /\
    (match c4 with [] => True | x :: _ => equal x.2 = true end).
Proof.
  induction c2 as [|[l a] c2 IH]; intros c1 q fuel Hw Hi H1 H2 Hf;
    (destruct fuel as [|fuel]; [simpl in Hf; lia|]); cbn [find_slot];
    rewrite (bind_ok _ _ _ _ _ (load_slot_ok w lh i p c1 q Hw Hi H1)).
  - simpl in H2. subst q. cbn. exists [], []. rewrite !app_nil_r. repeat split; constructor.
  - destruct H2 as (-> & n & Hl & H2).
    rewrite (bind_ok (get_item l) _ w (LhashItem a n (hsh a)) w) by (unfold get_item; by rewrite Hl).
    cbn [data]. destruct (equal a) eqn:He.
    + exists [], ((l, a) :: c2). rewrite app_nil_r. repeat split; auto.
    + assert (seg (w_items w) p (c1 ++ [(l, a)]) n) as H1'.
      { apply seg_app. eexists. split; [done|]. simpl. eauto. }
      destruct (IH _ _ fuel Hw Hi H1' H2) as (c3 & c4 & -> & Hf' & Hc3 & Hc4).
      { simpl in Hf. lia. }
      exists ((l, a) :: c3), c4. split; [done|]. rewrite <-app_assoc in Hf'.
      unfold slot_of at 1 in Hf'. rewrite last_snoc in Hf'. simpl in Hf'. rewrite Hf'.
      split; [done|]. split; [by constructor|done].
Qed.

Definition with_buckets (bs : list (option loc)) (w : world) : world :=
  match w_lh w with
  | None => w
  | Some lh => set_lh (Some (set_buckets bs (num_buckets lh) lh)) w
  end.

(** Storing through the slot behind [c1] relinks only the end of [c1]. *)
Lemma store_slot_ok (w : world) lh i p c1 q r :
  w_lh w = Some lh -> buckets lh !! i = Some p -> seg (w_items w) p c1 q -> NoDup c1.*1 ->
  exists m' p',
    store_slot (slot_of i c1) r w =
      (Some tt, with_buckets (<[i := p']> (buckets lh)) (set_items m' w)) /\
    seg m' p' c1 r /\
    (forall l, l ∉ c1.*1 -> m' !! l = w_items w !! l) /\
    (forall l, is_Some (m' !! l) <-> is_Some (w_items w !! l)).
Proof.
  intros Hw Hi H1 Hnd. destruct w as [lh0 m bl al' x]. simpl in *. subst lh0.
  unfold with_buckets. cbn.
  destruct c1 as [|[l a] c1 _] using rev_ind; unfold slot_of.
  - exists m, r. split; [|done]. cbn [last store_slot].
    erewrite bind_ok by (eapply get_bucket_ok; [reflexivity|exact Hi]).
    unfold mbind, M_bind, get_lh. cbn. by rewrite Nat2Z.id.
  - rewrite last_snoc. apply seg_app in H1 as (s & H1 & -> & n & Hl & Hn). simpl in Hn. subst n.
    exists (<[l := LhashItem a r (hsh a)]> m), p. split.
    + unfold store_slot, put_item, mbind, M_bind, get_item, mmodify. cbn. rewrite Hl. cbn.
      rewrite list_insert_id by done. unfold set_items, set_lh. cbn.
      by destruct lh.
    + rewrite fmap_app in Hnd. apply NoDup_app in Hnd as (_ & Hd & _).
      split; [|split].
      * apply seg_app. exists (Some l). split.
        -- eapply seg_frame; [|done]. intros l' Hl'. apply lookup_insert_ne.
           intros ->. apply (Hd _ Hl'). simpl. by apply list_elem_of_singleton.
        -- simpl. split; [done|]. exists r. by rewrite lookup_insert_eq.
      * intros l' Hl'. apply lookup_insert_ne. intros ->. apply Hl'.
        rewrite fmap_app. apply elem_of_app. right. by apply list_elem_of_singleton.
      * intros l'. destruct (decide (l' = l)) as [->|].
        -- rewrite lookup_insert_eq, Hl. naive_solver.
        -- by rewrite lookup_insert_ne.
Qed.

(** * The invariant *)

(** The items [its] are exactly the allocated ones, at distinct addresses that
    were handed out, and no two of them are equal to the client. *)
Record items_ok (its : list (loc * A)) (w : world) : Prop := {
  ok_locs : NoDup its.*1;
  ok_dom : forall l, is_Some (w_items w !! l) <-> l ∈ its.*1;
  ok_fresh : forall l, l ∈ its.*1 -> (l < w_allocs w)%nat;
  ok_keys : NoDup (key <$> its.*2)
}.

(** Chain [i] holds the items whose hash is [i] modulo the number of buckets. *)
Definition placed (cs : list (list (loc * A))) : Prop :=
  forall i c x, cs !! i = Some c -> x ∈ c -> hsh x.2 mod blen cs = Z.of_nat i.

Record lh_inv (cs : list (list (loc * A))) (lh : lhash_st lhash_cmp_func lhash_hash_func)
    (w : world) : Prop := {
  inv_lh : w_lh w = Some lh;
  inv_chains : chains (w_items w) (buckets lh) cs;
  inv_nb : num_buckets lh = blen cs;
  inv_min : kMinNumBuckets <= blen cs < 2 ^ 61;
  inv_placed : placed cs;
  inv_items : items_ok (concat cs) w;
  inv_num : num_items lh = blen (concat cs);
  inv_word : num_items lh < 2 ^ 64;
  inv_comp : comp lh = cf;
  inv_hash : hash_func lh = hf;
  inv_blocks : w_blocks w = {[self lh := sizeof_LHASH; buckets_at lh := sizeof_ptr * num_buckets lh]};
  inv_at : self lh <> buckets_at lh;
  inv_self : (self lh < w_allocs w)%nat;
  inv_buckets : (buckets_at lh < w_allocs w)%nat
}.

(** The finite map that a list of items stands for. *)
Definition contents (its : list (loc * A)) : gmap K A :=
  list_to_map ((fun a => (key a, a)) <$> its.*2).

Lemma items_ok_perm its its' w : its ≡ₚ its' -> items_ok its w -> items_ok its' w.
Proof.
  intros Hp [H1 H2 H3 H4]. split; rewrite <-?Hp; try done.
  - intros l. by rewrite <-Hp.
  - intros l. rewrite <-Hp. auto.
Qed.

#[export] Instance items_ok_proper : Proper ((≡ₚ) ==> (=) ==> iff) items_ok.
Proof. intros its its' Hp w _ <-. split; apply items_ok_perm; [done|by symmetry]. Qed.

Lemma contents_keys (its : list (loc * A)) :
  ((fun a => (key a, a)) <$> its.*2).*1 = key <$> its.*2.
Proof. by rewrite <-list_fmap_compose. Qed.

Lemma contents_perm its its' :
  NoDup (key <$> its.*2) -> its ≡ₚ its' -> contents its = contents its'.
Proof.
  intros Hnd Hp. apply list_to_map_proper; [by rewrite contents_keys|]. by rewrite Hp.
Qed.

Lemma contents_cons x its : contents (x :: its) = <[key x.2 := x.2]> (contents its).
Proof. done. Qed.

Lemma contents_lookup its a :
  NoDup (key <$> its.*2) -> a ∈ its.*2 -> contents its !! key a = Some a.
Proof.
  intros Hnd Ha. apply elem_of_list_to_map_1; [by rewrite contents_keys|].
  by apply (list_elem_of_fmap_2 (fun a => (key a, a))).
Qed.

Lemma contents_lookup_None its k : k ∉ key <$> its.*2 -> contents its !! k = None.
Proof. intros Hk. apply not_elem_of_list_to_map_1. by rewrite contents_keys. Qed.

Lemma contents_delete x its :
  NoDup (key <$> (x :: its).*2) -> contents its = delete (key x.2) (contents (x :: its)).
Proof.
  intros [Hk _]%NoDup_cons. rewrite contents_cons, delete_insert_id; [done|].
  by apply contents_lookup_None.
Qed.

(** The number of items is bounded by the number of allocated ones. *)
Lemma items_size its w : items_ok its w -> size (w_items w) = length its.
Proof.
  intros [H1 H2 _ _]. rewrite <-size_dom, <-(length_fmap fst its).
  rewrite <-(size_list_to_set (C:=gset loc) its.*1) by done.
  f_equal. apply leibniz_equiv. intros l. rewrite elem_of_dom, elem_of_list_to_set. auto.
Qed.

Lemma chain_length cs lh w i c :
  lh_inv cs lh w -> cs !! i = Some c -> (length c <= size (w_items w))%nat.
Proof.
  intros I Hi. rewrite (items_size (concat cs)) by apply I.
  destruct (concat_insert cs i c Hi) as (r & -> & _). rewrite length_app. lia.
Qed.

Lemma bucket_exists cs lh w d :
  lh_inv cs lh w -> exists i c p, hsh d mod num_buckets lh = Z.of_nat i /\
    cs !! i = Some c /\ buckets lh !! i = Some p /\ seg (w_items w) p c None.
Proof.
  intros I. pose proof (inv_min _ _ _ I) as Hm. unfold kMinNumBuckets in Hm.
  destruct (Z.mod_pos_bound (hsh d) (blen cs)) as [H1 H2]; [lia|].
  rewrite (inv_nb _ _ _ I).
  destruct (lookup_lt_is_Some_2 cs (Z.to_nat (hsh d mod blen cs))) as [c Hc]; [unfold blen in *; lia|].
  destruct (Forall2_lookup_r _ _ _ _ _ (inv_chains _ _ _ I) Hc) as (p & Hp & Hs).
  exists (Z.to_nat (hsh d mod blen cs)), c, p. split; [lia|done].
Qed.

(** ** Searching

    Where the search for [d] ends: behind [c1] in the chain of its bucket, at
    the item with the key of [d] if the table has one. *)
Record search (cs : list (list (loc * A))) (lh : lhash_st lhash_cmp_func lhash_hash_func)
    (w : world) (d : A) (i : nat) (c1 c2 : list (loc * A)) (q : option loc) : Prop := {
  search_bucket : hsh d mod num_buckets lh = Z.of_nat i;
  search_chain : cs !! i = Some (c1 ++ c2);
  search_seg1 : exists p, buckets lh !! i = Some p /\ seg (w_items w) p c1 q;
  search_seg2 : seg (w_items w) q c2 None;
  search_found : match c2 with
                 | [] => key d ∉ key <$> (concat cs).*2
                 | x :: _ => key x.2 = key d
                 end
}.

(** An item with the key of [d] is in the bucket of [d]. *)
Lemma same_bucket `{!LhashKeys} cs lh w d i x :
  lh_inv cs lh w -> hsh d mod num_buckets lh = Z.of_nat i -> x ∈ concat cs -> key x.2 = key d ->
  exists c, cs !! i = Some c /\ x ∈ c.
Proof.
  intros I Hi Hx Hk. apply list_elem_of_In, in_concat in Hx as (c & Hc & Hx).
  rewrite <-list_elem_of_In in Hc. rewrite <-list_elem_of_In in Hx. apply list_elem_of_lookup in Hc as (j & Hj).
  exists c. split; [|done]. rewrite (inv_nb _ _ _ I), <-(hash_key _ _ Hk) in Hi.
  pose proof (inv_placed _ _ _ I j c x Hj Hx). replace i with j by lia. done.
Qed.

Lemma find_ok `{!LhashKeys} cs lh w d h equal :
  lh_inv cs lh w -> h mod num_buckets lh = hsh d mod num_buckets lh ->
  (forall a, equal a = true <-> key a = key d) ->
  exists i c1 c2 q, search cs lh w d i c1 c2 q /\
    find_slot (S (size (w_items w))) equal (SBucket (h mod num_buckets lh)) w =
      (Some (slot_of i c1), w).
Proof.
  intros I Hh Heq. destruct (bucket_exists cs lh w d I) as (i & c & p & Hi & Hc & Hp & Hs).
  destruct (find_slot_ok w lh i p equal c [] p (S (size (w_items w)))) as (c1 & c2 & -> & Hf & H1 & H2);
    [apply I|done|done|done|pose proof (chain_length _ _ _ _ _ I Hc); lia|].
  pose proof Hs as (q & Hs1 & Hs2)%seg_app.
  exists i, c1, c2, q. split; [|by rewrite Hh, Hi].
  split; [done|done|by exists p|done|]. destruct c2 as [|x c2]; [|by apply Heq].
  intros (a & Ha & Hin)%list_elem_of_fmap. apply list_elem_of_fmap in Hin as (x & -> & Hx).
  destruct (same_bucket cs lh w d i x I Hi Hx) as (c & Hc' & Hxc); [done|].
  rewrite Hc in Hc'. injection Hc' as <-. rewrite app_nil_r in Hxc.
  rewrite Forall_forall in H1. specialize (H1 x Hxc). simpl in H1.
  rewrite (proj2 (Heq x.2)) in H1; done.
Qed.

(** ** Rebucketing *)

Lemma placed_update cs i c c' :
  placed cs -> cs !! i = Some c -> (forall x, x ∈ c' -> hsh x.2 mod blen cs = Z.of_nat i) ->
  placed (<[i := c']> cs).
Proof.
  intros Hp Hc Hx j c'' y Hj Hy. unfold blen. rewrite length_insert. fold (blen cs).
  destruct (decide (j = i)) as [->|Hne].
  - rewrite list_lookup_insert_eq in Hj by (by eapply lookup_lt_Some). injection Hj as <-. auto.
  - rewrite list_lookup_insert_ne in Hj by done. by eapply Hp.
Qed.

(** Only the items of the moved chain are written. *)
Definition frame (c : list (loc * A)) (m m' : items) : Prop :=
  (forall l, l ∉ c.*1 -> m' !! l = m !! l) /\
  (forall l, is_Some (m' !! l) <-> is_Some (m !! l)).

Lemma frame_refl c m : frame c m m.
Proof. done. Qed.

Lemma frame_trans c1 c2 m1 m2 m3 :
  frame c1 m1 m2 -> frame c2 m2 m3 -> frame (c1 ++ c2) m1 m3.
Proof.
  intros [H1 H1'] [H2 H2']. split; [|naive_solver].
  intros l. rewrite fmap_app, not_elem_of_app. intros [??]. rewrite H2 by done. auto.
Qed.

Lemma set_items_id (w : world) : set_items (w_items w) w = w.
Proof. by destruct w. Qed.

(** One item moves to the front of a new chain. *)
Lemma push_item m nb ncs l a n head b c :
  chains m nb ncs -> placed ncs -> m !! l = Some (LhashItem a n (hsh a)) ->
  l ∉ (concat ncs).*1 -> nb !! b = Some head -> ncs !! b = Some c ->
  hsh a mod blen ncs = Z.of_nat b -> NoDup (concat ncs).*1 ->
  let m' := <[l := LhashItem a head (hsh a)]> m in
  chains m' (<[b := Some l]> nb) (<[b := (l, a) :: c]> ncs) /\
  placed (<[b := (l, a) :: c]> ncs) /\
  concat (<[b := (l, a) :: c]> ncs) ≡ₚ (l, a) :: concat ncs /\
  frame [(l, a)] m m'.
Proof.
  intros Hch Hp Hl Hnot Hb Hc Hh Hnd m'.
  assert (frame [(l, a)] m m') as Hf.
  { split; intros l'; unfold m'.
    - intros Hl'. apply lookup_insert_ne. intros ->. apply Hl'. simpl. by apply list_elem_of_singleton.
    - destruct (decide (l' = l)) as [->|].
      + rewrite lookup_insert_eq, Hl. naive_solver.
      + by rewrite lookup_insert_ne. }
  assert (forall l', l' ∈ (concat ncs).*1 -> m' !! l' = m !! l') as Hm.
  { intros l' Hl'. apply Hf. simpl. intros ->%list_elem_of_singleton. done. }
  split; [|split; [|split; [|done]]].
  - eapply chains_update; [done|done|done|auto|].
    simpl. split; [done|]. exists head. unfold m' at 1. rewrite lookup_insert_eq. split; [done|].
    eapply seg_frame; [|by eapply (Forall2_lookup_lr _ _ _ _ _ _ Hch)].
    intros l' (x & -> & Hx)%list_elem_of_fmap. apply Hm, list_elem_of_fmap_2.
    by eapply elem_of_concat.
  - eapply placed_update; [done|done|]. intros x [->|Hx]%elem_of_cons; [done|by eapply Hp].
  - destruct (concat_insert ncs b c Hc) as (r & Hr & Hr' & _). by rewrite Hr', Hr.
Qed.

Lemma rebucket_chain_ok (w : world) n c : forall p m nb ncs fuel,
  1 <= n -> blen ncs = n -> (length c < fuel)%nat ->
  seg m p c None -> chains m nb ncs -> placed ncs -> NoDup (c ++ concat ncs).*1 ->
  exists m' nb' ncs',
    rebucket_chain fuel n p nb (set_items m w) = (Some nb', set_items m' w) /\
    chains m' nb' ncs' /\ placed ncs' /\ blen ncs' = n /\
    concat ncs' ≡ₚ c ++ concat ncs /\ frame c m m'.
Proof.
  induction c as [|[l a] c IH]; intros p m nb ncs fuel Hn Hlen Hfuel Hs Hch Hp Hnd;
    (destruct fuel as [|fuel]; [simpl in Hfuel; lia|]).
  - simpl in Hs. subst p. exists m, nb, ncs. repeat split; auto.
  - destruct Hs as (-> & q & Hl & Hs). cbn [rebucket_chain].
    rewrite (bind_ok (get_item l) _ _ (LhashItem a q (hsh a)) (set_items m w))
      by (unfold get_item; cbn; by rewrite Hl). cbn [hash next data].
    destruct (Z.mod_pos_bound (hsh a) n) as [Hm1 Hm2]; [lia|].
    set (b := Z.to_nat (hsh a mod n)).
    destruct (lookup_lt_is_Some_2 ncs b) as [cb Hcb]; [unfold blen in Hlen; lia|].
    destruct (Forall2_lookup_r _ _ _ _ _ Hch Hcb) as (head & Hhead & _).
    rewrite Hhead. simpl in Hnd. apply NoDup_cons in Hnd as [Hnot Hnd].
    rewrite fmap_app, elem_of_app in Hnot.
    assert (NoDup (concat ncs).*1) as Hnd2.
    { rewrite fmap_app in Hnd. by apply NoDup_app in Hnd as (_ & _ & ?). }
    destruct (push_item m nb ncs l a q head b cb) as (Hch' & Hp' & Hperm & Hf); try done.
    { naive_solver. } { rewrite Hlen. lia. }
    set (m1 := <[l := LhashItem a head (hsh a)]> m) in *.
    rewrite (bind_ok (put_item l _) _ _ tt (set_items m1 w));
      [|unfold put_item, mbind, M_bind, get_item; cbn; by rewrite Hl].
    destruct (IH q m1 (<[b := Some l]> nb) (<[b := (l, a) :: cb]> ncs) fuel)
      as (m' & nb' & ncs' & He & Hch'' & Hp'' & Hlen'' & Hperm' & Hf'); try done.
    + unfold blen in *. by rewrite length_insert.
    + simpl in Hfuel. lia.
    + eapply seg_frame; [|done]. intros l' Hl'. apply Hf. simpl.
      intros ->%list_elem_of_singleton. naive_solver.
    + rewrite Hperm, fmap_app. simpl. rewrite <-Permutation_middle. apply NoDup_cons.
      by rewrite elem_of_app, <-fmap_app.
    + exists m', nb', ncs'. split; [done|]. repeat (split; [done|]). split.
      * rewrite Hperm', Hperm. simpl. by rewrite Permutation_middle.
      * by apply (frame_trans [(l, a)] c m m1 m').
Qed.

(** The chain of bucket [i], and those of the buckets behind. *)
Lemma chains_drop m bs i c cs :
  chains m (drop i bs) (c :: cs) ->
  exists p, bs !! i = Some p /\ seg m p c None /\ chains m (drop (S i) bs) cs.
Proof.
  intros Hold. inversion Hold as [|p ? bs' ? Hs Hold' Hd]; subst. exists p.
  split; [|split; [done|]].
  - by rewrite <-(Nat.add_0_r i), <-lookup_drop, <-Hd.
  - replace (drop (S i) bs) with bs'; [done|]. apply (f_equal (drop 1)) in Hd.
    rewrite drop_drop in Hd. simpl in Hd. rewrite ?drop_0 in Hd. rewrite Hd. f_equal. lia.
Qed.

(** The outer loop, over the buckets from [i] on. *)
Lemma rebucket_loop_ok (w : world) lh n cs : forall i m nb ncs,
  w_lh w = Some lh -> 1 <= n -> blen ncs = n ->
  (forall j c, cs !! j = Some c -> (length c <= size m)%nat) ->
  chains m (drop i (buckets lh)) cs -> chains m nb ncs -> placed ncs ->
  NoDup (concat cs ++ concat ncs).*1 -> (forall l, is_Some (m !! l) <-> is_Some (w_items w !! l)) ->
  exists m' nb' ncs',
    for_loop (fun i nb => cur ← get_bucket i; fuel ← chain_fuel; rebucket_chain fuel n cur nb)
      (seqZ (Z.of_nat i) (blen cs)) nb (set_items m w) = (Some nb', set_items m' w) /\
    chains m' nb' ncs' /\ placed ncs' /\ blen ncs' = n /\
    concat ncs' ≡ₚ concat cs ++ concat ncs /\
    (forall l, is_Some (m' !! l) <-> is_Some (w_items w !! l)).
Proof.
  induction cs as [|c cs IH]; intros i m nb ncs Hw Hn Hlen Hsz Hold Hch Hp Hnd Hdom.
  - exists m, nb, ncs. done.
  - rewrite blen_cons, seqZ_cons by blia. replace (Z.pred (1 + blen cs)) with (blen cs) by lia.
    replace (Z.succ (Z.of_nat i)) with (Z.of_nat (S i)) by lia. cbn [for_loop].
    destruct (chains_drop _ _ _ _ _ Hold) as (p & Hi & Hs & Hold'). subst n.
    cbn [concat] in Hnd. rewrite <-app_assoc, fmap_app in Hnd.
    pose proof Hnd as (Hnd1 & Hnd2 & Hnd3)%NoDup_app.
    assert (size (w_items (set_items m w)) = size m) as Hsm by done.
    destruct (rebucket_chain_ok w (blen ncs) c p m nb ncs (S (size m)))
      as (m1 & nb1 & ncs1 & He & Hch1 & Hp1 & Hlen1 & Hperm1 & Hf1 & Hf1'); try done.
    { specialize (Hsz 0%nat c eq_refl). lia. }
    { rewrite fmap_app. apply NoDup_app. split; [done|]. split.
      - intros l Hl Hl'. apply (Hnd2 l Hl). rewrite fmap_app. apply elem_of_app. auto.
      - rewrite fmap_app in Hnd3. by apply NoDup_app in Hnd3 as (_ & _ & ?). }
    assert ((cur ← get_bucket (Z.of_nat i); fuel ← chain_fuel; rebucket_chain fuel (blen ncs) cur nb)
      (set_items m w) = (Some nb1, set_items m1 w)) as Hbody.
    { erewrite bind_ok by (by eapply get_bucket_ok). exact He. }
    rewrite (bind_ok _ _ _ _ _ Hbody).
    destruct (IH (S i) m1 nb1 ncs1) as (m2 & nb2 & ncs2 & He2 & Hr); try done.
    + intros j c' Hj. rewrite <-!size_dom. replace (dom m1) with (dom m); [rewrite size_dom; by apply (Hsz (S j))|].
      apply leibniz_equiv. intros l. by rewrite !elem_of_dom, Hf1'.
    + eapply chains_frame; [|done]. intros l Hl. apply Hf1. intros Hl'.
      apply (Hnd2 l Hl'). rewrite fmap_app. apply elem_of_app. auto.
    + rewrite Hperm1, Permutation_app_swap_app, !fmap_app. rewrite fmap_app in Hnd. exact Hnd.
    + intros l. by rewrite Hf1', Hdom.
    + exists m2, nb2, ncs2. split; [done|]. destruct Hr as (?&?&Hl2&Hp2&?). repeat (split; [done|]).
      split; [|done]. rewrite Hp2, Hperm1. cbn [concat]. rewrite <-app_assoc.
      apply Permutation_app_swap_app.
Qed.

(** ** Allocation *)

Definition tick (k : nat) (w : world) : world :=
  World (w_lh w) (w_items w) (w_blocks w) (k + w_allocs w) (w_arg w).

(** The request of [size] bytes (and the allocator's prefix) in state [w]. *)
Definition granted (w : world) (size : Z) : bool :=
  negb (u64 (size + 8) <? size) && alloc_ok (w_allocs w) (live_bytes w) (u64 (size + 8)).

Lemma lh_malloc_eq size (w : world) :
  exists k, lh_malloc size w = (Some (granted w size), tick k w) /\ (granted w size = true -> k = 1%nat).
Proof.
  unfold lh_malloc, granted. destruct (u64 (size + 8) <? size); [exists 0%nat|exists 1%nat]; by destruct w.
Qed.

Lemma items_ok_tick its w k : items_ok its w -> items_ok its (tick k w).
Proof. intros [H1 H2 H3 H4]. split; simpl; auto. intros l ?%H3. lia. Qed.

Lemma lh_inv_tick cs lh w k : lh_inv cs lh w -> lh_inv cs lh (tick k w).
Proof. intros []. split; try done; try (by apply items_ok_tick); cbn; lia. Qed.

Lemma block_bytes_two a b x y : a <> b -> block_bytes {[a := x; b := y]} = x + y.
Proof.
  intros Hab. unfold block_bytes. rewrite map_fold_insert_L; [|intros; lia|by rewrite lookup_singleton_ne].
  rewrite map_fold_singleton. lia.
Qed.

(** The block is granted or not; what else a request does is to take the next
    address. *)
Lemma malloc_block_eq size (w : world) :
  exists k, (granted w size = true -> k = 1%nat) /\ malloc_block size w =
    if granted w size then (Some (Some (w_allocs w)), set_blocks (<[w_allocs w := size]> (w_blocks w)) (tick k w))
    else (Some None, tick k w).
Proof.
  unfold malloc_block. rewrite (bind_ok mget _ w w w) by done. cbv zeta.
  destruct (lh_malloc_eq size w) as (k & Hm & Hk). rewrite (bind_ok _ _ _ _ _ Hm).
  exists k. split; [done|]. by destruct (granted w size).
Qed.

Lemma free_block_ok l n (w : world) :
  w_blocks w !! l = Some n -> free_block l w = (Some tt, set_blocks (delete l (w_blocks w)) w).
Proof. intros Hl. unfold free_block. rewrite (bind_ok mget _ w w w) by done. by rewrite Hl. Qed.

(** What every operation keeps: how deep the table is in callbacks and the
    state of the callbacks. *)
Record kept (lh lh' : lhash_st lhash_cmp_func lhash_hash_func) (w w' : world) : Prop := {
  kept_depth : callback_depth lh' = callback_depth lh;
  kept_arg : w_arg w' = w_arg w
}.

Lemma chains_replicate m n : chains m (replicate n None) (replicate n []).
Proof. apply Forall2_same_length_lookup. split; [by rewrite !length_replicate|].
  intros i p c [-> _]%lookup_replicate [-> _]%lookup_replicate. done. Qed.

Lemma concat_replicate_nil n : concat (replicate n (@nil (loc * A))) = [].
Proof. by induction n. Qed.

Lemma placed_replicate n : placed (replicate n []).
Proof. intros i c x [-> _]%lookup_replicate ?%elem_of_nil. done. Qed.

Lemma lh_rebucket_ok cs lh w n :
  lh_inv cs lh w -> kMinNumBuckets <= n ->
  exists cs' lh' w', lh_rebucket n w = (Some tt, w') /\
    lh_inv cs' lh' w' /\ concat cs' ≡ₚ concat cs /\ kept lh lh' w w' /\
    (blen cs' = n \/
     blen cs' = blen cs /\ (2 ^ 61 <= n \/ granted w (sizeof_ptr * n) = false)).
Proof.
  intros I Hn. unfold lh_rebucket. unfold kMinNumBuckets, sizeof_ptr in *.
  rewrite (bind_ok get_lh _ w lh w) by (unfold get_lh; by rewrite (inv_lh _ _ _ I)).
  cbv zeta. destruct (Z.eqb_spec (u64 (8 * n) / 8) n) as [He|He]; cbn [negb]; cbv iota.
  2: { exists cs, lh, w. split; [done|]. split; [done|]. split; [done|]. split; [done|].
    right. split; [done|]. left. destruct (Z.le_gt_cases (2 ^ 61) n) as [|Hlt]; [done|]. exfalso. apply He.
    unfold wrap. change (2 ^ 61) with 2305843009213693952 in Hlt. pow2. zdiv. }
  assert (u64 (8 * n) = 8 * n) as Hu by (unfold wrap in *; pow2; zdiv).
  rewrite Hu in *. destruct (malloc_block_eq (8 * n) w) as (k & Hk & Hmal).
  destruct (granted w (8 * n)) eqn:Hg; rewrite (bind_ok _ _ _ _ _ Hmal); cbv iota.
  2: { exists cs, lh, (tick k w). split; [done|]. split; [by apply lh_inv_tick|]. repeat (split; [done|]). right. auto. }
  rewrite (Hk eq_refl). set (wb := set_blocks (<[w_allocs w := 8 * n]> (w_blocks w)) (tick 1 w)).
  assert (blen (replicate (Z.to_nat n) (@nil (loc * A))) = n) as Hblen by (apply blen_replicate; lia).
  pose proof (inv_items _ _ _ I) as Hit.
  destruct (rebucket_loop_ok wb lh n cs 0 (w_items w) (replicate (Z.to_nat n) None)
    (replicate (Z.to_nat n) [])) as (m' & nb' & ncs' & Hloop & Hch & Hp & Hl & Hperm & Hdom);
    [apply I|lia|done|intros j c Hj; by eapply chain_length
    |rewrite drop_0; apply I|apply chains_replicate|apply placed_replicate
    |rewrite concat_replicate_nil, app_nil_r; apply Hit|done|].
  rewrite concat_replicate_nil, app_nil_r in Hperm.
  rewrite (inv_nb _ _ _ I). change (set_items (w_items w) wb) with wb in Hloop.
  change (Z.of_nat 0) with 0 in Hloop. rewrite (bind_ok _ _ _ _ _ Hloop).
  erewrite bind_ok by (unfold get_lh; cbn; by rewrite (inv_lh _ _ _ I)).
  pose proof (inv_at _ _ _ I). pose proof (inv_self _ _ _ I). pose proof (inv_buckets _ _ _ I).
  assert (w_blocks wb = <[w_allocs w := 8 * n]> {[self lh := sizeof_LHASH; buckets_at lh := 8 * num_buckets lh]}) as Hbl
    by (cbn; by rewrite (inv_blocks _ _ _ I)).
  assert (delete (buckets_at lh) (w_blocks wb) = {[self lh := sizeof_LHASH; w_allocs w := 8 * n]}) as Hdel.
  { rewrite Hbl. apply map_eq. intros l. rewrite lookup_delete.
    destruct (decide (buckets_at lh = l)) as [<-|]; [by rewrite lookup_insert_ne, lookup_singleton_ne by lia|].
    destruct (decide (l = w_allocs w)) as [->|]; [by rewrite lookup_insert_eq, lookup_insert_ne, lookup_singleton_eq by lia|].
    rewrite lookup_insert_ne by done. destruct (decide (l = self lh)) as [->|]; [by rewrite !lookup_insert_eq|].
    by rewrite !lookup_insert_ne, !lookup_singleton_ne by done. }
  rewrite (bind_ok (free_block _) _ (set_items m' wb) tt (set_blocks (delete (buckets_at lh) (w_blocks wb)) (set_items m' wb))).
  2:{ refine (free_block_ok _ (8 * num_buckets lh) (set_items m' wb) _). change (w_blocks (set_items m' wb)) with (w_blocks wb). rewrite Hbl.
    by rewrite !lookup_insert_ne, lookup_singleton_eq by lia. }
  rewrite Hdel.
  eexists ncs', (set_buckets_at (w_allocs w) (set_buckets nb' n lh)), _. split; [reflexivity|].
  split; [|repeat (split; [done|]); by left].
  split; cbn; try done; try apply I; [|apply (items_ok_perm (concat cs)); [done|]| |lia..].
  - rewrite Hl. split; [done|]. change (2 ^ 61) with 2305843009213693952. unfold wrap in Hu. pow2. zdiv.
  - apply (items_ok_tick _ _ 1) in Hit as [H1' H2' H3' H4'].
    split; simpl in *; auto. intros l. by rewrite Hdom.
  - rewrite (inv_num _ _ _ I). unfold blen. by rewrite Hperm.
Qed.

(** No memory for a bucket array of twice the size. *)
Definition grow_refused (lh : lhash_st lhash_cmp_func lhash_hash_func) (w : world) : Prop :=
  2 ^ 61 <= 2 * num_buckets lh \/ granted w (sizeof_ptr * (2 * num_buckets lh)) = false.

(** Resizing keeps the items. It does nothing inside a callback; outside, a
    table with at most three items per bucket on average ends up with fewer,
    unless it had to grow and could not. *)
Definition resize_post cs (lh : lhash_st lhash_cmp_func lhash_hash_func) (w : world)
    (res : option unit * world) : Prop :=
  exists cs' lh' w', res = (Some tt, w') /\
    lh_inv cs' lh' w' /\ concat cs' ≡ₚ concat cs /\ kept lh lh' w w' /\
    (0 < callback_depth lh -> cs' = cs /\ lh' = lh /\ w' = w) /\
    num_buckets lh' <= Z.max (num_buckets lh) (num_items lh) /\
    (callback_depth lh <= 0 -> num_items lh <= 3 * num_buckets lh ->
     num_items lh' < 3 * num_buckets lh' \/
     (num_items lh = 3 * num_buckets lh /\ grow_refused lh w)).

Lemma lh_rebucket_post cs lh w n :
  lh_inv cs lh w -> kMinNumBuckets <= n <= Z.max (num_buckets lh) (num_items lh) ->
  callback_depth lh <= 0 ->
  (num_items lh <= 3 * num_buckets lh -> num_items lh < 3 * n) ->
  (num_items lh < 3 * num_buckets lh \/ n = 2 * num_buckets lh) ->
  resize_post cs lh w (lh_rebucket n w).
Proof.
  intros I Hn Hd Hn2 Hn3.
  destruct (lh_rebucket_ok cs lh w n I) as (cs' & lh' & w' & He & I' & Hp & Hk & Hres); [lia|].
  exists cs', lh', w'. repeat (split; [done|]). split; [lia|].
  assert (num_items lh' = num_items lh) as ->.
  { rewrite (inv_num _ _ _ I'), (inv_num _ _ _ I). unfold blen. by rewrite Hp. }
  rewrite (inv_nb _ _ _ I'). unfold grow_refused.
  destruct Hres as [->|[-> Hres]]; [split; [lia|]; intros; left; auto|].
  rewrite <-(inv_nb _ _ _ I). split; [lia|]. intros _ Hle.
  destruct Hn3 as [| ->]; [by left|].
  destruct (Z.lt_ge_cases (num_items lh) (3 * num_buckets lh)); [by left|right]. split; [lia|done].
Qed.

Lemma lh_maybe_resize_ok cs lh w :
  lh_inv cs lh w -> resize_post cs lh w (lh_maybe_resize w).
Proof.
  intros I. unfold lh_maybe_resize.
  rewrite (bind_ok get_lh _ w lh w) by (unfold get_lh; by rewrite (inv_lh _ _ _ I)).
  pose proof (inv_min _ _ _ I) as Hmin. pose proof (inv_nb _ _ _ I) as Hnb.
  pose proof (inv_num _ _ _ I) as Hnum. unfold kMinNumBuckets in Hmin. rewrite <-Hnb in Hmin.
  pose proof (blen_nonneg (concat cs)) as Hpos. rewrite <-Hnum in Hpos.
  unfold kMaxAverageChainLength, kMinAverageChainLength. cbv zeta.
  assert (num_items lh = num_buckets lh * (num_items lh / num_buckets lh) + num_items lh mod num_buckets lh /\
    0 <= num_items lh mod num_buckets lh < num_buckets lh) as [Hdiv Hmod]
    by (split; [apply Z.div_mod|apply Z.mod_pos_bound]; lia).
  assert (callback_depth lh <= 0 -> num_items lh < 3 * num_buckets lh ->
    resize_post cs lh w (Some tt, w)) as Hstay.
  { intros. exists cs, lh, w. repeat (split; [done || lia|]). by left. }
  destruct (Z.ltb_spec 0 (callback_depth lh)) as [Hd|Hd].
  { exists cs, lh, w. repeat (split; [done|]). lia. }
  unfold kMinNumBuckets. destruct (Z.ltb_spec 2 (num_items lh / num_buckets lh)).
  - assert (u64 (num_buckets lh * 2) = 2 * num_buckets lh) as ->.
    { change (2 ^ 61) with 2305843009213693952 in Hmin. unfold wrap. pow2. zdiv. }
    rewrite (proj2 (Z.ltb_lt _ _)) by lia.
    apply lh_rebucket_post; unfold kMinNumBuckets; [done|nia|lia|lia|lia].
  - destruct (Z.ltb_spec (num_items lh / num_buckets lh) 1); cbn [andb];
      [destruct (Z.ltb_spec 16 (num_buckets lh))|].
    + apply lh_rebucket_post; unfold kMinNumBuckets; try done; zcases; zdiv.
    + apply Hstay; nia.
    + apply Hstay; nia.
Qed.

(** ** Insertion, removal and lookup *)

Lemma get_next_ptr_ok `{!LhashKeys} cs lh w d :
  lh_inv cs lh w -> exists i c1 c2 q, search cs lh w d i c1 c2 q /\
    get_next_ptr_and_hash call_hash_func call_cmp_func d w = (Some (slot_of i c1, hsh d), w).
Proof.
  intros I. destruct (find_ok cs lh w d (hsh d)
    (fun cur => call_cmp_func (comp lh) cur d =? 0)) as (i & c1 & c2 & q & Hs & Hf); [done|done| |].
  { intros a. rewrite (inv_comp _ _ _ I), Z.eqb_eq. apply cmp_key. }
  exists i, c1, c2, q. split; [done|]. unfold get_next_ptr_and_hash.
  rewrite (bind_ok get_lh _ w lh w) by (unfold get_lh; by rewrite (inv_lh _ _ _ I)).
  cbv zeta. rewrite (inv_hash _ _ _ I).
  rewrite (bind_ok chain_fuel _ w (S (size (w_items w))) w) by done.
  by rewrite (bind_ok _ _ _ _ _ Hf).
Qed.

Lemma search_load cs lh w d i c1 c2 q :
  lh_inv cs lh w -> search cs lh w d i c1 c2 q -> load_slot (slot_of i c1) w = (Some q, w).
Proof.
  intros I [_ _ (p & Hp & Hs) _ _]. eapply load_slot_ok; [apply I|done|done].
Qed.

Lemma search_lookup cs lh w d i c1 c2 q :
  lh_inv cs lh w -> search cs lh w d i c1 c2 q ->
  contents (concat cs) !! key d = match c2 with [] => None | x :: _ => Some x.2 end.
Proof.
  intros I [_ Hc _ _ Hf]. destruct c2 as [|x c2].
  - by apply contents_lookup_None.
  - rewrite <-Hf. apply contents_lookup; [apply I|].
    apply list_elem_of_fmap_2. eapply elem_of_concat; [done|]. apply elem_of_app. right. by left.
Qed.

Lemma slot_data_ok cs lh w d i c1 c2 q :
  lh_inv cs lh w -> search cs lh w d i c1 c2 q ->
  slot_data (slot_of i c1) w = (Some (contents (concat cs) !! key d), w).
Proof.
  intros I Hs. rewrite (search_lookup _ _ _ _ _ _ _ _ I Hs). unfold slot_data.
  rewrite (bind_ok _ _ _ _ _ (search_load _ _ _ _ _ _ _ _ I Hs)).
  pose proof (search_seg2 _ _ _ _ _ _ _ _ Hs) as H2. destruct c2 as [|[l a] c2].
  - simpl in H2. by subst q.
  - destruct H2 as (-> & n & Hl & _).
    by rewrite (bind_ok (get_item l) _ w (LhashItem a n (hsh a)) w) by (unfold get_item; by rewrite Hl).
Qed.

Lemma lh_retrieve_ok `{!LhashKeys} cs lh w d :
  lh_inv cs lh w ->
  OPENSSL_lh_retrieve call_hash_func call_cmp_func d w = (Some (contents (concat cs) !! key d), w).
Proof.
  intros I. destruct (get_next_ptr_ok cs lh w d I) as (i & c1 & c2 & q & Hs & He).
  unfold OPENSSL_lh_retrieve. rewrite (bind_ok _ _ _ _ _ He). by eapply slot_data_ok.
Qed.

(** Lookup with a foreign key that compares like the key of [d] and has its
    hash. *)
Lemma lh_retrieve_key_ok `{!LhashKeys} cs lh w d cmp_key :
  lh_inv cs lh w -> (forall a, cmp_key a = 0 <-> key a = key d) ->
  OPENSSL_lh_retrieve_key (hsh d) cmp_key w = (Some (contents (concat cs) !! key d), w).
Proof.
  intros I Hk. destruct (find_ok cs lh w d (hsh d) (fun cur => cmp_key cur =? 0))
    as (i & c1 & c2 & q & Hs & He); [done|done|intros a; by rewrite Z.eqb_eq|].
  unfold OPENSSL_lh_retrieve_key, get_next_ptr_by_key.
  erewrite bind_ok; [by eapply slot_data_ok|].
  rewrite (bind_ok get_lh _ w lh w) by (unfold get_lh; by rewrite (inv_lh _ _ _ I)).
  rewrite (bind_ok chain_fuel _ w (S (size (w_items w))) w) by done. done.
Qed.

(** An allocator with memory to spare refuses no resize. *)
Lemma grow_not_refused `{!AllocatorGrants al} cs lh w :
  lh_inv cs lh w -> num_items lh = 3 * num_buckets lh -> num_buckets lh < 2 ^ 56 ->
  ~ grow_refused lh w.
Proof.
  intros I Hn Hb. pose proof (inv_min _ _ _ I) as Hm. rewrite <-(inv_nb _ _ _ I) in Hm.
  unfold grow_refused, granted, sizeof_ptr, kMinNumBuckets in *.
  change (2 ^ 56) with 72057594037927936 in Hb. change (2 ^ 61) with 2305843009213693952.
  rewrite !wrap_small by (unfold in_word; pow2; lia).
  rewrite (proj2 (Z.ltb_ge (_ + 8) _)) by lia. cbn [negb andb].
  rewrite alloc_grants; [intros [?|?]; [lia|done]|].
  unfold live_bytes. rewrite (inv_blocks _ _ _ I), block_bytes_two, (items_size (concat cs)) by apply I.
  pose proof (inv_num _ _ _ I) as Hi. unfold blen in Hi. rewrite <-Hi, Hn.
  unfold sizeof_LHASH_ITEM, sizeof_LHASH, sizeof_ptr. pow2. lia.
Qed.

(** Outside of callbacks, fewer than three items per bucket, and no more
    buckets than the [n] insertions so far account for. *)
Record bounded (n : Z) (lh : lhash_st lhash_cmp_func lhash_hash_func) : Prop := {
  bounded_depth : callback_depth lh <= 0;
  bounded_load : num_items lh < 3 * num_buckets lh;
  bounded_items : num_items lh <= n;
  bounded_buckets : num_buckets lh <= kMinNumBuckets + n
}.

(** After one item more or fewer, the load is restored. *)
Lemma lh_adjust_ok cs lh w :
  lh_inv cs lh w ->
  exists cs' lh' w', lh_maybe_resize w = (Some tt, w') /\
    lh_inv cs' lh' w' /\ concat cs' ≡ₚ concat cs /\ kept lh lh' w w' /\
    (0 < callback_depth lh -> cs' = cs) /\
    (forall n, AllocatorGrants al -> callback_depth lh <= 0 -> num_items lh <= 3 * num_buckets lh ->
     num_items lh <= n -> num_buckets lh <= kMinNumBuckets + n -> n < 2 ^ 55 -> bounded n lh').
Proof.
  intros I. destruct (lh_maybe_resize_ok cs lh w I)
    as (cs' & lh' & w' & He & I' & Hp & Hk & Hcb & Hmax & Hload).
  exists cs', lh', w'. repeat (split; [done|]). split; [intros; by apply Hcb|].
  intros n Hg Hd Hn Hi Hb Hn55. unfold kMinNumBuckets in *.
  change (2 ^ 55) with 36028797018963968 in Hn55.
  assert (num_items lh' = num_items lh) as Hni.
  { rewrite (inv_num _ _ _ I'), (inv_num _ _ _ I). unfold blen. by rewrite Hp. }
  split; [by rewrite (kept_depth _ _ _ _ Hk)| |lia|unfold kMinNumBuckets; lia].
  destruct (Hload Hd Hn) as [|[Heq Hr]]; [done|].
  destruct (grow_not_refused cs lh w I Heq); [|done].
  change (2 ^ 56) with 72057594037927936. lia.
Qed.

(** Replacing the end of the chain of one bucket. *)
Lemma relink cs lh w i c c' m' p' :
  lh_inv cs lh w -> cs !! i = Some c ->
  (forall l, l ∉ c.*1 -> l ∈ (concat cs).*1 -> m' !! l = w_items w !! l) ->
  seg m' p' c' None -> (forall x, x ∈ c' -> hsh x.2 mod num_buckets lh = Z.of_nat i) ->
  chains m' (<[i := p']> (buckets lh)) (<[i := c']> cs) /\ placed (<[i := c']> cs) /\
  blen (<[i := c']> cs) = blen cs.
Proof.
  intros I Hc Hm Hs Hx. rewrite (inv_nb _ _ _ I) in Hx. split; [|split].
  - eapply chains_update; try done; apply I.
  - eapply placed_update; [apply I|done|done].
  - unfold blen. by rewrite length_insert.
Qed.

(** The items behind the place where the search ended are in that bucket. *)
Lemma search_placed cs lh w d i c1 c2 q x :
  lh_inv cs lh w -> search cs lh w d i c1 c2 q -> x ∈ c1 ++ c2 ->
  hsh x.2 mod num_buckets lh = Z.of_nat i.
Proof. intros I Hs Hx. rewrite (inv_nb _ _ _ I). eapply (inv_placed _ _ _ I); [apply Hs|done]. Qed.

(** The chain searched, its items at distinct addresses, none of them in the
    rest [r] of the table. *)
Lemma search_split cs lh w d i c1 c2 q :
  lh_inv cs lh w -> search cs lh w d i c1 c2 q ->
  exists r, concat cs ≡ₚ (c1 ++ c2) ++ r /\
    (forall c', concat (<[i := c']> cs) ≡ₚ c' ++ r) /\
    items_ok ((c1 ++ c2) ++ r) w.
Proof.
  intros I Hs. destruct (concat_insert cs i (c1 ++ c2)) as (r & Hr & Hr' & _); [apply Hs|].
  exists r. split; [done|]. split; [done|]. eapply items_ok_perm; [done|apply I].
Qed.

(** Overwriting the data of the item found. *)
Lemma replace_ok `{!LhashKeys} cs lh w d i c1 x c2 q :
  lh_inv cs lh w -> search cs lh w d i c1 (x :: c2) q ->
  exists n, w_items w !! x.1 = Some (LhashItem x.2 n (hsh x.2)) /\
  let w' := set_items (<[x.1 := LhashItem d n (hsh x.2)]> (w_items w)) w in
  let cs' := <[i := c1 ++ (x.1, d) :: c2]> cs in
  lh_inv cs' lh w' /\ contents (concat cs') = <[key d := d]> (contents (concat cs)).
Proof.
  intros I Hs. destruct x as [l a]. pose proof Hs as [Hi Hc (p & Hp & Hs1) (Hq & n & Hl & Hs2) Hk].
  simpl in Hl, Hk, Hq. subst q. simpl. exists n. split; [done|].
  rewrite (hash_key _ _ Hk).
  destruct (search_split _ _ _ _ _ _ _ _ I Hs) as (r & Hr & Hr' & Hok).
  assert (NoDup (c1 ++ (l, a) :: c2).*1) as Hnd.
  { destruct Hok as [Hnd _ _ _]. rewrite fmap_app in Hnd. by apply NoDup_app in Hnd as [? _]. }
  assert (l ∉ (c1 ++ c2).*1) as Hnl.
  { rewrite <-Permutation_middle in Hnd. by apply NoDup_cons in Hnd as [? _]. }
  rewrite fmap_app, elem_of_app in Hnl.
  set (m' := <[l := LhashItem d n (hsh d)]> (w_items w)).
  assert (forall l', l' <> l -> m' !! l' = w_items w !! l') as Hm by (intros; by apply lookup_insert_ne).
  destruct (relink cs lh w i _ (c1 ++ (l, d) :: c2) m' p I Hc) as (Hch & Hpl & Hlen).
  { intros l' Hl' _. apply Hm. intros ->. apply Hl'. rewrite fmap_app, elem_of_app. right. by left. }
  { apply seg_app. exists (Some l). split; [|split; [done|exists n; split]].
    - eapply seg_frame; [|done]. intros l' Hl'. apply Hm. naive_solver.
    - unfold m'. by rewrite lookup_insert_eq.
    - eapply seg_frame; [|done]. intros l' Hl'. apply Hm. naive_solver. }
  { intros x Hx. rewrite elem_of_app, elem_of_cons in Hx.
    destruct Hx as [Hx|[->|Hx]]; [|done|];
    apply (search_placed _ _ _ _ _ _ _ _ x I Hs); rewrite elem_of_app, elem_of_cons; auto. }
  rewrite (list_insert_id (buckets lh)) in Hch by done.
  rewrite <-Permutation_middle in Hr, Hok. cbn [app] in Hr, Hok.
  assert (concat (<[i := c1 ++ (l, d) :: c2]> cs) ≡ₚ (l, d) :: (c1 ++ c2) ++ r) as Hr2.
  { rewrite Hr', <-!app_assoc. symmetry. apply Permutation_middle. }
  clear Hr'. rename Hr2 into Hr'.
  assert (items_ok ((l, d) :: (c1 ++ c2) ++ r) (set_items m' w)) as Hok'.
  { destruct Hok as [H1 H2 H3 H4]. split; simpl in *; [done| |done|by rewrite <-Hk].
    intros l'. rewrite <-H2. destruct (decide (l' = l)) as [->|Hne]; [|by rewrite Hm].
    unfold m'. rewrite lookup_insert_eq, Hl. naive_solver. }
  split.
  - destruct I. split; try done; rewrite ?Hlen; try done.
    + by apply (items_ok_perm ((l, d) :: (c1 ++ c2) ++ r)).
    + rewrite inv_num0. unfold blen. by rewrite Hr, Hr'.
  - rewrite <-(contents_perm _ _ (ok_keys _ _ Hok') (symmetry Hr')), (contents_perm _ _ (ok_keys _ _ (inv_items _ _ _ I)) Hr).
    rewrite !contents_cons. simpl. rewrite Hk. by rewrite insert_insert_eq.
Qed.

(** Linking a new item behind the chain searched. *)
Lemma append_ok `{!LhashKeys} cs lh w d i c1 q l :
  lh_inv cs lh w -> search cs lh w d i c1 [] q ->
  w_items w !! l = None -> (l < w_allocs w)%nat -> num_items lh + 1 < 2 ^ 64 ->
  exists w' lh', store_slot (slot_of i c1) (Some l)
      (set_items (<[l := LhashItem d None (hsh d)]> (w_items w)) w) = (Some tt, w') /\
    w_lh w' = Some lh' /\
    lh_inv (<[i := c1 ++ [(l, d)]]> cs) (set_num_items (num_items lh + 1) lh')
      (set_lh (Some (set_num_items (num_items lh + 1) lh')) w') /\
    num_items lh' = num_items lh /\ num_buckets lh' = num_buckets lh /\ kept lh lh' w w' /\
    contents (concat (<[i := c1 ++ [(l, d)]]> cs)) = <[key d := d]> (contents (concat cs)).
Proof.
  intros I Hs Hl Hfr Hw64. pose proof Hs as [Hi Hc (p & Hp & Hs1) Hq Hk]. simpl in Hq. subst q.
  rewrite app_nil_r in Hc. destruct (search_split _ _ _ _ _ _ _ _ I Hs) as (r & Hr & Hr' & Hok).
  rewrite app_nil_r in Hr, Hok.
  assert (l ∉ (c1 ++ r).*1) as Hnl.
  { intros Hin. apply (ok_dom _ _ Hok) in Hin. rewrite Hl in Hin. by destruct Hin. }
  set (w1 := set_items (<[l := LhashItem d None (hsh d)]> (w_items w)) w).
  assert (l ∉ c1.*1) as Hnl1 by (rewrite fmap_app, elem_of_app in Hnl; naive_solver).
  destruct (store_slot_ok w1 lh i p c1 None (Some l)) as (m' & p' & He & Hseg & Hfr1 & Hdom);
    [apply I|done| | |].
  { eapply seg_frame; [|done]. intros l' Hl'. apply lookup_insert_ne. by intros ->. }
  { destruct Hok as [Hnd _ _ _]. rewrite fmap_app in Hnd. by apply NoDup_app in Hnd as [? _]. }
  rewrite He. unfold with_buckets. simpl. rewrite (inv_lh _ _ _ I).
  do 2 eexists. split; [reflexivity|]. split; [reflexivity|].
  destruct (relink cs lh w i c1 (c1 ++ [(l, d)]) m' p' I Hc) as (Hch & Hpl & Hlen).
  { intros l' Hl' Hin. rewrite Hfr1 by done. simpl. apply lookup_insert_ne. intros ->. apply Hnl.
    by rewrite Hr in Hin. }
  { apply seg_app. exists (Some l). split; [done|]. split; [done|]. exists None. split; [|done].
    rewrite Hfr1 by done. simpl. by rewrite lookup_insert_eq. }
  { intros x Hx. apply elem_of_app in Hx as [Hx| ->%list_elem_of_singleton]; [|done].
    apply (search_placed _ _ _ _ _ _ _ _ x I Hs). by rewrite app_nil_r. }
  assert (concat (<[i := c1 ++ [(l, d)]]> cs) ≡ₚ (l, d) :: c1 ++ r) as Hr2.
  { rewrite Hr', <-app_assoc. symmetry. apply Permutation_middle. }
  clear Hr'. rename Hr2 into Hr'.
  pose proof Hok as [H1 H2 H3 H4].
  assert (key d ∉ key <$> (c1 ++ r).*2) as Hkd by (by rewrite Hr in Hk).
  split; [|split; [done|split; [done|split; [done|]]]].
  - destruct I. split; try done; rewrite ?Hlen; try done.
    + apply (items_ok_perm ((l, d) :: c1 ++ r)); [done|]. split; simpl.
      * by apply NoDup_cons.
      * intros l'. rewrite Hdom, elem_of_cons, <-H2. simpl.
        destruct (decide (l' = l)) as [->|]; [rewrite lookup_insert_eq; naive_solver|].
        rewrite lookup_insert_ne by done. naive_solver.
      * intros l' [->|Hl']%elem_of_cons; [done|auto].
      * by apply NoDup_cons.
    + simpl. rewrite inv_num0. unfold blen. rewrite Hr, Hr'. simpl. lia.
  - erewrite (contents_perm _ ((l, d) :: c1 ++ r)); [|rewrite Hr'; by apply NoDup_cons|done].
    rewrite contents_cons. simpl. f_equal. symmetry. apply contents_perm; [apply I|done].
Qed.

(** The number of items fits a [size_t] when one more block of memory was
    granted. *)
Lemma num_items_bound `{!AllocatorLaws al} cs lh w :
  lh_inv cs lh w -> granted w sizeof_LHASH_ITEM = true -> num_items lh < 2 ^ 62.
Proof.
  intros I Hg. unfold granted in Hg. apply andb_true_iff in Hg as [_ Hg].
  apply alloc_bound in Hg. change (u64 (sizeof_LHASH_ITEM + 8)) with 32 in Hg.
  unfold live_bytes in Hg. rewrite (inv_blocks _ _ _ I), block_bytes_two, (items_size (concat cs)) in Hg by apply I.
  rewrite (inv_num _ _ _ I). unfold sizeof_LHASH_ITEM, sizeof_LHASH, sizeof_ptr in Hg.
  pose proof (inv_min _ _ _ I) as Hmin. rewrite <-(inv_nb _ _ _ I) in Hmin. unfold kMinNumBuckets in Hmin.
  unfold blen at 1. change (2 ^ 62) with 4611686018427387904.
  pow2. lia.
Qed.

Lemma items_fresh cs lh w : lh_inv cs lh w -> w_items w !! w_allocs w = None.
Proof.
  intros I. apply eq_None_not_Some. intros Hl%(ok_dom _ _ (inv_items _ _ _ I)).
  apply (ok_fresh _ _ (inv_items _ _ _ I)) in Hl. lia.
Qed.

Lemma malloc_item_ok w it :
  malloc_item it w =
    if granted w sizeof_LHASH_ITEM
    then (Some (Some (w_allocs w)), set_items (<[w_allocs w := it]> (w_items w)) (tick 1 w))
    else (Some None, tick 1 w).
Proof.
  unfold malloc_item, granted. cbv zeta. unfold lh_malloc, mbind, M_bind, mget.
  change (u64 (sizeof_LHASH_ITEM + 8) <? sizeof_LHASH_ITEM) with false. cbn [negb andb].
  by destruct (alloc_ok _ _ _).
Qed.

(** What an insertion does: the result and the finite map afterwards. *)
Definition insert_post (d : A) (m m' : gmap K A) (w : world) (r : bool * option A) : Prop :=
  (r = (true, m !! key d) /\ m' = <[key d := d]> m) \/
  (r = (false, None) /\ m !! key d = None /\ granted w sizeof_LHASH_ITEM = false /\ m' = m).

Lemma lh_insert_ok `{!LhashKeys, !AllocatorLaws al} cs lh w d :
  lh_inv cs lh w ->
  exists r cs' lh' w', OPENSSL_lh_insert call_hash_func call_cmp_func d w = (Some r, w') /\
    lh_inv cs' lh' w' /\ kept lh lh' w w' /\
    insert_post d (contents (concat cs)) (contents (concat cs')) w r /\
    (forall n, AllocatorGrants al -> bounded n lh -> n + 1 < 2 ^ 55 -> bounded (n + 1) lh').
Proof.
  intros I. destruct (get_next_ptr_ok cs lh w d I) as (i & c1 & c2 & q & Hs & He).
  pose proof (search_lookup _ _ _ _ _ _ _ _ I Hs) as Hlk. unfold OPENSSL_lh_insert.
  rewrite (bind_ok _ _ _ _ _ He), (bind_ok _ _ _ _ _ (search_load _ _ _ _ _ _ _ _ I Hs)).
  destruct c2 as [|x c2].
  - pose proof (search_seg2 _ _ _ _ _ _ _ _ Hs) as Hq. simpl in Hq. subst q.
    pose proof (malloc_item_ok w (LhashItem d None (hsh d))) as Hm.
    destruct (granted w sizeof_LHASH_ITEM) eqn:Hg; rewrite (bind_ok _ _ _ _ _ Hm).
    2: { exists (false, None), cs, lh, (tick 1 w). split; [done|]. split; [by apply lh_inv_tick|].
      split; [done|]. split; [right; auto|]. intros n _ [] _. split; lia. }
    pose proof (num_items_bound cs lh w I Hg) as Hnum.
    destruct (append_ok cs lh (tick 1 w) d i c1 None (w_allocs w))
      as (w2 & lh2 & Hst & Hlh2 & I2 & Hn2 & Hb2 & Hk2 & Hc2);
      [by apply lh_inv_tick|by destruct Hs|exact (items_fresh cs lh w I)|simpl; lia|change (2 ^ 62) with 4611686018427387904 in Hnum; pow2; lia|].
    cbn [w_items tick] in Hst. rewrite (bind_ok _ _ _ _ _ Hst).
    rewrite (bind_ok get_lh _ w2 lh2 w2) by (unfold get_lh; by rewrite Hlh2).
    assert (u64 (num_items lh2 + 1) = num_items lh + 1) as ->.
    { rewrite Hn2. apply wrap_small. rewrite (inv_num _ _ _ I) in *.
      pose proof (blen_nonneg (concat cs)). unfold in_word. pow2.
      change (2 ^ 62) with 4611686018427387904 in Hnum. lia. }
    rewrite (bind_ok (put_lh _) _ w2 tt (set_lh (Some (set_num_items (num_items lh + 1) lh2)) w2)) by done.
    destruct (lh_adjust_ok _ _ _ I2) as (cs3 & lh3 & w3 & He3 & I3 & Hp3 & Hk3 & _ & Hload).
    rewrite (bind_ok _ _ _ _ _ He3). exists (true, None), cs3, lh3, w3. split; [done|].
    split; [done|]. destruct Hk2 as [Hd2 Ha2], Hk3 as [Hd3 Ha3]. cbn in Hd3, Ha3, Ha2.
    split; [split; congruence|]. split.
    + left. rewrite Hlk. split; [done|].
      rewrite (contents_perm _ _ (ok_keys _ _ (inv_items _ _ _ I3)) Hp3). done.
    + intros n Hgr [] Hb. apply Hload; cbn; [done|lia..].
  - destruct (replace_ok cs lh w d i c1 x c2 q I Hs) as (n & Hl & I' & Hc).
    pose proof (search_seg2 _ _ _ _ _ _ _ _ Hs) as Hq. destruct x as [l a]. destruct Hq as (-> & _). cbn [fst snd] in *.
    rewrite (bind_ok (get_item l) _ w _ w) by (unfold get_item; by rewrite Hl). cbv zeta.
    erewrite bind_ok by (unfold put_item; erewrite bind_ok by (unfold get_item; by rewrite Hl); done).
    eexists _, _, lh, _. split; [reflexivity|]. split; [exact I'|]. split; [done|].
    split; [|intros n' _ [] _; split; lia]. left. rewrite Hlk. split; [done|exact Hc].
Qed.

(** Unlinking and freeing the item found. *)
Lemma unlink_ok cs lh w d i c1 l a c2 q :
  lh_inv cs lh w -> search cs lh w d i c1 ((l, a) :: c2) q ->
  exists n w1 lh', w_items w !! l = Some (LhashItem a n (hsh a)) /\ q = Some l /\
    store_slot (slot_of i c1) n w = (Some tt, w1) /\ is_Some (w_items w1 !! l) /\
    w_lh w1 = Some lh' /\ num_items lh' = num_items lh /\ num_buckets lh' = num_buckets lh /\
    kept lh lh' w w1 /\ 1 <= num_items lh /\
    lh_inv (<[i := c1 ++ c2]> cs) (set_num_items (num_items lh - 1) lh')
      (set_lh (Some (set_num_items (num_items lh - 1) lh')) (set_items (delete l (w_items w1)) w1)) /\
    contents (concat (<[i := c1 ++ c2]> cs)) = delete (key d) (contents (concat cs)).
Proof.
  intros I Hs. pose proof Hs as [Hi Hc (p & Hp & Hs1) (Hq & n & Hl & Hs2) Hk].
  simpl in Hk. subst q. destruct (search_split _ _ _ _ _ _ _ _ I Hs) as (r & Hr & Hr' & Hok).
  specialize (Hr' (c1 ++ c2)). rewrite <-Permutation_middle in Hr, Hok. cbn [app] in Hr, Hok.
  pose proof Hok as [Hnd Hdom0 Hfr Hkeys]. cbn [fmap list_fmap fst] in Hnd.
  apply NoDup_cons in Hnd as [Hnl Hnd]. rewrite !fmap_app in Hnd, Hnl.
  pose proof Hnd as (Hnd1 & _ & _)%NoDup_app. apply NoDup_app in Hnd1 as (Hnd1 & Hnd12 & _).
  rewrite !elem_of_app in Hnl.
  destruct (store_slot_ok w lh i p c1 (Some l) n) as (m' & p' & He & Hseg & Hfr1 & Hdom);
    [apply I|done|done|done|].
  exists n, (with_buckets (<[i := p']> (buckets lh)) (set_items m' w)),
    (set_buckets (<[i := p']> (buckets lh)) (num_buckets lh) lh).
  unfold with_buckets in *. simpl in *. rewrite (inv_lh _ _ _ I) in *. simpl in *.
  assert (forall l', l' <> l -> l' ∉ c1.*1 -> delete l m' !! l' = w_items w !! l') as Hm.
  { intros l' Hne Hl'. rewrite lookup_delete_ne by done. auto. }
  destruct (relink cs lh w i _ (c1 ++ c2) (delete l m') p' I Hc) as (Hch & Hpl & Hlen).
  { intros l' Hl' _. rewrite fmap_app, fmap_cons, elem_of_app, elem_of_cons in Hl'. apply Hm; naive_solver. }
  { apply seg_app. exists n. split; (eapply seg_frame; [|done]); intros l' Hl'.
    - apply lookup_delete_ne. intros ->. naive_solver.
    - apply Hm; [intros ->; naive_solver|]. intros Hc1. by apply (Hnd12 l'). }
  { intros x Hx. apply (search_placed _ _ _ _ _ _ _ _ x I Hs).
    rewrite elem_of_app, elem_of_cons in *. naive_solver. }
  assert (num_items lh = 1 + blen ((c1 ++ c2) ++ r)) as Hn.
  { rewrite (inv_num _ _ _ I). unfold blen. rewrite Hr. simpl. lia. }
  split; [done|]. split; [done|]. split; [done|]. split; [by rewrite Hdom, Hl|].
  split; [done|]. split; [done|]. split; [done|]. split; [done|]. split; [blia|]. split.
  - destruct I. split; try done; rewrite ?Hlen; try done.
    + rewrite Hr'. split; simpl.
      * by rewrite !fmap_app.
      * intros l'. destruct (decide (l' = l)) as [->|Hne].
        -- rewrite lookup_delete_eq, !fmap_app, !elem_of_app. split; [by intros []|naive_solver].
        -- rewrite lookup_delete_ne by done. rewrite Hdom, Hdom0. simpl. rewrite elem_of_cons. naive_solver.
      * intros l' Hl'. apply Hfr. simpl. by right.
      * by apply NoDup_cons in Hkeys as [_ ?].
    + simpl. rewrite Hn. unfold blen. rewrite Hr'. lia.
    + simpl. lia.
  - rewrite (contents_perm (concat cs) ((l, a) :: (c1 ++ c2) ++ r)) by (done || apply I).
    rewrite <-Hk, <-(contents_delete (l, a)) by done. apply contents_perm; [|done].
    rewrite Hr'. by apply NoDup_cons in Hkeys as [_ ?].
Qed.

(** Which item a deletion takes out; inside a callback the chains stay where
    they are. *)
Definition deleted (d : A) (cs cs' : list (list (loc * A))) (lh : lhash_st lhash_cmp_func lhash_hash_func) : Prop :=
  (key d ∉ key <$> (concat cs).*2 /\ cs' = cs) \/
  exists i c1 x c2, cs !! i = Some (c1 ++ x :: c2) /\ key x.2 = key d /\
    (0 < callback_depth lh -> cs' = <[i := c1 ++ c2]> cs).

Lemma lh_delete_ok `{!LhashKeys} cs lh w d :
  lh_inv cs lh w ->
  exists cs' lh' w',
    OPENSSL_lh_delete call_hash_func call_cmp_func d w = (Some (contents (concat cs) !! key d), w') /\
    lh_inv cs' lh' w' /\ kept lh lh' w w' /\
    contents (concat cs') = delete (key d) (contents (concat cs)) /\ deleted d cs cs' lh /\
    (forall n, AllocatorGrants al -> bounded n lh -> n < 2 ^ 55 -> bounded n lh').
Proof.
  intros I. destruct (get_next_ptr_ok cs lh w d I) as (i & c1 & c2 & q & Hs & He).
  pose proof (search_lookup _ _ _ _ _ _ _ _ I Hs) as Hlk. unfold OPENSSL_lh_delete.
  rewrite (bind_ok _ _ _ _ _ He), (bind_ok _ _ _ _ _ (search_load _ _ _ _ _ _ _ _ I Hs)), Hlk.
  destruct c2 as [|[l a] c2].
  - pose proof (search_seg2 _ _ _ _ _ _ _ _ Hs) as Hq. simpl in Hq. subst q.
    exists cs, lh, w. split; [done|]. split; [done|]. split; [done|].
    split; [by rewrite delete_id|]. split; [|done]. left. split; [apply Hs|done].
  - destruct (unlink_ok _ _ _ _ _ _ _ _ _ _ I Hs)
      as (n & w1 & lh1 & Hl & -> & Hst & [it1 Hit] & Hlh1 & Hn1 & Hb1 & [Hd1 Ha1] & Hpos & I2 & Hc2).
    rewrite (bind_ok (get_item l) _ w _ w) by (unfold get_item; by rewrite Hl). cbn [next data].
    rewrite (bind_ok _ _ _ _ _ Hst). cbv zeta.
    rewrite (bind_ok (free_item l) _ w1 tt (set_items (delete l (w_items w1)) w1))
      by (unfold free_item; by rewrite (bind_ok (get_item l) _ w1 it1 w1) by (unfold get_item; by rewrite Hit)).
    erewrite bind_ok by (unfold get_lh; cbn; by rewrite Hlh1).
    assert (u64 (num_items lh1 - 1) = num_items lh - 1) as ->.
    { rewrite Hn1. apply wrap_small. pose proof (inv_word _ _ _ I). unfold in_word. lia. }
    erewrite bind_ok by done. destruct (lh_adjust_ok _ _ _ I2) as (cs3 & lh3 & w3 & He3 & I3 & Hp3 & [Hd3 Ha3] & Hcb & Hload).
    rewrite (bind_ok _ _ _ _ _ He3). exists cs3, lh3, w3. cbn in Hd3, Ha3, Hcb, Hload.
    split; [done|]. split; [done|]. split; [split; congruence|]. split.
    { by rewrite (contents_perm _ _ (ok_keys _ _ (inv_items _ _ _ I3)) Hp3). }
    split.
    + right. exists i, c1, (l, a), c2. split; [apply Hs|]. split; [apply (search_found _ _ _ _ _ _ _ _ Hs)|].
      rewrite <-Hd1. done.
    + intros n' Hgr [] Hb'. apply Hload; [done|lia..].
Qed.

(** ** Creation and destruction *)

Lemma lh_new_ok w :
  w_items w = ∅ -> w_blocks w = ∅ ->
  exists ok w', OPENSSL_lh_new hf cf w = (Some ok, w') /\ w_arg w' = w_arg w /\
    if ok : bool
    then exists lh, lh_inv (replicate 16 []) lh w' /\ bounded 0 lh /\ callback_depth lh = 0
    else w_lh w' = w_lh w /\ w_items w' = ∅ /\ w_blocks w' = ∅.
Proof.
  intros Hw Hb. unfold OPENSSL_lh_new. destruct (malloc_block_eq sizeof_LHASH w) as (k & Hk & Hm).
  destruct (granted w sizeof_LHASH); rewrite (bind_ok _ _ _ _ _ Hm); cbv iota; [|by exists false, (tick k w)].
  rewrite (Hk eq_refl) in *. clear Hk Hm k. set (w1 := set_blocks _ _).
  destruct (malloc_block_eq (u64 (sizeof_ptr * kMinNumBuckets)) w1) as (k' & Hk' & Hm').
  destruct (granted w1 _); rewrite (bind_ok _ _ _ _ _ Hm'); cbv iota.
  2:{ rewrite (bind_ok (free_block _) _ _ tt (set_blocks (delete (w_allocs w) (w_blocks w1)) (tick k' w1))).
    2:{ refine (free_block_ok (w_allocs w) sizeof_LHASH (tick k' w1) _). cbn. by rewrite lookup_insert_eq. }
    eexists false, _. split; [reflexivity|]. split; [done|]. split; [done|]. split; [done|].
    cbn. by rewrite Hb, delete_insert_id. }
  rewrite (Hk' eq_refl) in *.
  eexists true, _. split; [reflexivity|]. split; [done|].
  exists (Lhash 0 (replicate (Z.to_nat kMinNumBuckets) None) kMinNumBuckets 0 cf hf (w_allocs w) (S (w_allocs w))). split; [|split; [split; cbn; unfold kMinNumBuckets; lia|done]]. split; try done.
  - apply chains_replicate.
  - apply placed_replicate.
  - rewrite concat_replicate_nil. split; try (by constructor).
    + intros l. simpl. rewrite Hw, lookup_empty. split; [by intros []|by intros ?%elem_of_nil].
    + by intros l ?%elem_of_nil.
  - cbn. rewrite Hb. by rewrite insert_insert_ne by lia.
  - cbn. lia.
  - cbn. lia.
Qed.

Lemma free_chain_ok (w : world) c : forall p m fuel,
  (length c < fuel)%nat -> seg m p c None -> NoDup c.*1 ->
  exists m', free_chain fuel p (set_items m w) = (Some tt, set_items m' w) /\
    (forall l, m' !! l = if decide (l ∈ c.*1) then None else m !! l).
Proof.
  induction c as [|[l a] c IH]; intros p m fuel Hfuel Hs Hnd;
    (destruct fuel as [|fuel]; [simpl in Hfuel; lia|]).
  - simpl in Hs. subst p. exists m. split; [done|]. intros l. by rewrite decide_False by apply not_elem_of_nil.
  - destruct Hs as (-> & q & Hl & Hs). cbn [free_chain]. apply NoDup_cons in Hnd as [Hnot Hnd].
    assert (get_item l (set_items m w) = (Some (LhashItem a q (hsh a)), set_items m w)) as Hg
      by (unfold get_item; cbn; by rewrite Hl).
    rewrite (bind_ok _ _ _ _ _ Hg).
    rewrite (bind_ok (free_item l) _ (set_items m w) tt (set_items (delete l m) w))
      by (unfold free_item; by rewrite (bind_ok _ _ _ _ _ Hg)).
    destruct (IH q (delete l m) fuel) as (m' & He & Hm'); [simpl in Hfuel; lia| |done|].
    { eapply seg_frame; [|done]. intros l' Hl'. apply lookup_delete_ne. by intros ->. }
    exists m'. split; [done|]. intros l'. rewrite Hm', fmap_cons. simpl.
    destruct (decide (l' = l)) as [->|Hne].
    + rewrite decide_False by done. rewrite lookup_delete_eq, decide_True by (by left). done.
    + rewrite lookup_delete_ne by done. apply decide_ext. rewrite elem_of_cons. naive_solver.
Qed.

Lemma seg_size m p c q : seg m p c q -> NoDup c.*1 -> (length c <= size m)%nat.
Proof.
  intros Hs Hnd. rewrite <-(length_fmap fst c), <-(size_list_to_set (C:=gset loc)), <-size_dom by done.
  apply subseteq_size. intros l Hl. rewrite elem_of_list_to_set in Hl. apply elem_of_dom.
  by eapply seg_elem.
Qed.

Lemma free_loop_ok (w : world) lh cs : forall i m,
  w_lh w = Some lh -> chains m (drop i (buckets lh)) cs -> NoDup (concat cs).*1 ->
  exists m',
    for_loop (fun i _ => n ← get_bucket i; fuel ← chain_fuel; free_chain fuel n)
      (seqZ (Z.of_nat i) (blen cs)) tt (set_items m w) = (Some tt, set_items m' w) /\
    (forall l, m' !! l = if decide (l ∈ (concat cs).*1) then None else m !! l).
Proof.
  induction cs as [|c cs IH]; intros i m Hw Hold Hnd.
  - exists m. split; [done|]. intros l. by rewrite decide_False by apply not_elem_of_nil.
  - rewrite blen_cons, seqZ_cons by blia. replace (Z.pred (1 + blen cs)) with (blen cs) by lia.
    replace (Z.succ (Z.of_nat i)) with (Z.of_nat (S i)) by lia. cbn [for_loop].
    destruct (chains_drop _ _ _ _ _ Hold) as (p & Hi & Hs & Hold').
    cbn [concat] in Hnd. rewrite fmap_app in Hnd. apply NoDup_app in Hnd as (Hnd1 & Hnd2 & Hnd3).
    destruct (free_chain_ok w c p m (S (size m))) as (m1 & He & Hm1); [|done|done|].
    { pose proof (seg_size _ _ _ _ Hs Hnd1). lia. }
    assert ((n ← get_bucket (Z.of_nat i); fuel ← chain_fuel; free_chain fuel n) (set_items m w) =
      (Some tt, set_items m1 w)) as Hbody.
    { erewrite bind_ok by (by eapply get_bucket_ok). exact He. }
    rewrite (bind_ok _ _ _ _ _ Hbody).
    destruct (IH (S i) m1 Hw) as (m2 & He2 & Hm2); [|done|].
    + eapply chains_frame; [|done]. intros l Hl. rewrite Hm1, decide_False; [done|].
      intros Hl'. by apply (Hnd2 l).
    + exists m2. split; [done|]. intros l. rewrite Hm2, Hm1. cbn [concat].
      repeat case_decide; try done; rewrite fmap_app, elem_of_app in *; naive_solver.
Qed.

Lemma lh_free_ok cs lh w :
  lh_inv cs lh w ->
  exists w', OPENSSL_lh_free w = (Some tt, w') /\ w_lh w' = None /\ w_items w' = ∅ /\ w_blocks w' = ∅ /\
    w_arg w' = w_arg w.
Proof.
  intros I. unfold OPENSSL_lh_free. rewrite (bind_ok mget _ w w w) by done. rewrite (inv_lh _ _ _ I).
  destruct (free_loop_ok w lh cs 0 (w_items w)) as (m' & He & Hm); [apply I|rewrite drop_0; apply I|apply I|].
  rewrite (inv_nb _ _ _ I). rewrite set_items_id in He. change (Z.of_nat 0) with 0 in He.
  rewrite (bind_ok _ _ _ _ _ He). pose proof (inv_at _ _ _ I) as Hat.
  rewrite (bind_ok (free_block (buckets_at lh)) _ _ tt (set_blocks {[self lh := sizeof_LHASH]} (set_items m' w))).
  2:{ erewrite (free_block_ok _ _ (set_items m' w))
        by (cbn; rewrite (inv_blocks _ _ _ I), lookup_insert_ne by done; apply lookup_singleton_eq).
    cbn. rewrite (inv_blocks _ _ _ I), delete_insert_ne, delete_singleton_eq by done. done. }
  rewrite (bind_ok (free_block (self lh)) _ _ tt (set_blocks ∅ (set_items m' w))).
  2:{ erewrite free_block_ok by (cbn; apply lookup_singleton_eq). cbn. by rewrite delete_singleton_eq. }
  eexists. split; [reflexivity|]. cbn. split; [done|]. split; [|done].
  apply map_empty. intros l. rewrite Hm. case_decide as Hl; [done|].
  apply eq_None_not_Some. by rewrite (ok_dom _ _ (inv_items _ _ _ I)).
Qed.

(** ** Iteration

    A callback that sees every element: it updates its own state and may
    delete the element it is called with. *)
Context (visit : A -> X -> X) (del : A -> bool).

Definition visit_and_delete (a : A) : M world unit :=
  _ ← mmodify (fun w => set_arg (visit a (w_arg w)) w);
  if del a then _ ← OPENSSL_lh_delete call_hash_func call_cmp_func a; mret tt else mret tt.

Definition keep (c : list (loc * A)) : list (loc * A) := filter (fun x => del x.2 = false) c.

Lemma seg_head m p c : seg m p c None -> p = fst <$> head c.
Proof. destruct c as [|[l a] c]; [done|]. by intros [-> _]. Qed.

Lemma lh_inv_arg cs lh w x : lh_inv cs lh w -> lh_inv cs lh (set_arg x w).
Proof. intros [? ? ? ? ? [] ]. by split. Qed.

(** In a table without equal items, an item is found in one place only. *)
Lemma item_unique cs lh w i c1 x c2 j d1 y d2 :
  lh_inv cs lh w -> cs !! i = Some (c1 ++ x :: c2) -> cs !! j = Some (d1 ++ y :: d2) ->
  key x.2 = key y.2 -> i = j /\ c1 = d1 /\ x = y /\ c2 = d2.
Proof.
  intros I Hi Hj Hk. pose proof (inv_items _ _ _ I) as [Hl _ _ Hnd].
  assert (x = y) as <-.
  { apply (elem_of_concat cs i _ x) in Hi; [|apply elem_of_app; right; by left].
    apply (elem_of_concat cs j _ y) in Hj; [|apply elem_of_app; right; by left].
    rewrite <-list_fmap_compose in Hnd.
    apply list_elem_of_lookup in Hi as [n1 H1]. apply list_elem_of_lookup in Hj as [n2 H2].
    assert (n1 = n2) as ->; [|congruence].
    eapply (NoDup_lookup _ _ _ (key x.2) Hnd); rewrite list_lookup_fmap, ?H1, ?H2; simpl; congruence. }
  destruct (concat_insert cs i _ Hi) as (r & Hr & _ & Hother).
  rewrite Hr in Hl. apply NoDup_fmap_1, NoDup_app in Hl as (Hnd1 & Hnd2 & _).
  assert (i = j) as <-.
  { destruct (decide (i = j)) as [|Hne]; [done|]. exfalso.
    apply (Hnd2 x); [apply elem_of_app; right; by left|].
    apply (Hother j _ (not_eq_sym Hne) Hj). apply elem_of_app. right. by left. }
  rewrite Hi in Hj. injection Hj as Heq. split; [done|].
  assert (length c1 = length d1) as Hlen.
  { apply (NoDup_lookup (c1 ++ x :: c2) _ _ x Hnd1); [|rewrite Heq]; by apply list_lookup_middle. }
  by apply app_inj_1 in Heq as [-> [= ->]].
Qed.

(** One call of the callback, on an element of chain [i] that is behind the
    elements [c1]. *)
Lemma visit_ok `{!LhashKeys} cs lh w i c1 x c2 :
  lh_inv cs lh w -> 0 < callback_depth lh -> cs !! i = Some (c1 ++ x :: c2) ->
  exists lh' w', visit_and_delete x.2 w = (Some tt, w') /\
    lh_inv (<[i := c1 ++ keep [x] ++ c2]> cs) lh' w' /\
    callback_depth lh' = callback_depth lh /\ w_arg w' = visit x.2 (w_arg w).
Proof.
  intros I Hd Hi. unfold visit_and_delete, keep.
  rewrite (bind_ok _ _ w tt (set_arg (visit x.2 (w_arg w)) w)) by done.
  apply (lh_inv_arg _ _ _ (visit x.2 (w_arg w))) in I. destruct (del x.2) eqn:Hdel.
  - rewrite filter_cons_False by congruence. rewrite filter_nil.
    destruct (lh_delete_ok _ _ _ x.2 I) as (cs' & lh' & w' & He & I' & [Hd' Ha'] & _ & Hdelq & _).
    rewrite (bind_ok _ _ _ _ _ He). exists lh', w'. split; [done|]. split; [|done].
    destruct Hdelq as [[Hnot _]|(j & d1 & y & d2 & Hj & Hk & Hcs)].
    + destruct Hnot. do 2 apply list_elem_of_fmap_2. eapply elem_of_concat; [done|].
      apply elem_of_app. right. by left.
    + destruct (item_unique _ _ _ _ _ _ _ _ _ _ _ I Hj Hi Hk) as (-> & -> & -> & ->).
      rewrite Hcs in I' by done. exact I'.
  - rewrite filter_cons_True, filter_nil by done. exists lh, (set_arg (visit x.2 (w_arg w)) w).
    split; [done|]. split; [|done]. cbn [app]. by rewrite list_insert_id.
Qed.

Lemma doall_chain_ok `{!LhashKeys} i c2 : forall fuel cs lh w c1,
  lh_inv cs lh w -> 0 < callback_depth lh -> cs !! i = Some (c1 ++ c2) -> (length c2 < fuel)%nat ->
  exists lh' w', doall_chain fuel visit_and_delete (fst <$> head c2) w = (Some tt, w') /\
    lh_inv (<[i := c1 ++ keep c2]> cs) lh' w' /\
    callback_depth lh' = callback_depth lh /\
    w_arg w' = foldl (fun s a => visit a s) (w_arg w) c2.*2.
Proof.
  induction c2 as [|[l a] c2 IH]; intros fuel cs lh w c1 I Hd Hi Hfuel;
    (destruct fuel as [|fuel]; [simpl in Hfuel; lia|]).
  - exists lh, w. split; [done|]. split; [|done]. unfold keep. by rewrite filter_nil, list_insert_id.
  - cbn [doall_chain head option_map fmap option_fmap fst].
    destruct (Forall2_lookup_r _ _ _ _ _ (inv_chains _ _ _ I) Hi) as (p & Hp & Hs).
    apply seg_app in Hs as (q & _ & -> & n & Hl & Hs2). apply seg_head in Hs2 as ->.
    rewrite (bind_ok (get_item l) _ w _ w) by (unfold get_item; by rewrite Hl). cbn [data next].
    destruct (visit_ok cs lh w i c1 (l, a) c2 I Hd Hi) as (lh1 & w1 & He & I1 & Hd1 & Ha1).
    cbn [snd] in He, Ha1. rewrite (bind_ok _ _ _ _ _ He).
    assert (i < length cs)%nat as Hlt by (by eapply lookup_lt_Some).
    destruct (IH fuel _ lh1 w1 (c1 ++ keep [(l, a)]) I1) as (lh2 & w2 & He2 & I2 & Hd2 & Ha2);
      [lia|by rewrite list_lookup_insert_eq, <-app_assoc|simpl in Hfuel; lia|].
    exists lh2, w2. split; [done|]. split; [|split; [congruence|]].
    + rewrite list_insert_insert_eq in I2. rewrite <-app_assoc in I2. unfold keep in *.
      by rewrite (filter_app _ [(l, a)] c2).
    + by rewrite Ha2, Ha1.
Qed.

(** From bucket [length pre] on. *)
Lemma doall_buckets_ok `{!LhashKeys} post : forall fuel pre lh w,
  lh_inv (pre ++ post) lh w -> 0 < callback_depth lh ->
  (length post + length (concat post) < fuel)%nat ->
  exists lh' w', doall_buckets fuel visit_and_delete (blen pre) w = (Some tt, w') /\
    lh_inv (pre ++ (keep <$> post)) lh' w' /\ callback_depth lh' = callback_depth lh /\
    w_arg w' = foldl (fun s a => visit a s) (w_arg w) (concat post).*2.
Proof.
  induction post as [|c post IH]; intros fuel pre lh w I Hd Hfuel;
    (destruct fuel as [|fuel]; [simpl in Hfuel; lia|]); cbn [doall_buckets];
    rewrite (bind_ok get_lh _ w lh w) by (unfold get_lh; by rewrite (inv_lh _ _ _ I));
    rewrite (inv_nb _ _ _ I), blen_app.
  - rewrite (proj2 (Z.ltb_ge _ _)) by blia. by exists lh, w.
  - rewrite (proj2 (Z.ltb_lt _ _)) by blia.
    assert ((pre ++ c :: post) !! length pre = Some ([] ++ c)) as Hi by by apply list_lookup_middle.
    destruct (Forall2_lookup_r _ _ _ _ _ (inv_chains _ _ _ I) Hi) as (p & Hp & Hs).
    apply seg_head in Hs as ->. unfold blen at 1.
    rewrite (bind_ok _ _ _ _ _ (get_bucket_ok w lh _ _ (inv_lh _ _ _ I) Hp)).
    cbn [concat length] in Hfuel. rewrite length_app in Hfuel.
    destruct (doall_chain_ok _ c (S fuel) _ lh w [] I Hd Hi) as (lh1 & w1 & He & I1 & Hd1 & Ha1); [lia|].
    cbn [app] in He. rewrite (bind_ok _ _ _ _ _ He). cbn [app] in I1.
    rewrite (insert_app_r_alt pre) in I1 by lia. rewrite Nat.sub_diag in I1.
    change (<[0%nat := keep c]> (c :: post)) with (keep c :: post) in I1.
    rewrite cons_middle, app_assoc in I1.
    destruct (IH fuel _ lh1 w1 I1) as (lh2 & w2 & He2 & I2 & Hd2 & Ha2); [lia|lia|].
    exists lh2, w2. rewrite blen_app, blen_singleton in He2. split; [done|].
    rewrite <-app_assoc in I2. split; [exact I2|]. split; [congruence|].
    rewrite Ha2, Ha1. cbn [concat]. by rewrite fmap_app, foldl_app.
Qed.

Lemma concat_keep cs : concat (keep <$> cs) = keep (concat cs).
Proof. induction cs as [|c cs IH]; [done|]. cbn. rewrite IH. unfold keep. by rewrite filter_app. Qed.

Lemma contents_keep its :
  NoDup (key <$> its.*2) -> contents (keep its) = filter (fun ka => del ka.2 = false) (contents its).
Proof.
  induction its as [|[l a] its IH]; intros Hnd; [symmetry; apply (map_filter_empty (M:=gmap K))|].
  apply NoDup_cons in Hnd as [Hk Hnd]. unfold keep. rewrite contents_cons. cbn [snd].
  assert (contents its !! key a = None) as Hnone by by apply contents_lookup_None.
  destruct (decide (del a = false)).
  - rewrite filter_cons_True, contents_cons, map_filter_insert_True by done. cbn [snd]. f_equal. by apply IH.
  - rewrite filter_cons_False, map_filter_insert_False, delete_id by done. by apply IH.
Qed.

(** [OPENSSL_lh_doall_arg] calls the callback once per element, keeps the
    elements it did not delete and then resizes the table. *)
Lemma lh_doall_ok `{!LhashKeys} cs lh w fuel :
  lh_inv cs lh w -> 0 <= callback_depth lh < UINT_MAX - 1 ->
  (length cs + length (concat cs) < fuel)%nat ->
  exists cs' lh' w', OPENSSL_lh_doall_arg fuel visit_and_delete w = (Some tt, w') /\
    lh_inv cs' lh' w' /\ callback_depth lh' = callback_depth lh /\
    w_arg w' = foldl (fun s a => visit a s) (w_arg w) (concat cs).*2 /\
    contents (concat cs') = filter (fun ka => del ka.2 = false) (contents (concat cs)) /\
    (forall n, AllocatorGrants al -> bounded n lh -> n < 2 ^ 55 -> bounded n lh').
Proof.
  intros I Hd Hfuel. unfold OPENSSL_lh_doall_arg.
  rewrite (bind_ok mget _ w w w) by done. rewrite (inv_lh _ _ _ I).
  rewrite (proj2 (Z.ltb_lt _ UINT_MAX)) by lia.
  set (lh0 := set_callback_depth (callback_depth lh + 1) lh).
  assert (lh_inv cs lh0 (set_lh (Some lh0) w)) as I0 by (destruct I as [? ? ? ? ? []]; by split).
  rewrite (bind_ok (put_lh (Some lh0)) _ w tt (set_lh (Some lh0) w)) by done.
  destruct (doall_buckets_ok cs fuel [] lh0 (set_lh (Some lh0) w)) as (lh1 & w1 & He & I1 & Hd1 & Ha1);
    [done|cbn; lia|done|].
  change (blen []) with 0 in He. rewrite (bind_ok _ _ _ _ _ He). cbn [app] in I1.
  rewrite (bind_ok get_lh _ w1 lh1 w1) by (unfold get_lh; by rewrite (inv_lh _ _ _ I1)).
  rewrite Hd1. cbn [lh0 callback_depth set_callback_depth].
  rewrite (proj2 (Z.ltb_lt _ UINT_MAX)) by lia.
  replace (callback_depth lh + 1 - 1) with (callback_depth lh) by lia.
  set (lh2 := set_callback_depth (callback_depth lh) lh1).
  assert (lh_inv (keep <$> cs) lh2 (set_lh (Some lh2) w1)) as I2 by (destruct I1 as [? ? ? ? ? []]; by split).
  rewrite (bind_ok (put_lh (Some lh2)) _ w1 tt (set_lh (Some lh2) w1)) by done.
  destruct (lh_adjust_ok _ _ _ I2) as (cs3 & lh3 & w3 & He3 & I3 & Hp3 & [Hd3 Ha3] & _ & Hload).
  exists cs3, lh3, w3. split; [done|]. split; [done|]. split; [done|].
  split; [by rewrite Ha3; cbn; rewrite Ha1|]. split.
  - rewrite (contents_perm _ _ (ok_keys _ _ (inv_items _ _ _ I3)) Hp3), concat_keep.
    apply contents_keep, I.
  - intros n Hgr [Hdep Hl Hi Hb] Hn.
    assert (num_items lh2 <= num_items lh) as Hni.
    { rewrite (inv_num _ _ _ I2), (inv_num _ _ _ I), concat_keep. unfold blen, keep.
      apply inj_le, length_filter. }
    assert (num_buckets lh2 = num_buckets lh) as Hnb.
    { rewrite (inv_nb _ _ _ I2), (inv_nb _ _ _ I). unfold blen. by rewrite length_fmap. }
    apply Hload; [done|done|lia..].
Qed.
End Spec.
