(* ===== verification/LhashTheorems.v ===== *)
(** The hash table of lhash.c as its clients see it: a sequence of calls is a
    sequence of steps of a finite map. *)

From S2P Require Import Prelude Lhash LhashSpec.

Section Client.
Context {al : Allocator}.
Context {A X : Type} {lhash_cmp_func lhash_hash_func : Type}.
Context (call_hash_func : lhash_hash_func -> A -> Z).
Context (call_cmp_func : lhash_cmp_func -> A -> A -> Z).
Context `{CK : Countable K} (key : A -> K) (hf : lhash_hash_func) (cf : lhash_cmp_func).

Abbreviation world := (@world A X lhash_cmp_func lhash_hash_func).
Abbreviation keys := (LhashKeys call_hash_func call_cmp_func key hf cf).

(** The calls of a client. The key of [OpRetrieveKey] is that of an element,
    compared by a function of the client. *)
Inductive lh_op :=
| OpInsert (d : A)
| OpDelete (d : A)
| OpRetrieve (d : A)
| OpRetrieveKey (d : A) (cmp_key : A -> Z)
| OpNumItems
| OpDoall (visit : A -> X -> X) (del : A -> bool).

Inductive lh_res :=
| RInsert (ok : bool) (old : option A)
| RData (d : option A)
| RNum (n : Z)
| RUnit.

(** The keyed comparison must agree with the keys of the table. *)
Definition op_ok (op : lh_op) : Prop :=
  match op with
  | OpRetrieveKey d cmp_key => forall a, cmp_key a = 0 <-> key a = key d
  | _ => True
  end.

(** Enough for a callback that adds nothing. *)
Definition doall_fuel : M world nat :=
  lh ← get_lh;
  w ← mget;
  mret (S (Z.to_nat (num_buckets lh) + size (w_items w))).

Definition exec (op : lh_op) : M world lh_res :=
  match op with
  | OpInsert d => '(ok, old) ← OPENSSL_lh_insert call_hash_func call_cmp_func d; mret (RInsert ok old)
  | OpDelete d => r ← OPENSSL_lh_delete call_hash_func call_cmp_func d; mret (RData r)
  | OpRetrieve d => r ← OPENSSL_lh_retrieve call_hash_func call_cmp_func d; mret (RData r)
  | OpRetrieveKey d cmp_key =>
      r ← OPENSSL_lh_retrieve_key (call_hash_func hf d) cmp_key; mret (RData r)
  | OpNumItems => n ← OPENSSL_lh_num_items; mret (RNum n)
  | OpDoall visit del =>
      fuel ← doall_fuel;
      _ ← OPENSSL_lh_doall_arg fuel (visit_and_delete call_hash_func call_cmp_func visit del);
      mret RUnit
  end.

Fixpoint run (ops : list lh_op) : M world (list lh_res) :=
  match ops with
  | [] => mret []
  | op :: ops => r ← exec op; rs ← run ops; mret (r :: rs)
  end.

(** The same calls on a finite map from keys to elements and the state of the
    callbacks. An insertion may fail for lack of memory, but not when it
    replaces an element; the order of an iteration is not specified. *)
Inductive spec : lh_op -> gmap K A * X -> lh_res -> gmap K A * X -> Prop :=
| spec_insert d m x :
    spec (OpInsert d) (m, x) (RInsert true (m !! key d)) (<[key d := d]> m, x)
| spec_insert_fail d m x :
    m !! key d = None -> spec (OpInsert d) (m, x) (RInsert false None) (m, x)
| spec_delete d m x : spec (OpDelete d) (m, x) (RData (m !! key d)) (delete (key d) m, x)
| spec_retrieve d m x : spec (OpRetrieve d) (m, x) (RData (m !! key d)) (m, x)
| spec_retrieve_key d cmp_key m x :
    spec (OpRetrieveKey d cmp_key) (m, x) (RData (m !! key d)) (m, x)
| spec_num_items m x : spec OpNumItems (m, x) (RNum (Z.of_nat (size m))) (m, x)
| spec_doall visit del l m x :
    l ≡ₚ (map_to_list m).*2 ->
    spec (OpDoall visit del) (m, x) RUnit
      (filter (fun ka => del ka.2 = false) m, foldl (fun s a => visit a s) x l).

Inductive spec_run : list lh_op -> gmap K A * X -> list lh_res -> gmap K A * X -> Prop :=
| spec_run_nil s : spec_run [] s [] s
| spec_run_cons op ops s r s' rs s'' :
    spec op s r s' -> spec_run ops s' rs s'' -> spec_run (op :: ops) s (r :: rs) s''.

(** The table stands for the map [m]; [n] insertions at most so far. *)
Inductive represents (m : gmap K A) (n : Z) (w : world) : Prop :=
| Represents cs lh
    (rep_inv : lh_inv call_hash_func key hf cf cs lh w)
    (rep_contents : contents key (concat cs) = m)
    (rep_depth : callback_depth lh = 0)
    (rep_bounded : AllocatorGrants al -> n < 2 ^ 55 -> bounded n lh).

Lemma size_contents its : NoDup (key <$> its.*2) -> size (contents key its) = length its.
Proof.
  intros Hnd. unfold contents. rewrite map_size_list_to_map by (by rewrite contents_keys).
  by rewrite !length_fmap.
Qed.

Lemma contents_to_list (its : list (loc * A)) :
  NoDup (key <$> its.*2) -> its.*2 ≡ₚ (map_to_list (contents key its)).*2.
Proof.
  intros Hnd. unfold contents. rewrite map_to_list_to_map by (by rewrite contents_keys).
  rewrite <-list_fmap_compose. by rewrite list_fmap_id.
Qed.

Lemma bounded_mono n n' (lh : lhash_st lhash_cmp_func lhash_hash_func) :
  n <= n' -> bounded n lh -> bounded n' lh.
Proof. intros Hn []. split; lia. Qed.

Lemma lh_exec_ok `{!keys, !AllocatorLaws al} op m n w :
  represents m n w -> op_ok op ->
  exists r w' m', exec op w = (Some r, w') /\ spec op (m, w_arg w) r (m', w_arg w') /\
    represents m' (n + 1) w'.
Proof.
  intros [cs lh I <- Hd Hb] Hop. destruct op as [d|d|d|d cmp_key| |visit del]; unfold exec.
  - destruct (lh_insert_ok _ _ _ _ _ _ _ _ d I) as (r & cs' & lh' & w' & He & I' & [Hd' Ha'] & Hpost & Hb').
    rewrite (bind_ok _ _ _ _ _ He). destruct r as [ok old].
    exists (RInsert ok old), w', (contents key (concat cs')). split; [done|]. split.
    + rewrite Ha'. destruct Hpost as [[[= -> ->] ->]|([= -> ->] & Hn & _ & ->)]; by constructor.
    + exists cs' lh'; try done; [congruence|]. intros. apply Hb'; [done|apply Hb; [done|lia]|done].
  - destruct (lh_delete_ok _ _ _ _ _ _ _ _ d I) as (cs' & lh' & w' & He & I' & [Hd' Ha'] & Hc & _ & Hb').
    rewrite (bind_ok _ _ _ _ _ He). eexists _, w', _. split; [reflexivity|]. split.
    + rewrite Ha'. constructor.
    + exists cs' lh'; try done; [congruence|]. intros.
      apply (bounded_mono n); [lia|]. apply Hb'; [done|apply Hb; [done|lia]|lia].
  - rewrite (bind_ok _ _ _ _ _ (lh_retrieve_ok _ _ _ _ _ _ _ _ d I)).
    eexists _, w, _. split; [reflexivity|]. split; [constructor|].
    exists cs lh; try done. intros. apply (bounded_mono n); [lia|]. apply Hb; [done|lia].
  - rewrite (bind_ok _ _ _ _ _ (lh_retrieve_key_ok _ _ _ _ _ _ _ _ d cmp_key I Hop)).
    eexists _, w, _. split; [reflexivity|]. split; [constructor|].
    exists cs lh; try done. intros. apply (bounded_mono n); [lia|]. apply Hb; [done|lia].
  - unfold OPENSSL_lh_num_items. erewrite bind_ok
      by (rewrite (bind_ok get_lh _ w lh w) by (unfold get_lh; by rewrite (inv_lh _ _ _ _ _ _ _ I)); done).
    eexists _, w, _. split; [reflexivity|]. split.
    + rewrite (inv_num _ _ _ _ _ _ _ I). unfold blen. rewrite <-size_contents by apply I. constructor.
    + exists cs lh; try done. intros. apply (bounded_mono n); [lia|]. apply Hb; [done|lia].
  - erewrite bind_ok by (unfold doall_fuel;
      rewrite (bind_ok get_lh _ w lh w) by (unfold get_lh; by rewrite (inv_lh _ _ _ _ _ _ _ I)); done).
    destruct (lh_doall_ok _ _ _ _ _ visit del cs lh w
      (S (Z.to_nat (num_buckets lh) + size (w_items w))) I)
      as (cs' & lh' & w' & He & I' & Hd' & Ha' & Hc & Hb').
    + rewrite Hd. unfold UINT_MAX. pow2. lia.
    + rewrite (inv_nb _ _ _ _ _ _ _ I), (items_size _ (concat cs)) by apply I. unfold blen. lia.
    + rewrite (bind_ok _ _ _ _ _ He). eexists _, w', _. split; [reflexivity|]. split.
      * rewrite Ha'. constructor. apply contents_to_list, I.
      * exists cs' lh'; try done; [congruence|]. intros.
        apply (bounded_mono n); [lia|]. apply Hb'; [done|apply Hb; [done|lia]|lia].
Qed.

Lemma lh_run_ok `{!keys, !AllocatorLaws al} ops : forall m n w,
  represents m n w -> Forall op_ok ops ->
  exists rs w' m', run ops w = (Some rs, w') /\ spec_run ops (m, w_arg w) rs (m', w_arg w') /\
    represents m' (n + blen ops) w'.
Proof.
  induction ops as [|op ops IH]; intros m n w Hr Hops.
  - exists [], w, m. rewrite blen_nil, Z.add_0_r. repeat split; [constructor|apply Hr..].
  - apply Forall_cons in Hops as [Hop Hops]. cbn [run].
    destruct (lh_exec_ok op m n w Hr Hop) as (r & w1 & m1 & He & Hs & Hr1).
    destruct (IH m1 (n + 1) w1 Hr1 Hops) as (rs & w2 & m2 & He2 & Hs2 & Hr2).
    rewrite (bind_ok _ _ _ _ _ He), (bind_ok _ _ _ _ _ He2).
    exists (r :: rs), w2, m2. split; [done|]. split; [by econstructor|].
    rewrite blen_cons. by replace (n + (1 + blen ops)) with (n + 1 + blen ops) by lia.
Qed.

Lemma new_represents w lh :
  lh_inv call_hash_func key hf cf (replicate 16 []) lh w -> bounded 0 lh -> callback_depth lh = 0 ->
  represents ∅ 0 w.
Proof.
  intros I Hb Hd. refine (Represents _ _ _ _ lh I _ Hd (fun _ _ => Hb)). by rewrite concat_replicate_nil.
Qed.

(** C4: From [OPENSSL_lh_new] on, whatever the client calls, nothing undefined
    happens, and the results of the calls and the state of the callbacks are
    those of a finite map from keys to elements: insertion replaces an equal
    element and returns it, or fails for lack of memory and changes nothing;
    deletion returns the element it removes; lookups return the element with
    the key; an iteration visits every element once, even if the callback
    deletes it. [OPENSSL_lh_free] at the end leaves nothing allocated: no item, no
    bucket array (every resize frees the old one) and no table; nor does an
    [OPENSSL_lh_new] that fails. *)
Theorem lhash_refines_map `{!keys, !AllocatorLaws al} ops w :
  w_lh w = None -> w_items w = ∅ -> w_blocks w = ∅ -> Forall op_ok ops ->
  exists ok w0, OPENSSL_lh_new hf cf w = (Some ok, w0) /\
    if ok : bool
    then exists rs w1 m' w2,
      run ops w0 = (Some rs, w1) /\ spec_run ops (∅, w_arg w) rs (m', w_arg w1) /\
      OPENSSL_lh_free w1 = (Some tt, w2) /\ w_lh w2 = None /\ w_items w2 = ∅ /\ w_blocks w2 = ∅
    else w_lh w0 = None /\ w_items w0 = ∅ /\ w_blocks w0 = ∅.
Proof.
  intros Hlh Hit Hbl Hops. destruct (lh_new_ok call_hash_func key hf cf w Hit Hbl) as (ok & w0 & Hnew & Harg & Hok).
  exists ok, w0. split; [done|]. destruct ok; [|by rewrite <-Hlh].
  destruct Hok as (lh & I & Hb & Hd). rewrite <-Harg.
  destruct (lh_run_ok ops ∅ 0 w0 (new_represents w0 lh I Hb Hd) Hops) as (rs & w1 & m' & Hrun & Hspec & [cs1 lh1 I1]).
  destruct (lh_free_ok call_hash_func call_cmp_func key hf cf cs1 lh1 w1 I1) as (w2 & Hfree & Hl2 & Hi2 & Hb2 & _).
  by exists rs, w1, m', w2.
Qed.

(** C21: After any calls the table is well formed: every item is in the chain
    of its cached hash, which is the hash of its data, addresses and keys do
    not repeat and no item is leaked or dangling; and as long as the allocator
    has memory, the average chain is shorter than three items, with at least
    16 buckets and no more than the insertions account for. *)
Theorem lhash_invariant `{!keys, !AllocatorLaws al, !AllocatorGrants al} ops w w0 :
  w_lh w = None -> w_items w = ∅ -> w_blocks w = ∅ -> OPENSSL_lh_new hf cf w = (Some true, w0) ->
  Forall op_ok ops -> blen ops < 2 ^ 55 ->
  exists rs w1 cs lh, run ops w0 = (Some rs, w1) /\
    lh_inv call_hash_func key hf cf cs lh w1 /\
    num_items lh < 3 * num_buckets lh /\ 16 <= num_buckets lh <= 16 + blen ops.
Proof.
  intros Hlh Hit Hbl Hnew Hops Hlen.
  destruct (lh_new_ok call_hash_func key hf cf w Hit Hbl) as (ok & w0' & Hnew' & _ & Hok).
  rewrite Hnew in Hnew'. injection Hnew' as <- <-. destruct Hok as (lh & I & Hb & Hd).
  destruct (lh_run_ok ops ∅ 0 w0 (new_represents w0 lh I Hb Hd) Hops) as (rs & w1 & m' & Hrun & _ & [cs1 lh1 I1 _ _ Hb1]).
  exists rs, w1, cs1, lh1. split; [done|]. split; [done|].
  destruct (Hb1 _ Hlen) as [_ Hload _ Hbuck]. split; [done|].
  pose proof (inv_min _ _ _ _ _ _ _ I1) as Hmin. rewrite <-(inv_nb _ _ _ _ _ _ _ I1) in Hmin.
  unfold kMinNumBuckets in *. lia.
Qed.
End Client.

(** * A concrete client

    Integers, equal when they agree modulo 1000. *)

Definition mod_hash (_ : unit) (a : Z) : Z := u32 (a mod 1000 * 2654435761).
Definition mod_cmp (_ : unit) (a b : Z) : Z := a mod 1000 - b mod 1000.

#[export] Instance small_allocator : Allocator := fun _ live size => live + size <? 2 ^ 63.

#[export] Instance small_allocator_laws : AllocatorLaws small_allocator.
Proof. intros n live size. unfold alloc_ok, small_allocator. pow2. lia. Qed.

#[export] Instance small_allocator_grants : AllocatorGrants small_allocator.
Proof. intros n live size. unfold alloc_ok, small_allocator. lia. Qed.

#[export] Instance mod_keys : LhashKeys mod_hash mod_cmp (fun a => a mod 1000) tt tt.
Proof. split; unfold mod_hash, mod_cmp; intros a b; [lia|by intros ->]. Qed.

Definition start : world (A:=Z) (X:=list Z) (lhash_cmp_func:=unit) (lhash_hash_func:=unit) :=
  World None ∅ ∅ 0 [].

Definition fill : list (lh_op (A:=Z) (X:=list Z)) := OpInsert <$> seqZ 0 60.

Lemma fill_ok : Forall (op_ok (fun a => a mod 1000)) fill.
Proof. apply Forall_fmap, Forall_forall. done. Qed.

Lemma lhash_refines_map_witness :
  exists rs w1 m' w2,
    run mod_hash mod_cmp tt (fill ++ [OpInsert 1003; OpDoall cons Z.even; OpNumItems])
      (OPENSSL_lh_new tt tt start).2 = (Some rs, w1) /\
    drop 60 rs = [RInsert true (Some 3); RUnit; RNum 30] /\
    spec_run (fun a => a mod 1000) (fill ++ [OpInsert 1003; OpDoall cons Z.even; OpNumItems])
      (∅, []) rs (m', w_arg w1) /\
    OPENSSL_lh_free w1 = (Some tt, w2) /\ w_lh w2 = None /\ w_items w2 = ∅ /\ w_blocks w2 = ∅.
Proof.
  destruct (lhash_refines_map mod_hash mod_cmp (fun a => a mod 1000) tt tt
    (fill ++ [OpInsert 1003; OpDoall cons Z.even; OpNumItems]) start) as (ok & w0 & Hn & H);
    [done|done|done|apply Forall_app; split; [apply fill_ok|repeat constructor]|].
  vm_compute in Hn. injection Hn as <- <-. destruct H as (rs & w1 & m' & w2 & Hr & Hs & Hf).
  exists rs, w1, m', w2. split; [exact Hr|]. split; [|exact (conj Hs Hf)].
  vm_compute in Hr. injection Hr as <- _. reflexivity.
Defined.

Lemma lhash_invariant_witness :
  exists rs w1 cs lh, run mod_hash mod_cmp tt fill (OPENSSL_lh_new tt tt start).2 = (Some rs, w1) /\
    lh_inv mod_hash (fun a => a mod 1000) tt tt cs lh w1 /\
    num_items lh < 3 * num_buckets lh /\ 16 <= num_buckets lh <= 16 + 60.
Proof.
  apply (lhash_invariant mod_hash mod_cmp (fun a => a mod 1000) tt tt fill start);
    [reflexivity|reflexivity|reflexivity|vm_compute; reflexivity|apply fill_ok|vm_compute; reflexivity].
Defined.
