(* ===== verification/Buf.v ===== *)
(** crypto/buf/buf.c: [BUF_MEM], a growable byte buffer, and accesses to
    memory through pointers.

    A [char *] is an object with a position in it. The functions run in the
    error-state monad over the structure they are given, and failure is
    undefined behaviour: an access outside of the object. A result of 0 is a
    result. *)

From S2P Require Import Prelude CryptoInternal.

(** * Pointers into an object *)

(** A result that undefined behaviour may withhold. *)
Definition mopt {S A} (o : option A) : M S A := fun s => (o, s).

(** [n] bytes of the object [mem] from [off] on; nothing is accessed for
    [n = 0]. *)
Definition load_bytes (mem : option (list Z)) (off n : Z) : option (list Z) :=
  if n =? 0 then Some []
  else
    mem ← mem;
    if (0 <=? off) && (0 <=? n) && (off + n <=? blen mem)
    then Some (take (Z.to_nat n) (drop (Z.to_nat off) mem)) else None.

Definition store_bytes (mem : option (list Z)) (off : Z) (bs : list Z) : option (option (list Z)) :=
  if blen bs =? 0 then Some mem
  else
    mem ← mem;
    if (0 <=? off) && (off + blen bs <=? blen mem) then Some (Some (write_at off bs mem)) else None.

(** A pointer: the object it points into, and where. *)
Record char_ptr := CharPtr { object : option (list Z); at_ : Z }.
Definition NULL_ptr : char_ptr := CharPtr None 0.
Definition is_NULL (p : char_ptr) : bool := bool_decide (object p = None).
Definition ptr_add (p : char_ptr) (n : Z) : char_ptr := CharPtr (object p) (at_ p + n).
Definition ptr_load (p : char_ptr) (off n : Z) : option (list Z) := load_bytes (object p) (at_ p + off) n.
Definition ptr_store (p : char_ptr) (off : Z) (bs : list Z) : option char_ptr :=
  (fun o => CharPtr o (at_ p)) <$> store_bytes (object p) (at_ p + off) bs.

(** * BUF_MEM *)

Record BUF_MEM := BufMem { buf_length : Z; buf_data : char_ptr; buf_max : Z }.

Definition set_buf_length (n : Z) (b : BUF_MEM) : BUF_MEM := BufMem n (buf_data b) (buf_max b).
Definition set_buf_data (d : char_ptr) (b : BUF_MEM) : BUF_MEM := BufMem (buf_length b) d (buf_max b).
Definition set_buf_max (n : Z) (b : BUF_MEM) : BUF_MEM := BufMem (buf_length b) (buf_data b) n.

Definition sizeof_BUF_MEM : Z := 24.

(** What the functions put into the error queue, newest first. *)
Inductive buf_error := BUF_R_MALLOC_FAILURE | BUF_R_OVERFLOW.
#[export] Instance buf_error_eq_dec : EqDecision buf_error.
Proof. solve_decision. Defined.

Record buf_call := BufCall { bmem : BUF_MEM; bqueue : list buf_error }.

Definition get_bmem : M buf_call BUF_MEM := c ← mget; mret (bmem c).
Definition upd_bmem (f : BUF_MEM -> BUF_MEM) : M buf_call unit :=
  mmodify (fun c => BufCall (f (bmem c)) (bqueue c)).
(** [OPENSSL_PUT_ERROR(BUF, e)] *)
Definition put_buf_error (e : buf_error) : M buf_call unit :=
  mmodify (fun c => BufCall (bmem c) (e :: bqueue c)).

(** The structure as [BUF_MEM_new] clears it. *)
Definition BUF_MEM_zero : BUF_MEM := BufMem 0 NULL_ptr 0.

Section Buf.
Context {m : Malloc}.

Definition BUF_MEM_new : M (list buf_error) (option BUF_MEM) :=
  match OPENSSL_malloc sizeof_BUF_MEM with
  | None => _ ← mmodify (cons BUF_R_MALLOC_FAILURE); mret None
  | Some _ => mret (Some BUF_MEM_zero)
  end.

(** [OPENSSL_realloc] of a pointer to the start of a block; [None] for a
    pointer that is not one. *)
Definition realloc_ptr (p : char_ptr) (n : Z) : option (option char_ptr) :=
  if at_ p =? 0 then Some ((fun d => CharPtr (Some d) 0) <$> OPENSSL_realloc (object p) n) else None.

Definition BUF_MEM_reserve (cap : Z) : M buf_call Z :=
  buf ← get_bmem;
  if cap <=? buf_max buf then mret 1
  else
    let n := u64 (cap + 3) in
    if n <? cap then _ ← put_buf_error BUF_R_MALLOC_FAILURE; mret 0
    else
      let n := n / 3 in
      let alloc_size := u64 (n * 4) in
      if negb (alloc_size / 4 =? n) then _ ← put_buf_error BUF_R_MALLOC_FAILURE; mret 0
      else
        new_buf ← mopt (realloc_ptr (buf_data buf) alloc_size);
        match new_buf with
        | None => _ ← put_buf_error BUF_R_MALLOC_FAILURE; mret 0
        | Some new_buf =>
            _ ← upd_bmem (set_buf_data new_buf);
            _ ← upd_bmem (set_buf_max alloc_size);
            mret 1
        end.

Definition BUF_MEM_grow (len : Z) : M buf_call Z :=
  ok ← BUF_MEM_reserve len;
  if ok =? 0 then mret 0
  else
    buf ← get_bmem;
    _ ← (if buf_length buf <? len then
           d ← mopt (ptr_store (buf_data buf) (buf_length buf)
                       (replicate (Z.to_nat (len - buf_length buf)) 0));
           upd_bmem (set_buf_data d)
         else mret tt);
    _ ← upd_bmem (set_buf_length len);
    mret len.

Definition BUF_MEM_grow_clean (len : Z) : M buf_call Z := BUF_MEM_grow len.

Definition BUF_MEM_append (bs : list Z) : M buf_call Z :=
  let len := blen bs in
  if len =? 0 then mret 1
  else
    buf ← get_bmem;
    let new_len := u64 (buf_length buf + len) in
    if new_len <? len then _ ← put_buf_error BUF_R_OVERFLOW; mret 0
    else
      ok ← BUF_MEM_reserve new_len;
      if ok =? 0 then mret 0
      else
        buf ← get_bmem;
        d ← mopt (ptr_store (buf_data buf) (buf_length buf) bs);
        _ ← upd_bmem (set_buf_data d);
        _ ← upd_bmem (set_buf_length new_len);
        mret 1.
End Buf.

(** * The contents of a buffer *)

(** The buffer owns its block: [buf_max] bytes, the first [buf_length] of them
    in use. *)
Record buf_owns (b : BUF_MEM) (contents : list Z) : Prop := {
  owns_length : buf_length b = blen contents;
  owns_at : at_ (buf_data b) = 0;
  owns_max : 0 <= buf_max b < 2 ^ 64;
  owns_data : match object (buf_data b) with
              | None => buf_max b = 0 /\ contents = []
              | Some d => blen d = buf_max b /\ exists rest, d = contents ++ rest
              end
}.

(** The size of the block that [BUF_MEM_reserve] asks for. *)
Definition reserve_size (cap : Z) : Z := (cap + 3) / 3 * 4.

Lemma reserve_size_bounds cap : 0 <= cap -> cap < reserve_size cap <= cap + cap / 3 + 4.
Proof. unfold reserve_size. intros. zdiv. Qed.

(** Whether room for [cap] bytes is there or can be had. *)
Definition can_reserve `{Malloc} (cap : Z) (b : BUF_MEM) : bool :=
  (cap <=? buf_max b) ||
  ((reserve_size cap <? 2 ^ 64) && bool_decide (is_Some (OPENSSL_malloc (reserve_size cap)))).

Lemma mopt_bind {S A B} (o : option A) (k : A -> M S B) s :
  (mopt o ≫= k) s = match o with Some a => k a s | None => (None, s) end.
Proof. by destruct o. Qed.

Lemma mget_bind {S B} (k : S -> M S B) s : (mget ≫= k) s = k s s.
Proof. done. Qed.

Lemma mmodify_bind {S B} f (k : unit -> M S B) s : (mmodify f ≫= k) s = k tt (f s).
Proof. done. Qed.

Lemma get_bmem_bind {B} (k : BUF_MEM -> M buf_call B) b q : (get_bmem ≫= k) (BufCall b q) = k b (BufCall b q).
Proof. done. Qed.

Lemma upd_bmem_bind {B} f (k : unit -> M buf_call B) b q :
  (upd_bmem f ≫= k) (BufCall b q) = k tt (BufCall (f b) q).
Proof. done. Qed.

Lemma load_bytes_app pre bs post off n :
  off = blen pre -> n = blen bs -> load_bytes (Some (pre ++ bs ++ post)) off n = Some bs.
Proof.
  intros -> ->. unfold load_bytes. destruct (Z.eqb_spec (blen bs) 0) as [E|E].
  { by rewrite (blen_inv_nil bs E). }
  cbn [mbind option_bind]. pose proof (blen_nonneg pre). pose proof (blen_nonneg bs). pose proof (blen_nonneg post).
  assert (blen (pre ++ bs ++ post) = blen pre + blen bs + blen post) as -> by (rewrite !blen_app; lia).
  rewrite !(proj2 (Z.leb_le _ _)) by lia. cbn [andb].
  by rewrite drop_blen_app, take_blen_app.
Qed.

Lemma store_bytes_app pre old post bs off :
  off = blen pre -> blen old = blen bs ->
  store_bytes (Some (pre ++ old ++ post)) off bs = Some (Some (pre ++ bs ++ post)).
Proof.
  intros -> Ho. unfold store_bytes. destruct (Z.eqb_spec (blen bs) 0) as [E|E].
  { rewrite E in Ho. by rewrite (blen_inv_nil bs E), (blen_inv_nil old Ho). }
  cbn [mbind option_bind]. pose proof (blen_nonneg pre). pose proof (blen_nonneg post).
  rewrite !blen_app, Ho, !(proj2 (Z.leb_le _ _)) by lia. cbn [andb].
  by rewrite write_at_app.
Qed.

Section BufSpec.
Context {m : Malloc} {ml : MallocLaws m}.

(** [OPENSSL_realloc] keeps a prefix that fits. *)
Lemma realloc_prefix o c n :
  match o with None => c = [] | Some d => exists rest, d = c ++ rest end -> blen c <= n ->
  match OPENSSL_realloc o n with
  | None => OPENSSL_malloc n = None
  | Some d => is_Some (OPENSSL_malloc n) /\ blen d = n /\ exists rest, d = c ++ rest
  end.
Proof.
  intros Ho Hc. pose proof (blen_nonneg c). destruct (OPENSSL_realloc o n) as [d|] eqn:E.
  - destruct o as [old|].
    + destruct Ho as [rest ->]. split; [cbn in E; destruct (OPENSSL_malloc n); [eauto|done]|].
      apply OPENSSL_realloc_Some in E as [Hn Ht]; [|lia]. split; [done|].
      specialize (Ht (blen c)). rewrite take_blen_app in Ht.
      exists (drop (Z.to_nat (blen c)) d). rewrite <-Ht at 1 by (rewrite ?blen_app; blia). by rewrite take_drop.
    + cbn in E. split; [eauto|]. split; [eapply OPENSSL_malloc_Some; [|done]; lia|]. subst c. by exists d.
  - destruct o; cbn in E; [|done]. by destruct (OPENSSL_malloc n).
Qed.

Lemma BUF_MEM_reserve_ok cap b q c :
  buf_owns b c -> 0 <= cap < 2 ^ 64 -> exists b',
  BUF_MEM_reserve cap (BufCall b q) =
    (Some (if can_reserve cap b then 1 else 0),
     BufCall b' (if can_reserve cap b then q else BUF_R_MALLOC_FAILURE :: q)) /\ buf_owns b' c /\
  (if can_reserve cap b then cap <= buf_max b' else b' = b).
Proof.
  intros [Hl Ha Hm Hd] Hcap. unfold BUF_MEM_reserve, can_reserve. rewrite get_bmem_bind.
  destruct (Z.leb_spec cap (buf_max b)) as [E|E]; cbn [orb].
  { exists b. split; [done|]. by split. }
  assert (u64 (cap + 3) <? cap = true <-> 2 ^ 64 <= cap + 3) as Hov.
  { unfold wrap. rewrite Z.ltb_lt. pow2. destruct (decide (cap + 3 < 18446744073709551616)); zdiv. }
  destruct (u64 (cap + 3) <? cap) eqn:E1.
  { assert (reserve_size cap <? 2 ^ 64 = false) as ->.
    { apply Z.ltb_ge. unfold reserve_size. pose proof (proj1 Hov eq_refl). pow2. zdiv. }
    exists b. split; [done|]. by split. }
  assert (cap + 3 < 2 ^ 64) as Hc by (destruct (Z.ltb_spec (cap + 3) (2 ^ 64)); [lia|]; naive_solver).
  rewrite (wrap_small 64 (cap + 3)) by (split; lia).
  change ((cap + 3) / 3 * 4) with (reserve_size cap).
  assert (u64 (reserve_size cap) / 4 =? (cap + 3) / 3 = (reserve_size cap <? 2 ^ 64)) as ->.
  { unfold wrap, reserve_size. pow2. destruct (Z.ltb_spec ((cap + 3) / 3 * 4) 18446744073709551616);
      [apply Z.eqb_eq; zdiv|apply Z.eqb_neq; zdiv]. }
  destruct (Z.ltb_spec (reserve_size cap) (2 ^ 64)) as [E2|E2]; cbn [negb andb];
    [|exists b; split; [done|]; by split].
  pose proof (reserve_size_bounds cap). rewrite (wrap_small 64 (reserve_size cap)) by (split; lia).
  rewrite mopt_bind. unfold realloc_ptr. rewrite Ha. cbn [Z.eqb].
  destruct (OPENSSL_realloc (object (buf_data b)) (reserve_size cap)) as [d|] eqn:Er; cbn [fmap option_fmap option_map].
  all: pose proof (realloc_prefix (object (buf_data b)) c (reserve_size cap)) as Hr; rewrite Er in Hr.
  all: assert (blen c <= reserve_size cap) by
    (destruct (object (buf_data b)) as [old|]; [destruct Hd as (Hb & rest & ->); rewrite blen_app in Hb; blia|];
     destruct Hd as [? ->]; rewrite blen_nil; lia).
  all: assert (match object (buf_data b) with None => c = [] | Some d => exists rest, d = c ++ rest end)
    by (destruct (object (buf_data b)); apply Hd).
  - destruct Hr as (Hs & Hn & Hp); [done..|].
    rewrite bool_decide_eq_true_2 by done. rewrite !upd_bmem_bind. eexists. split; [done|].
    split; [|cbn; lia]. split; cbn; [done|done|lia|done].
  - rewrite bool_decide_eq_false_2; [exists b; split; [done|]; by split|].
    rewrite Hr; [by intros []|done..].
Qed.

(** Storing behind the contents. *)
Lemma store_behind b c bs n :
  buf_owns b c -> blen c + blen bs <= buf_max b -> n = blen c + blen bs -> exists d,
  ptr_store (buf_data b) (buf_length b) bs = Some d /\
  buf_owns (set_buf_length n (set_buf_data d b)) (c ++ bs).
Proof.
  intros [Hl Ha Hm Hd] Hle ->. unfold ptr_store. rewrite Ha, Hl.
  destruct (object (buf_data b)) as [d|].
  - destruct Hd as [Hb [rest ->]]. rewrite blen_app in Hb.
    rewrite <-(take_drop (Z.to_nat (blen bs)) rest).
    assert (blen (take (Z.to_nat (blen bs)) rest) = blen bs) by (apply blen_take; blia).
    erewrite store_bytes_app by (done || lia). cbn. eexists. split; [done|].
    split; cbn; [by rewrite blen_app|done|done|]. split; [|eexists; apply app_assoc].
    rewrite !blen_app, blen_drop; blia.
  - destruct Hd as [Hb ->]. rewrite Hb, blen_nil in Hle. pose proof (blen_nonneg bs).
    assert (bs = []) as -> by (apply blen_inv_nil; lia).
    cbn. eexists. split; [done|]. by split; cbn.
Qed.

Lemma BUF_MEM_grow_ok n b q c :
  buf_owns b c -> 0 <= n < 2 ^ 64 -> exists b',
  BUF_MEM_grow n (BufCall b q) =
    (Some (if can_reserve n b then n else 0),
     BufCall b' (if can_reserve n b then q else BUF_R_MALLOC_FAILURE :: q)) /\
  buf_owns b' (if can_reserve n b then resize (Z.to_nat n) 0 c else c) /\
  (if can_reserve n b then True else b' = b).
Proof.
  intros Ho Hn. destruct (BUF_MEM_reserve_ok n b q c Ho Hn) as (b1 & E & Ho1 & Hmax).
  unfold BUF_MEM_grow. rewrite (bind_ok _ _ _ _ _ E). destruct (can_reserve n b) eqn:Ec; [|subst b1; by exists b].
  cbn [Z.eqb]. rewrite get_bmem_bind, (owns_length _ _ Ho1). destruct (Z.ltb_spec (blen c) n).
  - edestruct (store_behind b1 c (replicate (Z.to_nat (n - blen c)) 0) n Ho1) as (d & Es & Ho2);
      [rewrite blen_replicate; lia..|].
    rewrite (owns_length _ _ Ho1) in Es. erewrite bind_ok by (rewrite mopt_bind, Es; done).
    eexists. split; [done|]. split; [|done].
    rewrite resize_ge by (unfold blen in *; lia).
    replace (Z.to_nat n - length c)%nat with (Z.to_nat (n - blen c)) by (unfold blen; lia). done.
  - rewrite bind_ret. eexists. split; [done|]. split; [|done].
    rewrite resize_le by (unfold blen in *; lia).
    destruct Ho1 as [Hl Ha Hm Hd]. split; cbn; [rewrite blen_take; lia|done|done|].
    destruct (object (buf_data b1)); [|by destruct Hd as [? ->]; rewrite take_nil].
    destruct Hd as [? [rest ->]]. split; [done|].
    exists (drop (Z.to_nat n) c ++ rest). by rewrite app_assoc, take_drop.
Qed.

Definition append_fits (bs c : list Z) (b : BUF_MEM) : bool :=
  (blen bs =? 0) || ((blen c + blen bs <? 2 ^ 64) && can_reserve (blen c + blen bs) b).

Lemma BUF_MEM_append_ok bs b q c :
  buf_owns b c -> blen bs < 2 ^ 64 -> exists b',
  BUF_MEM_append bs (BufCall b q) =
    (Some (if append_fits bs c b then 1 else 0),
     BufCall b' (if append_fits bs c b then q
                 else if blen c + blen bs <? 2 ^ 64 then BUF_R_MALLOC_FAILURE :: q else BUF_R_OVERFLOW :: q)) /\
  buf_owns b' (if append_fits bs c b then c ++ bs else c).
Proof.
  intros Ho Hb. unfold BUF_MEM_append, append_fits. destruct (Z.eqb_spec (blen bs) 0) as [E|E]; cbn [orb].
  { rewrite (blen_inv_nil bs E), app_nil_r. by exists b. }
  rewrite get_bmem_bind, (owns_length _ _ Ho).
  assert (0 <= blen c < 2 ^ 64) as Hc.
  { split; [apply blen_nonneg|]. destruct Ho as [_ _ Hm Hd]. destruct (object (buf_data b)).
    - destruct Hd as [? [rest ->]]. rewrite blen_app in *. blia.
    - destruct Hd as [_ ->]. done. }
  pose proof (blen_nonneg bs).
  assert (u64 (blen c + blen bs) <? blen bs = negb (blen c + blen bs <? 2 ^ 64)) as ->.
  { unfold wrap. pow2. destruct (Z.ltb_spec (blen c + blen bs) 18446744073709551616); cbn [negb];
      [apply Z.ltb_ge|apply Z.ltb_lt]; zdiv. }
  destruct (Z.ltb_spec (blen c + blen bs) (2 ^ 64)); cbn [negb andb]; [|by exists b].
  rewrite (wrap_small 64 (_ + _)) by (split; lia).
  destruct (BUF_MEM_reserve_ok (blen c + blen bs) b q c Ho ltac:(lia)) as (b1 & E1 & Ho1 & Hmax).
  rewrite (bind_ok _ _ _ _ _ E1). destruct (can_reserve (blen c + blen bs) b); [|subst b1; by exists b].
  cbn [Z.eqb]. rewrite get_bmem_bind.
  destruct (store_behind b1 c bs _ Ho1 Hmax eq_refl) as (d & Es & Ho2).
  rewrite mopt_bind, Es. by eexists.
Qed.
End BufSpec.
