(* ===== verification/Bio.v ===== *)
(** crypto/bio/bio.c: [BIO], the abstract byte stream.

    The BIOs live in a heap by address, since they point at each other (the
    peers of a pair, the next BIO of a chain); a freed BIO is not in the heap.
    [bio->ptr], which only the BIO's method interprets, is the half of a pair,
    or the address of a [BUF_MEM]. A [BIO_METHOD] is a table of functions; the
    tables are the interface [BioMethods], which bio_pair and bio_mem implement
    in files of their own. The functions run in the error-state monad over the
    heap, and failure is undefined behaviour or a failed assertion: an access
    to something that is not there, or outside of a buffer. The error queue is
    part of the heap, newest entry first.

    A caller's buffer is [None] for NULL, or its contents; a function that
    writes to it returns the contents afterwards. *)

From S2P Require Import Prelude CryptoInternal Buf.

Abbreviation loc := nat.

Definition INT_MAX : Z := 2147483647.

(** * Data *)

(** pair.c: what is written to this half; the peer reads it. *)
Record bio_bio_st := BioBio {
  b_peer : option loc;
  b_closed : Z;
  b_len : Z;
  b_offset : Z;
  b_size : Z;
  b_buf : option (list Z);
  b_request : Z
}.

Inductive void_ptr := NULL_void | BioBioPtr (b : bio_bio_st) | BufMemPtr (l : loc).

Inductive bio_method := methods_biop | mem_method.
#[export] Instance bio_method_eq_dec : EqDecision bio_method.
Proof. solve_decision. Defined.

(** [method] is NULL for [None]. *)
Record BIO := Bio {
  method : option bio_method;
  init : Z;
  shutdown : Z;
  flags : Z;
  retry_reason : Z;
  num : Z;
  references : Z;
  ptr : void_ptr;
  next_bio : option loc;
  num_read : Z;
  num_write : Z
}.

Inductive bio_error :=
  | BIO_R_UNSUPPORTED_METHOD | BIO_R_UNINITIALIZED | BIO_R_BROKEN_PIPE | BIO_R_IN_USE
  | BIO_R_NULL_PARAMETER | BIO_R_WRITE_TO_READ_ONLY_BIO | ERR_R_MALLOC_FAILURE
  | ASN1_R_HEADER_TOO_LONG | ASN1_R_NOT_ENOUGH_DATA | ASN1_R_DECODE_ERROR | ASN1_R_TOO_LONG | ERR_BUF (e : buf_error).
#[export] Instance bio_error_eq_dec : EqDecision bio_error.
Proof. solve_decision. Defined.

(** [requests] counts the allocations, so that any of them may be refused;
    [pair_blocks] the blocks that pair.c has allocated, the halves and their ring
    buffers, and not yet freed. *)
Record bio_heap := BioHeap {
  bios : gmap loc BIO;
  bufs : gmap loc BUF_MEM;
  errors : list bio_error;
  requests : nat;
  pair_blocks : Z
}.

Abbreviation B := (M bio_heap).

(** * Fields *)

Definition set_init (v : Z) (b : BIO) : BIO :=
  Bio (method b) v (shutdown b) (flags b) (retry_reason b) (num b) (references b) (ptr b) (next_bio b) (num_read b) (num_write b).
Definition set_shutdown (v : Z) (b : BIO) : BIO :=
  Bio (method b) (init b) v (flags b) (retry_reason b) (num b) (references b) (ptr b) (next_bio b) (num_read b) (num_write b).
Definition set_flags (v : Z) (b : BIO) : BIO :=
  Bio (method b) (init b) (shutdown b) v (retry_reason b) (num b) (references b) (ptr b) (next_bio b) (num_read b) (num_write b).
Definition set_reason (v : Z) (b : BIO) : BIO :=
  Bio (method b) (init b) (shutdown b) (flags b) v (num b) (references b) (ptr b) (next_bio b) (num_read b) (num_write b).
Definition set_num (v : Z) (b : BIO) : BIO :=
  Bio (method b) (init b) (shutdown b) (flags b) (retry_reason b) v (references b) (ptr b) (next_bio b) (num_read b) (num_write b).
Definition set_references (v : Z) (b : BIO) : BIO :=
  Bio (method b) (init b) (shutdown b) (flags b) (retry_reason b) (num b) v (ptr b) (next_bio b) (num_read b) (num_write b).
Definition set_ptr (v : void_ptr) (b : BIO) : BIO :=
  Bio (method b) (init b) (shutdown b) (flags b) (retry_reason b) (num b) (references b) v (next_bio b) (num_read b) (num_write b).
Definition set_next_bio (v : option loc) (b : BIO) : BIO :=
  Bio (method b) (init b) (shutdown b) (flags b) (retry_reason b) (num b) (references b) (ptr b) v (num_read b) (num_write b).
Definition set_num_read (v : Z) (b : BIO) : BIO :=
  Bio (method b) (init b) (shutdown b) (flags b) (retry_reason b) (num b) (references b) (ptr b) (next_bio b) v (num_write b).
Definition set_num_write (v : Z) (b : BIO) : BIO :=
  Bio (method b) (init b) (shutdown b) (flags b) (retry_reason b) (num b) (references b) (ptr b) (next_bio b) (num_read b) v.

Definition set_bios (v : gmap loc BIO) (s : bio_heap) : bio_heap := BioHeap v (bufs s) (errors s) (requests s) (pair_blocks s).
Definition set_bufs (v : gmap loc BUF_MEM) (s : bio_heap) : bio_heap := BioHeap (bios s) v (errors s) (requests s) (pair_blocks s).
Definition set_errors (v : list bio_error) (s : bio_heap) : bio_heap := BioHeap (bios s) (bufs s) v (requests s) (pair_blocks s).
Definition set_requests (v : nat) (s : bio_heap) : bio_heap := BioHeap (bios s) (bufs s) (errors s) v (pair_blocks s).
Definition set_pair_blocks (v : Z) (s : bio_heap) : bio_heap := BioHeap (bios s) (bufs s) (errors s) (requests s) v.

(** * Memory *)

Definition get_bio (x : loc) : B BIO := s ← mget; mopt (bios s !! x).
Definition set_bio (x : loc) (b : BIO) : B unit := mmodify (fun s => set_bios (<[x := b]> (bios s)) s).
Definition upd_bio (x : loc) (f : BIO -> BIO) : B unit := b ← get_bio x; set_bio x (f b).

Definition put_error (e : bio_error) : B unit := mmodify (fun s => set_errors (e :: errors s) s).

Definition next_request : B nat :=
  s ← mget; _ ← mput (set_requests (S (requests s)) s); mret (requests s).

(** [OPENSSL_malloc]; the block's address is the caller's affair. *)
Definition bio_malloc `{Mallocs} (n : Z) : B (option (list Z)) :=
  i ← next_request; mret (@OPENSSL_malloc (nth_malloc i) n).

(** A caller's buffer after [bs] was stored at [off]. *)
Definition store_at (buf : option (list Z)) (off : Z) (bs : list Z) : B (option (list Z)) :=
  mopt (store_bytes buf off bs).
Definition load_at (buf : option (list Z)) (off n : Z) : B (list Z) := mopt (load_bytes buf off n).

(** The buffer from [off] on. *)
Definition buf_from (buf : option (list Z)) (off : Z) : option (list Z) := drop (Z.to_nat off) <$> buf.
(** [rest] put back behind the first [off] bytes. *)
Definition buf_join (buf : option (list Z)) (off : Z) (rest : option (list Z)) : option (list Z) :=
  match buf, rest with Some b, Some r => Some (take (Z.to_nat off) b ++ r) | _, _ => buf end.

(** * Methods *)

Definition BIO_FLAGS_READ : Z := 1.
Definition BIO_FLAGS_WRITE : Z := 2.
Definition BIO_FLAGS_IO_SPECIAL : Z := 4.
Definition BIO_FLAGS_RWS : Z := Z.lor (Z.lor BIO_FLAGS_READ BIO_FLAGS_WRITE) BIO_FLAGS_IO_SPECIAL.
Definition BIO_FLAGS_SHOULD_RETRY : Z := 8.
Definition BIO_FLAGS_MEM_RDONLY : Z := 512.

Definition BIO_TYPE_MEM : Z := 1025.
Definition BIO_TYPE_BIO : Z := 1043.

Definition BIO_CTRL_RESET : Z := 1.
Definition BIO_CTRL_EOF : Z := 2.
Definition BIO_CTRL_INFO : Z := 3.
Definition BIO_CTRL_GET_CLOSE : Z := 8.
Definition BIO_CTRL_SET_CLOSE : Z := 9.
Definition BIO_CTRL_PENDING : Z := 10.
Definition BIO_CTRL_FLUSH : Z := 11.
Definition BIO_CTRL_WPENDING : Z := 13.
Definition BIO_C_SET_BUF_MEM : Z := 114.
Definition BIO_C_GET_BUF_MEM_PTR : Z := 115.
Definition BIO_C_SET_BUF_MEM_EOF_RETURN : Z := 130.
Definition BIO_C_GET_WRITE_BUF_SIZE : Z := 137.
Definition BIO_C_GET_WRITE_GUARANTEE : Z := 140.
Definition BIO_C_GET_READ_REQUEST : Z := 141.
Definition BIO_C_SHUTDOWN_WR : Z := 142.
Definition BIO_C_RESET_READ_REQUEST : Z := 147.

(** The [void *] argument of a control: NULL, a BIO, a [BUF_MEM], or the
    address of a pointer that the control sets. *)
Inductive ctrl_arg := ArgNull | ArgBio (x : loc) | ArgBuf (l : loc) | ArgOut.
Inductive ctrl_out := OutNone | OutData (p : char_ptr) | OutBuf (l : loc).

Record BIO_METHOD := BioMethod {
  type : Z;
  bwrite : option (loc -> option (list Z) -> Z -> B Z);
  bread : option (loc -> option (list Z) -> Z -> B (Z * option (list Z)));
  bgets : option (loc -> option (list Z) -> Z -> B (Z * option (list Z)));
  ctrl : option (loc -> Z -> Z -> ctrl_arg -> B (Z * ctrl_out));
  create : option (loc -> B Z);
  destroy : option (loc -> B Z)
}.

Class BioMethods := bio_methods : bio_method -> BIO_METHOD.

(** * Reference counts (refcount_lock.c, refcount_c11.c)

    Reaching zero aborts before it wraps; the largest count is for ever. *)
Definition CRYPTO_REFCOUNT_MAX : Z := 0xffffffff.

Definition CRYPTO_refcount_inc (count : Z) : Z :=
  if count <? CRYPTO_REFCOUNT_MAX then count + 1 else count.

(** [None] is the abort; otherwise whether the count is zero, and the count. *)
Definition CRYPTO_refcount_dec_and_test_zero (count : Z) : option (bool * Z) :=
  if count =? 0 then None
  else
    let count := if count <? CRYPTO_REFCOUNT_MAX then count - 1 else count in
    Some (count =? 0, count).

(** * bio.c *)

Definition sizeof_BIO : Z := 88.

Section Flags.

Definition kRetryFlags : Z := Z.lor BIO_FLAGS_RWS BIO_FLAGS_SHOULD_RETRY.

Definition BIO_set_flags (bio : loc) (f : Z) : B unit :=
  upd_bio bio (fun b => set_flags (Z.lor (flags b) f) b).
Definition BIO_test_flags (bio : loc) (f : Z) : B Z :=
  b ← get_bio bio; mret (Z.land (flags b) f).
Definition BIO_should_read (bio : loc) : B Z := BIO_test_flags bio BIO_FLAGS_READ.
Definition BIO_should_write (bio : loc) : B Z := BIO_test_flags bio BIO_FLAGS_WRITE.
Definition BIO_should_retry (bio : loc) : B Z := BIO_test_flags bio BIO_FLAGS_SHOULD_RETRY.
Definition BIO_should_io_special (bio : loc) : B Z := BIO_test_flags bio BIO_FLAGS_IO_SPECIAL.
Definition BIO_get_retry_reason (bio : loc) : B Z := b ← get_bio bio; mret (retry_reason b).
Definition BIO_set_retry_reason (bio : loc) (reason : Z) : B unit := upd_bio bio (set_reason reason).
Definition BIO_clear_flags (bio : loc) (f : Z) : B unit :=
  upd_bio bio (fun b => set_flags (Z.land (flags b) (Z.lnot f)) b).
Definition BIO_set_retry_read (bio : loc) : B unit :=
  upd_bio bio (fun b => set_flags (Z.lor (flags b) (Z.lor BIO_FLAGS_READ BIO_FLAGS_SHOULD_RETRY)) b).
Definition BIO_set_retry_write (bio : loc) : B unit :=
  upd_bio bio (fun b => set_flags (Z.lor (flags b) (Z.lor BIO_FLAGS_WRITE BIO_FLAGS_SHOULD_RETRY)) b).
Definition BIO_get_retry_flags (bio : loc) : B Z :=
  b ← get_bio bio; mret (Z.land (flags b) kRetryFlags).
Definition BIO_clear_retry_flags (bio : loc) : B unit :=
  _ ← upd_bio bio (fun b => set_flags (Z.land (flags b) (Z.lnot kRetryFlags)) b);
  upd_bio bio (set_reason 0).
Definition BIO_set_retry_special (bio : loc) : B unit :=
  upd_bio bio (fun b => set_flags (Z.lor (flags b) (Z.lor BIO_FLAGS_READ BIO_FLAGS_IO_SPECIAL)) b).

Definition BIO_copy_next_retry (bio : loc) : B unit :=
  _ ← BIO_clear_retry_flags bio;
  b ← get_bio bio;
  next ← mopt (next_bio b);
  f ← BIO_get_retry_flags next;
  _ ← BIO_set_flags bio f;
  n ← get_bio next;
  upd_bio bio (set_reason (retry_reason n)).
End Flags.

Section Bio.
Context {ms : Mallocs} {mt : BioMethods}.

(** [bio->method] and a function of its table, where both are there. *)
Definition bio_method_fn {F} (f : BIO_METHOD -> option F) (b : BIO) : option F :=
  m ← method b; f (bio_methods m).

Definition BIO_new (m : bio_method) : B (option loc) :=
  ret ← bio_malloc sizeof_BIO;
  match ret with
  | None => _ ← put_error ERR_R_MALLOC_FAILURE; mret None
  | Some _ =>
      s ← mget;
      let x := fresh (dom (bios s)) in
      _ ← set_bio x (Bio (Some m) 0 1 0 0 0 1 NULL_void None 0 0);
      ok ← (match create (bio_methods m) with None => mret 1 | Some create => create x end);
      if ok =? 0 then
        _ ← mmodify (fun s => set_bios (delete x (bios s)) s);
        mret None
      else mret (Some x)
  end.

(** [BIO_pop] of a BIO that is not NULL. *)
Definition BIO_pop (bio : loc) : B (option loc) :=
  b ← get_bio bio;
  _ ← set_bio bio (set_next_bio None b);
  mret (next_bio b).

(** The loop frees one BIO in each iteration, so their number is fuel enough. *)
Fixpoint BIO_free_loop (fuel : nat) (bio : option loc) : B Z :=
  match bio with
  | None => mret 1
  | Some bio =>
      match fuel with
      | O => mfail
      | S fuel =>
          b ← get_bio bio;
          '(zero, count) ← mopt (CRYPTO_refcount_dec_and_test_zero (references b));
          _ ← set_bio bio (set_references count b);
          if negb zero then mret 0
          else
            next ← BIO_pop bio;
            b ← get_bio bio;
            _ ← (match bio_method_fn destroy b with None => mret 1 | Some destroy => destroy bio end);
            _ ← mmodify (fun s => set_bios (delete bio (bios s)) s);
            BIO_free_loop fuel next
      end
  end.

Definition BIO_free (bio : option loc) : B Z :=
  s ← mget; BIO_free_loop (S (size (bios s))) bio.

Definition BIO_up_ref (bio : loc) : B Z :=
  _ ← upd_bio bio (fun b => set_references (CRYPTO_refcount_inc (references b)) b);
  mret 1.

Definition BIO_vfree (bio : option loc) : B Z := BIO_free bio.
Definition BIO_free_all (bio : option loc) : B Z := BIO_free bio.

(** [BIO_read] and [BIO_gets] differ in the method they call. *)
Definition bio_read_via (f : BIO_METHOD -> option (loc -> option (list Z) -> Z -> B (Z * option (list Z))))
    (bio : option loc) (buf : option (list Z)) (len : Z) : B (Z * option (list Z)) :=
  match bio with
  | None => _ ← put_error BIO_R_UNSUPPORTED_METHOD; mret (-2, buf)
  | Some bio =>
      b ← get_bio bio;
      match bio_method_fn f b with
      | None => _ ← put_error BIO_R_UNSUPPORTED_METHOD; mret (-2, buf)
      | Some f =>
          if init b =? 0 then _ ← put_error BIO_R_UNINITIALIZED; mret (-2, buf)
          else if len <=? 0 then mret (0, buf)
          else
            '(ret, buf) ← f bio buf len;
            _ ← (if 0 <? ret then upd_bio bio (fun b => set_num_read (u64 (num_read b + ret)) b) else mret tt);
            mret (ret, buf)
      end
  end.

Definition BIO_read := bio_read_via bread.
Definition BIO_gets := bio_read_via bgets.

Definition BIO_write (bio : option loc) (buf : option (list Z)) (inl : Z) : B Z :=
  match bio with
  | None => _ ← put_error BIO_R_UNSUPPORTED_METHOD; mret (-2)
  | Some bio =>
      b ← get_bio bio;
      match bio_method_fn bwrite b with
      | None => _ ← put_error BIO_R_UNSUPPORTED_METHOD; mret (-2)
      | Some f =>
          if init b =? 0 then _ ← put_error BIO_R_UNINITIALIZED; mret (-2)
          else if inl <=? 0 then mret 0
          else
            ret ← f bio buf inl;
            _ ← (if 0 <? ret then upd_bio bio (fun b => set_num_write (u64 (num_write b + ret)) b) else mret tt);
            mret ret
      end
  end.

(** Every iteration writes at least one byte. *)
Fixpoint BIO_write_all_loop (fuel : nat) (bio : option loc) (data : list Z) (len : Z) : B Z :=
  if 0 <? len then
    match fuel with
    | O => mfail
    | S fuel =>
        ret ← BIO_write bio (Some data) (if INT_MAX <? len then INT_MAX else len);
        if ret <=? 0 then mret 0
        else BIO_write_all_loop fuel bio (drop (Z.to_nat ret) data) (u64 (len - ret))
    end
  else mret 1.

Definition BIO_write_all (bio : option loc) (data : list Z) (len : Z) : B Z :=
  BIO_write_all_loop (Z.to_nat len) bio data len.

(** A C string is its characters before the NUL. *)
Definition BIO_puts (bio : option loc) (str : list Z) : B Z :=
  BIO_write bio (Some str) (s32 (OPENSSL_strnlen str)).

Definition BIO_ctrl (bio : option loc) (cmd larg : Z) (parg : ctrl_arg) : B (Z * ctrl_out) :=
  match bio with
  | None => mret (0, OutNone)
  | Some bio =>
      b ← get_bio bio;
      match bio_method_fn ctrl b with
      | None => _ ← put_error BIO_R_UNSUPPORTED_METHOD; mret (-2, OutNone)
      | Some f => f bio cmd larg parg
      end
  end.

Definition BIO_flush (bio : option loc) : B Z := '(r, _) ← BIO_ctrl bio BIO_CTRL_FLUSH 0 ArgNull; mret (s32 r).
Definition BIO_reset (bio : option loc) : B Z := '(r, _) ← BIO_ctrl bio BIO_CTRL_RESET 0 ArgNull; mret (s32 r).
Definition BIO_eof (bio : option loc) : B Z := '(r, _) ← BIO_ctrl bio BIO_CTRL_EOF 0 ArgNull; mret (s32 r).

(** The assertion that the result is not negative is executed. *)
Definition BIO_pending (bio : option loc) : B Z :=
  '(r, _) ← BIO_ctrl bio BIO_CTRL_PENDING 0 ArgNull;
  _ ← massert (0 <=? r);
  mret (if r <? 0 then 0 else r).
Definition BIO_ctrl_pending (bio : option loc) : B Z := BIO_pending bio.
Definition BIO_wpending (bio : option loc) : B Z :=
  '(r, _) ← BIO_ctrl bio BIO_CTRL_WPENDING 0 ArgNull;
  _ ← massert (0 <=? r);
  mret (if r <? 0 then 0 else r).
Definition BIO_set_close (bio : option loc) (close_flag : Z) : B Z :=
  '(r, _) ← BIO_ctrl bio BIO_CTRL_SET_CLOSE close_flag ArgNull; mret (s32 r).
Definition BIO_number_read (bio : loc) : B Z := b ← get_bio bio; mret (num_read b).
Definition BIO_number_written (bio : loc) : B Z := b ← get_bio bio; mret (num_write b).

(** Chains of BIOs. *)
Fixpoint BIO_push_loop (fuel : nat) (last_bio : loc) (appended_bio : option loc) : B unit :=
  match fuel with
  | O => mfail
  | S fuel =>
      b ← get_bio last_bio;
      match next_bio b with
      | Some next => BIO_push_loop fuel next appended_bio
      | None => set_bio last_bio (set_next_bio appended_bio b)
      end
  end.

Definition BIO_push (bio appended_bio : option loc) : B (option loc) :=
  match bio with
  | None => mret None
  | Some b =>
      s ← mget;
      _ ← BIO_push_loop (size (bios s)) b appended_bio;
      mret (Some b)
  end.

Definition BIO_next (bio : option loc) : B (option loc) :=
  match bio with None => mret None | Some bio => b ← get_bio bio; mret (next_bio b) end.

Definition BIO_method_type (bio : loc) : B Z :=
  b ← get_bio bio; m ← mopt (method b); mret (type (bio_methods m)).

Fixpoint BIO_find_type_loop (fuel : nat) (bio : loc) (t : Z) : B (option loc) :=
  match fuel with
  | O => mfail
  | S fuel =>
      b ← get_bio bio;
      let mask := Z.land t 0xff in
      let found := match method b with
        | None => false
        | Some m =>
            let method_type := type (bio_methods m) in
            if mask =? 0 then negb (Z.land method_type t =? 0) else method_type =? t
        end in
      if found then mret (Some bio)
      else match next_bio b with None => mret None | Some next => BIO_find_type_loop fuel next t end
  end.

Definition BIO_find_type (bio : option loc) (t : Z) : B (option loc) :=
  match bio with
  | None => mret None
  | Some b => s ← mget; BIO_find_type_loop (size (bios s)) b t
  end.

Definition BIO_indent (bio : option loc) (indent max_indent : Z) : B Z :=
  let indent := if max_indent <? indent then max_indent else indent in
  (fix loop (n : nat) : B Z :=
     match n with
     | O => mret 1
     | S n =>
         ret ← BIO_puts bio [32; 0];
         if negb (ret =? 1) then mret 0 else loop n
     end) (Z.to_nat indent).

(** * Reading whole objects *)

(** The loop gets at least one byte in each iteration. The result is what was
    read, and for a failure whether the first read had returned zero. *)
Fixpoint bio_read_full_loop (fuel : nat) (bio : option loc) (out : option (list Z)) (pos len : Z) (first_read : bool)
    : B (bool * bool * option (list Z)) :=
  if 0 <? len then
    match fuel with
    | O => mfail
    | S fuel =>
        let todo := if len <=? INT_MAX then len else INT_MAX in
        '(ret, rest) ← BIO_read bio (buf_from out pos) todo;
        let out := buf_join out pos rest in
        if ret <=? 0 then mret (false, first_read && (ret =? 0), out)
        else bio_read_full_loop fuel bio out (pos + ret) (u64 (len - ret)) false
    end
  else mret (true, false, out).

Definition bio_read_full (bio : option loc) (out : option (list Z)) (pos len : Z) : B (bool * bool * option (list Z)) :=
  bio_read_full_loop (Z.to_nat len) bio out pos len true.

Definition kChunkSize : Z := 4096.

(** [done] bytes of the [len] bytes of [out] are in use. *)
Fixpoint bio_read_all_loop (fuel : nat) (bio : option loc) (out : list Z) (len done max_len : Z)
    : B (option (list Z * Z)) :=
  match fuel with
  | O => mfail
  | S fuel =>
      if done =? len then mret None
      else
        let todo := u64 (len - done) in
        _ ← massert (todo <? INT_MAX);
        '(n, rest) ← BIO_read bio (buf_from (Some out) done) (s32 todo);
        let out := default out (buf_join (Some out) done rest) in
        if n =? 0 then mret (Some (out, done))
        else if n =? -1 then mret None
        else
          let done := u64 (done + n) in
          if (len <? max_len) && (u64 (len - done) <? kChunkSize / 2) then
            let len := u64 (len + kChunkSize) in
            let len := if (len <? kChunkSize) || (max_len <? len) then max_len else len in
            i ← next_request;
            match @OPENSSL_realloc (nth_malloc i) (Some out) len with
            | None => mret None
            | Some out => bio_read_all_loop fuel bio out len done max_len
            end
          else bio_read_all_loop fuel bio out len done max_len
  end.

Definition bio_read_all (bio : option loc) (prefix : list Z) (max_len : Z) : B (option (list Z * Z)) :=
  let prefix_len := blen prefix in
  let len := u64 (prefix_len + kChunkSize) in
  let len := if max_len <? len then max_len else len in
  if len <? prefix_len then mret None
  else
    out ← bio_malloc len;
    match out with
    | None => mret None
    | Some _ =>
        out ← store_at out 0 prefix;
        bio_read_all_loop (S (Z.to_nat (max_len - prefix_len))) bio (default [] out) len prefix_len max_len
    end.

(** The header of a DER element, as far as [BIO_read_asn1] needs it: the result
    is the whole element, or [None] after an error; an indefinite length takes
    all there is. *)
Definition BIO_read_asn1 (bio : option loc) (max_len : Z) : B (option (list Z * Z)) :=
  let fail (e : bio_error) : B (option (list Z * Z)) := (_ ← put_error e; mret None) in
  let kInitialHeaderLen := 2 in
  read ← bio_read_full bio (Some (replicate 6 0)) 0 kInitialHeaderLen;
  let '(ok, eof_on_first_read, header) := read : bool * bool * option (list Z) in
  let header := default [] header in
  if negb ok then fail (if eof_on_first_read then ASN1_R_HEADER_TOO_LONG else ASN1_R_NOT_ENOUGH_DATA)
  else
    let tag := nth 0 header 0 in
    let length_byte := nth 1 header 0 in
    if Z.land tag 0x1f =? 0x1f then fail ASN1_R_DECODE_ERROR
    else
      let finish (header : list Z) (len header_len : Z) : B (option (list Z * Z)) :=
        if (u64 (len + header_len) <? len) || (max_len <? u64 (len + header_len)) || (INT_MAX <? len)
        then fail ASN1_R_TOO_LONG
        else
          let len := u64 (len + header_len) in
          out ← bio_malloc len;
          match out with
          | None => fail ERR_R_MALLOC_FAILURE
          | Some _ =>
              out ← store_at out 0 (take (Z.to_nat header_len) header);
              '(ok, _, out) ← bio_read_full bio out header_len (u64 (len - header_len));
              if negb ok then fail ASN1_R_NOT_ENOUGH_DATA else mret (Some (default [] out, len))
          end in
      if Z.land length_byte 0x80 =? 0 then finish header length_byte kInitialHeaderLen
      else
        let num_bytes := Z.land length_byte 0x7f in
        if negb (Z.land tag 0x20 =? 0) && (num_bytes =? 0) then
          out ← bio_read_all bio (take 2 header) max_len;
          match out with
          | None => fail ASN1_R_NOT_ENOUGH_DATA
          | Some out => mret (Some out)
          end
        else if (num_bytes =? 0) || (4 <? num_bytes) then fail ASN1_R_DECODE_ERROR
        else
          '(ok, _, header) ← bio_read_full bio (Some header) kInitialHeaderLen num_bytes;
          let header := default [] header in
          if negb ok then fail ASN1_R_NOT_ENOUGH_DATA
          else
            let len32 := fold_left (fun len32 b => Z.lor (u32 (Z.shiftl len32 8)) b)
                           (take (Z.to_nat num_bytes) (drop 2 header)) 0 in
            if len32 <? 128 then fail ASN1_R_DECODE_ERROR
            else if Z.shiftr len32 (u64 ((num_bytes - 1) * 8)) =? 0 then fail ASN1_R_DECODE_ERROR
            else finish header len32 (kInitialHeaderLen + num_bytes).
End Bio.
