(* ===== verification/BioPair.v ===== *)
(** crypto/bio/pair.c: BIO pairs. Each half is a ring buffer that its BIO
    writes and the peer reads. The assertions of the code are executed. A half
    and its buffer are fields of the BIO that owns them; that their blocks are
    allocated and freed is counted in the heap's [pair_blocks]. *)

From S2P Require Import Prelude CryptoInternal Buf Bio.

Definition set_b_peer (v : option loc) (b : bio_bio_st) : bio_bio_st :=
  BioBio v (b_closed b) (b_len b) (b_offset b) (b_size b) (b_buf b) (b_request b).
Definition set_b_closed (v : Z) (b : bio_bio_st) : bio_bio_st :=
  BioBio (b_peer b) v (b_len b) (b_offset b) (b_size b) (b_buf b) (b_request b).
Definition set_b_len (v : Z) (b : bio_bio_st) : bio_bio_st :=
  BioBio (b_peer b) (b_closed b) v (b_offset b) (b_size b) (b_buf b) (b_request b).
Definition set_b_offset (v : Z) (b : bio_bio_st) : bio_bio_st :=
  BioBio (b_peer b) (b_closed b) (b_len b) v (b_size b) (b_buf b) (b_request b).
Definition set_b_size (v : Z) (b : bio_bio_st) : bio_bio_st :=
  BioBio (b_peer b) (b_closed b) (b_len b) (b_offset b) v (b_buf b) (b_request b).
Definition set_b_buf (v : option (list Z)) (b : bio_bio_st) : bio_bio_st :=
  BioBio (b_peer b) (b_closed b) (b_len b) (b_offset b) (b_size b) v (b_request b).
Definition set_b_request (v : Z) (b : bio_bio_st) : bio_bio_st :=
  BioBio (b_peer b) (b_closed b) (b_len b) (b_offset b) (b_size b) (b_buf b) v.

(** * The half that a BIO's [ptr] points to *)

Definition half_of (b : BIO) : option bio_bio_st :=
  match ptr b with BioBioPtr h => Some h | _ => None end.
Definition get_half (bio : loc) : B bio_bio_st := b ← get_bio bio; mopt (half_of b).
Definition set_half (bio : loc) (h : bio_bio_st) : B unit := upd_bio bio (set_ptr (BioBioPtr h)).
Definition upd_half (bio : loc) (f : bio_bio_st -> bio_bio_st) : B unit :=
  h ← get_half bio; set_half bio (f h).

(** Run a computation on the half of [bio]. *)
Definition on_half {A} (bio : loc) (m : M bio_bio_st A) : B A :=
  h ← get_half bio;
  '(a, h) ← on_copy h m;
  _ ← set_half bio h;
  mret a.

Definition sizeof_bio_bio_st : Z := 56.

(** A block that a half or a buffer takes, and gives back. *)
Definition block_malloc : B unit := mmodify (fun s => set_pair_blocks (pair_blocks s + 1) s).
Definition block_free : B unit := mmodify (fun s => set_pair_blocks (pair_blocks s - 1) s).

(** * The ring buffer

    The loops of [bio_read] and [bio_write], on the half they work on; [buf] is
    the caller's buffer and [pos] how far the code's pointer has advanced in
    it. They take one or two iterations. *)

Fixpoint read_loop (fuel : nat) (buf : option (list Z)) (pos rest : Z) : M bio_bio_st (option (list Z)) :=
  match fuel with
  | O => mfail
  | S fuel =>
      p ← mget;
      _ ← massert (rest <=? b_len p);
      let chunk := if u64 (b_offset p + rest) <=? b_size p then rest else u64 (b_size p - b_offset p) in
      _ ← massert (u64 (b_offset p + chunk) <=? b_size p);
      bs ← mopt (load_bytes (b_buf p) (b_offset p) chunk);
      buf ← mopt (store_bytes buf pos bs);
      _ ← mmodify (set_b_len (u64 (b_len p - chunk)));
      p ← mget;
      pos ← (if negb (b_len p =? 0) then
               _ ← mmodify (set_b_offset (u64 (b_offset p + chunk)));
               p ← mget;
               _ ← massert (b_offset p <=? b_size p);
               _ ← (if b_offset p =? b_size p then mmodify (set_b_offset 0) else mret tt);
               mret (pos + chunk)
             else
               _ ← massert (chunk =? rest);
               _ ← mmodify (set_b_offset 0);
               mret pos);
      let rest := u64 (rest - chunk) in
      if rest =? 0 then mret buf else read_loop fuel buf pos rest
  end.

Fixpoint write_loop (fuel : nat) (buf : option (list Z)) (pos rest : Z) : M bio_bio_st unit :=
  match fuel with
  | O => mfail
  | S fuel =>
      b ← mget;
      _ ← massert (u64 (b_len b + rest) <=? b_size b);
      let write_offset := u64 (b_offset b + b_len b) in
      let write_offset := if b_size b <=? write_offset then u64 (write_offset - b_size b) else write_offset in
      let chunk := if u64 (write_offset + rest) <=? b_size b then rest else u64 (b_size b - write_offset) in
      bs ← mopt (load_bytes buf pos chunk);
      mem ← mopt (store_bytes (b_buf b) write_offset bs);
      _ ← mmodify (set_b_buf mem);
      _ ← mmodify (set_b_len (u64 (b_len b + chunk)));
      b ← mget;
      _ ← massert (b_len b <=? b_size b);
      let rest := u64 (rest - chunk) in
      if rest =? 0 then mret tt else write_loop fuel buf (pos + chunk) rest
  end.

(** * The method *)

Section Pair.
Context {ms : Mallocs}.

Definition bio_new (bio : loc) : B Z :=
  b ← bio_malloc sizeof_bio_bio_st;
  match b with
  | None => mret 0
  | Some _ =>
      _ ← block_malloc;
      _ ← upd_bio bio (set_ptr (BioBioPtr (BioBio None 0 0 0 (17 * 1024) None 0)));
      mret 1
  end.

Definition bio_destroy_pair (bio : loc) : B unit :=
  bb ← get_bio bio;
  match ptr bb with
  | NULL_void => mret tt
  | _ =>
      b ← get_half bio;
      match b_peer b with
      | None => mret tt
      | Some peer_bio =>
          peer_b ← get_half peer_bio;
          _ ← massert (bool_decide (b_peer peer_b = Some bio));
          _ ← upd_half peer_bio (set_b_peer None);
          _ ← upd_bio peer_bio (set_init 0);
          _ ← massert (bool_decide (is_Some (b_buf peer_b)));
          _ ← upd_half peer_bio (set_b_len 0);
          _ ← upd_half peer_bio (set_b_offset 0);
          _ ← upd_half bio (set_b_peer None);
          _ ← upd_bio bio (set_init 0);
          b ← get_half bio;
          _ ← massert (bool_decide (is_Some (b_buf b)));
          _ ← upd_half bio (set_b_len 0);
          upd_half bio (set_b_offset 0)
      end
  end.

(** [OPENSSL_free(NULL)] does nothing. *)
Definition bio_free (bio : loc) : B Z :=
  b ← get_half bio;
  _ ← (match b_peer b with Some _ => bio_destroy_pair bio | None => mret tt end);
  b ← get_half bio;
  _ ← (match b_buf b with Some _ => block_free | None => mret tt end);
  _ ← block_free;
  _ ← upd_bio bio (set_ptr NULL_void);
  mret 1.

Definition bio_read (bio : loc) (buf : option (list Z)) (size_ : Z) : B (Z * option (list Z)) :=
  let size := u64 size_ in
  _ ← BIO_clear_retry_flags bio;
  bb ← get_bio bio;
  if init bb =? 0 then mret (0, buf)
  else
    b ← get_half bio;
    peer ← mopt (b_peer b);
    peer_b ← get_half peer;
    _ ← massert (bool_decide (is_Some (b_buf peer_b)));
    _ ← upd_half peer (set_b_request 0);
    if bool_decide (buf = None) || (size =? 0) then mret (0, buf)
    else if b_len peer_b =? 0 then
      if negb (b_closed peer_b =? 0) then mret (0, buf)
      else
        _ ← BIO_set_retry_read bio;
        _ ← (if size <=? b_size peer_b then upd_half peer (set_b_request size)
             else upd_half peer (set_b_request (b_size peer_b)));
        mret (-1, buf)
    else
      let size := if b_len peer_b <? size then b_len peer_b else size in
      _ ← massert (0 <? size);
      buf ← on_half peer (read_loop 2 buf 0 size);
      mret (s32 size, buf).

Definition bio_write (bio : loc) (buf : option (list Z)) (num_ : Z) : B Z :=
  let num := u64 num_ in
  _ ← BIO_clear_retry_flags bio;
  bb ← get_bio bio;
  if (init bb =? 0) || bool_decide (buf = None) || (num =? 0) then mret 0
  else
    b ← get_half bio;
    _ ← massert (bool_decide (is_Some (b_peer b)));
    _ ← massert (bool_decide (is_Some (b_buf b)));
    _ ← upd_half bio (set_b_request 0);
    if negb (b_closed b =? 0) then
      _ ← put_error BIO_R_BROKEN_PIPE;
      mret (-1)
    else
      _ ← massert (b_len b <=? b_size b);
      if b_len b =? b_size b then
        _ ← BIO_set_retry_write bio;
        mret (-1)
      else
        let num := if u64 (b_size b - b_len b) <? num then u64 (b_size b - b_len b) else num in
        _ ← massert (0 <? num);
        _ ← on_half bio (write_loop 2 buf 0 num);
        mret (s32 num).

(** The buffer of one half, unless it has one. *)
Definition make_buffer (bio : loc) (writebuf_len : Z) : B bool :=
  b ← get_half bio;
  match b_buf b with
  | Some _ => mret true
  | None =>
      _ ← (if negb (writebuf_len =? 0) then upd_half bio (set_b_size writebuf_len) else mret tt);
      b ← get_half bio;
      mem ← bio_malloc (b_size b);
      _ ← upd_half bio (set_b_buf mem);
      match mem with
      | None => _ ← put_error ERR_R_MALLOC_FAILURE; mret false
      | Some _ =>
          _ ← block_malloc;
          _ ← upd_half bio (set_b_len 0);
          _ ← upd_half bio (set_b_offset 0);
          mret true
      end
  end.

Definition bio_make_pair (bio1 bio2 : loc) (writebuf1_len writebuf2_len : Z) : B Z :=
  b1 ← get_half bio1;
  b2 ← get_half bio2;
  if bool_decide (is_Some (b_peer b1)) || bool_decide (is_Some (b_peer b2)) then
    _ ← put_error BIO_R_IN_USE;
    mret 0
  else
    ok ← make_buffer bio1 writebuf1_len;
    if negb ok then mret 0
    else
      ok ← make_buffer bio2 writebuf2_len;
      if negb ok then mret 0
      else
        _ ← upd_half bio1 (set_b_peer (Some bio2));
        _ ← upd_half bio1 (set_b_closed 0);
        _ ← upd_half bio1 (set_b_request 0);
        _ ← upd_half bio2 (set_b_peer (Some bio1));
        _ ← upd_half bio2 (set_b_closed 0);
        _ ← upd_half bio2 (set_b_request 0);
        _ ← upd_bio bio1 (set_init 1);
        _ ← upd_bio bio2 (set_init 1);
        mret 1.

Definition bio_ctrl (bio : loc) (cmd num : Z) (ptr : ctrl_arg) : B (Z * ctrl_out) :=
  b ← get_half bio;
  ret ←
    (if cmd =? BIO_C_GET_WRITE_BUF_SIZE then mret (s64 (b_size b))
     else if cmd =? BIO_C_GET_WRITE_GUARANTEE then
       mret (if bool_decide (b_peer b = None) || negb (b_closed b =? 0) then 0
             else s64 (u64 (u64 (s64 (b_size b)) - b_len b)))
     else if cmd =? BIO_C_GET_READ_REQUEST then mret (s64 (b_request b))
     else if cmd =? BIO_C_RESET_READ_REQUEST then
       _ ← upd_half bio (set_b_request 0); mret 1
     else if cmd =? BIO_C_SHUTDOWN_WR then
       _ ← upd_half bio (set_b_closed 1); mret 1
     else if cmd =? BIO_CTRL_GET_CLOSE then bb ← get_bio bio; mret (shutdown bb)
     else if cmd =? BIO_CTRL_SET_CLOSE then
       _ ← upd_bio bio (set_shutdown (s32 num)); mret 1
     else if cmd =? BIO_CTRL_PENDING then
       match b_peer b with
       | Some peer => peer_b ← get_half peer; mret (s64 (b_len peer_b))
       | None => mret 0
       end
     else if cmd =? BIO_CTRL_WPENDING then
       mret (if bool_decide (is_Some (b_buf b)) then s64 (b_len b) else 0)
     else if cmd =? BIO_CTRL_FLUSH then mret 1
     else if cmd =? BIO_CTRL_EOF then
       match ptr with
       | ArgBio other_bio =>
           other_b ← get_half other_bio;
           mret (if (b_len other_b =? 0) && negb (b_closed other_b =? 0) then 1 else 0)
       | ArgNull => mret 1
       | _ => mfail
       end
     else mret 0);
  mret (ret, OutNone).

Definition methods_biop_table : BIO_METHOD :=
  BioMethod BIO_TYPE_BIO (Some bio_write) (Some bio_read) None (Some bio_ctrl) (Some bio_new) (Some bio_free).

(** * The interface *)

Context {mt : BioMethods}.

Definition bio_s_bio : bio_method := methods_biop.

(** The two BIOs, or the result 0 and no BIOs. *)
Definition BIO_new_bio_pair (writebuf1_len writebuf2_len : Z) : B (option (loc * loc)) :=
  bio1 ← BIO_new bio_s_bio;
  bio2 ← BIO_new bio_s_bio;
  ok ← (match bio1, bio2 with
        | Some b1, Some b2 => bio_make_pair b1 b2 writebuf1_len writebuf2_len
        | _, _ => mret 0
        end);
  match bio1, bio2 with
  | Some b1, Some b2 =>
      if ok =? 0 then
        _ ← BIO_free bio1; _ ← BIO_free bio2; mret None
      else mret (Some (b1, b2))
  | _, _ => _ ← BIO_free bio1; _ ← BIO_free bio2; mret None
  end.

Definition BIO_ctrl_get_read_request (bio : option loc) : B Z :=
  '(r, _) ← BIO_ctrl bio BIO_C_GET_READ_REQUEST 0 ArgNull; mret (u64 r).
Definition BIO_ctrl_get_write_guarantee (bio : option loc) : B Z :=
  '(r, _) ← BIO_ctrl bio BIO_C_GET_WRITE_GUARANTEE 0 ArgNull; mret (u64 r).
Definition BIO_shutdown_wr (bio : option loc) : B Z :=
  '(r, _) ← BIO_ctrl bio BIO_C_SHUTDOWN_WR 0 ArgNull; mret (s32 r).
End Pair.
