(* ===== verification/BioPairSpec.v ===== *)
(** The ring buffers of pair.c are queues. *)

From S2P Require Import Prelude CryptoInternal Buf Bio BioPair.

(** * The contents of a ring *)

(** The bytes written and not yet read, oldest first. *)
Definition ring_contents (b : bio_bio_st) : list Z :=
  match b_buf b with
  | None => []
  | Some mem => take (Z.to_nat (b_len b)) (drop (Z.to_nat (b_offset b)) (mem ++ mem))
  end.

(** The invariant that the comments of [struct bio_bio_st] state. *)
Record ring_ok (b : bio_bio_st) : Prop := {
  ring_size : 0 < b_size b < 2 ^ 63;
  ring_mem : exists mem, b_buf b = Some mem /\ blen mem = b_size b;
  ring_len : 0 <= b_len b <= b_size b;
  ring_offset : 0 <= b_offset b < b_size b;
  ring_empty : b_len b = 0 -> b_offset b = 0
}.

Lemma blen_ring_contents b : ring_ok b -> blen (ring_contents b) = b_len b.
Proof.
  intros [Hs (mem & Hm & Hl) Hn Ho _]. unfold ring_contents. rewrite Hm.
  apply blen_take. rewrite blen_drop; rewrite blen_app; lia.
Qed.

(** The memory of a ring, cut at the start and the end of its contents. *)
Lemma ring_shape b :
  ring_ok b ->
  (exists A C, b_buf b = Some (A ++ ring_contents b ++ C) /\ blen A = b_offset b /\ b_offset b + b_len b < b_size b) \/
  (exists L H C, b_buf b = Some (L ++ C ++ H) /\ ring_contents b = H ++ L /\ blen (L ++ C) = b_offset b /\
     b_size b <= b_offset b + b_len b).
Proof.
  intros [Hs (mem & Hm & Hl) Hn Ho _]. unfold ring_contents. rewrite Hm.
  set (A := take (Z.to_nat (b_offset b)) mem). set (H := drop (Z.to_nat (b_offset b)) mem).
  assert (mem = A ++ H) as Hmem by (symmetry; apply take_drop).
  assert (blen A = b_offset b) as HA by (apply blen_take; lia).
  assert (blen H = b_size b - b_offset b) as HH by (unfold H; rewrite blen_drop; lia).
  assert (drop (Z.to_nat (b_offset b)) (mem ++ mem) = H ++ mem) as ->.
  { unfold H. rewrite <-drop_app_le; [done|]. unfold blen in *. lia. }
  destruct (decide (b_offset b + b_len b < b_size b)).
  - left. exists A, (drop (Z.to_nat (b_len b)) H). rewrite take_app_le by (unfold blen in *; lia).
    rewrite take_drop, <-Hmem. auto.
  - right. set (w := b_offset b + b_len b - b_size b).
    exists (take (Z.to_nat w) A), H, (drop (Z.to_nat w) A). split_and!; [|..|lia].
    + by rewrite app_assoc, take_drop, <-Hmem.
    + rewrite take_app_ge by (unfold blen in *; lia). f_equal.
      replace (Z.to_nat (b_len b) - length H)%nat with (Z.to_nat w) by (unfold blen, w in *; lia).
      rewrite Hmem at 1. apply take_app_le. unfold blen, w in *. lia.
    + by rewrite take_drop.
Qed.

(** * One iteration of the loops *)

Definition ring_at (b b' : bio_bio_st) : Prop :=
  b_peer b' = b_peer b /\ b_closed b' = b_closed b /\ b_size b' = b_size b /\ b_request b' = b_request b.

#[export] Instance ring_at_preorder : PreOrder ring_at.
Proof. split; [done|]. intros a b c (?&?&?&?) (?&?&?&?). unfold ring_at. split_and!; congruence. Qed.

Section Loops.

(** Taking [chunk] bytes off the start, not past the end of the memory. *)
Lemma ring_take b chunk o :
  ring_ok b -> 0 <= chunk <= b_len b -> b_offset b + chunk <= b_size b ->
  load_bytes (b_buf b) (b_offset b) chunk = Some (take (Z.to_nat chunk) (ring_contents b)) /\
  (o = (if b_len b =? chunk then 0 else if b_offset b + chunk =? b_size b then 0 else b_offset b + chunk) ->
   let b' := set_b_offset o (set_b_len (b_len b - chunk) b) in
   ring_ok b' /\ ring_contents b' = drop (Z.to_nat chunk) (ring_contents b)).
Proof.
  intros Hok Hc Hend. pose proof Hok as [Hs (mem & Hm & Hl) Hn Ho He].
  split.
  - unfold load_bytes, ring_contents. rewrite Hm. destruct (Z.eqb_spec chunk 0) as [->|Hz]; [done|].
    cbn [mbind option_bind]. rewrite !(proj2 (Z.leb_le _ _)) by lia. cbn [andb]. f_equal.
    rewrite take_take, drop_app_le, take_app_le by (rewrite ?length_drop; unfold blen in *; lia).
    f_equal. lia.
  - intros -> b'. subst b'. split.
    + split; cbn; [done|eauto|lia|destruct (_ =? _) eqn:?; [lia|]; destruct (Z.eqb_spec (b_offset b + chunk) (b_size b)); lia|].
      intros. by rewrite (proj2 (Z.eqb_eq _ _)) by lia.
    + unfold ring_contents. cbn [b_buf b_len b_offset set_b_offset set_b_len]. rewrite Hm.
      rewrite skipn_firstn_comm, drop_drop.
      replace (Z.to_nat (b_len b - chunk)) with (Z.to_nat (b_len b) - Z.to_nat chunk)%nat by lia.
      destruct (Z.eqb_spec (b_len b) chunk) as [->|]; [by rewrite Nat.sub_diag|].
      destruct (Z.eqb_spec (b_offset b + chunk) (b_size b)) as [E|].
      * replace (Z.to_nat (b_offset b) + Z.to_nat chunk)%nat with (length mem) by (unfold blen in *; lia).
        rewrite drop_app_length, drop_0. apply take_app_le. unfold blen in *. lia.
      * do 2 f_equal. lia.
Qed.

(** Storing [bs] behind the contents, not past the end of the memory. *)
Lemma ring_put b bs w :
  ring_ok b -> b_len b + blen bs <= b_size b ->
  w = (if b_size b <=? b_offset b + b_len b then b_offset b + b_len b - b_size b else b_offset b + b_len b) ->
  w + blen bs <= b_size b ->
  exists mem, store_bytes (b_buf b) w bs = Some mem /\
   let b' := set_b_len (b_len b + blen bs) (set_b_buf mem b) in
   ring_ok b' /\ ring_contents b' = ring_contents b ++ bs.
Proof.
  intros Hok Hfit Hw Hend. pose proof Hok as [Hs (mem0 & Hm & Hl) Hn Ho He].
  pose proof (blen_ring_contents b Hok) as Hc. pose proof (blen_nonneg bs) as Hbs0.
  assert (forall mem, blen mem = b_size b -> ring_ok (set_b_len (b_len b + blen bs) (set_b_buf (Some mem) b))) as Hring.
  { intros mem Hmem. split; cbn; [done|eauto|lia|lia|]. intros. apply He. lia. }
  destruct (ring_shape b Hok) as [(A & R & Hb & HA & Hlt)|(L & H & C & Hb & Hcon & HA & Hge)].
  - rewrite (proj2 (Z.leb_gt _ _)) in Hw by lia. subst w.
    assert (blen R = b_size b - b_offset b - b_len b) as HR.
    { rewrite Hb in Hm. injection Hm as <-. rewrite !blen_app in Hl. lia. }
    rewrite <-(take_drop (Z.to_nat (blen bs)) R), (app_assoc A) in Hb.
    rewrite Hb, (store_bytes_app (A ++ ring_contents b) _ _ bs) by (rewrite ?blen_app, ?blen_take; lia).
    eexists. split; [done|]. split; [apply Hring; rewrite !blen_app, blen_drop; lia|].
    set (c := ring_contents b) in *. unfold ring_contents. cbn [b_buf b_len b_offset set_b_buf set_b_len].
    rewrite <-!(app_assoc A), <-HA, drop_blen_app, <-Hc, <-blen_app, (app_assoc c), <-(app_assoc (c ++ bs)).
    apply take_blen_app.
  - rewrite (proj2 (Z.leb_le _ _)) in Hw by lia. subst w.
    assert (blen H = b_size b - b_offset b /\ blen L + blen C = b_offset b) as [HH HC].
    { rewrite Hb in Hm. injection Hm as <-. rewrite !blen_app in Hl. rewrite blen_app in HA. lia. }
    rewrite Hcon, blen_app in Hc.
    rewrite <-(take_drop (Z.to_nat (blen bs)) C), <-app_assoc in Hb.
    rewrite Hb, (store_bytes_app L _ _ bs) by (rewrite ?blen_take; lia).
    eexists. split; [done|]. rewrite blen_app in HA.
    split; [apply Hring; rewrite !blen_app, blen_drop; lia|].
    rewrite Hcon. unfold ring_contents. cbn [b_buf b_len b_offset set_b_buf set_b_len].
    set (C2 := drop (Z.to_nat (blen bs)) C). assert (blen C2 = blen C - blen bs) by (apply blen_drop; lia).
    assert (b_offset b = blen (L ++ bs ++ C2)) as -> by (rewrite !blen_app; lia).
    replace ((L ++ bs ++ C2 ++ H) ++ L ++ bs ++ C2 ++ H) with ((L ++ bs ++ C2) ++ (H ++ L ++ bs) ++ C2 ++ H)
      by (by rewrite <-!app_assoc).
    rewrite drop_blen_app, <-Hc. replace (blen H + blen L + blen bs) with (blen (H ++ L ++ bs)) by (rewrite !blen_app; lia).
    by rewrite take_blen_app, <-app_assoc.
Qed.

(** The state after [n] bytes have been read. *)
Definition ring_read_post (b b' : bio_bio_st) (n : Z) : Prop :=
  ring_ok b' /\ ring_contents b' = drop (Z.to_nat n) (ring_contents b) /\ ring_at b b'.

Lemma read_step fuel pre old post b rest chunk :
  ring_ok b -> 0 < rest <= b_len b -> blen old = chunk ->
  chunk = (if b_offset b + rest <=? b_size b then rest else b_size b - b_offset b) ->
  exists b', ring_read_post b b' chunk /\ b_len b' = b_len b - chunk /\
  (chunk < rest -> b_offset b' = 0) /\
  read_loop (S fuel) (Some (pre ++ old ++ post)) (blen pre) rest b =
  (if rest =? chunk then (Some (Some (pre ++ take (Z.to_nat chunk) (ring_contents b) ++ post)), b')
   else read_loop fuel (Some (pre ++ take (Z.to_nat chunk) (ring_contents b) ++ post)) (blen pre + chunk)
          (rest - chunk) b').
Proof.
  intros Hok Hr Hold Hch. pose proof Hok as [Hs _ Hn Ho He].
  assert (0 < chunk <= rest /\ b_offset b + chunk <= b_size b) as [Hc Hend] by (rewrite Hch; zcases; lia).
  set (o := if b_len b =? chunk then 0 else if b_offset b + chunk =? b_size b then 0 else b_offset b + chunk).
  destruct (ring_take b chunk o Hok ltac:(lia) ltac:(lia)) as [Hld Hpost].
  destruct (Hpost eq_refl) as [Hok' Hcon].
  exists (set_b_offset o (set_b_len (b_len b - chunk) b)). split_and!; [done..|cbn; unfold o; intros|].
  { rewrite Hch in *. revert H. zcases; lia. }
  cbn [read_loop]. rewrite mget_bind, massert_bind, (proj2 (Z.leb_le _ _)) by lia.
  rewrite (wrap_small 64 (b_offset b + rest)), (wrap_small 64 (b_size b - b_offset b)) by (split; pow2; lia).
  rewrite <-Hch, massert_bind, (wrap_small 64 (b_offset b + chunk)) by (split; pow2; lia).
  rewrite (proj2 (Z.leb_le _ _)) by lia.
  rewrite mopt_bind, Hld, mopt_bind, store_bytes_app
    by (first [reflexivity|rewrite blen_take; [done|rewrite blen_ring_contents; [lia|done]]]).
  rewrite mmodify_bind, mget_bind. cbn [b_len set_b_len].
  match goal with |- (?m ≫= ?k) ?st = _ =>
    assert (m st = (Some (if b_len b =? chunk then blen pre else blen pre + chunk),
                    set_b_offset o (set_b_len (b_len b - chunk) b))) as E end.
  { rewrite (wrap_small 64 (b_len b - chunk)) by (split; pow2; lia). unfold o.
    destruct (Z.eqb_spec (b_len b) chunk).
    - rewrite (proj2 (Z.eqb_eq _ _)) by lia. cbn [negb]. rewrite massert_bind, mmodify_bind.
      by rewrite (proj2 (Z.eqb_eq _ _)) by lia.
    - rewrite (proj2 (Z.eqb_neq _ _)) by lia. cbn [negb].
      rewrite mmodify_bind, mget_bind, massert_bind. cbn [b_offset b_size set_b_offset set_b_len].
      rewrite (wrap_small 64 (b_offset b + chunk)) by (split; pow2; lia).
      rewrite (proj2 (Z.leb_le _ _)) by lia. by destruct (b_offset b + chunk =? b_size b). }
  rewrite (bind_ok _ _ _ _ _ E), (wrap_small 64 (rest - chunk)) by (split; pow2; lia).
  destruct (Z.eqb_spec rest chunk) as [->|]; [by rewrite Z.sub_diag|].
  rewrite (proj2 (Z.eqb_neq _ _)) by lia. by rewrite (proj2 (Z.eqb_neq (b_len b) _)) by lia.
Qed.

Lemma read_loop_ok old post b n :
  ring_ok b -> 0 < n <= b_len b -> blen old = n -> exists b', ring_read_post b b' n /\
  read_loop 2 (Some (old ++ post)) 0 n b = (Some (Some (take (Z.to_nat n) (ring_contents b) ++ post)), b').
Proof.
  intros Hok Hn Hold. pose proof Hok as [Hs _ Hlen Ho _].
  set (chunk := if b_offset b + n <=? b_size b then n else b_size b - b_offset b).
  assert (0 < chunk <= n) as Hc by (unfold chunk; zcases; lia).
  assert (old = take (Z.to_nat chunk) old ++ drop (Z.to_nat chunk) old) as Hsplit by (symmetry; apply take_drop).
  destruct (read_step 1 [] (take (Z.to_nat chunk) old) (drop (Z.to_nat chunk) old ++ post) b n chunk)
    as (b1 & (Hok1 & Hc1 & Ha1) & Hl1 & Ho1 & E); [done|done|apply blen_take; lia|done|].
  rewrite app_nil_l, app_assoc, <-Hsplit in E. change (blen []) with 0 in E. rewrite E.
  destruct (Z.eqb_spec n chunk) as [Heq|].
  - exists b1. rewrite Heq. split; [by split_and!|]. rewrite drop_ge by (unfold blen in *; lia). done.
  - specialize (Ho1 ltac:(lia)). pose proof Hok1 as [_ _ Hn1 _ _].
    destruct (read_step 0 (take (Z.to_nat chunk) (ring_contents b)) (drop (Z.to_nat chunk) old) post b1 (n - chunk) (n - chunk))
      as (b2 & (Hok2 & Hc2 & Ha2) & _ & _ & E2); [done|lia|rewrite blen_drop; lia| |].
    { rewrite Ho1. destruct Ha1 as (_ & _ & -> & _). by rewrite (proj2 (Z.leb_le _ _)) by lia. }
    rewrite blen_take in E2 by (rewrite blen_ring_contents; [lia|done]).
    rewrite app_nil_l, Z.add_0_l, E2, Z.eqb_refl. exists b2. split.
    + split_and!; [done| |by etrans].
      rewrite Hc2, Hc1, drop_drop. f_equal. lia.
    + do 3 f_equal. rewrite Hc1, app_assoc. f_equal.
      rewrite take_take_drop. f_equal. lia.
Qed.

(** The state after [bs] has been written. *)
Definition ring_write_post (b b' : bio_bio_st) (bs : list Z) : Prop :=
  ring_ok b' /\ ring_contents b' = ring_contents b ++ bs /\ ring_at b b' /\ b_len b' = b_len b + blen bs.

Lemma write_step fuel pre bs post b rest chunk w :
  ring_ok b -> 0 < rest -> b_len b + rest <= b_size b -> blen bs = chunk ->
  w = (if b_size b <=? b_offset b + b_len b then b_offset b + b_len b - b_size b else b_offset b + b_len b) ->
  chunk = (if w + rest <=? b_size b then rest else b_size b - w) ->
  exists b', ring_write_post b b' bs /\ b_offset b' = b_offset b /\
  write_loop (S fuel) (Some (pre ++ bs ++ post)) (blen pre) rest b =
  (if rest =? chunk then (Some tt, b')
   else write_loop fuel (Some (pre ++ bs ++ post)) (blen pre + chunk) (rest - chunk) b').
Proof.
  intros Hok Hr Hfit Hbs Hw Hch. pose proof Hok as [Hs _ Hn Ho He].
  assert (0 <= w < b_size b) as Hw0 by (rewrite Hw; zcases; lia).
  assert (0 < chunk <= rest /\ w + chunk <= b_size b) as [Hc Hend] by (rewrite Hch; zcases; lia).
  destruct (ring_put b bs w Hok ltac:(lia) Hw ltac:(lia)) as (mem & Hst & Hok' & Hcon).
  exists (set_b_len (b_len b + blen bs) (set_b_buf mem b)). split; [by split_and!|]. split; [done|].
  cbn [write_loop]. rewrite mget_bind, massert_bind.
  rewrite (wrap_small 64 (b_len b + rest)), (wrap_small 64 (b_offset b + b_len b)) by (split; pow2; lia).
  rewrite (proj2 (Z.leb_le (b_len b + rest) _)) by lia.
  assert ((if b_size b <=? b_offset b + b_len b then u64 (b_offset b + b_len b - b_size b)
           else b_offset b + b_len b) = w) as ->.
  { rewrite Hw. zcases; [|done]. apply wrap_small. split; pow2; lia. }
  rewrite (wrap_small 64 (w + rest)), (wrap_small 64 (b_size b - w)), <-Hch by (split; pow2; lia).
  rewrite mopt_bind, (load_bytes_app pre bs post) by done. rewrite mopt_bind, Hst, !mmodify_bind, mget_bind, massert_bind.
  rewrite (wrap_small 64 (b_len b + chunk)), <-Hbs by (split; pow2; lia).
  cbn [b_len b_size set_b_len set_b_buf]. rewrite (proj2 (Z.leb_le _ _)) by lia. rewrite Hbs.
  rewrite (wrap_small 64 (rest - chunk)) by (split; pow2; lia).
  destruct (Z.eqb_spec rest chunk) as [->|]; [by rewrite Z.sub_diag|].
  by rewrite (proj2 (Z.eqb_neq _ _)) by lia.
Qed.

Lemma write_loop_ok bs post b :
  ring_ok b -> bs <> [] -> b_len b + blen bs <= b_size b -> exists b', ring_write_post b b' bs /\
  write_loop 2 (Some (bs ++ post)) 0 (blen bs) b = (Some tt, b').
Proof.
  intros Hok Hne Hfit. pose proof Hok as [Hs _ Hn Ho _].
  assert (0 < blen bs) as Hpos by (destruct bs; [done|]; rewrite blen_cons; pose proof (blen_nonneg bs); lia).
  set (w := if b_size b <=? b_offset b + b_len b then b_offset b + b_len b - b_size b else b_offset b + b_len b).
  set (chunk := if w + blen bs <=? b_size b then blen bs else b_size b - w).
  assert (0 < chunk <= blen bs) as Hc by (unfold chunk, w; zcases; lia).
  assert (bs = take (Z.to_nat chunk) bs ++ drop (Z.to_nat chunk) bs) as Hsplit by (symmetry; apply take_drop).
  assert (blen (take (Z.to_nat chunk) bs) = chunk) as Ht by (apply blen_take; lia).
  destruct (write_step 1 [] (take (Z.to_nat chunk) bs) (drop (Z.to_nat chunk) bs ++ post) b (blen bs) chunk w)
    as (b1 & (Hok1 & Hc1 & Ha1 & Hl1) & Ho1 & E); [done..|].
  rewrite app_nil_l, app_assoc, <-Hsplit in E. change (blen []) with 0 in E. rewrite E.
  destruct (Z.eqb_spec (blen bs) chunk) as [Heq|].
  - exists b1. split; [|done]. rewrite take_ge in Hc1, Hl1 by (unfold blen in *; lia). by split_and!.
  - pose proof Ha1 as (_ & _ & Hs1 & _).
    destruct (write_step 0 (take (Z.to_nat chunk) bs) (drop (Z.to_nat chunk) bs) post b1 (blen bs - chunk) (blen bs - chunk)
      (if b_size b1 <=? b_offset b1 + b_len b1 then b_offset b1 + b_len b1 - b_size b1 else b_offset b1 + b_len b1))
      as (b2 & (Hok2 & Hc2 & Ha2 & Hl2) & _ & E2); [done|lia|lia|rewrite blen_drop; lia|done| |].
    { rewrite Ho1, Hl1, Hs1, Ht. revert n. unfold chunk, w. zcases; lia. }
    rewrite Ht, app_assoc, <-Hsplit in E2. rewrite Z.add_0_l, E2, Z.eqb_refl. exists b2. split; [|done].
    split_and!; [done| |by etrans|rewrite Hl2, Hl1, Ht, blen_drop; lia].
    by rewrite Hc2, Hc1, <-app_assoc, <-Hsplit.
Qed.
End Loops.
