(* ===== verification/BioPairQueue.v ===== *)
(** BIO pairs (crypto/bio/pair.c) as two queues of bytes: the abstract
    specification, and that the calls of bio.c on the two halves refine it. *)

From S2P Require Import Prelude CryptoInternal Buf Bio BioPair BioPairSpec.

(** * The specification *)

Inductive retry := NoRetry | RetryRead | RetryWrite.

(** One end: what it has sent and the other end has not read yet, how much of
    that fits, whether it has shut down writing, what the other end last asked
    for in vain, and the counters of its BIO. *)
Record endpoint := End {
  e_sent : list Z;
  e_cap : Z;
  e_closed : Z;
  e_request : Z;
  e_retry : retry;
  e_shutdown : Z;
  e_refs : Z;
  e_nread : Z;
  e_nwrite : Z
}.

(** The two ends, [None] once freed. While both are there they are connected. *)
Abbreviation pipe := (bool -> option endpoint).
Definition pset (p : pipe) (e : bool) (v : option endpoint) : pipe := fun x => if eqb x e then v else p x.

Definition with_sent (l : list Z) (e : endpoint) : endpoint :=
  End l (e_cap e) (e_closed e) (e_request e) (e_retry e) (e_shutdown e) (e_refs e) (e_nread e) (e_nwrite e).
Definition with_closed (v : Z) (e : endpoint) : endpoint :=
  End (e_sent e) (e_cap e) v (e_request e) (e_retry e) (e_shutdown e) (e_refs e) (e_nread e) (e_nwrite e).
Definition with_request (v : Z) (e : endpoint) : endpoint :=
  End (e_sent e) (e_cap e) (e_closed e) v (e_retry e) (e_shutdown e) (e_refs e) (e_nread e) (e_nwrite e).
Definition with_retry (v : retry) (e : endpoint) : endpoint :=
  End (e_sent e) (e_cap e) (e_closed e) (e_request e) v (e_shutdown e) (e_refs e) (e_nread e) (e_nwrite e).
Definition with_shutdown (v : Z) (e : endpoint) : endpoint :=
  End (e_sent e) (e_cap e) (e_closed e) (e_request e) (e_retry e) v (e_refs e) (e_nread e) (e_nwrite e).
Definition with_refs (v : Z) (e : endpoint) : endpoint :=
  End (e_sent e) (e_cap e) (e_closed e) (e_request e) (e_retry e) (e_shutdown e) v (e_nread e) (e_nwrite e).
Definition with_nread (v : Z) (e : endpoint) : endpoint :=
  End (e_sent e) (e_cap e) (e_closed e) (e_request e) (e_retry e) (e_shutdown e) (e_refs e) v (e_nwrite e).
Definition with_nwrite (v : Z) (e : endpoint) : endpoint :=
  End (e_sent e) (e_cap e) (e_closed e) (e_request e) (e_retry e) (e_shutdown e) (e_refs e) (e_nread e) v.

(** Calls; the caller's buffer is [None] for NULL. *)
Inductive pair_op :=
  | OpRead (e : bool) (buf : option (list Z)) (len : Z)
  | OpWrite (e : bool) (buf : option (list Z)) (len : Z)
  | OpCtrl (e : bool) (cmd num : Z) (other : option bool)
  | OpRetryFlags (e : bool)
  | OpUpRef (e : bool)
  | OpFree (e : bool).

Definition op_end (op : pair_op) : bool :=
  match op with
  | OpRead e _ _ | OpWrite e _ _ | OpCtrl e _ _ _ | OpRetryFlags e | OpUpRef e | OpFree e => e
  end.

(** The result, and the caller's buffer after a read. *)
Record pair_res := Res { r_ret : Z; r_buf : option (list Z) }.

Definition retry_flags (r : retry) : Z :=
  match r with NoRetry => 0 | RetryRead => 9 | RetryWrite => 10 end.

(** The outcome of a call by the end [me]: result, both ends afterwards, and
    the error it has put on the queue. *)
Definition outcome : Type := pair_res * endpoint * endpoint * list bio_error.

Definition read_spec (me peer : endpoint) (buf : option (list Z)) (n : Z) : outcome :=
  let me := with_retry NoRetry me in
  let peer := with_request 0 peer in
  match buf with
  | None => (Res 0 None, me, peer, [])
  | Some out =>
      if blen (e_sent peer) =? 0 then
        if negb (e_closed peer =? 0) then (Res 0 buf, me, peer, [])
        else (Res (-1) buf, with_retry RetryRead me, with_request (Z.min n (e_cap peer)) peer, [])
      else
        let k := Z.min n (blen (e_sent peer)) in
        (Res k (Some (take (Z.to_nat k) (e_sent peer) ++ drop (Z.to_nat k) out)),
         with_nread (u64 (e_nread me + k)) me, with_sent (drop (Z.to_nat k) (e_sent peer)) peer, [])
  end.

Definition write_spec (me peer : endpoint) (buf : option (list Z)) (n : Z) : outcome :=
  let me := with_retry NoRetry me in
  match buf with
  | None => (Res 0 None, me, peer, [])
  | Some data =>
      let me := with_request 0 me in
      if negb (e_closed me =? 0) then (Res (-1) None, me, peer, [BIO_R_BROKEN_PIPE])
      else if blen (e_sent me) =? e_cap me then (Res (-1) None, with_retry RetryWrite me, peer, [])
      else
        let k := Z.min n (e_cap me - blen (e_sent me)) in
        (Res k None,
         with_nwrite (u64 (e_nwrite me + k)) (with_sent (e_sent me ++ take (Z.to_nat k) data) me), peer, [])
  end.

(** Controls read and change the end itself; [joined] is the other end while
    it is there. *)
Definition ctrl_spec (me : endpoint) (joined : option endpoint) (cmd num : Z) (other : option endpoint) : Z * endpoint :=
  if cmd =? BIO_C_GET_WRITE_BUF_SIZE then (e_cap me, me)
  else if cmd =? BIO_C_GET_WRITE_GUARANTEE then
    (match joined with
     | Some _ => if e_closed me =? 0 then e_cap me - blen (e_sent me) else 0
     | None => 0
     end, me)
  else if cmd =? BIO_C_GET_READ_REQUEST then (e_request me, me)
  else if cmd =? BIO_C_RESET_READ_REQUEST then (1, with_request 0 me)
  else if cmd =? BIO_C_SHUTDOWN_WR then (1, with_closed 1 me)
  else if cmd =? BIO_CTRL_GET_CLOSE then (e_shutdown me, me)
  else if cmd =? BIO_CTRL_SET_CLOSE then (1, with_shutdown (s32 num) me)
  else if cmd =? BIO_CTRL_PENDING then
    (match joined with Some peer => blen (e_sent peer) | None => 0 end, me)
  else if cmd =? BIO_CTRL_WPENDING then (blen (e_sent me), me)
  else if cmd =? BIO_CTRL_FLUSH then (1, me)
  else if cmd =? BIO_CTRL_EOF then
    (match other with
     | Some o => if (blen (e_sent o) =? 0) && negb (e_closed o =? 0) then 1 else 0
     | None => 1
     end, me)
  else (0, me).

(** One call. It is undefined on an end that was freed. *)
Definition pair_spec (op : pair_op) (p : pipe) : option (pair_res * pipe * list bio_error) :=
  let e := op_end op in
  me ← p e;
  match op with
  | OpRead _ buf n =>
      Some match p (negb e) with
      | None => (Res (-2) buf, p, [BIO_R_UNINITIALIZED])
      | Some peer =>
          if n <=? 0 then (Res 0 buf, p, [])
          else let '(r, me, peer, errs) := read_spec me peer buf n in
               (r, pset (pset p e (Some me)) (negb e) (Some peer), errs)
      end
  | OpWrite _ buf n =>
      Some match p (negb e) with
      | None => (Res (-2) None, p, [BIO_R_UNINITIALIZED])
      | Some peer =>
          if n <=? 0 then (Res 0 None, p, [])
          else let '(r, me, peer, errs) := write_spec me peer buf n in
               (r, pset (pset p e (Some me)) (negb e) (Some peer), errs)
      end
  | OpCtrl _ cmd num other =>
      other ← (match other with
               | None => Some None
               | Some o => if cmd =? BIO_CTRL_EOF then Some <$> p o else Some None
               end);
      let '(r, me) := ctrl_spec me (p (negb e)) cmd num other in
      Some (Res r None, pset p e (Some me), [])
  | OpRetryFlags _ => Some (Res (retry_flags (e_retry me)) None, p, [])
  | OpUpRef _ => Some (Res 1 None, pset p e (Some (with_refs (Z.min (e_refs me + 1) CRYPTO_REFCOUNT_MAX) me)), [])
  | OpFree _ =>
      Some (if e_refs me =? 1 then
              (Res 1 None, pset (pset p (negb e) (with_sent [] <$> p (negb e))) e None, [])
            else
              (Res 0 None, pset p e (Some (if e_refs me <? CRYPTO_REFCOUNT_MAX
                                           then with_refs (e_refs me - 1) me else me)), []))
  end.

(** A sequence of calls. *)
Fixpoint pair_specs (ops : list pair_op) (p : pipe) : option (list pair_res * pipe * list bio_error) :=
  match ops with
  | [] => Some ([], p, [])
  | op :: ops =>
      '(r, p, errs) ← pair_spec op p;
      '(rs, p, errs') ← pair_specs ops p;
      Some (r :: rs, p, errs' ++ errs)
  end.

(** * The calls *)

Section Exec.
Context {ms : Mallocs} {mt : BioMethods}.
Context (l : bool -> loc).

Definition pair_exec (op : pair_op) : B pair_res :=
  match op with
  | OpRead e buf n => '(r, buf) ← BIO_read (Some (l e)) buf n; mret (Res r buf)
  | OpWrite e buf n => r ← BIO_write (Some (l e)) buf n; mret (Res r None)
  | OpCtrl e cmd num other =>
      '(r, _) ← BIO_ctrl (Some (l e)) cmd num (match other with None => ArgNull | Some o => ArgBio (l o) end);
      mret (Res r None)
  | OpRetryFlags e => r ← BIO_get_retry_flags (l e); mret (Res r None)
  | OpUpRef e => r ← BIO_up_ref (l e); mret (Res r None)
  | OpFree e => r ← BIO_free (Some (l e)); mret (Res r None)
  end.

Fixpoint pair_execs (ops : list pair_op) : B (list pair_res) :=
  match ops with
  | [] => mret []
  | op :: ops => r ← pair_exec op; rs ← pair_execs ops; mret (r :: rs)
  end.
End Exec.

(** What a caller owes: an [int] length, and a buffer that long. *)
Definition op_ok (op : pair_op) : Prop :=
  match op with
  | OpRead _ buf n | OpWrite _ buf n =>
      n <= INT_MAX /\ match buf with Some b => n <= blen b | None => True end
  | OpCtrl _ _ num _ => True
  | _ => True
  end.

(** * Representation *)

(** The BIO of an end. *)
Definition bio_of (joined : bool) (e : endpoint) (h : bio_bio_st) : BIO :=
  Bio (Some methods_biop) (if joined then 1 else 0) (e_shutdown e) (retry_flags (e_retry e)) 0 0 (e_refs e)
    (BioBioPtr h) None (e_nread e) (e_nwrite e).

Record half_ok (peer : option loc) (e : endpoint) (h : bio_bio_st) : Prop := {
  half_ring : ring_ok h;
  half_peer : b_peer h = peer;
  half_closed : b_closed h = e_closed e;
  half_contents : ring_contents h = e_sent e;
  half_size : b_size h = e_cap e;
  half_request : b_request h = e_request e
}.

(** What else holds of an end. *)
Record end_ok (e : endpoint) : Prop := {
  end_refs : 1 <= e_refs e <= CRYPTO_REFCOUNT_MAX;
  end_request : 0 <= e_request e <= e_cap e - blen (e_sent e);
  end_request_sent : e_sent e <> [] -> e_request e = 0
}.

Definition is_joined (p : pipe) : bool := bool_decide (is_Some (p true) /\ is_Some (p false)).

Section Rep.
Context (l : bool -> loc).

Definition end_rep (s : bio_heap) (p : pipe) (e : bool) : Prop :=
  match p e with
  | None => bios s !! l e = None
  | Some me =>
      exists h, bios s !! l e = Some (bio_of (bool_decide (is_Some (p (negb e)))) me h) /\
        half_ok (match p (negb e) with Some _ => Some (l (negb e)) | None => None end) me h /\
        end_ok me /\ (p (negb e) = None -> e_sent me = [])
  end.

Definition pair_rep (s : bio_heap) (p : pipe) : Prop := forall e, end_rep s p e.

(** The blocks that pair.c has allocated for the ends: the half and the ring
    buffer of each end that is there. *)
Definition end_blocks (o : option BIO) : Z := match o with Some _ => 2 | None => 0 end.
Definition live_blocks (s : bio_heap) : Z := end_blocks (bios s !! l true) + end_blocks (bios s !! l false).

(** What a call leaves alone, where no block is lost or freed twice. *)
Definition others_same (s s' : bio_heap) : Prop :=
  (forall x, x <> l true -> x <> l false -> bios s' !! x = bios s !! x) /\
  bufs s' = bufs s /\ requests s' = requests s /\
  pair_blocks s' - live_blocks s' = pair_blocks s - live_blocks s.

Lemma live_blocks_at s e : live_blocks s = end_blocks (bios s !! l e) + end_blocks (bios s !! l (negb e)).
Proof. unfold live_blocks. destruct e; cbn [negb]; lia. Qed.

Lemma live_blocks_put s x b b' : bios s !! x = Some b -> live_blocks (set_bios (<[x := b']> (bios s)) s) = live_blocks s.
Proof.
  intros Hb. assert (forall y, end_blocks (<[x := b']> (bios s) !! y) = end_blocks (bios s !! y)) as E.
  { intros y. destruct (decide (x = y)) as [<-|]; [by rewrite lookup_insert_eq, Hb|by rewrite lookup_insert_ne]. }
  unfold live_blocks. cbn [bios set_bios]. by rewrite !E.
Qed.
End Rep.

Lemma others_same_trans l s1 s2 s3 : others_same l s1 s2 -> others_same l s2 s3 -> others_same l s1 s3.
Proof.
  intros (F1 & G1 & H1 & B1) (F2 & G2 & H2 & B2). split_and!; [|congruence..]. intros. by rewrite F2, F1.
Qed.

(** * Running a call on two halves *)

Lemma get_bio_run x b s : bios s !! x = Some b -> get_bio x s = (Some b, s).
Proof. intros H. unfold get_bio. rewrite mget_bind. unfold mopt. by rewrite H. Qed.

Lemma upd_bio_run x f b s :
  bios s !! x = Some b -> upd_bio x f s = (Some tt, set_bios (<[x := f b]> (bios s)) s).
Proof. intros H. unfold upd_bio. by rewrite (bind_ok _ _ _ _ _ (get_bio_run _ _ _ H)). Qed.

Lemma get_half_run x b h s :
  bios s !! x = Some b -> half_of b = Some h -> get_half x s = (Some h, s).
Proof.
  intros H Hh. unfold get_half. rewrite (bind_ok _ _ _ _ _ (get_bio_run _ _ _ H)). unfold mopt. by rewrite Hh.
Qed.

Lemma upd_half_run x f b h s :
  bios s !! x = Some b -> half_of b = Some h ->
  upd_half x f s = (Some tt, set_bios (<[x := set_ptr (BioBioPtr (f h)) b]> (bios s)) s).
Proof.
  intros H Hh. unfold upd_half. rewrite (bind_ok _ _ _ _ _ (get_half_run _ _ _ _ H Hh)).
  by apply upd_bio_run.
Qed.

Lemma on_half_run {A} x (m : M bio_bio_st A) a h' b h s :
  bios s !! x = Some b -> half_of b = Some h -> m h = (Some a, h') ->
  on_half x m s = (Some a, set_bios (<[x := set_ptr (BioBioPtr h') b]> (bios s)) s).
Proof.
  intros H Hh Hm. unfold on_half. rewrite (bind_ok _ _ _ _ _ (get_half_run _ _ _ _ H Hh)).
  rewrite on_copy_bind, Hm. unfold set_half. by rewrite (bind_ok _ _ _ _ _ (upd_bio_run _ _ _ _ H)).
Qed.

(** The heap with the BIOs [bx] and [by_] at [x] and [y]. *)
Definition put2 (s : bio_heap) (x : loc) (bx : BIO) (y : loc) (by_ : BIO) : bio_heap :=
  set_bios (<[x := bx]> (<[y := by_]> (bios s))) s.

Section Put2.
Context (s : bio_heap) (x y : loc) (bx by_ : BIO) (Hxy : x <> y).

Lemma put2_x : bios (put2 s x bx y by_) !! x = Some bx.
Proof. apply lookup_insert_eq. Qed.

Lemma put2_y : bios (put2 s x bx y by_) !! y = Some by_.
Proof. unfold put2. cbn. rewrite lookup_insert_ne by done. apply lookup_insert_eq. Qed.

Lemma put2_set_x b : set_bios (<[x := b]> (bios (put2 s x bx y by_))) (put2 s x bx y by_) = put2 s x b y by_.
Proof. unfold put2, set_bios. cbn. by rewrite insert_insert_eq. Qed.

Lemma put2_set_y b : set_bios (<[y := b]> (bios (put2 s x bx y by_))) (put2 s x bx y by_) = put2 s x bx y b.
Proof. unfold put2, set_bios. cbn. by rewrite insert_insert_ne, insert_insert_eq by done. Qed.

Lemma put2_id : bios s !! x = Some bx -> bios s !! y = Some by_ -> s = put2 s x bx y by_.
Proof. intros. unfold put2, set_bios. destruct s. cbn in *. by rewrite !insert_id by (rewrite ?insert_id by done; done). Qed.
End Put2.

Section Run2.
Context (s : bio_heap) (x y : loc) (jx jy : bool) (ex ey : endpoint) (hx hy : bio_bio_st) (Hxy : x <> y).
Local Abbreviation st ex hx ey hy := (put2 s x (bio_of jx ex hx) y (bio_of jy ey hy)).

Lemma get_bio_x : get_bio x (st ex hx ey hy) = (Some (bio_of jx ex hx), st ex hx ey hy).
Proof. apply get_bio_run, put2_x. Qed.
Lemma get_half_x : get_half x (st ex hx ey hy) = (Some hx, st ex hx ey hy).
Proof. eapply get_half_run; [apply put2_x|done]. Qed.
Lemma get_half_y : get_half y (st ex hx ey hy) = (Some hy, st ex hx ey hy).
Proof. eapply get_half_run; [by apply put2_y|done]. Qed.
Lemma upd_bio_x f ex' : f (bio_of jx ex hx) = bio_of jx ex' hx ->
  upd_bio x f (st ex hx ey hy) = (Some tt, st ex' hx ey hy).
Proof. intros <-. by rewrite (upd_bio_run _ _ _ _ (put2_x s x y _ _)), put2_set_x. Qed.
Lemma upd_half_x f : upd_half x f (st ex hx ey hy) = (Some tt, st ex (f hx) ey hy).
Proof. erewrite upd_half_run by (try apply put2_x; done). by rewrite put2_set_x. Qed.
Lemma upd_half_y f : upd_half y f (st ex hx ey hy) = (Some tt, st ex hx ey (f hy)).
Proof. erewrite upd_half_run by (try (by apply put2_y); done). by rewrite put2_set_y. Qed.
Lemma on_half_x {A} (m : M bio_bio_st A) a h' :
  m hx = (Some a, h') -> on_half x m (st ex hx ey hy) = (Some a, st ex h' ey hy).
Proof. intros H. erewrite on_half_run by (try apply put2_x; done). by rewrite put2_set_x. Qed.
Lemma on_half_y {A} (m : M bio_bio_st A) a h' :
  m hy = (Some a, h') -> on_half y m (st ex hx ey hy) = (Some a, st ex hx ey h').
Proof. intros H. erewrite on_half_run by (try (by apply put2_y); done). by rewrite put2_set_y. Qed.

End Run2.

(** One step of a call on the two halves. *)
Ltac run_half :=
  first
  [ apply get_bio_x | apply get_half_x | apply get_half_y; assumption
  | apply upd_half_x | apply upd_half_y; assumption ].
Ltac run2 :=
  repeat first
  [ rewrite mget_bind | rewrite mopt_bind | rewrite massert_bind | rewrite bind_ret
  | erewrite bind_ok by run_half ].

Lemma clear_retry_x s x y jx jy ex ey hx hy :
  BIO_clear_retry_flags x (put2 s x (bio_of jx ex hx) y (bio_of jy ey hy)) =
  (Some tt, put2 s x (bio_of jx (with_retry NoRetry ex) hx) y (bio_of jy ey hy)).
Proof.
  unfold BIO_clear_retry_flags. erewrite bind_ok.
  - by apply upd_bio_x.
  - apply upd_bio_x. by destruct ex as [? ? ? ? [] ? ? ? ?].
Qed.

Lemma set_retry_read_x s x y jx jy ex ey hx hy :
  BIO_set_retry_read x (put2 s x (bio_of jx (with_retry NoRetry ex) hx) y (bio_of jy ey hy)) =
  (Some tt, put2 s x (bio_of jx (with_retry RetryRead ex) hx) y (bio_of jy ey hy)).
Proof. by apply upd_bio_x. Qed.

Lemma set_retry_write_x s x y jx jy ex ey hx hy :
  BIO_set_retry_write x (put2 s x (bio_of jx (with_retry NoRetry ex) hx) y (bio_of jy ey hy)) =
  (Some tt, put2 s x (bio_of jx (with_retry RetryWrite ex) hx) y (bio_of jy ey hy)).
Proof. by apply upd_bio_x. Qed.

Lemma s32_small z : - 2 ^ 31 <= z < 2 ^ 31 -> s32 z = z.
Proof. intros. unfold s32. rewrite wrap_small; [lia|]. split; pow2; lia. Qed.

Lemma s64_small z : - 2 ^ 63 <= z < 2 ^ 63 -> s64 z = z.
Proof. intros. unfold s64. rewrite wrap_small; [lia|]. split; pow2; lia. Qed.

(** The representation of both ends between two calls. *)
Record joined_ok (x y : loc) (me peer : endpoint) (hx hy : bio_bio_st) : Prop := {
  jo_x : half_ok (Some y) me hx;
  jo_y : half_ok (Some x) peer hy;
  jo_me : end_ok me;
  jo_peer : end_ok peer
}.

Lemma ring_has_buf h : ring_ok h -> bool_decide (is_Some (b_buf h)) = true.
Proof. intros [_ (mem & -> & _) _ _ _]. by apply bool_decide_eq_true_2. Qed.

Lemma half_len peer e h : half_ok peer e h -> b_len h = blen (e_sent e).
Proof. intros [Hr _ _ <- _ _]. symmetry. by apply blen_ring_contents. Qed.

Lemma half_bounds peer e h :
  half_ok peer e h -> 0 < e_cap e < 2 ^ 63 /\ blen (e_sent e) <= e_cap e.
Proof.
  intros H. rewrite <-(half_len _ _ _ H). destruct H as [[Hs _ Hl _ _] _ _ _ <- _]. lia.
Qed.

(** Fields that the ring does not know. *)
Lemma half_ok_same peer e e' h :
  half_ok peer e h -> e_closed e' = e_closed e -> e_sent e' = e_sent e -> e_cap e' = e_cap e ->
  e_request e' = e_request e -> half_ok peer e' h.
Proof. intros [? ? ? ? ? ?] ? ? ? ?. split; congruence. Qed.

Lemma half_ok_request peer e h v :
  half_ok peer e h -> half_ok peer (with_request v e) (set_b_request v h).
Proof. intros [[? ? ? ? ?] ? ? ? ? ?]. by split. Qed.

(** A half whose ring was changed by a loop. *)
Lemma half_ok_ring peer e h h' l :
  half_ok peer e h -> ring_ok h' -> ring_at h h' -> ring_contents h' = l -> half_ok peer (with_sent l e) h'.
Proof. intros [? ? ? ? ? ?] ? (?&?&?&?) ?. split; cbn; congruence. Qed.

Lemma end_ok_sent e l :
  end_ok e -> e_request e = 0 -> blen l <= e_cap e -> end_ok (with_sent l e).
Proof. intros [? ? ?] ? ?. split; cbn; [done|lia|done]. Qed.

Section Calls.
Context {ms : Mallocs}.
Context (s : bio_heap) (x y : loc) (Hxy : x <> y).

Lemma bio_read_run me peer hx hy buf n :
  joined_ok x y me peer hx hy -> 0 < n <= INT_MAX -> match buf with Some b => n <= blen b | None => True end ->
  let '(r, me', peer', errs) := read_spec me peer buf n in
  exists me0 hx' hy',
    bio_read x buf n (put2 s x (bio_of true me hx) y (bio_of true peer hy)) =
      (Some (r_ret r, r_buf r), put2 s x (bio_of true me0 hx') y (bio_of true peer' hy')) /\
    me' = (if 0 <? r_ret r then with_nread (u64 (e_nread me0 + r_ret r)) me0 else me0) /\
    joined_ok x y me' peer' hx' hy' /\ errs = [].
Proof.
  intros [Hx Hy Hme Hpeer] Hn Hbuf. unfold bio_read, read_spec. rewrite (bind_ok _ _ _ _ _ (clear_retry_x _ _ _ _ _ _ _ _ _)).
  pose proof (ring_has_buf _ (half_ring _ _ _ Hy)) as Hbufy. pose proof (half_peer _ _ _ Hx) as Hpx.
  pose proof (half_bounds _ _ _ Hy) as [Hcap Hfit]. unfold INT_MAX in Hn.
  run2. change (init (bio_of true (with_retry NoRetry me) hx) =? 0) with false. cbn iota. run2. rewrite Hpx. run2. rewrite Hbufy. run2.
  rewrite (wrap_small 64 n), (proj2 (Z.eqb_neq n 0)) by (try split; pow2; lia).
  assert (half_ok (Some y) (with_retry NoRetry me) hx) as Hx' by (by eapply half_ok_same).
  assert (half_ok (Some x) (with_request 0 peer) (set_b_request 0 hy)) as Hy' by (by apply half_ok_request).
  assert (end_ok (with_retry NoRetry me)) as Hme' by (by destruct Hme).
  assert (end_ok (with_request 0 peer)) as Hpeer' by (destruct Hpeer; split; cbn; [done|lia|done]).
  destruct buf as [out|]; cbn [bool_decide decide_rel orb]; [|by eexists _, _, _; split_and!].
  change (b_len hy) with (b_len (set_b_request 0 hy)). rewrite (half_len _ _ _ Hy'), bool_decide_eq_false_2 by done.
  cbn [orb]. change (b_closed hy) with (b_closed (set_b_request 0 hy)). rewrite (half_closed _ _ _ Hy').
  destruct (Z.eqb_spec (blen (e_sent (with_request 0 peer))) 0) as [E|E].
  - destruct (negb (e_closed (with_request 0 peer) =? 0)); [by eexists _, _, _; split_and!|].
    set (k := Z.min n (e_cap (with_request 0 peer))).
    eexists (with_retry RetryRead me), hx, (set_b_request k hy). split_and!; [|done| |done].
    + erewrite bind_ok by apply set_retry_read_x.
      assert ((if n <=? b_size hy then upd_half y (set_b_request n) else upd_half y (set_b_request (b_size hy))) =
              upd_half y (set_b_request k)) as ->.
      { unfold k. change (e_cap (with_request 0 peer)) with (e_cap peer). rewrite <-(half_size _ _ _ Hy).
        destruct (Z.leb_spec n (b_size hy)); do 2 f_equal; lia. }
      by erewrite bind_ok by (by apply upd_half_y).
    + split; [by eapply half_ok_same|by apply (half_ok_request _ _ (set_b_request 0 hy))|by destruct Hme|].
      cbn in E. destruct Hpeer'. split; cbn; [done|rewrite E; unfold k; cbn; lia|].
      intros Hne. by destruct Hne; apply blen_inv_nil.
  - set (k := Z.min n (blen (e_sent (with_request 0 peer)))).
    assert ((if blen (e_sent (with_request 0 peer)) <? n then blen (e_sent (with_request 0 peer)) else n) = k) as ->
      by (unfold k; zcases; lia).
    pose proof (blen_nonneg (e_sent (with_request 0 peer))) as Hnn.
    assert (0 < k <= blen (e_sent (with_request 0 peer)) /\ k <= n) as [Hk Hkn] by (unfold k; lia).
    rewrite massert_bind, (proj2 (Z.ltb_lt _ _)) by lia.
    destruct (read_loop_ok (take (Z.to_nat k) out) (drop (Z.to_nat k) out) (set_b_request 0 hy) k)
      as (hy' & (Hok & Hc & Ha) & Er); [apply Hy'|by rewrite (half_len _ _ _ Hy')|apply blen_take; lia|].
    rewrite take_drop in Er. rewrite (half_contents _ _ _ Hy') in Er, Hc.
    erewrite bind_ok by (apply on_half_y; [done|exact Er]).
    rewrite s32_small by (pow2; lia).
    exists (with_retry NoRetry me), hx, hy'. cbn [r_ret r_buf].
    rewrite (proj2 (Z.ltb_lt 0 k)) by lia. split_and!; [done|done| |done].
    split; [by eapply half_ok_same|by eapply half_ok_ring|by destruct Hme|].
    apply end_ok_sent; [done|done|rewrite blen_drop; cbn in *; lia].
Qed.

Lemma bio_write_run me peer hx hy buf n :
  joined_ok x y me peer hx hy -> 0 < n <= INT_MAX -> match buf with Some b => n <= blen b | None => True end ->
  let '(r, me', peer', errs) := write_spec me peer buf n in
  exists me0 hx',
    bio_write x buf n (put2 s x (bio_of true me hx) y (bio_of true peer hy)) =
      (Some (r_ret r), set_errors (errs ++ errors s) (put2 s x (bio_of true me0 hx') y (bio_of true peer' hy))) /\
    me' = (if 0 <? r_ret r then with_nwrite (u64 (e_nwrite me0 + r_ret r)) me0 else me0) /\
    joined_ok x y me' peer' hx' hy /\ r_buf r = None.
Proof.
  intros [Hx Hy Hme Hpeer] Hn Hbuf. unfold bio_write, write_spec. rewrite (bind_ok _ _ _ _ _ (clear_retry_x _ _ _ _ _ _ _ _ _)).
  pose proof (half_bounds _ _ _ Hx) as [Hcap Hfit]. unfold INT_MAX in Hn.
  run2. change (init (bio_of true (with_retry NoRetry me) hx) =? 0) with false. cbn [orb].
  rewrite (wrap_small 64 n), (proj2 (Z.eqb_neq n 0)) by (try split; pow2; lia).
  assert (half_ok (Some y) (with_retry NoRetry me) hx) as Hx0 by (by eapply half_ok_same).
  set (me1 := with_request 0 (with_retry NoRetry me)).
  assert (half_ok (Some y) me1 (set_b_request 0 hx)) as Hx' by (by apply half_ok_request).
  assert (end_ok me1) as Hme' by (destruct Hme; split; cbn; [done|lia|done]).
  destruct buf as [data|]; cbn [bool_decide decide_rel orb]; [|eexists _, _; split_and!; try done; split; try done; by destruct Hme].
  rewrite bool_decide_eq_false_2 by done. cbn [orb]. run2.
  rewrite (half_peer _ _ _ Hx), (bool_decide_eq_true_2 (is_Some (Some y))) by done. run2.
  rewrite (ring_has_buf _ (half_ring _ _ _ Hx)). run2.
  change (b_closed hx) with (b_closed (set_b_request 0 hx)). rewrite (half_closed _ _ _ Hx').
  destruct (negb (e_closed me1 =? 0)).
  { exists me1, (set_b_request 0 hx). split_and!; [reflexivity|done|by split|done]. }
  run2. rewrite (half_len _ _ _ Hx), (half_size _ _ _ Hx), (proj2 (Z.leb_le _ _)) by lia.
  change (blen (e_sent me) =? e_cap me) with (blen (e_sent me1) =? e_cap me1).
  destruct (Z.eqb_spec (blen (e_sent me1)) (e_cap me1)) as [E|E].
  - erewrite bind_ok by apply set_retry_write_x.
    exists (with_retry RetryWrite me1), (set_b_request 0 hx).
    split_and!; [reflexivity|done| |done]. split; [by eapply half_ok_same|done|by destruct Hme'|done].
  - pose proof (blen_nonneg (e_sent me)) as Hnn. cbn in E.
    rewrite (wrap_small 64 (e_cap me - blen (e_sent me))) by (split; pow2; lia).
    set (k := Z.min n (e_cap me - blen (e_sent me))).
    assert ((if e_cap me - blen (e_sent me) <? n then e_cap me - blen (e_sent me) else n) = k) as ->
      by (unfold k; zcases; lia).
    assert (0 < k <= e_cap me - blen (e_sent me) /\ k <= n) as [Hk Hkn] by (unfold k; lia).
    run2. rewrite (proj2 (Z.ltb_lt _ _)) by lia.
    assert (blen (take (Z.to_nat k) data) = k) as Ht by (apply blen_take; lia).
    destruct (write_loop_ok (take (Z.to_nat k) data) (drop (Z.to_nat k) data) (set_b_request 0 hx))
      as (hx' & (Hok & Hc & Ha & _) & Er); [apply Hx'|by intros E0; rewrite E0, blen_nil in Ht; lia| |].
    { rewrite (half_len _ _ _ Hx'), (half_size _ _ _ Hx'), Ht. cbn. lia. }
    rewrite take_drop, Ht in Er. rewrite (half_contents _ _ _ Hx') in Hc.
    erewrite bind_ok by (apply on_half_x; exact Er).
    rewrite s32_small by (pow2; lia).
    change (e_cap me1 - blen (e_sent me1)) with (e_cap me - blen (e_sent me)). fold k.
    exists (with_sent (e_sent me1 ++ take (Z.to_nat k) data) me1), hx'. cbn [r_ret r_buf].
    rewrite (proj2 (Z.ltb_lt 0 k)) by lia. split_and!; [reflexivity|done| |done].
    split; [by eapply half_ok_same; [eapply half_ok_ring|..]|done| |done].
    assert (end_ok (with_sent (e_sent me1 ++ take (Z.to_nat k) data) me1)) as [? ? ?]; [|done].
    apply end_ok_sent; [done|done|]. rewrite blen_app, Ht. cbn. lia.
Qed.
End Calls.

(** * The calls of bio.c *)

(** A table of methods with that of BIO pairs in it. *)
Class PairMethods {ms : Mallocs} (mt : BioMethods) : Prop :=
  pair_methods : bio_methods methods_biop = methods_biop_table.

Section Ends.
Context (l : bool -> loc) (Hl : l true <> l false).

Lemma ends_differ e : l e <> l (negb e).
Proof. destruct e; cbn; congruence. Qed.

Lemma pset_same p e v : pset p e v e = v.
Proof. unfold pset. by rewrite eqb_reflx. Qed.

Lemma pset_other p e v : pset p e v (negb e) = p (negb e).
Proof. unfold pset. by destruct e. Qed.

Lemma pset_other' p e v : pset p (negb e) v e = p e.
Proof. unfold pset. by destruct e. Qed.

(** The relation, read from one end. *)
Lemma pair_rep_iff s p e : pair_rep l s p <-> end_rep l s p e /\ end_rep l s p (negb e).
Proof.
  split; [by split|]. intros [? ?] e'. destruct e, e'; cbn in *; done.
Qed.

Lemma pair_rep_joined s p e me peer :
  pair_rep l s p -> p e = Some me -> p (negb e) = Some peer ->
  exists hx hy, s = put2 s (l e) (bio_of true me hx) (l (negb e)) (bio_of true peer hy) /\
    joined_ok (l e) (l (negb e)) me peer hx hy.
Proof.
  intros Hr He Hn. pose proof (Hr e) as H1. pose proof (Hr (negb e)) as H2. unfold end_rep in *.
  rewrite negb_involutive in H2. rewrite He, Hn in *.
  destruct H1 as (hx & Hx & ? & ? & _), H2 as (hy & Hy & ? & ? & _).
  exists hx, hy. split; [by apply put2_id|]. by split.
Qed.

Lemma pair_rep_put2 s p e me peer hx hy :
  joined_ok (l e) (l (negb e)) me peer hx hy ->
  pair_rep l (put2 s (l e) (bio_of true me hx) (l (negb e)) (bio_of true peer hy))
    (pset (pset p e (Some me)) (negb e) (Some peer)).
Proof.
  intros [? ? ? ?]. apply (pair_rep_iff _ _ e). unfold end_rep.
  rewrite negb_involutive, pset_same, pset_other', pset_same. split.
  - exists hx. split; [apply put2_x|done].
  - exists hy. split; [by apply put2_y, ends_differ|done].
Qed.

Lemma others_same_put2 s p e me peer bx by_ :
  pair_rep l s p -> p e = Some me -> p (negb e) = Some peer ->
  others_same l s (put2 s (l e) bx (l (negb e)) by_).
Proof.
  intros Hr He Hn. pose proof (Hr e) as H1. pose proof (Hr (negb e)) as H2. unfold end_rep in H1, H2.
  rewrite He in H1. rewrite Hn in H2. destruct H1 as (h1 & E1 & _), H2 as (h2 & E2 & _).
  split; [|split_and!; [done..|]].
  - intros z H1 H2. unfold put2. cbn. by rewrite !lookup_insert_ne by (destruct e; cbn; congruence).
  - rewrite !(live_blocks_at _ _ e), put2_x, put2_y by apply ends_differ. by rewrite E1, E2.
Qed.
End Ends.

(** [BIO_read] and [BIO_write] of a BIO with the method function [fn]. *)
Section Dispatch.
Context {ms : Mallocs} {mt : BioMethods}.

Lemma bio_read_via_run f fn x b buf n s :
  bios s !! x = Some b -> bio_method_fn f b = Some fn ->
  bio_read_via f (Some x) buf n s =
  if init b =? 0 then (Some (-2, buf), set_errors (BIO_R_UNINITIALIZED :: errors s) s)
  else if n <=? 0 then (Some (0, buf), s)
  else ('(ret, buf) ← fn x buf n;
        _ ← (if 0 <? ret then upd_bio x (fun b => set_num_read (u64 (num_read b + ret)) b) else mret tt);
        mret (ret, buf)) s.
Proof.
  intros Hb Hf. unfold bio_read_via. rewrite (bind_ok _ _ _ _ _ (get_bio_run _ _ _ Hb)), Hf.
  destruct (init b =? 0); [done|]. by destruct (n <=? 0).
Qed.

Lemma BIO_write_run fn x b buf n s :
  bios s !! x = Some b -> bio_method_fn bwrite b = Some fn ->
  BIO_write (Some x) buf n s =
  if init b =? 0 then (Some (-2), set_errors (BIO_R_UNINITIALIZED :: errors s) s)
  else if n <=? 0 then (Some 0, s)
  else (ret ← fn x buf n;
        _ ← (if 0 <? ret then upd_bio x (fun b => set_num_write (u64 (num_write b + ret)) b) else mret tt);
        mret ret) s.
Proof.
  intros Hb Hf. unfold BIO_write. rewrite (bind_ok _ _ _ _ _ (get_bio_run _ _ _ Hb)), Hf.
  destruct (init b =? 0); [done|]. by destruct (n <=? 0).
Qed.

Lemma BIO_ctrl_run fn x b cmd num a s :
  bios s !! x = Some b -> bio_method_fn ctrl b = Some fn -> BIO_ctrl (Some x) cmd num a s = fn x cmd num a s.
Proof. intros Hb Hf. unfold BIO_ctrl. by rewrite (bind_ok _ _ _ _ _ (get_bio_run _ _ _ Hb)), Hf. Qed.
End Dispatch.

Section Free.
Context {ms : Mallocs} {mt : BioMethods} {pm : PairMethods mt}.

(** The method functions of an end. *)
Lemma biop_fn {F} (f : BIO_METHOD -> option F) j e h : bio_method_fn f (bio_of j e h) = f methods_biop_table.
Proof. unfold bio_method_fn. cbn. by rewrite pair_methods. Qed.

(** A half that has lost its peer, with its buffer emptied. *)
Lemma half_ok_reset peer e h :
  half_ok peer e h -> half_ok None (with_sent [] e) (set_b_offset 0 (set_b_len 0 (set_b_peer None h))).
Proof.
  intros [[? Hmem ? ? ?] ? ? ? ? ?]. split; [|done|done| |done|done].
  - split; cbn; [done|done|lia|lia|done].
  - destruct Hmem as (mem & Hm & _). unfold ring_contents. cbn. by rewrite Hm.
Qed.

Lemma bio_destroy_pair_run s me peer hx hy x y :
  x <> y -> half_ok (Some y) me hx -> half_ok (Some x) peer hy ->
  let reset h := set_b_offset 0 (set_b_len 0 (set_b_peer None h)) in
  bio_destroy_pair x (put2 s x (bio_of true me hx) y (bio_of true peer hy)) =
    (Some tt, put2 s x (bio_of false me (reset hx)) y (bio_of false peer (reset hy))).
Proof.
  intros Hxy Hx Hy reset. unfold bio_destroy_pair.
  assert (forall jx hx jy hy, upd_bio y (set_init 0) (put2 s x (bio_of jx me hx) y (bio_of jy peer hy)) =
    (Some tt, put2 s x (bio_of jx me hx) y (bio_of false peer hy))) as Hy0.
  { intros. rewrite (upd_bio_run _ _ _ _ (put2_y s x y _ _ Hxy)). by rewrite put2_set_y. }
  assert (forall jx hx jy hy, upd_bio x (set_init 0) (put2 s x (bio_of jx me hx) y (bio_of jy peer hy)) =
    (Some tt, put2 s x (bio_of false me hx) y (bio_of jy peer hy))) as Hx0.
  { intros. rewrite (upd_bio_run _ _ _ _ (put2_x s x y _ _)). by rewrite put2_set_x. }
  run2. cbn [ptr bio_of]. run2. rewrite (half_peer _ _ _ Hx). run2.
  rewrite (bool_decide_eq_true_2 _ (half_peer _ _ _ Hy)). run2.
  erewrite bind_ok by apply Hy0. run2. rewrite (ring_has_buf _ (half_ring _ _ _ Hy)). run2.
  erewrite bind_ok by apply Hx0. run2.
  change (b_buf (set_b_peer None hx)) with (b_buf hx). rewrite (ring_has_buf _ (half_ring _ _ _ Hx)). run2.
  by rewrite upd_half_x.
Qed.

(** [BIO_free] of an end: a BIO that no chain goes on from. *)
Lemma BIO_free_run s j e h x :
  bios s !! x = Some (bio_of j e h) -> end_ok e ->
  BIO_free (Some x) s =
  if e_refs e =? 1 then
    (_ ← bio_free x; _ ← mmodify (fun s => set_bios (delete x (bios s)) s); mret 1)
      (set_bios (<[x := bio_of j (with_refs 0 e) h]> (bios s)) s)
  else
    (Some 0, set_bios (<[x := bio_of j (if e_refs e <? CRYPTO_REFCOUNT_MAX then with_refs (e_refs e - 1) e else e) h]>
                         (bios s)) s).
Proof.
  intros Hb [Hrefs _ _]. unfold BIO_free. rewrite mget_bind. cbn [BIO_free_loop].
  rewrite (bind_ok _ _ _ _ _ (get_bio_run _ _ _ Hb)), mopt_bind. unfold CRYPTO_refcount_dec_and_test_zero.
  cbn [references bio_of]. rewrite (proj2 (Z.eqb_neq _ _)) by lia. cbn iota beta.
  destruct (Z.eqb_spec (e_refs e) 1) as [E|E].
  - rewrite E. change (1 <? CRYPTO_REFCOUNT_MAX) with true. cbn iota. change (1 - 1) with 0.
    change (negb (0 =? 0)) with false. cbn iota. unfold set_bio at 1. rewrite mmodify_bind.
    set (s1 := set_bios _ s). assert (bios s1 !! x = Some (bio_of j (with_refs 0 e) h)) as Hb1 by apply lookup_insert_eq.
    assert (BIO_pop x s1 = (Some None, s1)) as Epop.
    { unfold BIO_pop. rewrite (bind_ok _ _ _ _ _ (get_bio_run _ _ _ Hb1)). unfold set_bio. rewrite mmodify_bind.
      unfold s1. unfold set_bios. cbn. by rewrite insert_insert_eq. }
    rewrite (bind_ok _ _ _ _ _ Epop), (bind_ok _ _ _ _ _ (get_bio_run _ _ _ Hb1)), biop_fn. by destruct (size (bios s)).
  - assert (forall c, c =? 0 = false -> (set_bio x (set_references c (bio_of j e h)) ≫= fun _ => mret 0 : B Z) s =
      (Some 0, set_bios (<[x := bio_of j (with_refs c e) h]> (bios s)) s)) as Hset by done.
    destruct (Z.ltb_spec (e_refs e) CRYPTO_REFCOUNT_MAX).
    + rewrite (proj2 (Z.eqb_neq (e_refs e - 1) 0)) by lia. done.
    + rewrite (proj2 (Z.eqb_neq (e_refs e) 0)) by lia. done.
Qed.

(** Freeing the half, and then the BIO. *)
Lemma bio_free_run s me peer hx hy x y :
  x <> y -> half_ok (Some y) me hx -> half_ok (Some x) peer hy ->
  (_ ← bio_free x; _ ← mmodify (fun s => set_bios (delete x (bios s)) s); mret 1)
    (put2 s x (bio_of true me hx) y (bio_of true peer hy)) =
  (Some 1, set_pair_blocks (pair_blocks s - 2)
     (set_bios (delete x (<[y := bio_of false peer (set_b_offset 0 (set_b_len 0 (set_b_peer None hy)))]> (bios s))) s)).
Proof.
  intros Hxy Hx Hy. unfold bio_free.
  assert (forall b by_, (_ ← block_free; _ ← block_free; _ ← upd_bio x (set_ptr NULL_void); mret 1) (put2 s x b y by_) =
    (Some 1, set_pair_blocks (pair_blocks s - 2) (put2 s x (set_ptr NULL_void b) y by_))) as Hfree.
  { intros. unfold block_free. rewrite !mmodify_bind. erewrite bind_ok by (eapply upd_bio_run, put2_x).
    unfold put2, set_bios, set_pair_blocks. cbn. by rewrite insert_insert_eq, <-Z.sub_add_distr. }
  erewrite bind_ok.
  2: { run2. rewrite (half_peer _ _ _ Hx).
       rewrite (bind_ok _ _ _ _ _ (bio_destroy_pair_run s me peer hx hy x y Hxy Hx Hy)). run2.
       cbn [b_buf set_b_offset set_b_len set_b_peer]. destruct (half_ring _ _ _ Hx) as [_ (mem & -> & _) _ _ _].
       apply Hfree. }
  rewrite mmodify_bind. unfold put2, set_bios, set_pair_blocks. cbn. by rewrite delete_insert_eq.
Qed.

(** The blocks of a half. *)
Definition half_blocks (h : bio_bio_st) : Z := match b_buf h with Some _ => 2 | None => 1 end.

Lemma bio_free_alone s j e h x :
  bios s !! x = Some (bio_of j e h) -> b_peer h = None ->
  (_ ← bio_free x; _ ← mmodify (fun s => set_bios (delete x (bios s)) s); mret 1) s =
  (Some 1, set_pair_blocks (pair_blocks s - half_blocks h) (set_bios (delete x (bios s)) s)).
Proof.
  intros Hb Hp. assert (bio_free x s = (Some 1, set_pair_blocks (pair_blocks s - half_blocks h)
    (set_bios (<[x := set_ptr NULL_void (bio_of j e h)]> (bios s)) s))) as E.
  { unfold bio_free. erewrite bind_ok by (by eapply get_half_run). rewrite Hp, bind_ret.
    erewrite bind_ok by (by eapply get_half_run). unfold half_blocks, block_free.
    destruct (b_buf h); rewrite ?bind_ret, !mmodify_bind; erewrite bind_ok by (by eapply upd_bio_run); [|done].
    unfold set_bios, set_pair_blocks. cbn. by rewrite <-Z.sub_add_distr. }
  rewrite (bind_ok _ _ _ _ _ E), mmodify_bind. unfold set_bios. cbn. by rewrite delete_insert_eq.
Qed.
End Free.

Section Refine.
Context {ms : Mallocs} {mt : BioMethods} {pm : PairMethods mt}.
Context (l : bool -> loc) (Hl : l true <> l false).

(** What one call is to do. *)
Definition call_ok (op : pair_op) (s : bio_heap) (p : pipe) : Prop :=
  forall r p' errs, pair_spec op p = Some (r, p', errs) -> exists s',
  pair_exec l op s = (Some r, s') /\ pair_rep l s' p' /\ others_same l s s' /\ errors s' = errs ++ errors s.

(** An end as the heap has it. *)
Lemma end_rep_bio s p e me : pair_rep l s p -> p e = Some me -> exists h,
  bios s !! l e = Some (bio_of (bool_decide (is_Some (p (negb e)))) me h) /\
  half_ok (match p (negb e) with Some _ => Some (l (negb e)) | None => None end) me h /\
  end_ok me /\ (p (negb e) = None -> e_sent me = []).
Proof. intros Hr He. specialize (Hr e). unfold end_rep in Hr. by rewrite He in Hr. Qed.

Lemma others_same_refl s : others_same l s s.
Proof. by split_and!. Qed.

Lemma read_ok e buf n s p : pair_rep l s p -> op_ok (OpRead e buf n) -> call_ok (OpRead e buf n) s p.
Proof.
  intros Hr [Hn Hbuf] r p' errs. unfold pair_spec. cbn [op_end].
  destruct (p e) as [me|] eqn:He; [|done]. cbn [mbind option_bind].
  destruct (end_rep_bio s p e me Hr He) as (h & Hb & _).
  unfold pair_exec, BIO_read.
  pose proof (bio_read_via_run bread bio_read (l e) _ buf n s Hb (biop_fn _ _ _ _)) as Hrun.
  destruct (p (negb e)) as [peer|] eqn:Hne; cbn [bool_decide] in Hrun.
  - destruct (pair_rep_joined l s p e me peer Hr He Hne) as (hx & hy & Hs & Hj).
    change (init _ =? 0) with false in Hrun. cbn iota in Hrun.
    destruct (Z.leb_spec n 0) as [Hn0|Hn0].
    { intros [= <- <- <-]. exists s. by rewrite (bind_ok _ _ _ _ _ Hrun). }
    pose proof (bio_read_run s (l e) (l (negb e)) (ends_differ l Hl e) me peer hx hy buf n Hj ltac:(lia) Hbuf) as Hread.
    destruct (read_spec me peer buf n) as [[[r0 me'] peer'] errs0]. intros [= <- <- <-].
    destruct Hread as (me0 & hx' & hy' & Er & -> & Hj' & ->).
    rewrite Hs in Hrun at 2. rewrite (bind_ok _ _ _ _ _ Er) in Hrun.
    eexists. split; [|split; [by apply pair_rep_put2|split; [by eapply others_same_put2|done]]].
    match goal with |- _ = (_, ?st) =>
      assert (bio_read_via bread (Some (l e)) buf n s = (Some (r_ret r0, r_buf r0), st)) as E end.
    { rewrite Hrun. destruct (0 <? r_ret r0); [|done]. by erewrite bind_ok by
        (by apply upd_bio_x with (ex' := with_nread (u64 (e_nread me0 + r_ret r0)) me0)). }
    rewrite (bind_ok _ _ _ _ _ E). by destruct r0.
  - change (init _ =? 0) with true in Hrun. cbn iota in Hrun.
    intros [= <- <- <-]. eexists. split; [by rewrite (bind_ok _ _ _ _ _ Hrun)|].
    split; [done|]. split; [by split_and!|done].
Qed.

Lemma write_ok e buf n s p : pair_rep l s p -> op_ok (OpWrite e buf n) -> call_ok (OpWrite e buf n) s p.
Proof.
  intros Hr [Hn Hbuf] r p' errs. unfold pair_spec. cbn [op_end].
  destruct (p e) as [me|] eqn:He; [|done]. cbn [mbind option_bind].
  destruct (end_rep_bio s p e me Hr He) as (h & Hb & _).
  unfold pair_exec.
  pose proof (BIO_write_run bio_write (l e) _ buf n s Hb (biop_fn _ _ _ _)) as Hrun.
  destruct (p (negb e)) as [peer|] eqn:Hne; cbn [bool_decide] in Hrun.
  - destruct (pair_rep_joined l s p e me peer Hr He Hne) as (hx & hy & Hs & Hj).
    change (init _ =? 0) with false in Hrun. cbn iota in Hrun.
    destruct (Z.leb_spec n 0) as [Hn0|Hn0].
    { intros [= <- <- <-]. exists s. by rewrite (bind_ok _ _ _ _ _ Hrun). }
    pose proof (bio_write_run s (l e) (l (negb e)) (ends_differ l Hl e) me peer hx hy buf n Hj ltac:(lia) Hbuf) as Hwrite.
    destruct (write_spec me peer buf n) as [[[r0 me'] peer'] errs0]. intros [= <- <- <-].
    destruct Hwrite as (me0 & hx' & Er & -> & Hj' & Hnone).
    rewrite Hs in Hrun at 2. rewrite (bind_ok _ _ _ _ _ Er) in Hrun.
    set (s' := set_errors (errs0 ++ errors s) s).
    eexists. split; [|split; [by apply (pair_rep_put2 l Hl s')|split; [|done]]].
    + match goal with |- _ = (_, ?st) =>
        assert (BIO_write (Some (l e)) buf n s = (Some (r_ret r0), st)) as E end.
      { rewrite Hrun. change (set_errors _ (put2 s ?x ?a ?y ?b)) with (put2 s' x a y b).
        destruct (0 <? r_ret r0); [|done]. by erewrite bind_ok by
          (by apply upd_bio_x with (ex' := with_nwrite (u64 (e_nwrite me0 + r_ret r0)) me0)). }
      rewrite (bind_ok _ _ _ _ _ E). destruct r0; cbn in *. by subst.
    + by apply (others_same_put2 l Hl s' p e me peer).
  - change (init _ =? 0) with true in Hrun. cbn iota in Hrun.
    intros [= <- <- <-]. eexists. split; [by rewrite (bind_ok _ _ _ _ _ Hrun)|].
    split; [done|]. split; [by split_and!|done].
Qed.

(** An end after a change that the other end does not see. *)
Lemma end_update s p e me me' h h' j :
  pair_rep l s p -> p e = Some me -> bios s !! l e = Some (bio_of j me h) ->
  half_ok (match p (negb e) with Some _ => Some (l (negb e)) | None => None end) me' h' ->
  end_ok me' -> (p (negb e) = None -> e_sent me' = []) ->
  j = bool_decide (is_Some (p (negb e))) ->
  pair_rep l (set_bios (<[l e := bio_of j me' h']> (bios s)) s) (pset p e (Some me')).
Proof.
  intros Hr He Hb Hh Hok Hs ->. apply (pair_rep_iff _ _ _ e). split.
  - unfold end_rep. rewrite pset_same, pset_other. exists h'. split; [apply lookup_insert_eq|done].
  - specialize (Hr (negb e)). unfold end_rep in *. rewrite negb_involutive, pset_other, pset_same in *. rewrite He in Hr.
    cbn [bios set_bios]. rewrite lookup_insert_ne by (by apply ends_differ). destruct (p (negb e)); [|done].
    destruct Hr as (h0 & ? & ? & ? & _). exists h0. by split_and!.
Qed.

Lemma pair_rep_same s p e me : pair_rep l s p -> p e = Some me -> pair_rep l s (pset p e (Some me)).
Proof.
  intros Hr He. apply (pair_rep_iff _ _ _ e). split; unfold end_rep.
  - specialize (Hr e). unfold end_rep in Hr. rewrite pset_same, pset_other. by rewrite He in Hr.
  - specialize (Hr (negb e)). unfold end_rep in Hr. rewrite pset_other, negb_involutive, pset_same in *. rewrite He in Hr.
    destruct (p (negb e)); [|done].
    destruct Hr as (h0 & ? & ? & ? & _). exists h0. by split_and!.
Qed.

Lemma others_same_upd s e b0 b :
  bios s !! l e = Some b0 -> others_same l s (set_bios (<[l e := b]> (bios s)) s).
Proof.
  intros Hb. split; [|split_and!; [done..|by rewrite (live_blocks_put l _ _ _ _ Hb)]]. intros z ? ?. cbn. rewrite lookup_insert_ne; [done|]. destruct e; congruence.
Qed.

(** What the control [m] of the end [e] is to return and to make of the end. *)
Definition ctrl_done (s : bio_heap) (p : pipe) (e : bool) (m : B Z) (v : Z) (me' : endpoint) : Prop :=
  exists s', (ret ← m; mret (ret, OutNone)) s = (Some (v, OutNone), s') /\
  pair_rep l s' (pset p e (Some me')) /\ others_same l s s' /\ errors s' = errors s.

Lemma ctrl_get s p e m v me :
  pair_rep l s p -> p e = Some me -> m s = (Some v, s) -> ctrl_done s p e m v me.
Proof.
  intros Hr He E. exists s. rewrite (bind_ok _ _ _ _ _ E). split; [done|].
  split; [by apply pair_rep_same|by split_and!].
Qed.

Lemma ctrl_set s p e m v me me' h h' (peer := match p (negb e) with Some _ => Some (l (negb e)) | None => None end) :
  pair_rep l s p -> p e = Some me ->
  bios s !! l e = Some (bio_of (bool_decide (is_Some (p (negb e)))) me h) ->
  m s = (Some v, set_bios (<[l e := bio_of (bool_decide (is_Some (p (negb e)))) me' h']> (bios s)) s) ->
  half_ok peer me' h' -> end_ok me' -> (p (negb e) = None -> e_sent me' = []) -> ctrl_done s p e m v me'.
Proof.
  intros Hr He Hb E Hh Hok Hsent. eexists. rewrite (bind_ok _ _ _ _ _ E). split; [done|].
  split; [by eapply end_update|]. split; [by eapply others_same_upd|done].
Qed.

Lemma ctrl_pending s p e me h : pair_rep l s p -> p e = Some me ->
  half_ok (match p (negb e) with Some _ => Some (l (negb e)) | None => None end) me h ->
  (match b_peer h with
   | Some peer => peer_b ← get_half peer; mret (s64 (b_len peer_b))
   | None => mret 0
   end : B Z) s = (Some (match p (negb e) with Some peer => blen (e_sent peer) | None => 0 end), s).
Proof.
  intros Hr He Hh. rewrite (half_peer _ _ _ Hh). destruct (p (negb e)) as [peer|] eqn:Hn; [|done].
  destruct (end_rep_bio s p (negb e) peer Hr Hn) as (h2 & Hb2 & Hh2 & _).
  erewrite bind_ok by (by eapply get_half_run). rewrite (half_len _ _ _ Hh2).
  pose proof (half_bounds _ _ _ Hh2) as [? ?]. pose proof (blen_nonneg (e_sent peer)).
  by rewrite s64_small by lia.
Qed.

(** Whether an end has shut down and everything it sent was read. *)
Lemma ctrl_eof s p e o : pair_rep l s p -> p e = Some o ->
  (other_b ← get_half (l e); mret (if (b_len other_b =? 0) && negb (b_closed other_b =? 0) then 1 else 0) : B Z) s =
  (Some (if (blen (e_sent o) =? 0) && negb (e_closed o =? 0) then 1 else 0), s).
Proof.
  intros Hr He. destruct (end_rep_bio s p e o Hr He) as (h2 & Hb2 & Hh2 & _).
  erewrite bind_ok by (by eapply get_half_run). by rewrite (half_len _ _ _ Hh2), (half_closed _ _ _ Hh2).
Qed.

Lemma bio_ctrl_run e cmd num other s p me o v me' :
  pair_rep l s p -> p e = Some me ->
  match other with None => Some None | Some o => if cmd =? BIO_CTRL_EOF then Some <$> p o else Some None end = Some o ->
  ctrl_spec me (p (negb e)) cmd num o = (v, me') ->
  exists s', bio_ctrl (l e) cmd num (match other with None => ArgNull | Some o => ArgBio (l o) end) s =
    (Some (v, OutNone), s') /\
  pair_rep l s' (pset p e (Some me')) /\ others_same l s s' /\ errors s' = errors s.
Proof.
  intros Hr He Ho. destruct (end_rep_bio s p e me Hr He) as (h & Hb & Hh & Hok & Hbroken).
  pose proof (half_bounds _ _ _ Hh) as [Hcap Hfit]. pose proof (blen_nonneg (e_sent me)) as Hnn.
  pose proof (end_request _ Hok) as Hreq.
  unfold bio_ctrl. erewrite bind_ok by (by eapply get_half_run). unfold ctrl_spec.
  match goal with |- _ -> exists s', (?m ≫= _) _ = _ /\ _ => intros Hspec; change (ctrl_done s p e m v me') end.
  destruct (cmd =? BIO_C_GET_WRITE_BUF_SIZE).
  { injection Hspec as <- <-. apply ctrl_get; [done..|]. rewrite (half_size _ _ _ Hh), s64_small by lia. done. }
  destruct (cmd =? BIO_C_GET_WRITE_GUARANTEE).
  { injection Hspec as <- <-. apply ctrl_get; [done..|].
    rewrite (half_peer _ _ _ Hh), (half_closed _ _ _ Hh), (half_size _ _ _ Hh), (half_len _ _ _ Hh).
    rewrite (s64_small (e_cap me)), (wrap_small 64 (e_cap me)), (wrap_small 64 (_ - _)), s64_small by (try split; pow2; lia).
    destruct (p (negb e)); [|done]. rewrite bool_decide_eq_false_2 by done. by destruct (e_closed me =? 0). }
  destruct (cmd =? BIO_C_GET_READ_REQUEST).
  { injection Hspec as <- <-. apply ctrl_get; [done..|]. rewrite (half_request _ _ _ Hh), s64_small by lia. done. }
  destruct (cmd =? BIO_C_RESET_READ_REQUEST).
  { injection Hspec as <- <-. eapply ctrl_set; [done..| | | |done].
    - by erewrite bind_ok by (by eapply upd_half_run).
    - by apply half_ok_request.
    - destruct Hok. split; cbn; [done|lia|done]. }
  destruct (cmd =? BIO_C_SHUTDOWN_WR).
  { injection Hspec as <- <-. eapply ctrl_set; [done..| | | |done].
    - by erewrite bind_ok by (by eapply upd_half_run).
    - destruct Hh as [[? ? ? ? ?] ? ? ? ? ?]. by split.
    - by destruct Hok. }
  destruct (cmd =? BIO_CTRL_GET_CLOSE).
  { injection Hspec as <- <-. apply ctrl_get; [done..|]. by rewrite (bind_ok _ _ _ _ _ (get_bio_run _ _ _ Hb)). }
  destruct (cmd =? BIO_CTRL_SET_CLOSE).
  { injection Hspec as <- <-. eapply (ctrl_set _ _ _ _ _ _ _ _ h); [done..| | | |done].
    - by erewrite bind_ok by (by eapply upd_bio_run).
    - by eapply half_ok_same.
    - by destruct Hok. }
  destruct (cmd =? BIO_CTRL_PENDING).
  { injection Hspec as <- <-. apply ctrl_get; [done..|]. by eapply ctrl_pending. }
  destruct (cmd =? BIO_CTRL_WPENDING).
  { injection Hspec as <- <-. apply ctrl_get; [done..|].
    rewrite (ring_has_buf _ (half_ring _ _ _ Hh)), (half_len _ _ _ Hh), s64_small by lia. done. }
  destruct (cmd =? BIO_CTRL_FLUSH); [injection Hspec as <- <-; by eapply ctrl_get|].
  destruct (cmd =? BIO_CTRL_EOF); [|injection Hspec as <- <-; by eapply ctrl_get].
  injection Hspec as <- <-. apply ctrl_get; [done..|].
  destruct other as [e'|]; [|by injection Ho as <-].
  destruct (p e') as [o'|] eqn:Ho'; [|done]. injection Ho as <-. by eapply ctrl_eof.
Qed.

Lemma ctrl_ok e cmd num other s p : pair_rep l s p -> call_ok (OpCtrl e cmd num other) s p.
Proof.
  intros Hr r p' errs. unfold pair_spec. cbn [op_end].
  destruct (p e) as [me|] eqn:He; [|done]. cbn [mbind option_bind].
  destruct (end_rep_bio s p e me Hr He) as (h & Hb & _).
  destruct (match other with None => _ | Some _ => _ end) as [o|] eqn:Hm; [|done]. cbn [mbind option_bind].
  destruct (ctrl_spec me (p (negb e)) cmd num o) as [v me'] eqn:Hspec. intros [= <- <- <-].
  destruct (bio_ctrl_run e cmd num other s p me o v me' Hr He Hm Hspec) as (s' & E & ?).
  exists s'. split; [|done]. unfold pair_exec.
  rewrite (bind_ok _ _ _ (v, OutNone) s'); [done|].
  by rewrite (BIO_ctrl_run bio_ctrl _ _ _ _ _ _ Hb (biop_fn _ _ _ _)).
Qed.

Lemma retry_flags_ok e s p : pair_rep l s p -> call_ok (OpRetryFlags e) s p.
Proof.
  intros Hr r p' errs. unfold pair_spec. cbn [op_end].
  destruct (p e) as [me|] eqn:He; [|done]. cbn [mbind option_bind]. intros [= <- <- <-].
  destruct (end_rep_bio s p e me Hr He) as (h & Hb & _).
  exists s. split; [|by split_and!]. unfold pair_exec, BIO_get_retry_flags.
  rewrite (bind_ok _ _ _ (retry_flags (e_retry me)) s); [done|].
  rewrite (bind_ok _ _ _ _ _ (get_bio_run _ _ _ Hb)). cbn. by destruct (e_retry me).
Qed.

Lemma up_ref_ok e s p : pair_rep l s p -> call_ok (OpUpRef e) s p.
Proof.
  intros Hr r p' errs. unfold pair_spec. cbn [op_end].
  destruct (p e) as [me|] eqn:He; [|done]. cbn [mbind option_bind]. intros [= <- <- <-].
  destruct (end_rep_bio s p e me Hr He) as (h & Hb & Hh & Hok & Hbroken).
  set (me' := with_refs (Z.min (e_refs me + 1) CRYPTO_REFCOUNT_MAX) me).
  eexists. split; [|split; [|split; [by eapply others_same_upd|done]]].
  - unfold pair_exec, BIO_up_ref, mbind, M_bind. by rewrite (upd_bio_run _ _ _ _ Hb).
  - assert (CRYPTO_refcount_inc (e_refs me) = e_refs me') as Hinc.
    { unfold CRYPTO_refcount_inc. cbn. destruct Hok as [? _ _]. zcases; lia. }
    replace (set_references _ _) with (bio_of (bool_decide (is_Some (p (negb e)))) me' h)
      by (unfold set_references, bio_of; cbn [references]; by rewrite Hinc).
    eapply end_update; [done..|by eapply half_ok_same| |done|done].
    destruct Hok as [? ? ?]. split; cbn; [|done..]. unfold CRYPTO_REFCOUNT_MAX in *. lia.
Qed.

Lemma others_same_delete s e b0 b1 b :
  bios s !! l e = Some b0 -> bios s !! l (negb e) = Some b1 ->
  others_same l s (set_pair_blocks (pair_blocks s - 2) (set_bios (delete (l e) (<[l (negb e) := b]> (bios s))) s)).
Proof.
  intros E0 E1. split; [|split_and!; [done..|]].
  - intros z ? ?. cbn. rewrite lookup_delete_ne, lookup_insert_ne by (destruct e; cbn; congruence). done.
  - rewrite !(live_blocks_at _ _ e), E0, E1. cbn [bios set_pair_blocks set_bios pair_blocks].
    rewrite lookup_delete_eq, lookup_delete_ne, lookup_insert_eq by (by apply ends_differ). cbn. lia.
Qed.

(** The same for an end that has lost its peer. *)
Lemma others_same_delete_alone s e b0 :
  bios s !! l e = Some b0 -> bios s !! l (negb e) = None ->
  others_same l s (set_pair_blocks (pair_blocks s - 2) (set_bios (delete (l e) (bios s)) s)).
Proof.
  intros E0 E1. split; [|split_and!; [done..|]].
  - intros z ? ?. cbn. rewrite lookup_delete_ne by (destruct e; cbn; congruence). done.
  - rewrite !(live_blocks_at _ _ e), E0, E1. cbn [bios set_pair_blocks set_bios pair_blocks].
    rewrite lookup_delete_eq, lookup_delete_ne, E1 by (by apply ends_differ). cbn. lia.
Qed.

(** The last reference of a connected end. *)
Lemma free_joined_rep s p e peer hy :
  pair_rep l s p -> p (negb e) = Some peer -> half_ok (Some (l e)) peer hy -> end_ok peer ->
  pair_rep l (set_bios (delete (l e) (<[l (negb e) := bio_of false peer
      (set_b_offset 0 (set_b_len 0 (set_b_peer None hy)))]> (bios s))) s)
    (pset (pset p (negb e) (with_sent [] <$> p (negb e))) e None).
Proof.
  intros Hr Hn Hhy Hoky. rewrite Hn.
  apply (pair_rep_iff _ _ _ e). unfold end_rep. rewrite negb_involutive, pset_same, pset_other, pset_same.
  cbn [fmap option_fmap option_map]. split; [apply lookup_delete_eq|].
  eexists. cbn [bios set_bios]. rewrite lookup_delete_ne by (by apply ends_differ). rewrite lookup_insert_eq.
  split; [done|]. split; [by eapply half_ok_reset|]. split; [|done].
  destruct Hoky as [? ? ?]. split; cbn; [done| |done].
  pose proof (blen_nonneg (e_sent peer)). change (blen (@nil Z)) with 0. lia.
Qed.

Lemma free_last_ok e s p me :
  pair_rep l s p -> p e = Some me -> e_refs me = 1 -> exists s',
  BIO_free (Some (l e)) s = (Some 1, s') /\
  pair_rep l s' (pset (pset p (negb e) (with_sent [] <$> p (negb e))) e None) /\
  others_same l s s' /\ errors s' = errors s.
Proof.
  intros Hr He E. destruct (end_rep_bio s p e me Hr He) as (h & Hb & Hh & Hok & Hbroken).
  pose proof (BIO_free_run s _ me h (l e) Hb Hok) as Hrun. rewrite E in Hrun. cbn [Z.eqb Pos.eqb] in Hrun.
  destruct (p (negb e)) as [peer|] eqn:Hn.
  - destruct (end_rep_bio s p (negb e) peer Hr Hn) as (hy & Hby & Hhy & Hoky & _).
    rewrite negb_involutive, He in Hhy, Hby.
    pose proof (bio_free_run s (with_refs 0 me) peer h hy (l e) (l (negb e)) (ends_differ l Hl e)
      ltac:(by eapply half_ok_same) Hhy) as Hf.
    unfold put2 in Hf. rewrite (insert_id (bios s) (l (negb e))) in Hf by done.
    change (bool_decide (is_Some (Some peer))) with true in Hrun. rewrite Hf in Hrun.
    eexists. split; [done|]. split; [|split; [by eapply others_same_delete|done]].
    rewrite <-Hn. by eapply free_joined_rep.
  - rewrite (bio_free_alone _ false (with_refs 0 me) h) in Hrun; [|apply lookup_insert_eq|apply Hh].
    assert (half_blocks h = 2) as Hblocks
      by (unfold half_blocks; by destruct (half_ring _ _ _ Hh) as [_ (mem & -> & _) _ _ _]).
    rewrite Hblocks in Hrun. cbn [set_bios set_pair_blocks bios pair_blocks] in Hrun. rewrite delete_insert_eq in Hrun.
    pose proof (Hr (negb e)) as Hr2. unfold end_rep in Hr2. rewrite Hn in Hr2.
    exists (set_pair_blocks (pair_blocks s - 2) (set_bios (delete (l e) (bios s)) s)). split; [exact Hrun|].
    split; [|split; [by eapply others_same_delete_alone|done]].
    apply (pair_rep_iff _ _ _ e). unfold end_rep.
    rewrite negb_involutive, pset_same, pset_other, pset_same. cbn. split; [apply lookup_delete_eq|].
    by rewrite lookup_delete_ne by (by apply ends_differ).
Qed.

Lemma free_ok e s p : pair_rep l s p -> call_ok (OpFree e) s p.
Proof.
  intros Hr r p' errs. unfold pair_spec. cbn [op_end].
  destruct (p e) as [me|] eqn:He; [|done]. cbn [mbind option_bind]. unfold pair_exec.
  destruct (Z.eqb_spec (e_refs me) 1) as [E|E]; intros [= <- <- <-].
  - destruct (free_last_ok e s p me Hr He E) as (s' & E' & ?).
    exists s'. by rewrite (bind_ok _ _ _ _ _ E').
  - destruct (end_rep_bio s p e me Hr He) as (h & Hb & Hh & Hok & Hbroken).
    pose proof (BIO_free_run s _ me h (l e) Hb Hok) as Hrun. rewrite (proj2 (Z.eqb_neq _ _)) in Hrun by done.
    eexists. split; [by rewrite (bind_ok _ _ _ _ _ Hrun)|]. split; [|split; [by eapply others_same_upd|done]].
    eapply end_update; [done..| | | |done].
    + by destruct (_ <? _); [eapply half_ok_same|].
    + destruct Hok as [? ? ?]. destruct (Z.ltb_spec (e_refs me) CRYPTO_REFCOUNT_MAX); split; cbn; done || lia.
    + by destruct (_ <? _).
Qed.

(** The blocks of the ends of [p]. *)
Definition pipe_blocks (p : pipe) : Z :=
  (match p true with Some _ => 2 | None => 0 end) + (match p false with Some _ => 2 | None => 0 end).

Lemma live_blocks_rep s p : pair_rep l s p -> live_blocks l s = pipe_blocks p.
Proof.
  intros Hr. assert (forall e, end_blocks (bios s !! l e) = match p e with Some _ => 2 | None => 0 end) as E.
  { intros e. specialize (Hr e). unfold end_rep in Hr. destruct (p e); [by destruct Hr as (h & -> & _)|by rewrite Hr]. }
  unfold live_blocks, pipe_blocks. by rewrite !E.
Qed.

(** Every call. *)
Lemma pair_exec_ok op s p : pair_rep l s p -> op_ok op -> call_ok op s p.
Proof.
  intros Hr Hop. destruct op.
  - by apply read_ok.
  - by apply write_ok.
  - by apply ctrl_ok.
  - by apply retry_flags_ok.
  - by apply up_ref_ok.
  - by apply free_ok.
Qed.

Lemma pair_execs_ok ops s p rs p' errs :
  pair_rep l s p -> Forall op_ok ops -> pair_specs ops p = Some (rs, p', errs) -> exists s',
  pair_execs l ops s = (Some rs, s') /\ pair_rep l s' p' /\ others_same l s s' /\ errors s' = errs ++ errors s.
Proof.
  intros Hr Hops. revert s p rs p' errs Hr.
  induction Hops as [|op ops Hop _ IH]; intros s p rs p' errs Hr; cbn [pair_specs pair_execs].
  - intros [= <- <- <-]. exists s. by split_and!.
  - destruct (pair_spec op p) as [[[r p1] errs1]|] eqn:E1; [|done]. cbn [mbind option_bind].
    destruct (pair_specs ops p1) as [[[rs1 p2] errs2]|] eqn:E2; [|done]. cbn [mbind option_bind].
    intros [= <- <- <-].
    destruct (pair_exec_ok op s p Hr Hop r p1 errs1 E1) as (s1 & X1 & Hr1 & Ho1 & Y1).
    destruct (IH s1 p1 rs1 p2 errs2 Hr1 E2) as (s2 & X2 & Hr2 & Ho2 & Y2).
    exists s2. rewrite (bind_ok _ _ _ _ _ X1), (bind_ok _ _ _ _ _ X2). split; [done|]. split; [done|].
    split; [by eapply others_same_trans|by rewrite Y2, Y1, app_assoc].
Qed.
End Refine.
