(* ===== verification/BioPairNew.v ===== *)
(** Creating a BIO pair (crypto/bio/pair.c), with an allocator that may refuse
    any request. *)

From S2P Require Import Prelude CryptoInternal Buf Bio BioPair BioPairSpec BioPairQueue.

Definition fresh_half : bio_bio_st := BioBio None 0 0 0 (17 * 1024) None 0.

(** A BIO that [BIO_new] has just made. *)
Definition fresh_bio : BIO := Bio (Some methods_biop) 0 1 0 0 0 1 (BioBioPtr fresh_half) None 0 0.

Definition buffer_size (writebuf_len : Z) : Z := if writebuf_len =? 0 then 17 * 1024 else writebuf_len.

(** An end of a new pair. *)
Definition new_end (writebuf_len : Z) : endpoint := End [] (buffer_size writebuf_len) 0 0 NoRetry 1 1 0 0.
Definition new_pipe (writebuf1_len writebuf2_len : Z) : pipe :=
  fun e => Some (new_end (if e then writebuf1_len else writebuf2_len)).

Section New.
Context {ms : Mallocs} {ml : MallocsLaws ms} {mt : BioMethods} {pm : PairMethods mt}.

Lemma bio_malloc_run n s :
  bio_malloc n s = (Some (@OPENSSL_malloc (nth_malloc (requests s)) n), set_requests (S (requests s)) s).
Proof. done. Qed.

Lemma BIO_new_run s (n := requests s) :
  BIO_new methods_biop s =
  if granted n sizeof_BIO then
    if granted (S n) sizeof_bio_bio_st then
      let x := fresh (dom (bios s)) in
      (Some (Some x), set_pair_blocks (pair_blocks s + 1)
         (set_bios (<[x := fresh_bio]> (bios s)) (set_requests (S (S n)) s)))
    else (Some None, set_requests (S (S n)) s)
  else (Some None, set_errors (ERR_R_MALLOC_FAILURE :: errors s) (set_requests (S n) s)).
Proof.
  unfold BIO_new. rewrite (bind_ok _ _ _ _ _ (bio_malloc_run _ _)). fold n.
  destruct (@OPENSSL_malloc (nth_malloc n) sizeof_BIO) as [blk|] eqn:E1;
    [rewrite (granted_Some _ _ _ E1)|by rewrite (granted_None _ _ E1)].
  rewrite mget_bind. cbn [bios set_requests]. set (x := fresh (dom (bios s))).
  unfold set_bio. rewrite mmodify_bind, pair_methods. cbn [create methods_biop_table]. unfold bio_new.
  set (s1 := set_bios _ _).
  assert (bios s !! x = None) as Hx by (apply not_elem_of_dom, is_fresh).
  unfold mbind, M_bind. rewrite bio_malloc_run. change (requests s1) with (S n).
  destruct (@OPENSSL_malloc (nth_malloc (S n)) sizeof_bio_bio_st) as [blk2|] eqn:E2.
  - rewrite (granted_Some _ _ _ E2). unfold block_malloc, mmodify. erewrite upd_bio_run by (apply lookup_insert_eq).
    unfold mret, M_ret. cbn. f_equal. unfold s1, set_bios. cbn. by rewrite insert_insert_eq.
  - rewrite (granted_None _ _ E2). unfold mret, M_ret, mmodify. cbn. f_equal.
    unfold s1, set_bios. cbn. rewrite delete_insert_id by done. by destruct s.
Qed.

(** The heap after a request for a buffer of [n] bytes. *)
Definition requested (n : Z) (s : bio_heap) : bio_heap :=
  if granted (requests s) n then set_pair_blocks (pair_blocks s + 1) (set_requests (S (requests s)) s)
  else set_errors (ERR_R_MALLOC_FAILURE :: errors s) (set_requests (S (requests s)) s).

Lemma block_malloc_put2 s x y bx by_ :
  block_malloc (put2 s x bx y by_) = (Some tt, put2 (set_pair_blocks (pair_blocks s + 1) s) x bx y by_).
Proof. done. Qed.

(** The buffer of a half that has none. *)
Lemma make_buffer_run s x y w ey hy :
  x <> y -> 0 <= w < 2 ^ 63 ->
  exists mem,
  make_buffer x w (put2 s x fresh_bio y (bio_of false ey hy)) =
  (Some (granted (requests s) (buffer_size w)),
   put2 (requested (buffer_size w) s)
     x (bio_of false (new_end w) (set_b_buf mem (set_b_size (buffer_size w) fresh_half))) y (bio_of false ey hy)) /\
  if granted (requests s) (buffer_size w) then exists m, mem = Some m /\ blen m = buffer_size w else mem = None.
Proof.
  intros Hxy Hw. unfold make_buffer. change fresh_bio with (bio_of false (new_end w) fresh_half).
  set (h0 := set_b_size (buffer_size w) fresh_half). run2. cbn [b_buf fresh_half].
  assert ((if negb (w =? 0) then upd_half x (set_b_size w) else mret tt)
      (put2 s x (bio_of false (new_end w) fresh_half) y (bio_of false ey hy)) =
    (Some tt, put2 s x (bio_of false (new_end w) h0) y (bio_of false ey hy))) as E.
  { unfold h0, buffer_size. destruct (Z.eqb_spec w 0); [done|]. cbn [negb]. apply upd_half_x. }
  rewrite (bind_ok _ _ _ _ _ E). run2.
  rewrite (bind_ok _ _ _ _ _ (bio_malloc_run _ _)). change (b_size h0) with (buffer_size w).
  change (requests (put2 s x ?a y _)) with (requests s). unfold requested.
  change (set_requests ?n (put2 s x ?a y ?b)) with (put2 (set_requests n s) x a y b).
  destruct (@OPENSSL_malloc (nth_malloc (requests s)) (buffer_size w)) as [m|] eqn:Em; run2.
  - rewrite (granted_Some _ _ _ Em). rewrite (bind_ok _ _ _ _ _ (block_malloc_put2 _ _ _ _ _)).
    exists (Some m). split; [|exists m; split; [done|]].
    + run2. by destruct s.
    + apply (@OPENSSL_malloc_Some _ (nth_malloc_laws _)) in Em; [done|]. unfold buffer_size. destruct (w =? 0); lia.
  - rewrite (granted_None _ _ Em). exists None. split; [|done]. by destruct s.
Qed.

Lemma put2_swap s x y bx by_ : x <> y -> put2 s x bx y by_ = put2 s y by_ x bx.
Proof. intros. unfold put2. by rewrite insert_insert_ne. Qed.

(** An end whose buffer was allocated. *)
Lemma new_half_ok w m peer :
  0 <= w < 2 ^ 63 -> blen m = buffer_size w ->
  half_ok peer (new_end w) (set_b_request 0 (set_b_closed 0 (set_b_peer peer
    (set_b_buf (Some m) (set_b_size (buffer_size w) fresh_half))))).
Proof.
  intros Hw Hm. assert (0 < buffer_size w < 2 ^ 63) as Hs
    by (unfold buffer_size; destruct (Z.eqb_spec w 0); [split; reflexivity|lia]).
  split; try done. split; cbn; [done|by exists m|lia|lia|done].
Qed.

Lemma connect_x s x y jy ex ey hx hy :
  upd_bio x (set_init 1) (put2 s x (bio_of false ex hx) y (bio_of jy ey hy)) =
  (Some tt, put2 s x (bio_of true ex hx) y (bio_of jy ey hy)).
Proof. by rewrite (upd_bio_run _ _ _ _ (put2_x s x y _ _)), put2_set_x. Qed.

Lemma connect_y s x y jx ex ey hx hy : x <> y ->
  upd_bio y (set_init 1) (put2 s x (bio_of jx ex hx) y (bio_of false ey hy)) =
  (Some tt, put2 s x (bio_of jx ex hx) y (bio_of true ey hy)).
Proof. intros Hxy. by rewrite (upd_bio_run _ _ _ _ (put2_y s x y _ _ Hxy)), put2_set_y. Qed.

Lemma new_end_ok w : 0 <= w -> end_ok (new_end w).
Proof.
  intros. split; cbn; [done| |done]. change (blen (@nil Z)) with 0. unfold buffer_size.
  destruct (Z.eqb_spec w 0); lia.
Qed.

Lemma bio_make_pair_run s x y w1 w2 (b1 := buffer_size w1) (b2 := buffer_size w2) :
  x <> y -> 0 <= w1 < 2 ^ 63 -> 0 <= w2 < 2 ^ 63 ->
  exists ok s', bio_make_pair x y w1 w2 (put2 s x fresh_bio y fresh_bio) = (Some ok, s') /\
  if granted (requests s) b1 && granted (S (requests s)) b2 then
    exists hx hy, ok = 1 /\
    s' = put2 (set_pair_blocks (pair_blocks s + 2) (set_requests (S (S (requests s))) s))
           x (bio_of true (new_end w1) hx) y (bio_of true (new_end w2) hy) /\
    joined_ok x y (new_end w1) (new_end w2) hx hy
  else exists n hx hy, ok = 0 /\ b_peer hx = None /\ b_peer hy = None /\
    s' = put2 (set_pair_blocks (pair_blocks s + (half_blocks hx + half_blocks hy - 2))
                 (set_errors (ERR_R_MALLOC_FAILURE :: errors s) (set_requests n s)))
           x (bio_of false (new_end w1) hx) y (bio_of false (new_end w2) hy).
Proof.
  intros Hxy Hw1 Hw2. unfold bio_make_pair.
  destruct (make_buffer_run s x y w1 (new_end w2) fresh_half Hxy Hw1) as (m1 & E1 & Hm1).
  set (hx1 := set_b_buf m1 (set_b_size (buffer_size w1) fresh_half)) in *.
  change fresh_bio with (bio_of false (new_end w1) fresh_half) at 1.
  change fresh_bio with (bio_of false (new_end w2) fresh_half). run2. cbn [b_peer fresh_half].
  rewrite !bool_decide_eq_false_2 by (by intros []). cbn [orb].
  rewrite (bind_ok _ _ _ _ _ E1). fold b1 in Hm1 |- *. destruct (granted (requests s) b1) eqn:G1; cbn [negb andb].
  2: { eexists _, _. split; [done|]. exists (S (requests s)), hx1, fresh_half. unfold requested, hx1. rewrite G1, Hm1.
       split_and!; [done..|]. unfold set_pair_blocks, half_blocks. cbn. by rewrite Z.add_0_r. }
  destruct (make_buffer_run (requested b1 s) y x w2 (new_end w1) hx1 (not_eq_sym Hxy) Hw2) as (m2 & E2 & Hm2).
  set (hy1 := set_b_buf m2 (set_b_size (buffer_size w2) fresh_half)) in *.
  change (bio_of false (new_end w2) fresh_half) with fresh_bio. rewrite (put2_swap _ x y) by done.
  rewrite (bind_ok _ _ _ _ _ E2), (put2_swap _ y x) by done. fold b2 in Hm2 |- *.
  assert (requested b1 s = set_pair_blocks (pair_blocks s + 1) (set_requests (S (requests s)) s)) as Hreq
    by (unfold requested; by rewrite G1).
  assert (requests (requested b1 s) = S (requests s)) as Hn by (by rewrite Hreq).
  rewrite Hn in *. destruct Hm1 as (mem1 & Em1 & Hl1).
  destruct (granted (S (requests s)) b2) eqn:G2; cbn [negb].
  - destruct Hm2 as (mem2 & Em2 & Hl2). unfold hx1, hy1. rewrite Em1, Em2. run2.
    erewrite bind_ok by (by apply connect_x). erewrite bind_ok by (by apply connect_y).
    eexists _, _. split; [done|]. eexists _, _. split; [done|]. split.
    + unfold requested at 1. rewrite Hn, G2, Hreq. unfold set_pair_blocks. cbn. by rewrite <-Z.add_assoc.
    + split; [by apply new_half_ok|by apply new_half_ok|apply new_end_ok; lia..].
  - eexists _, _. split; [done|]. exists (S (S (requests s))), hx1, hy1. unfold requested at 1. rewrite Hn, G2, Hreq.
    split_and!; [done..|]. unfold hx1, hy1. rewrite Em1, Hm2. by destruct s.
Qed.

(** What failing calls may change: the error queue and the number of requests. *)
Definition same_bios (s s' : bio_heap) : Prop :=
  bios s' = bios s /\ bufs s' = bufs s /\ pair_blocks s' = pair_blocks s /\ exists es, errors s' = es ++ errors s.

Lemma BIO_new_cases s (n := requests s) : exists o s',
  BIO_new methods_biop s = (Some o, s') /\
  match o with
  | Some x => granted n sizeof_BIO && granted (S n) sizeof_bio_bio_st = true /\ bios s !! x = None /\
      s' = set_pair_blocks (pair_blocks s + 1) (set_bios (<[x := fresh_bio]> (bios s)) (set_requests (S (S n)) s))
  | None => granted n sizeof_BIO && granted (S n) sizeof_bio_bio_st = false /\ same_bios s s'
  end.
Proof.
  rewrite BIO_new_run. fold n. destruct (granted n _); [destruct (granted (S n) _)|].
  - eexists _, _. split; [done|]. split; [done|]. split; [apply not_elem_of_dom, is_fresh|done].
  - eexists None, _. split; [done|]. split; [done|]. split_and!; [done..|by exists []].
  - eexists None, _. split; [done|]. split; [done|]. split_and!; [done..|by exists [ERR_R_MALLOC_FAILURE]].
Qed.

Lemma BIO_free_alone s x e h :
  bios s !! x = Some (bio_of false e h) -> end_ok e -> e_refs e = 1 -> b_peer h = None ->
  BIO_free (Some x) s = (Some 1, set_pair_blocks (pair_blocks s - half_blocks h) (set_bios (delete x (bios s)) s)).
Proof.
  intros Hb Hok Hrefs Hp. rewrite (BIO_free_run s _ _ _ _ Hb Hok), Hrefs. cbn [Z.eqb Pos.eqb].
  rewrite (bio_free_alone _ false (with_refs 0 e) h x) by (by try apply lookup_insert_eq).
  unfold set_bios. cbn. by rewrite delete_insert_eq.
Qed.

Lemma BIO_free_NULL s : BIO_free None s = (Some 1, s).
Proof. done. Qed.

(** The six requests of [BIO_new_bio_pair]. *)
Definition pair_granted (n : nat) (w1 w2 : Z) : bool :=
  granted n sizeof_BIO && granted (1 + n) sizeof_bio_bio_st &&
  (granted (2 + n) sizeof_BIO && granted (3 + n) sizeof_bio_bio_st) &&
  (granted (4 + n) (buffer_size w1) && granted (5 + n) (buffer_size w2)).

(** What [BIO_new_bio_pair] returns. *)
Definition new_pair_post (s : bio_heap) (w1 w2 : Z) (ok : bool) (o : option (loc * loc)) (s' : bio_heap) : Prop :=
  if ok then
    exists x y, o = Some (x, y) /\ x <> y /\ bios s !! x = None /\ bios s !! y = None /\
    pair_rep (fun e => if e then x else y) s' (new_pipe w1 w2) /\
    bufs s' = bufs s /\ errors s' = errors s /\ pair_blocks s' = pair_blocks s + 4 /\
    (forall z, z <> x -> z <> y -> bios s' !! z = bios s !! z)
  else o = None /\ same_bios s s'.

Lemma free_both s x y ex ey hx hy :
  x <> y -> bios s !! x = None -> bios s !! y = None ->
  end_ok ex -> e_refs ex = 1 -> b_peer hx = None -> end_ok ey -> e_refs ey = 1 -> b_peer hy = None ->
  (_ ← BIO_free (Some x); _ ← BIO_free (Some y); mret (@None (loc * loc)))
    (put2 s x (bio_of false ex hx) y (bio_of false ey hy)) =
  (Some None, set_pair_blocks (pair_blocks s - (half_blocks hx + half_blocks hy)) s).
Proof.
  intros Hxy Hx Hy Ox Rx Px Oy Ry Py.
  rewrite (bind_ok _ _ _ _ _ (BIO_free_alone _ x ex hx (put2_x _ _ _ _ _) Ox Rx Px)).
  erewrite bind_ok.
  2: { eapply BIO_free_alone; [|done..]. cbn. rewrite delete_insert_eq, lookup_delete_ne by done. apply lookup_insert_eq. }
  unfold set_bios, set_pair_blocks, put2. cbn.
  by rewrite delete_insert_eq, delete_delete, delete_insert_eq, (delete_id _ y), (delete_id _ x), <-Z.sub_add_distr by done.
Qed.

Lemma free_fresh s s2 x :
  bios s !! x = None -> bios s2 = <[x := fresh_bio]> (bios s) ->
  BIO_free (Some x) s2 = (Some 1, set_pair_blocks (pair_blocks s2 - 1) (set_bios (bios s) s2)).
Proof.
  intros Hx Hb. erewrite BIO_free_alone with (e := new_end 0) (h := fresh_half).
  - by rewrite Hb, delete_insert_id.
  - rewrite Hb. apply lookup_insert_eq.
  - by apply new_end_ok.
  - done.
  - done.
Qed.

Lemma pair_connect s x y w1 w2 :
  x <> y -> bios s !! x = None -> bios s !! y = None -> 0 <= w1 < 2 ^ 63 -> 0 <= w2 < 2 ^ 63 ->
  exists o s', (ok ← bio_make_pair x y w1 w2;
    if ok =? 0 then _ ← BIO_free (Some x); _ ← BIO_free (Some y); mret None else mret (Some (x, y)))
      (put2 (set_pair_blocks (pair_blocks s + 2) s) x fresh_bio y fresh_bio) = (Some o, s') /\
  new_pair_post s w1 w2 (granted (requests s) (buffer_size w1) && granted (S (requests s)) (buffer_size w2)) o s'.
Proof.
  intros Hxy Hx Hy Hw1 Hw2.
  destruct (bio_make_pair_run (set_pair_blocks (pair_blocks s + 2) s) x y w1 w2 Hxy Hw1 Hw2) as (ok & s1 & E & Hpost).
  change (requests (set_pair_blocks _ s)) with (requests s) in Hpost. rewrite (bind_ok _ _ _ _ _ E).
  destruct (_ && _).
  - destruct Hpost as (hx & hy & -> & -> & Hj). eexists _, _. split; [done|].
    exists x, y. split_and!; try done.
    + apply (pair_rep_iff _ _ _ true).
      pose proof (pair_rep_put2 (fun e : bool => if e then x else y) Hxy
        (set_requests (S (S (requests s))) s) (new_pipe w1 w2) true _ _ _ _ Hj) as Hr.
      split; [exact (Hr true)|exact (Hr false)].
    + cbn. lia.
    + intros z ? ?. cbn. by rewrite !lookup_insert_ne.
  - destruct Hpost as (n & hx & hy & -> & Px & Py & ->). eexists _, _. split.
    + by apply free_both; [..|apply new_end_ok; lia|done|done|apply new_end_ok; lia|done|done].
    + split; [done|]. split_and!; [done|done|cbn; lia|by exists [ERR_R_MALLOC_FAILURE]].
Qed.

Lemma new_pair_ok s w1 w2 :
  0 <= w1 < 2 ^ 63 -> 0 <= w2 < 2 ^ 63 -> exists o s', BIO_new_bio_pair w1 w2 s = (Some o, s') /\
  new_pair_post s w1 w2 (pair_granted (requests s) w1 w2) o s'.
Proof.
  intros Hw1 Hw2. unfold BIO_new_bio_pair, bio_s_bio, pair_granted.
  destruct (BIO_new_cases s) as (o1 & s1 & E1 & H1). rewrite (bind_ok _ _ _ _ _ E1).
  destruct (BIO_new_cases s1) as (o2 & s2 & E2 & H2). rewrite (bind_ok _ _ _ _ _ E2).
  destruct o1 as [x|].
  - destruct H1 as (G1 & Hx & ->). cbn [requests set_bios set_requests bios set_pair_blocks pair_blocks] in H2.
    cbn [Nat.add]. rewrite G1. cbn [andb].
    destruct o2 as [y|].
    + destruct H2 as (-> & Hy & ->). cbn [andb].
      apply lookup_insert_None in Hy as [Hy Hxy].
      destruct (pair_connect (set_requests (S (S (S (S (requests s))))) s) x y w1 w2 Hxy Hx Hy Hw1 Hw2)
        as (o & s' & E & Hpost). exists o, s'. split; [|done].
      rewrite <-E. f_equal. unfold put2, set_pair_blocks. cbn. by rewrite insert_insert_ne, <-Z.add_assoc.
    + destruct H2 as (-> & Hb & Hbuf & Hblk & es & Herr). cbn [andb]. rewrite bind_ret.
      rewrite (bind_ok _ _ _ _ _ (free_fresh s s2 x Hx Hb)), (bind_ok _ _ _ _ _ (BIO_free_NULL _)).
      eexists _, _. split; [done|]. split; [done|]. split_and!; [done|done|cbn in *; lia|by exists es].
  - destruct H1 as (G1 & Hb & Hbuf & Hblk & es & Herr). cbn [Nat.add]. rewrite G1. cbn [andb].
    destruct o2 as [y|]; rewrite bind_ret, (bind_ok _ _ _ _ _ (BIO_free_NULL _)).
    + destruct H2 as (_ & Hy & ->). erewrite bind_ok by (apply (free_fresh s1); [exact Hy|reflexivity]).
      eexists _, _. split; [done|]. split; [done|]. split_and!; [done|done|cbn; lia|by exists es].
    + destruct H2 as (_ & Hb2 & Hbuf2 & Hblk2 & es2 & Herr2). rewrite (bind_ok _ _ _ _ _ (BIO_free_NULL _)).
      eexists _, _. split; [done|]. split; [done|]. split_and!; [congruence..|].
      exists (es2 ++ es). by rewrite Herr2, Herr, app_assoc.
Qed.
End New.

Definition empty_heap : bio_heap := BioHeap ∅ ∅ [] 0 0.
