(* ===== verification/BioPairTheorems.v ===== *)
(** BIO pairs as their users see them: two queues, streams that lose nothing,
    and transfers that end. *)

From S2P Require Import Prelude CryptoInternal Buf Bio BioPair BioPairSpec BioPairQueue BioPairNew.

(** * What went through *)

Definition accepted_by (e : bool) (op : pair_op) (r : pair_res) : list Z :=
  match op with
  | OpWrite e' (Some data) _ => if eqb e e' then take (Z.to_nat (r_ret r)) data else []
  | _ => []
  end.

Definition received_by (e : bool) (op : pair_op) (r : pair_res) : list Z :=
  match op with
  | OpRead e' _ _ => if eqb e e' then take (Z.to_nat (r_ret r)) (default [] (r_buf r)) else []
  | _ => []
  end.

(** The bytes that the calls of [e] have put in, and got out. *)
Definition accepted (e : bool) (ops : list pair_op) (rs : list pair_res) : list Z :=
  concat (zip_with (accepted_by e) ops rs).
Definition received (e : bool) (ops : list pair_op) (rs : list pair_res) : list Z :=
  concat (zip_with (received_by e) ops rs).

(** Calls that do not free an end. *)
Definition keeps_ends (op : pair_op) : Prop := match op with OpFree _ => False | _ => True end.

(** Two connected ends within their capacities. *)
Definition pipe_ok (p : pipe) : Prop := forall e, exists me, p e = Some me /\ blen (e_sent me) <= e_cap me.

Lemma read_spec_stream me peer buf n : 0 < n ->
  let '(r, me', peer', _) := read_spec me peer buf n in
  e_sent me' = e_sent me /\ e_cap me' = e_cap me /\ e_cap peer' = e_cap peer /\
  e_sent peer = take (Z.to_nat (r_ret r)) (default [] (r_buf r)) ++ e_sent peer'.
Proof.
  intros Hn. unfold read_spec. destruct buf as [out|]; [|done].
  destruct (Z.eqb_spec (blen (e_sent (with_request 0 peer))) 0) as [E|E].
  - by destruct (negb _).
  - cbn [r_ret r_buf default id e_sent with_nread with_sent with_retry with_request e_cap]. split_and!; [done..|].
    cbn [e_sent with_request] in E. set (k := Z.min n (blen (e_sent peer))).
    pose proof (blen_nonneg (e_sent peer)).
    rewrite take_app_le by (rewrite length_take; unfold k, blen in *; lia).
    by rewrite take_take, Nat.min_id, take_drop.
Qed.

Lemma write_spec_stream me peer buf n : 0 < n -> blen (e_sent me) <= e_cap me ->
  let '(r, me', peer', _) := write_spec me peer buf n in
  e_sent peer' = e_sent peer /\ e_cap me' = e_cap me /\ e_cap peer' = e_cap peer /\
  blen (e_sent me') <= e_cap me' /\
  e_sent me' = e_sent me ++ take (Z.to_nat (r_ret r)) (default [] buf).
Proof.
  intros Hn Hfit. unfold write_spec. destruct buf as [data|]; [|cbn; rewrite app_nil_r; by split_and!].
  destruct (negb _); [cbn; rewrite app_nil_r; by split_and!|].
  destruct (Z.eqb_spec (blen (e_sent (with_request 0 (with_retry NoRetry me)))) (e_cap (with_request 0 (with_retry NoRetry me)))).
  - cbn. rewrite app_nil_r. by split_and!.
  - cbn [r_ret e_sent e_cap with_nwrite with_sent with_request with_retry default id]. split_and!; [done..| |done].
    rewrite blen_app. unfold blen at 2. rewrite length_take. lia.
Qed.

Lemma ctrl_spec_stream me joined cmd num other :
  e_sent (ctrl_spec me joined cmd num other).2 = e_sent me /\ e_cap (ctrl_spec me joined cmd num other).2 = e_cap me.
Proof. unfold ctrl_spec. by repeat (destruct (cmd =? _); [done|]). Qed.

Lemma pset_neq p e v : pset p (negb e) v e = p e.
Proof. unfold pset. by destruct e. Qed.

Lemma pset_eq p e v : pset p e v e = v.
Proof. unfold pset. by rewrite eqb_reflx. Qed.

Lemma pset_neq' p e v : pset p e v (negb e) = p (negb e).
Proof. unfold pset. by destruct e. Qed.

(** The streams of both directions across one call. *)
Definition stream_step (p p' : pipe) (op : pair_op) (r : pair_res) : Prop :=
  forall e, exists me me', p e = Some me /\ p' e = Some me' /\
    blen (e_sent me') <= e_cap me' /\ e_cap me' = e_cap me /\
    e_sent me ++ accepted_by e op r = received_by (negb e) op r ++ e_sent me'.

Lemma stream_step_at p p' op r e0 me peer me' peer' :
  op_end op = e0 -> p e0 = Some me -> p (negb e0) = Some peer ->
  p' e0 = Some me' -> p' (negb e0) = Some peer' ->
  blen (e_sent me') <= e_cap me' -> blen (e_sent peer') <= e_cap peer' ->
  e_cap me' = e_cap me -> e_cap peer' = e_cap peer ->
  e_sent me ++ accepted_by e0 op r = e_sent me' -> e_sent peer = received_by e0 op r ++ e_sent peer' ->
  stream_step p p' op r.
Proof.
  intros <- He Hn He' Hn' ? ? ? ? Hacc Hrec e.
  assert (accepted_by (negb (op_end op)) op r = [] /\ received_by (negb (op_end op)) op r = []) as [Ha Hb].
  { destruct op as [[] [?|] ?|[] [?|] ?|[]|[]|[]|[]]; done. }
  destruct (decide (e = op_end op)) as [->|Hne].
  - exists me, me'. rewrite Hacc, Hb. by split_and!.
  - assert (e = negb (op_end op)) as -> by (destruct e, (op_end op); done).
    exists peer, peer'. rewrite negb_involutive, Ha, app_nil_r. by split_and!.
Qed.

Lemma pair_spec_stream op p r p' errs :
  pair_spec op p = Some (r, p', errs) -> keeps_ends op -> pipe_ok p -> stream_step p p' op r.
Proof.
  intros Hspec Hkeep Hp. destruct (Hp (op_end op)) as (me & He & Hfit), (Hp (negb (op_end op))) as (peer & Hn & Hfit2).
  unfold pair_spec in Hspec. rewrite He in Hspec. cbn [mbind option_bind] in Hspec.
  destruct op as [e buf n|e buf n|e cmd num other|e|e|e]; [| | | | |done]; cbn [op_end] in *; rewrite ?Hn in Hspec.
  - destruct (Z.leb_spec n 0) as [Hn0|Hn0].
    + injection Hspec as <- <- <-. apply (stream_step_at _ _ _ _ e me peer me peer); try done; cbn; [by rewrite app_nil_r|].
      unfold received_by. by rewrite eqb_reflx.
    + pose proof (read_spec_stream me peer buf n Hn0) as Hs.
      destruct (read_spec me peer buf n) as [[[r0 me'] peer'] errs0]. injection Hspec as <- <- <-.
      destruct Hs as (H1 & H2 & H3 & H4).
      apply (stream_step_at _ _ _ _ e me peer me' peer'); try done; cbn [accepted_by received_by]; rewrite ?eqb_reflx;
        [rewrite pset_neq; apply pset_eq|apply pset_eq|congruence| |by rewrite app_nil_r|done].
      rewrite H3. rewrite H4, blen_app in Hfit2. blia.
  - destruct (Z.leb_spec n 0) as [Hn0|Hn0].
    + injection Hspec as <- <- <-. apply (stream_step_at _ _ _ _ e me peer me peer); try done; unfold accepted_by.
      rewrite eqb_reflx. destruct buf; cbn; by rewrite app_nil_r.
    + pose proof (write_spec_stream me peer buf n Hn0 Hfit) as Hs.
      destruct (write_spec me peer buf n) as [[[r0 me'] peer'] errs0]. injection Hspec as <- <- <-.
      destruct Hs as (H1 & H2 & H3 & H4 & H5).
      apply (stream_step_at _ _ _ _ e me peer me' peer'); try done; cbn [accepted_by received_by]; rewrite ?eqb_reflx;
        [rewrite pset_neq; apply pset_eq|apply pset_eq|congruence|].
      rewrite H5. destruct buf; [done|]. cbn. by rewrite take_nil.
  - destruct (match other with None => _ | Some _ => _ end) as [o|]; [|done]. cbn [mbind option_bind] in Hspec.
    pose proof (ctrl_spec_stream me (p (negb e)) cmd num o) as [H1 H2]. rewrite Hn in *.
    destruct (ctrl_spec me _ cmd num o) as [v me']. injection Hspec as <- <- <-. cbn in H1, H2.
    apply (stream_step_at _ _ _ _ e me peer me' peer); try done; [apply pset_eq|by rewrite pset_neq'|congruence|].
    cbn. by rewrite app_nil_r.
  - injection Hspec as <- <- <-. apply (stream_step_at _ _ _ _ e me peer me peer); try done. cbn. by rewrite app_nil_r.
  - injection Hspec as <- <- <-.
    apply (stream_step_at _ _ _ _ e me peer (with_refs (Z.min (e_refs me + 1) CRYPTO_REFCOUNT_MAX) me) peer); try done; [apply pset_eq|by rewrite pset_neq'|cbn; by rewrite app_nil_r].
Qed.

(** Nothing is lost, made up or reordered: what the other end has got, and what
    is still on its way, is what was accepted. *)
Lemma pair_specs_stream ops : forall p rs p' errs,
  pair_specs ops p = Some (rs, p', errs) -> Forall keeps_ends ops -> pipe_ok p ->
  forall e, exists me me', p e = Some me /\ p' e = Some me' /\ blen (e_sent me') <= e_cap me' /\ e_cap me' = e_cap me /\
    e_sent me ++ accepted e ops rs = received (negb e) ops rs ++ e_sent me'.
Proof.
  induction ops as [|op ops IH]; intros p rs p' errs; cbn [pair_specs].
  - intros [= <- <- <-] _ Hp e. destruct (Hp e) as (me & He & ?). exists me, me. cbn. rewrite app_nil_r. by split_and!.
  - intros Hs [Hk Hks]%Forall_cons Hp e.
    destruct (pair_spec op p) as [[[r p1] errs1]|] eqn:E1; [|done]. cbn [mbind option_bind] in Hs.
    destruct (pair_specs ops p1) as [[[rs1 p2] errs2]|] eqn:E2; [|done]. cbn [mbind option_bind] in Hs.
    injection Hs as <- <- <-.
    pose proof (pair_spec_stream op p r p1 errs1 E1 Hk Hp) as Hstep.
    destruct (IH p1 rs1 p2 errs2 E2 Hks) with (e := e) as (m1 & m2 & Hm1 & Hm2 & Hfit & Hcap & Hst).
    { intros e'. destruct (Hstep e') as (? & me' & _ & ? & ? & _). by exists me'. }
    destruct (Hstep e) as (me & me' & He & He' & _ & Hcap1 & Hst1). rewrite Hm1 in He'. injection He' as <-.
    exists me, m2. split_and!; [done..|congruence|]. unfold accepted, received in *. cbn [zip_with concat].
    by rewrite app_assoc, Hst1, <-!app_assoc, Hst.
Qed.

(** * Transfers *)

(** One side tries to write what it has left, the other to read up to [k]
    bytes, in any order. *)
Inductive transfer_step := TryWrite | TryRead (k : Z).

Section Transfer.
Context {ms : Mallocs} {mt : BioMethods}.

(** The loop of a non-blocking application: [todo] is left to write, [got] was
    read. *)
Fixpoint transfer (w r : loc) (steps : list transfer_step) (todo got : list Z) : B (list Z * list Z) :=
  match steps with
  | [] => mret (todo, got)
  | TryWrite :: steps =>
      ret ← BIO_write (Some w) (Some todo) (Z.min (blen todo) INT_MAX);
      transfer w r steps (drop (Z.to_nat ret) todo) got
  | TryRead k :: steps =>
      '(ret, buf) ← BIO_read (Some r) (Some (replicate (Z.to_nat k) 0)) k;
      transfer w r steps todo (got ++ take (Z.to_nat ret) (default [] buf))
  end.
End Transfer.

(** What is on its way, left to write, and read. *)
Record progress := Progress { sent : list Z; todo : list Z; got : list Z }.

Definition transfer_spec (cap : Z) (st : progress) (step : transfer_step) : progress :=
  match step with
  | TryWrite =>
      let k := Z.min (Z.min (blen (todo st)) INT_MAX) (cap - blen (sent st)) in
      Progress (sent st ++ take (Z.to_nat k) (todo st)) (drop (Z.to_nat k) (todo st)) (got st)
  | TryRead k =>
      let j := Z.to_nat (Z.min k (blen (sent st))) in
      Progress (drop j (sent st)) (todo st) (got st ++ take j (sent st))
  end.

Definition step_ok (step : transfer_step) : Prop :=
  match step with TryWrite => True | TryRead k => 1 <= k <= INT_MAX end.

(** How much is not read yet. *)
Definition remaining (st : progress) : nat := length (sent st) + length (todo st).

Lemma transfer_spec_stream cap st step :
  got (transfer_spec cap st step) ++ sent (transfer_spec cap st step) ++ todo (transfer_spec cap st step) =
  got st ++ sent st ++ todo st.
Proof.
  destruct step as [|k]; cbn [transfer_spec got sent todo].
  - by rewrite <-(app_assoc (sent st)), take_drop.
  - by rewrite <-(app_assoc (got st)), (app_assoc (take _ _)), take_drop.
Qed.

Lemma steps_stream cap steps : forall st,
  let st' := foldl (transfer_spec cap) st steps in
  got st' ++ sent st' ++ todo st' = got st ++ sent st ++ todo st.
Proof. induction steps as [|step steps IH]; intros st; cbn; [done|]. by rewrite IH, transfer_spec_stream. Qed.

Lemma transfer_spec_fits cap st step :
  blen (sent st) <= cap -> blen (sent (transfer_spec cap st step)) <= cap.
Proof.
  intros. destruct step as [|k]; cbn [transfer_spec sent]; unfold blen in *.
  - rewrite length_app, length_take. lia.
  - rewrite length_drop. lia.
Qed.

Lemma remaining_le cap st step : blen (sent st) <= cap ->
  (remaining (transfer_spec cap st step) <= remaining st)%nat.
Proof.
  intros. unfold remaining, blen in *. destruct step as [|k]; cbn [transfer_spec sent todo].
  - rewrite length_app, length_take, length_drop. lia.
  - rewrite length_drop. lia.
Qed.

(** After an attempt to write something is on its way. *)
Lemma write_progress cap st :
  0 < cap -> blen (sent st) <= cap -> (0 < remaining st)%nat -> sent (transfer_spec cap st TryWrite) <> [].
Proof.
  intros Hc Hf Hr E. apply (f_equal length) in E. cbn [transfer_spec sent length] in E.
  rewrite length_app, length_take in E. unfold remaining, blen, INT_MAX in *. lia.
Qed.

Lemma read_progress cap st k :
  1 <= k -> sent st <> [] -> (remaining (transfer_spec cap st (TryRead k)) < remaining st)%nat.
Proof.
  intros Hk Hs. unfold remaining, blen. cbn [transfer_spec sent todo]. rewrite length_drop.
  destruct (sent st); [done|]. unfold blen. cbn [length]. lia.
Qed.

(** A segment of a fair schedule: an attempt to write, and later one to read. *)
Definition fair (steps : list transfer_step) : Prop :=
  Forall step_ok steps /\ exists a b c k, steps = a ++ TryWrite :: b ++ TryRead k :: c.

Lemma steps_fit cap steps : forall st,
  blen (sent st) <= cap -> blen (sent (foldl (transfer_spec cap) st steps)) <= cap.
Proof. induction steps; intros; cbn; [done|]. by apply IHsteps, transfer_spec_fits. Qed.

Lemma steps_le cap steps : forall st, blen (sent st) <= cap ->
  (remaining (foldl (transfer_spec cap) st steps) <= remaining st)%nat.
Proof.
  induction steps as [|step steps IH]; intros st Hf; cbn; [done|].
  etrans; [by apply IH, transfer_spec_fits|by apply remaining_le].
Qed.

(** What is on its way stays there until it is read. *)
Lemma steps_keep cap steps : forall st, Forall step_ok steps -> blen (sent st) <= cap -> sent st <> [] ->
  sent (foldl (transfer_spec cap) st steps) <> [] \/
  (remaining (foldl (transfer_spec cap) st steps) < remaining st)%nat.
Proof.
  induction steps as [|step steps IH]; intros st Hok Hf Hs; cbn; [by left|].
  apply Forall_cons in Hok as [Hstep Hok]. destruct step as [|k].
  - assert (sent (transfer_spec cap st TryWrite) <> []) as Hs'.
    { cbn. intros [? _]%app_eq_nil. done. }
    destruct (IH _ Hok (transfer_spec_fits cap st TryWrite Hf) Hs') as [?|?]; [by left|right].
    pose proof (remaining_le cap st TryWrite Hf). lia.
  - right. pose proof (read_progress cap st k ltac:(apply Hstep) Hs).
    pose proof (steps_le cap steps _ (transfer_spec_fits cap st (TryRead k) Hf)). lia.
Qed.

Lemma fair_progress cap steps st :
  fair steps -> 0 < cap -> blen (sent st) <= cap -> (0 < remaining st)%nat ->
  (remaining (foldl (transfer_spec cap) st steps) < remaining st)%nat.
Proof.
  intros [Hok (a & b & c & k & ->)] Hc Hf Hr.
  rewrite !Forall_app, !Forall_cons, Forall_app, Forall_cons in Hok. destruct Hok as (Ha & _ & Hb & Hk & Hcs).
  rewrite foldl_app. cbn [foldl]. rewrite foldl_app. cbn [foldl].
  pose proof (steps_le cap a st Hf) as Hle1. pose proof (steps_fit cap a st Hf) as Hf1.
  set (s1 := foldl (transfer_spec cap) st a) in *.
  pose proof (remaining_le cap s1 TryWrite Hf1) as Hle2. pose proof (transfer_spec_fits cap s1 TryWrite Hf1) as Hf2.
  pose proof (steps_le cap b _ Hf2) as Hle3. pose proof (steps_fit cap b _ Hf2) as Hf3.
  pose proof (remaining_le cap _ (TryRead k) Hf3) as Hle4. pose proof (transfer_spec_fits cap _ (TryRead k) Hf3) as Hf4.
  pose proof (steps_le cap c _ Hf4) as Hle5.
  destruct (decide (remaining s1 = 0)%nat) as [E|E]; [lia|].
  destruct (steps_keep cap b _ Hb Hf2 (write_progress cap s1 Hc Hf1 ltac:(lia))) as [Hs|?]; [|lia].
  pose proof (read_progress cap _ k ltac:(apply Hk) Hs). lia.
Qed.

Lemma fair_done cap segs : forall st,
  Forall fair segs -> 0 < cap -> blen (sent st) <= cap -> (remaining st <= length segs)%nat ->
  remaining (foldl (transfer_spec cap) st (concat segs)) = 0%nat.
Proof.
  induction segs as [|seg segs IH]; intros st Hfair Hc Hf Hr; cbn [concat foldl].
  - cbn in *. lia.
  - apply Forall_cons in Hfair as [Hseg Hsegs]. rewrite foldl_app.
    apply IH; [done..|by apply steps_fit|].
    pose proof (steps_le cap seg st Hf). destruct (decide (remaining st = 0)%nat); [cbn in *; lia|].
    pose proof (fair_progress cap seg st Hseg Hc Hf ltac:(lia)). cbn in Hr. lia.
Qed.

(** ** The loop on the heap *)

(** The state of a transfer from [w] on. *)
Definition transfer_at (p : pipe) (w : bool) (cap : Z) (bs : list Z) : Prop :=
  exists me peer, p w = Some me /\ p (negb w) = Some peer /\ e_closed me = 0 /\ e_cap me = cap /\ e_sent me = bs.

Lemma write_spec_transfer p w cap bs td g (st := Progress bs td g) :
  transfer_at p w cap bs -> blen bs <= cap -> exists r p' errs,
  pair_spec (OpWrite w (Some td) (Z.min (blen td) INT_MAX)) p = Some (r, p', errs) /\
  transfer_at p' w cap (sent (transfer_spec cap st TryWrite)) /\
  drop (Z.to_nat (r_ret r)) td = todo (transfer_spec cap st TryWrite).
Proof.
  intros (me & peer & He & Hn & Hc & <- & <-) Hf. unfold pair_spec. cbn [op_end]. rewrite He. cbn [mbind option_bind]. rewrite Hn.
  pose proof (blen_nonneg td) as Htd. set (n := Z.min (blen td) INT_MAX). cbn [transfer_spec sent todo st]. fold n.
  destruct (Z.leb_spec n 0) as [Hn0|Hn0].
  { assert (n = 0) as -> by (unfold n, INT_MAX in *; lia). rewrite Z.min_l by lia.
    eexists _, _, _. split; [done|]. cbn. rewrite app_nil_r. split; [|done]. by exists me, peer. }
  unfold write_spec. cbn [e_closed e_sent e_cap e_nwrite with_request with_retry]. rewrite Hc. cbn [Z.eqb negb].
  destruct (Z.eqb_spec (blen (e_sent me)) (e_cap me)) as [E|E].
  - eexists _, _, _. split; [done|]. rewrite E, Z.sub_diag, Z.min_r by lia. cbn. rewrite app_nil_r. split; [|done].
    eexists _, _. rewrite pset_neq, !pset_eq. by split_and!.
  - eexists _, _, _. split; [done|]. split; [|done].
    eexists _, _. rewrite pset_neq, !pset_eq. by split_and!.
Qed.

Lemma read_spec_transfer p w cap td g bs k (st := Progress bs td g) :
  transfer_at p w cap bs -> 1 <= k <= INT_MAX -> exists r p' errs,
  pair_spec (OpRead (negb w) (Some (replicate (Z.to_nat k) 0)) k) p = Some (r, p', errs) /\
  transfer_at p' w cap (sent (transfer_spec cap st (TryRead k))) /\
  g ++ take (Z.to_nat (r_ret r)) (default [] (r_buf r)) = got (transfer_spec cap st (TryRead k)).
Proof.
  intros (me & peer & He & Hn & Hc & <- & <-) Hk. unfold pair_spec. cbn [op_end]. rewrite Hn, negb_involutive.
  cbn [mbind option_bind]. rewrite He, (proj2 (Z.leb_gt _ _)) by lia.
  cbn [transfer_spec sent got st]. pose proof (blen_nonneg (e_sent me)) as Hs.
  unfold read_spec. cbn [e_sent with_request e_closed e_cap]. rewrite Hc.
  destruct (Z.eqb_spec (blen (e_sent me)) 0) as [E|E].
  - eexists _, _, _. split; [done|]. replace (Z.min k (blen (e_sent me))) with 0 by lia. cbn [Z.eqb negb r_ret r_buf default id].
    change (Z.to_nat (-1)) with 0%nat. change (Z.to_nat 0) with 0%nat. rewrite drop_0, !take_0.
    split; [|done]. eexists _, _. rewrite pset_eq. rewrite (pset_neq' _ w), pset_eq. by split_and!.
  - eexists _, _, _. split; [done|]. split.
    + eexists _, _. rewrite pset_eq. rewrite (pset_neq' _ w), pset_eq. by split_and!.
    + cbn [r_ret r_buf default id]. f_equal.
      rewrite take_app_le by (rewrite length_take; unfold blen in *; lia). by rewrite take_take, Nat.min_id.
Qed.

Section Run.
Context {ms : Mallocs} {mt : BioMethods} {pm : PairMethods mt}.
Context (l : bool -> loc) (Hl : l true <> l false).

Lemma transfer_run w cap steps : forall s p bs td g,
  pair_rep l s p -> transfer_at p w cap bs -> blen bs <= cap -> Forall step_ok steps ->
  let st := foldl (transfer_spec cap) (Progress bs td g) steps in
  exists s' p', transfer (l w) (l (negb w)) steps td g s = (Some (todo st, got st), s') /\
    pair_rep l s' p' /\ transfer_at p' w cap (sent st) /\ others_same l s s'.
Proof.
  induction steps as [|step steps IH]; intros s p bs td g Hr Ht Hf Hok; cbn [foldl transfer].
  - exists s, p. by split_and!.
  - apply Forall_cons in Hok as [Hstep Hok].
    set (st := Progress bs td g). pose proof (transfer_spec_fits cap st step Hf) as Hf'.
    destruct step as [|k].
    + destruct (write_spec_transfer p w cap bs td g Ht Hf) as (r & p1 & errs & Es & Ht1 & Hd).
      destruct (pair_exec_ok l Hl (OpWrite w (Some td) (Z.min (blen td) INT_MAX)) s p Hr ltac:(cbn; lia) _ _ _ Es)
        as (s1 & Ex & Hr1 & Ho1 & _).
      unfold pair_exec in Ex. apply bind_Some in Ex as (ret & s1' & Ex & E2). injection E2 as <- ->.
      rewrite (bind_ok _ _ _ _ _ Ex). cbn [r_ret] in Hd. rewrite Hd.
      destruct (IH s1 p1 _ (todo (transfer_spec cap st TryWrite)) g Hr1 Ht1 Hf' Hok) as (s2 & p2 & E & Hr2 & Ht2 & Ho2).
      exists s2, p2. split; [done|]. split; [done|]. split; [done|]. by eapply others_same_trans.
    + destruct (read_spec_transfer p w cap td g bs k Ht Hstep) as (r & p1 & errs & Es & Ht1 & Hd).
      destruct (pair_exec_ok l Hl (OpRead (negb w) (Some (replicate (Z.to_nat k) 0)) k) s p Hr
        ltac:(cbn in *; rewrite blen_replicate; lia) _ _ _ Es) as (s1 & Ex & Hr1 & Ho1 & _).
      unfold pair_exec in Ex. apply bind_Some in Ex as ([ret buf] & s1' & Ex & E2). injection E2 as <- ->.
      rewrite (bind_ok _ _ _ _ _ Ex). cbn [r_ret r_buf] in Hd. rewrite Hd.
      destruct (IH s1 p1 _ td (got (transfer_spec cap st (TryRead k))) Hr1 Ht1 Hf' Hok) as (s2 & p2 & E & Hr2 & Ht2 & Ho2).
      exists s2, p2. split; [done|]. split; [done|]. split; [done|]. by eapply others_same_trans.
Qed.
End Run.

(** * The properties *)

Lemma pipe_ok_new w1 w2 : 0 <= w1 -> 0 <= w2 -> pipe_ok (new_pipe w1 w2).
Proof.
  intros ? ? e. eexists. split; [done|]. cbn. change (blen (@nil Z)) with 0.
  unfold buffer_size. destruct (_ =? 0) eqn:E; [done|]. destruct e; lia.
Qed.

(** Calls on two connected ends are defined. *)
Lemma pair_specs_total ops : forall p, pipe_ok p -> Forall keeps_ends ops ->
  exists rs p' errs, pair_specs ops p = Some (rs, p', errs).
Proof.
  induction ops as [|op ops IH]; intros p Hp Hk; cbn [pair_specs]; [by eexists _, _, _|].
  apply Forall_cons in Hk as [Hop Hk].
  assert (exists r p1 errs, pair_spec op p = Some (r, p1, errs)) as (r & p1 & errs & E).
  { unfold pair_spec. destruct (Hp (op_end op)) as (me & -> & _). cbn [mbind option_bind].
    destruct op as [e buf n|e buf n|e cmd num [o|]|e|e|e];
      try match goal with |- exists r p errs, Some ?t = _ => destruct t as [[? ?] ?]; by eexists _, _, _ end.
    - destruct (Hp o) as (other & -> & _). cbn [fmap option_fmap option_map].
      destruct (match _ with true => _ | false => _ end) as [x|] eqn:Ex; [|by destruct (cmd =? _)].
      cbn [mbind option_bind]. destruct (ctrl_spec _ _ _ _ _). by eexists _, _, _.
    - cbn [mbind option_bind]. destruct (ctrl_spec _ _ _ _ _). by eexists _, _, _. }
  pose proof (pair_spec_stream op p r p1 errs E Hop Hp) as Hs.
  destruct (IH p1) as (rs & p2 & errs2 & E2); [|done|].
  { intros e. destruct (Hs e) as (? & me' & _ & ? & ? & _). by exists me'. }
  rewrite E. cbn [mbind option_bind]. rewrite E2. cbn. by eexists _, _, _.
Qed.

Section Properties.
Context {ms : Mallocs} {mt : BioMethods}.

(** The locations of the ends. *)
Definition pair_locs (xy : loc * loc) : bool -> loc := fun e => if e then xy.1 else xy.2.

(** C6: A BIO pair is a pair of bounded queues. [BIO_new_bio_pair] gives two
    BIOs exactly if each of its six allocations is granted, and otherwise
    leaves no BIO and none of their blocks behind. From then on any sequence of reads, writes, controls
    (pending bytes, write guarantee, read request, shutdown, end of file, close
    flag), reference counting and frees, by either end and in any order,
    returns what the specification by two queues returns: results, bytes,
    retry flags and errors. No call leaves the ring buffer, fails an assertion
    or uses a freed end, other BIOs are not touched, and the halves and ring
    buffers that are allocated are at any time those of the ends not yet freed:
    none is lost, none is freed twice. *)
Theorem bio_pair_refines_queues w1 w2 s :
  MallocsLaws ms -> PairMethods mt -> 0 <= w1 < 2 ^ 63 -> 0 <= w2 < 2 ^ 63 ->
  exists o s1, BIO_new_bio_pair w1 w2 s = (Some o, s1) /\
  match o with
  | None => pair_granted (requests s) w1 w2 = false /\ bios s1 = bios s /\ bufs s1 = bufs s /\
      pair_blocks s1 = pair_blocks s
  | Some xy => pair_granted (requests s) w1 w2 = true /\
      xy.1 <> xy.2 /\ bios s !! xy.1 = None /\ bios s !! xy.2 = None /\
      forall ops rs p errs, Forall op_ok ops -> pair_specs ops (new_pipe w1 w2) = Some (rs, p, errs) ->
      exists s2, pair_execs (pair_locs xy) ops s1 = (Some rs, s2) /\ errors s2 = errs ++ errors s /\
        pair_rep (pair_locs xy) s2 p /\ bufs s2 = bufs s /\ pair_blocks s2 = pair_blocks s + pipe_blocks p /\
        forall z, z <> xy.1 -> z <> xy.2 -> bios s2 !! z = bios s !! z
  end.
Proof.
  intros Hml Hpm Hw1 Hw2. destruct (new_pair_ok s w1 w2 Hw1 Hw2) as (o & s1 & E & Hpost).
  exists o, s1. split; [done|]. unfold new_pair_post in Hpost. destruct (pair_granted _ _ _).
  - destruct Hpost as (x & y & -> & Hxy & Hx & Hy & Hr & Hb & He & Hblk & Hf). split_and!; [done..|].
    intros ops rs p errs Hok Hs.
    destruct (pair_execs_ok (pair_locs (x, y)) Hxy ops s1 _ rs p errs Hr Hok Hs) as (s2 & Ex & Hr2 & (F & G & _ & H) & Y).
    rewrite (live_blocks_rep _ _ _ Hr2), (live_blocks_rep (pair_locs (x, y)) s1 _ Hr) in H.
    change (pipe_blocks (new_pipe w1 w2)) with 4 in H.
    exists s2. split_and!; [done|by rewrite Y, He|done|congruence|lia|]. intros z ? ?. cbn in *. by rewrite F, Hf.
  - destruct Hpost as (-> & Hb & Hbuf & Hblk & _). by split_and!.
Qed.

(** C7: Streams are kept: as long as no end is freed, any sequence of calls is
    defined, and at each moment the bytes that a side has accepted from its
    callers are the bytes that the other side has handed out, in the same
    order, followed by at most a buffer's worth of bytes still on their way. *)
Theorem bio_pair_streams w1 w2 s xy s1 ops :
  MallocsLaws ms -> PairMethods mt -> 0 <= w1 < 2 ^ 63 -> 0 <= w2 < 2 ^ 63 ->
  BIO_new_bio_pair w1 w2 s = (Some (Some xy), s1) ->
  Forall op_ok ops -> Forall keeps_ends ops ->
  exists rs s2, pair_execs (pair_locs xy) ops s1 = (Some rs, s2) /\
  forall e : bool, exists on_the_way,
    accepted e ops rs = received (negb e) ops rs ++ on_the_way /\
    blen on_the_way <= buffer_size (if e then w1 else w2).
Proof.
  intros Hml Hpm Hw1 Hw2 Hnew Hok Hk. destruct (new_pair_ok s w1 w2 Hw1 Hw2) as (o & s1' & E & Hpost).
  rewrite Hnew in E. injection E as <- <-. unfold new_pair_post in Hpost. destruct (pair_granted _ _ _); [|by destruct Hpost].
  destruct Hpost as (x & y & [= ->] & Hxy & _ & _ & Hr & _).
  pose proof (pipe_ok_new w1 w2 ltac:(lia) ltac:(lia)) as Hp.
  destruct (pair_specs_total ops (new_pipe w1 w2) Hp Hk) as (rs & p' & errs & Hs).
  destruct (pair_execs_ok (pair_locs (x, y)) Hxy ops s1 _ rs p' errs Hr Hok Hs) as (s2 & Ex & Hr2 & _).
  exists rs, s2. split; [done|]. intros e.
  destruct (pair_specs_stream ops _ rs p' errs Hs Hk Hp e) as (me & me' & [= <-] & Hme' & Hfit & Hcap & Hst).
  exists (e_sent me'). split; [done|]. by rewrite Hcap in Hfit.
Qed.

(** C8: Transfers end: whatever the capacities, when one side keeps trying to
    write the rest of [data] and the other keeps reading, in any interleaving
    in which an attempt to write is followed by an attempt to read at least as
    often as there are bytes, everything has been written, and the reader has
    exactly [data]. *)
Theorem bio_pair_delivers w1 w2 s xy s1 (w : bool) data segs :
  MallocsLaws ms -> PairMethods mt -> 0 <= w1 < 2 ^ 63 -> 0 <= w2 < 2 ^ 63 ->
  BIO_new_bio_pair w1 w2 s = (Some (Some xy), s1) ->
  Forall fair segs -> (length data <= length segs)%nat ->
  exists s2, transfer (pair_locs xy w) (pair_locs xy (negb w)) (concat segs) data [] s1 = (Some ([], data), s2).
Proof.
  intros Hml Hpm Hw1 Hw2 Hnew Hfair Hlen. destruct (new_pair_ok s w1 w2 Hw1 Hw2) as (o & s1' & E & Hpost).
  rewrite Hnew in E. injection E as <- <-. unfold new_pair_post in Hpost. destruct (pair_granted _ _ _); [|by destruct Hpost].
  destruct Hpost as (x & y & [= ->] & Hxy & _ & _ & Hr & _).
  set (cap := buffer_size (if w then w1 else w2)).
  assert (0 < cap) as Hcap by (unfold cap, buffer_size; destruct (Z.eqb_spec (if w then w1 else w2) 0); [lia|destruct w; lia]).
  set (st := Progress [] data []).
  assert (Forall step_ok (concat segs)) as Hok
    by (apply Forall_concat; eapply Forall_impl; [exact Hfair|by intros ? []]).
  destruct (transfer_run (pair_locs (x, y)) Hxy w cap (concat segs) s1 (new_pipe w1 w2) [] data [] Hr)
    as (s2 & p2 & Ex & _ & _ & _); [by eexists _, _|by apply Z.lt_le_incl|done|].
  exists s2. rewrite Ex. fold st.
  pose proof (fair_done cap segs st Hfair Hcap (Z.lt_le_incl _ _ Hcap)) as Hd.
  pose proof (steps_stream cap (concat segs) st) as Hstream. cbv zeta in Hstream.
  set (f := foldl (transfer_spec cap) st (concat segs)) in *.
  assert (sent f = [] /\ todo f = []) as [E1 E2].
  { unfold remaining in Hd. cbn in Hd. split; apply length_zero_iff_nil; lia. }
  rewrite E1, E2 in Hstream. cbn in Hstream. rewrite ?app_nil_r in Hstream. by rewrite E2, Hstream.
Qed.
End Properties.

(** * Witnesses *)

#[export] Instance step_ok_dec step : Decision (step_ok step).
Proof. destruct step; cbn; apply _. Defined.
#[export] Instance op_ok_dec op : Decision (op_ok op).
Proof. destruct op as [? [?|] ?|? [?|] ?|? ? ? ?|?|?|?]; cbn; apply _. Defined.
#[export] Instance keeps_ends_dec op : Decision (keeps_ends op).
Proof. destruct op; cbn; apply _. Defined.

Definition pair_table : BioMethods := fun _ => @methods_biop_table zero_mallocs.
#[export] Instance pair_table_methods : @PairMethods zero_mallocs pair_table.
Proof. done. Qed.

(** Writing past the end of a buffer of four bytes, reading around its end, a
    shutdown, and a read after the other end is gone. *)
Definition pair_example : list pair_op :=
  [OpRead false (Some [0; 0; 0]) 3; OpCtrl true BIO_C_GET_READ_REQUEST 0 None;
   OpWrite true (Some [1; 2; 3; 4; 5; 6]) 6; OpRead false (Some [0; 0; 0]) 3;
   OpWrite true (Some [7; 8]) 2; OpRead false (Some [9; 9; 9; 9; 9]) 5;
   OpCtrl true BIO_C_SHUTDOWN_WR 0 None; OpWrite true (Some [1]) 1;
   OpRead false (Some [0]) 1; OpFree true; OpRead false (Some [0]) 1].

Lemma bio_pair_refines_queues_witness :
  exists xy s1 s2, @BIO_new_bio_pair zero_mallocs pair_table 4 3 empty_heap = (Some (Some xy), s1) /\
  @pair_execs pair_table (pair_locs xy) pair_example s1 =
    (Some [Res (-1) (Some [0; 0; 0]); Res 3 None; Res 4 None; Res 3 (Some [1; 2; 3]); Res 2 None;
           Res 3 (Some [4; 7; 8; 9; 9]); Res 1 None; Res (-1) None; Res 0 (Some [0]); Res 1 None;
           Res (-2) (Some [0])], s2).
Proof.
  destruct (@bio_pair_refines_queues zero_mallocs pair_table 4 3 empty_heap) as (o & s1 & E & H);
    [apply _|apply _|by split|by split|].
  destruct o as [xy|]; [|by destruct H as [? _]].
  destruct H as (_ & _ & _ & _ & H).
  assert ((fun x => x.1.1) <$> pair_specs pair_example (new_pipe 4 3) =
    Some [Res (-1) (Some [0; 0; 0]); Res 3 None; Res 4 None; Res 3 (Some [1; 2; 3]); Res 2 None;
           Res 3 (Some [4; 7; 8; 9; 9]); Res 1 None; Res (-1) None; Res 0 (Some [0]); Res 1 None;
           Res (-2) (Some [0])]) as Hs by (vm_compute; reflexivity).
  destruct (pair_specs pair_example (new_pipe 4 3)) as [[[rs p] errs]|] eqn:Es; [|done].
  injection Hs as ->. edestruct (H pair_example) as (s2 & Ex & _);
    [apply (bool_decide_unpack _); vm_compute; done|exact Es|].
  exists xy, s1, s2. split; [done|exact Ex].
Defined.

Lemma bio_pair_streams_witness :
  exists xy s1 rs s2, @BIO_new_bio_pair zero_mallocs pair_table 4 3 empty_heap = (Some (Some xy), s1) /\
  @pair_execs pair_table (pair_locs xy) (take 9 pair_example) s1 = (Some rs, s2).
Proof.
  destruct (@BIO_new_bio_pair zero_mallocs pair_table 4 3 empty_heap) as [[[xy|]|] s1] eqn:E;
    [|by vm_compute in E|by vm_compute in E].
  destruct (@bio_pair_streams zero_mallocs pair_table 4 3 empty_heap xy s1 (take 9 pair_example)) as (rs & s2 & Ex & _);
    [apply _|apply _|by split|by split|done|apply (bool_decide_unpack _); vm_compute; done..|].
  exists xy, s1, rs, s2. split; [reflexivity|exact Ex].
Defined.

Lemma bio_pair_delivers_witness :
  exists xy s1 s2, @BIO_new_bio_pair zero_mallocs pair_table 2 1 empty_heap = (Some (Some xy), s1) /\
  @transfer pair_table (pair_locs xy false) (pair_locs xy true)
    [TryRead 4; TryWrite; TryRead 1; TryWrite; TryWrite; TryRead 2; TryWrite; TryRead 1] [5; 6; 7] [] s1 =
  (Some ([], [5; 6; 7]), s2).
Proof.
  destruct (@BIO_new_bio_pair zero_mallocs pair_table 2 1 empty_heap) as [[[xy|]|] s1] eqn:E;
    [|by vm_compute in E|by vm_compute in E].
  destruct (@bio_pair_delivers zero_mallocs pair_table 2 1 empty_heap xy s1 false [5; 6; 7]
    [[TryRead 4; TryWrite; TryRead 1]; [TryWrite; TryWrite; TryRead 2]; [TryWrite; TryRead 1]]) as (s2 & Ex);
    [apply _|apply _|by split|by split|done| |done|].
  - repeat apply Forall_cons_2; [..|by apply Forall_nil_2];
      (split; [apply (bool_decide_unpack _); vm_compute; exact I|]).
    + by exists [TryRead 4], [], [], 1.
    + by exists [], [TryWrite], [], 2.
    + by exists [], [], [], 1.
  - exists xy, s1, s2. split; [reflexivity|exact Ex].
Defined.
