(* ===== verification/BioMem.v ===== *)
(** crypto/bio/bio_mem.c: BIOs over a [BUF_MEM], read-write or over bytes of the
    caller's that are only read. *)

From S2P Require Import Prelude CryptoInternal Buf Bio.

Definition get_buf (l : loc) : B BUF_MEM := s ← mget; mopt (bufs s !! l).
Definition set_buf (l : loc) (b : BUF_MEM) : B unit := mmodify (fun s => set_bufs (<[l := b]> (bufs s)) s).

(** The [BUF_MEM] that [bio->ptr] points to. *)
Definition mem_ptr (b : BIO) : option loc := match ptr b with BufMemPtr l => Some l | _ => None end.
Definition get_mem (bio : loc) : B (loc * BUF_MEM) :=
  bb ← get_bio bio; l ← mopt (mem_ptr bb); b ← get_buf l; mret (l, b).

(** What a [BUF_MEM] function put into the error queue. *)
Definition put_buf_errors (es : list buf_error) : B unit :=
  mmodify (fun s => set_errors (map ERR_BUF es ++ errors s) s).

(** Run a [BUF_MEM] function with the allocator of the next request. *)
Definition on_buf `{Mallocs} {A} (l : loc) (f : Malloc -> M buf_call A) : B A :=
  b ← get_buf l;
  i ← next_request;
  '(a, c) ← on_copy (BufCall b []) (f (nth_malloc i));
  _ ← set_buf l (bmem c);
  _ ← put_buf_errors (bqueue c);
  mret a.

(** [bio->flags & BIO_FLAGS_MEM_RDONLY] *)
Definition rdonly (b : BIO) : bool := negb (Z.land (flags b) BIO_FLAGS_MEM_RDONLY =? 0).

Section Mem.
Context {ms : Mallocs}.

(** [BUF_MEM_free]: the data has to be NULL or the start of a block. *)
Definition buf_mem_free (l : loc) : B unit :=
  b ← get_buf l;
  _ ← massert (is_NULL (buf_data b) || (at_ (buf_data b) =? 0));
  mmodify (fun s => set_bufs (delete l (bufs s)) s).

Definition mem_new (bio : loc) : B Z :=
  i ← next_request;
  '(b, es) ← on_copy [] (@BUF_MEM_new (nth_malloc i));
  _ ← put_buf_errors es;
  match b with
  | None => mret 0
  | Some b =>
      s ← mget;
      let l := fresh (dom (bufs s)) in
      _ ← set_buf l b;
      _ ← upd_bio bio (set_shutdown 1);
      _ ← upd_bio bio (set_init 1);
      _ ← upd_bio bio (set_num (-1));
      _ ← upd_bio bio (set_ptr (BufMemPtr l));
      mret 1
  end.

Definition mem_free (bio : loc) : B Z :=
  bb ← get_bio bio;
  if (shutdown bb =? 0) || (init bb =? 0) then mret 1
  else
    match ptr bb with
    | NULL_void => mret 1
    | _ =>
        '(l, b) ← get_mem bio;
        _ ← (if rdonly bb then set_buf l (set_buf_data NULL_ptr b) else mret tt);
        _ ← buf_mem_free l;
        _ ← upd_bio bio (set_ptr NULL_void);
        mret 1
    end.

Definition mem_read (bio : loc) (out : option (list Z)) (outl : Z) : B (Z * option (list Z)) :=
  '(l, b) ← get_mem bio;
  _ ← BIO_clear_retry_flags bio;
  let ret := if (buf_length b <? INT_MAX) && (s32 (buf_length b) <? outl) then s32 (buf_length b) else outl in
  if 0 <? ret then
    bs ← mopt (ptr_load (buf_data b) 0 ret);
    out ← store_at out 0 bs;
    let b := set_buf_length (u64 (buf_length b - ret)) b in
    bb ← get_bio bio;
    _ ← (if rdonly bb then set_buf l (set_buf_data (ptr_add (buf_data b) ret) b)
         else
           rest ← mopt (ptr_load (buf_data b) ret (buf_length b));
           d ← mopt (ptr_store (buf_data b) 0 rest);
           set_buf l (set_buf_data d b));
    mret (ret, out)
  else if buf_length b =? 0 then
    bb ← get_bio bio;
    _ ← (if negb (num bb =? 0) then BIO_set_retry_read bio else mret tt);
    mret (num bb, out)
  else mret (ret, out).

(** The differences and sums of [int]s may not overflow. *)
Definition int_ok (z : Z) : bool := (- 2 ^ 31 <=? z) && (z <? 2 ^ 31).

Definition mem_write (bio : loc) (buf : option (list Z)) (inl : Z) : B Z :=
  '(l, b) ← get_mem bio;
  bb ← get_bio bio;
  if rdonly bb then _ ← put_error BIO_R_WRITE_TO_READ_ONLY_BIO; mret (-1)
  else
    _ ← BIO_clear_retry_flags bio;
    let blen := s32 (buf_length b) in
    _ ← massert (int_ok (INT_MAX - blen));
    if INT_MAX - blen <? inl then mret (-1)
    else
      _ ← massert (int_ok (blen + inl));
      n ← on_buf l (fun m => @BUF_MEM_grow_clean m (u64 (blen + inl)));
      if negb (n =? u64 (u64 blen + u64 inl)) then mret (-1)
      else
        b ← get_buf l;
        bs ← load_at buf 0 inl;
        d ← mopt (ptr_store (buf_data b) blen bs);
        _ ← set_buf l (set_buf_data d b);
        mret inl.

(** How far a line goes: up to and including the first newline, or [j]. *)
Fixpoint gets_loop (fuel : nat) (p : char_ptr) (i j : Z) : B Z :=
  if i <? j then
    match fuel with
    | O => mfail
    | S fuel =>
        c ← mopt (ptr_load p i 1);
        if bool_decide (c = [10]) then mret (i + 1) else gets_loop fuel p (i + 1) j
    end
  else mret i.

Definition mem_gets (bio : loc) (buf : option (list Z)) (size : Z) : B (Z * option (list Z)) :=
  '(l, b) ← get_mem bio;
  _ ← BIO_clear_retry_flags bio;
  let j := s32 (buf_length b) in
  let j := if size - 1 <? j then size - 1 else j in
  if j <=? 0 then
    buf ← (if 0 <? size then store_at buf 0 [0] else mret buf);
    mret (0, buf)
  else
    i ← gets_loop (Z.to_nat j) (buf_data b) 0 j;
    '(i, buf) ← mem_read bio buf i;
    buf ← (if 0 <? i then store_at buf i [0] else mret buf);
    mret (i, buf).

Definition mem_ctrl (bio : loc) (cmd num : Z) (ptr : ctrl_arg) : B (Z * ctrl_out) :=
  if cmd =? BIO_CTRL_RESET then
    '(l, b) ← get_mem bio;
    bb ← get_bio bio;
    _ ← (if is_NULL (buf_data b) then mret tt
         else if rdonly bb then
           set_buf l (set_buf_length (buf_max b) (set_buf_data (ptr_add (buf_data b) (- (buf_max b - buf_length b))) b))
         else
           d ← mopt (ptr_store (buf_data b) 0 (replicate (Z.to_nat (buf_max b)) 0));
           set_buf l (set_buf_length 0 (set_buf_data d b)));
    mret (1, OutNone)
  else if cmd =? BIO_CTRL_EOF then
    '(_, b) ← get_mem bio; mret ((if buf_length b =? 0 then 1 else 0), OutNone)
  else if cmd =? BIO_C_SET_BUF_MEM_EOF_RETURN then
    _ ← upd_bio bio (set_num (s32 num)); mret (1, OutNone)
  else if cmd =? BIO_CTRL_INFO then
    '(_, b) ← get_mem bio;
    mret (s64 (buf_length b), match ptr with ArgNull => OutNone | _ => OutData (buf_data b) end)
  else if cmd =? BIO_C_SET_BUF_MEM then
    _ ← mem_free bio;
    _ ← upd_bio bio (set_shutdown (s32 num));
    _ ← upd_bio bio (set_ptr (match ptr with ArgBuf l => BufMemPtr l | _ => NULL_void end));
    mret (1, OutNone)
  else if cmd =? BIO_C_GET_BUF_MEM_PTR then
    '(l, _) ← get_mem bio;
    mret (1, match ptr with ArgNull => OutNone | _ => OutBuf l end)
  else if cmd =? BIO_CTRL_GET_CLOSE then bb ← get_bio bio; mret (shutdown bb, OutNone)
  else if cmd =? BIO_CTRL_SET_CLOSE then
    _ ← upd_bio bio (set_shutdown (s32 num)); mret (1, OutNone)
  else if cmd =? BIO_CTRL_WPENDING then mret (0, OutNone)
  else if cmd =? BIO_CTRL_PENDING then
    '(_, b) ← get_mem bio; mret (s64 (buf_length b), OutNone)
  else if cmd =? BIO_CTRL_FLUSH then mret (1, OutNone)
  else mret (0, OutNone).

Definition mem_method_table : BIO_METHOD :=
  BioMethod BIO_TYPE_MEM (Some mem_write) (Some mem_read) (Some mem_gets) (Some mem_ctrl) (Some mem_new) (Some mem_free).

Context {mt : BioMethods}.

Definition BIO_s_mem : bio_method := mem_method.

(** [buf] is the caller's object; [strlen] of NULL is undefined behaviour. *)
Definition BIO_new_mem_buf (buf : option (list Z)) (len : Z) : B (option loc) :=
  size ← (if len <? 0 then str ← mopt buf; mret (OPENSSL_strnlen str) else mret (u64 len));
  if bool_decide (buf = None) && negb (len =? 0) then
    _ ← put_error BIO_R_NULL_PARAMETER; mret None
  else
    ret ← BIO_new BIO_s_mem;
    match ret with
    | None => mret None
    | Some ret =>
        '(l, b) ← get_mem ret;
        _ ← set_buf l (set_buf_max size (set_buf_length size (set_buf_data (CharPtr buf 0) b)));
        _ ← upd_bio ret (fun bb => set_flags (Z.lor (flags bb) BIO_FLAGS_MEM_RDONLY) bb);
        _ ← upd_bio ret (set_num 0);
        mret (Some ret)
    end.

(** The contents and their length, or [None] for the result 0. *)
Definition BIO_mem_contents (bio : loc) : B (option (char_ptr * Z)) :=
  bb ← get_bio bio;
  if bool_decide (method bb = Some mem_method) then
    '(_, b) ← get_mem bio; mret (Some (buf_data b, buf_length b))
  else mret None.

Definition BIO_get_mem_data (bio : option loc) : B (Z * ctrl_out) := BIO_ctrl bio BIO_CTRL_INFO 0 ArgOut.
Definition BIO_get_mem_ptr (bio : option loc) : B (Z * ctrl_out) :=
  '(r, out) ← BIO_ctrl bio BIO_C_GET_BUF_MEM_PTR 0 ArgOut; mret (s32 r, out).
Definition BIO_set_mem_buf (bio : option loc) (b : option loc) (take_ownership : Z) : B Z :=
  '(r, _) ← BIO_ctrl bio BIO_C_SET_BUF_MEM take_ownership
              (match b with Some l => ArgBuf l | None => ArgNull end);
  mret (s32 r).
Definition BIO_set_mem_eof_return (bio : option loc) (eof_value : Z) : B Z :=
  '(r, _) ← BIO_ctrl bio BIO_C_SET_BUF_MEM_EOF_RETURN eof_value ArgNull; mret (s32 r).
End Mem.

(** * The methods of this library *)

Definition bio_method_table `{Mallocs} (pairs : BIO_METHOD) : BioMethods := fun m =>
  match m with methods_biop => pairs | mem_method => mem_method_table end.

(** A table of methods with that of memory BIOs in it. *)
Class MemMethods {ms : Mallocs} (mt : BioMethods) : Prop :=
  mem_methods : bio_methods mem_method = mem_method_table.
