(* ===== verification/BioMemSpec.v ===== *)
(** Memory BIOs (crypto/bio/bio_mem.c) as strings of bytes that are appended to
    at the end and read from the start. *)

From S2P Require Import Prelude CryptoInternal Buf Bio BioMem BioPairQueue BioPairNew.

(** * The specification *)

(** What is left to read; the whole of the caller's bytes, if the BIO only reads
    them; the result at the end of the data. *)
Record mem_state := Mem {
  m_data : list Z;
  m_static : option (list Z);
  m_eof : Z;
  m_retry : bool;
  m_shutdown : Z;
  m_nread : Z;
  m_nwrite : Z
}.

Definition with_data (d : list Z) (m : mem_state) : mem_state :=
  Mem d (m_static m) (m_eof m) (m_retry m) (m_shutdown m) (m_nread m) (m_nwrite m).
Definition with_eof (v : Z) (m : mem_state) : mem_state :=
  Mem (m_data m) (m_static m) v (m_retry m) (m_shutdown m) (m_nread m) (m_nwrite m).
Definition with_mretry (v : bool) (m : mem_state) : mem_state :=
  Mem (m_data m) (m_static m) (m_eof m) v (m_shutdown m) (m_nread m) (m_nwrite m).
Definition with_mshutdown (v : Z) (m : mem_state) : mem_state :=
  Mem (m_data m) (m_static m) (m_eof m) (m_retry m) v (m_nread m) (m_nwrite m).
Definition with_mnread (v : Z) (m : mem_state) : mem_state :=
  Mem (m_data m) (m_static m) (m_eof m) (m_retry m) (m_shutdown m) v (m_nwrite m).
Definition with_mnwrite (v : Z) (m : mem_state) : mem_state :=
  Mem (m_data m) (m_static m) (m_eof m) (m_retry m) (m_shutdown m) (m_nread m) v.

Definition read_only (m : mem_state) : bool := bool_decide (is_Some (m_static m)).

(** A line: up to and including the first newline. *)
Fixpoint take_line (l : list Z) : list Z :=
  match l with
  | [] => []
  | c :: l => if c =? 10 then [c] else c :: take_line l
  end.

(** Calls; [buf] is the caller's buffer. *)
Inductive mem_op :=
  | MRead (buf : list Z) (n : Z)
  | MGets (buf : list Z) (n : Z)
  | MWrite (buf : list Z) (n : Z)
  | MContents
  | MCtrl (cmd num : Z)
  | MRetryFlags.

(** A result, and the caller's buffer, or the contents. *)
Definition read_step (m : mem_state) (out : list Z) (n : Z) : Z * list Z * mem_state :=
  let m := with_mretry false m in
  if blen (m_data m) =? 0 then (m_eof m, out, with_mretry (negb (m_eof m =? 0)) m)
  else
    let k := Z.min n (blen (m_data m)) in
    (k, take (Z.to_nat k) (m_data m) ++ drop (Z.to_nat k) out, with_data (drop (Z.to_nat k) (m_data m)) m).

(** [BIO_read] counts what a method returned. *)
Definition count_read (r : Z) (m : mem_state) : mem_state :=
  if 0 <? r then with_mnread (u64 (m_nread m + r)) m else m.
Definition count_write (r : Z) (m : mem_state) : mem_state :=
  if 0 <? r then with_mnwrite (u64 (m_nwrite m + r)) m else m.

Definition gets_step (m : mem_state) (out : list Z) (n : Z) : Z * list Z * mem_state :=
  let line := take_line (take (Z.to_nat (n - 1)) (m_data m)) in
  (blen line, line ++ [0] ++ drop (S (length line)) out,
   with_data (drop (length line) (m_data m)) (with_mretry false m)).

Definition mem_ctrl_step (m : mem_state) (cmd num : Z) : Z * mem_state :=
  if cmd =? BIO_CTRL_RESET then (1, with_data (default [] (m_static m)) m)
  else if cmd =? BIO_CTRL_EOF then ((if blen (m_data m) =? 0 then 1 else 0), m)
  else if cmd =? BIO_C_SET_BUF_MEM_EOF_RETURN then (1, with_eof (s32 num) m)
  else if cmd =? BIO_CTRL_INFO then (blen (m_data m), m)
  else if cmd =? BIO_CTRL_GET_CLOSE then (m_shutdown m, m)
  else if cmd =? BIO_CTRL_SET_CLOSE then (1, with_mshutdown (s32 num) m)
  else if cmd =? BIO_CTRL_WPENDING then (0, m)
  else if cmd =? BIO_CTRL_PENDING then (blen (m_data m), m)
  else if cmd =? BIO_CTRL_FLUSH then (1, m)
  else (0, m).

(** One call: the result, with the caller's buffer or the contents, and the
    errors. [refused] is whether the allocator may refuse to enlarge the
    buffer. *)
Inductive mem_step (refused : Prop) : mem_state -> mem_op -> Z * list Z -> mem_state -> list bio_error -> Prop :=
  | step_nothing_read m buf n : n <= 0 -> mem_step refused m (MRead buf n) (0, buf) m []
  | step_nothing_gets m buf n : n <= 0 -> mem_step refused m (MGets buf n) (0, buf) m []
  | step_nothing_write m buf n : n <= 0 -> mem_step refused m (MWrite buf n) (0, []) m []
  | step_read m buf n r buf' m' :
      0 < n -> read_step m buf n = (r, buf', m') ->
      mem_step refused m (MRead buf n) (r, buf') (count_read r m') []
  | step_gets m buf n r buf' m' :
      0 < n -> gets_step m buf n = (r, buf', m') ->
      mem_step refused m (MGets buf n) (r, buf') (count_read r m') []
  | step_write m buf n :
      0 < n -> read_only m = false -> blen (m_data m) + n <= INT_MAX ->
      mem_step refused m (MWrite buf n) (n, [])
        (count_write n (with_data (m_data m ++ take (Z.to_nat n) buf) (with_mretry false m))) []
  | step_write_full m buf n :
      0 < n -> read_only m = false -> INT_MAX < blen (m_data m) + n ->
      mem_step refused m (MWrite buf n) (-1, []) (with_mretry false m) []
  | step_write_refused m buf n :
      0 < n -> read_only m = false -> blen (m_data m) + n <= INT_MAX -> refused ->
      mem_step refused m (MWrite buf n) (-1, []) (with_mretry false m) [ERR_BUF BUF_R_MALLOC_FAILURE]
  | step_write_rdonly m buf n :
      0 < n -> read_only m = true ->
      mem_step refused m (MWrite buf n) (-1, []) m [BIO_R_WRITE_TO_READ_ONLY_BIO]
  | step_contents m :
      mem_step refused m MContents (blen (m_data m), m_data m) m []
  | step_ctrl m cmd num r m' :
      mem_ctrl_step m cmd num = (r, m') -> mem_step refused m (MCtrl cmd num) (r, []) m' []
  | step_flags m :
      mem_step refused m MRetryFlags ((if m_retry m then 9 else 0), []) m [].

(** A sequence of calls. *)
Inductive mem_steps (refused : Prop) : mem_state -> list mem_op -> list (Z * list Z) -> mem_state -> list bio_error -> Prop :=
  | steps_nil m : mem_steps refused m [] [] m []
  | steps_cons m op r m1 errs ops rs m2 errs' :
      mem_step refused m op r m1 errs -> mem_steps refused m1 ops rs m2 errs' ->
      mem_steps refused m (op :: ops) (r :: rs) m2 (errs' ++ errs).

(** What a caller owes. The controls that hand out or replace the [BUF_MEM] are
    a different use. *)
Definition mop_ok (op : mem_op) : Prop :=
  match op with
  | MRead buf n | MGets buf n | MWrite buf n => n <= INT_MAX /\ n <= blen buf
  | MCtrl cmd _ => cmd <> BIO_C_SET_BUF_MEM /\ cmd <> BIO_C_GET_BUF_MEM_PTR
  | _ => True
  end.

(** * The calls *)

Section Exec.
Context {mt : BioMethods}.

Definition mem_exec (x : loc) (op : mem_op) : B (Z * list Z) :=
  match op with
  | MRead buf n => '(r, out) ← BIO_read (Some x) (Some buf) n; mret (r, default [] out)
  | MGets buf n => '(r, out) ← BIO_gets (Some x) (Some buf) n; mret (r, default [] out)
  | MWrite buf n => r ← BIO_write (Some x) (Some buf) n; mret (r, [])
  | MContents =>
      c ← BIO_mem_contents x;
      '(p, n) ← mopt c;
      bs ← mopt (ptr_load p 0 n);
      mret (n, bs)
  | MCtrl cmd num => '(r, _) ← BIO_ctrl (Some x) cmd num ArgNull; mret (r, [])
  | MRetryFlags => r ← BIO_get_retry_flags x; mret (r, [])
  end.

Fixpoint mem_execs (x : loc) (ops : list mem_op) : B (list (Z * list Z)) :=
  match ops with
  | [] => mret []
  | op :: ops => r ← mem_exec x op; rs ← mem_execs x ops; mret (r :: rs)
  end.
End Exec.

(** * Representation *)

Definition mem_bio (m : mem_state) (l : loc) : BIO :=
  Bio (Some mem_method) 1 (m_shutdown m)
    (Z.lor (if read_only m then BIO_FLAGS_MEM_RDONLY else 0) (if m_retry m then 9 else 0))
    0 (m_eof m) 1 (BufMemPtr l) None (m_nread m) (m_nwrite m).

(** The [BUF_MEM] of a BIO. A read-only one points into the caller's bytes. *)
Definition mem_holds (m : mem_state) (b : BUF_MEM) : Prop :=
  blen (m_data m) <= INT_MAX /\
  match m_static m with
  | None => buf_owns b (m_data m)
  | Some whole => buf_length b = blen (m_data m) /\ buf_max b = blen whole /\ blen whole <= INT_MAX /\
      exists pre, whole = pre ++ m_data m /\ at_ (buf_data b) = blen pre /\
      match object (buf_data b) with
      | None => whole = []
      | Some o => exists tail, o = whole ++ tail
      end
  end.

Record mem_rep (x l : loc) (m : mem_state) (b : BUF_MEM) (s : bio_heap) : Prop := {
  rep_bio : bios s !! x = Some (mem_bio m l);
  rep_buf : bufs s !! l = Some b;
  rep_holds : mem_holds m b
}.

(** What a call may change: the BIO, its buffer, the errors, the requests. *)
Definition mem_frame (x l : loc) (s s' : bio_heap) : Prop :=
  (forall z, z <> x -> bios s' !! z = bios s !! z) /\ (forall z, z <> l -> bufs s' !! z = bufs s !! z).

(** * The buffer of a read-write BIO *)

Lemma owns_object b c : buf_owns b c -> c <> [] -> exists rest, object (buf_data b) = Some (c ++ rest).
Proof.
  intros [_ _ _ Hd] Hne. destruct (object (buf_data b)); [destruct Hd as [_ [rest ->]]; eauto|].
  by destruct Hd as [_ ->].
Qed.

Lemma owns_load b c off k :
  buf_owns b c -> 0 <= off -> 0 <= k -> off + k <= blen c ->
  ptr_load (buf_data b) off k = Some (take (Z.to_nat k) (drop (Z.to_nat off) c)).
Proof.
  intros Ho ? ? ?. unfold ptr_load. rewrite (owns_at _ _ Ho).
  destruct (Z.eqb_spec k 0) as [->|Hk]; [done|].
  destruct (owns_object b c Ho) as [rest ->]; [by intros ->; change (blen (@nil Z)) with 0 in *; lia|].
  set (mid := take (Z.to_nat k) (drop (Z.to_nat off) c)).
  replace (c ++ rest) with (take (Z.to_nat off) c ++ mid ++ (drop (Z.to_nat k) (drop (Z.to_nat off) c) ++ rest))
    by (unfold mid; by rewrite (app_assoc (take _ (drop _ _))), take_drop, app_assoc, take_drop).
  apply load_bytes_app; [rewrite blen_take; lia|]. unfold mid. rewrite blen_take; [done|]. rewrite blen_drop; lia.
Qed.

(** Moving what is left to the front. *)
Lemma owns_shift b c k :
  buf_owns b c -> 0 <= k <= blen c -> exists d,
  ptr_store (buf_data b) 0 (drop (Z.to_nat k) c) = Some d /\
  buf_owns (set_buf_data d (set_buf_length (blen c - k) b)) (drop (Z.to_nat k) c).
Proof.
  intros Ho Hk. pose proof Ho as [Hl Ha Hm Hd]. unfold ptr_store. rewrite Ha.
  destruct (object (buf_data b)) as [o|].
  - destruct Hd as [Ho' [rest ->]]. pose proof (blen_nonneg rest). rewrite blen_app in Ho'.
    set (c' := drop (Z.to_nat k) c). assert (blen c' = blen c - k) as Hc' by (apply blen_drop; lia).
    pose proof (store_bytes_app [] (take (Z.to_nat (blen c')) (c ++ rest)) (drop (Z.to_nat (blen c')) (c ++ rest)) c' 0
      eq_refl) as Est.
    rewrite !app_nil_l, take_drop in Est. change (0 + 0) with 0. rewrite Est by (apply blen_take; rewrite blen_app; lia).
    eexists. split; [done|]. split; cbn; [by rewrite Hc'|done|done|].
    split; [|by eexists]. rewrite blen_app, blen_drop by (rewrite blen_app; lia). rewrite blen_app. lia.
  - destruct Hd as [? ->]. rewrite drop_nil. eexists. split; [done|].
    split; cbn; [change (blen (@nil Z)) with 0 in *; lia|done|done|done].
Qed.

(** * Running on a memory BIO *)

Definition putm (s : bio_heap) (x : loc) (bx : BIO) (l : loc) (b : BUF_MEM) : bio_heap :=
  set_bufs (<[l := b]> (bufs s)) (set_bios (<[x := bx]> (bios s)) s).

Lemma putm_id s x bx l b : bios s !! x = Some bx -> bufs s !! l = Some b -> s = putm s x bx l b.
Proof. intros. unfold putm, set_bufs, set_bios. destruct s. cbn in *. by rewrite !insert_id. Qed.

Lemma putm_rep s x l m b : mem_holds m b -> mem_rep x l m b (putm s x (mem_bio m l) l b).
Proof. intros. split; [apply lookup_insert_eq|apply lookup_insert_eq|done]. Qed.

Lemma putm_frame s x bx l b : mem_frame x l s (putm s x bx l b).
Proof. split; intros; cbn; by rewrite lookup_insert_ne. Qed.

Section RunM.
Context (s : bio_heap) (x l : loc) (m : mem_state) (b : BUF_MEM).

Lemma get_bio_m bx : get_bio x (putm s x bx l b) = (Some bx, putm s x bx l b).
Proof. apply get_bio_run, lookup_insert_eq. Qed.

Lemma get_buf_m bx : get_buf l (putm s x bx l b) = (Some b, putm s x bx l b).
Proof. unfold get_buf. rewrite mget_bind. unfold mopt. cbn. by rewrite lookup_insert_eq. Qed.

Lemma get_mem_m : get_mem x (putm s x (mem_bio m l) l b) = (Some (l, b), putm s x (mem_bio m l) l b).
Proof.
  unfold get_mem. rewrite (bind_ok _ _ _ _ _ (get_bio_m _)), mopt_bind. cbn.
  by rewrite (bind_ok _ _ _ _ _ (get_buf_m _)).
Qed.

Lemma set_buf_m bx b' : set_buf l b' (putm s x bx l b) = (Some tt, putm s x bx l b').
Proof. unfold set_buf, putm, set_bufs, mmodify. cbn. by rewrite insert_insert_eq. Qed.

Lemma upd_bio_m f bx : upd_bio x f (putm s x bx l b) = (Some tt, putm s x (f bx) l b).
Proof.
  erewrite upd_bio_run by (apply lookup_insert_eq). unfold putm, set_bufs, set_bios. cbn. by rewrite insert_insert_eq.
Qed.
End RunM.

Lemma clear_retry_m s x l m b :
  BIO_clear_retry_flags x (putm s x (mem_bio m l) l b) = (Some tt, putm s x (mem_bio (with_mretry false m) l) l b).
Proof.
  unfold BIO_clear_retry_flags. rewrite (bind_ok _ _ _ _ _ (upd_bio_m _ _ _ _ _ _)), upd_bio_m.
  do 2 f_equal. unfold mem_bio, read_only. cbn. destruct (m_static m), (m_retry m); done.
Qed.

Lemma set_retry_read_m s x l m b :
  BIO_set_retry_read x (putm s x (mem_bio (with_mretry false m) l) l b) =
  (Some tt, putm s x (mem_bio (with_mretry true m) l) l b).
Proof.
  unfold BIO_set_retry_read. rewrite upd_bio_m.
  do 2 f_equal. unfold mem_bio, read_only. cbn. by destruct (m_static m).
Qed.

Lemma rdonly_m m l : rdonly (mem_bio m l) = read_only m.
Proof. unfold rdonly, mem_bio, read_only. cbn. by destruct (m_static m), (m_retry m). Qed.

Ltac runm :=
  repeat first
  [ rewrite mget_bind | rewrite mopt_bind | rewrite massert_bind | rewrite bind_ret
  | rewrite (bind_ok _ _ _ _ _ (get_mem_m _ _ _ _ _))
  | rewrite (bind_ok _ _ _ _ _ (get_bio_m _ _ _ _ _))
  | rewrite (bind_ok _ _ _ _ _ (get_buf_m _ _ _ _ _))
  | rewrite (bind_ok _ _ _ _ _ (set_buf_m _ _ _ _ _ _))
  | rewrite (bind_ok _ _ _ _ _ (upd_bio_m _ _ _ _ _ _))
  | rewrite (bind_ok _ _ _ _ _ (clear_retry_m _ _ _ _ _)) ].

Lemma holds_length m b : mem_holds m b -> buf_length b = blen (m_data m).
Proof. intros [_ H]. destruct (m_static m); [apply H|]. apply H. Qed.

(** What a caller gets of the data, wherever it is. *)
Lemma holds_load m b off k :
  mem_holds m b -> 0 <= off -> 0 <= k -> off + k <= blen (m_data m) ->
  ptr_load (buf_data b) off k = Some (take (Z.to_nat k) (drop (Z.to_nat off) (m_data m))).
Proof.
  intros [_ H] ? ? ?. destruct (m_static m) as [whole|]; [|by apply owns_load].
  destruct H as (_ & _ & _ & pre & Hw & Ha & Ho). unfold ptr_load. rewrite Ha.
  destruct (Z.eqb_spec k 0) as [->|Hk]; [done|].
  destruct (object (buf_data b)) as [o|].
  - destruct Ho as [tail ->]. rewrite Hw. set (c := m_data m) in *.
    set (mid := take (Z.to_nat k) (drop (Z.to_nat off) c)).
    replace ((pre ++ c) ++ tail) with ((pre ++ take (Z.to_nat off) c) ++ mid ++ (drop (Z.to_nat k) (drop (Z.to_nat off) c) ++ tail)).
    + apply load_bytes_app; [rewrite blen_app, blen_take; lia|]. unfold mid. rewrite blen_take; [done|]. rewrite blen_drop; lia.
    + unfold mid. rewrite <-!app_assoc. f_equal.
      by rewrite (app_assoc (take _ (drop _ _))), take_drop, app_assoc, take_drop.
  - rewrite Ho in Hw. symmetry in Hw. apply app_eq_nil in Hw as [_ Hw]. rewrite Hw in *.
    change (blen (@nil Z)) with 0 in *. lia.
Qed.

(** * Reading *)

(** What [mem_read] does to the buffer. *)
Definition consume (x l : loc) (b : BUF_MEM) (ret : Z) : B unit :=
  let b := set_buf_length (u64 (buf_length b - ret)) b in
  bb ← get_bio x;
  if rdonly bb then set_buf l (set_buf_data (ptr_add (buf_data b) ret) b)
  else
    rest ← mopt (ptr_load (buf_data b) ret (buf_length b));
    d ← mopt (ptr_store (buf_data b) 0 rest);
    set_buf l (set_buf_data d b).

Lemma holds_consume s x l m b k :
  mem_holds m b -> 0 <= k <= blen (m_data m) -> exists b',
  consume x l b k (putm s x (mem_bio m l) l b) = (Some tt, putm s x (mem_bio m l) l b') /\
  mem_holds (with_data (drop (Z.to_nat k) (m_data m)) m) b'.
Proof.
  intros Hh Hk. pose proof (holds_length m b Hh) as Hl. pose proof Hh as [Hmax H]. unfold INT_MAX in Hmax.
  unfold consume. runm. rewrite rdonly_m, Hl.
  rewrite (wrap_small 64) by (split; pow2; lia).
  assert (blen (drop (Z.to_nat k) (m_data m)) <= INT_MAX) as Hmax' by (unfold INT_MAX; rewrite blen_drop; lia).
  unfold read_only. destruct (m_static m) as [whole|] eqn:Es.
  - rewrite bool_decide_eq_true_2 by done. rewrite set_buf_m. eexists. split; [done|].
    split; [done|]. cbn [m_static with_data]. rewrite Es. destruct H as (_ & Hm & Hw & pre & Hwhole & Ha & Ho).
    cbn. split; [by rewrite blen_drop|]. split; [done|]. split; [done|].
    exists (pre ++ take (Z.to_nat k) (m_data m)). rewrite <-app_assoc, take_drop. split; [done|].
    split; [rewrite blen_app, blen_take; lia|done].
  - rewrite bool_decide_eq_false_2 by (by intros []). runm.
    cbn [buf_length buf_data set_buf_length]. rewrite (owns_load b (m_data m)) by (done || lia).
    rewrite take_ge by (rewrite length_drop; unfold blen in *; lia).
    destruct (owns_shift b (m_data m) k H Hk) as (d & Ed & Ho). rewrite mopt_bind, Ed, set_buf_m.
    eexists. split; [done|]. split; [done|]. cbn [m_static with_data]. by rewrite Es.
Qed.

Lemma mem_read_run s x l m b out n :
  mem_holds m b -> 0 < n <= INT_MAX -> n <= blen out ->
  let '(r, out', m') := read_step m out n in exists b',
  mem_read x (Some out) n (putm s x (mem_bio m l) l b) = (Some (r, Some out'), putm s x (mem_bio m' l) l b') /\
  mem_holds m' b'.
Proof.
  intros Hh Hn Hout. pose proof (holds_length m b Hh) as Hl. pose proof Hh as [Hmax _]. unfold INT_MAX in *.
  pose proof (blen_nonneg (m_data m)) as Hd.
  unfold mem_read, read_step. runm. rewrite Hl, s32_small by (pow2; lia).
  cbn [m_data with_mretry m_eof]. unfold INT_MAX.
  assert ((if (blen (m_data m) <? 2147483647) && (blen (m_data m) <? n) then blen (m_data m) else n) =
    Z.min n (blen (m_data m))) as -> by (zcases; cbn [andb]; lia).
  set (k := Z.min n (blen (m_data m))).
  destruct (Z.eqb_spec (blen (m_data m)) 0) as [E|E].
  - assert (k <= 0) as Hk by (unfold k; lia). rewrite (proj2 (Z.ltb_ge 0 k)) by lia. runm.
    exists b. split; [|by destruct (negb _)]. cbn [num mem_bio m_eof with_mretry].
    destruct (m_eof m =? 0); cbn [negb]; [by rewrite bind_ret|].
    by rewrite (bind_ok _ _ _ _ _ (set_retry_read_m _ _ _ _ _)).
  - assert (0 < k <= blen (m_data m) /\ k <= n) as [Hk Hkn] by (unfold k; lia).
    rewrite (proj2 (Z.ltb_lt 0 k)) by lia. rewrite mopt_bind, (holds_load m b) by (done || lia).
    rewrite drop_0. unfold store_at. rewrite mopt_bind.
    pose proof (store_bytes_app [] (take (Z.to_nat k) out) (drop (Z.to_nat k) out) (take (Z.to_nat k) (m_data m)) 0
      eq_refl) as Est. rewrite !app_nil_l, take_drop in Est. rewrite Est by (rewrite !blen_take; lia).
    destruct (holds_consume s x l (with_mretry false m) b k Hh) as (b' & Ec & Hh'); [cbn; lia|].
    exists b'. split; [|done].
    unfold consume in Ec. rewrite (bind_ok _ _ _ _ _ (get_bio_m _ _ _ _ _)), Hl in Ec.
    rewrite (bind_ok _ _ _ _ _ (get_bio_m _ _ _ _ _)). by rewrite (bind_ok _ _ _ _ _ Ec).
Qed.

(** * Lines *)

Lemma take_line_prefix l : exists rest, l = take_line l ++ rest.
Proof.
  induction l as [|c l [rest IH]]; cbn; [by exists []|]. destruct (c =? 10); [by exists l|].
  exists rest. cbn. by rewrite <-IH.
Qed.

Lemma blen_take_line l : 0 <= blen (take_line l) <= blen l.
Proof.
  destruct (take_line_prefix l) as [rest E].
  assert (blen l = blen (take_line l) + blen rest) as -> by (rewrite <-blen_app; by f_equal).
  pose proof (blen_nonneg rest). pose proof (blen_nonneg (take_line l)). lia.
Qed.

Lemma take_line_pos l : l <> [] -> take_line l <> [].
Proof. destruct l as [|c l]; [done|]. intros _. cbn. by destruct (c =? 10). Qed.

Lemma gets_loop_run m b j s : mem_holds m b -> j <= blen (m_data m) ->
  forall fuel i, 0 <= i <= j -> (Z.to_nat (j - i) <= fuel)%nat ->
  gets_loop fuel (buf_data b) i j s =
  (Some (i + blen (take_line (take (Z.to_nat (j - i)) (drop (Z.to_nat i) (m_data m))))), s).
Proof.
  intros Hh Hj. induction fuel as [|fuel IH]; intros i Hi Hf; cbn [gets_loop]; destruct (Z.ltb_spec i j); try lia.
  - replace (j - i) with 0 by lia. cbn. by rewrite Z.add_0_r.
  - rewrite mopt_bind, (holds_load m b) by (done || lia).
    destruct (drop (Z.to_nat i) (m_data m)) as [|c rest] eqn:E.
    { apply (f_equal length) in E. rewrite length_drop in E. unfold blen in *. cbn in E. lia. }
    replace (Z.to_nat (j - i)) with (S (Z.to_nat (j - (i + 1)))) by lia. cbn [take take_line].
    change (take (Z.to_nat 1) (c :: rest)) with [c].
    destruct (Z.eqb_spec c 10) as [->|Hc]; [by rewrite bool_decide_eq_true_2|].
    rewrite bool_decide_eq_false_2 by congruence. rewrite IH by lia.
    assert (drop (Z.to_nat (i + 1)) (m_data m) = rest) as ->.
    { replace (Z.to_nat (i + 1)) with (Z.to_nat i + 1)%nat by lia. by rewrite <-drop_drop, E. }
    rewrite blen_cons. do 2 f_equal. lia.
  - replace (j - i) with 0 by lia. cbn. by rewrite Z.add_0_r.
Qed.

Lemma mem_gets_run s x l m b out n :
  mem_holds m b -> 0 < n <= INT_MAX -> n <= blen out ->
  let '(r, out', m') := gets_step m out n in exists b',
  mem_gets x (Some out) n (putm s x (mem_bio m l) l b) = (Some (r, Some out'), putm s x (mem_bio m' l) l b') /\
  mem_holds m' b'.
Proof.
  intros Hh Hn Hout. pose proof (holds_length m b Hh) as Hl. pose proof Hh as [Hmax _]. unfold INT_MAX in *.
  pose proof (blen_nonneg (m_data m)) as Hd.
  unfold mem_gets, gets_step. runm. rewrite Hl, s32_small by (pow2; lia).
  set (j := if n - 1 <? blen (m_data m) then n - 1 else blen (m_data m)).
  assert (take (Z.to_nat (n - 1)) (m_data m) = take (Z.to_nat j) (m_data m)) as ->.
  { unfold j. destruct (Z.ltb_spec (n - 1) (blen (m_data m))); [done|]. rewrite !take_ge; unfold blen in *; lia || done. }
  assert (0 <= j <= n - 1 /\ j <= blen (m_data m)) as [Hj Hjd] by (unfold j; zcases; lia).
  set (line := take_line (take (Z.to_nat j) (m_data m))).
  pose proof (blen_take_line (take (Z.to_nat j) (m_data m))) as Hline. rewrite blen_take in Hline by lia. fold line in Hline.
  destruct (Z.leb_spec j 0) as [Hj0|Hj0].
  - rewrite (proj2 (Z.ltb_lt 0 n)) by lia. exists b. assert (line = []) as -> by (apply blen_inv_nil; lia).
    destruct out as [|c out]; [change (blen (@nil Z)) with 0 in Hout; lia|].
    unfold store_at. rewrite mopt_bind.
    pose proof (store_bytes_app [] [c] out [0] 0 eq_refl eq_refl) as Est. cbn [app] in Est. rewrite Est.
    cbn [length app drop]. rewrite drop_0. split; [by destruct m|by destruct m].
  - assert (take (Z.to_nat j) (m_data m) <> []) as Hne.
    { intros E. apply (f_equal blen) in E. rewrite blen_take in E by lia. change (blen (@nil Z)) with 0 in E. lia. }
    assert (0 < blen line) as Hpos.
    { pose proof (take_line_pos _ Hne). fold line in H. destruct line; [done|]. rewrite blen_cons. pose proof (blen_nonneg line). lia. }
    assert (take (length line) (m_data m) = line) as Hpre.
    { destruct (take_line_prefix (take (Z.to_nat j) (m_data m))) as [rest E]. fold line in E.
      rewrite <-(take_drop (Z.to_nat j) (m_data m)), E, <-app_assoc. apply take_app_length. }
    rewrite (bind_ok _ _ _ _ _ (gets_loop_run m b j _ Hh Hjd (Z.to_nat j) 0 ltac:(lia) ltac:(lia))).
    rewrite Z.sub_0_r, drop_0, Z.add_0_l. fold line.
    pose proof (mem_read_run s x l (with_mretry false m) b out (blen line) Hh ltac:(unfold INT_MAX; lia) ltac:(lia)) as Hr.
    unfold read_step in Hr. cbn [m_data with_mretry with_data] in Hr.
    rewrite (proj2 (Z.eqb_neq (blen (m_data m)) 0)), Z.min_l, to_nat_blen, Hpre in Hr by lia.
    destruct Hr as (b' & Er & Hh'). rewrite (bind_ok _ _ _ _ _ Er), (proj2 (Z.ltb_lt _ _)) by lia.
    exists b'. split; [|done]. unfold store_at. rewrite mopt_bind.
    destruct (drop (length line) out) as [|c rest] eqn:Ed.
    { apply (f_equal length) in Ed. rewrite length_drop in Ed. unfold blen in *. cbn in Ed. lia. }
    pose proof (store_bytes_app line [c] rest [0] (blen line) eq_refl eq_refl) as Est. cbn [app] in Est. rewrite Est.
    assert (drop (S (length line)) out = rest) as ->.
    { replace (S (length line)) with (length line + 1)%nat by lia. by rewrite <-drop_drop, Ed. }
    done.
Qed.

(** * Writing *)

Lemma owns_store b c old bs :
  buf_owns b (c ++ old) -> blen old = blen bs -> exists d,
  ptr_store (buf_data b) (blen c) bs = Some d /\ buf_owns (set_buf_data d b) (c ++ bs).
Proof.
  intros Ho He. pose proof Ho as [Hl Ha Hm Hd]. unfold ptr_store. rewrite Ha, Z.add_0_l.
  destruct (object (buf_data b)) as [o|].
  - destruct Hd as [Hb [rest ->]]. rewrite <-app_assoc, (store_bytes_app c old rest bs) by done.
    eexists. split; [done|]. split; cbn; [rewrite Hl, !blen_app; lia|done|done|].
    split; [rewrite !blen_app in *; lia|]. exists rest. by rewrite <-app_assoc.
  - destruct Hd as [Hb [-> ->]%app_eq_nil]. change (blen (@nil Z)) with 0 in He. symmetry in He. apply blen_inv_nil in He as ->.
    eexists. split; [done|]. by split; cbn.
Qed.

Lemma can_reserve_refused `{Mallocs} i cap b :
  0 <= cap <= INT_MAX -> @can_reserve (nth_malloc i) cap b = false -> any_refused.
Proof.
  intros Hc. unfold can_reserve. intros [_ Hg]%orb_false_iff.
  assert (reserve_size cap <? 2 ^ 64 = true) as E.
  { apply Z.ltb_lt. pose proof (reserve_size_bounds cap). unfold INT_MAX in *. pow2. zdiv. }
  rewrite E in Hg. by exists i, (reserve_size cap).
Qed.

Lemma next_request_run s : next_request s = (Some (requests s), set_requests (S (requests s)) s).
Proof. done. Qed.

Section Write.
Context {ms : Mallocs} {ml : MallocsLaws ms}.

Lemma on_buf_m {A} s x bx l b (f : Malloc -> M buf_call A) a b' es :
  f (nth_malloc (requests s)) (BufCall b []) = (Some a, BufCall b' es) ->
  on_buf l f (putm s x bx l b) =
  (Some a, putm (set_errors (map ERR_BUF es ++ errors s) (set_requests (S (requests s)) s)) x bx l b').
Proof.
  intros E. unfold on_buf. runm. rewrite (bind_ok _ _ _ _ _ (next_request_run _)).
  change (requests (putm s x bx l b)) with (requests s). rewrite on_copy_bind, E.
  change (set_requests (S (requests s)) (putm s x bx l b)) with (putm (set_requests (S (requests s)) s) x bx l b).
  cbn [bmem bqueue]. by runm.
Qed.

Lemma mem_write_run s x l m b buf n :
  mem_holds m b -> 0 < n <= INT_MAX -> n <= blen buf -> read_only m = false -> exists r errs q m' b',
  mem_write x (Some buf) n (putm s x (mem_bio m l) l b) =
    (Some r, putm (set_errors (errs ++ errors s) (set_requests q s)) x (mem_bio m' l) l b') /\
  mem_holds m' b' /\ mem_step any_refused m (MWrite buf n) (r, []) (count_write r m') errs.
Proof.
  intros Hh Hn Hbuf Hro. pose proof (holds_length m b Hh) as Hl. pose proof Hh as [Hmax Ho].
  assert (m_static m = None) as Hst by (unfold read_only in Hro; destruct (m_static m); done).
  rewrite Hst in Ho. pose proof (blen_nonneg (m_data m)) as Hd. unfold INT_MAX in Hmax, Hn.
  unfold mem_write. runm. rewrite rdonly_m, Hro. runm. rewrite Hl, s32_small by (pow2; lia).
  assert (forall z, 0 <= z <= 2147483647 -> int_ok z = true) as Hint.
  { intros z Hz. unfold int_ok. rewrite (proj2 (Z.leb_le _ _)), (proj2 (Z.ltb_lt _ _)) by (pow2; lia). done. }
  unfold INT_MAX. rewrite Hint by lia.
  destruct (Z.ltb_spec (2147483647 - blen (m_data m)) n) as [Hfull|Hfull].
  { exists (-1), [], (requests s), (with_mretry false m), b. split; [by destruct s|]. split; [exact Hh|].
    apply step_write_full; [lia|done|unfold INT_MAX; lia]. }
  rewrite Hint by lia. runm.
  rewrite (wrap_small 64 (blen (m_data m))), (wrap_small 64 n), (wrap_small 64 (blen _ + n)) by (split; pow2; lia).
  destruct (@BUF_MEM_grow_ok (nth_malloc (requests s)) (nth_malloc_laws _) (blen (m_data m) + n) b [] _ Ho ltac:(pow2; lia))
    as (b1 & Eg & Ho1 & Hsame).
  rewrite (bind_ok _ _ _ _ _ (on_buf_m s x _ l b (fun m0 => @BUF_MEM_grow_clean m0 _) _ _ _ Eg)).
  destruct (can_reserve (blen (m_data m) + n) b) eqn:Ec.
  - rewrite Z.eqb_refl. cbn [negb]. runm.
    assert (load_at (Some buf) 0 n = mret (take (Z.to_nat n) buf)) as ->.
    { unfold load_at. pose proof (load_bytes_app [] (take (Z.to_nat n) buf) (drop (Z.to_nat n) buf) 0 n eq_refl) as El.
      rewrite !app_nil_l, take_drop in El. rewrite El by (symmetry; apply blen_take; lia). done. }
    runm. rewrite resize_ge in Ho1 by (unfold blen in *; lia).
    assert (blen (take (Z.to_nat n) buf) = n) as Hlen by (apply blen_take; lia).
    destruct (owns_store b1 (m_data m) _ (take (Z.to_nat n) buf) Ho1) as (d & Ed & Ho2);
      [unfold blen in *; rewrite length_replicate; lia|].
    rewrite Ed. runm.
    exists n, [], (S (requests s)), (with_data (m_data m ++ take (Z.to_nat n) buf) (with_mretry false m)), (set_buf_data d b1).
    split; [done|]. split; [|apply step_write; [lia|done|unfold INT_MAX; lia]].
    split; cbn [m_data m_static with_data with_mretry]; [|by rewrite Hst].
    rewrite blen_app, Hlen. unfold INT_MAX. lia.
  - rewrite (proj2 (Z.eqb_neq 0 _)) by lia. cbn [negb]. subst b1.
    exists (-1), [ERR_BUF BUF_R_MALLOC_FAILURE], (S (requests s)), (with_mretry false m), b. split; [done|].
    split; [exact Hh|]. apply step_write_refused; [lia|done|unfold INT_MAX; lia|].
    eapply can_reserve_refused; [|exact Ec]. unfold INT_MAX. lia.
Qed.
End Write.

(** * Controls *)

Lemma holds_reset s x l m b :
  mem_holds m b -> exists b',
  (_ ← (if is_NULL (buf_data b) then mret tt
        else if rdonly (mem_bio m l) then
          set_buf l (set_buf_length (buf_max b) (set_buf_data (ptr_add (buf_data b) (- (buf_max b - buf_length b))) b))
        else
          d ← mopt (ptr_store (buf_data b) 0 (replicate (Z.to_nat (buf_max b)) 0));
          set_buf l (set_buf_length 0 (set_buf_data d b))); mret (1, OutNone) : B (Z * ctrl_out))
    (putm s x (mem_bio m l) l b) =
  (Some (1, OutNone), putm s x (mem_bio (with_data (default [] (m_static m)) m) l) l b') /\
  mem_holds (with_data (default [] (m_static m)) m) b'.
Proof.
  intros Hh. pose proof (holds_length m b Hh) as Hl. pose proof Hh as [Hmax H]. rewrite rdonly_m.
  assert (mem_bio (with_data (default [] (m_static m)) m) l = mem_bio m l) as -> by done.
  unfold is_NULL, read_only. destruct (m_static m) as [whole|] eqn:Es; cbn [default].
  - destruct H as (Hlen & Hm & Hw & pre & Hwhole & Ha & Ho). rewrite (bool_decide_eq_true_2 (is_Some _)) by done.
    destruct (object (buf_data b)) as [o|] eqn:Eo.
    + rewrite bool_decide_eq_false_2 by done. runm. eexists. split; [done|]. split; [done|]. cbn [m_static with_data].
      rewrite Es. cbn. split; [done|]. split; [done|]. split; [done|]. exists []. split; [done|]. rewrite Eo. split; [|done].
      rewrite Ha, Hm, Hlen, Hwhole, blen_app. change (blen []) with 0. lia.
    + rewrite bool_decide_eq_true_2 by done. runm. exists b. split; [done|]. split; [done|]. cbn [m_static with_data].
      rewrite Es, Eo. cbn. assert (m_data m = []) as E by (symmetry in Hwhole; rewrite Ho in Hwhole; by apply app_eq_nil in Hwhole as [_ ?]).
      split; [rewrite Hlen, E, Ho; done|]. split; [done|]. split; [done|]. exists pre. split; [|done].
      rewrite Hwhole at 1. rewrite E, Ho. symmetry. rewrite Hwhole, E in Ho. by rewrite Ho.
  - rewrite (bool_decide_eq_false_2 (is_Some _)) by (by intros []). pose proof H as [_ Ha Hbm Hd].
    destruct (object (buf_data b)) as [o|] eqn:Eo.
    + rewrite bool_decide_eq_false_2 by done. destruct Hd as [Hblen _]. unfold ptr_store. rewrite Eo, Ha.
      pose proof (store_bytes_app [] o [] (replicate (Z.to_nat (buf_max b)) 0) 0 eq_refl) as Est.
      rewrite !app_nil_l, !app_nil_r in Est. change (0 + 0) with 0. rewrite Est by (rewrite blen_replicate; lia).
      cbn [fmap option_fmap option_map].
      eexists. split; [rewrite (bind_ok _ _ _ _ _ (set_buf_m _ _ _ _ _ _ : (mopt (Some _) ≫= _) _ = _)); done|]. split; [by unfold INT_MAX|]. cbn [m_static with_data]. rewrite Es. cbn.
      split; cbn; [done|done|done|]. split; [rewrite blen_replicate; lia|by eexists].
    + rewrite bool_decide_eq_true_2 by done. runm. exists b. split; [done|]. split; [by unfold INT_MAX|].
      cbn [m_static m_data with_data]. rewrite Es. destruct Hd as [_ Hd]. by rewrite Hd in H.
Qed.

Lemma mem_ctrl_run s x l m b cmd num :
  mem_holds m b -> cmd <> BIO_C_SET_BUF_MEM -> cmd <> BIO_C_GET_BUF_MEM_PTR ->
  let '(r, m') := mem_ctrl_step m cmd num in exists b',
  mem_ctrl x cmd num ArgNull (putm s x (mem_bio m l) l b) = (Some (r, OutNone), putm s x (mem_bio m' l) l b') /\
  mem_holds m' b'.
Proof.
  intros Hh H1 H2. pose proof (holds_length m b Hh) as Hl. pose proof (blen_nonneg (m_data m)).
  pose proof Hh as [Hmax _]. unfold INT_MAX in Hmax.
  assert (s64 (buf_length b) = blen (m_data m)) as Es by (rewrite Hl; apply s64_small; lia).
  unfold mem_ctrl, mem_ctrl_step.
  rewrite (proj2 (Z.eqb_neq cmd BIO_C_SET_BUF_MEM) H1), (proj2 (Z.eqb_neq cmd BIO_C_GET_BUF_MEM_PTR) H2).
  destruct (cmd =? BIO_CTRL_RESET).
  { runm. destruct (holds_reset s x l m b Hh) as (b' & E & Hh'). by exists b'. }
  repeat case_match; simplify_eq; exists b; runm; rewrite ?Es, ?Hl; (split; [|done]); try done.
  all: case_match; congruence || done.
Qed.

(** * The calls *)

Section Calls.
Context {ms : Mallocs} {ml : MallocsLaws ms} {mt : BioMethods} {mm : MemMethods mt}.

Lemma mem_fn {F} (f : BIO_METHOD -> option F) m l : bio_method_fn f (mem_bio m l) = f mem_method_table.
Proof. unfold bio_method_fn. cbn. by rewrite mem_methods. Qed.

Lemma count_read_m {A} s x l m b r (a : A) :
  (_ ← (if 0 <? r then upd_bio x (fun b => set_num_read (u64 (num_read b + r)) b) else mret tt); mret a : B A)
    (putm s x (mem_bio m l) l b) = (Some a, putm s x (mem_bio (count_read r m) l) l b).
Proof. unfold count_read. destruct (0 <? r); [|done]. by rewrite (bind_ok _ _ _ _ _ (upd_bio_m _ _ _ _ _ _)). Qed.

Lemma count_write_m s x l m b r :
  (_ ← (if 0 <? r then upd_bio x (fun b => set_num_write (u64 (num_write b + r)) b) else mret tt); mret r : B Z)
    (putm s x (mem_bio m l) l b) = (Some r, putm s x (mem_bio (count_write r m) l) l b).
Proof. unfold count_write. destruct (0 <? r); [|done]. by rewrite (bind_ok _ _ _ _ _ (upd_bio_m _ _ _ _ _ _)). Qed.

Lemma count_holds m b r : mem_holds m b -> mem_holds (count_read r m) b /\ mem_holds (count_write r m) b.
Proof. intros H. unfold count_read, count_write. by destruct (0 <? r). Qed.

(** A call from [m], in the normal form of the heap. *)
Definition mem_call (s : bio_heap) (x l : loc) (m : mem_state) (b : BUF_MEM) (op : mem_op) : Prop :=
  exists r m' errs q b',
  mem_exec x op (putm s x (mem_bio m l) l b) =
    (Some r, putm (set_errors (errs ++ errors s) (set_requests q s)) x (mem_bio m' l) l b') /\
  mem_step any_refused m op r m' errs /\ mem_holds m' b'.

(** One that neither fails nor allocates. *)
Lemma mem_call_quiet s x l m b op r m' b' :
  mem_exec x op (putm s x (mem_bio m l) l b) = (Some r, putm s x (mem_bio m' l) l b') ->
  mem_step any_refused m op r m' [] -> mem_holds m' b' -> mem_call s x l m b op.
Proof.
  intros E Hs Hh. exists r, m', [], (requests s), b'. split; [|done]. rewrite E. by destruct s.
Qed.

Lemma putm_x s x bx l b : bios (putm s x bx l b) !! x = Some bx.
Proof. apply lookup_insert_eq. Qed.

Lemma read_via_call (f : BIO_METHOD -> _) fn s x l m b buf n r out m' b' :
  f mem_method_table = Some fn -> 0 < n ->
  fn x (Some buf) n (putm s x (mem_bio m l) l b) = (Some (r, Some out), putm s x (mem_bio m' l) l b') ->
  bio_read_via f (Some x) (Some buf) n (putm s x (mem_bio m l) l b) =
  (Some (r, Some out), putm s x (mem_bio (count_read r m') l) l b').
Proof.
  intros Hf Hn E.
  rewrite (bio_read_via_run f fn x _ (Some buf) n _ (putm_x s x _ l b)) by (by rewrite mem_fn).
  change (init _ =? 0) with false. cbn iota. rewrite (proj2 (Z.leb_gt _ _)) by lia.
  rewrite (bind_ok _ _ _ _ _ E). apply count_read_m.
Qed.

(** A call that is to read or write nothing. *)
Lemma read_via_none (f : BIO_METHOD -> _) fn s x l m b buf n :
  f mem_method_table = Some fn -> n <= 0 ->
  bio_read_via f (Some x) (Some buf) n (putm s x (mem_bio m l) l b) = (Some (0, Some buf), putm s x (mem_bio m l) l b).
Proof.
  intros Hf Hn. rewrite (bio_read_via_run f fn x _ (Some buf) n _ (putm_x s x _ l b)) by (by rewrite mem_fn).
  change (init _ =? 0) with false. cbn iota. by rewrite (proj2 (Z.leb_le _ _)) by lia.
Qed.

Lemma read_call s x l m b buf n : mem_holds m b -> mop_ok (MRead buf n) -> mem_call s x l m b (MRead buf n).
Proof.
  intros Hh [Hn Hbuf]. cbn [mem_exec]. destruct (Z.leb_spec n 0) as [H0|H0].
  { eapply mem_call_quiet; [|by apply step_nothing_read|exact Hh]. cbn [mem_exec].
    by rewrite (bind_ok _ _ _ _ _ (read_via_none bread mem_read s x l m b buf n eq_refl H0)). }
  pose proof (mem_read_run s x l m b buf n Hh ltac:(lia) Hbuf) as Hrun.
  destruct (read_step m buf n) as [[r out] m'] eqn:Es. destruct Hrun as (b' & E & Hh').
  eapply mem_call_quiet; [|by eapply step_read|by apply count_holds]. cbn [mem_exec].
  by rewrite (bind_ok _ _ _ _ _ (read_via_call bread _ _ _ _ _ _ _ _ _ _ _ _ eq_refl H0 E)).
Qed.

Lemma gets_call s x l m b buf n : mem_holds m b -> mop_ok (MGets buf n) -> mem_call s x l m b (MGets buf n).
Proof.
  intros Hh [Hn Hbuf]. cbn [mem_exec]. destruct (Z.leb_spec n 0) as [H0|H0].
  { eapply mem_call_quiet; [|by apply step_nothing_gets|exact Hh]. cbn [mem_exec].
    by rewrite (bind_ok _ _ _ _ _ (read_via_none bgets mem_gets s x l m b buf n eq_refl H0)). }
  pose proof (mem_gets_run s x l m b buf n Hh ltac:(lia) Hbuf) as Hrun.
  destruct (gets_step m buf n) as [[r out] m'] eqn:Es. destruct Hrun as (b' & E & Hh').
  eapply mem_call_quiet; [|by eapply step_gets|by apply count_holds]. cbn [mem_exec].
  by rewrite (bind_ok _ _ _ _ _ (read_via_call bgets _ _ _ _ _ _ _ _ _ _ _ _ eq_refl H0 E)).
Qed.

Lemma write_call s x l m b buf n : mem_holds m b -> mop_ok (MWrite buf n) -> mem_call s x l m b (MWrite buf n).
Proof.
  intros Hh [Hn Hbuf].
  pose proof (BIO_write_run mem_write x _ (Some buf) n _ (putm_x s x _ l b) (mem_fn bwrite m l)) as Hr.
  change (init _ =? 0) with false in Hr. cbn iota in Hr.
  destruct (Z.leb_spec n 0) as [H0|H0].
  { eapply mem_call_quiet; [|by apply step_nothing_write|exact Hh]. cbn [mem_exec].
    by rewrite (bind_ok _ _ _ _ _ Hr). }
  destruct (read_only m) eqn:Hro.
  - exists (-1, []), m, [BIO_R_WRITE_TO_READ_ONLY_BIO], (requests s), b. split; [|split; [by constructor|done]].
    cbn [mem_exec]. rewrite (bind_ok _ _ _ (-1) (set_errors (BIO_R_WRITE_TO_READ_ONLY_BIO :: errors s) (putm s x (mem_bio m l) l b)));
      [by destruct s|].
    assert (mem_write x (Some buf) n (putm s x (mem_bio m l) l b) =
      (Some (-1), set_errors (BIO_R_WRITE_TO_READ_ONLY_BIO :: errors s) (putm s x (mem_bio m l) l b))) as Ew.
    { unfold mem_write. runm. by rewrite rdonly_m, Hro. }
    by rewrite Hr, (bind_ok _ _ _ _ _ Ew).
  - destruct (mem_write_run s x l m b buf n Hh ltac:(lia) Hbuf Hro) as (r & errs & q & m' & b' & E & Hh' & Hres).
    rewrite (bind_ok _ _ _ _ _ E), count_write_m in Hr.
    exists (r, []), (count_write r m'), errs, q, b'. split; [|split; [done|by apply count_holds]].
    cbn [mem_exec]. by rewrite (bind_ok _ _ _ _ _ Hr).
Qed.

Lemma contents_call s x l m b : mem_holds m b -> mem_call s x l m b MContents.
Proof.
  intros Hh. eapply mem_call_quiet; [|by constructor|exact Hh]. cbn [mem_exec].
  assert (BIO_mem_contents x (putm s x (mem_bio m l) l b) =
    (Some (Some (buf_data b, buf_length b)), putm s x (mem_bio m l) l b)) as E.
  { unfold BIO_mem_contents. runm. rewrite bool_decide_eq_true_2 by done. by runm. }
  rewrite (bind_ok _ _ _ _ _ E), mopt_bind. pose proof (blen_nonneg (m_data m)).
  rewrite (holds_length m b Hh), mopt_bind, (holds_load m b) by (done || lia).
  by rewrite drop_0, to_nat_blen, firstn_all.
Qed.

Lemma ctrl_call s x l m b cmd n : mem_holds m b -> mop_ok (MCtrl cmd n) -> mem_call s x l m b (MCtrl cmd n).
Proof.
  intros Hh [H1 H2]. pose proof (mem_ctrl_run s x l m b cmd n Hh H1 H2) as Hrun.
  destruct (mem_ctrl_step m cmd n) as [r m'] eqn:Es. destruct Hrun as (b' & E & Hh').
  eapply mem_call_quiet; [|by constructor|exact Hh']. cbn [mem_exec].
  pose proof (BIO_ctrl_run mem_ctrl x _ cmd n ArgNull _ (putm_x s x _ l b) (mem_fn ctrl m l)) as Hr.
  rewrite E in Hr. by rewrite (bind_ok _ _ _ _ _ Hr).
Qed.

Lemma flags_call s x l m b : mem_holds m b -> mem_call s x l m b MRetryFlags.
Proof.
  intros Hh. eapply mem_call_quiet; [|by constructor|exact Hh]. cbn [mem_exec].
  assert (BIO_get_retry_flags x (putm s x (mem_bio m l) l b) =
    (Some (if m_retry m then 9 else 0), putm s x (mem_bio m l) l b)) as E.
  { unfold BIO_get_retry_flags. runm. cbn. destruct (read_only m), (m_retry m); done. }
  by rewrite (bind_ok _ _ _ _ _ E).
Qed.

(** One call, whatever the caller passes. *)
Lemma mem_exec_ok s x l m b op :
  mem_rep x l m b s -> mop_ok op -> exists r m' errs s' b',
  mem_exec x op s = (Some r, s') /\ mem_step any_refused m op r m' errs /\ mem_rep x l m' b' s' /\
  mem_frame x l s s' /\ errors s' = errs ++ errors s.
Proof.
  intros [Hx Hb Hh] Hop.
  assert (mem_call s x l m b op) as (r & m' & errs & q & b' & E & Hs & Hh').
  { destruct op; [by apply read_call|by apply gets_call|by apply write_call|by apply contents_call
                 |by apply ctrl_call|by apply flags_call]. }
  rewrite <-(putm_id s x _ l b Hx Hb) in E.
  exists r, m', errs, (putm (set_errors (errs ++ errors s) (set_requests q s)) x (mem_bio m' l) l b'), b'.
  split; [done|]. split; [done|]. split; [by apply putm_rep|]. split; [|done].
  split; intros z Hz; cbn; by rewrite lookup_insert_ne.
Qed.

(** Any sequence of calls. *)
Lemma mem_execs_ok s x l m b ops :
  mem_rep x l m b s -> Forall mop_ok ops -> exists rs m' errs s' b',
  mem_execs x ops s = (Some rs, s') /\ mem_steps any_refused m ops rs m' errs /\ mem_rep x l m' b' s' /\
  mem_frame x l s s' /\ errors s' = errs ++ errors s.
Proof.
  revert s m b. induction ops as [|op ops IH]; intros s m b Hr Hops.
  { exists [], m, [], s, b. split_and!; [done|constructor|done|done|done]. }
  apply Forall_cons in Hops as [Hop Hops].
  destruct (mem_exec_ok s x l m b op Hr Hop) as (r & m1 & e1 & s1 & b1 & E1 & Hs1 & Hr1 & [F1 G1] & He1).
  destruct (IH s1 m1 b1 Hr1 Hops) as (rs & m2 & e2 & s2 & b2 & E2 & Hs2 & Hr2 & [F2 G2] & He2).
  exists (r :: rs), m2, (e2 ++ e1), s2, b2. cbn [mem_execs].
  rewrite (bind_ok _ _ _ _ _ E1), (bind_ok _ _ _ _ _ E2). split; [done|].
  split; [by econstructor|]. split; [done|]. split; [|by rewrite He2, He1, app_assoc].
  split; intros z Hz; [by rewrite F2, F1|by rewrite G2, G1].
Qed.
End Calls.
