(* ===== verification/BioMemTheorems.v ===== *)
(** Memory BIOs from their creation to [BIO_free]. *)

From S2P Require Import Prelude CryptoInternal Buf Bio BioMem BioPair BioPairQueue BioPairNew BioMemSpec.

(** * Creation *)

(** [BIO_new(BIO_s_mem())], or [BIO_new_mem_buf] of a buffer and a length. *)
Definition mem_source : Type := option (option (list Z) * Z).

(** The caller's buffer has the bytes it is to be read for. *)
Definition source_ok (src : mem_source) : Prop :=
  match src with
  | None => True
  | Some (None, len) => 0 <= len < 2 ^ 63
  | Some (Some str, len) => (if len <? 0 then OPENSSL_strnlen str < blen str else len <= blen str) /\ blen str <= INT_MAX
  end.

(** The bytes of the buffer: all up to the NUL, where the length is negative. *)
Definition source_bytes (buf : option (list Z)) (len : Z) : list Z :=
  match buf with
  | None => []
  | Some str => take (Z.to_nat (if len <? 0 then OPENSSL_strnlen str else len)) str
  end.

Definition mem_init (src : mem_source) : mem_state :=
  match src with
  | None => Mem [] None (-1) false 1 0 0
  | Some (buf, len) => Mem (source_bytes buf len) (Some (source_bytes buf len)) 0 false 1 0 0
  end.

(** Why no BIO was made, and the error that says so. *)
Definition no_bio `{Mallocs} (src : mem_source) (e : bio_error) : Prop :=
  (exists len, src = Some (None, len) /\ len <> 0) /\ e = BIO_R_NULL_PARAMETER \/
  any_refused /\ (e = ERR_R_MALLOC_FAILURE \/ e = ERR_BUF BUF_R_MALLOC_FAILURE).

Section New.
Context {ms : Mallocs} {ml : MallocsLaws ms} {mt : BioMethods} {mm : MemMethods mt}.

Definition mem_open (src : mem_source) : B (option loc) :=
  match src with
  | None => BIO_new BIO_s_mem
  | Some (buf, len) => BIO_new_mem_buf buf len
  end.

Lemma BUF_MEM_new_cases i :
  @BUF_MEM_new (nth_malloc i) [] =
  if granted i sizeof_BUF_MEM then (Some (Some BUF_MEM_zero), []) else (Some None, [BUF_R_MALLOC_FAILURE]).
Proof.
  unfold BUF_MEM_new, granted. destruct (@OPENSSL_malloc (nth_malloc i) sizeof_BUF_MEM) as [blk|].
  - by rewrite bool_decide_eq_true_2.
  - by rewrite bool_decide_eq_false_2 by (by intros []).
Qed.

Lemma put_no_errors s : put_buf_errors [] s = (Some tt, s).
Proof. by destruct s. Qed.

Lemma mem_new_run s x bx :
  bios s !! x = Some bx ->
  mem_new x s =
  if granted (requests s) sizeof_BUF_MEM then
    let l := fresh (dom (bufs s)) in
    (Some 1, putm (set_requests (S (requests s)) s) x
      (set_ptr (BufMemPtr l) (set_num (-1) (set_init 1 (set_shutdown 1 bx)))) l BUF_MEM_zero)
  else (Some 0, set_errors (ERR_BUF BUF_R_MALLOC_FAILURE :: errors s) (set_requests (S (requests s)) s)).
Proof.
  intros Hx. unfold mem_new. rewrite (bind_ok _ _ _ _ _ (next_request_run _)), on_copy_bind, BUF_MEM_new_cases.
  destruct (granted (requests s) sizeof_BUF_MEM); [|done].
  rewrite (bind_ok _ _ _ _ _ (put_no_errors _)), mget_bind. set (l := fresh (dom (bufs _))).
  unfold set_buf at 1. rewrite mmodify_bind.
  assert (set_bufs (<[l:=BUF_MEM_zero]> (bufs (set_requests (S (requests s)) s))) (set_requests (S (requests s)) s) =
    putm (set_requests (S (requests s)) s) x bx l BUF_MEM_zero) as ->.
  { unfold putm, set_bufs, set_bios. cbn. by rewrite (insert_id (bios s)). }
  by runm.
Qed.

Lemma BIO_new_mem_run s : exists o s',
  BIO_new BIO_s_mem s = (Some o, s') /\
  match o with
  | None => bios s' = bios s /\ bufs s' = bufs s /\ any_refused /\ exists e,
      errors s' = e :: errors s /\ (e = ERR_R_MALLOC_FAILURE \/ e = ERR_BUF BUF_R_MALLOC_FAILURE)
  | Some x => exists l q, bios s !! x = None /\ bufs s !! l = None /\
      s' = putm (set_requests q s) x (mem_bio (mem_init None) l) l BUF_MEM_zero
  end.
Proof.
  set (n := requests s). unfold BIO_new. rewrite (bind_ok _ _ _ _ _ (bio_malloc_run _ _)). fold n.
  destruct (@OPENSSL_malloc (nth_malloc n) sizeof_BIO) as [blk|] eqn:E1.
  - rewrite mget_bind. cbn [bios set_requests]. set (x := fresh (dom (bios s))).
    assert (bios s !! x = None) as Hx by apply not_elem_of_dom, is_fresh.
    unfold set_bio. rewrite mmodify_bind. unfold BIO_s_mem. rewrite mem_methods. cbn [create mem_method_table].
    set (s1 := set_bios _ _). pose proof (mem_new_run s1 x _ (lookup_insert_eq _ _ _)) as Hnew.
    destruct (granted (requests s1) sizeof_BUF_MEM) eqn:Eg; cbn zeta in Hnew; rewrite (bind_ok _ _ _ _ _ Hnew).
    + exists (Some x), (putm (set_requests (S (S n)) s) x (mem_bio (mem_init None) (fresh (dom (bufs s))))
        (fresh (dom (bufs s))) BUF_MEM_zero). split; [|exists (fresh (dom (bufs s))), (S (S n)); split_and!; [done| |done]].
      * cbn. unfold mret, M_ret, putm, s1, set_bios, set_bufs. cbn. by rewrite insert_insert_eq.
      * apply not_elem_of_dom, is_fresh.
    + cbn iota. change (0 =? 0) with true. cbn iota. rewrite mmodify_bind. exists None. eexists. split; [done|].
      cbn. rewrite delete_insert_id by done. split_and!; [done..|by exists (requests s1), sizeof_BUF_MEM|]. eexists. split; [done|by right].
  - exists None. eexists. split; [done|]. split_and!; [done..|exists n, sizeof_BIO; by apply granted_None|].
    eexists. split; [done|by left].
Qed.

Lemma source_bytes_spec str len :
  source_ok (Some (Some str, len)) ->
  let size := if len <? 0 then OPENSSL_strnlen str else u64 len in
  blen (source_bytes (Some str) len) = size /\ size <= INT_MAX /\ exists tail, str = source_bytes (Some str) len ++ tail.
Proof.
  intros [Hlen Hmax] size. unfold source_bytes.
  assert (0 <= OPENSSL_strnlen str) by (clear; induction str as [|c str IH]; cbn; [done|]; destruct (c =? 0); lia).
  assert (size = if len <? 0 then OPENSSL_strnlen str else len) as Hs.
  { unfold size. destruct (Z.ltb_spec len 0); [done|]. apply wrap_small. unfold INT_MAX in Hmax. split; pow2; lia. }
  rewrite <-Hs. assert (0 <= size <= blen str) as [H0 H1] by (rewrite Hs; zcases; lia).
  split; [by apply blen_take|]. split; [lia|]. exists (drop (Z.to_nat size) str). by rewrite take_drop.
Qed.

(** Opening makes a BIO, or says why not. *)
Lemma mem_open_run s src :
  source_ok src -> exists o s',
  mem_open src s = (Some o, s') /\
  match o with
  | None => bios s' = bios s /\ bufs s' = bufs s /\ exists e, errors s' = e :: errors s /\ no_bio src e
  | Some x => exists l q b, bios s !! x = None /\ bufs s !! l = None /\ mem_holds (mem_init src) b /\
      s' = putm (set_requests q s) x (mem_bio (mem_init src) l) l b
  end.
Proof.
  intros Hsrc. destruct (BIO_new_mem_run s) as (o & s1 & E & H).
  assert (o = None -> exists s', (Some (@None loc), s1) = (Some None, s') /\ bios s' = bios s /\ bufs s' = bufs s /\
      exists e, errors s' = e :: errors s /\ no_bio src e) as Hno.
  { intros ->. destruct H as (? & ? & ? & e & ? & ?). exists s1. split_and!; [done..|]. exists e. split; [done|]. by right. }
  destruct src as [[buf len]|]; cbn [mem_open].
  - unfold BIO_new_mem_buf.
    assert (exists size, (if len <? 0 then str ← mopt buf; mret (OPENSSL_strnlen str) else mret (u64 len) : B Z) s = (Some size, s) /\
      (len = 0 -> buf = None -> size = 0) /\ (forall str, buf = Some str -> size = if len <? 0 then OPENSSL_strnlen str else u64 len))
      as (size & Esz & Hnull & Hsz).
    { destruct buf as [str|]; cbn in Hsrc.
      - exists (if len <? 0 then OPENSSL_strnlen str else u64 len). destruct (len <? 0); split_and!; try done; congruence.
      - rewrite (proj2 (Z.ltb_ge len 0)) by lia. exists (u64 len). split_and!; [done|by intros ->|done]. }
    rewrite (bind_ok _ _ _ _ _ Esz).
    destruct (bool_decide (buf = None) && negb (len =? 0)) eqn:En.
    { apply andb_true_iff in En as [->%bool_decide_eq_true Hl]. exists None. eexists. split; [done|].
      split_and!; [done..|]. eexists. split; [done|]. left. split; [|done]. exists len. split; [done|].
      by destruct (Z.eqb_spec len 0). }
    rewrite (bind_ok _ _ _ _ _ E). destruct o as [x|].
    2:{ exists None. by apply Hno. }
    destruct H as (l & q & Hx & Hl & ->). runm. exists (Some x). eexists. split; [done|].
    exists l, q. eexists. split; [done|]. split; [done|]. split; [|done].
    destruct buf as [str|].
    + destruct (source_bytes_spec str len Hsrc) as (Hb & Hm & tail & Ht). rewrite (Hsz str eq_refl) in *.
      cbn [mem_init]. remember (source_bytes (Some str) len) as whole. split; [cbn; by rewrite Hb|]. cbn.
      split; [done|]. split; [done|]. split; [by rewrite Hb|]. exists []. split_and!; [done|done|by exists tail].
    + assert (len = 0) as -> by (destruct (Z.eqb_spec len 0); [done|by cbn in En]). rewrite (Hnull eq_refl eq_refl).
      split; [done|]. cbn. split_and!; [done..|]. by exists [].
  - rewrite E. destruct o as [x|].
    2:{ exists None. by apply Hno. }
    destruct H as (l & q & Hx & Hl & ->). exists (Some x). eexists. split; [done|].
    exists l, q, BUF_MEM_zero. split; [done|]. split; [done|]. split; [|done]. by split.
Qed.
End New.

(** * BIO_free *)

Section FreeMem.
Context {ms : Mallocs} {ml : MallocsLaws ms} {mt : BioMethods} {mm : MemMethods mt}.

Lemma set_bio_m s x bx bx' l b : set_bio x bx' (putm s x bx l b) = (Some tt, putm s x bx' l b).
Proof. unfold set_bio, putm, set_bufs, set_bios, mmodify. cbn. by rewrite insert_insert_eq. Qed.

(** The buffer goes with the BIO, unless [BIO_set_close] was told otherwise. *)
Lemma mem_free_run s x l m b (bx := set_references 0 (mem_bio m l)) :
  mem_holds m b -> exists s' bx',
  mem_free x (putm s x bx l b) = (Some 1, s') /\ bios s' = <[x := bx']> (bios s) /\ errors s' = errors s /\
  bufs s' = if m_shutdown m =? 0 then <[l := b]> (bufs s) else delete l (bufs s).
Proof.
  intros Hh. unfold mem_free. runm. cbn [shutdown init ptr bx mem_bio set_references].
  destruct (m_shutdown m =? 0); cbn [orb]; [by eexists _, bx|]. change (1 =? 0) with false. cbn iota.
  assert (get_mem x (putm s x bx l b) = (Some (l, b), putm s x bx l b)) as E.
  { unfold get_mem. runm. cbn. by runm. }
  rewrite (bind_ok _ _ _ _ _ E). change (rdonly _) with (rdonly (mem_bio m l)). rewrite rdonly_m.
  set (b' := if read_only m then set_buf_data NULL_ptr b else b).
  rewrite (bind_ok _ _ _ tt (putm s x bx l b')) by (unfold b'; destruct (read_only m); [by rewrite set_buf_m|done]).
  assert (is_NULL (buf_data b') || (at_ (buf_data b') =? 0) = true) as Hfree.
  { unfold b', read_only. destruct Hh as [_ H]. destruct (m_static m); [by rewrite bool_decide_eq_true_2|].
    rewrite bool_decide_eq_false_2 by (by intros []). rewrite (owns_at _ _ H). by rewrite orb_true_r. }
  rewrite (bind_ok _ _ _ tt (set_bufs (delete l (bufs s)) (set_bios (<[x := bx]> (bios s)) s))).
  - erewrite bind_ok by (by apply upd_bio_run, lookup_insert_eq).
    eexists _, (set_ptr NULL_void bx). split; [done|]. split; [|done]. cbn. by rewrite insert_insert_eq.
  - unfold buf_mem_free. runm. rewrite Hfree. runm. unfold mmodify, putm, set_bufs, set_bios. cbn. by rewrite delete_insert_eq.
Qed.

Lemma BIO_free_mem s x l m b :
  mem_holds m b -> exists s', BIO_free (Some x) (putm s x (mem_bio m l) l b) = (Some 1, s') /\
  bios s' = delete x (bios s) /\ errors s' = errors s /\
  bufs s' = if m_shutdown m =? 0 then <[l := b]> (bufs s) else delete l (bufs s).
Proof.
  intros Hh. unfold BIO_free. runm. cbn [BIO_free_loop]. runm. unfold CRYPTO_refcount_dec_and_test_zero.
  cbn [references mem_bio]. change (1 =? 0) with false. change (1 <? CRYPTO_REFCOUNT_MAX) with true. cbn iota.
  runm. change (1 - 1 =? 0) with true. cbn [negb].
  change (1 - 1) with 0. rewrite (bind_ok _ _ _ _ _ (set_bio_m _ _ _ _ _ _)).
  assert (BIO_pop x (putm s x (set_references 0 (mem_bio m l)) l b) =
    (Some None, putm s x (set_references 0 (mem_bio m l)) l b)) as Ep.
  { unfold BIO_pop. runm. by rewrite (bind_ok _ _ _ _ _ (set_bio_m _ _ _ _ _ _)). }
  rewrite (bind_ok _ _ _ _ _ Ep). runm.
  assert (bio_method_fn destroy (set_references 0 (mem_bio m l)) = Some mem_free) as ->.
  { unfold bio_method_fn. cbn. by rewrite mem_methods. }
  destruct (mem_free_run s x l m b Hh) as (s' & bx' & E & Hb & He & Hf).
  rewrite (bind_ok _ _ _ _ _ E), mmodify_bind.
  assert (forall n s, BIO_free_loop n None s = (Some 1, s)) as Hend by (by intros []).
  rewrite Hend. eexists. split; [done|]. cbn. split_and!; [|done|done]. by rewrite Hb, delete_insert_eq.
Qed.
End FreeMem.

(** * What goes through *)

(** The bytes that the calls have put in, and got out. *)
Definition mem_accepted (op : mem_op) (r : Z * list Z) : list Z :=
  match op with MWrite buf _ => take (Z.to_nat r.1) buf | _ => [] end.
Definition mem_received (op : mem_op) (r : Z * list Z) : list Z :=
  match op with
  | MRead _ _ | MGets _ _ => take (Z.to_nat r.1) r.2
  | _ => []
  end.

(** Calls that neither empty or rewind the BIO nor make up a result at its end. *)
Definition keeps_data (op : mem_op) : Prop :=
  match op with MCtrl cmd _ => cmd <> BIO_CTRL_RESET /\ cmd <> BIO_C_SET_BUF_MEM_EOF_RETURN | _ => True end.

Lemma count_data r m :
  m_data (count_read r m) = m_data m /\ m_data (count_write r m) = m_data m /\
  m_eof (count_read r m) = m_eof m /\ m_eof (count_write r m) = m_eof m.
Proof. unfold count_read, count_write. by destruct (0 <? r). Qed.

Lemma mem_step_stream refused m op r m' errs :
  mem_step refused m op r m' errs -> mop_ok op -> keeps_data op -> m_eof m <= 0 ->
  m_data m ++ mem_accepted op r = mem_received op r ++ m_data m' /\ m_eof m' <= 0.
Proof.
  intros Hs Hop Hk He. destruct Hs as [m buf n Hn|m buf n Hn|m buf n Hn|m buf n r buf' m' Hn Hs|m buf n r buf' m' Hn Hs
    |m buf n Hn Hro Hfit|m buf n Hn Hro Hwhy|m buf n Hn Hro Hfit Hwhy|m buf n Hn Hro|m|m cmd num r m' Hs|m]; cbn [mem_accepted mem_received fst snd].
  all: rewrite ?app_nil_r; try done.
  - destruct (count_data r m') as (-> & _ & -> & _). revert Hs. unfold read_step. cbn [m_data m_eof with_mretry].
    destruct (Z.eqb_spec (blen (m_data m)) 0) as [E|E]; intros [= <- <- <-].
    + cbn [m_data m_eof with_mretry]. replace (Z.to_nat (m_eof m)) with 0%nat by lia. done.
    + cbn [m_data m_eof with_mretry with_data]. split; [|done]. pose proof (blen_nonneg (m_data m)).
      set (k := Z.to_nat (Z.min n (blen (m_data m)))).
      rewrite take_app_le, take_take, Nat.min_id, take_drop; [done|]. rewrite length_take. unfold k, blen in *. lia.
  - destruct (count_data r m') as (-> & _ & -> & _). revert Hs. unfold gets_step. intros [= <- <- <-].
    cbn [m_data m_eof with_mretry with_data]. split; [|done]. set (k := Z.to_nat (n - 1)).
    destruct (take_line_prefix (take k (m_data m))) as [rest E]. set (line := take_line _) in *.
    rewrite to_nat_blen, take_app_length.
    assert (take (length line) (m_data m) = line) as Hp.
    { rewrite <-(take_drop k (m_data m)), E, <-app_assoc. apply take_app_length. }
    rewrite <-(take_drop (length line) (m_data m)) at 1. by rewrite Hp.
  - by destruct (count_data n (with_data (m_data m ++ take (Z.to_nat n) buf) (with_mretry false m))) as (_ & -> & _ & ->).
  - destruct Hk as [H1 H2]. destruct Hop as [H3 H4]. cbn. revert Hs. unfold mem_ctrl_step.
    rewrite (proj2 (Z.eqb_neq _ _) H1), (proj2 (Z.eqb_neq _ _) H2). repeat case_match; by intros [= <- <-].
Qed.

Lemma mem_steps_stream refused m ops rs m' errs :
  mem_steps refused m ops rs m' errs -> Forall mop_ok ops -> Forall keeps_data ops -> m_eof m <= 0 ->
  m_data m ++ concat (zip_with mem_accepted ops rs) = concat (zip_with mem_received ops rs) ++ m_data m'.
Proof.
  induction 1 as [|m op r m1 e1 ops rs m2 e2 Hs _ IH]; intros Hops Hks He; [by rewrite app_nil_r|].
  apply Forall_cons in Hops as [Hop Hops], Hks as [Hk Hks].
  destruct (mem_step_stream _ _ _ _ _ _ Hs Hop Hk He) as [E He']. cbn [zip_with concat].
  by rewrite app_assoc, E, <-!app_assoc, (IH Hops Hks He').
Qed.

(** * The theorem *)

Section Main.
Context {ms : Mallocs} {ml : MallocsLaws ms} {mt : BioMethods} {mm : MemMethods mt}.

(** C9: a memory BIO made with [BIO_new(BIO_s_mem())] or [BIO_new_mem_buf] is a
    string of bytes: any sequence of [BIO_read], [BIO_gets], [BIO_write],
    [BIO_mem_contents] and controls gives the results, the buffers and the
    errors of the specification, whatever the allocator refuses; what was there
    and what was written come out in order and unchanged; [BIO_free] leaves the
    heap as it was before the BIO was made. Opening fails only for NULL with a
    length, or for want of memory. *)
Theorem mem_bio_is_byte_string src ops s :
  source_ok src -> Forall mop_ok ops -> exists o s1,
  mem_open src s = (Some o, s1) /\
  match o with
  | None => bios s1 = bios s /\ bufs s1 = bufs s /\ exists e, errors s1 = e :: errors s /\ no_bio src e
  | Some x => bios s !! x = None /\ exists rs m errs s2 s3,
      mem_execs x ops s1 = (Some rs, s2) /\
      mem_steps any_refused (mem_init src) ops rs m errs /\
      (Forall keeps_data ops ->
        m_data (mem_init src) ++ concat (zip_with mem_accepted ops rs) =
        concat (zip_with mem_received ops rs) ++ m_data m) /\
      errors s2 = errs ++ errors s /\ (forall z, z <> x -> bios s2 !! z = bios s !! z) /\
      BIO_free (Some x) s2 = (Some 1, s3) /\ bios s3 = bios s /\ errors s3 = errors s2 /\
      (m_shutdown m <> 0 -> bufs s3 = bufs s)
  end.
Proof.
  intros Hsrc Hops. destruct (mem_open_run s src Hsrc) as (o & s1 & E & H). exists o, s1. split; [done|].
  destruct o as [x|]; [|done]. destruct H as (l & q & b & Hx & Hl & Hh & ->). split; [done|].
  set (s1 := putm _ _ _ _ _). assert (mem_rep x l (mem_init src) b s1) as Hr by by apply putm_rep.
  destruct (mem_execs_ok s1 x l _ b ops Hr Hops) as (rs & m & errs & s2 & b2 & E2 & Hs & [Hx2 Hb2 Hh2] & [F G] & He).
  destruct (BIO_free_mem s2 x l m b2 Hh2) as (s3 & E3 & Hb3 & He3 & Hf3). rewrite <-(putm_id s2 x _ l b2 Hx2 Hb2) in E3.
  assert (forall z, z <> x -> bios s2 !! z = bios s !! z) as Hframe.
  { intros z Hz. rewrite F by done. cbn. by rewrite lookup_insert_ne. }
  exists rs, m, errs, s2, s3. split; [done|]. split; [done|]. split.
  { intros Hks. eapply mem_steps_stream; [done..|]. by destruct src as [[buf len]|]. }
  split; [done|]. split; [done|]. split; [done|]. split; [|split; [done|]].
  - rewrite Hb3. apply map_eq. intros z. destruct (decide (z = x)) as [->|Hz]; [by rewrite lookup_delete_eq|].
    rewrite lookup_delete_ne by done. by apply Hframe.
  - intros Hsh. rewrite Hf3, (proj2 (Z.eqb_neq _ _) Hsh). apply map_eq. intros z.
    destruct (decide (z = l)) as [->|Hz]; [by rewrite lookup_delete_eq|].
    rewrite lookup_delete_ne, G by done. cbn. by rewrite lookup_insert_ne.
Qed.
End Main.

(** * An example *)

Definition bio_table : BioMethods := @bio_method_table zero_mallocs (@methods_biop_table zero_mallocs).
#[export] Instance bio_table_mem : @MemMethods zero_mallocs bio_table.
Proof. done. Qed.

(** Two lines written, one read as such, the rest piecewise, then nothing. *)
Definition mem_example : list mem_op :=
  [MWrite [97; 98; 10; 99; 100] 5; MCtrl BIO_CTRL_PENDING 0; MGets [0; 0; 0; 0; 0] 5; MRead [7; 7; 7] 1; MContents;
   MRead [7; 7; 7] 3; MRead [7; 7; 7] 3; MRetryFlags; MCtrl BIO_CTRL_EOF 0; MCtrl BIO_CTRL_SET_CLOSE 1].

(** A string of the caller's, which cannot be written to. *)
Definition rdonly_example : list mem_op :=
  [MRead [9; 9; 9] 2; MWrite [1] 1; MCtrl BIO_CTRL_RESET 0; MGets [9; 9; 9; 9; 9] 5; MRead [9] 1; MRetryFlags].

Instance mop_ok_dec op : Decision (mop_ok op).
Proof. destruct op; cbn; apply _. Defined.

Lemma mem_bio_is_byte_string_witness :
  (exists x s1 s2, @mem_open zero_mallocs bio_table None empty_heap = (Some (Some x), s1) /\
    @mem_execs bio_table x mem_example s1 =
      (Some [(5, []); (5, []); (3, [97; 98; 10; 0; 0]); (1, [99; 7; 7]); (1, [100]); (1, [100; 7; 7]);
             (-1, [7; 7; 7]); (9, []); (1, []); (1, [])], s2)) /\
  exists x s1 s2 s3, @mem_open zero_mallocs bio_table (Some (Some [104; 105; 0; 33], -1)) empty_heap = (Some (Some x), s1) /\
    @mem_execs bio_table x rdonly_example s1 =
      (Some [(2, [104; 105; 9]); (-1, []); (1, []); (2, [104; 105; 0; 9; 9]); (0, [9]); (0, [])], s2) /\
    errors s2 = [BIO_R_WRITE_TO_READ_ONLY_BIO] /\ @BIO_free bio_table (Some x) s2 = (Some 1, s3) /\ bios s3 = ∅.
Proof.
  split.
  - destruct (@mem_bio_is_byte_string zero_mallocs _ bio_table _ None mem_example empty_heap) as (o & s1 & E & H);
      [done|apply (bool_decide_unpack _); vm_compute; exact I|].
    destruct o as [x|]; [|by vm_compute in E].
    destruct H as (_ & rs & m & errs & s2 & s3 & Ex & _). exists x, s1, s2. split; [exact E|].
    assert (fst (@mem_execs bio_table x mem_example s1) =
      Some [(5, []); (5, []); (3, [97; 98; 10; 0; 0]); (1, [99; 7; 7]); (1, [100]); (1, [100; 7; 7]);
             (-1, [7; 7; 7]); (9, []); (1, []); (1, [])]) as Ers.
    { vm_compute in E. injection E as <- <-. vm_compute. reflexivity. }
    rewrite Ex in Ers. injection Ers as ->. exact Ex.
  - destruct (@mem_bio_is_byte_string zero_mallocs _ bio_table _ (Some (Some [104; 105; 0; 33], -1)) rdonly_example empty_heap)
      as (o & s1 & E & H); [by split|apply (bool_decide_unpack _); vm_compute; exact I|].
    destruct o as [x|]; [|by vm_compute in E].
    destruct H as (_ & rs & m & errs & s2 & s3 & Ex & _ & _ & _ & _ & Ef & Hb & _). exists x, s1, s2, s3. split; [exact E|].
    assert (prod_map id errors (@mem_execs bio_table x rdonly_example s1) =
      (Some [(2, [104; 105; 9]); (-1, []); (1, []); (2, [104; 105; 0; 9; 9]); (0, [9]); (0, [])], [BIO_R_WRITE_TO_READ_ONLY_BIO])) as Ers.
    { vm_compute in E. injection E as <- <-. vm_compute. reflexivity. }
    rewrite Ex in Ers. injection Ers as Ers He. rewrite Ers in Ex. split; [exact Ex|]. split; [exact He|]. split; [exact Ef|exact Hb].
Defined.
