(* ===== verification/Evp.v ===== *)
(** crypto/fipsmodule/digest/digest.c and digests.c: message digests behind one
    interface. [evp_md] is the address of a method table, [md_method] the table.
    A context owns the block [md_data]; the functions return the context they
    were given as it is afterwards. [evp_world] counts the requests of memory,
    any of which may be refused, and the blocks that are live. *)

From S2P Require Import Prelude CryptoInternal Buf Md32 Sha256 Sha1 Md5 Md4 Sha512.

(** * Memory and errors *)

Inductive evp_error :=
  | DIGEST_R_INPUT_NOT_INITIALIZED | DIGEST_R_MALLOC_FAILURE | DIGEST_R_SHOULD_NOT_HAVE_BEEN_CALLED
  | HKDF_R_OUTPUT_TOO_LARGE | HKDF_R_HMAC_LIB
  | CIPHER_R_INPUT_NOT_INITIALIZED | CIPHER_R_MALLOC_FAILURE | CIPHER_R_INITIALIZATION_ERROR | CIPHER_R_NO_CIPHER_SET
  | CIPHER_R_OVERFLOW | CIPHER_R_DATA_NOT_MULTIPLE_OF_BLOCK_LENGTH | CIPHER_R_WRONG_FINAL_BLOCK_LENGTH
  | CIPHER_R_BAD_DECRYPT | CIPHER_R_CTRL_NOT_IMPLEMENTED | CIPHER_R_CTRL_OPERATION_NOT_IMPLEMENTED
  | CIPHER_R_INVALID_KEY_LENGTH | CIPHER_R_AES_KEY_SETUP_FAILED | CIPHER_R_UNSUPPORTED_TAG_SIZE | CIPHER_R_BAD_KEY_LENGTH
  | CIPHER_R_INVALID_OPERATION | CIPHER_R_TOO_LARGE | CIPHER_R_BUFFER_TOO_SMALL | CIPHER_R_INVALID_NONCE_SIZE
  | CIPHER_R_INVALID_AD_SIZE | CIPHER_R_OUTPUT_ALIASES_INPUT | CIPHER_R_NO_DIRECTION_SET | CIPHER_R_UNSUPPORTED_KEY_SIZE.

(** [live]: the blocks that were allocated and not freed. *)
Record evp_world := World { requests : nat; live : Z; errors : list evp_error }.

Abbreviation W := (M evp_world).

Definition put_error (e : evp_error) : W unit := mmodify (fun w => World (requests w) (live w) (e :: errors w)).

Definition evp_malloc `{Mallocs} (n : Z) : W (option (list Z)) :=
  w ← mget;
  let b := @OPENSSL_malloc (nth_malloc (requests w)) n in
  _ ← mput (World (S (requests w)) (if bool_decide (is_Some b) then live w + 1 else live w) (errors w));
  mret b.

(** [OPENSSL_free]; NULL is not freed. *)
Definition evp_free {A} (p : option A) : W unit :=
  mmodify (fun w => World (requests w) (match p with Some _ => live w - 1 | None => live w end) (errors w)).

(** * digest/internal.h *)

Inductive evp_md :=
  | EVP_md4 | EVP_md5 | EVP_sha1 | EVP_sha224 | EVP_sha256 | EVP_sha384 | EVP_sha512 | EVP_sha512_256 | EVP_md5_sha1.
#[export] Instance evp_md_eq_dec : EqDecision evp_md.
Proof. solve_decision. Defined.

(** The block [md_data]: bytes as the allocator or [OPENSSL_cleanse] left them,
    or the structure that the digest's functions made of it. *)
Inductive md_data_t :=
  | Raw (block : list Z)
  | DataMd32 (c : md32_ctx)
  | DataSha256 (c : SHA256_CTX)
  | DataSha512 (c : SHA512_CTX)
  | DataMd5Sha1 (md5 sha1 : md32_ctx).

Record EVP_MD := EvpMd {
  md_type : Z;
  md_size : Z;
  md_flags : Z;
  md_init : md_data_t -> option md_data_t;
  md_update : md_data_t -> list Z -> option md_data_t;
  md_final : md_data_t -> option (list Z * md_data_t);
  block_size : Z;
  ctx_size : Z
}.

Definition EVP_MAX_MD_SIZE : Z := 64.
Definition EVP_MAX_MD_BLOCK_SIZE : Z := 128.

(** * digests.c *)

(** [MD4_CTX], [MD5_CTX] and [SHA_CTX]: the initialisation clears the structure. *)
Definition md32_init (init : md32_ctx) (d : md_data_t) : option md_data_t := Some (DataMd32 init).
Definition md32_update (update : md32_ctx -> list Z -> md32_ctx) (d : md_data_t) (bs : list Z) : option md_data_t :=
  match d with DataMd32 c => Some (DataMd32 (update c bs)) | _ => None end.
Definition md32_final (final : md32_ctx -> list Z * md32_ctx) (d : md_data_t) : option (list Z * md_data_t) :=
  match d with DataMd32 c => let '(out, c) := final c in Some (out, DataMd32 c) | _ => None end.

Definition md4_init := md32_init MD4_Init.
Definition md4_update := md32_update MD4_Update.
Definition md4_final := md32_final MD4_Final.
Definition md5_init := md32_init MD5_Init.
Definition md5_update := md32_update MD5_Update.
Definition md5_final := md32_final MD5_Final.
Definition sha1_init := md32_init SHA1_Init.
Definition sha1_update := md32_update SHA1_Update.
Definition sha1_final := md32_final SHA1_Final.

Definition sha256_init (d : md_data_t) : option md_data_t := Some (DataSha256 SHA256_Init).
Definition sha224_init (d : md_data_t) : option md_data_t := Some (DataSha256 SHA224_Init).
Definition sha256_update (d : md_data_t) (bs : list Z) : option md_data_t :=
  match d with DataSha256 c => Some (DataSha256 (SHA256_Update c bs)) | _ => None end.
Definition sha224_update (d : md_data_t) (bs : list Z) : option md_data_t :=
  match d with DataSha256 c => Some (DataSha256 (SHA224_Update c bs)) | _ => None end.
(** [CHECK] asserts that the function returns one. *)
Definition sha256_final (d : md_data_t) : option (list Z * md_data_t) :=
  match d with DataSha256 c => let '(out, c) := SHA256_Final c in out ← out; Some (out, DataSha256 c) | _ => None end.
Definition sha224_final (d : md_data_t) : option (list Z * md_data_t) :=
  match d with DataSha256 c => let '(out, c) := SHA224_Final c in out ← out; Some (out, DataSha256 c) | _ => None end.

(** The array [p] of a [SHA512_CTX], which the initialisation leaves alone. *)
Definition sha512_mem (d : md_data_t) : option (list Z) :=
  match d with
  | Raw block => Some (take 128 (drop 80 block))
  | DataSha512 c => Some (Sha512.p c)
  | _ => None
  end.

Definition sha384_init (d : md_data_t) : option md_data_t := mem ← sha512_mem d; Some (DataSha512 (SHA384_Init mem)).
Definition sha512_init (d : md_data_t) : option md_data_t := mem ← sha512_mem d; Some (DataSha512 (SHA512_Init mem)).
Definition sha512_256_init (d : md_data_t) : option md_data_t := mem ← sha512_mem d; Some (DataSha512 (SHA512_256_Init mem)).
Definition sha384_update (d : md_data_t) (bs : list Z) : option md_data_t :=
  match d with DataSha512 c => Some (DataSha512 (SHA384_Update c bs)) | _ => None end.
Definition sha512_update (d : md_data_t) (bs : list Z) : option md_data_t :=
  match d with DataSha512 c => Some (DataSha512 (SHA512_Update c bs)) | _ => None end.
Definition sha512_256_update (d : md_data_t) (bs : list Z) : option md_data_t :=
  match d with DataSha512 c => Some (DataSha512 (SHA512_256_Update c bs)) | _ => None end.
Definition sha384_final (d : md_data_t) : option (list Z * md_data_t) :=
  match d with DataSha512 c => let '(out, c) := SHA384_Final false c in out ← out; Some (out, DataSha512 c) | _ => None end.
Definition sha512_final (d : md_data_t) : option (list Z * md_data_t) :=
  match d with DataSha512 c => let '(out, c) := SHA512_Final false c in out ← out; Some (out, DataSha512 c) | _ => None end.
Definition sha512_256_final (d : md_data_t) : option (list Z * md_data_t) :=
  match d with DataSha512 c => let '(out, c) := SHA512_256_Final false c in out ← out; Some (out, DataSha512 c) | _ => None end.

Definition md5_sha1_init (d : md_data_t) : option md_data_t := Some (DataMd5Sha1 MD5_Init SHA1_Init).
Definition md5_sha1_update (d : md_data_t) (bs : list Z) : option md_data_t :=
  match d with DataMd5Sha1 m s => Some (DataMd5Sha1 (MD5_Update m bs) (SHA1_Update s bs)) | _ => None end.
Definition md5_sha1_final (d : md_data_t) : option (list Z * md_data_t) :=
  match d with
  | DataMd5Sha1 m s =>
      let '(out1, m) := MD5_Final m in
      let '(out2, s) := SHA1_Final s in
      Some (out1 ++ out2, DataMd5Sha1 m s)
  | _ => None
  end.

(** The tables that [EVP_md4] and the other functions return. *)
Definition md4_table : EVP_MD := EvpMd 257 16 0 md4_init md4_update md4_final 64 92.
Definition md5_table : EVP_MD := EvpMd 4 16 0 md5_init md5_update md5_final 64 92.
Definition sha1_table : EVP_MD := EvpMd 64 SHA_DIGEST_LENGTH 0 sha1_init sha1_update sha1_final 64 96.
Definition sha224_table : EVP_MD := EvpMd 675 SHA224_DIGEST_LENGTH 0 sha224_init sha224_update sha224_final 64 112.
Definition sha256_table : EVP_MD := EvpMd 672 SHA256_DIGEST_LENGTH 0 sha256_init sha256_update sha256_final 64 112.
Definition sha384_table : EVP_MD := EvpMd 673 SHA384_DIGEST_LENGTH 0 sha384_init sha384_update sha384_final 128 216.
Definition sha512_table : EVP_MD := EvpMd 674 SHA512_DIGEST_LENGTH 0 sha512_init sha512_update sha512_final 128 216.
Definition sha512_256_table : EVP_MD := EvpMd 962 SHA512_256_DIGEST_LENGTH 0 sha512_256_init sha512_256_update sha512_256_final 128 216.
Definition md5_sha1_table : EVP_MD := EvpMd 114 (16 + SHA_DIGEST_LENGTH) 0 md5_sha1_init md5_sha1_update md5_sha1_final 64 188.

Definition md_method (m : evp_md) : EVP_MD :=
  match m with
  | EVP_md4 => md4_table
  | EVP_md5 => md5_table
  | EVP_sha1 => sha1_table
  | EVP_sha224 => sha224_table
  | EVP_sha256 => sha256_table
  | EVP_sha384 => sha384_table
  | EVP_sha512 => sha512_table
  | EVP_sha512_256 => sha512_256_table
  | EVP_md5_sha1 => md5_sha1_table
  end.

(** * digest.c *)

(** The public-key context of a signing digest, and how it is copied. *)
Class PkeyOps := { EVP_PKEY_CTX : Type; pctx_dup : EVP_PKEY_CTX -> option EVP_PKEY_CTX }.

Definition EVP_MD_type (md : evp_md) : Z := md_type (md_method md).
Definition EVP_MD_nid (md : evp_md) : Z := EVP_MD_type md.
Definition EVP_MD_flags (md : evp_md) : Z := md_flags (md_method md).
Definition EVP_MD_size (md : evp_md) : Z := md_size (md_method md).
Definition EVP_MD_block_size (md : evp_md) : Z := block_size (md_method md).

Section Digest.
Context {ms : Mallocs} {pk : PkeyOps}.

(** [pctx_ops] is whether the table of the public-key functions is set. *)
Record EVP_MD_CTX := EvpMdCtx {
  digest : option evp_md;
  md_data : option md_data_t;
  pctx : option EVP_PKEY_CTX;
  pctx_ops : bool
}.

Definition sizeof_EVP_MD_CTX : Z := 32.

Definition EVP_MD_CTX_init : EVP_MD_CTX := EvpMdCtx None None None false.

Definition EVP_MD_CTX_new : W (option EVP_MD_CTX) :=
  ctx ← evp_malloc sizeof_EVP_MD_CTX;
  mret (match ctx with Some _ => Some EVP_MD_CTX_init | None => None end).

Definition EVP_MD_CTX_create : W (option EVP_MD_CTX) := EVP_MD_CTX_new.

(** [assert(ctx->pctx == NULL || ctx->pctx_ops != NULL)] *)
Definition assert_pctx (ctx : EVP_MD_CTX) : W unit :=
  massert (match pctx ctx with None => true | Some _ => pctx_ops ctx end).

Definition EVP_MD_CTX_cleanup (ctx : EVP_MD_CTX) : W (Z * EVP_MD_CTX) :=
  _ ← evp_free (md_data ctx);
  _ ← assert_pctx ctx;
  mret (1, EVP_MD_CTX_init).

Definition EVP_MD_CTX_free (ctx : option EVP_MD_CTX) : W unit :=
  match ctx with
  | None => mret tt
  | Some c => _ ← EVP_MD_CTX_cleanup c; evp_free ctx
  end.

Definition EVP_MD_CTX_destroy (ctx : option EVP_MD_CTX) : W unit := EVP_MD_CTX_free ctx.

Definition EVP_DigestFinalXOF (ctx : EVP_MD_CTX) (len : Z) : W Z :=
  _ ← put_error DIGEST_R_SHOULD_NOT_HAVE_BEEN_CALLED; mret 0.

Definition EVP_MD_meth_get_flags (md : evp_md) : Z := EVP_MD_flags md.

(** The buffer for a copy, and what is left of the destination: a new one for
    another digest, else the destination's own; [None] if there is no memory. *)
Definition copy_buf (digest_in : option evp_md) (out : EVP_MD_CTX) : W (option (option md_data_t * EVP_MD_CTX)) :=
  match digest_in with
  | None => mret (Some (None, out))
  | Some d =>
      if bool_decide (digest out = Some d)
      then mret (Some (md_data out, EvpMdCtx (digest out) None (pctx out) (pctx_ops out)))
      else
        _ ← massert (negb (ctx_size (md_method d) =? 0));
        b ← evp_malloc (ctx_size (md_method d));
        mret (match b with Some b => Some (Some (Raw b), out) | None => None end)
  end.

(** The data is copied whole, [ctx_size] bytes of it. *)
Definition EVP_MD_CTX_copy_ex (out : EVP_MD_CTX) (in_ : option EVP_MD_CTX) : W (Z * EVP_MD_CTX) :=
  match in_ with
  | None | Some (EvpMdCtx None _ None _) => _ ← put_error DIGEST_R_INPUT_NOT_INITIALIZED; mret (0, out)
  | Some i =>
    _ ← assert_pctx i;
    match pctx i, pctx i ≫= pctx_dup with
    | Some _, None => _ ← put_error DIGEST_R_MALLOC_FAILURE; mret (0, out)
    | _, pc =>
      tmp_buf ← copy_buf (digest i) out;
      match tmp_buf with
      | None => _ ← put_error DIGEST_R_MALLOC_FAILURE; mret (0, out)
      | Some (tmp_buf, out) =>
          '(_, _) ← EVP_MD_CTX_cleanup out;
          data ← (match digest i with
                  | None => mret tmp_buf
                  | Some _ => _ ← mopt tmp_buf; d ← mopt (md_data i); mret (Some d)
                  end);
          let out := EvpMdCtx (digest i) data pc (pctx_ops i) in
          _ ← assert_pctx out;
          mret (1, out)
      end
    end
  end.

(** The copy of a struct, and what is left behind. *)
Definition EVP_MD_CTX_move (out in_ : EVP_MD_CTX) : W (EVP_MD_CTX * EVP_MD_CTX) :=
  '(_, _) ← EVP_MD_CTX_cleanup out;
  mret (in_, EVP_MD_CTX_init).

Definition EVP_MD_CTX_copy (in_ : option EVP_MD_CTX) : W (Z * EVP_MD_CTX) :=
  EVP_MD_CTX_copy_ex EVP_MD_CTX_init in_.

Definition EVP_MD_CTX_reset (ctx : EVP_MD_CTX) : W (Z * EVP_MD_CTX) :=
  '(_, _) ← EVP_MD_CTX_cleanup ctx;
  mret (1, EVP_MD_CTX_init).

Definition EVP_DigestInit_ex (ctx0 : EVP_MD_CTX) (type : option evp_md) : W (Z * EVP_MD_CTX) :=
  let ctx := ctx0 in
  ctx ← (if bool_decide (digest ctx = type) then mret (Some ctx)
         else
           t ← mopt type;
           _ ← massert (negb (ctx_size (md_method t) =? 0));
           b ← evp_malloc (ctx_size (md_method t));
           match b with
           | None => _ ← put_error DIGEST_R_MALLOC_FAILURE; mret None
           | Some b =>
               _ ← evp_free (md_data ctx);
               mret (Some (EvpMdCtx type (Some (Raw b)) (pctx ctx) (pctx_ops ctx)))
           end);
  match ctx with
  | None => mret (0, ctx0)
  | Some ctx =>
      _ ← assert_pctx ctx;
      t ← mopt (digest ctx);
      d ← mopt (md_data ctx);
      d ← mopt (md_init (md_method t) d);
      mret (1, EvpMdCtx (digest ctx) (Some d) (pctx ctx) (pctx_ops ctx))
  end.

Definition EVP_DigestInit (type : option evp_md) : W (Z * EVP_MD_CTX) := EVP_DigestInit_ex EVP_MD_CTX_init type.

Definition EVP_DigestUpdate (ctx : EVP_MD_CTX) (data : list Z) : W (Z * EVP_MD_CTX) :=
  t ← mopt (digest ctx);
  d ← mopt (md_data ctx);
  d ← mopt (md_update (md_method t) d data);
  mret (1, EvpMdCtx (digest ctx) (Some d) (pctx ctx) (pctx_ops ctx)).

(** What is written to [md_out]; its length is what [*size] is set to. *)
Definition EVP_DigestFinal_ex (ctx : EVP_MD_CTX) : W (Z * list Z * Z * EVP_MD_CTX) :=
  t ← mopt (digest ctx);
  _ ← massert (md_size (md_method t) <=? EVP_MAX_MD_SIZE);
  d ← mopt (md_data ctx);
  '(out, _) ← mopt (md_final (md_method t) d);
  let d := Raw (replicate (Z.to_nat (ctx_size (md_method t))) 0) in
  mret (1, out, md_size (md_method t), EvpMdCtx (digest ctx) (Some d) (pctx ctx) (pctx_ops ctx)).

Definition EVP_DigestFinal (ctx : EVP_MD_CTX) : W (Z * list Z * Z * EVP_MD_CTX) :=
  '(_, out, size, ctx) ← EVP_DigestFinal_ex ctx;
  '(_, ctx) ← EVP_MD_CTX_cleanup ctx;
  mret (1, out, size, ctx).

(** [None] where nothing was written. *)
Definition EVP_Digest (data : list Z) (type : option evp_md) : W (Z * option (list Z * Z)) :=
  '(ret, ctx) ← EVP_DigestInit_ex EVP_MD_CTX_init type;
  '(ret, out, ctx) ←
    (if ret =? 0 then mret (0, None, ctx)
     else
       '(ret, ctx) ← EVP_DigestUpdate ctx data;
       if ret =? 0 then mret (0, None, ctx)
       else
         '(ret, out, size, ctx) ← EVP_DigestFinal_ex ctx;
         mret (ret, Some (out, size), ctx));
  '(_, _) ← EVP_MD_CTX_cleanup ctx;
  mret (ret, out).

Definition EVP_MD_CTX_md (ctx : option EVP_MD_CTX) : option evp_md := ctx ≫= digest.
Definition EVP_MD_CTX_size (ctx : option EVP_MD_CTX) : option Z := EVP_MD_size <$> EVP_MD_CTX_md ctx.
Definition EVP_MD_CTX_block_size (ctx : option EVP_MD_CTX) : option Z := EVP_MD_block_size <$> EVP_MD_CTX_md ctx.
Definition EVP_MD_CTX_type (ctx : option EVP_MD_CTX) : option Z := EVP_MD_type <$> EVP_MD_CTX_md ctx.
Definition EVP_add_digest (digest : evp_md) : Z := 1.
End Digest.
