(* ===== verification/EvpSpec.v ===== *)
(** What a message digest promises to its clients, kept by every method table of
    digests.c, and the functions of digest.c on contexts. *)

From S2P Require Import Prelude CryptoInternal Buf Md32 HashSpec Sha2Spec Fips180 Sha256 Sha1 Md5 Md4 Sha512 Evp.

(** * The interface *)

(** [dm_seen d m]: the block [d] has taken in the message [m]. [dm_ready d]: it
    can be initialised. *)
Class DigestMethod (m : EVP_MD) (hash : list Z -> list Z) := {
  dm_seen : md_data_t -> list Z -> Prop;
  dm_ready : md_data_t -> Prop;
  dm_raw block : blen block = ctx_size m -> dm_ready (Raw block);
  dm_seen_ready d msg : dm_seen d msg -> dm_ready d;
  dm_init d : dm_ready d -> exists d', md_init m d = Some d' /\ dm_seen d' [];
  dm_update d msg bs : dm_seen d msg -> bytes bs -> blen bs < 2 ^ 61 ->
    exists d', md_update m d bs = Some d' /\ dm_seen d' (msg ++ bs);
  dm_final d msg : dm_seen d msg -> exists d', md_final m d = Some (hash msg, d');
  dm_hash_len msg : blen (hash msg) = md_size m;
  dm_hash_bytes msg : bytes (hash msg);
  dm_sizes : 0 < md_size m <= EVP_MAX_MD_SIZE /\ md_size m <= block_size m <= EVP_MAX_MD_BLOCK_SIZE /\ 0 < ctx_size m < 2 ^ 63
}.

(** * The digests *)

(** A structure that updates have brought from [c0] to [c] with the message [m]. *)
Definition fed {C} (upd : C -> list Z -> C) (c0 c : C) (m : list Z) : Prop :=
  bytes m /\ exists pieces, m = concat pieces /\ Forall (fun p => blen p < 2 ^ 61) pieces /\ c = fold_left upd pieces c0.

Lemma fed_nil {C} (upd : C -> list Z -> C) c0 : fed upd c0 c0 [].
Proof. split; [by constructor|]. by exists []. Qed.

Lemma fed_snoc {C} (upd : C -> list Z -> C) c0 c m bs :
  fed upd c0 c m -> bytes bs -> blen bs < 2 ^ 61 -> fed upd c0 (upd c bs) (m ++ bs).
Proof.
  intros (Hm & ps & -> & Hps & ->) Hb Hl. split; [by apply bytes_app|]. exists (ps ++ [bs]).
  split; [by rewrite concat_app; cbn; rewrite app_nil_r|]. split; [apply Forall_app; split; [done|by constructor]|].
  by rewrite fold_left_app.
Qed.

Lemma bytes_be_words k l : bytes (be_words k l).
Proof. unfold be_words. induction l as [|v l IH]; cbn; [by constructor|]. apply bytes_app. split; [apply bytes_be_bytes|done]. Qed.

Lemma bytes_le_words k l : bytes (le_words k l).
Proof.
  unfold le_words. induction l as [|v l IH]; cbn; [by constructor|]. apply bytes_app. split; [|done].
  apply Forall_rev, bytes_be_bytes.
Qed.

Lemma blen_be_words k l : blen (be_words k l) = Z.of_nat k * Z.of_nat (length l).
Proof.
  unfold be_words. induction l as [|v l IH]; cbn [map concat length]; [change (blen (@nil Z)) with 0; lia|].
  rewrite blen_app, IH, blen_be_bytes. lia.
Qed.

Lemma blen_le_words k l : blen (le_words k l) = Z.of_nat k * Z.of_nat (length l).
Proof.
  unfold le_words. induction l as [|v l IH]; cbn [map concat length]; [change (blen (@nil Z)) with 0; lia|].
  rewrite blen_app, IH. unfold le_bytes, blen. rewrite length_rev, length_be_bytes. lia.
Qed.

Lemma length_rot4_hash round n h0 m : length h0 = 4%nat -> length (rot4_hash round n h0 m) = 4%nat.
Proof.
  intros Hh. unfold rot4_hash. cbv zeta. revert h0 Hh. generalize (chunks 64 (length (md_pad 64 false m) / 64) (md_pad 64 false m)).
  intros l. induction l as [|b l IH]; intros h0 Hh; cbn; [done|]. apply IH, length_add_regs4.
Qed.

Lemma length_rfc1320_hash m : length (rfc1320_hash m) = 4%nat.
Proof. by apply length_rot4_hash. Qed.

Lemma length_rfc1321_hash m : length (rfc1321_hash m) = 4%nat.
Proof. by apply length_rot4_hash. Qed.

Lemma blen_words_be w k n l : words w n l -> blen (be_words k l) = Z.of_nat k * Z.of_nat n.
Proof. intros [Hl _]. by rewrite blen_be_words, Hl. Qed.

Lemma blen_words_take w k n j l : words w n l -> (j <= n)%nat -> blen (be_words k (take j l)) = Z.of_nat k * Z.of_nat j.
Proof. intros [Hl _] Hj. rewrite blen_be_words, length_take, Hl. by rewrite Nat.min_l by lia. Qed.

(** The digests of FIPS 180-4 as truncations of its hash values. *)
Lemma fips_sha2_words m :
  fips_sha224 m = be_words 4 (take 7 (fips256_hash (Md32.h (md SHA224_Init)) m)) /\
  fips_sha256 m = be_words 4 (take 8 (fips256_hash (Md32.h (md SHA256_Init)) m)) /\
  fips_sha384 m = be_words 8 (take 6 (fips512_hash (Sha512.h (SHA384_Init [])) m)) /\
  fips_sha512 m = be_words 8 (take 8 (fips512_hash (Sha512.h (SHA512_Init [])) m)) /\
  fips_sha512_256 m = be_words 8 (take 4 (fips512_hash (Sha512.h (SHA512_256_Init [])) m)).
Proof.
  rewrite SHA224_Init_fips, SHA384_Init_fips, SHA512_256_Init_fips. split_and!; try done.
  - rewrite take_ge; [by rewrite SHA256_Init_fips|].
    destruct (fips256_hash_words (Md32.h (md SHA256_Init)) m ltac:(by repeat constructor)) as [-> _]. done.
  - rewrite take_ge; [by rewrite SHA512_Init_fips|].
    destruct (fips512_hash_words (Sha512.h (SHA512_Init [])) m ltac:(by repeat constructor)) as [-> _]. done.
Qed.

(** The hash functions of the method tables. *)
Definition evp_hash (m : evp_md) (msg : list Z) : list Z :=
  match m with
  | EVP_md4 => le_words 4 (rfc1320_hash msg)
  | EVP_md5 => le_words 4 (rfc1321_hash msg)
  | EVP_sha1 => be_words 4 (fips1_hash msg)
  | EVP_sha224 => fips_sha224 msg
  | EVP_sha256 => fips_sha256 msg
  | EVP_sha384 => fips_sha384 msg
  | EVP_sha512 => fips_sha512 msg
  | EVP_sha512_256 => fips_sha512_256 msg
  | EVP_md5_sha1 => le_words 4 (rfc1321_hash msg) ++ be_words 4 (fips1_hash msg)
  end.

Lemma evp_hash_bytes m msg : bytes (evp_hash m msg).
Proof.
  destruct m; cbn [evp_hash]; try apply bytes_app; try apply bytes_be_words; auto using bytes_be_words, bytes_le_words.
Qed.

Lemma evp_hash_len m msg : blen (evp_hash m msg) = EVP_MD_size m.
Proof.
  destruct (fips_sha2_words msg) as (E1 & E2 & E3 & E4 & E5).
  destruct m; cbn [evp_hash]; rewrite ?E1, ?E2, ?E3, ?E4, ?E5, ?blen_app, ?blen_le_words, ?length_rfc1320_hash, ?length_rfc1321_hash.
  - done.
  - done.
  - by rewrite (blen_words_be 32 4 5) by apply fips1_hash_words.
  - by rewrite (blen_words_take 32 4 8 7) by (apply fips256_hash_words || lia; by repeat constructor).
  - by rewrite (blen_words_take 32 4 8 8) by (apply fips256_hash_words || lia; by repeat constructor).
  - by rewrite (blen_words_take 64 8 8 6) by (apply fips512_hash_words || lia; by repeat constructor).
  - by rewrite (blen_words_take 64 8 8 8) by (apply fips512_hash_words || lia; by repeat constructor).
  - by rewrite (blen_words_take 64 8 8 4) by (apply fips512_hash_words || lia; by repeat constructor).
  - by rewrite (blen_words_be 32 4 5) by apply fips1_hash_words.
Qed.

Lemma evp_sizes m :
  0 < EVP_MD_size m <= EVP_MAX_MD_SIZE /\ EVP_MD_size m <= EVP_MD_block_size m <= EVP_MAX_MD_BLOCK_SIZE /\
  0 < ctx_size (md_method m) < 2 ^ 63.
Proof. by destruct m. Qed.

(** What the blocks of each table have seen. *)
Definition md32_seen_of (upd : md32_ctx -> list Z -> md32_ctx) (c0 : md32_ctx) (d : md_data_t) (msg : list Z) : Prop :=
  exists c, d = DataMd32 c /\ fed upd c0 c msg.
Definition sha256_seen_of (c0 : SHA256_CTX) (d : md_data_t) (msg : list Z) : Prop :=
  exists c, d = DataSha256 c /\ fed SHA256_Update c0 c msg.
Definition sha512_seen_of (init : list Z -> SHA512_CTX) (d : md_data_t) (msg : list Z) : Prop :=
  exists mem c, d = DataSha512 c /\ blen mem = 128 /\ fed SHA512_Update (init mem) c msg.
Definition md5_sha1_seen (d : md_data_t) (msg : list Z) : Prop :=
  exists m s, d = DataMd5Sha1 m s /\ fed MD5_Update MD5_Init m msg /\ fed SHA1_Update SHA1_Init s msg.
Definition sha512_ready (d : md_data_t) : Prop := exists mem, sha512_mem d = Some mem /\ blen mem = 128.

(** The array [p] keeps its 128 bytes. *)
Lemma sha512_fed_p h0 mem len c msg :
  blen mem = 128 -> fed SHA512_Update (Sha512Ctx h0 0 0 mem 0 len) c msg -> blen (Sha512.p c) = 128.
Proof.
  intros Hm (_ & ps & _ & Hps & ->).
  assert (sha512_seen h0 (sha512_feed (Sha512Ctx h0 0 0 mem 0 len) ps) ([] ++ concat ps)) as (? & ? & ? & H); [|apply H].
  apply sha512_feed_seen; [exists [], [], 0; cbn; by split_and!|].
  eapply Forall_impl; [exact Hps|]. intros p Hp. cbn in Hp. pow2. lia.
Qed.

Section Md32Method.
Context (upd : md32_ctx -> list Z -> md32_ctx) (final : md32_ctx -> list Z * md32_ctx) (c0 : md32_ctx) (m : evp_md).
Context (Hinit : md_init (md_method m) = md32_init c0) (Hupd : md_update (md_method m) = md32_update upd).
Context (Hfinal : md_final (md_method m) = md32_final final).
Context (Hhash : forall ps, bytes (concat ps) -> Forall (fun p => blen p < 2 ^ 61) ps ->
  (final (fold_left upd ps c0)).1 = evp_hash m (concat ps)).

Definition md32_method : DigestMethod (md_method m) (evp_hash m).
Proof.
  refine {| dm_seen := md32_seen_of upd c0; dm_ready := fun _ => True |}; try done.
  - intros d _. rewrite Hinit. eexists. split; [done|]. eexists. split; [done|]. apply fed_nil.
  - intros d msg bs (c & -> & Hc) Hb Hl. rewrite Hupd. eexists. split; [done|]. eexists. split; [done|]. by apply fed_snoc.
  - intros d msg (c & -> & Hb & ps & -> & Hps & ->). rewrite Hfinal. cbn. specialize (Hhash ps Hb Hps).
    destruct (final _) as [out c']. cbn [fst] in Hhash. subst out. by eexists.
  - apply evp_hash_len.
  - apply evp_hash_bytes.
  - apply evp_sizes.
Defined.
End Md32Method.

Section Sha256Method.
Context (h0 : list Z) (len : Z) (m : evp_md).
Context (Hh0 : words 32 8 h0) (Hlen : 0 <= len <= SHA256_DIGEST_LENGTH).
Context (Hinit : md_init (md_method m) = fun _ => Some (DataSha256 (Sha256Ctx (md32_zero SHA256_CBLOCK h0) len))).
Context (Hupd : md_update (md_method m) = sha256_update) (Hfinal : md_final (md_method m) = sha256_final).
Context (Hhash : forall msg, evp_hash m msg = be_words 4 (take (Z.to_nat (len / 4)) (fips256_hash h0 msg))).

Definition sha256_method : DigestMethod (md_method m) (evp_hash m).
Proof.
  refine {| dm_seen := sha256_seen_of (Sha256Ctx (md32_zero SHA256_CBLOCK h0) len); dm_ready := fun _ => True |}; try done.
  - intros d _. rewrite Hinit. eexists. split; [done|]. eexists. split; [done|]. apply fed_nil.
  - intros d msg bs (c & -> & Hc) Hb Hl. rewrite Hupd. eexists. split; [done|]. eexists. split; [done|]. by apply fed_snoc.
  - intros d msg (c & -> & Hb & ps & -> & Hps & ->). rewrite Hfinal, Hhash. cbn [sha256_final].
    pose proof (sha256_final_feed h0 len ps Hb Hps Hh0 Hlen) as E. unfold SHA256_Final. unfold sha256_feed in E.
    destruct (sha256_final_impl _) as [out c']. cbn [fst] in E. subst out. by eexists.
  - apply evp_hash_len.
  - apply evp_hash_bytes.
  - apply evp_sizes.
Defined.
End Sha256Method.

Section Sha512Method.
Context (h0 : list Z) (len : Z) (m : evp_md) (init := fun mem => Sha512Ctx h0 0 0 mem 0 len).
Context (Hh0 : words 64 8 h0) (Hlen : 0 <= len <= SHA512_DIGEST_LENGTH).
Context (Hinit : md_init (md_method m) = fun d => mem ← sha512_mem d; Some (DataSha512 (init mem))).
Context (Hupd : md_update (md_method m) = sha512_update) (Hfinal : md_final (md_method m) = sha512_final).
Context (Hsize : ctx_size (md_method m) = 216).
Context (Hhash : forall msg, evp_hash m msg = be_words 8 (take (Z.to_nat (len / 8)) (fips512_hash h0 msg))).

Definition sha512_method : DigestMethod (md_method m) (evp_hash m).
Proof.
  refine {| dm_seen := sha512_seen_of init; dm_ready := sha512_ready |}.
  - intros block Hb. rewrite Hsize in Hb. eexists. split; [done|]. change 128%nat with (Z.to_nat 128). change 80%nat with (Z.to_nat 80).
    rewrite blen_take; rewrite ?blen_drop; lia.
  - intros d msg (mem & c & -> & Hm & Hc). exists (Sha512.p c). split; [done|]. by eapply sha512_fed_p.
  - intros d (mem & Hm & Hl). rewrite Hinit, Hm. eexists. split; [done|]. exists mem, (init mem).
    split; [done|]. split; [done|]. apply fed_nil.
  - intros d msg bs (mem & c & -> & Hm & Hc) Hb Hl. rewrite Hupd. eexists. split; [done|].
    exists mem, (SHA512_Update c bs). split; [done|]. split; [done|]. by apply fed_snoc.
  - intros d msg (mem & c & -> & Hm & Hb & ps & -> & Hps & ->). rewrite Hfinal, Hhash. cbn [sha512_final].
    assert (Forall (fun p => blen p < 2 ^ 64) ps) as Hps'.
    { eapply Forall_impl; [exact Hps|]. intros p Hp. cbn in Hp. pow2. lia. }
    pose proof (sha512_final_feed h0 mem len ps Hb Hps' Hh0 Hlen Hm) as E. unfold SHA512_Final. unfold sha512_feed in E.
    fold (init mem) in E. destruct (sha512_final_impl _ _) as [out c']. cbn [fst] in E. subst out. by eexists.
  - apply evp_hash_len.
  - apply evp_hash_bytes.
  - apply evp_sizes.
Defined.
End Sha512Method.

Definition md5_sha1_method : DigestMethod (md_method EVP_md5_sha1) (evp_hash EVP_md5_sha1).
Proof.
  refine {| dm_seen := md5_sha1_seen; dm_ready := fun _ => True |}; try done.
  - intros d _. eexists. split; [done|]. eexists _, _. split; [done|]. split; apply fed_nil.
  - intros d msg bs (m & s & -> & Hm & Hs) Hb Hl. eexists. split; [done|]. eexists _, _. split; [done|].
    split; by apply fed_snoc.
  - intros d msg (m & s & -> & (Hb & ps & -> & Hps & ->) & (_ & qs & Eq & Hqs & ->)).
    cbn [md_method md5_sha1_table md_final md5_sha1_final evp_hash].
    pose proof (md5_final_feed ps Hb Hps) as E1. unfold md5_feed in E1. destruct (MD5_Final _) as [out1 m']. cbn [fst] in E1.
    rewrite Eq in Hb. pose proof (sha1_final_feed qs Hb Hqs) as E2. unfold sha1_feed in E2.
    destruct (SHA1_Final _) as [out2 s']. cbn [fst] in E2. rewrite E1, E2, Eq. by eexists.
  - apply evp_hash_len.
  - apply evp_hash_bytes.
Defined.

(** Every digest of digests.c. *)
#[export] Instance evp_method m : DigestMethod (md_method m) (evp_hash m).
Proof.
  destruct m.
  - by apply (md32_method MD4_Update MD4_Final MD4_Init); [..|apply md4_final_feed].
  - by apply (md32_method MD5_Update MD5_Final MD5_Init); [..|apply md5_final_feed].
  - by apply (md32_method SHA1_Update SHA1_Final SHA1_Init); [..|apply sha1_final_feed].
  - by apply (sha256_method (Md32.h (md SHA224_Init)) SHA224_DIGEST_LENGTH); [by repeat constructor|try done..|intros msg; apply (fips_sha2_words msg)].
  - by apply (sha256_method (Md32.h (md SHA256_Init)) SHA256_DIGEST_LENGTH); [by repeat constructor|try done..|intros msg; apply (fips_sha2_words msg)].
  - by apply (sha512_method (Sha512.h (SHA384_Init [])) SHA384_DIGEST_LENGTH); [by repeat constructor|try done..|intros msg; apply (fips_sha2_words msg)].
  - by apply (sha512_method (Sha512.h (SHA512_Init [])) SHA512_DIGEST_LENGTH); [by repeat constructor|try done..|intros msg; apply (fips_sha2_words msg)].
  - by apply (sha512_method (Sha512.h (SHA512_256_Init [])) SHA512_256_DIGEST_LENGTH); [by repeat constructor|try done..|intros msg; apply (fips_sha2_words msg)].
  - apply md5_sha1_method.
Qed.

(** * Contexts *)

Section Contexts.
Context {ms : Mallocs} {ml : MallocsLaws ms} {pk : PkeyOps}.

(** The blocks that a context owns. *)
Definition blocks_of (ctx : EVP_MD_CTX) : Z := match md_data ctx with Some _ => 1 | None => 0 end.

Section One.
Context {md : evp_md} {hash : list Z -> list Z} {dm : DigestMethod (md_method md) hash}.

(** A context without public-key operations: its data can be initialised if it
    is for [md]. *)
Record ctx_wf (ctx : EVP_MD_CTX) : Prop := {
  wf_pctx : pctx ctx = None;
  wf_ops : pctx_ops ctx = false;
  wf_empty : digest ctx = None -> md_data ctx = None;
  wf_ready : digest ctx = Some md -> exists d, md_data ctx = Some d /\ dm_ready d
}.

(** A context that has taken in [msg]. *)
Definition ctx_seen (ctx : EVP_MD_CTX) (msg : list Z) : Prop :=
  exists d, ctx = EvpMdCtx (Some md) (Some d) None false /\ dm_seen d msg.

(** A context for [md] that can be initialised or copied over. *)
Definition ctx_for (ctx : EVP_MD_CTX) : Prop :=
  exists d, ctx = EvpMdCtx (Some md) (Some d) None false /\ dm_ready d.

Lemma ctx_seen_for ctx msg : ctx_seen ctx msg -> ctx_for ctx.
Proof. intros (d & -> & Hd). exists d. split; [done|]. by eapply dm_seen_ready. Qed.

Lemma ctx_for_wf ctx : ctx_for ctx -> ctx_wf ctx.
Proof. intros (d & -> & Hd). split; [done|done|done|]. intros _. by exists d. Qed.

Lemma ctx_init_wf : ctx_wf EVP_MD_CTX_init.
Proof. by split. Qed.

Lemma evp_malloc_run n w :
  evp_malloc n w =
  (Some (@OPENSSL_malloc (nth_malloc (requests w)) n),
   World (S (requests w)) (if granted (requests w) n then live w + 1 else live w) (errors w)).
Proof. done. Qed.

Lemma massert_true {A} (k : unit -> W A) w : (massert true ≫= k) w = k tt w.
Proof. done. Qed.

Lemma ctx_size_pos : negb (ctx_size (md_method md) =? 0) = true.
Proof. destruct dm_sizes as (_ & _ & H). by rewrite (proj2 (Z.eqb_neq _ _)) by lia. Qed.

(** What a call that may need memory does to the world: nothing but count. *)
Definition got_memory (r : Z) (w w' : evp_world) (more : Z) : Prop :=
  r = 1 /\ live w' = live w + more /\ errors w' = errors w \/
  r = 0 /\ live w' = live w /\ errors w' = DIGEST_R_MALLOC_FAILURE :: errors w /\ any_refused.

Lemma DigestInit_run ctx w :
  ctx_wf ctx -> exists r ctx' w',
  EVP_DigestInit_ex ctx (Some md) w = (Some (r, ctx'), w') /\
  got_memory r w w' (1 - blocks_of ctx) /\ (if r =? 1 then ctx_seen ctx' [] else ctx' = ctx) /\
  (digest ctx = Some md -> r = 1 /\ w' = w).
Proof.
  intros [Hp Ho He Hr]. unfold EVP_DigestInit_ex. destruct (decide (digest ctx = Some md)) as [Hd|Hd].
  - rewrite bool_decide_eq_true_2 by done. rewrite bind_ret. destruct (Hr Hd) as (d & Ed & Hrd).
    unfold assert_pctx. rewrite Hp, massert_true, Hd, Ed, !mopt_bind.
    destruct (dm_init d Hrd) as (d' & -> & Hseen). rewrite ?mopt_bind. eexists 1, _, w. split; [done|].
    split; [left; unfold blocks_of; rewrite Ed; split_and!; [done|lia|done]|]. split; [|done].
    exists d'. split; [|done]. by rewrite Ho.
  - rewrite bool_decide_eq_false_2 by done.
    set (n := ctx_size (md_method md)).
    destruct (@OPENSSL_malloc (nth_malloc (requests w)) n) as [blk|] eqn:Em.
    + set (w' := World (S (requests w)) (match md_data ctx with Some _ => live w + 1 - 1 | None => live w + 1 end) (errors w)).
      rewrite (bind_ok _ _ _ (Some (EvpMdCtx (Some md) (Some (Raw blk)) None false)) w').
      2:{ rewrite mopt_bind, ctx_size_pos, massert_true, (bind_ok _ _ _ _ _ (evp_malloc_run _ _)). fold n.
          rewrite Em, (granted_Some _ _ _ Em), Hp, Ho. done. }
      unfold assert_pctx. cbn [pctx md_data digest]. rewrite massert_true, !mopt_bind.
      destruct (dm_init (Raw blk)) as (d' & -> & Hseen).
      { apply dm_raw. eapply (@OPENSSL_malloc_Some _ (nth_malloc_laws _)); [|exact Em]. destruct dm_sizes as (_ & _ & H). unfold n. lia. }
      rewrite ?mopt_bind. eexists 1, _, w'. split; [done|].
      split; [left; unfold blocks_of, w'; cbn; split_and!; [done|destruct (md_data ctx); lia|done]|].
      split; [by exists d'|done].
    + set (w' := World (S (requests w)) (live w) (DIGEST_R_MALLOC_FAILURE :: errors w)).
      rewrite (bind_ok _ _ _ None w').
      2:{ rewrite mopt_bind, ctx_size_pos, massert_true, (bind_ok _ _ _ _ _ (evp_malloc_run _ _)). fold n.
          by rewrite Em, (granted_None _ _ Em). }
      exists 0, ctx, w'. split; [done|]. split; [right; split_and!; try done; by exists (requests w), n; apply granted_None|done].
Qed.

Lemma DigestUpdate_run ctx msg bs w :
  ctx_seen ctx msg -> bytes bs -> blen bs < 2 ^ 61 -> exists ctx',
  EVP_DigestUpdate ctx bs w = (Some (1, ctx'), w) /\ ctx_seen ctx' (msg ++ bs).
Proof.
  intros (d & -> & Hd) Hb Hl. unfold EVP_DigestUpdate. cbn [digest md_data pctx pctx_ops]. rewrite !mopt_bind.
  destruct (dm_update d msg bs Hd Hb Hl) as (d' & -> & Hd'). eexists. split; [done|]. by exists d'.
Qed.

Lemma DigestFinal_run ctx msg w :
  ctx_seen ctx msg -> exists ctx',
  EVP_DigestFinal_ex ctx w = (Some (1, hash msg, EVP_MD_size md, ctx'), w) /\ ctx_for ctx'.
Proof.
  intros (d & -> & Hd). unfold EVP_DigestFinal_ex. cbn [digest md_data pctx pctx_ops]. rewrite !mopt_bind.
  destruct dm_sizes as ([_ Hs] & _ & Hc). rewrite (proj2 (Z.leb_le _ _)), massert_true, mopt_bind, mopt_bind by done.
  destruct (dm_final d msg Hd) as (d' & ->). rewrite ?mopt_bind. eexists. split; [done|].
  eexists. split; [done|]. apply dm_raw. apply blen_replicate. lia.
Qed.

Lemma ctx_cleanup_run ctx w :
  pctx ctx = None -> EVP_MD_CTX_cleanup ctx w = (Some (1, EVP_MD_CTX_init), World (requests w) (live w - blocks_of ctx) (errors w)).
Proof.
  intros Hp. unfold EVP_MD_CTX_cleanup, evp_free. rewrite mmodify_bind. unfold assert_pctx. rewrite Hp, massert_true.
  unfold blocks_of. destruct (md_data ctx); [done|]. by rewrite Z.sub_0_r.
Qed.

(** A copy takes over the destination's block, or asks for one. *)
Lemma ctx_copy_run out i msg w :
  ctx_wf out -> ctx_seen i msg -> exists r out' w',
  EVP_MD_CTX_copy_ex out (Some i) w = (Some (r, out'), w') /\
  got_memory r w w' (1 - blocks_of out) /\ (if r =? 1 then ctx_seen out' msg else out' = out) /\
  (digest out = Some md -> r = 1 /\ w' = w).
Proof.
  intros Hw (d & -> & Hd). unfold EVP_MD_CTX_copy_ex. cbn [pctx digest mbind option_bind md_data pctx_ops].
  unfold assert_pctx at 1. cbn [pctx]. rewrite massert_true. unfold copy_buf.
  pose proof Hw as [Hp Ho He Hr]. destruct (decide (digest out = Some md)) as [Hdo|Hdo].
  - rewrite bool_decide_eq_true_2 by done. rewrite bind_ret. destruct (Hr Hdo) as (d0 & Ed & _).
    rewrite (bind_ok _ _ _ (1, EVP_MD_CTX_init) w).
    2:{ rewrite ctx_cleanup_run by done. unfold blocks_of. cbn. rewrite Z.sub_0_r. by destruct w. }
    rewrite Ed. eexists 1, _, w. split; [done|].
    split; [left; unfold blocks_of; rewrite Ed; split_and!; [done|lia|done]|]. split; [by exists d|done].
  - rewrite bool_decide_eq_false_2 by done. set (n := ctx_size (md_method md)).
    set (o := @OPENSSL_malloc (nth_malloc (requests w)) n).
    rewrite (bind_ok _ _ _ (match o with Some b => Some (Some (Raw b), out) | None => None end)
      (World (S (requests w)) (if granted (requests w) n then live w + 1 else live w) (errors w))).
    2:{ unfold n. by rewrite ctx_size_pos, massert_true, (bind_ok _ _ _ _ _ (evp_malloc_run _ _)). }
    destruct o as [blk|] eqn:Em.
    + rewrite (granted_Some _ _ _ Em), (bind_ok _ _ _ _ _ (ctx_cleanup_run _ _ Hp)).
      eexists 1, _, _. split; [done|]. split; [left; cbn; split_and!; [done|lia|done]|]. split; [by exists d|done].
    + rewrite (granted_None _ _ Em). exists 0, out. eexists. split; [done|].
      split; [right; cbn; split_and!; try done; by exists (requests w), n; apply granted_None|done].
Qed.
End One.
End Contexts.
