(* ===== verification/Hmac.v ===== *)
(** crypto/fipsmodule/hmac/hmac.c: HMAC over any digest, with the contexts of the
    inner and outer pads kept for later messages under the same key. *)

From S2P Require Import Prelude CryptoInternal Buf Evp.

Section Hmac.
Context {ms : Mallocs} {pk : PkeyOps}.

Record HMAC_CTX := HmacCtx {
  hmac_md : option evp_md;
  md_ctx : EVP_MD_CTX;
  i_ctx : EVP_MD_CTX;
  o_ctx : EVP_MD_CTX
}.

Definition sizeof_HMAC_CTX : Z := 104.

Definition set_md_ctx (c : EVP_MD_CTX) (ctx : HMAC_CTX) : HMAC_CTX := HmacCtx (hmac_md ctx) c (i_ctx ctx) (o_ctx ctx).
Definition set_i_ctx (c : EVP_MD_CTX) (ctx : HMAC_CTX) : HMAC_CTX := HmacCtx (hmac_md ctx) (md_ctx ctx) c (o_ctx ctx).
Definition set_o_ctx (c : EVP_MD_CTX) (ctx : HMAC_CTX) : HMAC_CTX := HmacCtx (hmac_md ctx) (md_ctx ctx) (i_ctx ctx) c.
Definition set_hmac_md (md : option evp_md) (ctx : HMAC_CTX) : HMAC_CTX := HmacCtx md (md_ctx ctx) (i_ctx ctx) (o_ctx ctx).

Definition HMAC_CTX_init : HMAC_CTX := HmacCtx None EVP_MD_CTX_init EVP_MD_CTX_init EVP_MD_CTX_init.

Definition HMAC_CTX_new : W (option HMAC_CTX) :=
  ctx ← evp_malloc sizeof_HMAC_CTX;
  mret (match ctx with Some _ => Some HMAC_CTX_init | None => None end).

(** The structure is cleared, which is what [HMAC_CTX_init] makes of it. *)
Definition HMAC_CTX_cleanup (ctx : HMAC_CTX) : W HMAC_CTX :=
  '(_, _) ← EVP_MD_CTX_cleanup (i_ctx ctx);
  '(_, _) ← EVP_MD_CTX_cleanup (o_ctx ctx);
  '(_, _) ← EVP_MD_CTX_cleanup (md_ctx ctx);
  mret HMAC_CTX_init.

Definition HMAC_CTX_free (ctx : option HMAC_CTX) : W unit :=
  match ctx with
  | None => mret tt
  | Some c => _ ← HMAC_CTX_cleanup c; evp_free ctx
  end.

(** The key of a block: a long key is hashed. [None] is a failure. *)
Definition hmac_key_block (ctx : HMAC_CTX) (key : option (list Z)) (key_len : Z) (md : evp_md) :
    W (option (list Z) * HMAC_CTX) :=
  let block_size := EVP_MD_block_size md in
  _ ← massert (block_size <=? EVP_MAX_MD_BLOCK_SIZE);
  '(key_block, ctx) ←
    (if block_size <? key_len then
       '(r, c) ← EVP_DigestInit_ex (md_ctx ctx) (Some md);
       let ctx := set_md_ctx c ctx in
       if r =? 0 then mret (None, ctx)
       else
         k ← mopt (load_bytes key 0 key_len);
         '(r, c) ← EVP_DigestUpdate (md_ctx ctx) k;
         let ctx := set_md_ctx c ctx in
         if r =? 0 then mret (None, ctx)
         else
           '(r, out, _, c) ← EVP_DigestFinal_ex (md_ctx ctx);
           let ctx := set_md_ctx c ctx in
           if r =? 0 then mret (None, ctx) else mret (Some out, ctx)
     else
       _ ← massert (key_len <=? EVP_MAX_MD_BLOCK_SIZE);
       k ← mopt (load_bytes key 0 key_len);
       mret (Some k, ctx));
  mret (match key_block with
        | None => (None, ctx)
        | Some k => (Some (k ++ replicate (Z.to_nat (EVP_MAX_MD_BLOCK_SIZE - blen k)) 0), ctx)
        end).

(** [EVP_DigestInit_ex] and the first [EVP_MD_block_size] bytes of a pad. *)
Definition hmac_pad (c : EVP_MD_CTX) (md : evp_md) (x : Z) (key_block : list Z) : W (Z * EVP_MD_CTX) :=
  let pad := map (Z.lxor x) key_block in
  '(r, c) ← EVP_DigestInit_ex c (Some md);
  if r =? 0 then mret (0, c)
  else
    bs ← mopt (load_bytes (Some pad) 0 (EVP_MD_block_size md));
    EVP_DigestUpdate c bs.

Definition HMAC_Init_ex (ctx : HMAC_CTX) (key : option (list Z)) (key_len : Z) (md : option evp_md) : W (Z * HMAC_CTX) :=
  let md := match md with None => hmac_md ctx | Some _ => md end in
  '(r, ctx) ←
    (if bool_decide (md <> hmac_md ctx) || bool_decide (key <> None) then
       d ← mopt md;
       '(key_block, ctx) ← hmac_key_block ctx key key_len d;
       match key_block with
       | None => mret (0, ctx)
       | Some key_block =>
           '(r, c) ← hmac_pad (i_ctx ctx) d 0x36 key_block;
           let ctx := set_i_ctx c ctx in
           if r =? 0 then mret (0, ctx)
           else
             '(r, c) ← hmac_pad (o_ctx ctx) d 0x5c key_block;
             let ctx := set_o_ctx c ctx in
             if r =? 0 then mret (0, ctx) else mret (1, set_hmac_md md ctx)
       end
     else mret (1, ctx));
  if r =? 0 then mret (0, ctx)
  else
    '(r, c) ← EVP_MD_CTX_copy_ex (md_ctx ctx) (Some (i_ctx ctx));
    let ctx := set_md_ctx c ctx in
    if r =? 0 then mret (0, ctx) else mret (1, ctx).

Definition HMAC_Update (ctx : HMAC_CTX) (data : list Z) : W (Z * HMAC_CTX) :=
  '(r, c) ← EVP_DigestUpdate (md_ctx ctx) data;
  mret (r, set_md_ctx c ctx).

(** [out_len] is whether the caller passed a pointer for the length; the result
    has what was written to [out], and the length. *)
Definition HMAC_Final (ctx : HMAC_CTX) (out_len : bool) : W (Z * list Z * Z * HMAC_CTX) :=
  '(r, buf, i, c) ← EVP_DigestFinal_ex (md_ctx ctx);
  let ctx := set_md_ctx c ctx in
  '(r, out, n, ctx) ←
    (if r =? 0 then mret (0, [], 0, ctx)
     else
       '(r, c) ← EVP_MD_CTX_copy_ex (md_ctx ctx) (Some (o_ctx ctx));
       let ctx := set_md_ctx c ctx in
       if r =? 0 then mret (0, [], 0, ctx)
       else
         bs ← mopt (load_bytes (Some buf) 0 i);
         '(r, c) ← EVP_DigestUpdate (md_ctx ctx) bs;
         let ctx := set_md_ctx c ctx in
         if r =? 0 then mret (0, [], 0, ctx)
         else
           '(r, out, n, c) ← EVP_DigestFinal_ex (md_ctx ctx);
           mret (r, out, n, set_md_ctx c ctx));
  if r =? 0 then _ ← massert out_len; mret (0, out, 0, ctx) else mret (1, out, n, ctx).

(** [HMAC_Update] for each piece, as long as it succeeds. *)
Fixpoint hmac_updates (hctx : HMAC_CTX) (pieces : list (list Z)) : W (Z * HMAC_CTX) :=
  match pieces with
  | [] => mret (1, hctx)
  | p :: pieces =>
      '(r, hctx) ← HMAC_Update hctx p;
      if r =? 0 then mret (0, hctx) else hmac_updates hctx pieces
  end.

Definition HMAC_size (ctx : HMAC_CTX) : option Z := EVP_MD_size <$> hmac_md ctx.

Definition HMAC_CTX_copy_ex (dest src : HMAC_CTX) : W (Z * HMAC_CTX) :=
  '(r, c) ← EVP_MD_CTX_copy_ex (i_ctx dest) (Some (i_ctx src));
  let dest := set_i_ctx c dest in
  if r =? 0 then mret (0, dest)
  else
    '(r, c) ← EVP_MD_CTX_copy_ex (o_ctx dest) (Some (o_ctx src));
    let dest := set_o_ctx c dest in
    if r =? 0 then mret (0, dest)
    else
      '(r, c) ← EVP_MD_CTX_copy_ex (md_ctx dest) (Some (md_ctx src));
      let dest := set_md_ctx c dest in
      if r =? 0 then mret (0, dest) else mret (1, set_hmac_md (hmac_md src) dest).

Definition HMAC_CTX_reset (ctx : HMAC_CTX) : W HMAC_CTX :=
  _ ← HMAC_CTX_cleanup ctx; mret HMAC_CTX_init.

Definition HMAC_Init (ctx : HMAC_CTX) (key : option (list Z)) (key_len : Z) (md : option evp_md) : W (Z * HMAC_CTX) :=
  let ctx := match key, md with Some _, Some _ => HMAC_CTX_init | _, _ => ctx end in
  HMAC_Init_ex ctx key key_len md.

Definition HMAC_CTX_copy (src : HMAC_CTX) : W (Z * HMAC_CTX) := HMAC_CTX_copy_ex HMAC_CTX_init src.

(** [None] for the result NULL; otherwise the tag and its length. *)
Definition HMAC (evp_md : option evp_md) (key : option (list Z)) (key_len : Z) (data : list Z) (out_len : bool) :
    W (option (list Z * Z)) :=
  '(r, ctx) ← HMAC_Init_ex HMAC_CTX_init key key_len evp_md;
  '(out, ctx) ←
    (if r =? 0 then mret (None, ctx)
     else
       '(r, ctx) ← HMAC_Update ctx data;
       if r =? 0 then mret (None, ctx)
       else
         '(r, out, n, ctx) ← HMAC_Final ctx out_len;
         mret (if r =? 0 then None else Some (out, n), ctx));
  _ ← HMAC_CTX_cleanup ctx;
  mret out.
End Hmac.
