(* ===== verification/HmacSpec.v ===== *)
(** HMAC as RFC 2104 defines it, and the functions of hmac.c over any digest that
    keeps the interface [DigestMethod]. *)

From S2P Require Import Prelude CryptoInternal Buf Evp EvpSpec Hmac.

(** * RFC 2104 *)

Section Rfc2104.
Context (hash : list Z -> list Z) (B : Z).

(** The key, hashed if it is longer than a block, padded to a block. *)
Definition hmac_k0 (key : list Z) : list Z :=
  let k := if B <? blen key then hash key else key in
  k ++ replicate (Z.to_nat (B - blen k)) 0.

Definition ipad (key : list Z) : list Z := map (Z.lxor 0x36) (hmac_k0 key).
Definition opad (key : list Z) : list Z := map (Z.lxor 0x5c) (hmac_k0 key).

Definition rfc2104_hmac (key msg : list Z) : list Z := hash (opad key ++ hash (ipad key ++ msg)).
End Rfc2104.

(** The bytes that are read of a block. *)
Lemma load_bytes_len o n bs : load_bytes o 0 n = Some bs -> 0 <= n -> blen bs = n.
Proof.
  unfold load_bytes. intros E Hn. destruct (Z.eqb_spec n 0) as [->|H0]; [by injection E as <-|].
  destruct o as [l|]; [|done]. cbn [mbind option_bind] in E. rewrite drop_0, Z.add_0_l in E.
  destruct (Z.leb_spec n (blen l)); [|by rewrite andb_false_r in E].
  rewrite (proj2 (Z.leb_le 0 n)) in E by done. injection E as <-. apply blen_take. lia.
Qed.

Lemma load_bytes_all bs : load_bytes (Some bs) 0 (blen bs) = Some bs.
Proof. pose proof (load_bytes_app [] bs [] 0 _ eq_refl eq_refl) as E. by rewrite app_nil_l, app_nil_r in E. Qed.

Lemma load_bytes_prefix l k : load_bytes (Some (l ++ k)) 0 (blen l) = Some l.
Proof. apply (load_bytes_app [] l k); done. Qed.

Section Hmac.
Context {ms : Mallocs} {ml : MallocsLaws ms} {pk : PkeyOps}.
Context {md : evp_md} {hash : list Z -> list Z} {dm : DigestMethod (md_method md) hash}.

Notation B := (EVP_MD_block_size md).

Lemma hmac_k0_len key : blen (hmac_k0 hash B key) = B.
Proof.
  unfold hmac_k0. cbv zeta. destruct dm_sizes as (Hs & Hb & _). unfold EVP_MD_block_size.
  destruct (Z.ltb_spec (block_size (md_method md)) (blen key)).
  - rewrite blen_app, blen_replicate, dm_hash_len by (rewrite dm_hash_len; lia). lia.
  - rewrite blen_app, blen_replicate; lia.
Qed.

Lemma map_lxor_bytes x l : is_byte x -> bytes l -> bytes (map (Z.lxor x) l).
Proof. intros Hx Hl. apply Forall_map. eapply Forall_impl; [exact Hl|]. intros b Hb. by apply lxor_range. Qed.

Lemma hmac_k0_bytes key : bytes key -> bytes (hmac_k0 hash B key).
Proof.
  intros Hk. unfold hmac_k0. cbv zeta. apply bytes_app. split; [|by apply bytes_replicate].
  destruct (_ <? _); [apply dm_hash_bytes|done].
Qed.

Lemma pad_bytes key x : is_byte x -> bytes key -> bytes (map (Z.lxor x) (hmac_k0 hash B key)).
Proof. intros. by apply map_lxor_bytes, hmac_k0_bytes. Qed.

(** The keys of the block of the code: [hmac_k0] and zeros. *)
Lemma key_block_k0 key k :
  k = (if B <? blen key then hash key else key) -> exists z,
  k ++ replicate (Z.to_nat (EVP_MAX_MD_BLOCK_SIZE - blen k)) 0 = hmac_k0 hash B key ++ z.
Proof.
  intros ->. unfold hmac_k0. cbv zeta. set (k := if B <? blen key then hash key else key).
  destruct dm_sizes as (Hs & Hb & _). assert (blen k <= B) as Hk.
  { unfold k, EVP_MD_block_size. destruct (Z.ltb_spec (block_size (md_method md)) (blen key)); [rewrite dm_hash_len|]; lia. }
  exists (replicate (Z.to_nat (EVP_MAX_MD_BLOCK_SIZE - B)) 0). rewrite <-app_assoc. f_equal.
  rewrite <-replicate_add. f_equal. pose proof (blen_nonneg k). unfold EVP_MD_block_size in *. lia.
Qed.

(** * Contexts *)

Record hmac_wf (ctx : HMAC_CTX) : Prop := {
  wf_md_ctx : ctx_wf (md:=md) (md_ctx ctx);
  wf_i_ctx : ctx_wf (md:=md) (i_ctx ctx);
  wf_o_ctx : ctx_wf (md:=md) (o_ctx ctx)
}.

(** A context with a key, between messages. *)
Record hmac_keyed (key : list Z) (ctx : HMAC_CTX) : Prop := {
  keyed_md : hmac_md ctx = Some md;
  keyed_ctx : ctx_for (md:=md) (md_ctx ctx);
  keyed_i : ctx_seen (md:=md) (i_ctx ctx) (ipad hash B key);
  keyed_o : ctx_seen (md:=md) (o_ctx ctx) (opad hash B key)
}.

(** A context that has taken in [msg]. *)
Definition hmac_seen (key : list Z) (ctx : HMAC_CTX) (msg : list Z) : Prop :=
  hmac_keyed key ctx /\ ctx_seen (md:=md) (md_ctx ctx) (ipad hash B key ++ msg).

Definition hmac_blocks (ctx : HMAC_CTX) : Z := blocks_of (md_ctx ctx) + blocks_of (i_ctx ctx) + blocks_of (o_ctx ctx).

(** The blocks of everything else are as before. *)
Definition same_live (w : evp_world) (ctx : HMAC_CTX) (w' : evp_world) (ctx' : HMAC_CTX) : Prop :=
  live w' - hmac_blocks ctx' = live w - hmac_blocks ctx.

Lemma hmac_keyed_wf key ctx : hmac_keyed key ctx -> hmac_wf ctx.
Proof. intros [_ H1 H2 H3]. split; apply ctx_for_wf; [done|by eapply ctx_seen_for|by eapply ctx_seen_for]. Qed.

Lemma hmac_init_wf : hmac_wf HMAC_CTX_init.
Proof. split; apply ctx_init_wf. Qed.

Lemma seen_blocks ctx msg : ctx_seen (md:=md) ctx msg -> blocks_of ctx = 1.
Proof. by intros (d & -> & _). Qed.

Lemma for_blocks ctx : ctx_for (md:=md) ctx -> blocks_of ctx = 1.
Proof. by intros (d & -> & _). Qed.

(** A call that may need memory. *)
Definition hmac_outcome (r : Z) (w : evp_world) (ctx : HMAC_CTX) (w' : evp_world) (ctx' : HMAC_CTX) : Prop :=
  same_live w ctx w' ctx' /\
  (r = 1 /\ errors w' = errors w \/
   r = 0 /\ errors w' = DIGEST_R_MALLOC_FAILURE :: errors w /\ any_refused /\ hmac_wf ctx').

Lemma hmac_pad_run c x key_block key z w :
  ctx_wf (md:=md) c -> bytes key -> is_byte x -> key_block = hmac_k0 hash B key ++ z -> exists r c' w',
  hmac_pad c md x key_block w = (Some (r, c'), w') /\
  got_memory r w w' (1 - blocks_of c) /\
  (if r =? 1 then ctx_seen (md:=md) c' (map (Z.lxor x) (hmac_k0 hash B key)) else c' = c).
Proof.
  intros Hc Hk Hx ->. unfold hmac_pad. destruct (DigestInit_run c w Hc) as (r & c1 & w1 & E & Hm & Hs & _).
  rewrite (bind_ok _ _ _ _ _ E). pose proof Hm as [(-> & _ & _)|(-> & _)]; cbn [Z.eqb Pos.eqb] in Hs |- *; [|by exists 0, c1, w1].
  rewrite map_app. set (pad := map (Z.lxor x) (hmac_k0 hash B key)).
  assert (blen pad = B) as Hl by (unfold pad, blen; rewrite length_map; apply hmac_k0_len).
  rewrite <-Hl, load_bytes_prefix, mopt_bind.
  destruct (DigestUpdate_run c1 [] pad w1 Hs) as (c2 & -> & Hs2); [by apply pad_bytes| |].
  { rewrite Hl. destruct dm_sizes as (_ & Hb & _). unfold EVP_MAX_MD_BLOCK_SIZE, EVP_MD_block_size in *. pow2. lia. }
  by exists 1, c2, w1.
Qed.

(** The key of the block, hashed in [md_ctx] if it is long. *)
Lemma hmac_key_block_run ctx key key_len k w :
  hmac_wf ctx -> load_bytes key 0 key_len = Some k -> 0 <= key_len < 2 ^ 61 -> bytes k -> exists o ctx' w',
  hmac_key_block ctx key key_len md w = (Some (o, ctx'), w') /\
  same_live w ctx w' ctx' /\ hmac_wf ctx' /\ hmac_md ctx' = hmac_md ctx /\
  match o with
  | Some kb => errors w' = errors w /\ exists z, kb = hmac_k0 hash B k ++ z
  | None => errors w' = DIGEST_R_MALLOC_FAILURE :: errors w /\ any_refused
  end.
Proof.
  intros Hw Hk Hlen Hb. unfold hmac_key_block. pose proof dm_sizes as (Hs & Hbl & _).
  change (block_size (md_method md)) with B in Hbl. rewrite (proj2 (Z.leb_le _ _) (proj2 Hbl)), massert_true.
  pose proof (load_bytes_len _ _ _ Hk (proj1 Hlen)) as Hkl.
  destruct (Z.ltb_spec B key_len) as [Hlong|Hshort].
  - pose proof Hw as [Hwm Hwi Hwo]. destruct (DigestInit_run _ w Hwm) as (r & c1 & w1 & E1 & Hm & Hs1 & _).
    destruct Hm as [(-> & Hl & He)|(-> & Hl & He & Hr)]; cbn [Z.eqb Pos.eqb] in Hs1.
    + destruct (DigestUpdate_run c1 [] k w1 Hs1 Hb ltac:(lia)) as (c2 & E2 & Hs2).
      destruct (DigestFinal_run c2 _ w1 Hs2) as (c3 & E3 & Hs3). rewrite app_nil_l in E3.
      rewrite (bind_ok _ _ _ (Some (hash k), set_md_ctx c3 ctx) w1).
      2:{ rewrite (bind_ok _ _ _ _ _ E1). cbn [Z.eqb Pos.eqb]. rewrite Hk, mopt_bind. cbn [md_ctx set_md_ctx].
          rewrite (bind_ok _ _ _ _ _ E2). cbn [Z.eqb md_ctx set_md_ctx]. by rewrite (bind_ok _ _ _ _ _ E3). }
      destruct (key_block_k0 k (hash k)) as (z & Ez); [by rewrite Hkl, (proj2 (Z.ltb_lt _ _)) by lia|].
      eexists _, _, w1. split; [done|]. split.
      { unfold same_live, hmac_blocks. cbn. rewrite (for_blocks c3 Hs3). lia. }
      split; [split; cbn; [by apply ctx_for_wf|done|done]|]. split; [done|]. split; [done|]. by exists z.
    + rewrite (bind_ok _ _ _ (None, set_md_ctx c1 ctx) w1) by (by rewrite (bind_ok _ _ _ _ _ E1)). subst c1.
      eexists None, _, w1. split; [done|]. split; [unfold same_live, hmac_blocks; cbn; lia|]. by destruct ctx.
  - rewrite (bind_ok _ _ _ (Some k, ctx) w).
    2:{ rewrite (proj2 (Z.leb_le key_len EVP_MAX_MD_BLOCK_SIZE)), massert_true by lia. by rewrite Hk, mopt_bind. }
    destruct (key_block_k0 k k) as (z & Ez); [by rewrite Hkl, (proj2 (Z.ltb_ge _ _)) by lia|].
    eexists _, ctx, w. split; [done|]. split; [done|]. split; [done|]. split; [done|]. split; [done|]. by exists z.
Qed.

(** A new key. *)
Lemma HMAC_Init_key_run ctx key key_len k md' w :
  hmac_wf ctx -> load_bytes key 0 key_len = Some k -> 0 <= key_len < 2 ^ 61 -> bytes k ->
  md' = Some md \/ md' = None /\ hmac_md ctx = Some md -> key <> None \/ hmac_md ctx <> Some md -> exists r ctx' w',
  HMAC_Init_ex ctx key key_len md' w = (Some (r, ctx'), w') /\ hmac_outcome r w ctx w' ctx' /\
  (r = 1 -> hmac_seen k ctx' []).
Proof.
  intros Hw Hk Hlen Hb Hmd Hnew. unfold HMAC_Init_ex.
  assert (match md' with Some _ => md' | None => hmac_md ctx end = Some md) as -> by (by destruct Hmd as [->|[-> ->]]).
  assert (bool_decide (Some md <> hmac_md ctx) || bool_decide (key <> None) = true) as ->.
  { apply orb_true_iff. destruct Hnew; [right|left]; apply bool_decide_eq_true_2; congruence. }
  destruct (hmac_key_block_run ctx key key_len k w Hw Hk Hlen Hb) as (o & c1 & w1 & E1 & Hl1 & Hw1 & Hmd1 & Ho).
  destruct o as [kb|].
  2:{ destruct Ho as [He Hr]. rewrite (bind_ok _ _ _ (0, c1) w1) by (by rewrite mopt_bind, (bind_ok _ _ _ _ _ E1)).
      exists 0, c1, w1. split; [done|]. split; [split; [done|right; done]|done]. }
  destruct Ho as [He1 [z Hkb]]. pose proof Hw1 as [Hm1 Hi1 Ho1].
  destruct (hmac_pad_run (i_ctx c1) 0x36 kb k z w1 Hi1 Hb ltac:(done) Hkb) as (r2 & c2 & w2 & E2 & Hg2 & Hs2).
  destruct Hg2 as [(-> & Hl2 & He2)|(-> & Hl2 & He2 & Hr2)]; cbn [Z.eqb Pos.eqb] in Hs2.
  2:{ subst c2. rewrite (bind_ok _ _ _ (0, set_i_ctx (i_ctx c1) c1) w2).
      2:{ by rewrite mopt_bind, (bind_ok _ _ _ _ _ E1), (bind_ok _ _ _ _ _ E2). }
      eexists 0, _, w2. split; [done|]. split; [|done]. unfold same_live, hmac_outcome in *.
      split; [unfold same_live, hmac_blocks in *; cbn; lia|]. right. rewrite He2, He1. by destruct c1. }
  destruct (hmac_pad_run (o_ctx c1) 0x5c kb k z w2 Ho1 Hb ltac:(done) Hkb) as (r3 & c3 & w3 & E3 & Hg3 & Hs3).
  pose proof (seen_blocks _ _ Hs2) as Hb2.
  destruct Hg3 as [(-> & Hl3 & He3)|(-> & Hl3 & He3 & Hr3)]; cbn [Z.eqb Pos.eqb] in Hs3.
  2:{ subst c3. rewrite (bind_ok _ _ _ (0, set_o_ctx (o_ctx c1) (set_i_ctx c2 c1)) w3).
      2:{ rewrite mopt_bind, (bind_ok _ _ _ _ _ E1), (bind_ok _ _ _ _ _ E2). cbn [Z.eqb o_ctx set_i_ctx].
      by rewrite (bind_ok _ _ _ _ _ E3). }
      eexists 0, _, w3. split; [done|]. split; [|done].
      split; [unfold same_live, hmac_blocks in *; cbn; lia|]. right. rewrite He3, He2, He1. split_and!; try done.
      split; cbn; [done|by eapply ctx_for_wf, ctx_seen_for|done]. }
  pose proof (seen_blocks _ _ Hs3) as Hb3. set (ctx2 := set_hmac_md (Some md) (set_o_ctx c3 (set_i_ctx c2 c1))).
  rewrite (bind_ok _ _ _ (1, ctx2) w3).
  2:{ rewrite mopt_bind, (bind_ok _ _ _ _ _ E1), (bind_ok _ _ _ _ _ E2). cbn [Z.eqb o_ctx set_i_ctx].
      by rewrite (bind_ok _ _ _ _ _ E3). }
  change (1 =? 0) with false. cbn iota.
  destruct (ctx_copy_run (md_ctx ctx2) (i_ctx ctx2) (ipad hash B k) w3 Hm1 Hs2) as (r4 & c4 & w4 & E4 & Hg4 & Hs4 & _).
  rewrite (bind_ok _ _ _ _ _ E4).
  destruct Hg4 as [(-> & Hl4 & He4)|(-> & Hl4 & He4 & Hr4)]; cbn [Z.eqb Pos.eqb] in Hs4 |- *.
  - eexists 1, _, w4. split; [done|]. pose proof (seen_blocks _ _ Hs4) as Hb4. split.
    + split; [unfold same_live, hmac_blocks in *; cbn in *; lia|]. left. by rewrite He4, He3, He2, He1.
    + intros _. split; [split; cbn; [done|by eapply ctx_seen_for|done|done]|]. by rewrite app_nil_r.
  - eexists 0, _, w4. split; [done|]. subst c4. split; [|done].
    split; [unfold same_live, hmac_blocks in *; cbn in *; lia|]. right. rewrite He4, He3, He2, He1. split_and!; try done.
    split; cbn; [done|by eapply ctx_for_wf, ctx_seen_for|by eapply ctx_for_wf, ctx_seen_for].
Qed.

(** The next message under the same key needs no memory. *)
Lemma HMAC_Init_again_run ctx key md' w :
  hmac_keyed key ctx -> md' = None \/ md' = Some md -> exists ctx',
  HMAC_Init_ex ctx None 0 md' w = (Some (1, ctx'), w) /\ hmac_seen key ctx' [].
Proof.
  intros [Hmd Hc Hi Ho] Hm. unfold HMAC_Init_ex. rewrite Hmd.
  assert (match md' with Some _ => md' | None => Some md end = Some md) as -> by (by destruct Hm as [->| ->]).
  rewrite bool_decide_eq_false_2 by (by intros []). rewrite bool_decide_eq_false_2 by (by intros []). cbn [orb].
  rewrite bind_ret. cbn [Z.eqb Pos.eqb].
  destruct (ctx_copy_run (md_ctx ctx) (i_ctx ctx) (ipad hash B key) w (ctx_for_wf _ Hc) Hi) as (r & c & w' & E & _ & Hs & Hsame).
  destruct Hc as (d & Ec & Hd). destruct Hsame as [-> ->]; [by rewrite Ec|]. cbn [Z.eqb Pos.eqb] in Hs.
  rewrite (bind_ok _ _ _ _ _ E). eexists. split; [done|].
  split; [split; cbn; [done|by eapply ctx_seen_for|done|done]|]. by rewrite app_nil_r.
Qed.

Lemma HMAC_Update_run ctx key msg bs w :
  hmac_seen key ctx msg -> bytes bs -> blen bs < 2 ^ 61 -> exists ctx',
  HMAC_Update ctx bs w = (Some (1, ctx'), w) /\ hmac_seen key ctx' (msg ++ bs).
Proof.
  intros [[Hmd Hc Hi Ho] Hs] Hb Hl. unfold HMAC_Update.
  destruct (DigestUpdate_run _ _ bs w Hs Hb Hl) as (c & E & Hs'). rewrite (bind_ok _ _ _ _ _ E). eexists. split; [done|].
  split; [split; cbn; [done|by eapply ctx_seen_for|done|done]|]. by rewrite app_assoc.
Qed.

Lemma HMAC_Final_run ctx key msg out_len w :
  hmac_seen key ctx msg -> exists ctx',
  HMAC_Final ctx out_len w = (Some (1, rfc2104_hmac hash B key msg, EVP_MD_size md, ctx'), w) /\ hmac_keyed key ctx'.
Proof.
  intros [[Hmd Hc Hi Ho] Hs]. unfold HMAC_Final.
  destruct (DigestFinal_run _ _ w Hs) as (c1 & E1 & Hc1). rewrite (bind_ok _ _ _ _ _ E1). set (inner := hash _).
  destruct (ctx_copy_run c1 (o_ctx ctx) _ w (ctx_for_wf _ Hc1) Ho) as (r & c2 & w' & E2 & _ & Hs2 & Hsame).
  destruct Hsame as [-> ->]; [by destruct Hc1 as (? & -> & _)|]. cbn [Z.eqb Pos.eqb] in Hs2.
  assert (blen inner = EVP_MD_size md) as Hin by apply dm_hash_len. pose proof dm_sizes as ([_ Hmax] & _ & _).
  destruct (DigestUpdate_run c2 _ inner w Hs2) as (c3 & E3 & Hs3); [apply dm_hash_bytes| |].
  { rewrite Hin. unfold EVP_MAX_MD_SIZE, EVP_MD_size in *. pow2. lia. }
  destruct (DigestFinal_run c3 _ w Hs3) as (c4 & E4 & Hc4).
  rewrite (bind_ok _ _ _ (1, rfc2104_hmac hash B key msg, EVP_MD_size md,
    set_md_ctx c4 (set_md_ctx c3 (set_md_ctx c2 (set_md_ctx c1 ctx)))) w).
  2:{ cbn [Z.eqb md_ctx set_md_ctx o_ctx]. rewrite (bind_ok _ _ _ _ _ E2). cbn [Z.eqb Pos.eqb].
      rewrite <-Hin, load_bytes_all, mopt_bind. cbn [md_ctx set_md_ctx]. rewrite (bind_ok _ _ _ _ _ E3).
      cbn [Z.eqb md_ctx set_md_ctx]. rewrite (bind_ok _ _ _ _ _ E4). by rewrite Hin. }
  eexists. split; [done|]. by split.
Qed.

Lemma hmac_updates_run key pieces w : forall ctx msg,
  hmac_seen key ctx msg -> Forall (fun p => bytes p /\ blen p < 2 ^ 61) pieces -> exists ctx',
  hmac_updates ctx pieces w = (Some (1, ctx'), w) /\ hmac_seen key ctx' (msg ++ concat pieces).
Proof.
  induction pieces as [|p pieces IH]; intros ctx msg Hs Hp; cbn [hmac_updates concat].
  { exists ctx. by rewrite app_nil_r. }
  apply Forall_cons in Hp as [[Hb Hl] Hp].
  destruct (HMAC_Update_run ctx key msg p w Hs Hb Hl) as (c1 & E1 & Hs1). rewrite (bind_ok _ _ _ _ _ E1). cbn [Z.eqb].
  destruct (IH c1 _ Hs1 Hp) as (c2 & E2 & Hs2). exists c2. by rewrite app_assoc.
Qed.

Lemma HMAC_cleanup_run ctx w :
  hmac_wf ctx -> HMAC_CTX_cleanup ctx w = (Some HMAC_CTX_init, World (requests w) (live w - hmac_blocks ctx) (errors w)).
Proof.
  intros [Hm Hi Ho]. unfold HMAC_CTX_cleanup.
  rewrite (bind_ok _ _ _ _ _ (ctx_cleanup_run _ _ (wf_pctx _ Hi))), (bind_ok _ _ _ _ _ (ctx_cleanup_run _ _ (wf_pctx _ Ho))),
    (bind_ok _ _ _ _ _ (ctx_cleanup_run _ _ (wf_pctx _ Hm))).
  unfold mret, M_ret. cbn. do 2 f_equal. unfold hmac_blocks. lia.
Qed.
End Hmac.
