(* ===== verification/Kdf.v ===== *)
(** crypto/hkdf/hkdf.c and crypto/evp/pbkdf.c: key derivation from HMAC. Output
    buffers are the caller's objects, and what they hold afterwards is returned. *)

From S2P Require Import Prelude CryptoInternal Buf Sha1 Evp Hmac.

Section Kdf.
Context {ms : Mallocs} {pk : PkeyOps}.

(** * hkdf.c *)

(** The result, what was written to [out_key], and its length. *)
Definition HKDF_extract (digest : option evp_md) (secret : list Z) (salt : option (list Z)) (salt_len : Z) :
    W (Z * list Z * Z) :=
  tag ← HMAC digest salt salt_len secret true;
  match tag with
  | None => _ ← put_error HKDF_R_HMAC_LIB; mret (0, [], 0)
  | Some (out, len) =>
      d ← mopt digest;
      _ ← massert (len =? EVP_MD_size d);
      mret (1, out, len)
  end.

(** One block of output. [prev] is the previous block, [None] for the first. *)
Definition hkdf_block (hmac : HMAC_CTX) (prev : option (list Z)) (digest_len : Z) (info : list Z) (ctr : Z) :
    W (Z * list Z * HMAC_CTX) :=
  '(r, hmac) ←
    (match prev with
     | None => mret (1, hmac)
     | Some previous =>
         '(r, hmac) ← HMAC_Init_ex hmac None 0 None;
         if r =? 0 then mret (0, hmac)
         else bs ← mopt (load_bytes (Some previous) 0 digest_len); HMAC_Update hmac bs
     end);
  if r =? 0 then mret (0, [], hmac)
  else
    '(r, hmac) ← HMAC_Update hmac info;
    if r =? 0 then mret (0, [], hmac)
    else
      '(r, hmac) ← HMAC_Update hmac [ctr];
      if r =? 0 then mret (0, [], hmac)
      else
        '(r, previous, _, hmac) ← HMAC_Final hmac false;
        mret (r, previous, hmac).

(** [count] blocks are left, the next has the number [i]. *)
Fixpoint hkdf_loop (count : nat) (hmac : HMAC_CTX) (prev : option (list Z)) (digest_len : Z) (info : list Z)
    (i done : Z) (out_key : option (list Z)) (out_len : Z) : W (Z * HMAC_CTX * option (list Z)) :=
  match count with
  | O => mret (1, hmac, out_key)
  | S count =>
      let ctr := u8 (u32 (i + 1)) in
      '(r, previous, hmac) ← hkdf_block hmac prev digest_len info ctr;
      if r =? 0 then mret (0, hmac, out_key)
      else
        let todo := if out_len <? u64 (done + digest_len) then u64 (out_len - done) else digest_len in
        bs ← mopt (load_bytes (Some previous) 0 todo);
        out_key ← mopt (store_bytes out_key done bs);
        hkdf_loop count hmac (Some previous) digest_len info (u32 (i + 1)) (u64 (done + todo)) out_key out_len
  end.

Definition HKDF_expand (out_key : option (list Z)) (out_len : Z) (digest : option evp_md) (prk info : list Z) :
    W (Z * option (list Z)) :=
  d ← mopt digest;
  let digest_len := EVP_MD_size d in
  let n := u64 (u64 (out_len + digest_len) - 1) / digest_len in
  if (u64 (out_len + digest_len) <? out_len) || (255 <? n) then
    _ ← put_error HKDF_R_OUTPUT_TOO_LARGE; mret (0, out_key)
  else
    '(r, hmac) ← HMAC_Init_ex HMAC_CTX_init (Some prk) (blen prk) digest;
    '(ret, hmac, out_key) ←
      (if r =? 0 then mret (0, hmac, out_key)
       else hkdf_loop (Z.to_nat n) hmac None digest_len info 0 0 out_key out_len);
    _ ← HMAC_CTX_cleanup hmac;
    _ ← (if negb (ret =? 1) then put_error HKDF_R_HMAC_LIB else mret tt);
    mret (ret, out_key).

Definition HKDF (out_key : option (list Z)) (out_len : Z) (digest : option evp_md) (secret : list Z)
    (salt : option (list Z)) (salt_len : Z) (info : list Z) : W (Z * option (list Z)) :=
  '(r, prk, prk_len) ← HKDF_extract digest secret salt salt_len;
  if r =? 0 then mret (0, out_key)
  else
    prk ← mopt (load_bytes (Some prk) 0 prk_len);
    '(r, out_key) ← HKDF_expand out_key out_len digest prk info;
    mret (if r =? 0 then 0 else 1, out_key).

(** * pbkdf.c *)

(** [out_key[k] ^= digest_tmp[k]] for [k < todo]. *)
Definition xor_into (out_key : option (list Z)) (off todo : Z) (digest_tmp : list Z) : option (option (list Z)) :=
  old ← load_bytes out_key off todo;
  bs ← load_bytes (Some digest_tmp) 0 todo;
  store_bytes out_key off (zip_with Z.lxor old bs).

(** A message in pieces under the key of [hctx]. *)
Definition hmac_once (hctx : HMAC_CTX) (pieces : list (list Z)) : W (Z * list Z * HMAC_CTX) :=
  '(r, hctx) ← HMAC_Init_ex hctx None 0 None;
  if r =? 0 then mret (0, [], hctx)
  else
    '(r, hctx) ← hmac_updates hctx pieces;
    if r =? 0 then mret (0, [], hctx)
    else
      '(r, out, _, hctx) ← HMAC_Final hctx false;
      mret (r, out, hctx).

(** The iterations from [j] on. *)
Fixpoint pbkdf2_iterate (count : nat) (hctx : HMAC_CTX) (digest_tmp : list Z) (md_len off todo : Z)
    (out_key : option (list Z)) : W (Z * HMAC_CTX * option (list Z)) :=
  match count with
  | O => mret (1, hctx, out_key)
  | S count =>
      bs ← mopt (load_bytes (Some digest_tmp) 0 md_len);
      '(r, digest_tmp, hctx) ← hmac_once hctx [bs];
      if r =? 0 then mret (0, hctx, out_key)
      else
        out_key ← mopt (xor_into out_key off todo digest_tmp);
        pbkdf2_iterate count hctx digest_tmp md_len off todo out_key
  end.

Definition pbkdf2_i_buf (i : Z) : list Z :=
  [u8 (Z.land (Z.shiftr i 24) 0xff); u8 (Z.land (Z.shiftr i 16) 0xff); u8 (Z.land (Z.shiftr i 8) 0xff); u8 (Z.land i 0xff)].

(** Block [i], written at [off]; each iteration of the loop writes at least one
    byte, so that the length of the key is fuel enough. *)
Fixpoint pbkdf2_loop (fuel : nat) (hctx : HMAC_CTX) (salt : list Z) (iterations md_len i key_len off : Z)
    (out_key : option (list Z)) : W (Z * HMAC_CTX * option (list Z)) :=
  if 0 <? key_len then
    match fuel with
    | O => mfail
    | S fuel =>
        let todo := if key_len <? md_len then key_len else md_len in
        '(r, digest_tmp, hctx) ← hmac_once hctx [salt; pbkdf2_i_buf i];
        if r =? 0 then mret (0, hctx, out_key)
        else
          bs ← mopt (load_bytes (Some digest_tmp) 0 todo);
          out_key ← mopt (store_bytes out_key off bs);
          '(r, hctx, out_key) ← pbkdf2_iterate (Z.to_nat (iterations - 1)) hctx digest_tmp md_len off todo out_key;
          if r =? 0 then mret (0, hctx, out_key)
          else pbkdf2_loop fuel hctx salt iterations md_len (u32 (i + 1)) (key_len - todo) (off + todo) out_key
    end
  else mret (1, hctx, out_key).

Definition PKCS5_PBKDF2_HMAC (password : option (list Z)) (password_len : Z) (salt : list Z) (iterations : Z)
    (digest : option evp_md) (key_len : Z) (out_key : option (list Z)) : W (Z * option (list Z)) :=
  d ← mopt digest;
  let md_len := EVP_MD_size d in
  '(r, hctx) ← HMAC_Init_ex HMAC_CTX_init password password_len digest;
  '(r, hctx, out_key) ←
    (if r =? 0 then mret (0, hctx, out_key)
     else pbkdf2_loop (Z.to_nat key_len) hctx salt iterations md_len 1 key_len 0 out_key);
  let ret := if r =? 0 then 0 else if iterations =? 0 then 0 else 1 in
  _ ← HMAC_CTX_cleanup hctx;
  mret (ret, out_key).

Definition PKCS5_PBKDF2_HMAC_SHA1 (password : option (list Z)) (password_len : Z) (salt : list Z) (iterations : Z)
    (key_len : Z) (out_key : option (list Z)) : W (Z * option (list Z)) :=
  PKCS5_PBKDF2_HMAC password password_len salt iterations (Some EVP_sha1) key_len out_key.
End Kdf.
