(* ===== verification/KdfTheorems.v ===== *)
(** HMAC, HKDF and PBKDF2 compute what RFC 2104, RFC 5869 and RFC 8018 define,
    over every digest, and leave no memory behind. *)

From S2P Require Import Prelude CryptoInternal Buf Evp EvpSpec Hmac HmacSpec Kdf.

(** * The standards *)

Section Standards.
Context (prf : list Z -> list Z -> list Z) (hash_len : Z).

(** RFC 5869, 2.3: T(0), T(1), ... *)
Fixpoint hkdf_T (prk info : list Z) (i : nat) : list Z :=
  match i with
  | O => []
  | S j => prf prk (hkdf_T prk info j ++ info ++ [Z.of_nat i])
  end.

Definition blocks_for (len : Z) : nat := Z.to_nat ((len + hash_len - 1) / hash_len).

Definition hkdf_okm (prk info : list Z) (len : Z) : list Z :=
  take (Z.to_nat len) (concat (map (hkdf_T prk info) (seq 1 (blocks_for len)))).

(** RFC 5869, 2.2: a salt that is not given is a string of zeros. *)
Definition hkdf_prk (salt ikm : list Z) : list Z :=
  prf (if bool_decide (salt = []) then replicate (Z.to_nat hash_len) 0 else salt) ikm.

(** RFC 8018, 5.2: U_1, U_2, ... and their sum. *)
Fixpoint pbkdf2_U (password salt : list Z) (i : Z) (j : nat) : list Z :=
  match j with
  | O => prf password (salt ++ be_bytes 4 i)
  | S j => prf password (pbkdf2_U password salt i j)
  end.

Fixpoint pbkdf2_F (password salt : list Z) (i : Z) (more : nat) : list Z :=
  match more with
  | O => pbkdf2_U password salt i 0
  | S j => zip_with Z.lxor (pbkdf2_F password salt i j) (pbkdf2_U password salt i more)
  end.

Definition pbkdf2_dk (password salt : list Z) (iterations len : Z) : list Z :=
  take (Z.to_nat len)
    (concat (map (fun i => pbkdf2_F password salt (Z.of_nat i) (Z.to_nat (iterations - 1))) (seq 1 (blocks_for len)))).
End Standards.

Section Kdf.
Context {ms : Mallocs} {ml : MallocsLaws ms} {pk : PkeyOps}.
Context {md : evp_md} {hash : list Z -> list Z} {dm : DigestMethod (md_method md) hash}.

Notation B := (EVP_MD_block_size md).
Notation hmac := (rfc2104_hmac hash B).
Notation keyed := (hmac_keyed (md:=md) (hash:=hash)).
Notation seen := (hmac_seen (md:=md) (hash:=hash)).

Lemma hmac_len key msg : blen (hmac key msg) = EVP_MD_size md.
Proof. exact (dm_hash_len (hash:=hash) _). Qed.

Lemma hmac_bytes key msg : bytes (hmac key msg).
Proof. exact (dm_hash_bytes (hash:=hash) _). Qed.

Lemma size_bounds : 0 < EVP_MD_size md <= 64.
Proof. exact (proj1 dm_sizes). Qed.

(** The empty key is the key of zeros. *)
Lemma hmac_zero_key msg : hmac (replicate (Z.to_nat (EVP_MD_size md)) 0) msg = hmac [] msg.
Proof.
  assert (hmac_k0 hash B (replicate (Z.to_nat (EVP_MD_size md)) 0) = hmac_k0 hash B []) as E.
  { destruct dm_sizes as (Hs & Hb & _). unfold hmac_k0. cbv zeta. unfold EVP_MD_block_size, EVP_MD_size.
    rewrite blen_replicate by lia. change (blen []) with 0. rewrite !(proj2 (Z.ltb_ge _ _)) by lia.
    rewrite blen_replicate by lia. change (blen []) with 0. rewrite <-replicate_add. cbn [app]. f_equal. lia. }
  unfold rfc2104_hmac, ipad, opad. by rewrite E.
Qed.

Lemma keyed_blocks key ctx : keyed key ctx -> hmac_blocks ctx = 3.
Proof.
  intros [_ H1 H2 H3]. unfold hmac_blocks.
  by rewrite (for_blocks _ H1), (seen_blocks _ _ H2), (seen_blocks _ _ H3).
Qed.

(** Cleaning up after a call that got or did not get its memory. *)
Lemma cleanup_outcome r w ctx w' :
  hmac_outcome (md:=md) r w HMAC_CTX_init w' ctx -> (r = 1 -> hmac_wf (md:=md) ctx) -> exists w'',
  HMAC_CTX_cleanup ctx w' = (Some HMAC_CTX_init, w'') /\ live w'' = live w /\ errors w'' = errors w'.
Proof.
  intros [Hl Hr] Hwf. assert (hmac_wf (md:=md) ctx) as Hw by (destruct Hr as [[-> _]|(_ & _ & _ & ?)]; auto).
  eexists. split; [by apply HMAC_cleanup_run|]. cbn. split; [|done].
  unfold same_live in Hl. change (hmac_blocks HMAC_CTX_init) with 0 in Hl. lia.
Qed.

Lemma HMAC_run key key_len k data out_len w :
  load_bytes key 0 key_len = Some k -> 0 <= key_len < 2 ^ 61 -> bytes k -> bytes data -> blen data < 2 ^ 61 -> exists o w',
  HMAC (Some md) key key_len data out_len w = (Some o, w') /\ live w' = live w /\
  (o = Some (hmac k data, EVP_MD_size md) /\ errors w' = errors w \/
   o = None /\ errors w' = DIGEST_R_MALLOC_FAILURE :: errors w /\ any_refused).
Proof.
  intros Hk Hlen Hb Hd Hdl. unfold HMAC.
  destruct (HMAC_Init_key_run HMAC_CTX_init key key_len k (Some md) w hmac_init_wf Hk Hlen Hb) as (r & c1 & w1 & E1 & Ho & Hs);
    [by left|by right|]. rewrite (bind_ok _ _ _ _ _ E1).
  pose proof Ho as [_ [[-> He]|(-> & He & Hr & Hw)]]; cbn [Z.eqb Pos.eqb].
  - destruct (HMAC_Update_run c1 k [] data w1 (Hs eq_refl) Hd Hdl) as (c2 & E2 & Hs2).
    destruct (HMAC_Final_run c2 k _ out_len w1 Hs2) as (c3 & E3 & Hk3). rewrite app_nil_l in E3.
    rewrite (bind_ok _ _ _ (Some (hmac k data, EVP_MD_size md), c3) w1).
    2:{ rewrite (bind_ok _ _ _ _ _ E2). cbn [Z.eqb Pos.eqb]. by rewrite (bind_ok _ _ _ _ _ E3). }
    rewrite (bind_ok _ _ _ _ _ (HMAC_cleanup_run c3 w1 (hmac_keyed_wf _ _ Hk3))). eexists _, _. split; [done|].
    destruct Ho as [Hl _]. unfold same_live in Hl. destruct (Hs eq_refl) as [Hk1 _].
    cbn. rewrite (keyed_blocks _ _ Hk3). rewrite (keyed_blocks _ _ Hk1) in Hl. change (hmac_blocks HMAC_CTX_init) with 0 in Hl.
    split; [lia|]. by left.
  - destruct (cleanup_outcome 0 w c1 w1 Ho ltac:(done)) as (w2 & E2 & Hl2 & He2).
    rewrite bind_ret, (bind_ok _ _ _ _ _ E2). eexists _, _. split; [done|]. split; [done|]. right. by rewrite He2.
Qed.

(** * Blocks of output *)

Lemma blocks_for_spec len dl : 0 < dl -> 0 <= len -> let n := Z.of_nat (blocks_for dl len) in
  len <= n * dl /\ (0 < n -> (n - 1) * dl < len).
Proof.
  intros Hd Hl n. unfold n, blocks_for. rewrite Z2Nat.id by (apply Z.div_pos; lia).
  pose proof (Z.div_mod (len + dl - 1) dl). pose proof (Z.mod_pos_bound (len + dl - 1) dl). nia.
Qed.

(** What storing the next block at the end of what is there makes of a buffer. *)
Lemma store_next pre rest bs off :
  off = blen pre -> blen bs <= blen rest ->
  store_bytes (Some (pre ++ rest)) off bs = Some (Some ((pre ++ bs) ++ drop (Z.to_nat (blen bs)) rest)).
Proof.
  intros -> Hl. pose proof (blen_nonneg bs). rewrite <-(take_drop (Z.to_nat (blen bs)) rest) at 1.
  rewrite (store_bytes_app pre (take (Z.to_nat (blen bs)) rest) _ bs) by (try done; rewrite blen_take; lia).
  by rewrite app_assoc.
Qed.

Lemma load_prefix l n : 0 <= n <= blen l -> load_bytes (Some l) 0 n = Some (take (Z.to_nat n) l).
Proof.
  intros Hn. rewrite <-(take_drop (Z.to_nat n) l) at 1. rewrite <-(load_bytes_prefix (take (Z.to_nat n) l) (drop (Z.to_nat n) l)).
  f_equal. rewrite blen_take; lia.
Qed.

(** Writing the blocks [f i], [f (i+1)], ..., as far as [left] bytes. *)
Definition stream_from (f : nat -> list Z) (i count : nat) (left : Z) : list Z :=
  take (Z.to_nat left) (concat (map f (seq i count))).

Lemma stream_from_cons f i count left dl :
  blen (f i) = dl -> 0 <= left ->
  stream_from f i (S count) left =
  take (Z.to_nat (Z.min left dl)) (f i) ++ stream_from f (S i) count (left - Z.min left dl).
Proof.
  intros Hd Hl. unfold stream_from. cbn [seq map concat]. pose proof (blen_nonneg (f i)). rewrite take_app. unfold blen in *.
  f_equal; [|f_equal; lia]. destruct (Z.le_ge_cases left dl).
  - by rewrite Z.min_l.
  - rewrite Z.min_r by lia. by rewrite !take_ge by lia.
Qed.

Lemma blen_stream f i count left dl :
  (forall j, (i <= j)%nat -> blen (f j) = dl) -> 0 <= left <= Z.of_nat count * dl ->
  blen (stream_from f i count left) = left.
Proof.
  intros Hf Hl. unfold stream_from. apply blen_take. split; [lia|].
  assert (blen (concat (map f (seq i count))) = Z.of_nat count * dl) as ->; [|lia].
  clear Hl. revert i Hf. induction count as [|count IH]; intros i Hf; cbn [seq map concat]; [done|].
  rewrite blen_app, Hf, IH by (try lia; intros; apply Hf; lia). lia.
Qed.

(** * HKDF *)

Notation T := (hkdf_T hmac).

(** Before block [S i]: the key is set, and so is the previous block, if any. *)
Definition hkdf_ready (prk info : list Z) (i : nat) (prev : option (list Z)) (ctx : HMAC_CTX) : Prop :=
  match i with
  | O => prev = None /\ seen prk ctx []
  | S _ => prev = Some (T prk info i) /\ keyed prk ctx
  end.

Lemma hkdf_T_len prk info i : blen (T prk info (S i)) = EVP_MD_size md.
Proof. apply hmac_len. Qed.

Lemma hkdf_block_run prk info i prev ctx ctr w :
  hkdf_ready prk info i prev ctx -> bytes info -> blen info < 2 ^ 61 -> ctr = Z.of_nat (S i) -> is_byte ctr -> exists ctx',
  hkdf_block ctx prev (EVP_MD_size md) info ctr w = (Some (1, T prk info (S i), ctx'), w) /\ keyed prk ctx'.
Proof.
  intros Hr Hi Hil -> Hc. unfold hkdf_block.
  assert (exists c, (match prev with
     | None => mret (1, ctx)
     | Some previous =>
         '(r, hmac) ← HMAC_Init_ex ctx None 0 None;
         if r =? 0 then mret (0, hmac)
         else bs ← mopt (load_bytes (Some previous) 0 (EVP_MD_size md)); HMAC_Update hmac bs
     end : W (Z * HMAC_CTX)) w = (Some (1, c), w) /\ seen prk c (T prk info i)) as (c1 & E1 & Hs1).
  { destruct i as [|i]; destruct Hr as [-> Hk]; [by exists ctx|].
    destruct (HMAC_Init_again_run ctx prk None w Hk ltac:(by left)) as (c & E & Hs). rewrite (bind_ok _ _ _ _ _ E).
    cbn [Z.eqb]. rewrite <-(hkdf_T_len prk info i), load_bytes_all, mopt_bind.
    apply (HMAC_Update_run c prk [] _ w Hs); [apply hmac_bytes|]. rewrite hkdf_T_len. pose proof size_bounds. pow2. lia. }
  rewrite (bind_ok _ _ _ _ _ E1). cbn [Z.eqb].
  destruct (HMAC_Update_run c1 prk _ info w Hs1 Hi Hil) as (c2 & E2 & Hs2). rewrite (bind_ok _ _ _ _ _ E2). cbn [Z.eqb].
  destruct (HMAC_Update_run c2 prk _ [Z.of_nat (S i)] w Hs2) as (c3 & E3 & Hs3); [by constructor|done|].
  rewrite (bind_ok _ _ _ _ _ E3). cbn [Z.eqb]. rewrite <-app_assoc in Hs3.
  destruct (HMAC_Final_run c3 prk _ false w Hs3) as (c4 & E4 & Hk4). rewrite (bind_ok _ _ _ _ _ E4). by exists c4.
Qed.

Lemma hkdf_loop_run prk info out_len w :
  bytes info -> blen info < 2 ^ 61 -> 0 <= out_len <= 255 * EVP_MD_size md ->
  forall count i prev ctx pre rest,
  hkdf_ready prk info i prev ctx -> Z.of_nat (i + count) <= 255 ->
  blen pre = Z.of_nat i * EVP_MD_size md \/ count = O ->
  0 <= out_len - blen pre <= Z.of_nat count * EVP_MD_size md ->
  (count <> O -> (Z.of_nat count - 1) * EVP_MD_size md < out_len - blen pre) ->
  out_len - blen pre <= blen rest -> exists ctx',
  hkdf_loop count ctx prev (EVP_MD_size md) info (Z.of_nat i) (blen pre) (Some (pre ++ rest)) out_len w =
    (Some (1, ctx', Some (pre ++ stream_from (T prk info) (S i) count (out_len - blen pre) ++
                          drop (Z.to_nat (out_len - blen pre)) rest)), w) /\
  (count <> O -> keyed prk ctx') /\ (count = O -> ctx' = ctx).
Proof.
  intros Hi Hil Hout. pose proof size_bounds as Hdl.
  induction count as [|count IH]; intros i prev ctx pre rest Hr Hic Hpre Hleft Hlast Hrest; cbn [hkdf_loop].
  - assert (out_len - blen pre = 0) as -> by lia. unfold stream_from. rewrite drop_0. by exists ctx.
  - destruct Hpre as [Hpre|]; [|done]. specialize (Hlast ltac:(done)).
    set (left := out_len - blen pre) in *. pose proof (blen_nonneg pre) as Hp0.
    assert (blen pre < 2 ^ 20 /\ left < 2 ^ 20) as [Hp1 Hl1] by (pow2; nia).
    destruct (hkdf_block_run prk info i prev ctx (Z.of_nat (S i)) w Hr Hi Hil eq_refl) as (c1 & E1 & Hk1);
      [split; [lia|]; change (2 ^ 8) with 256; lia|].
    assert (u8 (u32 (Z.of_nat i + 1)) = Z.of_nat (S i)) as ->.
    { rewrite (wrap_small 32) by (split; pow2; lia). rewrite wrap_small by (split; pow2; lia). lia. }
    rewrite (bind_ok _ _ _ _ _ E1). cbn [Z.eqb].
    assert ((if out_len <? u64 (blen pre + EVP_MD_size md) then u64 left else EVP_MD_size md) =
      Z.min left (EVP_MD_size md)) as ->.
    { rewrite !wrap_small by (split; pow2; lia). unfold left. zcases; lia. }
    set (todo := Z.min left (EVP_MD_size md)). assert (0 < todo <= EVP_MD_size md /\ todo <= left) as [Ht1 Ht2] by (unfold todo; nia).
    pose proof (hkdf_T_len prk info i) as HT. rewrite load_prefix, mopt_bind by (rewrite HT; lia).
    set (bs := take (Z.to_nat todo) (T prk info (S i))). assert (blen bs = todo) as Hbs by (apply blen_take; lia).
    rewrite store_next, mopt_bind, Hbs by (done || lia). set (pre' := pre ++ bs).
    assert (blen pre' = blen pre + todo) as Hpre' by (unfold pre'; rewrite blen_app; lia).
    rewrite (wrap_small 32) by (split; pow2; lia). rewrite (wrap_small 64) by (split; pow2; lia).
    replace (Z.of_nat i + 1) with (Z.of_nat (S i)) by lia. rewrite <-Hpre'.
    destruct (IH (S i) (Some (T prk info (S i))) c1 pre' (drop (Z.to_nat todo) rest)) as (c2 & E2 & Hk2 & Hc2).
    { by split. }
    { lia. }
    { destruct count as [|count]; [by right|]. left. unfold todo in Hpre'. rewrite Hpre', Hpre. nia. }
    { rewrite Hpre'. unfold todo, left in *. nia. }
    { intros Hc. rewrite Hpre'. unfold todo, left in *. nia. }
    { rewrite Hpre', blen_drop by lia. unfold left in *. lia. }
    rewrite E2, Hpre'. exists c2. split.
    + do 3 f_equal. rewrite (stream_from_cons _ (S i) count left (EVP_MD_size md)) by (done || lia). fold todo bs.
      replace (out_len - (blen pre + todo)) with (left - todo) by (unfold left; lia).
      rewrite drop_drop. replace (Z.to_nat todo + Z.to_nat (left - todo))%nat with (Z.to_nat left) by lia.
      unfold pre'. by rewrite <-!app_assoc.
    + split; [|done]. intros _. destruct count; [by rewrite Hc2|by apply Hk2].
Qed.

(** The caller's buffer has room for [len] bytes, and what it holds when they
    have been written. *)
Definition out_room (out : option (list Z)) (len : Z) : Prop :=
  match out with None => len = 0 | Some o => len <= blen o end.
Definition filled (out : option (list Z)) (bs : list Z) : option (list Z) := (fun o => bs ++ drop (length bs) o) <$> out.

(** How a derivation ends: with its bytes written, or without memory and with
    [e] on top of the errors. *)
Definition derived (w w' : evp_world) (e : list evp_error) (out : option (list Z)) (bs : list Z)
    (r : Z) (out' : option (list Z)) : Prop :=
  live w' = live w /\
  (r = 1 /\ out' = filled out bs /\ errors w' = errors w \/
   r = 0 /\ out' = out /\ errors w' = e ++ DIGEST_R_MALLOC_FAILURE :: errors w /\ any_refused).

Lemma blocks_for_dl len : blocks_for (EVP_MD_size md) len = Z.to_nat ((len + EVP_MD_size md - 1) / EVP_MD_size md).
Proof. done. Qed.

Lemma HKDF_expand_run out_key out_len prk info w :
  bytes prk -> blen prk < 2 ^ 61 -> bytes info -> blen info < 2 ^ 61 -> 0 <= out_len < 2 ^ 64 -> out_room out_key out_len ->
  exists r out' w',
  HKDF_expand out_key out_len (Some md) prk info w = (Some (r, out'), w') /\
  if 255 * EVP_MD_size md <? out_len then
    r = 0 /\ out' = out_key /\ live w' = live w /\ errors w' = HKDF_R_OUTPUT_TOO_LARGE :: errors w
  else derived w w' [HKDF_R_HMAC_LIB] out_key (hkdf_okm hmac (EVP_MD_size md) prk info out_len) r out'.
Proof.
  intros Hp Hpl Hi Hil Ho Hroom. pose proof size_bounds as Hdl. unfold HKDF_expand. rewrite mopt_bind.
  set (N := u64 (u64 (out_len + EVP_MD_size md) - 1) / EVP_MD_size md).
  assert ((u64 (out_len + EVP_MD_size md) <? out_len) || (255 <? N) = (255 * EVP_MD_size md <? out_len) /\
    (out_len <= 255 * EVP_MD_size md -> N = (out_len + EVP_MD_size md - 1) / EVP_MD_size md)) as [-> HN].
  { destruct (Z.lt_ge_cases (out_len + EVP_MD_size md) (2 ^ 64)) as [Hlt|Hge].
    - unfold N. rewrite (wrap_small 64 (out_len + EVP_MD_size md)), wrap_small by (split; lia).
      split; [|done]. rewrite (proj2 (Z.ltb_ge _ out_len)) by lia. cbn [orb].
      pose proof (Z.div_mod (out_len + EVP_MD_size md - 1) (EVP_MD_size md)).
      pose proof (Z.mod_pos_bound (out_len + EVP_MD_size md - 1) (EVP_MD_size md)). zcases; nia || done.
    - assert (u64 (out_len + EVP_MD_size md) = out_len + EVP_MD_size md - 2 ^ 64) as ->.
      { symmetry. apply (Z.mod_unique_pos _ _ 1); lia. }
      rewrite (proj2 (Z.ltb_lt (_ - _) out_len)), (proj2 (Z.ltb_lt (255 * _) _)) by (pow2; lia). split; [done|]. pow2. lia. }
  destruct (Z.ltb_spec (255 * EVP_MD_size md) out_len) as [Hbig|Hfit].
  { eexists 0, out_key, _. split; [done|]. done. }
  rewrite (HN Hfit), <-blocks_for_dl. clear N HN. set (count := blocks_for _ out_len).
  pose proof (blocks_for_spec out_len (EVP_MD_size md) ltac:(lia) ltac:(lia)) as Hc. cbv zeta in Hc. fold count in Hc.
  destruct (HMAC_Init_key_run HMAC_CTX_init (Some prk) (blen prk) prk (Some md) w hmac_init_wf (load_bytes_all _)
    ltac:(split; [apply blen_nonneg|done]) Hp ltac:(by left) ltac:(by left)) as (r & c1 & w1 & E1 & Hout & Hs1).
  rewrite (bind_ok _ _ _ _ _ E1).
  pose proof Hout as [_ [[-> He]|(-> & He & Href & _)]]; cbn [Z.eqb].
  - specialize (Hs1 eq_refl). set (okm := hkdf_okm hmac (EVP_MD_size md) prk info out_len).
    assert (exists c2, hkdf_loop count c1 None (EVP_MD_size md) info 0 0 out_key out_len w1 =
      (Some (1, c2, filled out_key okm), w1) /\ keyed prk c2) as (c2 & E2 & Hk2).
    { destruct out_key as [o|]; cbn [out_room] in Hroom.
      - destruct (hkdf_loop_run prk info out_len w1 Hi Hil ltac:(lia) count 0 None c1 [] o) as (c2 & E2 & Hk2 & Hz);
          change (blen []) with 0.
        { by split. }
        { assert (Z.of_nat count <= 255) by nia. lia. }
        { by left. }
        { lia. }
        { intros Hz. pose proof (proj2 Hc ltac:(lia)). lia. }
        { lia. }
        change (blen []) with 0 in E2. rewrite Z.sub_0_r, !app_nil_l in E2. exists c2. split.
        + change (Z.of_nat 0) with 0 in E2. rewrite E2. do 3 f_equal. cbn. do 2 f_equal.
          assert (blen okm = out_len) as Hl; [|unfold blen in Hl; f_equal; lia].
          apply (blen_stream (T prk info) 1 count out_len (EVP_MD_size md)); [|lia].
          intros [|j] Hj; [lia|apply hkdf_T_len].
        + destruct (decide (count = O)) as [H0|H0]; [rewrite (Hz H0); apply Hs1|by apply Hk2].
      - subst out_len. assert (count = O) as E0 by (apply Nat2Z.inj; nia). rewrite E0. exists c1. split; [done|apply Hs1]. }
    rewrite (bind_ok _ _ _ _ _ E2), (bind_ok _ _ _ _ _ (HMAC_cleanup_run c2 w1 (hmac_keyed_wf _ _ Hk2))).
    eexists 1, _, _. split; [done|].
    split; [|by left]. cbn. destruct Hout as [Hl _]. unfold same_live in Hl.
    rewrite (keyed_blocks prk c2 Hk2). rewrite (keyed_blocks prk c1 (proj1 Hs1)) in Hl.
    change (hmac_blocks HMAC_CTX_init) with 0 in Hl. lia.
  - destruct (cleanup_outcome 0 w c1 w1 Hout ltac:(done)) as (w2 & E2 & Hl2 & He2).
    rewrite bind_ret, (bind_ok _ _ _ _ _ E2). eexists 0, _, _. split; [done|]. split; [done|]. right.
    cbn. by rewrite He2, He.
Qed.

(** * PBKDF2 *)

Notation U := (pbkdf2_U hmac).
Notation F := (pbkdf2_F hmac).

Lemma hmac_once_run key pieces w ctx :
  keyed key ctx -> Forall (fun p => bytes p /\ blen p < 2 ^ 61) pieces -> exists ctx',
  hmac_once ctx pieces w = (Some (1, hmac key (concat pieces), ctx'), w) /\ keyed key ctx'.
Proof.
  intros Hk Hp. unfold hmac_once.
  destruct (HMAC_Init_again_run ctx key None w Hk ltac:(by left)) as (c1 & E1 & Hs1). rewrite (bind_ok _ _ _ _ _ E1).
  destruct (hmac_updates_run key pieces w c1 [] Hs1 Hp) as (c2 & E2 & Hs2). cbn [Z.eqb]. rewrite (bind_ok _ _ _ _ _ E2).
  destruct (HMAC_Final_run c2 key _ false w Hs2) as (c3 & E3 & Hk3). cbn [Z.eqb]. rewrite (bind_ok _ _ _ _ _ E3).
  by exists c3.
Qed.

Lemma pbkdf2_U_len pw salt i j : blen (U pw salt i j) = EVP_MD_size md.
Proof. destruct j; apply hmac_len. Qed.

Lemma pbkdf2_U_bytes pw salt i j : bytes (U pw salt i j).
Proof. destruct j; apply hmac_bytes. Qed.

Lemma pbkdf2_F_len pw salt i j : blen (F pw salt i j) = EVP_MD_size md.
Proof.
  induction j as [|j IH]; cbn [pbkdf2_F]; [apply pbkdf2_U_len|]. pose proof (pbkdf2_U_len pw salt i (S j)).
  unfold blen in *. rewrite length_zip_with. lia.
Qed.

Lemma take_zip_with {A} (f : A -> A -> A) n l k : take n (zip_with f l k) = zip_with f (take n l) (take n k).
Proof. revert l k. induction n as [|n IH]; intros [|a l] [|b k]; cbn; try done. by rewrite IH. Qed.

Lemma xor_into_run pre rest a b off todo :
  off = blen pre -> 0 <= todo -> todo <= blen a -> todo <= blen b ->
  xor_into (Some (pre ++ take (Z.to_nat todo) a ++ rest)) off todo b =
  Some (Some (pre ++ take (Z.to_nat todo) (zip_with Z.lxor a b) ++ rest)).
Proof.
  intros -> H0 Ha Hb. unfold xor_into. assert (blen (take (Z.to_nat todo) a) = todo) as Hl by (apply blen_take; lia).
  rewrite (load_bytes_app pre _ rest) by done. cbn [mbind option_bind]. rewrite load_prefix by lia. cbn [mbind option_bind].
  rewrite (store_bytes_app pre (take (Z.to_nat todo) a) rest); [by rewrite take_zip_with|done|].
  rewrite <-take_zip_with, Hl. symmetry. apply blen_take. unfold blen in *. rewrite length_zip_with. lia.
Qed.

Lemma pbkdf2_iterate_run key salt i todo w pre rest :
  0 <= todo <= EVP_MD_size md -> forall count j ctx,
  keyed key ctx -> exists ctx',
  pbkdf2_iterate count ctx (U key salt i j) (EVP_MD_size md) (blen pre) todo
    (Some (pre ++ take (Z.to_nat todo) (F key salt i j) ++ rest)) w =
  (Some (1, ctx', Some (pre ++ take (Z.to_nat todo) (F key salt i (j + count)) ++ rest)), w) /\ keyed key ctx'.
Proof.
  intros Ht. pose proof size_bounds as Hdl. induction count as [|count IH]; intros j ctx Hk; cbn [pbkdf2_iterate].
  { exists ctx. by rewrite Nat.add_0_r. }
  pose proof (load_bytes_all (U key salt i j)) as El. rewrite pbkdf2_U_len in El. rewrite El, mopt_bind.
  destruct (hmac_once_run key [U key salt i j] w ctx Hk) as (c1 & E1 & Hk1).
  { constructor; [|done]. split; [apply pbkdf2_U_bytes|]. rewrite pbkdf2_U_len. pow2. lia. }
  cbn [concat] in E1. rewrite app_nil_r in E1. rewrite (bind_ok _ _ _ _ _ E1). cbn [Z.eqb].
  change (hmac key (U key salt i j)) with (U key salt i (S j)).
  rewrite xor_into_run, mopt_bind by (try done; rewrite ?pbkdf2_F_len, ?pbkdf2_U_len; lia).
  change (zip_with Z.lxor (F key salt i j) (U key salt i (S j))) with (F key salt i (S j)).
  replace (j + S count)%nat with (S j + count)%nat by lia. by apply IH.
Qed.

Lemma i_buf_be i : 0 <= i < 2 ^ 32 -> pbkdf2_i_buf i = be_bytes 4 i.
Proof.
  intros Hi. unfold pbkdf2_i_buf. change 255 with (Z.ones 8). rewrite !Z.land_ones, !Z.shiftr_div_pow2 by lia.
  unfold wrap. rewrite !Z.mod_mod by done. cbn [be_bytes app]. rewrite !Z.div_div by lia. done.
Qed.

Lemma pbkdf2_loop_run key salt iterations w (f := fun i => F key salt (Z.of_nat i) (Z.to_nat (iterations - 1))) :
  bytes salt -> blen salt < 2 ^ 61 -> forall count fuel n i left ctx pre rest,
  keyed key ctx -> (count <= fuel)%nat -> (0 < left -> i = Z.of_nat n) -> Z.of_nat (n + count) <= 2 ^ 32 ->
  0 <= left <= Z.of_nat count * EVP_MD_size md -> (count <> O -> (Z.of_nat count - 1) * EVP_MD_size md < left) ->
  left <= blen rest -> exists ctx',
  pbkdf2_loop fuel ctx salt iterations (EVP_MD_size md) i left (blen pre) (Some (pre ++ rest)) w =
    (Some (1, ctx', Some (pre ++ stream_from f n count left ++ drop (Z.to_nat left) rest)), w) /\ keyed key ctx'.
Proof.
  intros Hs Hsl. pose proof size_bounds as Hdl.
  induction count as [|count IH]; intros fuel n i left ctx pre rest Hk Hfuel Hi Hn Hleft Hlast Hrest.
  { assert (left = 0) as -> by lia. exists ctx. split; [|done]. destruct fuel; cbn; by rewrite drop_0. }
  specialize (Hlast ltac:(done)). assert (0 < left) as Hpos by nia. rewrite (Hi Hpos).
  destruct fuel as [|fuel]; [lia|]. cbn [pbkdf2_loop]. rewrite (proj2 (Z.ltb_lt 0 left)) by done.
  assert ((if left <? EVP_MD_size md then left else EVP_MD_size md) = Z.min left (EVP_MD_size md)) as -> by (zcases; lia).
  set (todo := Z.min left (EVP_MD_size md)). assert (0 < todo <= EVP_MD_size md /\ todo <= left) as [Ht1 Ht2] by (unfold todo; lia).
  assert (0 <= Z.of_nat n < 2 ^ 32) as Hn32 by lia.
  destruct (hmac_once_run key [salt; pbkdf2_i_buf (Z.of_nat n)] w ctx Hk) as (c1 & E1 & Hk1).
  { constructor; [by split|]. constructor; [|by constructor]. rewrite i_buf_be by done.
    split; [apply bytes_be_bytes|by rewrite blen_be_bytes]. }
  cbn [concat] in E1. rewrite app_nil_r, i_buf_be in E1 by done. rewrite i_buf_be by done.
  rewrite (bind_ok _ _ _ _ _ E1). cbn [Z.eqb].
  change (hmac key (salt ++ be_bytes 4 (Z.of_nat n))) with (U key salt (Z.of_nat n) 0).
  rewrite load_prefix, mopt_bind by (rewrite pbkdf2_U_len; lia).
  change (U key salt (Z.of_nat n) 0) with (F key salt (Z.of_nat n) 0).
  assert (forall j, blen (take (Z.to_nat todo) (F key salt (Z.of_nat n) j)) = todo) as Hbs
    by (intros j; apply blen_take; rewrite pbkdf2_F_len; lia).
  rewrite store_next, mopt_bind by (rewrite ?Hbs; done || lia). rewrite Hbs, <-app_assoc.
  destruct (pbkdf2_iterate_run key salt (Z.of_nat n) todo w pre (drop (Z.to_nat todo) rest) ltac:(lia)
    (Z.to_nat (iterations - 1)) 0 c1 Hk1) as (c2 & E2 & Hk2).
  change (U key salt (Z.of_nat n) 0) with (F key salt (Z.of_nat n) 0) in E2.
  rewrite (bind_ok _ _ _ _ _ E2). cbn [Z.eqb Nat.add]. fold (f n).
  set (bs := take (Z.to_nat todo) (f n)). assert (blen bs = todo) as Hbl by apply Hbs.
  rewrite (app_assoc pre). replace (blen pre + todo) with (blen (pre ++ bs)) by (rewrite blen_app; lia).
  destruct (IH fuel (S n) (u32 (Z.of_nat n + 1)) (left - todo) c2 (pre ++ bs) (drop (Z.to_nat todo) rest) Hk2)
    as (c3 & E3 & Hk3).
  { lia. }
  { intros Hl. assert (count <> O) by (intros ->; unfold todo in *; lia). rewrite wrap_small by (split; lia). lia. }
  { lia. }
  { unfold todo in *. nia. }
  { intros Hc. unfold todo in *. nia. }
  { rewrite blen_drop; lia. }
  rewrite E3. exists c3. split; [|done]. do 3 f_equal.
  rewrite (stream_from_cons f n count left (EVP_MD_size md)) by (apply pbkdf2_F_len || lia). fold todo bs.
  rewrite drop_drop. replace (Z.to_nat todo + Z.to_nat (left - todo))%nat with (Z.to_nat left) by lia.
  by rewrite <-!app_assoc.
Qed.
End Kdf.

(** * The theorems *)

Section Main.
Context {ms : Mallocs} {pk : PkeyOps}.

(** Messages in pieces under one key, the later ones after [HMAC_Init_ex] with a
    NULL key, and the cleanup; [None] if the initialisation fails. *)
Fixpoint hmac_messages (ctx : HMAC_CTX) (first : bool) (msgs : list (list (list Z))) : W (list (list Z) * HMAC_CTX) :=
  match msgs with
  | [] => mret ([], ctx)
  | m :: msgs =>
      '(r, ctx) ← (if first then mret (1, ctx) else HMAC_Init_ex ctx None 0 None);
      _ ← massert (r =? 1);
      '(r, ctx) ← hmac_updates ctx m;
      _ ← massert (r =? 1);
      '(r, out, _, ctx) ← HMAC_Final ctx true;
      _ ← massert (r =? 1);
      '(outs, ctx) ← hmac_messages ctx false msgs;
      mret (out :: outs, ctx)
  end.

Definition hmac_session (md : evp_md) (key : option (list Z)) (key_len : Z) (msgs : list (list (list Z))) :
    W (option (list (list Z))) :=
  '(r, ctx) ← HMAC_Init_ex HMAC_CTX_init key key_len (Some md);
  '(outs, ctx) ←
    (if r =? 0 then mret (None, ctx)
     else '(outs, ctx) ← hmac_messages ctx true msgs; mret (Some outs, ctx));
  _ ← HMAC_CTX_cleanup ctx;
  mret outs.

Context {ml : MallocsLaws ms}.

Lemma hmac_messages_run (md : evp_md) key w msgs : forall (first : bool) ctx,
  Forall (Forall (fun p => bytes p /\ blen p < 2 ^ 61)) msgs ->
  (if first then hmac_seen (md:=md) (hash:=evp_hash md) key ctx [] else hmac_keyed (md:=md) (hash:=evp_hash md) key ctx) ->
  exists ctx',
  hmac_messages ctx first msgs w =
    (Some (map (fun m => rfc2104_hmac (evp_hash md) (EVP_MD_block_size md) key (concat m)) msgs, ctx'), w) /\
  hmac_keyed (md:=md) (hash:=evp_hash md) key ctx'.
Proof.
  induction msgs as [|m msgs IH]; intros first ctx Hm Hc; cbn [hmac_messages map].
  { exists ctx. split; [done|]. destruct first; [apply Hc|done]. }
  apply Forall_cons in Hm as [Hp Hm].
  assert (exists c, (if first then mret (1, ctx) else HMAC_Init_ex ctx None 0 None : W (Z * HMAC_CTX)) w = (Some (1, c), w) /\
    hmac_seen (md:=md) (hash:=evp_hash md) key c []) as (c1 & E1 & Hs1).
  { destruct first; [by exists ctx|]. apply HMAC_Init_again_run; [done|by left]. }
  rewrite (bind_ok _ _ _ _ _ E1). change (1 =? 1) with true. rewrite massert_true.
  destruct (hmac_updates_run key m w c1 [] Hs1 Hp) as (c2 & E2 & Hs2). rewrite (bind_ok _ _ _ _ _ E2), massert_true.
  destruct (HMAC_Final_run c2 key _ true w Hs2) as (c3 & E3 & Hk3). rewrite (bind_ok _ _ _ _ _ E3), massert_true.
  destruct (IH false c3 Hm Hk3) as (c4 & E4 & Hk4). rewrite (bind_ok _ _ _ _ _ E4). by exists c4.
Qed.

(** C10: HMAC is that of RFC 2104 over each of the nine digests, for keys of any
    length: messages fed in any pieces, one after the other under one key, get
    their tags, as does the one-shot function. Only the initialisation needs
    memory; if any of it is refused the result says so, and in either case no
    block is left behind. *)
Theorem hmac_rfc2104 (md : evp_md) key key_len k msgs data w :
  load_bytes key 0 key_len = Some k -> 0 <= key_len < 2 ^ 61 -> bytes k ->
  Forall (Forall (fun p => bytes p /\ blen p < 2 ^ 61)) msgs -> bytes data -> blen data < 2 ^ 61 ->
  let tag := rfc2104_hmac (evp_hash md) (EVP_MD_block_size md) k in
  (exists o w', hmac_session md key key_len msgs w = (Some o, w') /\ live w' = live w /\
    (o = Some (map (fun m => tag (concat m)) msgs) /\ errors w' = errors w \/
     o = None /\ errors w' = DIGEST_R_MALLOC_FAILURE :: errors w /\ any_refused)) /\
  (exists o w', HMAC (Some md) key key_len data true w = (Some o, w') /\ live w' = live w /\
    (o = Some (tag data, EVP_MD_size md) /\ errors w' = errors w \/
     o = None /\ errors w' = DIGEST_R_MALLOC_FAILURE :: errors w /\ any_refused)).
Proof.
  intros Hk Hlen Hb Hm Hd Hdl tag. split; [|by apply HMAC_run]. unfold hmac_session.
  destruct (HMAC_Init_key_run (md:=md) HMAC_CTX_init key key_len k (Some md) w hmac_init_wf Hk Hlen Hb) as (r & c1 & w1 & E1 & Ho & Hs);
    [by left|by right|]. rewrite (bind_ok _ _ _ _ _ E1).
  pose proof Ho as [_ [[-> He]|(-> & He & Hr & _)]]; cbn [Z.eqb].
  - destruct (hmac_messages_run md k w1 msgs true c1 Hm (Hs eq_refl)) as (c2 & E2 & Hk2).
    rewrite (bind_ok _ _ _ (Some (map (fun m => tag (concat m)) msgs), c2) w1) by (by rewrite (bind_ok _ _ _ _ _ E2)).
    rewrite (bind_ok _ _ _ _ _ (HMAC_cleanup_run c2 w1 (hmac_keyed_wf _ _ Hk2))). eexists _, _. split; [done|].
    destruct Ho as [Hl _]. unfold same_live in Hl. rewrite (keyed_blocks _ _ (proj1 (Hs eq_refl))) in Hl.
    change (hmac_blocks HMAC_CTX_init) with 0 in Hl. cbn. rewrite (keyed_blocks _ _ Hk2). split; [lia|]. by left.
  - destruct (cleanup_outcome (md:=md) 0 w c1 w1 Ho ltac:(done)) as (w2 & E2 & Hl2 & He2).
    rewrite bind_ret, (bind_ok _ _ _ _ _ E2). eexists _, _. split; [done|]. split; [done|]. right. by rewrite He2.
Qed.

(** C11: HKDF is that of RFC 5869 over each of the nine digests: the salt
    defaults to zeros, the output is filled with the first bytes of T(1), T(2),
    ... and nothing behind it is touched; more than 255 blocks are an error. No
    block of memory is left behind. *)
Theorem hkdf_rfc5869 (md : evp_md) out_key out_len secret salt salt_len s info w :
  load_bytes salt 0 salt_len = Some s -> 0 <= salt_len < 2 ^ 61 -> bytes s -> bytes secret -> blen secret < 2 ^ 61 ->
  bytes info -> blen info < 2 ^ 61 -> 0 <= out_len < 2 ^ 64 -> out_room out_key out_len ->
  let prf := rfc2104_hmac (evp_hash md) (EVP_MD_block_size md) in
  let prk := hkdf_prk prf (EVP_MD_size md) s secret in
  exists r out' w', HKDF out_key out_len (Some md) secret salt salt_len info w = (Some (r, out'), w') /\
  (derived w w' [HKDF_R_HMAC_LIB] out_key (hkdf_okm prf (EVP_MD_size md) prk info out_len) r out' /\
     (r = 1 -> out_len <= 255 * EVP_MD_size md) \/
   255 * EVP_MD_size md < out_len /\ r = 0 /\ out' = out_key /\ live w' = live w /\
     errors w' = HKDF_R_OUTPUT_TOO_LARGE :: errors w).
Proof.
  intros Hs Hsl Hsb Hk Hkl Hi Hil Hout Hroom prf prk. unfold HKDF, HKDF_extract.
  destruct (HMAC_run (md:=md) salt salt_len s secret true w Hs Hsl Hsb Hk Hkl) as (o & w1 & E1 & Hl1 & [[-> He1]|(-> & He1 & Href)]).
  - rewrite (bind_ok _ _ _ (1, prk, EVP_MD_size md) w1).
    2:{ rewrite (bind_ok _ _ _ _ _ E1), mopt_bind, Z.eqb_refl, massert_true. unfold mret, M_ret. do 4 f_equal.
        unfold prk, hkdf_prk, prf. case_bool_decide as Hn; [|done]. subst s. by rewrite (hmac_zero_key (md:=md)). }
    cbn [Z.eqb]. assert (blen prk = EVP_MD_size md) as Hpl by apply hmac_len. pose proof (load_bytes_all prk) as El. rewrite Hpl in El.
    rewrite El, mopt_bind.
    pose proof (size_bounds (md:=md)) as Hsz.
    destruct (HKDF_expand_run (md:=md) out_key out_len prk info w1) as (r & out' & w2 & E2 & H);
      [apply hmac_bytes|rewrite Hpl; pow2; lia|done..|]. rewrite (bind_ok _ _ _ _ _ E2).
    exists (if r =? 0 then 0 else 1), out', w2. split; [done|].
    destruct (Z.ltb_spec (255 * EVP_MD_size md) out_len) as [Hbig|Hfit].
    + right. destruct H as (-> & -> & Hl2 & He2). rewrite Hl2, He2, Hl1, He1. done.
    + left. split; [|done]. destruct H as [Hl2 [(-> & -> & He2)|(-> & -> & He2 & Hr)]]; (split; [by rewrite Hl2, Hl1|]);
        [left|right]; by rewrite He2, He1.
  - rewrite (bind_ok _ _ _ (0, [], 0) (World (requests w1) (live w1) (HKDF_R_HMAC_LIB :: errors w1)))
      by (by rewrite (bind_ok _ _ _ _ _ E1)).
    eexists 0, out_key, _. split; [done|]. left. split; [|done]. split; [done|]. right. cbn. by rewrite He1.
Qed.

(** C12: PBKDF2 is that of RFC 8018 over each of the nine digests, for up to
    2^32 - 1 blocks. A count of zero iterations is treated as one: the key is
    written, and the result is 0, as pbkdf.c says. When memory is refused the
    result is 0, the error is queued and nothing is written. No block of memory
    is left behind. *)
Theorem pbkdf2_rfc8018 (md : evp_md) password password_len pw salt iterations key_len out_key w :
  load_bytes password 0 password_len = Some pw -> 0 <= password_len < 2 ^ 61 -> bytes pw ->
  bytes salt -> blen salt < 2 ^ 61 -> 0 <= iterations < 2 ^ 32 -> out_room out_key key_len ->
  0 <= key_len <= (2 ^ 32 - 1) * EVP_MD_size md ->
  let prf := rfc2104_hmac (evp_hash md) (EVP_MD_block_size md) in
  exists r out' w', PKCS5_PBKDF2_HMAC password password_len salt iterations (Some md) key_len out_key w = (Some (r, out'), w') /\
  live w' = live w /\
  (r = (if iterations =? 0 then 0 else 1) /\ errors w' = errors w /\
     out' = filled out_key (pbkdf2_dk prf (EVP_MD_size md) pw salt (Z.max 1 iterations) key_len) \/
   r = 0 /\ errors w' = DIGEST_R_MALLOC_FAILURE :: errors w /\ out' = out_key /\ any_refused).
Proof.
  intros Hp Hpl Hpb Hs Hsl Hit Hroom Hkl prf. unfold PKCS5_PBKDF2_HMAC. rewrite mopt_bind.
  destruct (HMAC_Init_key_run (md:=md) HMAC_CTX_init password password_len pw (Some md) w hmac_init_wf Hp Hpl Hpb)
    as (r & c1 & w1 & E1 & Ho & Hs1); [by left|by right|]. rewrite (bind_ok _ _ _ _ _ E1).
  pose proof (size_bounds (md:=md)) as Hdl.
  pose proof Ho as [_ [[-> He]|(-> & He & Hr & _)]]; cbn [Z.eqb].
  - specialize (Hs1 eq_refl). set (dk := pbkdf2_dk prf _ pw salt (Z.max 1 iterations) key_len).
    pose proof (blocks_for_spec key_len (EVP_MD_size md) ltac:(lia) ltac:(lia)) as Hc. cbv zeta in Hc.
    set (count := blocks_for _ key_len) in *.
    assert (exists c2, pbkdf2_loop (Z.to_nat key_len) c1 salt iterations (EVP_MD_size md) 1 key_len 0 out_key w1 =
      (Some (1, c2, filled out_key dk), w1) /\ hmac_keyed (md:=md) (hash:=evp_hash md) pw c2) as (c2 & E2 & Hk2).
    { destruct out_key as [o|]; cbn [out_room] in Hroom.
      - destruct (pbkdf2_loop_run (md:=md) pw salt iterations w1 Hs Hsl count (Z.to_nat key_len) 1 1 key_len c1 [] o (proj1 Hs1))
          as (c2 & E2 & Hk2); [nia|done|nia|lia|intros; apply Hc; lia|done|].
        exists c2. split; [|done]. change (blen []) with 0 in E2. rewrite !app_nil_l in E2. rewrite E2.
        assert (stream_from (fun i => pbkdf2_F (rfc2104_hmac (evp_hash md) (EVP_MD_block_size md)) pw salt (Z.of_nat i)
          (Z.to_nat (iterations - 1))) 1 count key_len = dk) as ->.
        { unfold dk, pbkdf2_dk. by replace (Z.to_nat (Z.max 1 iterations - 1)) with (Z.to_nat (iterations - 1)) by lia. }
        do 3 f_equal. cbn. do 2 f_equal. assert (blen dk = key_len) as Hl; [|unfold blen in Hl; f_equal; lia].
        apply (blen_stream _ 1 count key_len (EVP_MD_size md)); [intros; apply pbkdf2_F_len|lia].
      - subst key_len. exists c1. split; [done|apply Hs1]. }
    rewrite (bind_ok _ _ _ _ _ E2), (bind_ok _ _ _ _ _ (HMAC_cleanup_run c2 w1 (hmac_keyed_wf _ _ Hk2))).
    eexists _, _, _. split; [done|]. destruct Ho as [Hl _]. unfold same_live in Hl.
    rewrite (keyed_blocks _ _ (proj1 Hs1)) in Hl. change (hmac_blocks HMAC_CTX_init) with 0 in Hl.
    cbn. rewrite (keyed_blocks _ _ Hk2). split; [lia|]. by left.
  - destruct (cleanup_outcome (md:=md) 0 w c1 w1 Ho ltac:(done)) as (w2 & E2 & Hl2 & He2).
    rewrite bind_ret, (bind_ok _ _ _ _ _ E2). eexists _, _, _. split; [done|]. split; [done|]. right. by rewrite He2.
Qed.
End Main.

(** * Test vectors *)

#[export] Instance no_pkey : PkeyOps := {| EVP_PKEY_CTX := Empty_set; pctx_dup := fun _ => None |}.
Definition world0 : evp_world := World 0 0 [].

(** RFC 4231, test case 2, in two pieces, and then the empty message. *)
Definition hmac_vector : list Z :=
  [0x5b; 0xdc; 0xc1; 0x46; 0xbf; 0x60; 0x75; 0x4e; 0x6a; 0x04; 0x24; 0x26; 0x08; 0x95; 0x75; 0xc7;
   0x5a; 0x00; 0x3f; 0x08; 0x9d; 0x27; 0x39; 0x83; 0x9d; 0xec; 0x58; 0xb9; 0x64; 0xec; 0x38; 0x43].
Definition hmac_message : list (list Z) :=
  [[119; 104; 97; 116; 32; 100; 111; 32; 121; 97; 32; 119]; [97; 110; 116; 32; 102; 111; 114; 32; 110; 111; 116; 104; 105; 110; 103; 63]].
Definition jefe : list Z := [74; 101; 102; 101].

Lemma hmac_rfc2104_witness :
  (exists w', @hmac_session zero_mallocs no_pkey EVP_sha256 (Some jefe) 4 [hmac_message; []] world0 =
    (Some (Some [hmac_vector; rfc2104_hmac (evp_hash EVP_sha256) 64 jefe []]), w') /\ live w' = 0) /\
  exists w', @HMAC zero_mallocs no_pkey (Some EVP_sha256) (Some jefe) 4 (concat hmac_message) true world0 =
    (Some (Some (hmac_vector, 32)), w') /\ live w' = 0.
Proof.
  destruct (@hmac_rfc2104 zero_mallocs no_pkey _ EVP_sha256 (Some jefe) 4 jefe [hmac_message; []] (concat hmac_message) world0)
    as [(o1 & w1 & E1 & Hl1 & _) (o2 & w2 & E2 & Hl2 & _)];
    [reflexivity|done|by repeat constructor|repeat constructor; done|by repeat constructor|done|].
  split.
  - exists w1. split; [|exact Hl1].
    assert (fst (@hmac_session zero_mallocs no_pkey EVP_sha256 (Some jefe) 4 [hmac_message; []] world0) =
      Some (Some [hmac_vector; rfc2104_hmac (evp_hash EVP_sha256) 64 jefe []])) as Ho by (vm_compute; reflexivity).
    rewrite E1 in Ho. injection Ho as ->. exact E1.
  - exists w2. split; [|exact Hl2].
    assert (fst (@HMAC zero_mallocs no_pkey (Some EVP_sha256) (Some jefe) 4 (concat hmac_message) true world0) =
      Some (Some (hmac_vector, 32))) as Ho by (vm_compute; reflexivity).
    rewrite E2 in Ho. injection Ho as ->. exact E2.
Defined.

(** RFC 5869, test case 1, with a byte behind the output. *)
Definition hkdf_vector : list Z :=
  [0x3c; 0xb2; 0x5f; 0x25; 0xfa; 0xac; 0xd5; 0x7a; 0x90; 0x43; 0x4f; 0x64; 0xd0; 0x36; 0x2f; 0x2a; 0x2d; 0x2d; 0x0a;
   0x90; 0xcf; 0x1a; 0x5a; 0x4c; 0x5d; 0xb0; 0x2d; 0x56; 0xec; 0xc4; 0xc5; 0xbf; 0x34; 0x00; 0x72; 0x08; 0xd5; 0xb8;
   0x87; 0x18; 0x58; 0x65].

Lemma hkdf_rfc5869_witness :
  exists w', @HKDF zero_mallocs no_pkey (Some (replicate 42 0 ++ [7])) 42 (Some EVP_sha256) (replicate 22 0x0b)
    (Some [0; 1; 2; 3; 4; 5; 6; 7; 8; 9; 10; 11; 12]) 13
    [0xf0; 0xf1; 0xf2; 0xf3; 0xf4; 0xf5; 0xf6; 0xf7; 0xf8; 0xf9] world0 = (Some (1, Some (hkdf_vector ++ [7])), w') /\ live w' = 0.
Proof.
  destruct (@hkdf_rfc5869 zero_mallocs no_pkey _ EVP_sha256 (Some (replicate 42 0 ++ [7])) 42 (replicate 22 0x0b)
    (Some [0; 1; 2; 3; 4; 5; 6; 7; 8; 9; 10; 11; 12]) 13 [0; 1; 2; 3; 4; 5; 6; 7; 8; 9; 10; 11; 12]
    [0xf0; 0xf1; 0xf2; 0xf3; 0xf4; 0xf5; 0xf6; 0xf7; 0xf8; 0xf9] world0) as (r & out & w' & E & H);
    [reflexivity|done|by repeat constructor|by repeat constructor|done|by repeat constructor|done|done|done|].
  exists w'. split.
  - match type of E with ?lhs = _ => assert (fst lhs = Some (1, Some (hkdf_vector ++ [7]))) as Ho by (vm_compute; reflexivity) end.
    rewrite E in Ho. injection Ho as -> ->. exact E.
  - destruct H as [[[Hl _] _]|(_ & _ & _ & Hl & _)]; exact Hl.
Defined.

(** RFC 6070: "password", "salt", two iterations, with SHA-1. *)
Definition pbkdf2_vector : list Z :=
  [0xea; 0x6c; 0x01; 0x4d; 0xc7; 0x2d; 0x6f; 0x8c; 0xcd; 0x1e; 0xd9; 0x2a; 0xce; 0x1d; 0x41; 0xf0; 0xd8; 0xde; 0x89; 0x57].

Lemma pbkdf2_rfc8018_witness :
  exists w', @PKCS5_PBKDF2_HMAC zero_mallocs no_pkey (Some [112; 97; 115; 115; 119; 111; 114; 100]) 8 [115; 97; 108; 116] 2
    (Some EVP_sha1) 20 (Some (replicate 20 0)) world0 = (Some (1, Some pbkdf2_vector), w') /\ live w' = 0.
Proof.
  destruct (@pbkdf2_rfc8018 zero_mallocs no_pkey _ EVP_sha1 (Some [112; 97; 115; 115; 119; 111; 114; 100]) 8
    [112; 97; 115; 115; 119; 111; 114; 100] [115; 97; 108; 116] 2 20 (Some (replicate 20 0)) world0) as (r & out & w' & E & Hl & _);
    [reflexivity|done|by repeat constructor|by repeat constructor|done|done|done|done|].
  exists w'. split; [|exact Hl].
  match type of E with ?lhs = _ => assert (fst lhs = Some (1, Some pbkdf2_vector)) as Ho by (vm_compute; reflexivity) end.
  rewrite E in Ho. injection Ho as -> ->. exact E.
Defined.
