(* ===== verification/TlsCbc.v ===== *)
(** crypto/cipher_extra/tls_cbc.c: the constant-time half of a TLS CBC record:
    the padding is removed, the MAC is copied out and the record's HMAC-SHA1 is
    computed without a branch or an address that depends on the length of the
    padding. [None] is undefined behaviour: an access out of bounds or a failed
    assertion. *)

From S2P Require Import Prelude CryptoInternal Md32 Buf Sha1 Evp.

(** The result, [*out_padding_ok] and [*out_len]. [block_size] is not used. *)
Fixpoint check_padding (count : nat) (i : Z) (in_ : list Z) (in_len padding_length good : Z) : option Z :=
  match count with
  | O => Some good
  | S count =>
      let mask := constant_time_ge_8 padding_length i in
      b ← in_ !! Z.to_nat (u64 (u64 (in_len - 1) - i));
      let good := Z.land good (u64 (Z.lnot (Z.land mask (Z.lxor padding_length b)))) in
      check_padding count (i + 1) in_ in_len padding_length good
  end.

Definition EVP_tls_cbc_remove_padding (in_ : list Z) (in_len block_size mac_size : Z) : option (Z * Z * Z) :=
  let overhead := u64 (1 + mac_size) in
  if in_len <? overhead then Some (0, 0, 0)
  else
    padding_length ← in_ !! Z.to_nat (u64 (in_len - 1));
    let good := constant_time_ge_w in_len (u64 (overhead + padding_length)) in
    let to_check := 256 in
    let to_check := if in_len <? to_check then in_len else to_check in
    good ← check_padding (Z.to_nat to_check) 0 in_ in_len padding_length good;
    let good := constant_time_eq_w 0xff (Z.land good 0xff) in
    let padding_length := Z.land good (u64 (padding_length + 1)) in
    Some (1, good, u64 (in_len - padding_length)).

(** The first loop of [EVP_tls_cbc_copy_mac], at [i] and [j]: the MAC lands in
    [rotated_mac] at a rotation that is returned with it. *)
Fixpoint copy_mac_scan (count : nat) (i j : Z) (in_ : list Z) (md_size mac_start mac_end : Z)
    (rotated_mac : list Z) (rotate_offset mac_started : Z) : option (list Z * Z) :=
  match count with
  | O => Some (rotated_mac, rotate_offset)
  | S count =>
      let j := if md_size <=? j then u64 (j - md_size) else j in
      let is_mac_start := constant_time_eq_w i mac_start in
      let mac_started := u8 (Z.lor mac_started is_mac_start) in
      let mac_ended := constant_time_ge_8 i mac_end in
      b ← in_ !! Z.to_nat i;
      r ← rotated_mac !! Z.to_nat j;
      let r := u8 (Z.lor r (Z.land (Z.land b mac_started) (Z.lnot mac_ended))) in
      let rotated_mac := <[Z.to_nat j := r]> rotated_mac in
      let rotate_offset := Z.lor rotate_offset (Z.land j is_mac_start) in
      copy_mac_scan count (u64 (i + 1)) (u64 (j + 1)) in_ md_size mac_start mac_end rotated_mac rotate_offset mac_started
  end.

(** One pass over the MAC, writing [rotated_mac_tmp] from index [i] on. *)
Fixpoint rotate_pass (count : nat) (i j md_size skip_rotate : Z) (rotated_mac : list Z) : option (list Z) :=
  match count with
  | O => Some []
  | S count =>
      let j := if md_size <=? j then u64 (j - md_size) else j in
      a ← rotated_mac !! Z.to_nat i;
      b ← rotated_mac !! Z.to_nat j;
      rest ← rotate_pass count (i + 1) (j + 1) md_size skip_rotate rotated_mac;
      Some (constant_time_select_8 skip_rotate a b :: rest)
  end.

(** One pass for each bit of [md_size]. *)
Fixpoint rotate_mac (fuel : nat) (offset rotate_offset md_size : Z) (rotated_mac : list Z) : option (list Z) :=
  if offset <? md_size then
    match fuel with
    | O => None
    | S fuel =>
        let skip_rotate := u8 (u64 (Z.land rotate_offset 1 - 1)) in
        rotated_mac ← rotate_pass (Z.to_nat md_size) 0 offset md_size skip_rotate rotated_mac;
        rotate_mac fuel (u64 (Z.shiftl offset 1)) (Z.shiftr rotate_offset 1) md_size rotated_mac
    end
  else Some rotated_mac.

(** What is written to [out]. *)
Definition EVP_tls_cbc_copy_mac (md_size : Z) (in_ : list Z) (in_len orig_len : Z) : option (list Z) :=
  let mac_end := in_len in
  let mac_start := u64 (mac_end - md_size) in
  if (in_len <=? orig_len) && (md_size <=? in_len) && (md_size <=? EVP_MAX_MD_SIZE) && (0 <? md_size) then
    let scan_start := if u64 (md_size + 255 + 1) <? orig_len then u64 (orig_len - u64 (md_size + 255 + 1)) else 0 in
    let rotated_mac := replicate (Z.to_nat md_size) 0 in
    '(rotated_mac, rotate_offset) ←
      copy_mac_scan (Z.to_nat (orig_len - scan_start)) scan_start 0 in_ md_size mac_start mac_end rotated_mac 0 0;
    rotate_mac 7 1 rotate_offset md_size rotated_mac
  else None.

(** * HMAC-SHA1 of a record *)

(** [block] for block [i], and the next [input_idx]. *)
Definition fill_block (ctx : md32_ctx) (in_ : list Z) (len max_len i input_idx : Z) (block : list Z) :
    option (list Z * Z) :=
  '(block, block_start) ←
    (if i =? 0 then
       bs ← load_bytes (Some (Md32.data ctx)) 0 (num ctx);
       block ← mjoin (store_bytes (Some block) 0 bs);
       Some (block, num ctx)
     else Some (block, 0));
  block ←
    (if input_idx <? max_len then
       let to_copy := u64 (SHA_CBLOCK - block_start) in
       let to_copy := if u64 (max_len - input_idx) <? to_copy then u64 (max_len - input_idx) else to_copy in
       bs ← load_bytes (Some in_) input_idx to_copy;
       mjoin (store_bytes (Some block) block_start bs)
     else Some block);
  let block := imap (fun j b =>
    let j := Z.of_nat j in
    if j <? block_start then b
    else
      let idx := u64 (u64 (input_idx + j) - block_start) in
      let is_in_bounds := constant_time_lt_8 idx (value_barrier_w len) in
      let is_padding_byte := constant_time_eq_8 idx (value_barrier_w len) in
      let b := Z.land b is_in_bounds in
      Z.lor b (Z.land 0x80 is_padding_byte)) block in
  Some (block, u64 (input_idx + u64 (SHA_CBLOCK - block_start))).

(** The last four bytes of the last block. *)
Definition or_length (block : list Z) (is_last_block : Z) (length_bytes : list Z) : list Z :=
  let n := Z.to_nat (SHA_CBLOCK - 4) in
  take n block ++ zip_with (fun b l => u8 (Z.lor b (Z.land is_last_block l))) (drop n block) length_bytes.

(** The blocks from number [i] on; the result and the context. *)
Fixpoint secret_blocks (count : nat) (i : Z) (ctx : md32_ctx) (in_ : list Z) (len max_len last_block : Z)
    (length_bytes : list Z) (block result : list Z) (input_idx : Z) : option (list Z * md32_ctx) :=
  match count with
  | O => Some (result, ctx)
  | S count =>
      '(block, input_idx) ← fill_block ctx in_ len max_len i input_idx block;
      let is_last_block := constant_time_eq_w i last_block in
      let block := or_length block is_last_block length_bytes in
      let ctx := SHA1_Transform ctx block in
      let result := zip_with (fun r x => u32 (Z.lor r (Z.land is_last_block x))) result (h ctx) in
      secret_blocks count (i + 1) ctx in_ len max_len last_block length_bytes block result input_idx
  end.

(** The result, what is written to [out], and the context. *)
Definition EVP_sha1_final_with_secret_suffix (ctx : md32_ctx) (in_ : list Z) (len max_len : Z) :
    option (Z * list Z * md32_ctx) :=
  let max_len_bits := u64 (Z.shiftl max_len 3) in
  if negb (Nh ctx =? 0) || negb (Z.shiftr max_len_bits 3 =? max_len) ||
     (u64 (Nl ctx + max_len_bits) <? max_len_bits) || (2 ^ 32 - 1 <? u64 (Nl ctx + max_len_bits))
  then Some (0, [], ctx)
  else
    let num_blocks := Z.shiftr (u64 (num ctx + len + 1 + 8 + SHA_CBLOCK - 1)) 6 in
    let last_block := u64 (num_blocks - 1) in
    let max_blocks := Z.shiftr (u64 (num ctx + max_len + 1 + 8 + SHA_CBLOCK - 1)) 6 in
    let total_bits := u64 (Nl ctx + u64 (Z.shiftl len 3)) in
    let length_bytes := [u8 (Z.shiftr total_bits 24); u8 (Z.shiftr total_bits 16); u8 (Z.shiftr total_bits 8); u8 total_bits] in
    '(result, ctx) ← secret_blocks (Z.to_nat max_blocks) 0 ctx in_ len max_len last_block length_bytes
      (replicate (Z.to_nat SHA_CBLOCK) 0) (replicate 5 0) 0;
    Some (1, concat (map CRYPTO_store_u32_be result), ctx).

Definition EVP_tls_cbc_record_digest_supported (md : evp_md) : bool := bool_decide (md = EVP_sha1).

(** The result, what is written to [md_out], and [*md_out_size]. *)
Definition EVP_tls_cbc_digest_record (md : evp_md) (header data : list Z)
    (data_size data_plus_mac_plus_padding_size : Z) (mac_secret : list Z) : option (Z * list Z * Z) :=
  let mac_secret_length := blen mac_secret in
  if negb (bool_decide (md = EVP_sha1)) then None
  else if SHA_CBLOCK <? mac_secret_length then None
  else
    let hmac_pad := mac_secret ++ replicate (Z.to_nat (SHA_CBLOCK - mac_secret_length)) 0 in
    let hmac_pad := map (fun b => Z.lxor b 0x36) hmac_pad in
    let ctx := SHA1_Init in
    let ctx := SHA1_Update ctx hmac_pad in
    hd ← load_bytes (Some header) 0 13;
    let ctx := SHA1_Update ctx hd in
    let min_data_size :=
      if SHA_DIGEST_LENGTH + 256 <? data_plus_mac_plus_padding_size
      then u64 (u64 (data_plus_mac_plus_padding_size - SHA_DIGEST_LENGTH) - 256) else 0 in
    bs ← load_bytes (Some data) 0 min_data_size;
    let ctx := SHA1_Update ctx bs in
    '(r, mac_out, _) ← EVP_sha1_final_with_secret_suffix ctx (drop (Z.to_nat min_data_size) data)
      (u64 (data_size - min_data_size)) (u64 (data_plus_mac_plus_padding_size - min_data_size));
    if r =? 0 then Some (0, [], 0)
    else
      let ctx := SHA1_Init in
      let hmac_pad := map (fun b => Z.lxor b 0x6a) hmac_pad in
      let ctx := SHA1_Update ctx hmac_pad in
      let ctx := SHA1_Update ctx mac_out in
      let '(md_out, ctx) := SHA1_Final ctx in
      Some (1, md_out, SHA_DIGEST_LENGTH).
