(* ===== verification/TlsCbcSpec.v ===== *)
(** The constant-time half of a TLS CBC record, piece by piece: the masks decide
    the padding, the rotated scan collects the MAC, and the blocks hashed are
    those of the padded message. *)

From S2P Require Import Prelude CryptoInternal Md32 HashSpec Buf Sha1 Evp TlsCbc.

(** * Padding *)

(** The low byte of the accumulated mask is all ones. *)
Definition full8 (g : Z) : bool := u8 g =? 255.

Lemma u8_land a b : u8 (Z.land a b) = Z.land (u8 a) (u8 b).
Proof.
  apply Z.bits_inj'. intros i Hi. rewrite Z.land_spec, !testbit_wrap, Z.land_spec by lia. by destruct (i <? 8).
Qed.

Lemma land_255 x y : is_byte x -> is_byte y -> (Z.land x y =? 255) = (x =? 255) && (y =? 255).
Proof.
  intros Hx Hy. apply eqb_true_iff.
  refine (forall_bytes (fun y => eqb (Z.land x y =? 255) ((x =? 255) && (y =? 255))) _ y Hy).
  refine (forall_bytes (fun x => forallb (fun y => eqb (Z.land x y =? 255) ((x =? 255) && (y =? 255))) all_bytes) _ x Hx).
  vm_compute. done.
Qed.

Lemma full8_land a b : full8 (Z.land a b) = full8 a && full8 b.
Proof. unfold full8. rewrite u8_land. apply land_255; apply u8_byte. Qed.

Lemma full8_lnot v : is_byte v -> full8 (u64 (Z.lnot v)) = (v =? 0).
Proof.
  intros Hv. apply eqb_true_iff. refine (forall_bytes (fun v => eqb (full8 (u64 (Z.lnot v))) (v =? 0)) _ v Hv).
  vm_compute. done.
Qed.

Lemma full8_mask c : full8 (mask_w c) = c.
Proof. by destruct c. Qed.

Lemma land_mask_8 c b : is_byte b -> Z.land (mask_8 c) b = if c then b else 0.
Proof. intros. destruct c; [by apply land_all_ones_8|done]. Qed.

Lemma byte_in_64 b : is_byte b -> in_word 64 b.
Proof. by apply in_word_le. Qed.

Lemma constant_time_ge_8_spec a b : in_word 64 a -> in_word 64 b -> constant_time_ge_8 a b = mask_8 (b <=? a).
Proof. intros. unfold constant_time_ge_8. by rewrite constant_time_ge_w_spec, u8_mask_w. Qed.

Lemma lookup_nth (l : list Z) i : (i < length l)%nat -> l !! i = Some (nth i l 0).
Proof. revert i. induction l as [|x l IH]; intros [|i] Hi; cbn in *; [lia..|done|]. apply IH. lia. Qed.

Lemma nth_is_byte (l : list Z) i : bytes l -> is_byte (nth i l 0).
Proof.
  intros Hl. destruct (nth_in_or_default i l 0) as [Hin| ->]; [|done]. by apply Forall_forall with (1 := Hl), list_elem_of_In.
Qed.

Lemma check_padding_run in_ p count : forall i good,
  bytes in_ -> is_byte p -> blen in_ < 2 ^ 63 -> 0 <= i -> i + Z.of_nat count <= blen in_ -> exists g,
  check_padding count i in_ (blen in_) p good = Some g /\
  (full8 g = true <-> full8 good = true /\
     forall k, i <= k < i + Z.of_nat count -> k <= p -> nth (Z.to_nat (blen in_ - 1 - k)) in_ 0 = p).
Proof.
  induction count as [|count IH]; intros i good Hb Hp Hl Hi Hc; cbn [check_padding].
  - exists good. split; [done|]. split; [|tauto]. intros Hg. split; [done|]. lia.
  - rewrite (wrap_small 64 (blen in_ - 1)), (wrap_small 64 (blen in_ - 1 - i)) by (split; pow2; lia).
    rewrite lookup_nth by (unfold blen in *; lia). cbn [mbind option_bind].
    set (b := nth _ in_ 0). pose proof (nth_is_byte in_ (Z.to_nat (blen in_ - 1 - i)) Hb) as Hbb. fold b in Hbb.
    rewrite constant_time_ge_8_spec by (destruct Hp; split; pow2; lia).
    assert (is_byte (Z.lxor p b)) as Hx by (by apply lxor_range). rewrite land_mask_8 by done.
    destruct (IH (i + 1) (Z.land good (u64 (Z.lnot (if i <=? p then Z.lxor p b else 0)))) Hb Hp Hl ltac:(lia) ltac:(lia))
      as (g & E & Hg). exists g. split; [done|]. rewrite Hg, full8_land, andb_true_iff.
    assert (full8 (u64 (Z.lnot (if i <=? p then Z.lxor p b else 0))) = true <-> (i <= p -> b = p)) as ->.
    { rewrite full8_lnot by (by destruct (i <=? p)). rewrite Z.eqb_eq. destruct (Z.leb_spec i p).
      - rewrite Z.lxor_eq_0_iff. split; [intros -> _|intros Hq]; [done|symmetry; apply Hq; lia].
      - split; [lia|done]. }
    split.
    + intros [[Hgood Hi1] Hk]. split; [done|]. intros k Hk1 Hk2.
      destruct (decide (k = i)) as [->|]; [by apply Hi1|]. apply Hk; lia.
    + intros [Hgood Hk]. split_and!; [done| |].
      * intros Hip. apply Hk; lia.
      * intros k Hk1 Hk2. apply Hk; lia.
Qed.

(** The record is data, padding and the padding's length, [p + 1] times [p]. *)
Definition tls_padded (in_ : list Z) (mac_size : Z) (body : list Z) : Prop :=
  exists p, is_byte p /\ in_ = body ++ replicate (Z.to_nat (p + 1)) p /\ mac_size <= blen body.

(** The padding is that of the last byte. *)
Lemma tls_padded_last in_ mac_size body :
  tls_padded in_ mac_size body ->
  exists p, nth (length in_ - 1) in_ 0 = p /\ is_byte p /\ in_ = body ++ replicate (Z.to_nat (p + 1)) p /\
    mac_size <= blen body /\ blen in_ = blen body + p + 1.
Proof.
  intros (p & Hp & -> & Hm). exists p. destruct Hp as [Hp0 Hp1]. split_and!; try done.
  - rewrite app_nth2 by (rewrite length_app, length_replicate; lia).
    rewrite nth_lookup, lookup_replicate_2; [done|]. rewrite length_app, length_replicate. lia.
  - rewrite blen_app, blen_replicate; lia.
Qed.

Lemma tail_replicate in_ p :
  0 <= p < blen in_ -> (forall k, 0 <= k <= p -> nth (Z.to_nat (blen in_ - 1 - k)) in_ 0 = p) ->
  in_ = take (Z.to_nat (blen in_ - (p + 1))) in_ ++ replicate (Z.to_nat (p + 1)) p.
Proof.
  intros Hp Hk. rewrite <-(take_drop (Z.to_nat (blen in_ - (p + 1))) in_) at 1. f_equal.
  assert (length (drop (Z.to_nat (blen in_ - (p + 1))) in_) = Z.to_nat (p + 1)) as Hl
    by (rewrite length_drop; unfold blen in *; lia).
  apply (nth_ext _ _ 0 0); [by rewrite length_replicate|]. rewrite Hl. intros n Hn.
  rewrite nth_skipn, (nth_lookup (replicate _ _)), lookup_replicate_2 by done. cbn [default]. etransitivity; [|apply (Hk (p - Z.of_nat n)); lia]. f_equal. unfold blen in *. lia.
Qed.

(** All of the padding is checked, and nothing but it decides. *)
Lemma remove_padding_run in_ block_size mac_size :
  bytes in_ -> blen in_ < 2 ^ 63 -> 0 <= mac_size < 2 ^ 32 ->
  let r := EVP_tls_cbc_remove_padding in_ (blen in_) block_size mac_size in
  (blen in_ < 1 + mac_size /\ r = Some (0, 0, 0)) \/
  (1 + mac_size <= blen in_ /\
    ((exists body, tls_padded in_ mac_size body /\ r = Some (1, CONSTTIME_TRUE_W, blen body)) \/
     (~ exists body, tls_padded in_ mac_size body) /\ r = Some (1, 0, blen in_))).
Proof.
  intros Hb Hl Hm r. unfold r, EVP_tls_cbc_remove_padding. rewrite (wrap_small 64 (1 + mac_size)) by (split; pow2; lia).
  destruct (Z.ltb_spec (blen in_) (1 + mac_size)) as [Hs|Hs]; [by left|right]. split; [done|].
  rewrite (wrap_small 64 (blen in_ - 1)) by (split; pow2; lia). rewrite lookup_nth by (unfold blen in *; lia).
  cbn [mbind option_bind]. set (p := nth _ in_ 0). pose proof (nth_is_byte in_ (Z.to_nat (blen in_ - 1)) Hb) as Hp. fold p in Hp.
  assert (0 <= p < 256) as Hp1 by apply Hp.
  rewrite !(wrap_small 64 (_ + p)), (wrap_small 64 (p + 1)) by (split; pow2; lia).
  rewrite constant_time_ge_w_spec by (split; pow2; lia).
  set (to_check := if blen in_ <? 256 then blen in_ else 256).
  assert (to_check = Z.min (blen in_) 256) as Ht by (unfold to_check; zcases; lia).
  destruct (check_padding_run in_ p (Z.to_nat to_check) 0 (mask_w (1 + mac_size + p <=? blen in_)) Hb Hp Hl) as (g & -> & Hg); [lia..|].
  cbn [mbind option_bind]. rewrite full8_mask, Z.leb_le in Hg. change 255 with (Z.ones 8). rewrite land_ones_wrap by lia. change (Z.ones 8) with 255.
  rewrite constant_time_eq_w_spec by (done || (apply byte_in_64, u8_byte)).
  rewrite (Z.eqb_sym 255). fold (full8 g).
  assert (nth (length in_ - 1) in_ 0 = p) as Hlast by (unfold p; f_equal; unfold blen; lia).
  destruct (full8 g).
  - left. destruct (proj1 Hg eq_refl) as [Hfit Hk]. exists (take (Z.to_nat (blen in_ - (p + 1))) in_). split.
    + exists p. split_and!; [done|apply tail_replicate; [lia|intros; apply Hk; lia]|]. rewrite blen_take; lia.
    + rewrite land_all_ones_64 by (split; pow2; lia). rewrite wrap_small by (split; pow2; lia). by rewrite blen_take by lia.
  - right. cbn [mask_w]. change CONSTTIME_FALSE_W with 0. rewrite Z.land_0_l, Z.sub_0_r, wrap_small by (split; pow2; lia).
    split; [|done]. intros (body & Hbody). apply tls_padded_last in Hbody as (q & Hq & _ & Hin & Hmac & Hlen).
    rewrite Hlast in Hq. subst q. enough (false = true) by done. apply Hg. split; [lia|].
    intros k Hk Hkp. rewrite Hin. rewrite app_nth2 by (rewrite <-Hin; unfold blen in *; lia).
    rewrite nth_lookup, lookup_replicate_2; [done|]. rewrite <-Hin. unfold blen in *. lia.
Qed.

(** * The MAC *)

(** Where index [k] of the rotated MAC comes from, when the scan starts at [s]
    and the MAC at [ms]. *)
Definition slot (s ms md k : Z) : Z := ms + (k - (ms - s)) mod md.

Lemma slot_spec s ms md k : 0 <= k < md -> ms <= slot s ms md k < ms + md /\ (slot s ms md k - s) mod md = k.
Proof.
  intros Hk. unfold slot. pose proof (Z.mod_pos_bound (k - (ms - s)) md). split; [lia|].
  replace (ms + (k - (ms - s)) mod md - s) with ((k - (ms - s)) mod md + (ms - s)) by lia.
  rewrite Z.add_mod_idemp_l by lia. replace (k - (ms - s) + (ms - s)) with k by lia. apply Z.mod_small. lia.
Qed.

Lemma slot_at s ms md i : 0 < md -> ms <= i < ms + md -> slot s ms md ((i - s) mod md) = i.
Proof.
  intros Hm Hi. unfold slot. rewrite Zminus_mod_idemp_l. replace (i - s - (ms - s)) with (i - ms) by lia.
  rewrite Z.mod_small; lia.
Qed.

(** What has been collected before index [i]. *)
Definition collected (in_ : list Z) (s ms md i : Z) (rot : list Z) : Prop :=
  blen rot = md /\
  forall k, 0 <= k < md -> nth (Z.to_nat k) rot 0 =
    if slot s ms md k <? i then nth (Z.to_nat (slot s ms md k)) in_ 0 else 0.

(** [j], reduced once, is the distance from the start of the scan modulo [md]. *)
Definition tracks (md j d : Z) : Prop := 0 <= j <= md /\ (if md <=? j then j - md else j) = d mod md.

Lemma tracks_step md j d : 0 < md -> tracks md j d -> tracks md ((if md <=? j then j - md else j) + 1) (d + 1).
Proof.
  intros Hm [Hj E]. rewrite E. pose proof (Z.mod_pos_bound d md Hm). split; [lia|].
  rewrite <-(Z.add_mod_idemp_l d 1 md) by lia. zcases.
  - replace (d mod md + 1) with md by lia. rewrite Z.mod_same; lia.
  - rewrite (Z.mod_small (d mod md + 1)); lia.
Qed.

Lemma nth_list_insert (l : list Z) i j x : (i < length l)%nat ->
  nth j (<[i := x]> l) 0 = if decide (j = i) then x else nth j l 0.
Proof.
  intros Hi. rewrite !nth_lookup. destruct (decide (j = i)) as [->|Hne].
  - by rewrite list_lookup_insert_eq.
  - by rewrite list_lookup_insert_ne.
Qed.

Lemma or_collected r b (started ended : bool) :
  is_byte r -> is_byte b ->
  u8 (Z.lor r (Z.land (Z.land b (mask_8 started)) (Z.lnot (mask_8 ended)))) =
  if started && negb ended then Z.lor r b else r.
Proof.
  intros Hr Hb. assert (Z.land b (mask_8 started) = if started then b else 0) as ->
    by (rewrite Z.land_comm; by apply land_mask_8).
  destruct started; cbn [andb]; [|by rewrite Z.land_0_l, Z.lor_0_r, wrap_small].
  destruct ended; cbn [negb mask_8].
  - change CONSTTIME_TRUE_8 with (Z.ones 8). change (Z.lnot (Z.ones 8)) with (-256).
    assert (Z.land b (-256) = 0) as ->; [|by rewrite Z.lor_0_r, wrap_small].
    apply Z.eqb_eq. refine (forall_bytes (fun b => Z.land b (-256) =? 0) _ b Hb). by vm_compute.
  - change (Z.lnot CONSTTIME_FALSE_8) with (-1). rewrite Z.land_m1_r. apply wrap_small. by apply lor_range.
Qed.

Section CopyMac.
Context (in_ : list Z) (s ms md : Z).
Hypothesis in_bytes : bytes in_.
Hypothesis in_len : blen in_ < 2 ^ 63.
Hypothesis bounds : 0 <= s <= ms.
Hypothesis md_pos : 0 < md.
Hypothesis mac_fits : ms + md <= blen in_.

Lemma collected_step i rot : s <= i -> collected in_ s ms md i rot ->
  let k := (i - s) mod md in let r := nth (Z.to_nat k) rot 0 in
  collected in_ s ms md (i + 1)
    (<[Z.to_nat k := if (ms <? i + 1) && negb (ms + md <=? i) then Z.lor r (nth (Z.to_nat i) in_ 0) else r]> rot).
Proof.
  intros Hi [Hl Hc] k r. pose proof (Z.mod_pos_bound (i - s) md md_pos) as Hk. fold k in Hk.
  split; [unfold blen in *; by rewrite length_insert|]. intros k' Hk'.
  rewrite nth_list_insert by (unfold blen in *; lia). destruct (slot_spec s ms md k' Hk') as [Hs1 Hs2].
  destruct (decide (Z.to_nat k' = Z.to_nat k)) as [E|E].
  - assert (k' = k) as -> by lia. unfold r. rewrite (Hc k Hk').
    destruct (Z.ltb_spec ms (i + 1)) as [H1|H1]; cbn [andb]; [|by rewrite !(proj2 (Z.ltb_ge _ _)) by lia].
    destruct (Z.leb_spec (ms + md) i) as [H2|H2]; cbn [negb]; [by rewrite !(proj2 (Z.ltb_lt _ _)) by lia|].
    assert (slot s ms md k = i) as -> by (apply slot_at; lia).
    by rewrite Z.ltb_irrefl, Z.lor_0_l, (proj2 (Z.ltb_lt _ _)) by lia.
  - rewrite (Hc k' Hk'). assert (slot s ms md k' <> i) by (intros F; apply E; rewrite F in Hs2; by rewrite <-Hs2).
    by replace (slot s ms md k' <? i + 1) with (slot s ms md k' <? i) by (zcases; lia).
Qed.

Lemma copy_mac_scan_run count : forall i j rot started ro,
  s <= i -> i + Z.of_nat count <= blen in_ -> tracks md j (i - s) -> collected in_ s ms md i rot -> bytes rot ->
  started = mask_8 (ms <? i) -> ro = (if ms <? i then (ms - s) mod md else 0) -> exists rot',
  copy_mac_scan count i j in_ md ms (ms + md) rot ro started =
    Some (rot', if ms <? i + Z.of_nat count then (ms - s) mod md else 0) /\
  collected in_ s ms md (i + Z.of_nat count) rot'.
Proof.
  induction count as [|count IH]; intros i j rot started ro Hi Hc Hj Hcol Hb Hst Hro; cbn [copy_mac_scan].
  - rewrite Z.add_0_r. exists rot. by rewrite Hro.
  - pose proof (tracks_step md j (i - s) md_pos Hj) as Hj'. destruct Hj as [Hj Hjm].
    assert ((if md <=? j then u64 (j - md) else j) = (i - s) mod md) as ->.
    { rewrite <-Hjm. destruct (Z.leb_spec md j); [|done]. apply wrap_small. split; pow2; lia. }
    rewrite Hjm in Hj'. pose proof (Z.mod_pos_bound (i - s) md md_pos) as Hk. set (k := (i - s) mod md) in *.
    rewrite constant_time_eq_w_spec by (split; pow2; lia).
    rewrite constant_time_ge_8_spec by (split; pow2; lia).
    assert (u8 (Z.lor started (mask_w (i =? ms))) = mask_8 (ms <? i + 1)) as ->.
    { rewrite Hst. destruct (Z.ltb_spec ms i), (Z.eqb_spec i ms), (Z.ltb_spec ms (i + 1)); try lia; done. }
    pose proof (proj1 Hcol) as Hlen. rewrite (lookup_nth in_), (lookup_nth rot) by (unfold blen in *; lia).
    cbn [mbind option_bind].
    rewrite or_collected by (by apply nth_is_byte).
    assert (Z.lor ro (Z.land k (mask_w (i =? ms))) = if ms <? i + 1 then (ms - s) mod md else 0) as ->.
    { rewrite Hro. destruct (Z.ltb_spec ms i), (Z.eqb_spec i ms), (Z.ltb_spec ms (i + 1)); try lia.
      - by rewrite Z.land_0_r, Z.lor_0_r.
      - subst i. rewrite Z.lor_0_l, Z.land_comm. apply land_all_ones_64. split; pow2; lia.
      - by rewrite Z.land_0_r. }
    rewrite !wrap_small by (split; pow2; lia).
    pose proof (collected_step i rot Hi Hcol) as Hcol'. cbv zeta in Hcol'. fold k in Hcol'.
    set (rot1 := <[Z.to_nat k := _]> rot) in *.
    assert (bytes rot1) as Hb1.
    { apply Forall_insert; [done|]. destruct (_ && _); [apply lor_range; [done|..]|]; by apply nth_is_byte. }
    destruct (IH (i + 1) (k + 1) rot1 _ _ ltac:(lia) ltac:(lia) ltac:(by replace (i + 1 - s) with (i - s + 1) by lia)
      Hcol' Hb1 eq_refl eq_refl) as (rot' & E & Hr).
    exists rot'. replace (i + Z.of_nat (S count)) with (i + 1 + Z.of_nat count) by lia. done.
Qed.
End CopyMac.

(** Rotation to the left. *)
Definition rotl (md n : Z) (l : list Z) : list Z :=
  map (fun k => nth (Z.to_nat ((Z.of_nat k + n) mod md)) l 0) (seq 0 (Z.to_nat md)).

Lemma nth_rotl md n l k : 0 <= k < md -> nth (Z.to_nat k) (rotl md n l) 0 = nth (Z.to_nat ((k + n) mod md)) l 0.
Proof.
  intros Hk. unfold rotl. set (f := fun k : nat => _).
  rewrite (nth_indep _ 0 (f 0%nat)) by (rewrite length_map, length_seq; lia).
  rewrite map_nth, seq_nth by lia. unfold f. do 3 f_equal. lia.
Qed.

Lemma blen_rotl md n l : 0 <= md -> blen (rotl md n l) = md.
Proof. intros. unfold rotl, blen. rewrite length_map, length_seq. lia. Qed.

Lemma rotl_rotl md a b l : 0 < md -> rotl md a (rotl md b l) = rotl md (b + a) l.
Proof.
  intros Hm. unfold rotl at 1 3. apply map_ext_in. intros k Hk%in_seq.
  rewrite nth_rotl by (apply Z.mod_pos_bound; lia). rewrite Z.add_mod_idemp_l by lia. do 3 f_equal. lia.
Qed.

Lemma rotate_pass_run md off c l count : forall i j,
  0 < md -> blen l = md -> md < 2 ^ 63 -> bytes l -> 0 <= i -> i + Z.of_nat count <= md -> tracks md j (i + off) ->
  rotate_pass count i j md (mask_8 c) l =
    Some (map (fun k => if c then nth k l 0 else nth (Z.to_nat ((Z.of_nat k + off) mod md)) l 0) (seq (Z.to_nat i) count)).
Proof.
  induction count as [|count IH]; intros i j Hm Hl Hml Hb Hi Hc Hj; cbn [rotate_pass]; [done|].
  pose proof (tracks_step md j (i + off) Hm Hj) as Hj'. destruct Hj as [Hj Hjm].
  assert ((if md <=? j then u64 (j - md) else j) = (i + off) mod md) as ->.
  { rewrite <-Hjm. destruct (Z.leb_spec md j); [|done]. apply wrap_small. split; pow2; lia. }
  rewrite Hjm in Hj'. pose proof (Z.mod_pos_bound (i + off) md Hm).
  rewrite !lookup_nth by (unfold blen in *; lia). cbn [mbind option_bind].
  rewrite (IH (i + 1)) by (done || lia || by replace (i + 1 + off) with (i + off + 1) by lia). cbn [mbind option_bind seq map].
  rewrite constant_time_select_8_spec by (by apply nth_is_byte).
  replace (Z.to_nat (i + 1)) with (S (Z.to_nat i)) by lia. by rewrite Z2Nat.id by lia.
Qed.

(** The whole pass: nothing, or a rotation. *)
Lemma rotate_pass_all md off c l :
  0 <= off < md -> blen l = md -> md < 2 ^ 63 -> bytes l ->
  rotate_pass (Z.to_nat md) 0 off md (mask_8 c) l = Some (rotl md (if c then 0 else off) l).
Proof.
  intros Ho Hl Hml Hb. rewrite (rotate_pass_run md off); [|lia|done..|lia|lia|].
  - f_equal. apply map_ext_in. intros k Hk%in_seq. destruct c; [|done].
    rewrite Z.add_0_r, Z.mod_small, Nat2Z.id by lia. done.
  - split; [lia|]. rewrite Z.mod_small by lia. zcases; lia.
Qed.

Lemma rotl_bytes md n l : bytes l -> bytes (rotl md n l).
Proof. intros Hl. unfold rotl. apply Forall_forall. intros x (k & -> & _)%list_elem_of_fmap. by apply nth_is_byte. Qed.

(** One rotation for each bit of the offset. *)
Lemma rotate_mac_run md r l fuel : forall t : nat,
  (t + fuel = 7)%nat -> 0 <= r < md -> md <= 64 -> blen l = md -> bytes l ->
  rotate_mac fuel (2 ^ Z.of_nat t) (r / 2 ^ Z.of_nat t) md (rotl md (r mod 2 ^ Z.of_nat t) l) = Some (rotl md r l).
Proof.
  induction fuel as [|fuel IH]; intros t Ht Hr Hm Hl Hb; cbn [rotate_mac].
  - replace t with 7%nat by lia. change (2 ^ Z.of_nat 7) with 128. rewrite (proj2 (Z.ltb_ge _ _)) by lia.
    by rewrite Z.mod_small by lia.
  - set (off := 2 ^ Z.of_nat t). assert (0 < off) by (apply Z.pow_pos_nonneg; lia).
    destruct (Z.ltb_spec off md) as [Ho|Ho]; [|by rewrite Z.mod_small by lia].
    assert (u8 (u64 (Z.land (r / off) 1 - 1)) = mask_8 ((r / off) mod 2 =? 0)) as ->.
    { change 1 with (Z.ones 1) at 1. rewrite Z.land_ones by lia. change (2 ^ 1) with 2.
      pose proof (Z.mod_pos_bound (r / off) 2). assert ((r / off) mod 2 = 0 \/ (r / off) mod 2 = 1) as [-> | ->] by lia; done. }
    rewrite rotate_pass_all by (rewrite ?blen_rotl; (done || lia || (by apply rotl_bytes) || (pow2; lia))).
    cbn [mbind option_bind]. rewrite rotl_rotl by lia.
    specialize (IH (S t) ltac:(lia) Hr Hm Hl Hb). rewrite Nat2Z.inj_succ, Z.pow_succ_r in IH by lia. fold off in IH.
    rewrite Z.shiftl_mul_pow2, Z.shiftr_div_pow2, Z.div_div by lia. change (2 ^ 1) with 2.
    rewrite (wrap_small 64) by (split; pow2; lia). rewrite (Z.mul_comm off 2).
    rewrite (Z.mul_comm 2 off), Z.rem_mul_r in IH by lia. rewrite (Z.mul_comm off 2) in IH at 1 2.
    rewrite (Z.mul_comm off ((r / off) mod 2)) in IH.
    pose proof (Z.mod_pos_bound (r / off) 2). 
    assert ((r mod off + (if (r / off) mod 2 =? 0 then 0 else off)) = r mod off + (r / off) mod 2 * off) as ->; [|done].
    destruct (Z.eqb_spec ((r / off) mod 2) 0) as [->|]; [lia|]. assert ((r / off) mod 2 = 1) as -> by lia. lia.
Qed.

(** The MAC is copied out from wherever it is in the last [md + 256] bytes. *)
Lemma copy_mac_run in_ md in_len :
  bytes in_ -> blen in_ < 2 ^ 63 -> 0 < md <= 64 -> md <= in_len <= blen in_ -> blen in_ <= in_len + 256 ->
  EVP_tls_cbc_copy_mac md in_ in_len (blen in_) = Some (take (Z.to_nat md) (drop (Z.to_nat (in_len - md)) in_)).
Proof.
  intros Hb Hl Hm Hin Hwin. unfold EVP_tls_cbc_copy_mac, EVP_MAX_MD_SIZE.
  rewrite (wrap_small 64 (in_len - md)) by (split; pow2; lia).
  rewrite !(proj2 (Z.leb_le _ _)), (proj2 (Z.ltb_lt 0 md)) by lia. cbn [andb].
  rewrite (wrap_small 64 (md + 255 + 1)) by (split; pow2; lia).
  set (s := if md + 255 + 1 <? blen in_ then u64 (blen in_ - (md + 255 + 1)) else 0).
  assert (0 <= s <= in_len - md) as Hs.
  { unfold s. destruct (Z.ltb_spec (md + 255 + 1) (blen in_)); [|lia]. rewrite wrap_small by (split; pow2; lia). lia. }
  clearbody s. set (ms := in_len - md) in *. replace in_len with (ms + md) at 1 by (unfold ms; lia).
  destruct (copy_mac_scan_run in_ s ms md Hb Hl Hs ltac:(lia) ltac:(lia) (Z.to_nat (blen in_ - s)) s 0
    (replicate (Z.to_nat md) 0) 0 0) as (rot & E & Hr).
  - done.
  - lia.
  - split; [lia|]. rewrite Z.sub_diag, Z.mod_0_l by lia. by rewrite (proj2 (Z.leb_gt _ _)) by lia.
  - split; [apply blen_replicate; lia|]. intros k Hk. destruct (slot_spec s ms md k Hk) as [Hk1 _].
    rewrite (proj2 (Z.ltb_ge _ _)) by lia. rewrite nth_lookup, lookup_replicate_2; [done|lia].
  - by apply bytes_replicate.
  - by rewrite (proj2 (Z.ltb_ge _ _)) by lia.
  - by rewrite (proj2 (Z.ltb_ge _ _)) by lia.
  - rewrite E. cbn [mbind option_bind]. rewrite Z2Nat.id in * by lia. replace (s + (blen in_ - s)) with (blen in_) in * by lia.
    rewrite (proj2 (Z.ltb_lt ms _)) by lia. destruct Hr as [Hrl Hrk].
    set (r := (ms - s) mod md). pose proof (Z.mod_pos_bound (ms - s) md ltac:(lia)) as Hrb. fold r in Hrb.
    assert (bytes rot) as Hrot.
    { apply Forall_forall. intros x (k & Hk)%list_elem_of_lookup. pose proof (lookup_lt_Some _ _ _ Hk) as Hkl.
      rewrite lookup_nth in Hk by done. injection Hk as <-. rewrite <-(Nat2Z.id k), Hrk by (unfold blen in *; lia).
      destruct (slot s ms md (Z.of_nat k) <? blen in_); [by apply nth_is_byte|done]. }
    pose proof (rotate_mac_run md r rot 7 0 eq_refl Hrb ltac:(lia) Hrl Hrot) as H. change (2 ^ Z.of_nat 0) with 1 in H.
    rewrite Z.mod_1_r, Z.div_1_r in H. assert (rotl md 0 rot = rot) as E0.
    { apply (nth_ext _ _ 0 0); [pose proof (blen_rotl md 0 rot); unfold blen in *; lia|]. intros k Hk.
      rewrite <-(Nat2Z.id k). pose proof (blen_rotl md 0 rot). rewrite nth_rotl by (unfold blen in *; lia).
      rewrite Z.add_0_r, Z.mod_small by (unfold blen in *; lia). done. }
    rewrite E0 in H. rewrite H. f_equal.
    apply (nth_ext _ _ 0 0).
    { pose proof (blen_rotl md r rot). rewrite length_take, length_drop. unfold blen in *. lia. }
    intros k Hk. pose proof (blen_rotl md r rot). rewrite <-(Nat2Z.id k). rewrite nth_rotl by (unfold blen in *; lia).
    rewrite Hrk by (apply Z.mod_pos_bound; lia).
    assert (slot s ms md ((Z.of_nat k + r) mod md) = ms + Z.of_nat k) as ->.
    { unfold r. rewrite Z.add_mod_idemp_r by lia. replace (Z.of_nat k + (ms - s)) with (ms + Z.of_nat k - s) by lia.
      apply slot_at; unfold blen in *; lia. }
    rewrite (proj2 (Z.ltb_lt _ _)) by (unfold blen in *; lia).
    rewrite (nth_lookup (take _ _)), lookup_take_lt, <-nth_lookup, nth_skipn by (unfold blen in *; lia). f_equal. lia.
Qed.

(** * The blocks hashed *)

Lemma store_into buf off bs :
  0 <= off -> off + blen bs <= blen buf -> mjoin (store_bytes (Some buf) off bs) = Some (write_at off bs buf).
Proof.
  intros Ho Hb. unfold store_bytes. destruct (Z.eqb_spec (blen bs) 0) as [E|E]; cbn.
  - rewrite (blen_inv_nil bs E). unfold write_at. cbn [app]. rewrite blen_nil, Z.add_0_r. by rewrite take_drop.
  - by rewrite !(proj2 (Z.leb_le _ _)) by lia.
Qed.

Lemma load_at l off n : 0 <= off -> 0 <= n -> off + n <= blen l ->
  load_bytes (Some l) off n = Some (take (Z.to_nat n) (drop (Z.to_nat off) l)).
Proof.
  intros. unfold load_bytes. destruct (Z.eqb_spec n 0) as [->|]; [done|]. cbn.
  by rewrite !(proj2 (Z.leb_le _ _)) by lia.
Qed.

Lemma nth_write_at off bs buf j : 0 <= off -> off + blen bs <= blen buf -> 0 <= j ->
  nth (Z.to_nat j) (write_at off bs buf) 0 =
  if (off <=? j) && (j <? off + blen bs) then nth (Z.to_nat (j - off)) bs 0 else nth (Z.to_nat j) buf 0.
Proof.
  intros Ho Hb Hj. unfold write_at. pose proof (blen_nonneg bs).
  assert (length (take (Z.to_nat off) buf) = Z.to_nat off) as Hl by (rewrite length_take; unfold blen in *; lia).
  destruct (Z.leb_spec off j) as [H1|H1]; cbn [andb].
  - rewrite app_nth2, Hl by lia. destruct (Z.ltb_spec j (off + blen bs)).
    + rewrite app_nth1 by (unfold blen in *; lia). f_equal. lia.
    + rewrite app_nth2 by (unfold blen in *; lia). rewrite nth_skipn. f_equal. unfold blen in *. lia.
  - rewrite app_nth1 by lia. rewrite nth_lookup, lookup_take_lt, <-nth_lookup by lia. done.
Qed.

(** The bytes from [start] on, as far as there are any. *)
Definition cut (l : list Z) (start n : nat) : list Z := map (fun j => nth (start + j) l 0) (seq 0 n).

Lemma length_cut l start n : length (cut l start n) = n.
Proof. unfold cut. by rewrite length_map, length_seq. Qed.

Lemma nth_cut l start n j : (j < n)%nat -> nth j (cut l start n) 0 = nth (start + j) l 0.
Proof.
  intros Hj. unfold cut. set (f := fun j => nth (start + j) l 0).
  rewrite (nth_indep _ 0 (f 0%nat)) by (by rewrite length_map, length_seq). rewrite map_nth, seq_nth by done. done.
Qed.

Lemma cut_take_drop l start n : (start + n <= length l)%nat -> cut l start n = take n (drop start l).
Proof.
  intros Hl. apply (nth_ext _ _ 0 0); rewrite length_cut; [rewrite length_take, length_drop; lia|].
  intros j Hj. rewrite nth_cut by done. rewrite (nth_lookup (take _ _)), lookup_take_lt, <-nth_lookup, nth_skipn by done. done.
Qed.

Lemma constant_time_lt_8_spec a b : in_word 64 a -> in_word 64 b -> constant_time_lt_8 a b = mask_8 (a <? b).
Proof. intros. unfold constant_time_lt_8. by rewrite constant_time_lt_w_spec, u8_mask_w. Qed.

Lemma mask_byte idx len b : in_word 64 idx -> in_word 64 len -> is_byte b \/ len <= idx ->
  Z.lor (Z.land b (constant_time_lt_8 idx (value_barrier_w len)))
        (Z.land 0x80 (constant_time_eq_8 idx (value_barrier_w len))) =
  if idx <? len then b else if idx =? len then 0x80 else 0.
Proof.
  intros Hi Hl Hb. unfold value_barrier_w. rewrite constant_time_lt_8_spec, constant_time_eq_8_spec by done.
  rewrite (Z.land_comm b). destruct (Z.ltb_spec idx len), (Z.eqb_spec idx len); try lia.
  - rewrite land_mask_8 by (destruct Hb; [done|lia]). apply Z.lor_0_r.
  - done.
  - done.
Qed.

Section Suffix.
Context (ctx : md32_ctx) (rest in_ : list Z) (len max_len : Z).
Hypothesis num_rest : num ctx = blen rest.
Hypothesis data_rest : take (Z.to_nat (num ctx)) (Md32.data ctx) = rest.
Hypothesis data_len : blen (Md32.data ctx) = SHA_CBLOCK.
Hypothesis rest_len : blen rest < SHA_CBLOCK.
Hypothesis in_bytes : bytes in_.
Hypothesis lens : 0 <= len <= max_len /\ max_len <= blen in_.
Hypothesis max_small : max_len < 2 ^ 60.

Notation stream := (rest ++ take (Z.to_nat len) in_ ++ [0x80]).

(** The input index at the start of block [i]. *)
Definition input_at (i : Z) : Z := if i =? 0 then 0 else 64 * i - blen rest.

(** What a block has been filled with before the bytes beyond [len] are
    cleared. *)
Lemma fill_copy i block :
  0 <= i < 2 ^ 57 -> blen block = 64 -> let start := if i =? 0 then blen rest else 0 in exists block',
  (if i =? 0 then
     bs ← load_bytes (Some (Md32.data ctx)) 0 (num ctx);
     block ← mjoin (store_bytes (Some block) 0 bs);
     Some (block, num ctx)
   else Some (block, 0)) = Some (block', start) /\ blen block' = 64 /\
  (forall j, 0 <= j < start -> nth (Z.to_nat j) block' 0 = nth (Z.to_nat j) rest 0) /\
  exists block2,
  (if input_at i <? max_len then
     let to_copy := u64 (SHA_CBLOCK - start) in
     let to_copy := if u64 (max_len - input_at i) <? to_copy then u64 (max_len - input_at i) else to_copy in
     bs ← load_bytes (Some in_) (input_at i) to_copy;
     mjoin (store_bytes (Some block') start bs)
   else Some block') = Some block2 /\ blen block2 = 64 /\
  (forall j, 0 <= j < start -> nth (Z.to_nat j) block2 0 = nth (Z.to_nat j) rest 0) /\
  (forall j, start <= j < 64 -> input_at i + j - start < max_len ->
     nth (Z.to_nat j) block2 0 = nth (Z.to_nat (input_at i + j - start)) in_ 0).
Proof.
  intros Hi Hbl start. unfold SHA_CBLOCK in *. pose proof (blen_nonneg rest) as Hr.
  assert (0 <= start < 64) as Hst by (unfold start; zcases; lia).
  assert (exists block', (if i =? 0 then
     bs ← load_bytes (Some (Md32.data ctx)) 0 (num ctx);
     block ← mjoin (store_bytes (Some block) 0 bs);
     Some (block, num ctx)
   else Some (block, 0)) = Some (block', start) /\ blen block' = 64 /\
   (forall j, 0 <= j < start -> nth (Z.to_nat j) block' 0 = nth (Z.to_nat j) rest 0)) as (block' & E & Hl & Hj).
  { unfold start. destruct (Z.eqb_spec i 0) as [->|]; [|exists block; split_and!; [done|done|lia]].
    rewrite load_at by lia. cbn [mbind option_bind]. rewrite drop_0, data_rest.
    rewrite store_into by lia. cbn [mbind option_bind]. rewrite num_rest. eexists. split; [done|].
    split; [rewrite blen_write_at; lia|]. intros j Hj. rewrite nth_write_at by lia.
    rewrite (proj2 (Z.leb_le _ _)), (proj2 (Z.ltb_lt _ _)) by lia. cbn [andb]. f_equal. lia. }
  exists block'. split_and!; [done..|].
  assert (0 <= input_at i) as Hin by (unfold input_at; zcases; lia).
  destruct (Z.ltb_spec (input_at i) max_len) as [Hlt|Hge].
  - cbv zeta. rewrite !(wrap_small 64) by (split; pow2; lia).
    set (to_copy := if max_len - input_at i <? 64 - start then max_len - input_at i else 64 - start).
    assert (to_copy = Z.min (max_len - input_at i) (64 - start)) as Hto by (unfold to_copy; zcases; lia).
    rewrite load_at by lia. cbn [mbind option_bind]. set (bs := take _ _).
    assert (blen bs = to_copy) as Hbs by (unfold bs; rewrite blen_take; [done|rewrite blen_drop; lia]).
    rewrite store_into by lia. eexists. split; [done|]. split; [rewrite blen_write_at; lia|]. split.
    + intros j Hjs. rewrite nth_write_at by lia. rewrite (proj2 (Z.leb_gt _ _)) by lia. by apply Hj.
    + intros j Hj1 Hj2. rewrite nth_write_at by lia. rewrite (proj2 (Z.leb_le _ _)), (proj2 (Z.ltb_lt _ _)) by lia.
      cbn [andb]. unfold bs. rewrite nth_lookup, lookup_take_lt, <-nth_lookup, nth_skipn by lia. f_equal. lia.
  - exists block'. split_and!; [done..|]. lia.
Qed.

Lemma nth_stream p : 0 <= p ->
  nth (Z.to_nat p) stream 0 =
  if p <? blen rest then nth (Z.to_nat p) rest 0
  else if p - blen rest <? len then nth (Z.to_nat (p - blen rest)) in_ 0
  else if p - blen rest =? len then 0x80 else 0.
Proof.
  intros Hp. assert (length (take (Z.to_nat len) in_) = Z.to_nat len) as Hl by (rewrite length_take; unfold blen in *; lia).
  destruct (Z.ltb_spec p (blen rest)); [by rewrite app_nth1 by (unfold blen in *; lia)|].
  rewrite app_nth2 by (unfold blen in *; lia).
  destruct (Z.ltb_spec (p - blen rest) len).
  - rewrite app_nth1 by (unfold blen in *; lia). rewrite nth_lookup, lookup_take_lt, <-nth_lookup by (unfold blen in *; lia).
    f_equal. unfold blen in *. lia.
  - rewrite app_nth2 by (unfold blen in *; lia). rewrite Hl.
    destruct (Z.eqb_spec (p - blen rest) len).
    + by replace (Z.to_nat p - length rest - Z.to_nat len)%nat with 0%nat by (unfold blen in *; lia).
    + destruct (Z.to_nat p - length rest - Z.to_nat len)%nat as [|[|?]] eqn:E; [unfold blen in *; lia|done..].
Qed.

Lemma fill_block_run i block :
  0 <= i < 2 ^ 57 -> blen block = 64 ->
  fill_block ctx in_ len max_len i (input_at i) block = Some (cut stream (Z.to_nat (64 * i)) 64, input_at (i + 1)).
Proof.
  intros Hi Hbl. destruct (fill_copy i block Hi Hbl) as (block' & E1 & Hl1 & Hj1 & block2 & E2 & Hl2 & Hj2 & Hin2).
  unfold fill_block. rewrite E1. cbn [mbind option_bind] in E2 |- *. rewrite E2. cbn [mbind option_bind].
  set (start := if i =? 0 then blen rest else 0) in *. unfold SHA_CBLOCK in *. pose proof (blen_nonneg rest) as Hr.
  assert (0 <= start < 64 /\ 0 <= input_at i < 2 ^ 63 /\ input_at i - start = 64 * i - blen rest) as (Hst & Hin & Hd)
    by (unfold start, input_at; destruct (Z.eqb_spec i 0); pow2; lia).
  rewrite (wrap_small 64 (64 - start)), (wrap_small 64 (input_at i + _)) by (split; pow2; lia).
  assert (input_at (i + 1) = input_at i + (64 - start)) as ->
    by (unfold input_at at 1; rewrite (proj2 (Z.eqb_neq _ _)) by lia; lia).
  do 2 f_equal. apply (nth_ext _ _ 0 0); [rewrite length_imap, length_cut; unfold blen in *; lia|].
  rewrite length_imap. intros j Hj. assert (0 <= Z.of_nat j < 64) as Hjz by (unfold blen in *; lia).
  rewrite nth_cut by lia. rewrite nth_lookup, list_lookup_imap, lookup_nth by done. cbn [fmap option_fmap option_map default].
  replace (Z.to_nat (64 * i) + j)%nat with (Z.to_nat (64 * i + Z.of_nat j)) by lia. rewrite nth_stream by lia.
  destruct (Z.ltb_spec (Z.of_nat j) start) as [Hs|Hs].
  - assert (i = 0) as -> by (unfold start in Hs; destruct (Z.eqb_spec i 0); lia). unfold start in *. cbn in Hs.
    rewrite (proj2 (Z.ltb_lt _ _)) by lia. rewrite <-(Nat2Z.id j) at 1. rewrite Hj2 by (cbn; lia). f_equal.
  - rewrite (wrap_small 64 (input_at i + Z.of_nat j)), wrap_small by (split; pow2; lia).
    replace (64 * i + Z.of_nat j - blen rest) with (input_at i + Z.of_nat j - start) by lia.
    rewrite (proj2 (Z.ltb_ge (64 * i + Z.of_nat j) (blen rest))) by lia.
    set (idx := input_at i + Z.of_nat j - start) in *.
    destruct (Z.ltb_spec idx len) as [Hil|Hil].
    + rewrite mask_byte; [|split; pow2; lia..|].
      * rewrite (proj2 (Z.ltb_lt _ _)) by lia. rewrite <-(Nat2Z.id j). apply Hin2; unfold idx in *; lia.
      * left. rewrite <-(Nat2Z.id j). rewrite Hin2 by (unfold idx in *; lia). by apply nth_is_byte.
    + rewrite mask_byte; [|split; pow2; lia..|by right]. by rewrite (proj2 (Z.ltb_ge _ _)) by lia.
Qed.
End Suffix.

Definition sha1_iv : list Z := h SHA1_Init.
Notation sha1_seen := (md32_seen sha1_block_data_order SHA_CBLOCK sha1_iv).
Notation sha1_blocks := (blocks sha1_block_data_order SHA_CBLOCK).

Lemma cut_bytes l start n : bytes l -> bytes (cut l start n).
Proof. intros Hl. unfold cut. apply Forall_forall. intros x (j & -> & _)%list_elem_of_fmap. by apply nth_is_byte. Qed.

Lemma or_length_not_last block lb :
  length block = 64%nat -> bytes block -> length lb = 4%nat -> or_length block (mask_w false) lb = block.
Proof.
  intros Hl Hb Hlb. unfold or_length. rewrite <-(take_drop 60 block) at 3. f_equal.
  assert (length (drop 60 block) = 4%nat) as Hd by (rewrite length_drop; lia). pose proof (bytes_drop 60 block Hb) as Hbd.
  change (Z.to_nat (SHA_CBLOCK - 4)) with 60%nat. set (d := drop 60 block) in *.
  assert (length d = length lb) as E by lia. clearbody d. clear Hd Hlb Hl. revert d E Hbd. clear.
  induction lb as [|x lb IH]; intros [|b d] E Hd; cbn in *; try done. apply Forall_cons in Hd as [Hb Hd].
  f_equal; [|apply IH; [lia|done]]. rewrite Z.lor_0_r. by apply wrap_small.
Qed.

Lemma or_length_last block lb :
  drop 60 block = replicate 4 0 -> length lb = 4%nat -> bytes lb -> or_length block (mask_w true) lb = take 60 block ++ lb.
Proof.
  intros Hd Hlb Hb. unfold or_length. change (Z.to_nat (SHA_CBLOCK - 4)) with 60%nat. rewrite Hd. f_equal.
  destruct lb as [|a [|b [|c [|d [|]]]]]; try done. repeat (apply Forall_cons in Hb as [? Hb]).
  cbn [replicate zip_with mask_w]. rewrite !Z.lor_0_l.
  rewrite !(land_all_ones_64 _) by (by apply byte_in_64). by rewrite !wrap_small.
Qed.

(** The stream, zeros, and the length in the last four bytes of block [k - 1]. *)
Section Tail.
Context (stream lb : list Z) (k : Z).
Hypothesis k_pos : 0 < k.
Hypothesis stream_fits : blen stream <= 64 * k - 8.
Hypothesis stream_long : 64 * k - 64 < blen stream + 8.
Hypothesis stream_bytes : bytes stream.
Hypothesis lb_len : length lb = 4%nat.
Hypothesis lb_bytes : bytes lb.

Definition tail : list Z := (stream ++ replicate (Z.to_nat (64 * k - 4 - blen stream)) 0) ++ lb.

Lemma blen_tail : blen tail = 64 * k.
Proof. unfold tail. rewrite !blen_app, blen_replicate by lia. assert (blen lb = 4) by (unfold blen; by rewrite lb_len). lia. Qed.

Lemma nth_tail p : Z.of_nat p < 64 * k - 4 -> nth p tail 0 = nth p stream 0.
Proof.
  intros Hp. unfold tail. rewrite app_nth1.
  2:{ rewrite length_app, length_replicate. unfold blen in *. lia. }
  destruct (Nat.lt_ge_cases p (length stream)) as [H|H]; [by rewrite app_nth1|].
  rewrite app_nth2, (nth_overflow stream) by lia. rewrite nth_lookup.
  rewrite lookup_replicate_2; [done|]. unfold blen in *. lia.
Qed.

Lemma tail_block i : 0 <= i < k ->
  or_length (cut stream (Z.to_nat (64 * i)) 64) (mask_w (i =? k - 1)) lb = take 64 (drop (Z.to_nat (64 * i)) tail).
Proof.
  intros Hi. pose proof blen_tail as Ht. rewrite <-cut_take_drop by (unfold blen in *; lia).
  destruct (Z.eqb_spec i (k - 1)) as [->|Hne].
  - rewrite or_length_last; [|  |done|done].
    + apply (nth_ext _ _ 0 0); [rewrite length_app, length_take, !length_cut; lia|].
      rewrite length_app, length_take, length_cut, lb_len. change (60 `min` 64 + 4)%nat with 64%nat. intros j Hj.
      rewrite (nth_cut tail) by done. destruct (Nat.lt_ge_cases j 60) as [H|H].
      * rewrite app_nth1 by (rewrite length_take, length_cut; lia).
        rewrite nth_lookup, lookup_take_lt, <-nth_lookup, nth_cut by lia. symmetry. apply nth_tail. lia.
      * rewrite app_nth2; rewrite length_take, length_cut; [|lia]. unfold tail.
        rewrite app_nth2; rewrite length_app, length_replicate; [|unfold blen in *; lia]. f_equal. unfold blen in *. lia.
    + apply (nth_ext _ _ 0 0); [by rewrite length_drop, length_cut|]. rewrite length_drop, length_cut. intros j Hj.
      rewrite nth_skipn, nth_cut by lia. rewrite nth_overflow by (unfold blen in *; lia).
      rewrite nth_lookup, lookup_replicate_2; [done|lia].
  - rewrite or_length_not_last by (done || (by rewrite length_cut) || (by apply cut_bytes)).
    apply (nth_ext _ _ 0 0); rewrite !length_cut; [done|]. intros j Hj. rewrite !nth_cut by done. symmetry. apply nth_tail. lia.
Qed.

(** The chaining value after [i] blocks. *)
Definition after (h0 : list Z) (i : Z) : list Z := sha1_blocks h0 (take (Z.to_nat (64 * i)) tail).

Lemma after_succ h0 i : 0 <= i < k ->
  after h0 (i + 1) = sha1_block_data_order (after h0 i) (take 64 (drop (Z.to_nat (64 * i)) tail)) 1.
Proof.
  intros Hi. pose proof blen_tail as Ht. unfold after.
  assert (blen (take 64 (drop (Z.to_nat (64 * i)) tail)) = 64) as Hb.
  { change 64%nat with (Z.to_nat 64). rewrite blen_take; [done|]. rewrite blen_drop; lia. }
  rewrite (blocks_one sha1_block_data_order SHA_CBLOCK) by done.
  rewrite <-(blocks_app sha1_block_data_order SHA_CBLOCK h0 _ _ i 1); [|rewrite blen_take; unfold SHA_CBLOCK; lia|done|lia|done].
  f_equal. replace (Z.to_nat (64 * (i + 1))) with (Z.to_nat (64 * i) + 64)%nat by lia. by rewrite take_take_drop.
Qed.

Lemma after_all h0 : after h0 k = sha1_blocks h0 tail.
Proof. unfold after. rewrite take_ge; [done|]. pose proof blen_tail. unfold blen in *. lia. Qed.
End Tail.

Lemma sha1_transform_words st b : words 32 5 (sha1_block_data_order st b 1).
Proof.
  unfold sha1_block_data_order. change (Z.to_nat (if 1 =? 0 then 2 ^ 64 else 1)) with 1%nat. cbn [while_num].
  rewrite sha1_block_fips. unfold fips1_compress. cbv zeta.
  destruct (fold_left _ _ _) as [[[[? ?] ?] ?] ?]. split; [done|]. repeat constructor; by apply wrap_range.
Qed.

Section Loop.
Context (ctx : md32_ctx) (rest in_ : list Z) (len max_len total_bits : Z) (k : Z).
Hypothesis num_rest : num ctx = blen rest.
Hypothesis data_rest : take (Z.to_nat (num ctx)) (Md32.data ctx) = rest.
Hypothesis data_len : blen (Md32.data ctx) = SHA_CBLOCK.
Hypothesis rest_len : blen rest < SHA_CBLOCK.
Hypothesis rest_bytes : bytes rest.
Hypothesis in_bytes : bytes in_.
Hypothesis lens : 0 <= len <= max_len /\ max_len <= blen in_.
Hypothesis max_small : max_len < 2 ^ 60.
Hypothesis k_blocks : 64 * (k - 1) < blen rest + len + 9 <= 64 * k.

Notation stream := (rest ++ take (Z.to_nat len) in_ ++ [0x80]).
Notation lb := (be_bytes 4 total_bits).
Notation st := (after stream lb k (h ctx)).

Lemma suffix_stream_len : blen stream = blen rest + len + 1.
Proof. rewrite !blen_app, blen_take by lia. rewrite (blen_cons _ []), blen_nil. lia. Qed.

Lemma stream_is_bytes : bytes stream.
Proof. apply bytes_app. split; [done|]. apply bytes_app. split; [by apply bytes_take|by repeat constructor]. Qed.

Lemma tail_is_block i : 0 <= i < k ->
  or_length (cut stream (Z.to_nat (64 * i)) 64) (mask_w (i =? k - 1)) lb =
  take 64 (drop (Z.to_nat (64 * i)) (tail stream lb k)).
Proof.
  intros Hi. pose proof suffix_stream_len. pose proof (blen_nonneg rest).
  apply tail_block; [lia..|apply stream_is_bytes|apply length_be_bytes|apply bytes_be_bytes|done].
Qed.

Lemma st_succ i : 0 <= i < k ->
  st (i + 1) = sha1_block_data_order (st i) (take 64 (drop (Z.to_nat (64 * i)) (tail stream lb k))) 1.
Proof. intros Hi. pose proof suffix_stream_len. apply after_succ; [lia..|by rewrite length_be_bytes|done]. Qed.

(** The result is picked out of the chaining values when the last block is
    done; what is hashed after it is thrown away. *)
Lemma secret_blocks_run count : forall i c block result,
  0 <= i -> i + Z.of_nat count < 2 ^ 57 -> k <= i + Z.of_nat count ->
  num c = num ctx -> Md32.data c = Md32.data ctx -> (i <= k -> h c = st i) -> blen block = 64 ->
  result = (if i <? k then replicate 5 0 else st k) -> exists c',
  secret_blocks count i c in_ len max_len (k - 1) lb block result (input_at rest i) = Some (st k, c').
Proof.
  assert (words 32 5 (st k)) as Hwk.
  { pose proof suffix_stream_len. pose proof (blen_nonneg rest). replace k with (k - 1 + 1) at 2 by lia. rewrite st_succ by lia.
    apply sha1_transform_words. }
  induction count as [|count IH]; intros i c block result Hi Hc Hk Hn Hd Hh Hb Hr; cbn [secret_blocks].
  { exists c. by rewrite Hr, (proj2 (Z.ltb_ge _ _)) by lia. }
  rewrite (fill_block_run c rest in_ len max_len) by (rewrite ?Hd, ?Hn; (done || lia)). cbn [mbind option_bind].
  assert (0 < k < 2 ^ 57) by (pow2; pose proof (blen_nonneg rest); lia).
  rewrite constant_time_eq_w_spec by (split; pow2; lia). set (blk := or_length _ _ _).
  assert (blen blk = 64) as Hbl.
  { unfold blk, or_length. unfold blen. rewrite length_app, length_take, length_zip_with, length_drop, length_cut, length_be_bytes. done. }
  pose proof (sha1_transform_words (h c) blk) as Hw.
  apply (IH (i + 1)); try done; try lia.
  - intros Hik. cbn [h SHA1_Transform]. rewrite Hh, st_succ by lia. f_equal. unfold blk. by apply tail_is_block; lia.
  - cbn [h SHA1_Transform].
    assert (forall x, words 32 5 x -> zip_with (fun r x => u32 (Z.lor r (Z.land (mask_w (i =? k - 1)) x))) result x =
      if i =? k - 1 then zip_with (fun r x => u32 (Z.lor r x)) result x else zip_with (fun r x => u32 r) result x) as Ez.
    { intros x [_ Hx]. clear -Hx. revert result. induction Hx as [|y x Hy Hx IH]; intros [|r result]; cbn; try by destruct (i =? k - 1).
      rewrite IH. destruct (i =? k - 1); cbn [mask_w]; f_equal.
      - rewrite land_all_ones_64; [done|]. by apply (in_word_le 32).
      - by rewrite Z.lor_0_r. }
    rewrite (Ez _ Hw). clear Ez. rewrite Hr. destruct (Z.eqb_spec i (k - 1)) as [->|Hne].
    + rewrite (proj2 (Z.ltb_lt _ _)), (proj2 (Z.ltb_ge (k - 1 + 1) k)) by lia.
      assert (sha1_block_data_order (h c) blk 1 = st k) as E.
      { transitivity (st (k - 1 + 1)); [|by replace (k - 1 + 1) with k by lia]. rewrite Hh, st_succ by lia. f_equal. unfold blk.
        rewrite <-(tail_is_block (k - 1)) by lia. by rewrite Z.eqb_refl. }
      rewrite E. destruct Hwk as [Hl Hf]. revert Hl Hf. clear. generalize (st k). intros l.
      destruct l as [|a [|b [|c [|d [|e [|]]]]]]; try done. intros _ Hf. repeat (apply Forall_cons in Hf as [? Hf]).
      cbn. by rewrite !Z.lor_0_l, !wrap_small.
    + assert ((i + 1 <? k) = (i <? k)) as -> by (zcases; lia). destruct Hw as [Hl _].
      destruct (i <? k).
      * revert Hl. clear. generalize (sha1_block_data_order (h c) blk 1). intros l.
        destruct l as [|a [|b [|c' [|d [|e [|]]]]]]; try done.
      * revert Hl Hwk. clear. generalize (st k). generalize (sha1_block_data_order (h c) blk 1). intros l l' Hl [Hl' Hf].
        destruct l as [|a [|b [|c' [|d [|e [|]]]]]]; try done.
        destruct l' as [|a' [|b' [|c'' [|d' [|e' [|]]]]]]; try done. repeat (apply Forall_cons in Hf as [? Hf]).
        cbn. by rewrite !wrap_small.
Qed.
End Loop.

Lemma sha1_md_hash m : bytes m -> md_hash sha1_block_data_order SHA_CBLOCK sha1_iv true m = fips1_hash m.
Proof.
  intros Hm. rewrite (md_hash_iter _ sha1_block (fun H b => fips1_compress H (be_block b)) SHA_CBLOCK);
    [done|done|done|apply sha1_iter|].
  intros st b Hbb Hl. rewrite sha1_block_fips, load_be_block by assumption. reflexivity.
Qed.

Lemma length_bytes_be v :
  [u8 (Z.shiftr v 24); u8 (Z.shiftr v 16); u8 (Z.shiftr v 8); u8 v] = be_bytes 4 v.
Proof.
  cbn [be_bytes app]. rewrite !Z.shiftr_div_pow2 by lia. rewrite !Z.div_div by lia. done.
Qed.

(** The tail is what is left of the padded message. *)
Lemma pad_tail full rest d total n k :
  blen full = 64 * n -> 0 <= n -> 64 * (k - 1) < blen rest + blen d + 9 <= 64 * k ->
  in_word 32 total -> total = (8 * blen ((full ++ rest) ++ d)) mod 2 ^ 64 ->
  md_pad SHA_CBLOCK true ((full ++ rest) ++ d) = full ++ tail (rest ++ d ++ [0x80]) (be_bytes 4 total) k.
Proof.
  intros Hf Hn Hk Ht Htot. unfold md_pad, tail. set (M := (full ++ rest) ++ d) in *.
  pose proof (blen_nonneg rest) as Hr0. pose proof (blen_nonneg d) as Hd0.
  assert (blen M = 64 * n + blen rest + blen d) as HM by (unfold M; rewrite !blen_app; lia).
  set (pad := 64 * k - (blen rest + blen d + 9)).
  assert (pad_len SHA_CBLOCK (blen M) = pad) as -> by (apply (pad_len_eq _ _ (n + k)); unfold SHA_CBLOCK, pad; lia).
  rewrite (len_field_words true total 0 (blen M)) by (done || lia).
  assert (64 * k - 4 - blen (rest ++ d ++ [128]) = pad + 4) as ->
    by (rewrite !blen_app, blen_cons, blen_nil; unfold pad; lia).
  rewrite Z2Nat.inj_add, replicate_add by (unfold pad; lia). change (replicate (Z.to_nat 4) 0) with (be_bytes 4 0).
  unfold M. by rewrite <-!app_assoc.
Qed.

Lemma final_with_secret_suffix_run ctx m in_ len max_len :
  sha1_seen ctx m -> bytes m -> bytes in_ -> 0 <= len <= max_len -> max_len <= blen in_ -> max_len < 2 ^ 60 -> exists ctx',
  EVP_sha1_final_with_secret_suffix ctx in_ len max_len =
  Some (if (Nh ctx =? 0) && (Nl ctx + 8 * max_len <? 2 ^ 32)
        then (1, be_words 4 (fips1_hash (m ++ take (Z.to_nat len) in_)), ctx') else (0, [], ctx)).
Proof.
  intros (full & rest & n & -> & Hfull & Hn & Hh & Hnum & Hrest & Hd & Ht & Hnl & Hnh & Hc) Hm Hin Hlen Hmax Hsm.
  unfold EVP_sha1_final_with_secret_suffix. rewrite (Z.shiftl_mul_pow2 max_len) by lia. change (2 ^ 3) with 8.
  assert (0 <= Nl ctx < 2 ^ 32) as Hnl' by apply Hnl. assert (0 <= max_len * 8 < 2 ^ 63) as Hbits by (pow2; lia).
  rewrite (wrap_small 64 (max_len * 8)) by (split; pow2; lia). rewrite !(wrap_small 64 (Nl ctx + max_len * 8)) by (split; pow2; lia).
  rewrite (Z.shiftr_div_pow2 _ 3) by lia. change (2 ^ 3) with 8. rewrite Z.div_mul, Z.eqb_refl by lia.
  rewrite (proj2 (Z.ltb_ge _ (max_len * 8))) by lia. cbn [negb]. rewrite !orb_false_r.
  destruct (Z.eqb_spec (Nh ctx) 0) as [Hz|Hz]; cbn [negb orb andb]; [|by exists ctx].
  rewrite (Z.mul_comm 8). destruct (Z.ltb_spec (2 ^ 32 - 1) (Nl ctx + max_len * 8)) as [Hb|Hb].
  { rewrite (proj2 (Z.ltb_ge _ (2 ^ 32))) by lia. by exists ctx. }
  rewrite (proj2 (Z.ltb_lt _ (2 ^ 32))) by lia. clear Hbits.
  unfold SHA_CBLOCK in Hrest, Hfull. pose proof (blen_nonneg rest) as Hr0.
  rewrite (Z.shiftl_mul_pow2 len), Hnum by lia. change (2 ^ 3) with 8.
  rewrite (wrap_small 64 (len * 8)), (wrap_small 64 (Nl ctx + len * 8)) by (split; pow2; lia).
  set (total := Nl ctx + len * 8). rewrite length_bytes_be. unfold SHA_CBLOCK at 1 2.
  rewrite !(wrap_small 64 (blen rest + _ + 1 + 8 + 64 - 1)) by (split; pow2; lia).
  rewrite !(Z.shiftr_div_pow2 _ 6) by lia. change (2 ^ 6) with 64.
  set (k := (blen rest + len + 1 + 8 + 64 - 1) / 64). set (kmax := (blen rest + max_len + 1 + 8 + 64 - 1) / 64).
  assert (64 * (k - 1) < blen rest + len + 9 <= 64 * k) as Hk by (unfold k; zdiv).
  assert (k <= kmax) as Hkm by (apply Z.div_le_mono; lia).
  assert (kmax < 2 ^ 57) as Hkb by (apply Z.div_lt_upper_bound; pow2; lia).
  rewrite (wrap_small 64 (k - 1)) by (split; pow2; lia).
  apply bytes_app in Hm as [Hmf Hmr]. rewrite Hnum in Ht.
  destruct (secret_blocks_run ctx rest in_ len max_len total k Hnum ltac:(by rewrite Hnum) Hd Hrest Hmr Hin ltac:(done) Hsm Hk
    (Z.to_nat kmax) 0 ctx (replicate (Z.to_nat SHA_CBLOCK) 0) (replicate 5 0)) as (c' & E); try done; try lia.
  { by rewrite (proj2 (Z.ltb_lt _ _)) by lia. }
  change (input_at rest 0) with 0 in E. rewrite E. cbn [mbind option_bind]. exists c'. do 3 f_equal.
  set (d := take (Z.to_nat len) in_) in *. assert (blen d = len) as Hdl by (apply blen_take; lia).
  set (stream := rest ++ d ++ [0x80]) in *.
  assert (blen stream = blen rest + len + 1) as Hsl by (unfold stream; rewrite !blen_app, blen_cons, blen_nil; lia).
  rewrite after_all; [|lia|by rewrite length_be_bytes].
  assert (sha1_blocks (h ctx) (tail stream (be_bytes 4 total) k) = fips1_hash ((full ++ rest) ++ d)) as ->.
  { rewrite <-(sha1_md_hash ((full ++ rest) ++ d)).
    2:{ rewrite !bytes_app. split_and!; [done..|by apply bytes_take]. }
    unfold md_hash. rewrite (pad_tail full rest d total n k); [|done|done|by rewrite Hdl|split; unfold total; lia|].
    2:{ rewrite blen_app, Hdl, Z.mul_add_distr_l, <-Z.add_mod_idemp_l, <-Hc, Hz by done.
        replace (0 * 2 ^ 32 + Nl ctx + 8 * len) with total by (unfold total; lia). symmetry. apply Z.mod_small.
        unfold total. pow2. lia. }
    rewrite (md_hash_blocks sha1_block_data_order SHA_CBLOCK sha1_iv full _ n k);
      [by rewrite Hh|done|unfold SHA_CBLOCK; apply blen_tail; [fold stream; lia|by rewrite length_be_bytes]|done|lia]. }
  unfold be_words. f_equal. apply map_ext_Forall.
  apply (Forall_impl _ _ _ (proj2 (fips1_hash_words _))). intros x Hx. by apply CRYPTO_store_u32_be_spec.
Qed.
