(* ===== verification/TlsCbcTheorems.v ===== *)
(** The TLS CBC record functions do what the plain computation would: padding
    removed as RFC 5246 says, the MAC cut out, HMAC-SHA1 of the data. *)

From S2P Require Import Prelude CryptoInternal Md32 HashSpec Buf Sha1 Evp EvpSpec HmacSpec TlsCbc TlsCbcSpec.

(** A block of the key and its two masks. *)
Lemma sha1_pads key : blen key <= 64 -> bytes key ->
  let k0 := key ++ replicate (Z.to_nat (SHA_CBLOCK - blen key)) 0 in
  map (fun b => Z.lxor b 0x36) k0 = ipad (evp_hash EVP_sha1) 64 key /\
  map (fun b => Z.lxor b 0x6a) (map (fun b => Z.lxor b 0x36) k0) = opad (evp_hash EVP_sha1) 64 key.
Proof.
  intros Hl Hb k0. assert (hmac_k0 (evp_hash EVP_sha1) 64 key = k0) as E.
  { unfold hmac_k0. cbv zeta. by rewrite (proj2 (Z.ltb_ge _ _)) by lia. }
  unfold ipad, opad. rewrite E. split.
  - apply map_ext. intros x. apply Z.lxor_comm.
  - rewrite map_map. apply map_ext. intros x. rewrite Z.lxor_assoc. apply Z.lxor_comm.
Qed.

Lemma sha1_two_pieces a b :
  bytes a -> bytes b -> blen a < 2 ^ 61 -> blen b < 2 ^ 61 ->
  (SHA1_Final (SHA1_Update (SHA1_Update SHA1_Init a) b)).1 = be_words 4 (fips1_hash (a ++ b)).
Proof.
  intros Ha Hb Hal Hbl. pose proof (sha1_final_feed [a; b]) as E. cbn [concat sha1_feed fold_left] in E.
  rewrite app_nil_r in E. apply E; [by apply bytes_app|by repeat constructor].
Qed.

Lemma digest_record_run key header data data_size total :
  blen key <= 64 -> bytes key -> blen header = 13 -> bytes header -> bytes data ->
  0 <= data_size -> data_size + 20 <= total -> total <= data_size + 276 -> total <= blen data -> total < 2 ^ 59 ->
  EVP_tls_cbc_digest_record EVP_sha1 header data data_size total key =
  Some (if 8 * (77 + total) <? 2 ^ 32
        then (1, rfc2104_hmac (evp_hash EVP_sha1) 64 key (header ++ take (Z.to_nat data_size) data), 20) else (0, [], 0)).
Proof.
  intros Hkl Hkb Hhl Hhb Hdb Hd0 Hd1 Hd2 Hd3 Ht. unfold EVP_tls_cbc_digest_record. cbn [negb bool_decide]. 
  unfold SHA_CBLOCK at 1. rewrite (proj2 (Z.ltb_ge _ _)) by lia. destruct (sha1_pads key Hkl Hkb) as [E1 E2].
  rewrite E2, E1. clear E1 E2. unfold SHA_DIGEST_LENGTH.
  rewrite <-Hhl, load_bytes_all. cbn [mbind option_bind].
  set (mn := if 20 + 256 <? total then u64 (u64 (total - 20) - 256) else 0).
  assert (0 <= mn <= data_size /\ total - mn <= 276 /\ mn = Z.max 0 (total - 276)) as (Hmn & Hmn2 & Hmn3).
  { unfold mn. destruct (Z.ltb_spec (20 + 256) total); [|lia]. rewrite !wrap_small by (split; rewrite ?wrap_small; try split; pow2; lia). lia. }
  clearbody mn. rewrite load_at by lia. cbn [mbind option_bind]. rewrite drop_0.
  rewrite !(wrap_small 64) by (split; pow2; lia).
  set (ipd := ipad _ _ _). set (opd := opad _ _ _). set (m1 := take (Z.to_nat mn) data).
  set (ctx := SHA1_Update (SHA1_Update (SHA1_Update SHA1_Init ipd) header) m1).
  assert (blen ipd = 64 /\ blen opd = 64 /\ bytes ipd /\ bytes opd) as (Hil & Hol & Hib & Hob).
  { unfold ipd, opd, ipad, opad. pose proof (hmac_k0_len (md:=EVP_sha1) (hash:=evp_hash EVP_sha1) key) as Hk.
    change (EVP_MD_block_size EVP_sha1) with 64 in Hk.
    pose proof (hmac_k0_bytes (md:=EVP_sha1) (hash:=evp_hash EVP_sha1) key Hkb) as Hkb'.
    change (EVP_MD_block_size EVP_sha1) with 64 in Hkb'.
    split_and!; [unfold blen in *; by rewrite length_map..|by apply map_lxor_bytes|by apply map_lxor_bytes]. }
  assert (blen m1 = mn) as Hm1l by (apply blen_take; lia). assert (bytes m1) as Hm1b by by apply bytes_take.
  assert (md32_seen sha1_block_data_order SHA_CBLOCK sha1_iv ctx (((ipd ++ header) ++ m1))) as Hseen.
  { pose proof (md32_zero_seen sha1_block_data_order SHA_CBLOCK sha1_iv) as H0.
    apply (crypto_md32_update_seen _ _ _ _ _ ipd) in H0; [|pow2; lia]. apply (crypto_md32_update_seen _ _ _ _ _ header) in H0; [|pow2; lia].
    apply (crypto_md32_update_seen _ _ _ _ _ m1) in H0; [exact H0|pow2; lia]. }
  assert (bytes ((ipd ++ header) ++ m1)) as Hmb by (by rewrite !bytes_app).
  set (rest := drop (Z.to_nat mn) data). assert (blen rest = blen data - mn) as Hrl by (apply blen_drop; lia).
  destruct (final_with_secret_suffix_run ctx _ rest (data_size - mn) (total - mn) Hseen Hmb
    ltac:(by apply bytes_drop) ltac:(lia) ltac:(lia) ltac:(pow2; lia)) as (c' & ->). cbn [mbind option_bind].
  assert ((Nh ctx =? 0) && (Nl ctx + 8 * (total - mn) <? 2 ^ 32) = (8 * (77 + total) <? 2 ^ 32)) as ->.
  { destruct Hseen as (full & r & n & _ & _ & _ & _ & _ & _ & _ & _ & Hnl & Hnh & Hc).
    rewrite !blen_app, Hil, Hhl, Hm1l in Hc. rewrite Z.mod_small in Hc by (pow2; lia).
    destruct Hnl, Hnh. destruct (Z.eqb_spec (Nh ctx) 0) as [E|E]; cbn [andb].
    - rewrite E in Hc. zcases; lia.
    - symmetry. apply Z.ltb_ge. pow2. lia. }
  destruct (Z.ltb_spec (8 * (77 + total)) (2 ^ 32)) as [Hfit|Hfit]; cbn [Z.eqb]; [|done].
  assert (((ipd ++ header) ++ m1) ++ take (Z.to_nat (data_size - mn)) rest = ipd ++ header ++ take (Z.to_nat data_size) data) as ->.
  { rewrite <-!app_assoc. do 2 f_equal. unfold m1, rest. rewrite take_take_drop. f_equal. lia. }
  set (inner := be_words 4 (fips1_hash (ipd ++ header ++ take (Z.to_nat data_size) data))).
  assert (inner = evp_hash EVP_sha1 (ipd ++ header ++ take (Z.to_nat data_size) data)) as Ein by done.
  pose proof (evp_hash_len EVP_sha1 (ipd ++ header ++ take (Z.to_nat data_size) data)) as Hinl.
  pose proof (evp_hash_bytes EVP_sha1 (ipd ++ header ++ take (Z.to_nat data_size) data)) as Hinb.
  rewrite <-Ein in Hinl, Hinb. clearbody inner. change (EVP_MD_size EVP_sha1) with 20 in Hinl.
  pose proof (sha1_two_pieces opd inner Hob Hinb ltac:(pow2; lia) ltac:(pow2; lia)) as Ef.
  destruct (SHA1_Final _) as [out c'']. cbn [fst] in Ef. subst out. by rewrite Ein.
Qed.

(** C15: The padding of a decrypted TLS CBC record is removed and its MAC found
    without branching on secrets, and exactly: [EVP_tls_cbc_remove_padding]
    rejects what is too short, and otherwise answers "good" iff the record is a
    body of at least a MAC's length followed by [p + 1] bytes [p], and then with
    the body's length; if not, it leaves the whole record as the body, so that
    what follows does not tell bad padding from a bad MAC. Either way
    [EVP_tls_cbc_copy_mac], which collects the MAC at a rotation and turns it back
    with one conditional pass per bit, reads inside the record and returns the
    last bytes of the body. *)
Theorem tls_cbc_unpad_and_mac record block_size mac_size :
  bytes record -> blen record < 2 ^ 63 -> 0 < mac_size <= 64 ->
  let r := EVP_tls_cbc_remove_padding record (blen record) block_size mac_size in
  (blen record < 1 + mac_size /\ r = Some (0, 0, 0)) \/
  exists good len, r = Some (1, good, len) /\ mac_size <= len <= blen record /\
    ((exists body, tls_padded record mac_size body /\ good = CONSTTIME_TRUE_W /\ len = blen body) \/
     (~ exists body, tls_padded record mac_size body) /\ good = CONSTTIME_FALSE_W /\ len = blen record) /\
    EVP_tls_cbc_copy_mac mac_size record len (blen record) =
      Some (take (Z.to_nat mac_size) (drop (Z.to_nat (len - mac_size)) record)).
Proof.
  intros Hb Hl Hm r. destruct (remove_padding_run record block_size mac_size Hb Hl ltac:(pow2; lia))
    as [[Hs E]|(Hs & [(body & Hbody & E)|[Hno E]])]; [by left|right..].
  - destruct (tls_padded_last _ _ _ Hbody) as (p & _ & Hp & _ & Hmb & Hlen). destruct Hp as [Hp0 Hp1]. pow2.
    eexists _, _. split; [exact E|]. split; [lia|]. split; [left; by exists body|]. apply copy_mac_run; try done; pow2; lia.
  - eexists _, _. split; [exact E|]. split; [lia|]. split; [by right|]. apply copy_mac_run; try done; pow2; lia.
Qed.

Lemma tls_cbc_unpad_and_mac_witness :
  EVP_tls_cbc_remove_padding [7; 8; 9; 1; 1] 5 16 2 = Some (1, CONSTTIME_TRUE_W, 3) /\
  EVP_tls_cbc_copy_mac 2 [7; 8; 9; 1; 1] 3 5 = Some [8; 9].
Proof.
  destruct (tls_cbc_unpad_and_mac [7; 8; 9; 1; 1] 16 2) as [[H _]|(good & len & E & _ & _ & Ec)];
    [by repeat constructor|done|done|done|].
  vm_compute in E. injection E as <- <-. split; [by vm_compute|exact Ec].
Defined.

(** C14: [EVP_tls_cbc_digest_record] is HMAC-SHA1 of the record's header and of
    the data without MAC and padding, as RFC 2104 defines it. It hashes as many
    blocks as the longest record that the public length permits would need,
    builds each of them under masks that depend on the secret length, and keeps
    the chaining value of the block that was the last one. It fails only when the
    lengths could overflow 32 bits of bit count. *)
Theorem tls_cbc_digest_record_is_hmac key header data data_size total :
  blen key <= 64 -> bytes key -> blen header = 13 -> bytes header -> bytes data ->
  0 <= data_size -> data_size + 20 <= total -> total <= data_size + 276 -> total <= blen data -> total < 2 ^ 59 ->
  EVP_tls_cbc_digest_record EVP_sha1 header data data_size total key =
  Some (if 8 * (77 + total) <? 2 ^ 32
        then (1, rfc2104_hmac (evp_hash EVP_sha1) 64 key (header ++ take (Z.to_nat data_size) data), 20) else (0, [], 0)).
Proof. apply digest_record_run. Qed.

Lemma tls_cbc_digest_record_is_hmac_witness :
  EVP_tls_cbc_digest_record EVP_sha1 (replicate 13 1) (replicate 300 2) 50 300 (replicate 20 3) =
  Some (1, rfc2104_hmac (evp_hash EVP_sha1) 64 (replicate 20 3) (replicate 13 1 ++ replicate 50 2), 20).
Proof.
  apply (tls_cbc_digest_record_is_hmac (replicate 20 3) (replicate 13 1) (replicate 300 2) 50 300);
    first [by apply bytes_replicate | done].
Defined.
