(* ===== verification/Cipher.v ===== *)
(** crypto/fipsmodule/cipher/cipher.c: ciphers behind one interface, with the
    buffering of partial blocks and PKCS#7 padding. A cipher is a table of
    functions; they see the part [cipher_core] of the context. Input and output
    do not overlap: the input is a value, and a function returns the bytes it
    wrote from [out] on. [*out_len] is passed in and returned. *)

From S2P Require Import Prelude CryptoInternal Buf Evp.

Definition EVP_CIPH_STREAM_CIPHER : Z := 0x0.
Definition EVP_CIPH_ECB_MODE : Z := 0x1.
Definition EVP_CIPH_CBC_MODE : Z := 0x2.
Definition EVP_CIPH_CFB_MODE : Z := 0x3.
Definition EVP_CIPH_OFB_MODE : Z := 0x4.
Definition EVP_CIPH_CTR_MODE : Z := 0x5.
Definition EVP_CIPH_VARIABLE_LENGTH : Z := 0x40.
Definition EVP_CIPH_ALWAYS_CALL_INIT : Z := 0x80.
Definition EVP_CIPH_CUSTOM_IV : Z := 0x100.
Definition EVP_CIPH_CTRL_INIT : Z := 0x200.
Definition EVP_CIPH_FLAG_CUSTOM_CIPHER : Z := 0x400.
Definition EVP_CIPH_CUSTOM_COPY : Z := 0x1000.
Definition EVP_CIPH_NO_PADDING : Z := 0x800.
Definition EVP_CIPH_MODE_MASK : Z := 0x3f.
Definition EVP_CTRL_INIT : Z := 0x0.
Definition EVP_CTRL_COPY : Z := 0x8.
Definition EVP_MAX_IV_LENGTH : Z := 16.
Definition EVP_MAX_BLOCK_LENGTH : Z := 32.
Definition INT_MAX : Z := 2 ^ 31 - 1.

Definition has_flag (flags flag : Z) : bool := negb (Z.land flags flag =? 0).

Section Cipher.
(** The structure that a cipher makes of the block [cipher_data]. *)
Context {D : Type} {ms : Mallocs}.

(** [cipher_data]: a block as the allocator left it, or the cipher's structure. *)
Inductive cipher_block := RawData (block : list Z) | CipherData (d : D).

(** The fields of [EVP_CIPHER_CTX] that a cipher's functions use. *)
Record cipher_core := Core {
  cipher_data : option cipher_block;
  key_len : Z;
  encrypt : Z;
  flags : Z;
  oiv : list Z;
  iv : list Z;
  num : Z
}.

(** What [ptr] of a control function points to. *)
Inductive ctrl_ptr := CtrlNull | CtrlCtx (c : cipher_core) | CtrlBytes (bs : list Z).

Record EVP_CIPHER := EvpCipher {
  cipher_nid : Z;
  cipher_block_size : Z;
  cipher_key_len : Z;
  cipher_iv_len : Z;
  cipher_ctx_size : Z;
  cipher_flags : Z;
  cipher_init : cipher_core -> option (list Z) -> option (list Z) -> Z -> W (Z * cipher_core);
  cipher_cipher : cipher_core -> option (list Z) -> W (Z * list Z * cipher_core);
  cipher_cleanup : option (cipher_core -> W cipher_core);
  cipher_ctrl : option (cipher_core -> Z -> Z -> ctrl_ptr -> W (Z * cipher_core * ctrl_ptr))
}.

Record EVP_CIPHER_CTX := CipherCtx {
  cipher : option EVP_CIPHER;
  core : cipher_core;
  buf : list Z;
  buf_len : Z;
  final_used : Z;
  final : list Z;
  app_data : option Z
}.

Definition set_core (c : cipher_core) (ctx : EVP_CIPHER_CTX) : EVP_CIPHER_CTX :=
  CipherCtx (cipher ctx) c (buf ctx) (buf_len ctx) (final_used ctx) (final ctx) (app_data ctx).
Definition set_cipher (c : option EVP_CIPHER) (ctx : EVP_CIPHER_CTX) : EVP_CIPHER_CTX :=
  CipherCtx c (core ctx) (buf ctx) (buf_len ctx) (final_used ctx) (final ctx) (app_data ctx).
Definition set_buf (b : list Z) (n : Z) (ctx : EVP_CIPHER_CTX) : EVP_CIPHER_CTX :=
  CipherCtx (cipher ctx) (core ctx) b n (final_used ctx) (final ctx) (app_data ctx).
Definition set_final (used : Z) (f : list Z) (ctx : EVP_CIPHER_CTX) : EVP_CIPHER_CTX :=
  CipherCtx (cipher ctx) (core ctx) (buf ctx) (buf_len ctx) used f (app_data ctx).
Definition set_cipher_data (d : option cipher_block) (c : cipher_core) : cipher_core :=
  Core d (key_len c) (encrypt c) (flags c) (oiv c) (iv c) (num c).
Definition set_key_len (n : Z) (c : cipher_core) : cipher_core :=
  Core (cipher_data c) n (encrypt c) (flags c) (oiv c) (iv c) (num c).
Definition set_encrypt (e : Z) (c : cipher_core) : cipher_core :=
  Core (cipher_data c) (key_len c) e (flags c) (oiv c) (iv c) (num c).
Definition set_flags (f : Z) (c : cipher_core) : cipher_core :=
  Core (cipher_data c) (key_len c) (encrypt c) f (oiv c) (iv c) (num c).
Definition set_ivs (o i : list Z) (c : cipher_core) : cipher_core :=
  Core (cipher_data c) (key_len c) (encrypt c) (flags c) o i (num c).
Definition set_num (n : Z) (c : cipher_core) : cipher_core :=
  Core (cipher_data c) (key_len c) (encrypt c) (flags c) (oiv c) (iv c) n.

(** * Contexts *)

Definition EVP_CIPHER_CTX_init : EVP_CIPHER_CTX :=
  let zeros n := replicate (Z.to_nat n) 0 in
  CipherCtx None (Core None 0 0 0 (zeros EVP_MAX_IV_LENGTH) (zeros EVP_MAX_IV_LENGTH) 0)
    (zeros EVP_MAX_BLOCK_LENGTH) 0 0 (zeros EVP_MAX_BLOCK_LENGTH) None.

Definition sizeof_EVP_CIPHER_CTX : Z := 152.

Definition EVP_CIPHER_CTX_new : W (option EVP_CIPHER_CTX) :=
  ctx ← evp_malloc sizeof_EVP_CIPHER_CTX;
  mret (match ctx with Some _ => Some EVP_CIPHER_CTX_init | None => None end).

Definition EVP_CIPHER_CTX_cleanup (c : EVP_CIPHER_CTX) : W (Z * EVP_CIPHER_CTX) :=
  k ← (match cipher c with
       | Some t => match cipher_cleanup t with Some f => f (core c) | None => mret (core c) end
       | None => mret (core c)
       end);
  _ ← evp_free (cipher_data k);
  mret (1, EVP_CIPHER_CTX_init).

Definition EVP_CIPHER_CTX_free (ctx : option EVP_CIPHER_CTX) : W unit :=
  match ctx with
  | None => mret tt
  | Some c => _ ← EVP_CIPHER_CTX_cleanup c; evp_free ctx
  end.

(** The result and [out]. *)
Definition EVP_CIPHER_CTX_copy (out : EVP_CIPHER_CTX) (in_ : option EVP_CIPHER_CTX) : W (Z * EVP_CIPHER_CTX) :=
  match in_ with
  | None => _ ← put_error CIPHER_R_INPUT_NOT_INITIALIZED; mret (0, out)
  | Some i =>
      match cipher i with
      | None => _ ← put_error CIPHER_R_INPUT_NOT_INITIALIZED; mret (0, out)
      | Some t =>
          _ ← EVP_CIPHER_CTX_cleanup out;
          '(r, out) ←
            (if bool_decide (is_Some (cipher_data (core i))) && negb (cipher_ctx_size t =? 0) then
               b ← evp_malloc (cipher_ctx_size t);
               match b with
               | None =>
                   _ ← put_error CIPHER_R_MALLOC_FAILURE;
                   mret (0, set_cipher None (set_core (set_cipher_data None (core i)) i))
               | Some _ => mret (1, i)
               end
             else mret (1, i));
          if r =? 0 then mret (0, out)
          else if has_flag (cipher_flags t) EVP_CIPH_CUSTOM_COPY then
            ctrl ← mopt (cipher_ctrl t);
            '(r, _, ptr) ← ctrl (core i) EVP_CTRL_COPY 0 (CtrlCtx (core out));
            k ← mopt (match ptr with CtrlCtx k => Some k | _ => None end);
            let out := set_core k out in
            if r =? 0 then mret (0, set_cipher None out) else mret (1, out)
          else mret (1, out)
      end
  end.

Definition EVP_CIPHER_CTX_reset (ctx : EVP_CIPHER_CTX) : W (Z * EVP_CIPHER_CTX) :=
  '(_, _) ← EVP_CIPHER_CTX_cleanup ctx; mret (1, EVP_CIPHER_CTX_init).

(** Accessors; most of them read through [ctx->cipher]. *)
Definition EVP_CIPHER_CTX_cipher (ctx : EVP_CIPHER_CTX) : option EVP_CIPHER := cipher ctx.
Definition EVP_CIPHER_CTX_nid (ctx : EVP_CIPHER_CTX) : option Z := cipher_nid <$> cipher ctx.
Definition EVP_CIPHER_CTX_encrypting (ctx : EVP_CIPHER_CTX) : Z := encrypt (core ctx).
Definition EVP_CIPHER_CTX_block_size (ctx : EVP_CIPHER_CTX) : option Z := cipher_block_size <$> cipher ctx.
Definition EVP_CIPHER_CTX_key_length (ctx : EVP_CIPHER_CTX) : Z := key_len (core ctx).
Definition EVP_CIPHER_CTX_iv_length (ctx : EVP_CIPHER_CTX) : option Z := cipher_iv_len <$> cipher ctx.
(** [app_data] is a pointer of the application's, an address here. *)
Definition EVP_CIPHER_CTX_get_app_data (ctx : EVP_CIPHER_CTX) : option Z := app_data ctx.
Definition EVP_CIPHER_CTX_set_app_data (ctx : EVP_CIPHER_CTX) (data : option Z) : EVP_CIPHER_CTX :=
  CipherCtx (cipher ctx) (core ctx) (buf ctx) (buf_len ctx) (final_used ctx) (final ctx) data.
Definition EVP_CIPHER_flags (t : EVP_CIPHER) : Z := Z.land (cipher_flags t) (u32 (Z.lnot EVP_CIPH_MODE_MASK)).
Definition EVP_CIPHER_mode (t : EVP_CIPHER) : Z := Z.land (cipher_flags t) EVP_CIPH_MODE_MASK.
Definition EVP_CIPHER_CTX_flags (ctx : EVP_CIPHER_CTX) : option Z := EVP_CIPHER_flags <$> cipher ctx.
Definition EVP_CIPHER_CTX_mode (ctx : EVP_CIPHER_CTX) : option Z := EVP_CIPHER_mode <$> cipher ctx.
Definition EVP_CIPHER_nid (t : EVP_CIPHER) : Z := cipher_nid t.
Definition EVP_CIPHER_block_size (t : EVP_CIPHER) : Z := cipher_block_size t.
Definition EVP_CIPHER_key_length (t : EVP_CIPHER) : Z := cipher_key_len t.
Definition EVP_CIPHER_iv_length (t : EVP_CIPHER) : Z := cipher_iv_len t.

Definition EVP_CIPHER_CTX_ctrl (ctx : EVP_CIPHER_CTX) (command arg : Z) (ptr : ctrl_ptr) :
    W (Z * EVP_CIPHER_CTX * ctrl_ptr) :=
  match cipher ctx with
  | None => _ ← put_error CIPHER_R_NO_CIPHER_SET; mret (0, ctx, ptr)
  | Some t =>
      match cipher_ctrl t with
      | None => _ ← put_error CIPHER_R_CTRL_NOT_IMPLEMENTED; mret (0, ctx, ptr)
      | Some ctrl =>
          '(ret, k, ptr) ← ctrl (core ctx) command arg ptr;
          let ctx := set_core k ctx in
          if ret =? -1 then _ ← put_error CIPHER_R_CTRL_OPERATION_NOT_IMPLEMENTED; mret (0, ctx, ptr)
          else mret (ret, ctx, ptr)
      end
  end.

Definition EVP_CIPHER_CTX_set_padding (ctx : EVP_CIPHER_CTX) (pad : bool) : Z * EVP_CIPHER_CTX :=
  let k := core ctx in
  let f := if pad then Z.land (flags k) (u32 (Z.lnot EVP_CIPH_NO_PADDING)) else Z.lor (flags k) EVP_CIPH_NO_PADDING in
  (1, set_core (set_flags f k) ctx).

Definition EVP_CIPHER_CTX_set_key_length (c : EVP_CIPHER_CTX) (n : Z) : W (Z * EVP_CIPHER_CTX) :=
  if key_len (core c) =? n then mret (1, c)
  else
    bad ← (if n =? 0 then mret true
           else t ← mopt (cipher c); mret (negb (has_flag (cipher_flags t) EVP_CIPH_VARIABLE_LENGTH)));
    if bad : bool then _ ← put_error CIPHER_R_INVALID_KEY_LENGTH; mret (0, c)
    else mret (1, set_core (set_key_len n (core c)) c).

(** * Initialisation *)

(** The IVs, by mode. [None] for a mode that is not handled. *)
Definition init_iv (t : EVP_CIPHER) (k : cipher_core) (iv_arg : option (list Z)) : W (option cipher_core) :=
  let mode := EVP_CIPHER_mode t in
  let n := cipher_iv_len t in
  let copy_iv := (bs ← mopt (load_bytes iv_arg 0 n); mopt (mjoin (store_bytes (Some (iv k)) 0 bs))) : W (list Z) in
  if (mode =? EVP_CIPH_STREAM_CIPHER) || (mode =? EVP_CIPH_ECB_MODE) then mret (Some k)
  else if (mode =? EVP_CIPH_CFB_MODE) || (mode =? EVP_CIPH_CBC_MODE) then
    let k := if mode =? EVP_CIPH_CFB_MODE then set_num 0 k else k in
    _ ← massert (n <=? EVP_MAX_IV_LENGTH);
    o ← (match iv_arg with
         | Some _ => bs ← mopt (load_bytes iv_arg 0 n); mopt (mjoin (store_bytes (Some (oiv k)) 0 bs))
         | None => mret (oiv k)
         end);
    bs ← mopt (load_bytes (Some o) 0 n);
    i ← mopt (mjoin (store_bytes (Some (iv k)) 0 bs));
    mret (Some (set_ivs o i k))
  else if (mode =? EVP_CIPH_CTR_MODE) || (mode =? EVP_CIPH_OFB_MODE) then
    let k := set_num 0 k in
    i ← (match iv_arg with Some _ => copy_iv | None => mret (iv k) end);
    mret (Some (set_ivs (oiv k) i k))
  else mret None.

(** Setting the cipher of a context: [ctx] without its old cipher, and the
    block for the new one. *)
Definition set_new_cipher (ctx : EVP_CIPHER_CTX) (t : EVP_CIPHER) (enc : Z) : W (Z * EVP_CIPHER_CTX) :=
  ctx ← (match cipher ctx with
         | Some _ => '(_, c) ← EVP_CIPHER_CTX_cleanup ctx; mret (set_core (set_encrypt enc (core c)) c)
         | None => mret ctx
         end);
  let ctx := set_cipher (Some t) ctx in
  '(r, ctx) ←
    (if negb (cipher_ctx_size t =? 0) then
       b ← evp_malloc (cipher_ctx_size t);
       let ctx := set_core (set_cipher_data (RawData <$> b) (core ctx)) ctx in
       match b with
       | None => _ ← put_error CIPHER_R_MALLOC_FAILURE; mret (0, set_cipher None ctx)
       | Some _ => mret (1, ctx)
       end
     else mret (1, set_core (set_cipher_data None (core ctx)) ctx));
  if r =? 0 then mret (0, ctx)
  else
    let ctx := set_core (set_flags 0 (set_key_len (cipher_key_len t) (core ctx))) ctx in
    if has_flag (cipher_flags t) EVP_CIPH_CTRL_INIT then
      '(r, ctx, _) ← EVP_CIPHER_CTX_ctrl ctx EVP_CTRL_INIT 0 CtrlNull;
      if r =? 0 then _ ← put_error CIPHER_R_INITIALIZATION_ERROR; mret (0, set_cipher None ctx) else mret (1, ctx)
    else mret (1, ctx).

Definition EVP_CipherInit_ex (ctx : EVP_CIPHER_CTX) (new_cipher : option EVP_CIPHER) (key iv_arg : option (list Z))
    (enc : Z) : W (Z * EVP_CIPHER_CTX) :=
  let '(enc, ctx) :=
    if enc =? -1 then (encrypt (core ctx), ctx)
    else
      let enc := if negb (enc =? 0) then 1 else enc in
      (enc, set_core (set_encrypt enc (core ctx)) ctx) in
  '(r, ctx) ←
    (match new_cipher with
     | Some t => set_new_cipher ctx t enc
     | None =>
         match cipher ctx with
         | None => _ ← put_error CIPHER_R_NO_CIPHER_SET; mret (0, ctx)
         | Some _ => mret (1, ctx)
         end
     end);
  if r =? 0 then mret (0, ctx)
  else
    t ← mopt (cipher ctx);
    _ ← massert ((cipher_block_size t =? 1) || (cipher_block_size t =? 8) || (cipher_block_size t =? 16));
    k ← (if negb (has_flag (EVP_CIPHER_flags t) EVP_CIPH_CUSTOM_IV) then init_iv t (core ctx) iv_arg
         else mret (Some (core ctx)));
    match k with
    | None => mret (0, ctx)
    | Some k =>
        let ctx := set_core k ctx in
        '(r, ctx) ←
          (if bool_decide (is_Some key) || has_flag (cipher_flags t) EVP_CIPH_ALWAYS_CALL_INIT then
             '(r, k) ← cipher_init t (core ctx) key iv_arg enc;
             mret (r, set_core k ctx)
           else mret (1, ctx));
        if r =? 0 then mret (0, ctx) else mret (1, set_final 0 (final ctx) (set_buf (buf ctx) 0 ctx))
    end.

Definition EVP_EncryptInit_ex ctx c key iv_arg := EVP_CipherInit_ex ctx c key iv_arg 1.
Definition EVP_DecryptInit_ex ctx c key iv_arg := EVP_CipherInit_ex ctx c key iv_arg 0.

Definition EVP_CipherInit (ctx : EVP_CIPHER_CTX) (c : option EVP_CIPHER) (key iv_arg : option (list Z)) (enc : Z) :
    W (Z * EVP_CIPHER_CTX) :=
  let ctx := match c with Some _ => EVP_CIPHER_CTX_init | None => ctx end in
  EVP_CipherInit_ex ctx c key iv_arg enc.

Definition EVP_EncryptInit ctx c key iv_arg := EVP_CipherInit ctx c key iv_arg 1.
Definition EVP_DecryptInit ctx c key iv_arg := EVP_CipherInit ctx c key iv_arg 0.

(** * Encryption *)

Definition block_remainder (t : EVP_CIPHER) (len : Z) : W Z :=
  _ ← massert (negb (cipher_block_size t =? 0));
  _ ← massert (Z.land (cipher_block_size t) (cipher_block_size t - 1) =? 0);
  mret (Z.land len (cipher_block_size t - 1)).

(** [ctx->cipher->cipher(ctx, out, in, inl)]: the result and what was written. *)
Definition run_cipher (t : EVP_CIPHER) (ctx : EVP_CIPHER_CTX) (in_ : option (list Z)) : W (Z * list Z * EVP_CIPHER_CTX) :=
  '(r, out, k) ← cipher_cipher t (core ctx) in_;
  mret (r, out, set_core k ctx).

(** The result, what was written to [out], where the input goes on, what is left
    of it, [*out_len] and the context, when the block in [buf] has been filled. *)
Definition update_first (t : EVP_CIPHER) (ctx : EVP_CIPHER_CTX) (in_ : option (list Z)) (in_len out_len : Z) :
    W (Z * list Z * option (list Z) * Z * Z * EVP_CIPHER_CTX) :=
  let bl := cipher_block_size t in
  let i := buf_len ctx in
  if negb (i =? 0) then
    let j := bl - i in
    bs ← mopt (load_bytes in_ 0 j);
    b ← mopt (mjoin (store_bytes (Some (buf ctx)) i bs));
    let ctx := set_buf b i ctx in
    blk ← mopt (load_bytes (Some (buf ctx)) 0 bl);
    '(ret, out, ctx) ← run_cipher t ctx (Some blk);
    if ret =? 0 then mret (0, out, in_, in_len, out_len, ctx)
    else mret (1, out, drop (Z.to_nat j) <$> in_, in_len - j, bl, ctx)
  else mret (1, [], in_, in_len, 0, ctx).

(** The whole blocks, and the rest into [buf]; [out] has been written before. *)
Definition update_rest (t : EVP_CIPHER) (ctx : EVP_CIPHER_CTX) (out : list Z) (in_ : option (list Z)) (in_len out_len : Z) :
    W (Z * list Z * Z * EVP_CIPHER_CTX) :=
  i ← block_remainder t in_len;
  let in_len := in_len - i in
  '(r, out, out_len, ctx) ←
    (if 0 <? in_len then
       bs ← mopt (load_bytes in_ 0 in_len);
       '(ret, out2, ctx) ← run_cipher t ctx (Some bs);
       if ret =? 0 then mret (0, out ++ out2, out_len, ctx) else mret (1, out ++ out2, out_len + in_len, ctx)
     else mret (1, out, out_len, ctx));
  if r =? 0 then mret (0, out, out_len, ctx)
  else
    b ← (if negb (i =? 0) then
           bs ← mopt (load_bytes in_ in_len i); mopt (mjoin (store_bytes (Some (buf ctx)) 0 bs))
         else mret (buf ctx));
    mret (1, out, out_len, set_buf b i ctx).

(** The result, what was written to [out], [*out_len] and the context. *)
Definition EVP_EncryptUpdate (ctx : EVP_CIPHER_CTX) (in_ : option (list Z)) (in_len out_len : Z) :
    W (Z * list Z * Z * EVP_CIPHER_CTX) :=
  t ← mopt (cipher ctx);
  let bl := cipher_block_size t in
  if (1 <? bl) && (INT_MAX - bl <? in_len) then
    _ ← put_error CIPHER_R_OVERFLOW; mret (0, [], out_len, ctx)
  else if has_flag (cipher_flags t) EVP_CIPH_FLAG_CUSTOM_CIPHER then
    bs ← (match in_ with None => mret None | Some _ => bs ← mopt (load_bytes in_ 0 (u64 in_len)); mret (Some bs) end);
    '(ret, out, ctx) ← run_cipher t ctx bs;
    if ret <? 0 then mret (0, out, out_len, ctx) else mret (1, out, ret, ctx)
  else if in_len <=? 0 then mret (if in_len =? 0 then 1 else 0, [], 0, ctx)
  else
    whole ← (if buf_len ctx =? 0 then r ← block_remainder t in_len; mret (r =? 0) else mret false);
    if whole : bool then
      bs ← mopt (load_bytes in_ 0 in_len);
      '(ret, out, ctx) ← run_cipher t ctx (Some bs);
      if negb (ret =? 0) then mret (1, out, in_len, ctx) else mret (0, out, 0, ctx)
    else
      let i := buf_len ctx in
      _ ← massert (bl <=? EVP_MAX_BLOCK_LENGTH);
      if negb (i =? 0) && (in_len <? bl - i) then
        bs ← mopt (load_bytes in_ 0 in_len);
        b ← mopt (mjoin (store_bytes (Some (buf ctx)) i bs));
        mret (1, [], 0, set_buf b (i + in_len) ctx)
      else
        '(r, out, in_, in_len, out_len, ctx) ← update_first t ctx in_ in_len out_len;
        if r =? 0 then mret (0, out, out_len, ctx) else update_rest t ctx out in_ in_len out_len.

Definition EVP_EncryptFinal_ex (ctx : EVP_CIPHER_CTX) (out_len : Z) : W (Z * list Z * Z * EVP_CIPHER_CTX) :=
  t ← mopt (cipher ctx);
  if has_flag (cipher_flags t) EVP_CIPH_FLAG_CUSTOM_CIPHER then
    '(ret, out, ctx) ← run_cipher t ctx None;
    if ret <? 0 then mret (0, out, out_len, ctx) else mret (1, out, ret, ctx)
  else
    let b := cipher_block_size t in
    _ ← massert (b <=? EVP_MAX_BLOCK_LENGTH);
    if b =? 1 then mret (1, [], 0, ctx)
    else
      let bl := buf_len ctx in
      if has_flag (flags (core ctx)) EVP_CIPH_NO_PADDING then
        if negb (bl =? 0) then
          _ ← put_error CIPHER_R_DATA_NOT_MULTIPLE_OF_BLOCK_LENGTH; mret (0, [], out_len, ctx)
        else mret (1, [], 0, ctx)
      else
        let n := b - bl in
        bf ← mopt (mjoin (store_bytes (Some (buf ctx)) bl (replicate (Z.to_nat n) n)));
        let ctx := set_buf bf bl ctx in
        blk ← mopt (load_bytes (Some (buf ctx)) 0 b);
        '(ret, out, ctx) ← run_cipher t ctx (Some blk);
        mret (ret, out, if negb (ret =? 0) then b else out_len, ctx).

(** * Decryption *)

(** With padding, the last whole block is kept back in [final]; it is also in
    [out], beyond what [*out_len] counts. *)
Definition EVP_DecryptUpdate (ctx : EVP_CIPHER_CTX) (in_ : option (list Z)) (in_len out_len : Z) :
    W (Z * list Z * Z * EVP_CIPHER_CTX) :=
  t ← mopt (cipher ctx);
  let b := cipher_block_size t in
  if (1 <? b) && (INT_MAX - b <? in_len) then
    _ ← put_error CIPHER_R_OVERFLOW; mret (0, [], out_len, ctx)
  else if has_flag (cipher_flags t) EVP_CIPH_FLAG_CUSTOM_CIPHER then
    bs ← (match in_ with None => mret None | Some _ => bs ← mopt (load_bytes in_ 0 (u64 in_len)); mret (Some bs) end);
    '(r, out, ctx) ← run_cipher t ctx bs;
    if r <? 0 then mret (0, out, 0, ctx) else mret (1, out, r, ctx)
  else if in_len <=? 0 then mret (if in_len =? 0 then 1 else 0, [], 0, ctx)
  else if has_flag (flags (core ctx)) EVP_CIPH_NO_PADDING then EVP_EncryptUpdate ctx in_ in_len out_len
  else
    _ ← massert (b <=? EVP_MAX_BLOCK_LENGTH);
    kept ← (if negb (final_used ctx =? 0) then mopt (load_bytes (Some (final ctx)) 0 b) else mret []);
    let fix_len := negb (final_used ctx =? 0) in
    '(r, out, out_len, ctx) ← EVP_EncryptUpdate ctx in_ in_len out_len;
    if r =? 0 then mret (0, kept ++ out, out_len, ctx)
    else
      '(out_len, ctx) ←
        (if (1 <? b) && (buf_len ctx =? 0) then
           let out_len := out_len - b in
           bs ← mopt (load_bytes (Some out) out_len b);
           f ← mopt (mjoin (store_bytes (Some (final ctx)) 0 bs));
           mret (out_len, set_final 1 f ctx)
         else mret (out_len, set_final 0 (final ctx) ctx));
      mret (1, kept ++ out, if fix_len then out_len + b else out_len, ctx).

(** [final[--b] != n] for [count] bytes. *)
Fixpoint check_final (count : nat) (b n : Z) (f : list Z) : option bool :=
  match count with
  | O => Some true
  | S count =>
      let b := b - 1 in
      x ← f !! Z.to_nat b;
      if negb (x =? n) then Some false else check_final count b n f
  end.

Definition EVP_DecryptFinal_ex (ctx : EVP_CIPHER_CTX) : W (Z * list Z * Z * EVP_CIPHER_CTX) :=
  t ← mopt (cipher ctx);
  if has_flag (cipher_flags t) EVP_CIPH_FLAG_CUSTOM_CIPHER then
    '(i, out, ctx) ← run_cipher t ctx None;
    if i <? 0 then mret (0, out, 0, ctx) else mret (1, out, i, ctx)
  else
    let b := cipher_block_size t in
    if has_flag (flags (core ctx)) EVP_CIPH_NO_PADDING then
      if negb (buf_len ctx =? 0) then
        _ ← put_error CIPHER_R_DATA_NOT_MULTIPLE_OF_BLOCK_LENGTH; mret (0, [], 0, ctx)
      else mret (1, [], 0, ctx)
    else if 1 <? b then
      if negb (buf_len ctx =? 0) || (final_used ctx =? 0) then
        _ ← put_error CIPHER_R_WRONG_FINAL_BLOCK_LENGTH; mret (0, [], 0, ctx)
      else
        _ ← massert (b <=? EVP_MAX_BLOCK_LENGTH);
        n ← mopt (final ctx !! Z.to_nat (b - 1));
        if (n =? 0) || (b <? n) then _ ← put_error CIPHER_R_BAD_DECRYPT; mret (0, [], 0, ctx)
        else
          good ← mopt (check_final (Z.to_nat n) b n (final ctx));
          if negb good then _ ← put_error CIPHER_R_BAD_DECRYPT; mret (0, [], 0, ctx)
          else
            let n := b - n in
            out ← mopt (load_bytes (Some (final ctx)) 0 n);
            mret (1, out, n, ctx)
    else mret (1, [], 0, ctx).

Definition EVP_Cipher (ctx : EVP_CIPHER_CTX) (in_ : list Z) : W (Z * list Z * EVP_CIPHER_CTX) :=
  t ← mopt (cipher ctx); run_cipher t ctx (Some in_).

Definition EVP_CipherUpdate (ctx : EVP_CIPHER_CTX) (in_ : option (list Z)) (in_len out_len : Z) :
    W (Z * list Z * Z * EVP_CIPHER_CTX) :=
  if negb (encrypt (core ctx) =? 0) then EVP_EncryptUpdate ctx in_ in_len out_len else EVP_DecryptUpdate ctx in_ in_len out_len.

Definition EVP_CipherFinal_ex (ctx : EVP_CIPHER_CTX) (out_len : Z) : W (Z * list Z * Z * EVP_CIPHER_CTX) :=
  if negb (encrypt (core ctx) =? 0) then EVP_EncryptFinal_ex ctx out_len else EVP_DecryptFinal_ex ctx.

Definition EVP_CipherFinal := EVP_CipherFinal_ex.
Definition EVP_EncryptFinal := EVP_EncryptFinal_ex.
Definition EVP_DecryptFinal := EVP_DecryptFinal_ex.
Definition EVP_add_cipher_alias (a b : list Z) : Z := 1.
Definition EVP_CIPHER_CTX_set_flags (ctx : EVP_CIPHER_CTX) (f : Z) : EVP_CIPHER_CTX := ctx.
End Cipher.
Arguments cipher_core : clear implicits.
Arguments EVP_CIPHER : clear implicits.
Arguments EVP_CIPHER_CTX : clear implicits.
Arguments ctrl_ptr : clear implicits.
