(* ===== verification/CipherSpec.v ===== *)
(** What cipher.c promises: however a message is cut into calls, the cipher sees
    whole blocks in order, encryption ends with PKCS#7 padding and decryption
    takes it off or reports it. A cipher's functions are used through the
    interface [CipherMethod]. *)

From S2P Require Import Prelude CryptoInternal Buf Evp EvpSpec HmacSpec TlsCbcSpec Cipher.

(** * The interface of a cipher *)

Definition whole (bs : Z) (l : list Z) : Prop := exists n, 0 <= n /\ blen l = bs * n.

(** In the abstract state [s] the cipher turns blocks [l] into [crypt s l] and
    goes to [next s l]. *)
Class CipherMethod {D St} (t : EVP_CIPHER D) (rep : cipher_core D -> St -> Prop)
    (crypt : St -> list Z -> list Z) (next : St -> list Z -> St) : Prop := {
  cm_sizes : cipher_block_size t = 1 \/ cipher_block_size t = 8 \/ cipher_block_size t = 16;
  cm_not_custom : has_flag (cipher_flags t) EVP_CIPH_FLAG_CUSTOM_CIPHER = false;
  cm_nil s : crypt s [] = [] /\ next s [] = s;
  cm_app s a b : whole (cipher_block_size t) a -> whole (cipher_block_size t) b ->
    crypt s (a ++ b) = crypt s a ++ crypt (next s a) b /\ next s (a ++ b) = next (next s a) b;
  cm_len k s a : rep k s -> bytes a -> whole (cipher_block_size t) a -> blen (crypt s a) = blen a;
  cm_bytes k s a : rep k s -> bytes a -> whole (cipher_block_size t) a -> bytes (crypt s a);
  cm_run k s a w : rep k s -> bytes a -> whole (cipher_block_size t) a -> 0 < blen a -> blen a < 2 ^ 31 -> exists k',
    cipher_cipher t k (Some a) w = (Some (1, crypt s a, k'), w) /\ rep k' (next s a) /\ flags k' = flags k
}.

(** * Blocks *)

(** As many whole blocks as there are, and the rest. *)
Definition whole_of (bs : Z) (l : list Z) : list Z := take (Z.to_nat (blen l / bs * bs)) l.
Definition rest_of (bs : Z) (l : list Z) : list Z := drop (Z.to_nat (blen l / bs * bs)) l.

Lemma whole_rest bs l : whole_of bs l ++ rest_of bs l = l.
Proof. apply take_drop. Qed.

Lemma whole_of_bounds bs (l : list Z) : 0 < bs -> 0 <= blen l / bs * bs <= blen l.
Proof. intros Hb. pose proof (blen_nonneg l). pose proof (Z.div_pos (blen l) bs). pose proof (Z.mul_div_le (blen l) bs). nia. Qed.

Lemma blen_whole_of bs l : 0 < bs -> blen (whole_of bs l) = blen l / bs * bs.
Proof. intros. apply blen_take. by apply whole_of_bounds. Qed.

Lemma whole_of_whole bs l : 0 < bs -> whole bs (whole_of bs l).
Proof.
  intros Hb. exists (blen l / bs). pose proof (blen_nonneg l). rewrite blen_whole_of by done. split; [apply Z.div_pos; lia|lia].
Qed.

Lemma blen_rest_of bs l : 0 < bs -> blen (rest_of bs l) = blen l mod bs.
Proof.
  intros Hb. unfold rest_of. pose proof (whole_of_bounds bs l Hb). rewrite blen_drop by lia. pose proof (Z.div_mod (blen l) bs). lia.
Qed.

Lemma whole_nil bs : whole bs [].
Proof. exists 0. split; [done|]. by rewrite Z.mul_0_r. Qed.

Lemma whole_app bs a b : whole bs a -> whole bs b -> whole bs (a ++ b).
Proof. intros (n & Hn & Ha) (m & Hm & Hb). exists (n + m). rewrite blen_app. lia. Qed.

(** Whole blocks first, then the rest. *)
Lemma whole_of_app bs a b : 0 < bs -> whole bs a ->
  whole_of bs (a ++ b) = a ++ whole_of bs b /\ rest_of bs (a ++ b) = rest_of bs b.
Proof.
  intros Hb (n & Hn & Ha). pose proof (whole_of_bounds bs b Hb).
  assert (Z.to_nat (blen (a ++ b) / bs * bs) = length a + Z.to_nat (blen b / bs * bs))%nat as E.
  { rewrite blen_app, Ha. replace (bs * n + blen b) with (blen b + n * bs) by lia. rewrite Z.div_add by lia. unfold blen in *. lia. }
  unfold whole_of, rest_of. rewrite E. split; [apply take_app_add|apply drop_app_add].
Qed.

Lemma whole_of_short bs l : 0 < bs -> blen l < bs -> whole_of bs l = [] /\ rest_of bs l = l.
Proof.
  intros Hb Hl. pose proof (blen_nonneg l). unfold whole_of, rest_of. rewrite Z.div_small by lia. by rewrite take_0, drop_0.
Qed.

Lemma whole_of_exact bs l : 0 < bs -> whole bs l -> whole_of bs l = l /\ rest_of bs l = [].
Proof.
  intros Hb Hw. pose proof (whole_of_app bs l [] Hb Hw) as [E1 E2]. rewrite app_nil_r in E1, E2.
  destruct (whole_of_short bs [] Hb ltac:(done)) as [E3 E4]. by rewrite E1, E2, E3, E4, app_nil_r.
Qed.

Lemma whole_of_bytes bs l : bytes l -> bytes (whole_of bs l).
Proof. intros. by apply bytes_take. Qed.

(** [len & (block_size - 1)]. *)
Lemma block_remainder_run {D} (t : EVP_CIPHER D) len w :
  cipher_block_size t = 1 \/ cipher_block_size t = 8 \/ cipher_block_size t = 16 -> 0 <= len ->
  block_remainder t len w = (Some (len mod cipher_block_size t), w).
Proof.
  intros Hs Hl. unfold block_remainder. destruct Hs as [-> | [-> | ->]].
  - cbn [Z.eqb negb]. rewrite !massert_true. change (1 - 1) with 0. by rewrite Z.land_0_r, Z.mod_1_r.
  - change (Z.land 8 (8 - 1) =? 0) with true. cbn [Z.eqb negb]. rewrite !massert_true. change (8 - 1) with (Z.ones 3).
    by rewrite Z.land_ones by lia.
  - change (Z.land 16 (16 - 1) =? 0) with true. cbn [Z.eqb negb]. rewrite !massert_true. change (16 - 1) with (Z.ones 4).
    by rewrite Z.land_ones by lia.
Qed.

Section Streaming.
Context {D St : Type} (t : EVP_CIPHER D) (rep : cipher_core D -> St -> Prop)
  (crypt : St -> list Z -> list Z) (next : St -> list Z -> St) {cm : CipherMethod t rep crypt next}.

Notation BS := (cipher_block_size t).

Lemma bs_bounds : 0 < BS <= 16.
Proof. pose proof cm_sizes. lia. Qed.

(** The context: the cipher's state and the bytes of a block that has begun. *)
Record streaming (ctx : EVP_CIPHER_CTX D) (s : St) (pend : list Z) : Prop := {
  st_cipher : cipher ctx = Some t;
  st_rep : rep (core ctx) s;
  st_len : buf_len ctx = blen pend;
  st_short : blen pend < BS;
  st_room : blen (buf ctx) = EVP_MAX_BLOCK_LENGTH;
  st_pend : take (length pend) (buf ctx) = pend;
  st_bytes : bytes pend
}.

(** Nothing of the context but the stream changes. *)
Definition same_rest (ctx ctx' : EVP_CIPHER_CTX D) : Prop :=
  flags (core ctx') = flags (core ctx) /\ final_used ctx' = final_used ctx /\ final ctx' = final ctx.

Lemma run_cipher_run ctx s a w :
  rep (core ctx) s -> bytes a -> whole BS a -> 0 < blen a -> blen a < 2 ^ 31 -> exists k,
  run_cipher t ctx (Some a) w = (Some (1, crypt s a, set_core k ctx), w) /\ rep k (next s a) /\ flags k = flags (core ctx).
Proof.
  intros Hr Hb Hw Hp Hl. destruct (cm_run (core ctx) s a w Hr Hb Hw Hp Hl) as (k & E & Hk). exists k. split; [|done].
  unfold run_cipher. by rewrite (bind_ok _ _ _ _ _ E).
Qed.

(** Storing bytes after the pending ones. *)
Lemma buf_append ctx s pend p :
  streaming ctx s pend -> blen pend + blen p <= EVP_MAX_BLOCK_LENGTH -> exists b,
  mjoin (store_bytes (Some (buf ctx)) (blen pend) p) = Some b /\ blen b = EVP_MAX_BLOCK_LENGTH /\
  take (length (pend ++ p)) b = pend ++ p.
Proof.
  intros [_ _ _ _ Hroom Hp _] Hl. pose proof (blen_nonneg pend). pose proof (blen_nonneg p).
  rewrite store_into by lia. eexists. split; [done|]. split; [rewrite blen_write_at; lia|].
  unfold write_at. rewrite to_nat_blen, Hp, app_assoc. apply take_app_length'. by rewrite !length_app.
Qed.

Lemma load_buf b l : blen b = EVP_MAX_BLOCK_LENGTH -> take (length l) b = l -> blen l <= EVP_MAX_BLOCK_LENGTH ->
  load_bytes (Some b) 0 (blen l) = Some l.
Proof.
  intros Hb Ht Hl. pose proof (blen_nonneg l). rewrite load_at by lia. by rewrite drop_0, to_nat_blen, Ht.
Qed.

(** When the block in [buf] has been filled and encrypted, nothing is pending. *)
Lemma update_first_run ctx s pend p out_len w :
  streaming ctx s pend -> bytes p -> (pend = [] \/ BS - blen pend <= blen p) -> exists blk rest ctx',
  update_first t ctx (Some p) (blen p) out_len w = (Some (1, crypt s blk, Some rest, blen rest, blen blk, ctx'), w) /\
  pend ++ p = blk ++ rest /\ whole BS blk /\ streaming (set_buf (buf ctx') 0 ctx') (next s blk) [] /\ same_rest ctx ctx' /\
  bytes rest /\ blen rest <= blen p.
Proof.
  intros Hst Hb Hp. pose proof bs_bounds as Hbs. unfold update_first. pose proof Hst as [Hc Hr Hn Hsh Hroom Htk Hpb].
  rewrite Hn. destruct (Z.eqb_spec (blen pend) 0) as [E0|E0]; cbn [negb].
  - exists [], p, ctx. destruct (cm_nil s) as [-> ->]. rewrite (blen_inv_nil pend E0). split_and!; try done.
    + apply whole_nil.
    + split; try done; change (blen (@nil Z)) with 0; lia.
  - destruct Hp as [->|Hp]; [done|]. pose proof (blen_nonneg pend).
    rewrite load_at, mopt_bind by lia. rewrite drop_0. set (j := BS - blen pend). set (a := take (Z.to_nat j) p).
    assert (blen a = j) as Ha by (apply blen_take; lia). unfold EVP_MAX_BLOCK_LENGTH in *.
    destruct (buf_append ctx s pend a Hst) as (b & E & Hbl & Hbt); [unfold EVP_MAX_BLOCK_LENGTH; lia|].
    rewrite E, mopt_bind. cbn [buf set_buf]. assert (blen (pend ++ a) = BS) as Hblk by (rewrite blen_app; lia).
    pose proof (load_buf b (pend ++ a) Hbl Hbt ltac:(unfold EVP_MAX_BLOCK_LENGTH; lia)) as El. rewrite Hblk in El.
    rewrite El, mopt_bind.
    assert (bytes (pend ++ a)) as Hblkb by (apply bytes_app; split; [done|by apply bytes_take]).
    assert (whole BS (pend ++ a)) as Hw by (exists 1; lia).
    destruct (run_cipher_run (set_buf b (blen pend) ctx) s (pend ++ a) w Hr Hblkb Hw) as (k & Ek & Hk & Hf); [lia|lia|].
    rewrite (bind_ok _ _ _ _ _ Ek). cbn [Z.eqb]. exists (pend ++ a), (drop (Z.to_nat j) p), (set_core k (set_buf b (blen pend) ctx)).
    split; [|split_and!].
    + cbn [fmap option_fmap option_map]. rewrite blen_drop, Hblk by lia. done.
    + rewrite <-app_assoc. unfold a. by rewrite take_drop.
    + done.
    + split; try done; change (blen (@nil Z)) with 0; lia.
    + done.
    + by apply bytes_drop.
    + rewrite blen_drop; lia.
Qed.

Lemma update_rest_run ctx s p out out_len w :
  streaming (set_buf (buf ctx) 0 ctx) s [] -> bytes p -> blen p < 2 ^ 31 -> exists ctx',
  update_rest t ctx out (Some p) (blen p) out_len w =
    (Some (1, out ++ crypt s (whole_of BS p), out_len + blen (whole_of BS p), ctx'), w) /\
  streaming ctx' (next s (whole_of BS p)) (rest_of BS p) /\ same_rest ctx ctx'.
Proof.
  intros [Hc Hr _ _ Hroom _ _] Hb Hp. pose proof bs_bounds as Hbs. pose proof (blen_nonneg p) as Hp0.
  unfold update_rest. rewrite (bind_ok _ _ _ _ _ (block_remainder_run t (blen p) w cm_sizes Hp0)).
  pose proof (whole_of_bounds BS p ltac:(lia)) as Hwb. pose proof (Z.div_mod (blen p) BS ltac:(lia)) as Hdm.
  pose proof (Z.mod_pos_bound (blen p) BS ltac:(lia)) as Hm. pose proof (blen_whole_of BS p ltac:(lia)) as Hwl.
  pose proof (whole_of_whole BS p ltac:(lia)) as Hw. pose proof (blen_rest_of BS p ltac:(lia)) as Hrl.
  replace (blen p - blen p mod BS) with (blen (whole_of BS p)) by lia.
  assert (exists k, (if 0 <? blen (whole_of BS p) then
       bs ← mopt (load_bytes (Some p) 0 (blen (whole_of BS p)));
       '(ret, out2, ctx) ← run_cipher t ctx (Some bs);
       if ret =? 0 then mret (0, out ++ out2, out_len, ctx)
       else mret (1, out ++ out2, out_len + blen (whole_of BS p), ctx)
     else mret (1, out, out_len, ctx) : W _) w =
    (Some (1, out ++ crypt s (whole_of BS p), out_len + blen (whole_of BS p), set_core k ctx), w) /\
    rep k (next s (whole_of BS p)) /\ flags k = flags (core ctx)) as (k & E & Hk & Hf).
  { destruct (Z.ltb_spec 0 (blen (whole_of BS p))) as [H|H].
    - rewrite load_at, mopt_bind by lia. rewrite drop_0.
      assert (take (Z.to_nat (blen (whole_of BS p))) p = whole_of BS p) as -> by (by rewrite Hwl).
      destruct (run_cipher_run ctx s (whole_of BS p) w Hr (whole_of_bytes _ _ Hb) Hw) as (k & Ek & Hk); [lia|lia|].
      exists k. rewrite (bind_ok _ _ _ _ _ Ek). by cbn [Z.eqb].
    - rewrite (blen_inv_nil (whole_of BS p)) by lia. destruct (cm_nil s) as [-> ->]. exists (core ctx).
      rewrite blen_nil, Z.add_0_r, app_nil_r. split; [|done]. by destruct ctx. }
  rewrite (bind_ok _ _ _ _ _ E). cbn [Z.eqb buf set_core].
  assert (exists b, (if negb (blen p mod BS =? 0) then
      bs ← mopt (load_bytes (Some p) (blen (whole_of BS p)) (blen p mod BS)); mopt (mjoin (store_bytes (Some (buf ctx)) 0 bs))
    else mret (buf ctx) : W _) w = (Some b, w) /\ blen b = EVP_MAX_BLOCK_LENGTH /\
    take (length (rest_of BS p)) b = rest_of BS p) as (b & Eb & Hbl & Hbt).
  { cbn [buf set_buf] in Hroom. destruct (Z.eqb_spec (blen p mod BS) 0) as [E0|E0]; cbn [negb].
    - exists (buf ctx). rewrite (blen_inv_nil (rest_of BS p)) by lia. done.
    - rewrite load_at, mopt_bind by lia.
      assert (take (Z.to_nat (blen p mod BS)) (drop (Z.to_nat (blen (whole_of BS p))) p) = rest_of BS p) as ->.
      { rewrite Hwl. fold (rest_of BS p). apply take_ge. unfold blen in *. lia. }
      unfold EVP_MAX_BLOCK_LENGTH in *. rewrite store_into by lia. eexists. split; [done|]. split; [rewrite blen_write_at; lia|].
      unfold write_at. rewrite take_0, app_nil_l. by rewrite take_app_length. }
  rewrite (bind_ok _ _ _ _ _ Eb). eexists. split; [done|]. split; [|done].
  split; cbn; [exact Hc|exact Hk|lia|lia|exact Hbl|exact Hbt|by apply bytes_drop].
Qed.

(** [EVP_EncryptUpdate] passes the whole blocks of what is pending and the input
    to the cipher and keeps the rest. *)
Lemma EncryptUpdate_run ctx s pend p out_len w :
  streaming ctx s pend -> bytes p -> blen p <= INT_MAX - BS -> exists ctx',
  EVP_EncryptUpdate ctx (Some p) (blen p) out_len w =
    (Some (1, crypt s (whole_of BS (pend ++ p)), blen (whole_of BS (pend ++ p)), ctx'), w) /\
  streaming ctx' (next s (whole_of BS (pend ++ p))) (rest_of BS (pend ++ p)) /\ same_rest ctx ctx'.
Proof.
  intros Hst Hb Hl. pose proof bs_bounds as Hbs. pose proof (blen_nonneg p) as Hp0. pose proof Hst as [Hc Hr Hn Hsh Hroom Htk Hpb].
  unfold EVP_EncryptUpdate. rewrite Hc, mopt_bind, cm_not_custom.
  rewrite (proj2 (Z.ltb_ge (INT_MAX - BS) _)), andb_false_r by lia. unfold INT_MAX in Hl.
  destruct (Z.leb_spec (blen p) 0) as [H0|H0].
  { rewrite (blen_inv_nil p) by lia. rewrite app_nil_r. destruct (whole_of_short BS pend ltac:(lia) Hsh) as [-> ->].
    destruct (cm_nil s) as [-> ->]. by exists ctx. }
  rewrite Hn. pose proof (blen_nonneg pend) as Hpn.
  assert ((if blen pend =? 0 then r ← block_remainder t (blen p); mret (r =? 0) else mret false : W bool) w =
    (Some ((blen pend =? 0) && (blen p mod BS =? 0)), w)) as Ew.
  { destruct (blen pend =? 0); [|done]. by rewrite (bind_ok _ _ _ _ _ (block_remainder_run t (blen p) w cm_sizes Hp0)). }
  rewrite (bind_ok _ _ _ _ _ Ew). clear Ew.
  destruct ((blen pend =? 0) && (blen p mod BS =? 0)) eqn:Ewh.
  { apply andb_true_iff in Ewh as [E0%Z.eqb_eq Em%Z.eqb_eq].
    assert (whole BS p) as Hw by (exists (blen p / BS); split; [apply Z.div_pos; lia|]; apply Z.div_exact; lia).
    rewrite (blen_inv_nil pend E0). rewrite app_nil_l. destruct (whole_of_exact BS p ltac:(lia) Hw) as [-> ->].
    rewrite load_bytes_all, mopt_bind. destruct (run_cipher_run ctx s p w Hr Hb Hw H0) as (k & Ek & Hk & Hf); [lia|].
    rewrite (bind_ok _ _ _ _ _ Ek). cbn [Z.eqb negb]. eexists. split; [done|]. split; [|done].
    split; cbn; try done; change (blen (@nil Z)) with 0; lia. }
  rewrite (proj2 (Z.leb_le BS _)), massert_true by (unfold EVP_MAX_BLOCK_LENGTH; lia).
  destruct (negb (blen pend =? 0) && (blen p <? BS - blen pend)) eqn:Efit.
  { apply andb_true_iff in Efit as [_ Efit%Z.ltb_lt].
    destruct (whole_of_short BS (pend ++ p) ltac:(lia)) as [-> ->]; [rewrite blen_app; lia|]. destruct (cm_nil s) as [-> ->].
    rewrite load_bytes_all, mopt_bind.
    destruct (buf_append ctx s pend p Hst) as (b & E & Hbl & Hbt); [unfold EVP_MAX_BLOCK_LENGTH; lia|].
    rewrite E, mopt_bind. eexists. split; [done|]. split; [|done].
    split; cbn; try done; rewrite ?blen_app; try lia. by apply bytes_app. }
  destruct (update_first_run ctx s pend p out_len w Hst Hb) as (blk & rest & c1 & E1 & Hcat & Hw & Hs1 & Hsame & Hrb & Hrl).
  { apply andb_false_iff in Efit as [E%negb_false_iff%Z.eqb_eq|E%Z.ltb_ge]; [left; by apply blen_inv_nil|by right]. }
  rewrite (bind_ok _ _ _ _ _ E1). cbn [Z.eqb].
  destruct (update_rest_run c1 (next s blk) rest (crypt s blk) (blen blk) w Hs1 Hrb ltac:(lia)) as (c2 & E2 & Hs2 & Hsame2).
  rewrite E2, Hcat. destruct (whole_of_app BS blk rest ltac:(lia) Hw) as [-> ->].
  destruct (cm_app s blk (whole_of BS rest) Hw (whole_of_whole BS rest ltac:(lia))) as [-> ->]. rewrite blen_app.
  exists c2. split; [done|]. split; [done|]. destruct Hsame as (? & ? & ?), Hsame2 as (? & ? & ?). by split_and!; etransitivity.
Qed.
(** * Whole messages *)

Lemma crypt_len ctx s pend a : streaming ctx s pend -> bytes a -> whole BS a -> blen (crypt s a) = blen a.
Proof. intros Hst. apply (cm_len (core ctx)), Hst. Qed.

(** What remains of more input: the blocks of what has been seen are done. *)
Lemma whole_of_more l p :
  whole_of BS (l ++ p) = whole_of BS l ++ whole_of BS (rest_of BS l ++ p) /\
  rest_of BS (l ++ p) = rest_of BS (rest_of BS l ++ p).
Proof.
  pose proof bs_bounds. pose proof (whole_of_app BS (whole_of BS l) (rest_of BS l ++ p) ltac:(lia) ltac:(apply whole_of_whole; lia)) as H0.
  by rewrite app_assoc, whole_rest in H0.
Qed.

Lemma crypt_more s l p :
  crypt s (whole_of BS (l ++ p)) = crypt s (whole_of BS l) ++ crypt (next s (whole_of BS l)) (whole_of BS (rest_of BS l ++ p)) /\
  next s (whole_of BS (l ++ p)) = next (next s (whole_of BS l)) (whole_of BS (rest_of BS l ++ p)).
Proof.
  pose proof bs_bounds. destruct (whole_of_more l p) as [-> _]. apply cm_app; apply whole_of_whole; lia.
Qed.

(** The context has taken in [msg] and written [out], in the whole. *)
Definition encrypting (ctx : EVP_CIPHER_CTX D) (s : St) (msg out : list Z) : Prop :=
  streaming ctx (next s (whole_of BS msg)) (rest_of BS msg) /\ out = crypt s (whole_of BS msg).

Lemma encrypting_update ctx s msg out p out_len w :
  encrypting ctx s msg out -> bytes p -> blen p <= INT_MAX - BS -> exists bs' n ctx',
  EVP_EncryptUpdate ctx (Some p) (blen p) out_len w = (Some (1, bs', n, ctx'), w) /\ n = blen bs' /\
  encrypting ctx' s (msg ++ p) (out ++ bs') /\ same_rest ctx ctx'.
Proof.
  intros [Hst ->] Hb Hl. destruct (EncryptUpdate_run ctx _ _ p out_len w Hst Hb Hl) as (ctx' & E & Hst' & Hsame).
  pose proof bs_bounds. eexists _, _, ctx'. split; [exact E|].
  split.
  { symmetry. apply (crypt_len ctx _ _ _ Hst); [|apply whole_of_whole; lia].
    apply whole_of_bytes, bytes_app. split; [apply (st_bytes _ _ _ Hst)|done]. }
  split; [|done]. unfold encrypting.
  destruct (crypt_more s msg p) as [-> ->]. destruct (whole_of_more msg p) as [_ ->]. done.
Qed.

(** PKCS#7: [n] bytes [n], up to a whole number of blocks. *)
Definition pkcs7_pad (bs : Z) (msg : list Z) : list Z :=
  let n := bs - blen msg mod bs in msg ++ replicate (Z.to_nat n) n.

Lemma pkcs7_pad_rest msg : pkcs7_pad BS msg = whole_of BS msg ++ pkcs7_pad BS (rest_of BS msg).
Proof.
  pose proof bs_bounds. unfold pkcs7_pad. rewrite <-(whole_rest BS msg) at 1. rewrite <-app_assoc. do 2 f_equal.
  rewrite blen_rest_of by lia. rewrite Z.mod_mod by lia. done.
Qed.

(** The last call. *)
Lemma encrypting_final ctx s msg out out_len w :
  encrypting ctx s msg out -> 1 < BS -> has_flag (flags (core ctx)) EVP_CIPH_NO_PADDING = false -> exists bs' ctx',
  EVP_EncryptFinal_ex ctx out_len w = (Some (1, bs', BS, ctx'), w) /\ blen bs' = BS /\
  out ++ bs' = crypt s (pkcs7_pad BS msg).
Proof.
  intros [Hst ->] Hbs1 Hf. pose proof bs_bounds as Hbs. pose proof Hst as [Hc Hr Hn Hsh Hroom Htk Hpb].
  set (pend := rest_of BS msg) in *. pose proof (blen_nonneg pend) as Hp0. unfold EVP_EncryptFinal_ex.
  rewrite Hc, mopt_bind, cm_not_custom. rewrite (proj2 (Z.leb_le BS _)), massert_true by (unfold EVP_MAX_BLOCK_LENGTH; lia).
  rewrite (proj2 (Z.eqb_neq BS 1)), Hf, Hn by lia. set (n := BS - blen pend).
  assert (pkcs7_pad BS pend = pend ++ replicate (Z.to_nat n) n) as Epad by (unfold pkcs7_pad; by rewrite Z.mod_small by lia).
  assert (blen (replicate (Z.to_nat n) n) = n) as Hrl by (apply blen_replicate; lia).
  destruct (buf_append ctx _ pend (replicate (Z.to_nat n) n) Hst) as (b & E & Hbl & Hbt); [unfold EVP_MAX_BLOCK_LENGTH; lia|].
  rewrite E, mopt_bind. cbn [buf set_buf]. assert (blen (pend ++ replicate (Z.to_nat n) n) = BS) as Hblk by (rewrite blen_app; lia).
  pose proof (load_buf b _ Hbl Hbt ltac:(unfold EVP_MAX_BLOCK_LENGTH; lia)) as El. rewrite Hblk in El. rewrite El, mopt_bind.
  assert (bytes (pend ++ replicate (Z.to_nat n) n)) as Hblkb
    by (apply bytes_app; split; [done|]; apply bytes_replicate; split; [lia|]; change (2 ^ 8) with 256; lia).
  assert (whole BS (pend ++ replicate (Z.to_nat n) n)) as Hw by (exists 1; lia).
  destruct (run_cipher_run (set_buf b (blen pend) ctx) _ _ w Hr Hblkb Hw) as (k & Ek & Hk & Hf'); [lia|lia|].
  rewrite (bind_ok _ _ _ _ _ Ek). cbn [Z.eqb negb]. eexists _, _. split; [done|]. split; [by rewrite (crypt_len ctx _ _ _ Hst), Hblk|].
  rewrite pkcs7_pad_rest. fold pend. rewrite Epad. symmetry. apply cm_app; [apply whole_of_whole; lia|done].
Qed.

(** * Decryption *)

(** The block kept back. *)
Definition holding (ctx : EVP_CIPHER_CTX D) (held : list Z) : Prop :=
  blen (final ctx) = EVP_MAX_BLOCK_LENGTH /\
  (held = [] /\ final_used ctx = 0 \/
   blen held = BS /\ final_used ctx = 1 /\ take (Z.to_nat BS) (final ctx) = held /\ bytes held).

(** The context has taken in [ct] and given out [out]. *)
Definition decrypting (ctx : EVP_CIPHER_CTX D) (s : St) (ct out : list Z) : Prop :=
  streaming ctx (next s (whole_of BS ct)) (rest_of BS ct) /\
  has_flag (flags (core ctx)) EVP_CIPH_NO_PADDING = false /\
  exists held, holding ctx held /\ out ++ held = crypt s (whole_of BS ct) /\
    (held = [] <-> BS = 1 \/ rest_of BS ct <> [] \/ ct = []).

Lemma rest_of_cat ct p : bytes ct -> rest_of BS (ct ++ p) = rest_of BS (rest_of BS ct ++ p).
Proof. intros _. apply whole_of_more. Qed.

Lemma holding_load ctx held : holding ctx held ->
  (if negb (final_used ctx =? 0) then load_bytes (Some (final ctx)) 0 BS else Some []) = Some held.
Proof.
  intros [Hl [[-> ->]|(Hh & -> & Ht & _)]]; [done|]. cbn [Z.eqb negb]. pose proof bs_bounds. unfold EVP_MAX_BLOCK_LENGTH in *.
  rewrite load_at by lia. by rewrite drop_0, Ht.
Qed.

Lemma decrypting_update ctx s ct out p out_len w :
  decrypting ctx s ct out -> bytes p -> blen p <= INT_MAX - BS -> exists bs' n ctx',
  EVP_DecryptUpdate ctx (Some p) (blen p) out_len w = (Some (1, bs', n, ctx'), w) /\ 0 <= n <= blen bs' /\
  decrypting ctx' s (ct ++ p) (out ++ take (Z.to_nat n) bs').
Proof.
  intros (Hst & Hflag & held & Hh & Hout & Hheld) Hb Hl. pose proof bs_bounds as Hbs. pose proof (st_cipher _ _ _ Hst) as Hc.
  unfold EVP_DecryptUpdate. rewrite Hc, mopt_bind, cm_not_custom, Hflag.
  rewrite (proj2 (Z.ltb_ge (INT_MAX - BS) _)), andb_false_r by lia. pose proof (blen_nonneg p) as Hp0.
  destruct (Z.leb_spec (blen p) 0) as [H0|H0].
  { rewrite (blen_inv_nil p) by lia. exists [], 0, ctx. split; [done|]. split; [done|]. cbn [take]. rewrite !app_nil_r.
    split; [done|]. split; [done|]. by exists held. }
  rewrite (proj2 (Z.leb_le BS _)), massert_true by (unfold EVP_MAX_BLOCK_LENGTH; lia).
  pose proof (holding_load ctx held Hh) as Ekept.
  assert ((if negb (final_used ctx =? 0) then mopt (load_bytes (Some (final ctx)) 0 BS) else mret [] : W (list Z)) w = (Some held, w)) as Ek.
  { destruct (negb (final_used ctx =? 0)); [by rewrite Ekept|]. injection Ekept as <-. done. }
  rewrite (bind_ok _ _ _ _ _ Ek). clear Ek Ekept.
  destruct (EncryptUpdate_run ctx _ _ p out_len w Hst Hb Hl) as (c1 & E1 & Hst1 & Hsame1). rewrite (bind_ok _ _ _ _ _ E1).
  cbn [Z.eqb]. destruct (crypt_more s ct p) as [Ecm Enm]. destruct (whole_of_more ct p) as [_ Erm].
  rewrite <-Enm, <-Erm in Hst1. set (blk := whole_of BS (rest_of BS ct ++ p)) in *.
  set (P := crypt (next s (whole_of BS ct)) blk) in *.
  assert (whole BS blk) as Hwb by (apply whole_of_whole; lia). assert (bytes blk) as Hblkb by (apply whole_of_bytes, bytes_app; split; [apply (st_bytes _ _ _ Hst)|done]).
  assert (blen P = blen blk) as HPl by (by apply (crypt_len ctx _ _ _ Hst)).
  destruct Hsame1 as (Hf1 & Hu1 & Hfin1). destruct Hh as [Hfl Hhc].
  assert ((if negb (final_used ctx =? 0) then blen held else 0) = blen held /\
    forall n, (if negb (final_used ctx =? 0) then n + BS else n) = n + blen held) as [_ Hfix].
  { destruct Hhc as [[-> ->]|(Hh1 & -> & _)]; cbn [Z.eqb negb]; (split; [done|]); intros n; [change (blen (@nil Z)) with 0; lia|lia]. }
  assert (bytes P) as HPb by (by apply (cm_bytes (core ctx)); [apply Hst|..]).
  rewrite (st_len _ _ _ Hst1). pose proof (blen_nonneg held) as Hh0. pose proof (blen_nonneg blk).
  destruct ((1 <? BS) && (blen (rest_of BS (ct ++ p)) =? 0)) eqn:Ehold.
  - apply andb_true_iff in Ehold as [H1%Z.ltb_lt Hr0%Z.eqb_eq]. apply blen_inv_nil in Hr0.
    assert (BS <= blen blk) as Hge.
    { pose proof (whole_rest BS (rest_of BS ct ++ p)) as Ecat. rewrite <-Erm, Hr0, app_nil_r in Ecat. fold blk in Ecat.
      assert (0 < blen blk) by (rewrite Ecat, blen_app; pose proof (blen_nonneg (rest_of BS ct)); lia).
      destruct Hwb as (m & Hm & Hbm). rewrite Hbm in *. clearbody blk. clear -Hm H1 H2. assert (m <> 0) by (intros ->; lia). nia. }
    set (lst := take (Z.to_nat BS) (drop (Z.to_nat (blen blk - BS)) P)).
    assert (blen lst = BS) as Hlst by (unfold lst; rewrite blen_take; [done|rewrite blen_drop; lia]).
    unfold EVP_MAX_BLOCK_LENGTH in Hfl.
    rewrite (bind_ok _ _ _ (blen blk - BS, set_final 1 (write_at 0 lst (final c1)) c1) w).
    2:{ rewrite load_at, mopt_bind by lia. fold lst. by rewrite store_into, mopt_bind by (rewrite ?Hfin1; lia). }
    rewrite Hfix.
    eexists _, _, _. split; [done|]. split; [rewrite blen_app; lia|].
    assert (take (Z.to_nat (blen blk - BS + blen held)) (held ++ P) ++ lst = held ++ P) as Etake.
    { unfold lst. rewrite take_app_ge by (unfold blen in *; lia). rewrite <-app_assoc. f_equal.
      replace (Z.to_nat (blen blk - BS + blen held) - length held)%nat with (Z.to_nat (blen blk - BS)) by (unfold blen in *; lia).
      rewrite (take_ge (drop _ _)) by (rewrite length_drop; unfold blen in *; lia). apply take_drop. }
    split; [|split; [by cbn; rewrite Hf1|]].
    + destruct Hst1. by split.
    + exists lst. split.
      * split; [cbn; rewrite blen_write_at by (rewrite ?Hfin1; lia); by rewrite Hfin1|]. right. cbn. split_and!; try done.
        { unfold write_at. rewrite take_0, app_nil_l, <-Hlst. apply take_blen_app. }
        unfold lst. by apply bytes_take, bytes_drop.
      * rewrite <-app_assoc, Etake, app_assoc, Hout, Ecm. split; [done|]. rewrite Hr0. split.
        { intros ->. change (blen (@nil Z)) with 0 in Hlst. lia. }
        { intros [?|[?|[_ ->]%app_eq_nil]]; [lia|done|]. change (blen (@nil Z)) with 0 in H0. lia. }
  - rewrite (bind_ok _ _ _ (blen blk, set_final 0 (final c1) c1) w) by done. rewrite Hfix. eexists _, _, _. split; [done|]. split; [rewrite blen_app; lia|].
    rewrite take_ge by (rewrite length_app; unfold blen in *; lia).
    split; [by destruct Hst1; split|]. split; [by cbn; rewrite Hf1|]. exists []. split; [|split].
    + split; [cbn; by rewrite Hfin1|]. by left.
    + by rewrite app_nil_r, app_assoc, Hout, Ecm.
    + split; [intros _|done]. apply andb_false_iff in Ehold as [E%Z.ltb_ge|E%Z.eqb_neq]; [left; lia|right; left].
      intros Er. rewrite Er in E. done.
Qed.

(** Whether the block ends in [n] bytes [n]. *)
Lemma check_final_run f n count : forall b,
  Z.of_nat count <= b -> b <= blen f -> exists g, check_final count b n f = Some g /\
  (g = true <-> forall k, b - Z.of_nat count <= k < b -> nth (Z.to_nat k) f 0 = n).
Proof.
  induction count as [|count IH]; intros b Hc Hb; cbn [check_final]; [exists true; split; [done|]; split; [lia|done]|].
  rewrite lookup_nth by (unfold blen in *; lia). cbn [mbind option_bind].
  destruct (Z.eqb_spec (nth (Z.to_nat (b - 1)) f 0) n) as [E|E]; cbn [negb].
  - destruct (IH (b - 1)) as (g & -> & Hg); [lia..|]. exists g. split; [done|]. rewrite Hg. split; intros Hk k Hkb.
    + destruct (decide (k = b - 1)) as [->|]; [done|apply Hk; lia].
    + apply Hk. lia.
  - exists false. split; [done|]. split; [done|]. intros Hk. exfalso. apply E, Hk. lia.
Qed.

Lemma ends_with l n v : 0 <= n <= blen l -> (forall k, blen l - n <= k < blen l -> nth (Z.to_nat k) l 0 = v) ->
  take (Z.to_nat (blen l - n)) l ++ replicate (Z.to_nat n) v = l.
Proof.
  intros Hn Hk. rewrite <-(take_drop (Z.to_nat (blen l - n)) l) at 3. f_equal.
  assert (length (drop (Z.to_nat (blen l - n)) l) = Z.to_nat n) as Hl by (rewrite length_drop; unfold blen in *; lia).
  symmetry. apply (nth_ext _ _ 0 0); [by rewrite length_replicate|]. rewrite Hl. intros i Hi.
  rewrite nth_skipn, (nth_lookup (replicate _ _)), lookup_replicate_2 by done. cbn [default].
  etransitivity; [|apply (Hk (blen l - n + Z.of_nat i)); lia]. f_equal. unfold blen in *. lia.
Qed.

(** [msg] with PKCS#7 padding. *)
Definition padded (bs : Z) (p msg : list Z) : Prop := exists n, 1 <= n <= bs /\ p = msg ++ replicate (Z.to_nat n) n.

Lemma padded_last bs p msg held out : blen held = bs -> out ++ held = p -> 1 <= bs -> padded bs p msg ->
  exists n h, nth (Z.to_nat (bs - 1)) held 0 = n /\ 1 <= n <= bs /\ held = h ++ replicate (Z.to_nat n) n /\ msg = out ++ h.
Proof.
  intros Hl Hp Hbs (n & Hn & E). assert (blen (replicate (Z.to_nat n) n) = n) as Hr by (apply blen_replicate; lia).
  assert (exists h, msg = out ++ h /\ held = h ++ replicate (Z.to_nat n) n) as (h & -> & ->).
  { rewrite <-Hp in E. pose proof (f_equal (@length Z) E) as El. rewrite !length_app in El.
    exists (take (Z.to_nat (bs - n)) held). rewrite <-(take_drop (Z.to_nat (bs - n)) held) in E at 1. rewrite app_assoc in E.
    apply app_inj_2 in E as [E1 E2].
    2:{ rewrite length_drop. unfold blen in *. lia. }
    split; [done|]. rewrite <-E2. by rewrite take_drop. }
  exists n, h. split; [|done]. rewrite blen_app in Hl. rewrite app_nth2 by (unfold blen in *; lia).
  rewrite nth_lookup, lookup_replicate_2; [done|unfold blen in *; lia].
Qed.

Lemma nth_take_lt (l : list Z) n k : (k < n)%nat -> nth k (take n l) 0 = nth k l 0.
Proof. intros. by rewrite nth_lookup, lookup_take_lt, <-nth_lookup. Qed.

Definition decrypt_error (w : evp_world) (e : evp_error) : evp_world := World (requests w) (live w) (e :: errors w).

(** The last call of a decryption. *)
Lemma decrypting_final ctx s ct out w :
  decrypting ctx s ct out -> 1 < BS -> exists r bs' w',
  EVP_DecryptFinal_ex ctx w = (Some (r, bs', blen bs', ctx), w') /\
  ((~ whole BS ct \/ ct = []) /\ r = 0 /\ bs' = [] /\ w' = decrypt_error w CIPHER_R_WRONG_FINAL_BLOCK_LENGTH \/
   whole BS ct /\ ct <> [] /\
     ((exists msg, padded BS (crypt s ct) msg /\ r = 1 /\ out ++ bs' = msg /\ w' = w) \/
      (~ exists msg, padded BS (crypt s ct) msg) /\ r = 0 /\ bs' = [] /\ w' = decrypt_error w CIPHER_R_BAD_DECRYPT)).
Proof.
  intros (Hst & Hflag & held & [Hfl Hh] & Hout & Hheld) H1. pose proof bs_bounds as Hbs. unfold EVP_DecryptFinal_ex.
  pose proof Hst as [Hc _ Hn _ _ _ _]. rewrite Hc, mopt_bind, cm_not_custom, Hflag, (proj2 (Z.ltb_lt 1 BS)), Hn by done.
  assert (rest_of BS ct = [] <-> whole BS ct) as Hrw.
  { split; [|intros Hw; apply (whole_of_exact BS ct ltac:(lia) Hw)]. intros Er. pose proof (whole_rest BS ct) as E.
    rewrite Er, app_nil_r in E. rewrite <-E. apply whole_of_whole. lia. }
  destruct Hh as [[-> Hu]|(Hhl & Hu & Ht & Hb)]; rewrite Hu.
  { rewrite orb_true_r. eexists 0, [], _. split; [done|]. left. split; [|done].
    destruct (proj1 Hheld eq_refl) as [?|[Hr| ->]]; [lia|left; by rewrite <-Hrw|by right]. }
  assert (held <> []) as Hne by (intros ->; change (blen (@nil Z)) with 0 in Hhl; lia).
  assert (rest_of BS ct = []) as Hr0.
  { destruct (decide (rest_of BS ct = [])) as [|Hr]; [done|]. exfalso. apply Hne, Hheld. by right; left. }
  assert (ct <> []) as Hct by (intros ->; apply Hne, Hheld; by right; right).
  pose proof (proj1 Hrw Hr0) as Hw. destruct (whole_of_exact BS ct ltac:(lia) Hw) as [Ew _]. rewrite Ew in Hout.
  rewrite Hr0. change (blen (@nil Z)) with 0. cbn [Z.eqb negb orb].
  rewrite (proj2 (Z.leb_le BS _)), massert_true by (unfold EVP_MAX_BLOCK_LENGTH; lia). unfold EVP_MAX_BLOCK_LENGTH in Hfl.
  rewrite lookup_nth, mopt_bind by (unfold blen in *; lia).
  assert (forall k, 0 <= k < BS -> nth (Z.to_nat k) (final ctx) 0 = nth (Z.to_nat k) held 0) as Hnth.
  { intros k Hk. rewrite <-Ht. symmetry. apply nth_take_lt. lia. }
  rewrite Hnth by lia. set (n := nth _ held 0).
  assert (forall msg, padded BS (crypt s ct) msg -> exists h, 1 <= n <= BS /\ held = h ++ replicate (Z.to_nat n) n /\ msg = out ++ h) as Hpad.
  { intros msg Hp. destruct (padded_last BS _ msg held out Hhl Hout ltac:(lia) Hp) as (n' & h & <- & Hn' & Hh & Hm). by exists h. }
  pose proof (nth_is_byte held (Z.to_nat (BS - 1)) Hb) as [Hn0 _]. fold n in Hn0.
  destruct ((n =? 0) || (BS <? n)) eqn:Ebad.
  { eexists 0, [], _. split; [done|]. right. split; [done|]. split; [done|]. right. split; [|done]. intros (msg & Hp).
    destruct (Hpad msg Hp) as (h & Hnb & _). apply orb_true_iff in Ebad as [E%Z.eqb_eq|E%Z.ltb_lt]; lia. }
  apply orb_false_iff in Ebad as [E1%Z.eqb_neq E2%Z.ltb_ge].
  destruct (check_final_run (final ctx) n (Z.to_nat n) BS) as (g & -> & Hg); [lia..|]. rewrite mopt_bind.
  rewrite Z2Nat.id in Hg by lia. destruct g; cbn [negb].
  - rewrite load_at, mopt_bind by lia. set (bs' := take _ _).
    assert (blen bs' = BS - n) as Hbl by (unfold bs'; rewrite drop_0; apply blen_take; lia).
    eexists 1, bs', w. split; [by rewrite Hbl|]. right. split; [done|]. split; [done|]. left. exists (out ++ bs'). split; [|done].
    exists n. split; [lia|]. rewrite <-Hout, <-app_assoc. f_equal.
    assert (bs' = take (Z.to_nat (BS - n)) held) as ->.
    { unfold bs'. rewrite drop_0, <-Ht, take_take. f_equal. lia. }
    rewrite <-Hhl. symmetry. apply ends_with; [lia|]. intros k Hk. rewrite <-Hnth by lia. apply Hg; [done|lia].
  - eexists 0, [], _. split; [done|]. right. split; [done|]. split; [done|]. right. split; [|done]. intros (msg & Hp).
    destruct (Hpad msg Hp) as (h & Hnb & Hh & _). enough (false = true) by done. apply Hg. intros k Hk.
    rewrite Hnth by lia. rewrite Hh. pose proof Hhl as Hhl'. rewrite Hh, blen_app, blen_replicate in Hhl' by lia.
    rewrite app_nth2 by (unfold blen in *; lia). rewrite nth_lookup, lookup_replicate_2; [done|unfold blen in *; lia].
Qed.
End Streaming.
