(* ===== verification/CipherModes.v ===== *)
(** crypto/cipher_extra/e_null.c, and from crypto/fipsmodule/cipher/e_aes.c the
    functions that run a block cipher in CBC and ECB mode. The block cipher and
    its key schedule are those that [aes_init_key] has put into [EVP_AES_KEY];
    which ones it chooses depends on the processor and is not modelled. *)

From S2P Require Import Prelude CryptoInternal Buf Cbc Evp Cipher.

(** * e_null.c *)

Section Null.
Context {D : Type}.

Definition null_init_key (k : cipher_core D) (key iv_arg : option (list Z)) (enc : Z) : W (Z * cipher_core D) :=
  mret (1, k).

Definition null_cipher (k : cipher_core D) (in_ : option (list Z)) : W (Z * list Z * cipher_core D) :=
  bs ← mopt in_; mret (1, bs, k).

Definition EVP_enc_null : EVP_CIPHER D := EvpCipher 0 1 0 0 0 0 null_init_key null_cipher None None.
End Null.

(** * e_aes.c *)

Section Aes.
Context {AES_KEY : Type}.

(** [block] and [stream.cbc]; NULL is [None]. *)
Record EVP_AES_KEY := EvpAesKey {
  ks : AES_KEY;
  dat_block : option (list Z -> AES_KEY -> list Z);
  stream_cbc : option (list Z -> AES_KEY -> list Z -> Z -> list Z * list Z)
}.

Definition aes_key_of (k : cipher_core EVP_AES_KEY) : option EVP_AES_KEY :=
  match cipher_data k with Some (CipherData d) => Some d | _ => None end.

(** The functions of cbc.c on the input followed by an output buffer of the
    blocks they write. *)
Definition run_cbc (f : Z -> Z -> Z -> M cbc_state unit) (in_ iv : list Z) : option (list Z * list Z) :=
  let n := blen in_ in
  let room := replicate (Z.to_nat ((n + 15) / 16 * 16)) 0 in
  match f 0 n n (Cbc (in_ ++ room) iv) with
  | (Some _, s) => Some (take (Z.to_nat n) (drop (Z.to_nat n) (mem s)), ivec s)
  | (None, _) => None
  end.

Definition aes_cbc_cipher (k : cipher_core EVP_AES_KEY) (in_ : option (list Z)) :
    W (Z * list Z * cipher_core EVP_AES_KEY) :=
  dat ← mopt (aes_key_of k);
  bs ← mopt in_;
  match stream_cbc dat with
  | Some f => let '(out, i) := f bs (ks dat) (iv k) (encrypt k) in mret (1, out, set_ivs (oiv k) i k)
  | None =>
      b ← mopt (dat_block dat);
      '(out, i) ← mopt (run_cbc (if negb (encrypt k =? 0) then CRYPTO_cbc128_encrypt b (ks dat)
                                 else CRYPTO_cbc128_decrypt b (ks dat)) bs (iv k));
      mret (1, out, set_ivs (oiv k) i k)
  end.

(** [for (i = 0; i <= len; i += bl)] *)
Fixpoint ecb_blocks (count : nat) (b : list Z -> AES_KEY -> list Z) (key : AES_KEY) (bl : Z) (in_ : list Z) : list Z :=
  match count with
  | O => []
  | S count => b (take (Z.to_nat bl) in_) key ++ ecb_blocks count b key bl (drop (Z.to_nat bl) in_)
  end.

(** [bl] is [ctx->cipher->block_size]. *)
Definition aes_ecb_cipher (bl : Z) (k : cipher_core EVP_AES_KEY) (in_ : option (list Z)) :
    W (Z * list Z * cipher_core EVP_AES_KEY) :=
  dat ← mopt (aes_key_of k);
  bs ← mopt in_;
  if blen bs <? bl then mret (1, [], k)
  else
    b ← mopt (dat_block dat);
    mret (1, ecb_blocks (Z.to_nat ((blen bs - bl) / bl + 1)) b (ks dat) bl bs, k).
End Aes.
Arguments EVP_AES_KEY : clear implicits.
