(* ===== verification/CipherModesSpec.v ===== *)
(** The null cipher and CBC over a block cipher keep the interface of a cipher. *)

From S2P Require Import Prelude CryptoInternal Modes ModesSpec HashSpec Buf Cbc CbcSpec CbcTheorems Evp EvpSpec Cipher CipherSpec CipherModes.

#[export] Instance null_method D e : CipherMethod (D:=D) EVP_enc_null (fun k (_ : unit) => encrypt k = e) (fun _ l => l) (fun s _ => s).
Proof.
  split; try done.
  - by left.
  - intros k s a w Hr _ _ _ _. by exists k.
Qed.

(** * Blocks of 16 bytes *)

Definition blocks16 (l : list Z) : list (list Z) := chunks 16 (length l / 16) l.

Lemma whole16 l : whole 16 l -> length l = (16 * (length l / 16))%nat.
Proof. intros (n & Hn & Hl). unfold blen in Hl. apply Nat.div_exact; [done|]. apply Nat2Z.inj. rewrite Nat2Z.inj_mod. lia. Qed.

Lemma blocks16_app a b : whole 16 a -> blocks16 (a ++ b) = blocks16 a ++ blocks16 b.
Proof.
  intros Ha%whole16. unfold blocks16. rewrite <-(chunks_app 16) by done. f_equal.
  rewrite length_app, Ha, Nat.mul_comm, Nat.div_add_l by done. by rewrite Nat.div_mul.
Qed.

Lemma blocks16_concat l : whole 16 l -> concat (blocks16 l) = l.
Proof.
  intros Hl%whole16. unfold blocks16. revert Hl. generalize (length l / 16)%nat as n. intros n. revert l.
  induction n as [|n IH]; intros l Hl; cbn [chunks concat]; [by destruct l|].
  rewrite IH by (rewrite length_drop; lia). apply take_drop.
Qed.

Lemma blocks16_blocks l : bytes l -> whole 16 l -> Forall is_block (blocks16 l).
Proof.
  intros Hb Hl%whole16. eapply Forall_impl; [by apply (chunks_Forall 16)|]. intros b [H1 H2]. by split.
Qed.

Lemma blocks16_length l : whole 16 l -> 16 * blen (blocks16 l) = blen l.
Proof.
  intros Hl%whole16. unfold blocks16. assert (forall n l, length (chunks 16 n l) = n) as Hc by (induction n; intros; cbn; [done|by f_equal]).
  unfold blen. rewrite Hc. lia.
Qed.

(** * CBC *)

Section Cbc.
Context {AES_KEY : Type} (b inverse : list Z -> AES_KEY -> list Z) (key : AES_KEY)
  {BC : BlockCipher b key} {BI : BlockCipher inverse key}.

(** The context's cipher runs [f] in the direction [e], and the chaining value
    is [s]. *)
Definition cbc_rep (f : list Z -> AES_KEY -> list Z) (e : Z) (k : cipher_core (EVP_AES_KEY AES_KEY)) (s : list Z) : Prop :=
  cipher_data k = Some (CipherData (EvpAesKey key (Some f) None)) /\ encrypt k = e /\ iv k = s /\ is_block s.

Definition cbc_encrypt (s l : list Z) : list Z := concat (cbc_ref b key s (blocks16 l)).
Definition cbc_encrypt_next (s l : list Z) : list Z := last_or s (cbc_ref b key s (blocks16 l)).
Definition cbc_decrypt (s l : list Z) : list Z := concat (cbc_dec_ref inverse key s (blocks16 l)).
Definition cbc_decrypt_next (s l : list Z) : list Z := last_or s (blocks16 l).

Lemma room_len n (l : list Z) : whole 16 l -> n = blen l -> blen (l ++ replicate (Z.to_nat ((n + 15) / 16 * 16)) 0) = 2 * n.
Proof.
  intros (m & Hm & Hl) ->. rewrite blen_app, Hl. replace (16 * m + 15) with (15 + m * 16) by lia. rewrite Z.div_add by lia.
  change (15 / 16) with 0. rewrite blen_replicate; lia.
Qed.

(** What is read back from the output buffer. *)
Lemma output_bytes in_ room out : blen out = blen in_ -> blen room = blen in_ ->
  take (Z.to_nat (blen in_)) (drop (Z.to_nat (blen in_)) (write_at (blen in_) out (in_ ++ room))) = out.
Proof.
  intros Ho Hr. unfold write_at. rewrite take_blen_app, drop_blen_app. rewrite <-Ho. apply take_blen_app.
Qed.

Lemma run_cbc_setup in_ s : bytes in_ -> whole 16 in_ -> is_block s ->
  let m := in_ ++ replicate (Z.to_nat ((blen in_ + 15) / 16 * 16)) 0 in
  Forall is_block (blocks16 in_) /\ slice 0 (16 * blen (blocks16 in_)) m = concat (blocks16 in_) /\ blen m = 2 * blen in_ /\
  bytes m /\ 16 * blen (blocks16 in_) = blen in_.
Proof.
  intros Hb Hw Hs m. split; [by apply blocks16_blocks|]. rewrite (blocks16_length in_ Hw), (blocks16_concat in_ Hw).
  split; [unfold slice, m; rewrite drop_0; apply take_blen_app|]. split; [by apply room_len|]. split; [|done].
  apply bytes_app. split; [done|]. by apply bytes_replicate.
Qed.

Lemma run_cbc_encrypt in_ s : bytes in_ -> whole 16 in_ -> is_block s -> 0 < blen in_ ->
  run_cbc (CRYPTO_cbc128_encrypt b key) in_ s = Some (cbc_encrypt s in_, cbc_encrypt_next s in_).
Proof.
  intros Hb Hw Hs Hp. destruct (run_cbc_setup in_ s Hb Hw Hs) as (Hblk & Hsl & Hlm & Hmb & Hlen). unfold run_cbc.
  set (m := in_ ++ _) in *. pose proof (blocks16_concat in_ Hw) as Hcat.
  pose proof (cbc_ref_blocks b key s (blocks16 in_) Hs Hblk) as Hcs.
  assert (blen (concat (cbc_ref b key s (blocks16 in_))) = blen in_) as Hout.
  { rewrite blen_concat by done. unfold blen at 1. rewrite length_cbc_ref. unfold blen in Hlen at 1. lia. }
  pose proof (cbc_encrypt_run b key m (blen in_) ltac:(lia) Hmb (blocks16 in_) [] s 0) as E. cbv zeta in E.
  cbn [pad_zeros] in E. rewrite !app_nil_r, Hcat, Hout in E.
  rewrite E; [|done|done|cbn; lia|done|lia|lia| |lia|lia].
  - cbn [mem ivec]. unfold m in Hlm |- *. rewrite output_bytes; [done|done|]. rewrite blen_app in Hlm. lia.
  - by rewrite <-Hlen, Hsl.
Qed.

Lemma run_cbc_decrypt in_ s : bytes in_ -> whole 16 in_ -> is_block s -> 0 < blen in_ ->
  run_cbc (CRYPTO_cbc128_decrypt inverse key) in_ s = Some (cbc_decrypt s in_, cbc_decrypt_next s in_).
Proof.
  intros Hb Hw Hs Hp. destruct (run_cbc_setup in_ s Hb Hw Hs) as (Hblk & Hsl & Hlm & Hmb & Hlen). unfold run_cbc.
  set (m := in_ ++ _) in *. pose proof (cbc_dec_ref_blocks inverse key s (blocks16 in_) Hs Hblk) as Hcs.
  assert (blen (concat (cbc_dec_ref inverse key s (blocks16 in_))) = blen in_) as Hout.
  { rewrite blen_concat by done. unfold blen at 1. rewrite length_cbc_dec_ref. unfold blen in Hlen at 1. lia. }
  rewrite (cbc_decrypt_run inverse key m s (blocks16 in_) 0 (blen in_) (blen in_)); [|first [done|lia]..].
  assert (clear_of (blen in_) 0 && (0 <? blen in_) && (blen in_ <? 16) = false) as ->.
  { rewrite (proj2 (Z.ltb_ge _ 16)), andb_false_r; [done|]. destruct Hw as (n & Hn & Hl). assert (n <> 0) by (intros ->; lia). lia. }
  cbn [mem ivec]. rewrite (take_ge (concat _)) by (by rewrite <-Hout, to_nat_blen).
  unfold m in Hlm |- *. rewrite output_bytes; [done|done|]. rewrite blen_app in Hlm. lia.
Qed.

Lemma cbc_ref_blocks_of s l : is_block s -> bytes l -> whole 16 l ->
  Forall is_block (cbc_ref b key s (blocks16 l)) /\ Forall is_block (cbc_dec_ref inverse key s (blocks16 l)).
Proof. intros Hs Hb Hw. pose proof (blocks16_blocks l Hb Hw). split; [by apply cbc_ref_blocks|by apply cbc_dec_ref_blocks]. Qed.

Lemma concat_blocks_bytes l : Forall is_block l -> bytes (concat l).
Proof. intros Hl. apply Forall_concat. eapply Forall_impl; [exact Hl|]. by intros x [??]. Qed.

(** The decrypted text of an encrypted one. *)
Lemma cbc_decrypt_encrypt s l : (forall x, is_block x -> inverse (b x key) key = x) ->
  is_block s -> bytes l -> whole 16 l -> cbc_decrypt s (cbc_encrypt s l) = l.
Proof.
  intros Hinv Hs Hb Hw. unfold cbc_decrypt, cbc_encrypt. pose proof (blocks16_blocks l Hb Hw) as Hl.
  destruct (cbc_ref_blocks_of s l Hs Hb Hw) as [Hcs _].
  assert (forall bl, Forall is_block bl -> blocks16 (concat bl) = bl) as Hround.
  { intros bl Hbl. induction Hbl as [|x bl Hx Hbl IH]; [done|]. cbn [concat]. rewrite blocks16_app, IH.
    - destruct Hx as [_ Hx]. unfold blocks16. rewrite Hx. change (16 / 16)%nat with 1%nat. cbn [chunks]. by rewrite take_ge by lia.
    - exists 1. destruct Hx as [_ Hx]. unfold blen. rewrite Hx. done. }
  rewrite Hround by done. rewrite (cbc_dec_ref_inverse b inverse key Hinv) by done. by apply blocks16_concat.
Qed.
End Cbc.

Section CbcTable.
Context {AES_KEY : Type} (b inverse : list Z -> AES_KEY -> list Z) (key : AES_KEY)
  {BC : BlockCipher b key} {BI : BlockCipher inverse key}.
Context (t : EVP_CIPHER (EVP_AES_KEY AES_KEY)).
Hypothesis table_size : cipher_block_size t = 16.
Hypothesis table_flags : has_flag (cipher_flags t) EVP_CIPH_FLAG_CUSTOM_CIPHER = false.
Hypothesis table_cipher : cipher_cipher t = aes_cbc_cipher.

Lemma cbc_encrypt_method : CipherMethod t (cbc_rep key b 1) (cbc_encrypt b key) (cbc_encrypt_next b key).
Proof.
  split; rewrite ?table_size, ?table_cipher; try done.
  - by right; right.
  - intros s a a' Ha Ha'. unfold cbc_encrypt, cbc_encrypt_next. rewrite blocks16_app by done.
    by rewrite cbc_ref_app, concat_app, last_or_app.
  - intros k s a (_ & _ & _ & Hs) Hb Hw. destruct (cbc_ref_blocks_of b b key s a Hs Hb Hw) as [Hcs _].
    unfold cbc_encrypt. rewrite blen_concat by done. rewrite <-(blocks16_length a Hw). f_equal. unfold blen. by rewrite length_cbc_ref.
  - intros k s a (_ & _ & _ & Hs) Hb Hw. apply concat_blocks_bytes. apply (cbc_ref_blocks_of b b key s a Hs Hb Hw).
  - intros k s a w (Hd & He & Hi & Hs) Hb Hw Hp _. exists (set_ivs (oiv k) (cbc_encrypt_next b key s a) k).
    split; [|split; [|done]].
    + unfold aes_cbc_cipher, aes_key_of. rewrite Hd, !mopt_bind. cbn [stream_cbc dat_block ks]. rewrite mopt_bind, He, Hi.
      cbn [Z.eqb negb]. by rewrite run_cbc_encrypt, mopt_bind.
    + split; [done|]. split; [done|]. split; [done|]. apply last_or_block; [done..|]. apply (cbc_ref_blocks_of b b key s a Hs Hb Hw).
Qed.

Lemma cbc_decrypt_method : CipherMethod t (cbc_rep key inverse 0) (cbc_decrypt inverse key) cbc_decrypt_next.
Proof.
  split; rewrite ?table_size, ?table_cipher; try done.
  - by right; right.
  - intros s a a' Ha Ha'. unfold cbc_decrypt, cbc_decrypt_next. rewrite blocks16_app by done.
    by rewrite cbc_dec_ref_app, concat_app, last_or_app.
  - intros k s a (_ & _ & _ & Hs) Hb Hw. destruct (cbc_ref_blocks_of inverse inverse key s a Hs Hb Hw) as [_ Hcs].
    unfold cbc_decrypt. rewrite blen_concat by done. rewrite <-(blocks16_length a Hw). f_equal. unfold blen. by rewrite length_cbc_dec_ref.
  - intros k s a (_ & _ & _ & Hs) Hb Hw. apply concat_blocks_bytes. apply (cbc_ref_blocks_of inverse inverse key s a Hs Hb Hw).
  - intros k s a w (Hd & He & Hi & Hs) Hb Hw Hp _. exists (set_ivs (oiv k) (cbc_decrypt_next s a) k).
    split; [|split; [|done]].
    + unfold aes_cbc_cipher, aes_key_of. rewrite Hd, !mopt_bind. cbn [stream_cbc dat_block ks]. rewrite mopt_bind, He, Hi.
      cbn [Z.eqb negb]. by rewrite run_cbc_decrypt, mopt_bind.
    + split; [done|]. split; [done|]. split; [done|]. apply last_or_block; [done..|]. by apply blocks16_blocks.
Qed.
End CbcTable.
