(* ===== verification/CipherTheorems.v ===== *)
(** Encryption and decryption of whole messages through cipher.c. *)

From S2P Require Import Prelude CryptoInternal Modes ModesSpec Buf Cbc CbcSpec CbcTheorems Evp EvpSpec HmacSpec TlsCbcSpec Cipher CipherSpec CipherModes CipherModesSpec.

Section Messages.
Context {D : Type}.

(** One call after another, as long as they succeed; what they have put out. *)
Fixpoint cipher_updates (update : EVP_CIPHER_CTX D -> option (list Z) -> Z -> Z -> W (Z * list Z * Z * EVP_CIPHER_CTX D))
    (ctx : EVP_CIPHER_CTX D) (pieces : list (list Z)) : W (Z * list Z * EVP_CIPHER_CTX D) :=
  match pieces with
  | [] => mret (1, [], ctx)
  | p :: pieces =>
      '(r, out, n, ctx) ← update ctx (Some p) (blen p) 0;
      if r =? 0 then mret (0, [], ctx)
      else
        '(r, out2, ctx) ← cipher_updates update ctx pieces;
        mret (r, take (Z.to_nat n) out ++ out2, ctx)
  end.

Definition encrypt_message (ctx : EVP_CIPHER_CTX D) (pieces : list (list Z)) : W (Z * list Z) :=
  '(r, out, ctx) ← cipher_updates EVP_EncryptUpdate ctx pieces;
  if r =? 0 then mret (0, out)
  else
    '(r, out2, n, _) ← EVP_EncryptFinal_ex ctx 0;
    mret (r, out ++ take (Z.to_nat n) out2).

Definition decrypt_message (ctx : EVP_CIPHER_CTX D) (pieces : list (list Z)) : W (Z * list Z) :=
  '(r, out, ctx) ← cipher_updates EVP_DecryptUpdate ctx pieces;
  if r =? 0 then mret (0, out)
  else
    '(r, out2, n, _) ← EVP_DecryptFinal_ex ctx;
    mret (r, out ++ take (Z.to_nat n) out2).

Context {St : Type} (t : EVP_CIPHER D) (rep : cipher_core D -> St -> Prop)
  (crypt : St -> list Z -> list Z) (next : St -> list Z -> St) {cm : CipherMethod t rep crypt next}.
Notation BS := (cipher_block_size t).

(** A context after initialisation. *)
Record fresh (ctx : EVP_CIPHER_CTX D) (s : St) : Prop := {
  fresh_cipher : cipher ctx = Some t;
  fresh_rep : rep (core ctx) s;
  fresh_padding : has_flag (flags (core ctx)) EVP_CIPH_NO_PADDING = false;
  fresh_buf : buf_len ctx = 0 /\ blen (buf ctx) = EVP_MAX_BLOCK_LENGTH;
  fresh_final : final_used ctx = 0 /\ blen (final ctx) = EVP_MAX_BLOCK_LENGTH
}.

Definition pieces_ok (pieces : list (list Z)) : Prop := Forall (fun p => bytes p /\ blen p <= INT_MAX - BS) pieces.

Lemma BS_pos : 0 < BS.
Proof. pose proof (cm_sizes (CipherMethod:=cm)). lia. Qed.

Lemma fresh_streaming ctx s : fresh ctx s -> streaming t rep ctx (next s (whole_of BS [])) (rest_of BS []).
Proof.
  intros [Hc Hr _ [Hb Hbl] _]. pose proof BS_pos. destruct (whole_of_short BS [] ltac:(lia) ltac:(done)) as [-> ->].
  destruct (cm_nil (CipherMethod:=cm) s) as [_ ->]. split; try done; change (blen (@nil Z)) with 0; lia.
Qed.

Lemma fresh_encrypting ctx s : fresh ctx s -> encrypting t rep crypt next ctx s [] [].
Proof.
  intros Hf. split; [by apply fresh_streaming|]. pose proof BS_pos.
  destruct (whole_of_short BS [] ltac:(lia) ltac:(done)) as [-> _]. by destruct (cm_nil (CipherMethod:=cm) s) as [-> _].
Qed.

Lemma fresh_decrypting ctx s : fresh ctx s -> decrypting t rep crypt next ctx s [] [].
Proof.
  intros Hf. split; [by apply fresh_streaming|]. destruct Hf as [_ _ Hp _ [Hu Hl]]. split; [done|]. pose proof BS_pos.
  exists []. split; [split; [done|by left]|]. destruct (whole_of_short BS [] ltac:(lia) ltac:(done)) as [-> _].
  destruct (cm_nil (CipherMethod:=cm) s) as [-> _]. split; [done|]. split; [by right; right|done].
Qed.

Lemma encrypt_updates_run pieces : forall ctx s msg out w,
  pieces_ok pieces -> encrypting t rep crypt next ctx s msg out -> exists out' ctx',
  cipher_updates EVP_EncryptUpdate ctx pieces w = (Some (1, out', ctx'), w) /\
  encrypting t rep crypt next ctx' s (msg ++ concat pieces) (out ++ out') /\ flags (core ctx') = flags (core ctx).
Proof.
  induction pieces as [|p pieces IH]; intros ctx s msg out w Hp Hctx; cbn [cipher_updates concat].
  - exists [], ctx. by rewrite !app_nil_r.
  - apply Forall_cons in Hp as [[Hb Hl] Hp].
    destruct (encrypting_update t rep crypt next ctx s msg out p 0 w Hctx Hb Hl) as (bs & n & c1 & E & -> & H1 & Hf1 & _).
    rewrite (bind_ok _ _ _ _ _ E). cbn [Z.eqb].
    destruct (IH c1 s (msg ++ p) (out ++ bs) w Hp H1) as (out' & c2 & E2 & H2 & Hf2). rewrite (bind_ok _ _ _ _ _ E2).
    rewrite to_nat_blen, take_ge by done. exists (bs ++ out'), c2. rewrite !app_assoc. split; [done|]. split; [done|congruence].
Qed.

Lemma decrypt_updates_run pieces : forall ctx s ct out w,
  pieces_ok pieces -> decrypting t rep crypt next ctx s ct out -> exists out' ctx',
  cipher_updates EVP_DecryptUpdate ctx pieces w = (Some (1, out', ctx'), w) /\
  decrypting t rep crypt next ctx' s (ct ++ concat pieces) (out ++ out').
Proof.
  induction pieces as [|p pieces IH]; intros ctx s ct out w Hp Hctx; cbn [cipher_updates concat].
  - exists [], ctx. by rewrite !app_nil_r.
  - apply Forall_cons in Hp as [[Hb Hl] Hp].
    destruct (decrypting_update t rep crypt next ctx s ct out p 0 w Hctx Hb Hl) as (bs & n & c1 & E & Hn & H1).
    rewrite (bind_ok _ _ _ _ _ E). cbn [Z.eqb].
    destruct (IH c1 s (ct ++ p) _ w Hp H1) as (out' & c2 & E2 & H2). rewrite (bind_ok _ _ _ _ _ E2).
    eexists _, c2. split; [done|]. by rewrite !app_assoc in *.
Qed.

(** What is encrypted: a stream cipher's messages are not padded. *)
Definition padded_message (msg : list Z) : list Z := if BS =? 1 then msg else pkcs7_pad BS msg.

Lemma whole_of_1 l : BS = 1 -> whole_of BS l = l /\ rest_of BS l = [].
Proof. intros E. apply whole_of_exact; [lia|]. rewrite E. exists (blen l). pose proof (blen_nonneg l). lia. Qed.

Lemma encrypt_message_run ctx s pieces w : fresh ctx s -> pieces_ok pieces ->
  encrypt_message ctx pieces w = (Some (1, crypt s (padded_message (concat pieces))), w).
Proof.
  intros Hf Hp. destruct (encrypt_updates_run pieces ctx s [] [] w Hp (fresh_encrypting ctx s Hf)) as (out & c1 & E & H1 & Hfl).
  unfold encrypt_message. rewrite (bind_ok _ _ _ _ _ E). cbn [Z.eqb app] in *. unfold padded_message.
  pose proof (cm_sizes (CipherMethod:=cm)) as Hs. destruct (Z.eqb_spec BS 1) as [E1|E1].
  - rewrite (bind_ok _ _ _ (1, [], 0, c1) w).
    2:{ unfold EVP_EncryptFinal_ex. destruct H1 as [[Hc _ _ _ _ _ _] _]. rewrite Hc, mopt_bind.
        rewrite (cm_not_custom (CipherMethod:=cm)). by rewrite E1. }
    destruct H1 as [_ ->]. destruct (whole_of_1 (concat pieces) E1) as [-> _]. by rewrite app_nil_r.
  - pose proof (fresh_padding _ _ Hf) as Hpad. rewrite <-Hfl in Hpad.
    destruct (encrypting_final t rep crypt next c1 s _ out 0 w H1 ltac:(lia) Hpad) as (bs & c2 & E2 & Hbl & Hout).
    rewrite (bind_ok _ _ _ _ _ E2). rewrite take_ge by (rewrite <-Hbl, to_nat_blen; done). by rewrite Hout.
Qed.

(** The ways in which decryption ends. *)
Definition decryption (s : St) (ct : list Z) (w : evp_world) (r : Z) (out : list Z) (w' : evp_world) : Prop :=
  if BS =? 1 then r = 1 /\ out = crypt s ct /\ w' = w
  else
    (~ whole BS ct \/ ct = []) /\ r = 0 /\ w' = decrypt_error w CIPHER_R_WRONG_FINAL_BLOCK_LENGTH \/
    whole BS ct /\ ct <> [] /\
      (padded BS (crypt s ct) out /\ r = 1 /\ w' = w \/
       (~ exists msg, padded BS (crypt s ct) msg) /\ r = 0 /\ w' = decrypt_error w CIPHER_R_BAD_DECRYPT).

Lemma decrypt_message_run ctx s pieces w : fresh ctx s -> pieces_ok pieces -> exists r out w',
  decrypt_message ctx pieces w = (Some (r, out), w') /\ decryption s (concat pieces) w r out w'.
Proof.
  intros Hf Hp. destruct (decrypt_updates_run pieces ctx s [] [] w Hp (fresh_decrypting ctx s Hf)) as (out & c1 & E & H1).
  unfold decrypt_message. rewrite (bind_ok _ _ _ _ _ E). cbn [Z.eqb app] in *. unfold decryption.
  pose proof (cm_sizes (CipherMethod:=cm)) as Hs. destruct (Z.eqb_spec BS 1) as [E1|E1].
  - rewrite (bind_ok _ _ _ (1, [], 0, c1) w).
    2:{ unfold EVP_DecryptFinal_ex. destruct H1 as ([Hc _ _ _ _ _ _] & Hfl & _). rewrite Hc, mopt_bind, Hfl.
        rewrite (cm_not_custom (CipherMethod:=cm)). by rewrite E1. }
    destruct H1 as (_ & _ & held & _ & Ho & Hh). rewrite (proj2 Hh (or_introl E1)), app_nil_r in Ho.
    destruct (whole_of_1 (concat pieces) E1) as [Ew _]. rewrite Ew in Ho. eexists 1, _, w. split; [done|]. by rewrite app_nil_r.
  - destruct (decrypting_final t rep crypt next c1 s _ out w H1 ltac:(lia)) as (r & bs & w' & E2 & Hcase).
    rewrite (bind_ok _ _ _ _ _ E2), to_nat_blen, take_ge by done. eexists _, _, w'. split; [done|].
    destruct Hcase as [(H2 & H3 & _ & H4)|(H2 & H3 & [(msg & H4 & H5 & H6 & H7)|(H4 & H5 & _ & H6)])]; [by left|right..].
    + split; [done|]. split; [done|]. left. by rewrite H6.
    + split; [done|]. split; [done|]. by right.
Qed.
End Messages.

Section Init.
Context {D St : Type} {ms : Mallocs} {ml : MallocsLaws ms}.
Context (t : EVP_CIPHER D) (rep : cipher_core D -> St -> Prop)
  (crypt : St -> list Z -> list Z) (next : St -> list Z -> St) {cm : CipherMethod t rep crypt next}.

(** [init] makes the state [s] from a key and an IV, in the direction [e]. *)
Definition keyed (key : list Z) (ivb : option (list Z)) (e : Z) (s : St) : Prop := forall k w,
  (is_Some (cipher_data k) <-> cipher_ctx_size t <> 0) -> key_len k = cipher_key_len t -> flags k = 0 -> encrypt k = e ->
  oiv k = replicate 16 0 -> iv k = replicate 16 0 -> exists k1 k2,
  (if negb (has_flag (EVP_CIPHER_flags t) EVP_CIPH_CUSTOM_IV) then init_iv t k ivb else mret (Some k)) w =
    (Some (Some k1), w) /\
  cipher_init t k1 (Some key) ivb e w = (Some (1, k2), w) /\ rep k2 s /\ flags k2 = 0.

Lemma set_new_cipher_run enc k w : has_flag (cipher_flags t) EVP_CIPH_CTRL_INIT = false ->
  cipher_data k = None -> exists r ctx w',
  set_new_cipher (CipherCtx None k (replicate 32 0) 0 0 (replicate 32 0) None) t enc w = (Some (r, ctx), w') /\
  (r = 0 /\ errors w' = CIPHER_R_MALLOC_FAILURE :: errors w /\ live w' = live w \/
   r = 1 /\ errors w' = errors w /\ exists d, ctx = CipherCtx (Some t) (Core d (cipher_key_len t) (encrypt k) 0 (oiv k) (iv k) (num k))
     (replicate 32 0) 0 0 (replicate 32 0) None /\ (is_Some d <-> cipher_ctx_size t <> 0)).
Proof.
  intros Hf Hd. unfold set_new_cipher. cbn [cipher].
  match goal with |- context [(mret ?c ≫= ?f) w] => change ((mret c ≫= f) w) with (f c w) end. cbn beta zeta.
  destruct (Z.eqb_spec (cipher_ctx_size t) 0) as [E|E]; cbn [negb].
  - match goal with |- context [(mret ?c ≫= ?f) w] => change ((mret c ≫= f) w) with (f c w) end. cbn [Z.eqb].
    rewrite Hf. eexists 1, _, w. split; [done|]. right. split; [done|]. split; [done|].
    exists None. split; [done|]. split; [by intros [??]|done].
  - set (c0 := set_cipher _ _). pose proof (evp_malloc_run (cipher_ctx_size t) w) as Em.
    destruct (@OPENSSL_malloc _ _) as [b|] eqn:Eb.
    + rewrite (bind_ok _ _ _ (1, set_core (set_cipher_data (Some (RawData b)) (core c0)) c0) (snd (evp_malloc (cipher_ctx_size t) w))).
      2:{ by rewrite (bind_ok _ _ _ _ _ Em), Em. }
      cbn [Z.eqb]. rewrite Hf, Em. eexists 1, _, _. split; [done|]. right. split; [done|].
      split; [done|]. exists (Some (RawData b)). split; [done|]. by split.
    + rewrite (bind_ok _ _ _ (0, set_cipher None (set_core (set_cipher_data None (core c0)) c0))
        (decrypt_error (snd (evp_malloc (cipher_ctx_size t) w)) CIPHER_R_MALLOC_FAILURE)).
      2:{ by rewrite (bind_ok _ _ _ _ _ Em), Em. }
      cbn [Z.eqb]. eexists 0, _, _. split; [done|]. left. rewrite Em. cbn. unfold granted. rewrite Eb. done.
Qed.

(** Initialising a new context: it is fresh, or there was no memory. *)
Lemma init_run key ivb e s w : has_flag (cipher_flags t) EVP_CIPH_CTRL_INIT = false -> e = 0 \/ e = 1 ->
  keyed key ivb e s -> exists r ctx w',
  EVP_CipherInit_ex EVP_CIPHER_CTX_init (Some t) (Some key) ivb e w = (Some (r, ctx), w') /\
  (r = 0 /\ errors w' = CIPHER_R_MALLOC_FAILURE :: errors w /\ live w' = live w \/
   r = 1 /\ errors w' = errors w /\ fresh t rep ctx s).
Proof.
  intros Hf He Hk. unfold EVP_CipherInit_ex.
  assert ((e =? -1) = false /\ (if negb (e =? 0) then 1 else e) = e) as [-> He'] by (destruct He as [-> | ->]; done).
  cbv zeta. rewrite He'. cbv beta iota.
  destruct (set_new_cipher_run e (set_encrypt e (core EVP_CIPHER_CTX_init)) w Hf eq_refl) as (r & ctx & w' & E & Hcase).
  rewrite (bind_ok _ _ _ _ _ E). destruct Hcase as [(-> & H)|(-> & Hw & d & -> & Hd)]; cbn [Z.eqb].
  { eexists _, _, _. split; [done|]. by left. }
  cbn [cipher core]. rewrite mopt_bind.
  assert (((cipher_block_size t =? 1) || (cipher_block_size t =? 8) || (cipher_block_size t =? 16)) = true) as ->
    by (destruct (cm_sizes (CipherMethod:=cm)) as [-> | [-> | ->]]; done).
  rewrite massert_true.
  destruct (Hk (Core d (cipher_key_len t) e 0 (replicate 16 0) (replicate 16 0) 0) w' Hd eq_refl eq_refl eq_refl eq_refl eq_refl)
    as (k1 & k2 & E1 & E2 & Hr & Hfl).
  rewrite (bind_ok _ _ _ _ _ E1), orb_true_l. cbn [core set_core].
  rewrite (bind_ok _ _ _ (1, set_core k2 (CipherCtx (Some t) k1 (replicate 32 0) 0 0 (replicate 32 0) None)) w')
    by (by rewrite (bind_ok _ _ _ _ _ E2)).
  cbn [Z.eqb]. eexists _, _, _. split; [done|]. right. split; [done|]. split; [done|].
  split; [done|done| |done|done]. cbn. by rewrite Hfl.
Qed.
End Init.

(** Padding can be told from the message. *)
Lemma padded_pkcs7 bs msg out : 1 < bs <= 16 -> padded bs (pkcs7_pad bs msg) out -> out = msg.
Proof.
  intros Hb (n & Hn & E). unfold pkcs7_pad in E.
  assert (forall (a b : list Z) i j, 0 < i -> 0 < j -> a ++ replicate (Z.to_nat i) i = b ++ replicate (Z.to_nat j) j -> a = b) as H.
  { intros a b i j Hi Hj Eab. assert (i = j) as ->.
    { pose proof (f_equal last Eab) as El. rewrite !last_app in El.
      destruct (Z.to_nat i) eqn:Ei; [lia|]. destruct (Z.to_nat j) eqn:Ej; [lia|].
      rewrite !replicate_S_end, !last_snoc in El. congruence. }
    by apply app_inv_tail in Eab. }
  symmetry. eapply H; [| |exact E]; [|lia]. pose proof (Z.mod_pos_bound (blen msg) bs). lia.
Qed.
(** * The whole of an encryption and of a decryption *)

Section Roundtrip.
Context {D SE SD : Type} {ms : Mallocs} {ml : MallocsLaws ms} (t : EVP_CIPHER D).
Context (repE : cipher_core D -> SE -> Prop) (enc : SE -> list Z -> list Z) (nextE : SE -> list Z -> SE)
  {ME : CipherMethod t repE enc nextE}.
Context (repD : cipher_core D -> SD -> Prop) (dec : SD -> list Z -> list Z) (nextD : SD -> list Z -> SD)
  {MD : CipherMethod t repD dec nextD}.
Context (key ivb : list Z) (se : SE) (sd : SD).

Definition evp_encrypt (pieces : list (list Z)) : W (Z * list Z) :=
  '(r, ctx) ← EVP_EncryptInit_ex EVP_CIPHER_CTX_init (Some t) (Some key) (Some ivb);
  if r =? 0 then mret (0, []) else encrypt_message ctx pieces.

Definition evp_decrypt (pieces : list (list Z)) : W (Z * list Z) :=
  '(r, ctx) ← EVP_DecryptInit_ex EVP_CIPHER_CTX_init (Some t) (Some key) (Some ivb);
  if r =? 0 then mret (0, []) else decrypt_message ctx pieces.

Lemma pieces_bytes pieces : pieces_ok t pieces -> bytes (concat pieces).
Proof. intros Hp. apply Forall_concat. eapply Forall_impl; [exact Hp|]. by intros p [??]. Qed.

Lemma padded_message_whole msg : bytes msg -> bytes (padded_message t msg) /\ whole (cipher_block_size t) (padded_message t msg).
Proof.
  intros Hb. unfold padded_message. pose proof (cm_sizes (CipherMethod:=ME)) as Hs. destruct (Z.eqb_spec (cipher_block_size t) 1) as [->|E].
  { split; [done|]. exists (blen msg). pose proof (blen_nonneg msg). lia. }
  set (b := cipher_block_size t) in *. pose proof (Z.mod_pos_bound (blen msg) b ltac:(lia)) as Hm.
  pose proof (Z.div_mod (blen msg) b ltac:(lia)) as Hdm. pose proof (blen_nonneg msg).
  unfold pkcs7_pad. split; [apply bytes_app; split; [done|apply bytes_replicate; unfold is_byte; lia]|].
  exists (blen msg / b + 1). rewrite blen_app, blen_replicate by lia. split; [|lia]. pose proof (Z.div_pos (blen msg) b). lia.
Qed.

Lemma decryption_roundtrip msg w r out w' :
  (forall l, bytes l -> whole (cipher_block_size t) l -> dec sd (enc se l) = l) -> bytes msg ->
  (exists k, repE k se) ->
  decryption t dec sd (enc se (padded_message t msg)) w r out w' -> r = 1 /\ out = msg /\ w' = w.
Proof.
  intros Hinv Hb [k Hk]. destruct (padded_message_whole msg Hb) as [Hpb Hpw]. unfold decryption. rewrite Hinv by done.
  unfold padded_message in *. pose proof (cm_sizes (CipherMethod:=ME)) as Hs. destruct (Z.eqb_spec (cipher_block_size t) 1) as [E1|E1]; [done|].
  pose proof (cm_len (CipherMethod:=ME) k se _ Hk Hpb Hpw) as Hl.
  assert (0 < blen (pkcs7_pad (cipher_block_size t) msg)) as Hpos.
  { unfold pkcs7_pad. pose proof (Z.mod_pos_bound (blen msg) (cipher_block_size t) ltac:(lia)). pose proof (blen_nonneg msg).
    rewrite blen_app, blen_replicate by lia. lia. }
  assert (padded (cipher_block_size t) (pkcs7_pad (cipher_block_size t) msg) msg) as Hpad.
  { eexists. split; [|done]. pose proof (Z.mod_pos_bound (blen msg) (cipher_block_size t) ltac:(lia)). lia. }
  intros [([Hw|E] & _)|(_ & _ & [(Ho & -> & ->)|(Hno & _)])].
  - exfalso. apply Hw. destruct Hpw as (n & Hn & E). exists n. split; [done|]. by rewrite Hl.
  - rewrite E in Hl. change (blen (@nil Z)) with 0 in Hl. lia.
  - split; [done|]. split; [|done]. apply (padded_pkcs7 (cipher_block_size t)); [lia|done].
  - exfalso. apply Hno. by exists msg.
Qed.

Lemma keyed_state : keyed t repE key (Some ivb) 1 se -> exists k, repE k se.
Proof.
  intros Hk. destruct (Hk (Core (if decide (cipher_ctx_size t = 0) then None else Some (RawData [])) (cipher_key_len t) 1 0
    (replicate 16 0) (replicate 16 0) 0) (World 0 0 [])) as (k1 & k2 & _ & _ & H & _); try done; [|by exists k2].
  cbn. destruct (decide _); [by split; [intros [??]|]|by split].
Qed.

(** There was no memory for the cipher's data. *)
Definition cipher_no_memory (run : W (Z * list Z)) (w : evp_world) : Prop := exists w',
  run w = (Some (0, []), w') /\ errors w' = CIPHER_R_MALLOC_FAILURE :: errors w /\ live w' = live w.


(** C13: EVP encryption and decryption (crypto/fipsmodule/cipher/cipher.c) over
    any cipher table whose functions keep the interface [CipherMethod]. However
    the message is cut into calls of EVP_EncryptUpdate, the output of
    EVP_EncryptInit_ex, these calls and EVP_EncryptFinal_ex is the cipher run
    once over the message with PKCS#7 padding (a stream cipher: over the message).
    However the cipher text is cut, EVP_DecryptUpdate and EVP_DecryptFinal_ex put
    out the message whose padded form the cipher text decrypts to; they report
    WRONG_FINAL_BLOCK_LENGTH exactly when it is empty or not whole blocks and
    BAD_DECRYPT exactly when no message has that padded form. So if the cipher in
    the decrypting direction undoes the other, decryption gives the message back.
    The only other failure is that of an allocation. *)
Theorem evp_cipher_streaming pieces pieces' w :
  has_flag (cipher_flags t) EVP_CIPH_CTRL_INIT = false -> keyed t repE key (Some ivb) 1 se -> keyed t repD key (Some ivb) 0 sd ->
  pieces_ok t pieces -> pieces_ok t pieces' ->
  (cipher_no_memory (evp_encrypt pieces) w \/ exists w', errors w' = errors w /\
     evp_encrypt pieces w = (Some (1, enc se (padded_message t (concat pieces))), w')) /\
  (cipher_no_memory (evp_decrypt pieces') w \/ exists w0 r out w', errors w0 = errors w /\
     evp_decrypt pieces' w = (Some (r, out), w') /\ decryption t dec sd (concat pieces') w0 r out w') /\
  ((forall l, bytes l -> whole (cipher_block_size t) l -> dec sd (enc se l) = l) ->
   concat pieces' = enc se (padded_message t (concat pieces)) ->
   cipher_no_memory (evp_decrypt pieces') w \/ exists w', errors w' = errors w /\
     evp_decrypt pieces' w = (Some (1, concat pieces), w')).
Proof.
  intros Hf Hke Hkd Hp Hp'. split; [|assert (cipher_no_memory (evp_decrypt pieces') w \/
    exists w0 r out w', errors w0 = errors w /\ evp_decrypt pieces' w = (Some (r, out), w') /\
      decryption t dec sd (concat pieces') w0 r out w') as Hdec; [|split; [done|]]].
  - destruct (init_run t repE enc nextE key (Some ivb) 1 se w Hf ltac:(by right) Hke) as (r & ctx & w1 & E & [(-> & H)|(-> & H & Hfr)]).
    + left. exists w1. split; [|done]. unfold evp_encrypt. by rewrite (bind_ok _ _ _ _ _ E).
    + right. exists w1. split; [done|]. unfold evp_encrypt. rewrite (bind_ok _ _ _ _ _ E). cbn [Z.eqb].
      by apply (encrypt_message_run t repE enc nextE).
  - destruct (init_run t repD dec nextD key (Some ivb) 0 sd w Hf ltac:(by left) Hkd) as (r & ctx & w1 & E & [(-> & H)|(-> & H & Hfr)]).
    + left. exists w1. split; [|done]. unfold evp_decrypt. by rewrite (bind_ok _ _ _ _ _ E).
    + right. destruct (decrypt_message_run t repD dec nextD ctx sd pieces' w1 Hfr Hp') as (r & out & w' & E' & Hd).
      exists w1, r, out, w'. split; [done|]. unfold evp_decrypt. rewrite (bind_ok _ _ _ _ _ E). cbn [Z.eqb]. done.
  - intros Hinv Hct. destruct Hdec as [Hm|(w0 & r & out & w' & Hw & E & Hd)]; [by left|right].
    rewrite Hct in Hd. destruct (decryption_roundtrip (concat pieces) w0 r out w') as (-> & -> & ->); [done|by apply pieces_bytes|by apply keyed_state|done|].
    by exists w0.
Qed.
End Roundtrip.

(** * A concrete cipher *)

Definition toy_init_key (k : cipher_core (EVP_AES_KEY Z)) (key iv_arg : option (list Z)) (enc : Z) :
    W (Z * cipher_core (EVP_AES_KEY Z)) :=
  x ← mopt (key ≫= head);
  mret (1, set_cipher_data (Some (CipherData (EvpAesKey x (Some (if enc =? 0 then toy_inverse else toy_block)) None))) k).

Definition toy_cbc : EVP_CIPHER (EVP_AES_KEY Z) :=
  EvpCipher 419 16 1 16 8 EVP_CIPH_CBC_MODE toy_init_key aes_cbc_cipher None None.

Lemma toy_keyed x ivb e f : is_block ivb -> f = (if e =? 0 then toy_inverse else toy_block) ->
  keyed toy_cbc (cbc_rep x f e) [x] (Some ivb) e ivb.
Proof.
  intros Hiv -> k w _ _ Hf He Ho Hi. exists (set_ivs ivb ivb k). eexists. destruct k as [d kl e' fl o i n]. cbn [Cipher.flags encrypt oiv iv] in Hf, He, Ho, Hi. subst.
  destruct Hiv as [Hb Hl].
  assert (load_bytes (Some ivb) 0 16 = Some ivb) as Eld by (rewrite load_at by (unfold blen; lia); by rewrite drop_0, take_ge by (cbn; lia)).
  assert (mjoin (store_bytes (Some (replicate 16 0)) 0 ivb) = Some ivb) as Est.
  { rewrite store_into by (unfold blen; rewrite ?length_replicate; lia). unfold write_at. rewrite take_0, app_nil_l, drop_ge, app_nil_r; [done|].
    rewrite length_replicate. unfold blen. lia. }
  split; [|split; [done|]].
  - change (negb (has_flag (EVP_CIPHER_flags toy_cbc) EVP_CIPH_CUSTOM_IV)) with true. cbv iota. unfold init_iv.
    change (EVP_CIPHER_mode toy_cbc) with 2. cbn [Z.eqb orb cipher_iv_len toy_cbc]. cbn -[replicate load_bytes store_bytes mopt].
    rewrite Eld. match goal with |- ((mret tt ≫= ?f) w = _) => change ((mret tt ≫= f) w) with (f tt w) end. cbv beta.
    rewrite (bind_ok _ _ _ ivb w) by (by rewrite mopt_bind, Est). by rewrite Eld, mopt_bind, Est, mopt_bind.
  - split; [|done]. by split.
Qed.

(** The witness's message and its cuts. *)
Lemma evp_cipher_streaming_witness :
  let iv := seqZ 200 16 in
  let ct := cbc_encrypt toy_block 0x5a iv (padded_message toy_cbc (seqZ 1 20)) in
  (exists w', evp_encrypt (ms:=zero_mallocs) toy_cbc [0x5a] iv [seqZ 1 5; []; seqZ 6 15] (World 0 0 []) = (Some (1, ct), w')) /\
  (exists w', evp_decrypt (ms:=zero_mallocs) toy_cbc [0x5a] iv [take 30 ct; drop 30 ct] (World 0 0 []) = (Some (1, seqZ 1 20), w')).
Proof.
  assert (is_block (seqZ 200 16)) as Hiv by (split; [apply (bool_decide_unpack _); vm_compute; exact I|done]).
  destruct (evp_cipher_streaming (ms:=zero_mallocs) toy_cbc _ _ _ (ME:=cbc_encrypt_method toy_block 0x5a toy_cbc eq_refl eq_refl eq_refl)
    _ _ _ (MD:=cbc_decrypt_method toy_inverse 0x5a toy_cbc eq_refl eq_refl eq_refl) [0x5a] (seqZ 200 16) (seqZ 200 16) (seqZ 200 16)
    [seqZ 1 5; []; seqZ 6 15]
    (let ct := cbc_encrypt toy_block 0x5a (seqZ 200 16) (padded_message toy_cbc (seqZ 1 20)) in [take 30 ct; drop 30 ct])
    (World 0 0 []) eq_refl (toy_keyed _ _ _ _ Hiv eq_refl) (toy_keyed _ _ _ _ Hiv eq_refl)) as (He & _ & Hd).
  - apply (bool_decide_unpack _). vm_compute. exact I.
  - apply (bool_decide_unpack _). vm_compute. exact I.
  - assert (forall l, bytes l -> whole 16 l -> cbc_decrypt toy_inverse 0x5a (seqZ 200 16) (cbc_encrypt toy_block 0x5a (seqZ 200 16) l) = l) as Hinv.
    { intros l Hb Hw. apply (cbc_decrypt_encrypt _ _ _); [|done..]. intros x. apply toy_inverse_block. }
    specialize (Hd Hinv ltac:(vm_compute; reflexivity)). split.
    + destruct He as [(w' & E & _)|(w' & _ & E)]; [vm_compute in E; discriminate|by exists w'].
    + destruct Hd as [(w' & E & _)|(w' & _ & E)]; [vm_compute in E; discriminate|by exists w'].
Defined.
